(* ===== verification/_CoqProject ===== *)
-Q . S2P
Prelude.v
Exceptions.v
Text.v
Fc.v
Version.v
Config.v
Asset.v
AssetProps.v
FlatMap.v
Authority.v
Operations.v
Crypto.v
Validate.v
ValidateProps.v
SignState.v
Transaction.v
TransactionProps.v
BlockId.v
ForkDatabase.v
PushBlock.v
Objects.v
Database.v
Conservation.v
Sample.v
Transfers.v
Escrow.v
Market.v
Conversion.v
Preserve.v
Vesting.v
Production.v
Schedule.v
Bookkeeping.v
Burning.v
Funds.v
Delegation.v
Accounts.v
Curation.v
Comments.v
Cashout.v
Payout.v
Discussions.v
Hardfork16.v
Hardforks.v
Forest.v
Votes.v
Ledger.v
Threads.v
Rewards.v
Identifiers.v
Tally.v
Retally.v
Clock.v
Recovery.v
Applying.v
Chain.v
Types.v
BlockRun.v
Genesis.v
