(* ===== verification/Prelude.v ===== *)
(** * Golos: a shallow embedding of the chain and protocol libraries

    Golos is a blockchain node in C++.  Its consensus logic is in two libraries:
    [libraries/protocol] (assets, authorities, operations, transactions, block headers)
    and [libraries/chain] (the object database, the evaluators of operations, the steps
    of a block, the fork database).  This development models that logic as executable
    functions and proves what makes it correct.  Paths below are under [src/].

    ** How the code is modelled

    - Integers are [Z] with the width written out where it matters: [to_uint32_wrap] and
      its like are conversions, [is_int64] says what [int64_t] holds, [safe_add] and its
      like are the checked integers of [fc].
    - A function that may throw returns [result] (Exceptions); the exceptions are the
      classes of [protocol/exceptions.hpp].
    - The chain state is the record [database] (Database): a [table] per object type (a
      map from the key that identifies an object, and the counter of ids) and the
      singleton objects.  Code on it lives in the monad [M] (state and exceptions); an
      exception loses the changes, as the undo sessions around every operation do.  A
      reference to an object is its key, so reading through it sees later changes.
    - An index that a loop walks is computed by sorting the rows ([sorted_rows], [first_due]);
      loops that are not structural have fuel, and the theorems prove the fuel is enough
      ([drain] returns when it runs out; the number of rows plus one is enough because each
      turn removes a row or moves it behind the horizon, and the theorems on the steps of a
      block state that nothing that was due is left; [withdrawal_loop],
      [fetch_branch_from], [pop_until] and [merkle_loop] likewise).  The loops of
      [process_hardforks] have one turn more than there are hardforks: each turn applies one
      or throws.
    - The code is taken in the configuration of the live network and at the state of
      hardforks recorded in the database ([has_hardfork]), with both branches kept.

    ** Parameters

    - [fc_ops] (Fc): checked and 128-bit integers, times and text conversions of the [fc]
      submodule, with their documented behaviour as [fc_laws]; [fc_ref] is an instance.
    - [crypto_ops] (Crypto): digests, signatures, sizes of packed values; [crypto_ref] is an
      instance.
    - [chain_ops] and [chain_laws] (PushBlock): what the switching of forks relies on of the
      application of a block; Chain proves that the database provides it.
    - [other_steps] (Chain): the step of [_apply_block] that is not modelled
      ([clear_expired_proposals]) and the public key that hardfork 0.16 gives to
      compromised accounts, which the source writes as text; [init_genesis] takes the key of
      the first miner and the accounts of the snapshot file likewise.

    ** The files

    - Prelude, Exceptions, Text, Fc, Config, FlatMap: record update, finite sums, sorting,
      exceptions and the check macros, strings, the [fc] interface, constants, flat maps.
    - Asset, AssetProps: [protocol/asset.cpp].  The product with a price is exact division
      rounded down and converting there and back gains nothing; the order of prices is the
      order of fractions; printing and parsing are inverse.
    - Version: [protocol/version.cpp].  The text of a version reads back as the version; the
      reader is the formatted input of the standard library.
    - Authority, SignState, Transaction, TransactionProps: [protocol/authority.cpp],
      [sign_state.cpp], [transaction.cpp].  A transaction is accepted only if every
      required authority is satisfied by signatures, and the search is complete within
      its depth; the account name check is its grammar.
    - Operations, Validate, ValidateProps: the operations of [protocol/steem_operations.hpp]
      and their [validate] methods.
    - Crypto, BlockId: block headers and ids ([protocol/block.cpp]).
    - ForkDatabase, PushBlock: [chain/fork_database.cpp], and [push_block] and [pop_block] of
      [chain/database.cpp].  The links of the tree, the two branches of a fork, that the
      search for them ends, that a longer branch is adopted, that a failed switch is
      undone, and that a refused block can hide a branch.
    - Objects, Database, Conservation, Preserve, Sample: the objects of
      [chain/include/golos/chain], the tables, balances, supply, vesting and vote
      bookkeeping; relations that code preserves; a small state for witnesses.
    - Transfers, Escrow, Market, Conversion, Vesting, Delegation, Votes: the evaluators of
      [chain/steem_evaluator.cpp] with the block steps of [chain/database.cpp] that belong to
      them, each with what it moves, when it fails and what it keeps.
    - Accounts: creation and update of accounts, challenges, recovery with its block step,
      witness updates ([chain/steem_evaluator.cpp],
      [chain/chain_properties_evaluators.cpp]).
    - Curation, Comments, Cashout: [chain/curation_info.cpp], the evaluators of comments and
      votes of [chain/steem_evaluator.cpp], and the payout of comments of
      [chain/database.cpp].  How close the approximate square root is, that the weights of
      votes do not wrap and how a changed vote makes them, and that all claims together
      stay within the reward.
    - Payout, Discussions, Rewards: what a comment earns, that a payout conserves value,
      that the reward fund covers all payouts of a block, and that no due comment is left;
      [discussing] and [paying] are the changes an invariant must allow to be preserved by
      the code on comments.
    - Hardfork16, Hardforks, Retally: [process_hardforks] and [apply_hardfork] with what each
      hardfork does to the state, and the accounts of [chain/hardfork.d/0_16.hf].  Hardforks
      are applied in order, once, as long as one is due; a node stops at one it does not
      know; the retallies leave exact counts whatever was recorded; the split of vesting
      shares scales every share.
    - Forest, Threads: comments as a forest, an abstract transition system of which every
      operation and block step is a step; the counts of replies and of reward shares are
      exact, as [validate_invariants] asserts.
    - Bookkeeping, Burning: what blocks and transactions write down besides moving value and
      votes (bandwidth, known transactions, summaries, the witnesses' record, the schedule),
      and the burning of what "null" owns.
    - Ledger, Identifiers, Tally, Types, Clock: the steps of the ledger together: validated
      operations, the steps of a block, payouts, hardforks after 0.17, bookkeeping and moves
      of the head block ([ledger_step]).  The books balance in every symbol, ids are not used
      twice, recorded votes equal a recount, balances keep their symbols, and only the
      application of blocks moves the head.  The relation takes [conditions] as an argument:
      the balance of the books asks that the votes of a paid comment can be weighed and that
      the shares of "null" have a value, the recount that "null" neither votes nor has a
      proxy; the other theorems ask nothing.
    - Recovery: what account recovery needs, that for thirty days nothing can take it away,
      and what the block step removes.
    - Production: slots, header checks, missed blocks, irreversibility.
    - Schedule: [update_witness_schedule] and [update_median_witness_props].  Who produces
      the next round, the queue of virtual time, the medians of the proposed properties,
      and that witnesses without keys can stop the chain.
    - Funds: [process_funds], [pay_liquidity_reward], [update_median_feed],
      [update_virtual_supply].  What a block issues, that the price is a median of medians,
      the virtual supply and the share of rewards in GBG.
    - Applying: [_apply_transaction] and what it needs; a transaction is applied once.
    - Chain: [_apply_block]; the database implements [chain_ops].
    - BlockRun: a block that applies is a run of ledger steps, so it keeps the invariants.
    - Genesis: [init_genesis].  It succeeds on a database without objects and establishes
      the invariants of the other files; the books balance in every state that the steps of
      the ledger reach from it.

    ** Not modelled

    Proposals; mining; custom operations (plugins interpret them); pending transactions and
    block generation (a node clears its pending transactions before it pushes a block, so
    they are not part of its state here); [set_hardfork], which only tests and a debugging
    plugin call; the checkpoints of the configuration and the flush of the object store in
    [apply_block], around [_apply_block]; the checksum of the snapshot file; the block log
    beyond the list of its blocks (file I/O); networking, wallet, plugins and programs,
    which do not change the consensus state. *)

From Stdlib Require Export ZArith Lia Ascii.
From stdpp Require Export base gmap list strings sorting.

#[global] Open Scope Z_scope.

(** ** Functional update of one record field

    [r <| f := v |>] is the record [r] with field [f] replaced by [v].  A
    record type declares how it is rebuilt from its own projections (class
    [Rebuild]); the setter of a projection is obtained from that term by
    abstracting the projection. *)

Class Rebuild (R : Type) := rebuild : R -> R.
Class FieldSetter {R T : Type} (proj : R -> T) := set_field : (T -> T) -> R -> R.
#[global] Hint Mode FieldSetter + + + : typeclass_instances.

Ltac solve_field_setter :=
  lazymatch goal with
  | |- @FieldSetter ?R ?T ?proj =>
      let body := constr:(@rebuild R _) in
      let body := eval hnf in body in
      let abstracted := eval pattern proj in body in
      lazymatch abstracted with
      | ?f proj => let s := eval cbv beta in (fun g : T -> T => f (fun r => g (proj r))) in exact s
      end
  end.
#[global] Hint Extern 0 (FieldSetter _) => solve_field_setter : typeclass_instances.

Declare Scope record_scope.
Notation "r <| f := v |>" := (@set_field _ _ f _ (fun _ => v) r)
  (at level 1, left associativity, f constr, v at level 200,
   format "r  <|  f  :=  v  |>") : record_scope.
Notation "r <| f ::= g |>" := (@set_field _ _ f _ g r)
  (at level 1, left associativity, f constr, g at level 200,
   format "r  <|  f  ::=  g  |>") : record_scope.
#[global] Open Scope record_scope.

(** ** Machine integers

    A C++ integer of a given width is a [Z]; the predicates below say which
    [Z] a variable of that type can hold, and the wrapping conversions say what
    an out-of-range conversion stores. *)

Definition int64_min : Z := - 2 ^ 63.
Definition int64_max : Z := 2 ^ 63 - 1.
Definition is_int64 (z : Z) : bool := (int64_min <=? z) && (z <=? int64_max).
Definition is_uint64 (z : Z) : bool := (0 <=? z) && (z <? 2 ^ 64).

(** Conversion to [int64_t] of an integer of another type (two's complement). *)
Definition to_int64_wrap (z : Z) : Z := (z + 2 ^ 63) mod 2 ^ 64 - 2 ^ 63.
Definition to_int32_wrap (z : Z) : Z := (z + 2 ^ 31) mod 2 ^ 32 - 2 ^ 31.
Definition to_int8_wrap (z : Z) : Z := (z + 2 ^ 7) mod 2 ^ 8 - 2 ^ 7.
Definition to_uint8_wrap (z : Z) : Z := z mod 2 ^ 8.
Definition to_uint16_wrap (z : Z) : Z := z mod 2 ^ 16.
Definition to_uint32_wrap (z : Z) : Z := z mod 2 ^ 32.
Definition to_uint64_wrap (z : Z) : Z := z mod 2 ^ 64.

Lemma is_int64_spec z : is_int64 z = true <-> - 2 ^ 63 <= z < 2 ^ 63.
Proof. unfold is_int64, int64_min, int64_max. rewrite andb_true_iff, !Z.leb_le. lia. Qed.

Lemma to_int64_wrap_id z : is_int64 z = true -> to_int64_wrap z = z.
Proof.
  rewrite is_int64_spec. unfold to_int64_wrap. intros H.
  rewrite Z.mod_small; lia.
Qed.

Lemma to_int64_wrap_add x y : to_int64_wrap (to_int64_wrap x + y) = to_int64_wrap (x + y).
Proof.
  unfold to_int64_wrap. f_equal.
  replace ((x + 2 ^ 63) mod 2 ^ 64 - 2 ^ 63 + y + 2 ^ 63) with ((x + 2 ^ 63) mod 2 ^ 64 + y) by lia.
  rewrite Z.add_mod_idemp_l by lia. f_equal. lia.
Qed.

Lemma to_int64_wrap_range z : is_int64 (to_int64_wrap z) = true.
Proof.
  rewrite is_int64_spec. unfold to_int64_wrap.
  pose proof (Z.mod_pos_bound (z + 2 ^ 63) (2 ^ 64) ltac:(lia)). lia.
Qed.

(** ** Sums over the rows of a finite map *)

Definition msum {K V : Type} `{Countable K} (f : V -> Z) (m : gmap K V) : Z :=
  map_fold (fun _ v acc => f v + acc) 0 m.

Section MSum.
Context {K V : Type} `{Countable K}.
Implicit Types (f g : V -> Z) (m : gmap K V).

Lemma msum_empty f : msum f (∅ : gmap K V) = 0.
Proof. apply map_fold_empty. Qed.

Lemma msum_insert_fresh f m k v : m !! k = None -> msum f (<[k := v]> m) = f v + msum f m.
Proof.
  intros Hk. unfold msum. rewrite map_fold_insert_L; [done | | done].
  intros; lia.
Qed.

Lemma msum_delete f m k v : m !! k = Some v -> msum f (delete k m) = msum f m - f v.
Proof.
  intros Hk. rewrite <- (insert_delete_id m k v Hk) at 2.
  rewrite msum_insert_fresh by apply lookup_delete_eq. lia.
Qed.

Lemma msum_insert f m k v old :
  m !! k = Some old -> msum f (<[k := v]> m) = msum f m - f old + f v.
Proof.
  intros Hk. rewrite <- insert_delete_eq.
  rewrite msum_insert_fresh by apply lookup_delete_eq.
  rewrite (msum_delete f m k old Hk). lia.
Qed.

Lemma sum_perm f (l l' : list V) :
  l ≡ₚ l' -> foldr (fun v acc => f v + acc) 0 l = foldr (fun v acc => f v + acc) 0 l'.
Proof. induction 1; cbn; lia. Qed.

(** Maps with the same keys and values that [f] does not tell apart. *)
Lemma msum_related f g (R : V -> V -> Prop) m m' :
  (forall v v', R v v' -> f v' = g v) -> (forall k, option_Forall2 R (m !! k) (m' !! k)) -> msum f m' = msum g m.
Proof.
  intros Hf. revert m'. induction m as [| k v m Hk IH] using map_ind; intros m' Hm.
  - assert (m' = ∅) as ->; [|done]. apply map_empty. intros k. specialize (Hm k). rewrite lookup_empty in Hm.
    by inversion Hm.
  - pose proof (Hm k) as Hm'. rewrite lookup_insert_eq in Hm'. inversion Hm' as [? v' Hv E E' |]; subst.
    rewrite msum_insert_fresh by done. rewrite <- (insert_delete_id m' k v') by done.
    rewrite msum_insert_fresh by apply lookup_delete_eq. rewrite (Hf v v' Hv). f_equal. apply IH.
    intros k'. destruct (decide (k' = k)) as [-> | Hne].
    + rewrite lookup_delete_eq, Hk. constructor.
    + rewrite lookup_delete_ne by done. specialize (Hm k'). by rewrite lookup_insert_ne in Hm.
Qed.
Lemma msum_rel f (R : V -> V -> Prop) m m' :
  (forall v v', R v v' -> f v' = f v) -> (forall k, option_Forall2 R (m !! k) (m' !! k)) -> msum f m' = msum f m.
Proof. apply msum_related. Qed.

Lemma msum_nonneg f m : (forall k v, m !! k = Some v -> 0 <= f v) -> 0 <= msum f m.
Proof.
  induction m as [| k v m Hk IH] using map_ind; intros Hpos.
  - rewrite msum_empty. lia.
  - rewrite msum_insert_fresh by done.
    assert (0 <= f v) by (apply (Hpos k); apply lookup_insert_eq).
    assert (0 <= msum f m).
    { apply IH. intros k' v' Hk'. apply (Hpos k').
      rewrite lookup_insert_ne; [done | congruence]. }
    lia.
Qed.

Lemma msum_ext f g m : (forall k v, m !! k = Some v -> f v = g v) -> msum f m = msum g m.
Proof.
  induction m as [| k v m Hk IH] using map_ind; intros Heq.
  - by rewrite !msum_empty.
  - rewrite !msum_insert_fresh by done. rewrite (Heq k v) by apply lookup_insert_eq.
    f_equal. apply IH. intros k' v' Hk'. apply (Heq k').
    rewrite lookup_insert_ne; [done | congruence].
Qed.

Lemma msum_zero f m : (forall k v, m !! k = Some v -> f v = 0) -> msum f m = 0.
Proof.
  intros Hf. rewrite (msum_ext f (fun _ => 0)) by exact Hf. clear Hf.
  induction m as [| k v m Hk IH] using map_ind; [apply msum_empty|]. by rewrite msum_insert_fresh, IH.
Qed.

Lemma msum_fmap f (h : V -> V) m : msum f (h <$> m) = msum (fun v => f (h v)) m.
Proof.
  induction m as [| k v m Hk IH] using map_ind.
  - by rewrite fmap_empty, !msum_empty.
  - rewrite fmap_insert, !msum_insert_fresh, IH; [done | done |].
    by rewrite lookup_fmap, Hk.
Qed.

End MSum.

(** ** Sorting: the order in which an index lists its entries *)

Fixpoint insert_by {A : Type} (leb : A -> A -> bool) (x : A) (l : list A) : list A :=
  match l with
  | [] => [x]
  | y :: l' => if leb x y then x :: l else y :: insert_by leb x l'
  end.
Fixpoint sort_by {A : Type} (leb : A -> A -> bool) (l : list A) : list A :=
  match l with
  | [] => []
  | x :: l' => insert_by leb x (sort_by leb l')
  end.

Lemma insert_by_perm {A : Type} (leb : A -> A -> bool) x l : insert_by leb x l ≡ₚ x :: l.
Proof.
  induction l as [| y l IH]; cbn; [done|]. destruct (leb x y); [done|].
  rewrite IH. apply Permutation_swap.
Qed.

Lemma sort_by_perm {A : Type} (leb : A -> A -> bool) l : sort_by leb l ≡ₚ l.
Proof. induction l as [| x l IH]; cbn; [done|]. by rewrite insert_by_perm, IH. Qed.

Lemma insert_by_head {A : Type} (leb : A -> A -> bool) a l :
  head (insert_by leb a l) = match head l with Some x => Some (if leb a x then a else x) | None => Some a end.
Proof. destruct l as [| x l]; cbn; [done|]. by destruct (leb a x). Qed.

(** The head of a list sorted by a total preorder is its least element. *)
Lemma sort_by_head {A : Type} (leb : A -> A -> bool) l x :
  (forall x y, leb x y = false -> leb y x = true) ->
  (forall x y z, leb x y = true -> leb y z = true -> leb x z = true) ->
  head (sort_by leb l) = Some x -> forall y, y ∈ l -> leb x y = true.
Proof.
  intros Htot Htrans. assert (Hrefl : forall a, leb a a = true).
  { intros a. destruct (leb a a) eqn:E; [done|]. specialize (Htot a a E). congruence. }
  revert x. induction l as [| a l IH]; [done|]. cbn. intros x. rewrite insert_by_head.
  destruct (head (sort_by leb l)) as [z|] eqn:Ez.
  - specialize (IH z eq_refl). intros [= <-] y [-> | Hy]%elem_of_cons.
    + destruct (leb a z) eqn:Eaz; [apply Hrefl | by apply Htot].
    + destruct (leb a z) eqn:Eaz; [|by apply IH]. by eapply Htrans; [|apply IH].
  - assert (l = []) as ->.
    { apply Permutation_nil_r. rewrite <- (sort_by_perm leb l). by destruct (sort_by leb l). }
    intros [= <-] y Hy. apply list_elem_of_singleton in Hy as ->. apply Hrefl.
Qed.

(** A list sorted by what is a total preorder on its entries is sorted. *)
Lemma sort_by_sorted_on {A : Type} (P : A -> Prop) (leb : A -> A -> bool) l :
  (forall x y, P x -> P y -> leb x y = false -> leb y x = true) ->
  (forall x y z, P x -> P y -> P z -> leb x y = true -> leb y z = true -> leb x z = true) ->
  Forall P l -> StronglySorted (fun x y => leb x y = true) (sort_by leb l).
Proof.
  intros Htot Htrans. induction 1 as [| a l Ha Hl IH]; cbn; [constructor|].
  assert (Forall P (sort_by leb l)) as Hm by (by rewrite sort_by_perm). revert IH Hm. generalize (sort_by leb l) as m. clear l Hl.
  intros m Hs. induction Hs as [| x m Hs IH Hall]; intros Hm; cbn; [repeat constructor|].
  apply Forall_cons in Hm as [Hx Hm]. destruct (leb a x) eqn:E.
  - constructor; [by constructor|]. constructor; [done|]. rewrite Forall_forall in *. intros y Hy. eapply (Htrans a x y); eauto.
  - constructor; [by apply IH|]. rewrite insert_by_perm. constructor; [by apply Htot | done].
Qed.
Lemma sort_by_sorted {A : Type} (leb : A -> A -> bool) l :
  (forall x y, leb x y = false -> leb y x = true) ->
  (forall x y z, leb x y = true -> leb y z = true -> leb x z = true) ->
  StronglySorted (fun x y => leb x y = true) (sort_by leb l).
Proof. intros Htot Htrans. apply (sort_by_sorted_on (fun _ => True)); eauto. by apply Forall_true. Qed.
Lemma StronglySorted_sublist {A : Type} (R : relation A) l l' : sublist l l' -> StronglySorted R l' -> StronglySorted R l.
Proof.
  induction 1 as [| x l l' Hsub IH | x l l' Hsub IH]; intros Hs; [constructor | |].
  - apply StronglySorted_inv in Hs as [Hs Hall]. constructor; [by apply IH|]. rewrite Forall_forall in *.
    intros y Hy. apply Hall. by eapply elem_of_sublist.
  - apply StronglySorted_inv in Hs as [Hs _]. by apply IH.
Qed.
Lemma filter_all {A : Type} (P : A -> Prop) `{!forall x, Decision (P x)} l : Forall P l -> filter P l = l.
Proof. induction 1 as [| x l Hx _ IH]; [done|]. by rewrite filter_cons_True, IH. Qed.
(** Where an entry is in a sorted list says how many entries are not less and not greater. *)
Lemma sorted_rank {A : Type} (leb : A -> A -> bool) l k v : (forall x, x ∈ l -> leb x x = true) ->
  StronglySorted (fun x y => leb x y = true) l -> l !! k = Some v ->
  (length l <= k + length (filter (fun x => leb v x = true) l))%nat /\ (k < length (filter (fun x => leb x v = true) l))%nat.
Proof.
  intros Hrefl Hs. revert k Hrefl. induction Hs as [| x l Hs IH Hall]; intros k Hrefl Hk; [done|]. destruct k as [| k]; cbn in Hk.
  - injection Hk as ->. assert (leb v v = true) as Hv by (apply Hrefl; left). split.
    + rewrite (filter_all (fun x => leb v x = true)); [cbn; lia|]. by constructor.
    + rewrite filter_cons_True by done. cbn. lia.
  - assert (leb x v = true) as Hv.
    { rewrite Forall_forall in Hall. apply Hall. by eapply list_elem_of_lookup_2. }
    destruct (IH k) as [H1 H2]; [intros; apply Hrefl; by right | done|]. rewrite (filter_cons_True (fun x => leb x v = true)) by done.
    rewrite filter_cons. cbn. split; [case_decide; cbn; lia | lia].
Qed.
(** From an entry of a sorted list on there are at least as many entries not less. *)
Lemma sorted_above (l : list Z) (k : nat) (v : Z) : StronglySorted (fun x y => (x <=? y) = true) l -> l !! k = Some v ->
  (length l <= k + length (filter (fun x => (v <= x)%Z) l))%nat.
Proof.
  intros Hs. revert k. induction Hs as [| x l Hs IH Hall]; intros k Hk; [done|]. destruct k as [| k]; cbn in Hk.
  - injection Hk as ->. assert (Forall (fun y => v <= y) (v :: l)) as Hv.
    { constructor; [lia|]. eapply Forall_impl; [done|]. intros y Hy. cbv beta in Hy. lia. }
    clear -Hv. induction Hv as [| y m Hy _ IH]; [cbn; lia|]. rewrite filter_cons, decide_True by done. cbn. lia.
  - specialize (IH k Hk). rewrite filter_cons. case_decide; cbn; lia.
Qed.

(** The number of bits set in a 128-bit number, and what a shift does to it *)
Definition bits_set (x : Z) : Z := Z.of_nat (length (filter (fun i => Z.testbit x i = true) (seqZ 0 128))).

Lemma filter_length_mono {A : Type} (P Q : A -> Prop) `{!forall x, Decision (P x)} `{!forall x, Decision (Q x)} l :
  (forall x, P x -> Q x) -> (length (filter P l) <= length (filter Q l))%nat.
Proof.
  intros Himp. induction l as [| x l IH]; [done|]. rewrite !filter_cons.
  destruct (decide (P x)) as [Hp | _], (decide (Q x)) as [_ | Hq]; cbn; [lia | by destruct Hq; apply Himp | lia | lia].
Qed.
Lemma filter_fmap_length {A B : Type} (P : B -> Prop) (Q : A -> Prop) `{!forall x, Decision (P x)} `{!forall x, Decision (Q x)}
    (f : A -> B) l : (forall x, x ∈ l -> P (f x) <-> Q x) -> length (filter P (f <$> l)) = length (filter Q l).
Proof.
  induction l as [| x l IH]; intros Hiff; [done|]. rewrite fmap_cons, !filter_cons.
  rewrite (decide_ext (P (f x)) (Q x)) by (apply Hiff; left). specialize (IH (fun y Hy => Hiff y (list_elem_of_further _ _ _ Hy))).
  destruct (decide (Q x)); cbn; by rewrite IH.
Qed.
Lemma bits_set_bounds x : 0 <= bits_set x <= 128.
Proof.
  unfold bits_set. pose proof (length_filter (fun i => Z.testbit x i = true) (seqZ 0 128)) as H.
  rewrite length_seqZ in H. lia.
Qed.
Lemma bits_set_shift x (b : bool) : 0 <= x ->
  bits_set ((x * 2 + Z.b2z b) mod 2 ^ 128) = bits_set x - Z.b2z (Z.testbit x 127) + Z.b2z b.
Proof.
  intros Hx. unfold bits_set. set (y := (x * 2 + Z.b2z b) mod 2 ^ 128).
  assert (Z.testbit y 0 = b) as H0.
  { unfold y. rewrite Z.mod_pow2_bits_low by lia. rewrite Z.add_comm, Z.mul_comm. apply Z.add_b2z_double_bit0. }
  assert (forall i, 0 <= i < 127 -> Z.testbit y (Z.succ i) = Z.testbit x i) as HS.
  { intros i Hi. unfold y. rewrite Z.mod_pow2_bits_low by lia. transitivity (Z.testbit ((x * 2 + Z.b2z b) `div` 2) i); [symmetry; apply Z.div2_bits; lia|]. f_equal.
    rewrite Z.add_comm, Z.mul_comm. apply Z.add_b2z_double_div2. }
  change (seqZ 0 128) with (0 :: seqZ 1 127) at 1. rewrite filter_cons, H0.
  assert (length (filter (fun i => Z.testbit y i = true) (seqZ 1 127)) = length (filter (fun i => Z.testbit x i = true) (seqZ 0 127))) as E.
  { change (seqZ 1 127) with (seqZ (1 + 0) 127). rewrite <- (fmap_add_seqZ 1 0 127), (filter_fmap_length _ (fun i => Z.testbit x i = true)); [done|].
    intros i [? ?]%elem_of_seqZ. rewrite Z.add_1_l, HS; [done | lia]. }
  replace (seqZ 0 128) with (seqZ 0 127 ++ [127]) by reflexivity.
  rewrite filter_app, length_app, filter_cons, filter_nil.
  destruct b; destruct (Z.testbit x 127); repeat case_decide; try done; cbn -[filter seqZ]; lia.
Qed.

(** Lexicographic combination of comparisons. *)
Definition cmp_then (c d : comparison) : comparison := match c with Eq => d | _ => c end.

(** Reading of a boolean test as the proposition it decides. *)
Ltac bool_to_prop :=
  repeat match goal with
  | H : (_ && _)%bool = true |- _ => apply andb_true_iff in H; destruct H
  | H : (_ || _)%bool = false |- _ => apply orb_false_iff in H; destruct H
  | H : negb _ = true |- _ => apply negb_true_iff in H
  | H : negb _ = false |- _ => apply negb_false_iff in H
  | H : (_ =? _) = true |- _ => apply Z.eqb_eq in H
  | H : (_ =? _) = false |- _ => apply Z.eqb_neq in H
  | H : (_ <=? _) = true |- _ => apply Z.leb_le in H
  | H : (_ <=? _) = false |- _ => apply Z.leb_gt in H
  | H : (_ <? _) = true |- _ => apply Z.ltb_lt in H
  | H : (_ <? _) = false |- _ => apply Z.ltb_ge in H
  | H : (_ >? _) = _ |- _ => rewrite Z.gtb_ltb in H
  | H : (_ >=? _) = _ |- _ => rewrite Z.geb_leb in H
  | H : String.eqb _ _ = true |- _ => apply String.eqb_eq in H
  | H : String.eqb _ _ = false |- _ => apply String.eqb_neq in H
  end.

#[global] Create HintDb golos.
#[global] Create Rewrite HintDb golos.
