(* ===== verification/Exceptions.v ===== *)
(** * Exceptions and the error monad

    [libraries/protocol/include/golos/protocol/exceptions.hpp] declares the
    exception classes and the check macros.  A C++ function that may throw is a
    Rocq function into [result]; an exception is a value of [exception], whose
    constructors are the classes the modelled code throws, with the payload the
    code attaches.  [GOLOS_CHECK_PARAM] is the only handler in the modelled
    code, and [check_param] models it. *)

From S2P Require Import Prelude.

(** [logic_exception::error_types] *)
Inductive logic_error : Set :=
| reached_limit_for_pending_withdraw_requests
| parent_of_comment_cannot_change
| parent_perlink_of_comment_cannot_change
| voter_declined_voting_rights
| account_is_currently_challenged
| votes_are_not_allowed
| does_not_have_voting_power
| voting_weight_is_too_small
| cannot_vote_within_last_minute_before_payout
| cannot_vote_with_zero_rshares
| voter_has_used_maximum_vote_changes
| already_voted_in_similar_way
| cannot_update_comment_because_nothing_changed
| reached_comment_max_depth
| replies_are_not_allowed
| cannot_delete_comment_with_replies
| cannot_delete_comment_with_positive_votes
| comment_options_requires_no_rshares
| curation_rewards_cannot_be_reenabled
| voting_cannot_be_reenabled
| comment_cannot_accept_greater_payout
| comment_cannot_accept_greater_percent_GBG
| cannot_specify_more_beneficiaries
| comment_already_has_beneficiaries
| beneficiaries_should_be_unique
| comment_must_not_have_been_voted
| insufficient_fee_for_powerdown_registered_account
| operation_would_not_change_vesting_withdraw_rate
| cannot_create_zero_percent_destination
| reached_maxumum_number_of_routes
| more_100percent_allocated_to_destinations
| not_enough_delegation
| cannot_challenge_yourself
| account_is_not_challeneged
| escrow_no_amount_set
| escrow_wrong_time_limits
| escrow_time_in_past
| escrow_bad_to
| escrow_bad_agent
| escrow_bad_receiver
| ratification_deadline_passed
| account_already_approved_escrow
| cannot_dispute_expired_escrow
| escrow_must_be_approved_first
| escrow_already_disputed
| release_amount_exceeds_escrow_balance
| only_agent_can_release_disputed
| only_from_to_can_release_non_disputed
| from_can_release_only_to_to
| to_can_release_only_to_from
| cannot_recover_if_not_partner
| must_be_recovered_by_top_witness
| cannot_set_recent_recovery
| no_active_recovery_request
| authority_does_not_match_request
| no_recent_authority_in_history
| cannot_set_same_reset_account
| no_right_to_break_referral
| cannot_delegate_to_yourself
| delegation_difference_too_low
| delegation_limited_by_voting_power
| cannot_delegate_below_minimum
| cannot_change_delegator_interest_rate
| cannot_change_delegator_payout_strategy
| proposal_depth_too_high
| tx_with_both_posting_active_ops
| empty_approvals
| add_and_remove_same_approval
| cannot_add_approval_in_review_period
| non_existing_approval
| already_existing_approval
| proposal_delete_not_allowed
| limit_order_must_be_for_golos_gbg_market
| cancelling_not_filled_order
| price_feed_must_be_for_golos_gbg_market
| cannot_vote_when_route_are_set
| witness_vote_does_not_exist
| witness_vote_already_exist
| account_has_too_many_witness_votes
| proxy_must_change
| proxy_would_create_loop
| proxy_chain_is_too_long
| no_price_feed_yet
| duplicate_work_discovered
| miners_can_only_have_one_key_authority
| work_must_be_performed_by_signed_key
| work_not_for_last_block
| work_for_block_older_last_irreversible_block
| account_must_not_be_updated_in_this_block
| insufficient_work_difficalty
| account_already_scheduled_for_work
| cannot_specify_owner_key_unless_creating_account
| witness_must_be_created_before_minning
| inner_authorities_does_not_match_outer
| account_exceeded_bandwidth_per_vestring_share.

(** [bandwidth_exception::bandwidth_types] *)
Inductive bandwidth_types : Set :=
| post_bandwidth
| comment_bandwidth
| vote_bandwidth
| change_owner_authority_bandwidth
| custom_json_bandwidth.

(** The exception classes; accounts are names, public keys are the 33 bytes of
    [fc::ecc::public_key_data] read as one number. *)
Inductive exception : Set :=
(* thrown by fc: FC_ASSERT, and the checked arithmetic of fc::safe *)
| fc_assert_exception
| fc_overflow_exception
| fc_parse_error_exception
(* std::logic_error and std::out_of_range of the object store *)
| chainbase_logic_error
| chainbase_out_of_range
(* golos::operation_exception *)
| unsupported_operation
| unsupported_api_method
| invalid_arguments_count
| missing_object (kind : string)
| object_already_exist (kind : string)
| invalid_parameter (param : string)
(* golos::business_exception *)
| bandwidth_exception (t : bandwidth_types)
| insufficient_funds
| logic_exception (errid : logic_error)
| transit_enabled_exception
(* golos::internal_error *)
| internal_error
| assert_exception
| invalid_value
| limit_too_large
| database_corrupted
| invalid_option
(* golos::protocol::transaction_exception and the classes derived from it *)
| transaction_exception
| tx_invalid_operation
| tx_missing_active_auth (missing_accounts : list string) (used_signatures : list Z)
| tx_missing_owner_auth (missing_accounts : list string) (used_signatures : list Z)
| tx_missing_posting_auth (missing_accounts : list string) (used_signatures : list Z)
| tx_missing_other_auth
| tx_irrelevant_sig (unused_signatures : list Z)
| tx_duplicate_sig
| tx_irrelevant_approval (unused_approvals : list string)
| tx_duplicate_transaction
| tx_too_long
| tx_expired
| tx_invalid_field
(* golos::chain::chain_exception and the classes derived from it *)
| undo_database_exception
| unlinkable_block_exception
| pop_empty_chain
| unknown_hardfork_exception.

(** [code_value] of each class, from its GOLOS_DECLARE_DERIVED_EXCEPTION; the
    fc exceptions have their own numbering, outside the repository. *)
Definition exception_code (e : exception) : option Z :=
  match e with
  | fc_assert_exception | fc_overflow_exception | fc_parse_error_exception
  | chainbase_logic_error | chainbase_out_of_range => None
  | unsupported_operation => Some 1010000
  | unsupported_api_method => Some 1010100
  | invalid_arguments_count => Some 1020100
  | missing_object _ => Some 1020200
  | object_already_exist _ => Some 1020300
  | invalid_parameter _ => Some 1020400
  | bandwidth_exception _ => Some 2010000
  | insufficient_funds => Some 2020000
  | logic_exception _ => Some 2030000
  | transit_enabled_exception => Some 2040000
  | internal_error => Some 4000000
  | assert_exception => Some 4010000
  | invalid_value => Some 4020000
  | limit_too_large => Some 4020100
  | database_corrupted => Some 4030000
  | invalid_option => Some 5000000
  | transaction_exception => Some 3000000
  | tx_invalid_operation => Some 3010000
  | tx_missing_active_auth _ _ => Some 3020100
  | tx_missing_owner_auth _ _ => Some 3020200
  | tx_missing_posting_auth _ _ => Some 3020300
  | tx_missing_other_auth => Some 3020400
  | tx_irrelevant_sig _ => Some 3030000
  | tx_duplicate_sig => Some 3060000
  | tx_irrelevant_approval _ => Some 3070000
  | tx_duplicate_transaction => Some 3080000
  | tx_too_long => Some 3090000
  | tx_expired => Some 3100000
  | tx_invalid_field => Some 3110000
  | undo_database_exception => Some 4070000
  | unlinkable_block_exception => Some 4080000
  | pop_empty_chain => Some 4070001
  | unknown_hardfork_exception => Some 4090000
  end.

(** [golos::invalid_value] and the classes derived from it: what the handler of
    GOLOS_CHECK_PARAM catches. *)
Definition is_invalid_value (e : exception) : bool :=
  match e with
  | invalid_value | limit_too_large => true
  | _ => false
  end.

(** ** The error monad *)

Inductive result (A : Type) : Type :=
| Ok (a : A)
| Throw (e : exception).
Arguments Ok {A} a.
Arguments Throw {A} e.

#[global] Instance result_ret : MRet result := fun A a => Ok a.
#[global] Instance result_bind : MBind result := fun A B f m =>
  match m with
  | Ok a => f a
  | Throw e => Throw e
  end.

Definition is_ok {A : Type} (m : result A) : bool :=
  match m with Ok _ => true | Throw _ => false end.

(** FC_ASSERT(cond) *)
Definition fc_assert (cond : bool) : result unit :=
  if cond then Ok tt else Throw fc_assert_exception.

(** GOLOS_CHECK_VALUE(cond, ...) *)
Definition check_value (cond : bool) : result unit :=
  if cond then Ok tt else Throw invalid_value.

(** GOLOS_CHECK_LOGIC(cond, errid, ...) *)
Definition check_logic (cond : bool) (errid : logic_error) : result unit :=
  if cond then Ok tt else Throw (logic_exception errid).

(** GOLOS_CHECK_LIMIT(limit, max) *)
Definition check_limit (limit max_value : Z) : result unit :=
  if limit <=? max_value then Ok tt else Throw limit_too_large.

(** GOLOS_CHECK_PARAM(param, validator): an invalid_value thrown by the
    validator is reported as invalid_parameter; every other exception passes. *)
Definition check_param {A : Type} (param : string) (validator : result A) : result A :=
  match validator with
  | Ok a => Ok a
  | Throw e => if is_invalid_value e then Throw (invalid_parameter param) else Throw e
  end.

(** A loop over a container whose body may throw. *)
Fixpoint result_for_each {A : Type} (f : A -> result unit) (l : list A) : result unit :=
  match l with
  | [] => Ok tt
  | x :: l' => f x ;; result_for_each f l'
  end.

Lemma bind_Ok {A B : Type} (m : result A) (f : A -> result B) (b : B) :
  (m ≫= f) = Ok b <-> exists a, m = Ok a /\ f a = Ok b.
Proof. destruct m; cbn; naive_solver. Qed.

Lemma fc_assert_Ok c u : fc_assert c = Ok u <-> c = true.
Proof. destruct c, u; cbn; naive_solver. Qed.

Lemma check_value_Ok c u : check_value c = Ok u <-> c = true.
Proof. destruct c, u; cbn; naive_solver. Qed.

Lemma check_logic_Ok c e u : check_logic c e = Ok u <-> c = true.
Proof. destruct c, u; cbn; naive_solver. Qed.

Lemma check_limit_Ok l m u : check_limit l m = Ok u <-> l <= m.
Proof.
  unfold check_limit. destruct (Z.leb_spec l m), u; split; intros; try lia; try done.
Qed.

Lemma check_param_Ok {A : Type} p (m : result A) a : check_param p m = Ok a <-> m = Ok a.
Proof. destruct m; cbn; [done|]. destruct (is_invalid_value e); naive_solver. Qed.

Lemma check_param_never_invalid_value {A : Type} p (m : result A) e :
  check_param p m = Throw e -> is_invalid_value e = false.
Proof.
  destruct m as [a | e']; cbn; [done|].
  destruct (is_invalid_value e') eqn:E; intros [= <-]; done.
Qed.

Lemma result_for_each_Ok {A : Type} (f : A -> result unit) l u :
  result_for_each f l = Ok u <-> Forall (fun x => f x = Ok tt) l.
Proof.
  destruct u. induction l as [| x l IH]; cbn.
  - split; auto.
  - rewrite Forall_cons, <- IH. destruct (f x) as [[] | e]; cbn; naive_solver.
Qed.

#[export] Hint Rewrite fc_assert_Ok check_value_Ok check_logic_Ok check_limit_Ok
  @check_param_Ok @result_for_each_Ok : golos.

(** Decomposes hypotheses of the shape [computation = Ok r] into the facts that
    made it succeed. *)
Ltac inv_ok_step :=
  match goal with
  | H : Ok _ = Ok _ |- _ => injection H as H
  | H : (mret _) = Ok _ |- _ => cbn in H
  | H : Throw _ = Ok _ |- _ => discriminate H
  | H : (_ ≫= _) = Ok _ |- _ =>
      apply bind_Ok in H; let a := fresh "a" in let H1 := fresh "Hrun" in
      destruct H as (a & H1 & H)
  | H : fc_assert _ = Ok _ |- _ => apply fc_assert_Ok in H
  | H : check_value _ = Ok _ |- _ => apply check_value_Ok in H
  | H : check_logic _ _ = Ok _ |- _ => apply check_logic_Ok in H
  | H : check_limit _ _ = Ok _ |- _ => apply check_limit_Ok in H
  | H : check_param _ _ = Ok _ |- _ => apply check_param_Ok in H
  | H : result_for_each _ _ = Ok _ |- _ => apply result_for_each_Ok in H
  | H : (if ?c then Throw _ else _) = Ok _ |- _ => destruct c eqn:?; [discriminate H|]
  | H : (if ?c then _ else Throw _) = Ok _ |- _ => destruct c eqn:?; [|discriminate H]
  | u : unit |- _ => destruct u
  end.
Ltac inv_ok := repeat inv_ok_step; simplify_eq.
