(* ===== verification/Text.v ===== *)
(** * Character strings

    The operations of [std::string] the modelled code uses ([find], [substr],
    [size]) on Rocq strings, and facts about decimal numerals. *)

From stdpp Require Import pretty.
From S2P Require Import Prelude.

(** [s.find(c)] for a one-character pattern; [None] is npos. *)
Fixpoint find_char (c : ascii) (s : string) : option nat :=
  match s with
  | EmptyString => None
  | String c' s' => if Ascii.eqb c c' then Some O else S <$> find_char c s'
  end.

Fixpoint drop_string (n : nat) (s : string) : string :=
  match n, s with
  | O, _ => s
  | S n', String _ s' => drop_string n' s'
  | S _, EmptyString => EmptyString
  end.

Fixpoint take_string (n : nat) (s : string) : string :=
  match n, s with
  | S n', String c s' => String c (take_string n' s')
  | _, _ => EmptyString
  end.


(** Every character of the string satisfies [P]. *)
Fixpoint all_chars (P : ascii -> bool) (s : string) : bool :=
  match s with
  | EmptyString => true
  | String c s' => P c && all_chars P s'
  end.

(** [s.size()] *)
Definition size_of (s : string) : Z := Z.of_nat (String.length s).

Definition is_decimal_digit (c : ascii) : bool :=
  let n := N_of_ascii c in (48 <=? n)%N && (n <=? 57)%N.

(** [shared_string::c_str] as comparisons by [strcmp] see it: up to the first zero character *)
Fixpoint c_str (s : string) : string :=
  match s with
  | EmptyString => EmptyString
  | String c s' => if (N_of_ascii c =? 0)%N then EmptyString else String c (c_str s')
  end.

Lemma string_app_cons c s t : String c s +:+ t = String c (s +:+ t).
Proof. reflexivity. Qed.

Lemma string_app_nil t : EmptyString +:+ t = t.
Proof. reflexivity. Qed.

Lemma take_string_app s t : take_string (String.length s) (s +:+ t) = s.
Proof.
  induction s as [| c s IH]; [by destruct t|]. rewrite string_app_cons. cbn. by rewrite IH.
Qed.

Lemma drop_string_app s t : drop_string (String.length s) (s +:+ t) = t.
Proof. induction s as [| c s IH]; [done | apply IH]. Qed.

Lemma string_length_app s t : String.length (s +:+ t) = (String.length s + String.length t)%nat.
Proof. induction s as [| c s IH]; [done|]. rewrite string_app_cons. cbn. by rewrite IH. Qed.

Lemma string_app_assoc s t u : (s +:+ t) +:+ u = s +:+ (t +:+ u).
Proof. induction s as [| c s IH]; [done|]. rewrite !string_app_cons. by rewrite IH. Qed.

Lemma all_chars_app P s t : all_chars P (s +:+ t) = all_chars P s && all_chars P t.
Proof.
  induction s as [| c s IH]; [done|]. rewrite string_app_cons. cbn.
  by rewrite IH, andb_assoc.
Qed.

Lemma all_chars_impl (P Q : ascii -> bool) s :
  (forall c, P c = true -> Q c = true) -> all_chars P s = true -> all_chars Q s = true.
Proof.
  intros HPQ. induction s as [| c s IH]; cbn; [done|].
  rewrite !andb_true_iff. naive_solver.
Qed.

(** A character is found at the end of the prefix that avoids it. *)
Lemma find_char_app c s t :
  all_chars (fun c' => negb (Ascii.eqb c c')) s = true ->
  find_char c (s +:+ String c t) = Some (String.length s).
Proof.
  induction s as [| c' s IH]; [rewrite string_app_nil; cbn; by rewrite Ascii.eqb_refl|].
  rewrite string_app_cons. cbn.
  destruct (Ascii.eqb c c'); cbn; [done|]. intros H. by rewrite IH.
Qed.

Lemma find_char_none c s :
  all_chars (fun c' => negb (Ascii.eqb c c')) s = true -> find_char c s = None.
Proof.
  induction s as [| c' s IH]; cbn; [done|].
  destruct (Ascii.eqb c c'); cbn; [done|]. intros H. by rewrite IH.
Qed.

(** ** Decimal numerals *)

(** A property of the ten digits, checked digit by digit. *)
Lemma digit_cases (P : N -> Prop) :
  Forall P [0; 1; 2; 3; 4; 5; 6; 7; 8; 9]%N -> forall d, (d < 10)%N -> P d.
Proof.
  rewrite Forall_forall. intros HP d Hd. apply HP. rewrite !elem_of_cons. lia.
Qed.

Lemma pretty_N_char_digit d : (d < 10)%N -> is_decimal_digit (pretty_N_char d) = true.
Proof. revert d. apply digit_cases. by repeat constructor. Qed.

Lemma pretty_N_go_digits n s :
  all_chars is_decimal_digit s = true -> all_chars is_decimal_digit (pretty_N_go n s) = true.
Proof.
  revert s. induction n as [n IH] using (well_founded_induction N.lt_wf_0); intros s Hs.
  destruct (decide (n = 0%N)) as [-> | Hn]; [by rewrite pretty_N_go_0|].
  rewrite pretty_N_go_step by lia. apply IH; [apply N.div_lt; lia|].
  cbn. by rewrite pretty_N_char_digit by (apply N.mod_lt; lia).
Qed.

Lemma pretty_Z_digits (z : Z) : 0 <= z -> all_chars is_decimal_digit (pretty z) = true.
Proof.
  intros Hz. destruct z as [| p | p]; [reflexivity | | lia].
  change (pretty (Z.pos p)) with (pretty (N.pos p)).
  unfold pretty, pretty_N. case_decide; [done|]. by apply pretty_N_go_digits.
Qed.

(** The numeral of [10 ^ d + f] with [f < 10 ^ d] is a 1 followed by [d] digits. *)
Lemma pretty_N_go_power d f s :
  (f < 10 ^ N.of_nat d)%N ->
  exists t, pretty_N_go (10 ^ N.of_nat d + f) s = String "1" (t +:+ s) /\ String.length t = d.
Proof.
  revert f s. induction d as [| d IH]; intros f s Hf.
  - change (10 ^ N.of_nat 0)%N with 1%N in *. assert (f = 0%N) as -> by lia.
    exists EmptyString. done.
  - rewrite Nat2N.inj_succ, N.pow_succ_r' in *.
    rewrite pretty_N_go_step by lia.
    assert ((10 * 10 ^ N.of_nat d + f) / 10 = 10 ^ N.of_nat d + f / 10)%N as ->.
    { rewrite N.mul_comm, N.div_add_l by lia. done. }
    destruct (IH (f / 10)%N
      (String (pretty_N_char ((10 * 10 ^ N.of_nat d + f) mod 10)) s)) as (t & Ht & Hlen).
    { apply N.Div0.div_lt_upper_bound. lia. }
    exists (t +:+ String (pretty_N_char ((10 * 10 ^ N.of_nat d + f) mod 10)) EmptyString).
    split; [by rewrite Ht, string_app_assoc | rewrite string_length_app, Hlen; cbn; lia].
Qed.

Lemma pretty_power (d : nat) (f : Z) :
  0 <= f < 10 ^ Z.of_nat d ->
  exists t, pretty (10 ^ Z.of_nat d + f) = String "1" t /\ String.length t = d.
Proof.
  intros Hf.
  destruct (pretty_N_go_power d (Z.to_N f) EmptyString) as (t & Ht & Hlen).
  { apply N2Z.inj_lt. rewrite Z2N.id, N2Z.inj_pow, nat_N_Z by lia. change (Z.of_N 10) with 10. lia. }
  exists t. split; [| done].
  assert (10 ^ Z.of_nat d + f = Z.of_N (10 ^ N.of_nat d + Z.to_N f)) as ->.
  { rewrite N2Z.inj_add, N2Z.inj_pow, Z2N.id, nat_N_Z by lia. change (Z.of_N 10) with 10. lia. }
  assert (0 < 10 ^ N.of_nat d)%N by (apply N.neq_0_lt_0, N.pow_nonzero; lia).
  destruct (10 ^ N.of_nat d + Z.to_N f)%N as [| p] eqn:E; [lia|].
  change (pretty (Z.of_N (N.pos p))) with (pretty (N.pos p)).
  unfold pretty, pretty_N. case_decide; [lia|]. rewrite Ht. f_equal.
  clear. induction t as [| c t IH]; [done|]. rewrite string_app_cons. by rewrite IH.
Qed.
