(* ===== verification/Fc.v ===== *)
(** * The fc library, as an interface

    The repository builds on the [fc] library (a git submodule, not part of the
    sources): checked 64-bit integers [fc::safe<int64_t>], 128-bit integers
    [fc::uint128_t], second-resolution times, string conversions and UTF-8 / JSON
    validation.  Two helpers of [boost::multiprecision] are listed with them.  Class
    [fc_ops] lists the operations the modelled code calls; every definition of the
    development takes them as a parameter.  Class
    [fc_laws] states the documented behaviour that the theorems rely on.

    [fc_ref] is one implementation that satisfies the laws; the witnesses of the
    theorems run on it. *)

From stdpp Require Import pretty.
From S2P Require Import Prelude Exceptions Text.

Class fc_ops := {
  (* fc::safe<int64_t> (share_type): arithmetic that throws on overflow *)
  safe_add : Z -> Z -> result Z;
  safe_sub : Z -> Z -> result Z;
  safe_mul : Z -> Z -> result Z;
  safe_div : Z -> Z -> result Z;
  safe_mod : Z -> Z -> result Z;
  safe_neg : Z -> result Z;
  safe_of_uint64 : Z -> Z;   (* construction from a uint64_t *)
  (* fc::uint128_t: arithmetic modulo 2^128 *)
  u128_of_int64 : Z -> Z;
  u128_add : Z -> Z -> Z;
  u128_sub : Z -> Z -> Z;
  u128_mul : Z -> Z -> Z;
  u128_div : Z -> Z -> result Z;
  u128_hi : Z -> Z;
  u128_to_uint64 : Z -> result Z;
  u128_shiftl : Z -> Z -> Z;
  u128_shiftr : Z -> Z -> Z;
  u128_popcount : Z -> Z;
  (* boost::multiprecision: 256-bit integers, and the number of the highest bit of a 64-bit one *)
  u256_of_int64 : Z -> Z;
  u256_mul : Z -> Z -> Z;
  u256_div : Z -> Z -> result Z;
  find_msb_uint64 : Z -> Z;
  (* fc::time_point_sec: seconds since the epoch, 32 bits *)
  time_add : Z -> Z -> Z;
  time_diff_seconds : Z -> Z -> Z;
  time_point_sec_maximum : Z;
  (* strings *)
  fc_to_string : Z -> string;
  fc_to_int64 : string -> result Z;
  fc_trim : string -> string;
  is_utf8 : string -> bool;
  json_is_valid : string -> bool;
  (* fc::ecc::public_key_data(): the key that stands for none *)
  no_key : Z
}.

(** A string that [fc::trim] has nothing to remove from: no white space at
    either end. *)
Definition is_space (c : ascii) : bool :=
  let n := N_of_ascii c in (n =? 32)%N || ((9 <=? n)%N && (n <=? 13)%N).
Fixpoint string_last (c : ascii) (s : string) : ascii :=
  match s with
  | EmptyString => c
  | String c' s' => string_last c' s'
  end.
Definition trimmed (s : string) : bool :=
  match s with
  | EmptyString => true
  | String c s' => negb (is_space c) && negb (is_space (string_last c s'))
  end.

Class fc_laws (F : fc_ops) : Prop := {
  safe_add_law a b : safe_add a b =
    if is_int64 (a + b) then Ok (a + b) else Throw fc_overflow_exception;
  safe_sub_law a b : safe_sub a b =
    if is_int64 (a - b) then Ok (a - b) else Throw fc_overflow_exception;
  safe_mul_law a b : safe_mul a b =
    if is_int64 (a * b) then Ok (a * b) else Throw fc_overflow_exception;
  safe_div_law a b : b <> 0 -> safe_div a b =
    if is_int64 (Z.quot a b) then Ok (Z.quot a b) else Throw fc_overflow_exception;
  safe_mod_law a b : 0 < b -> is_int64 b = true -> safe_mod a b = Ok (Z.rem a b);
  safe_neg_law a : safe_neg a =
    if is_int64 (- a) then Ok (- a) else Throw fc_overflow_exception;
  safe_of_uint64_law z : is_int64 z = true -> safe_of_uint64 z = z;
  u128_of_int64_law z : u128_of_int64 z = z mod 2 ^ 128;
  u128_add_law a b : u128_add a b = (a + b) mod 2 ^ 128;
  u128_sub_law a b : u128_sub a b = (a - b) mod 2 ^ 128;
  u128_mul_law a b : u128_mul a b = (a * b) mod 2 ^ 128;
  u128_div_law a b : 0 <= a -> 0 < b -> u128_div a b = Ok (a / b);
  u128_hi_law a : 0 <= a < 2 ^ 128 -> u128_hi a = a / 2 ^ 64;
  u128_to_uint64_law a : 0 <= a < 2 ^ 128 -> u128_to_uint64 a =
    if a <? 2 ^ 64 then Ok a else Throw fc_assert_exception;
  u128_shiftl_law a n : 0 <= n -> u128_shiftl a n = (a * 2 ^ n) mod 2 ^ 128;
  u128_shiftr_law a n : 0 <= a < 2 ^ 128 -> 0 <= n -> u128_shiftr a n = a / 2 ^ n;
  u128_popcount_law a : 0 <= a < 2 ^ 128 -> u128_popcount a = bits_set a;
  u256_of_int64_law z : 0 <= z -> is_int64 z = true -> u256_of_int64 z = z;
  u256_mul_law a b : u256_mul a b = (a * b) mod 2 ^ 256;
  u256_div_law a b : 0 <= a -> 0 < b -> u256_div a b = Ok (a / b);
  find_msb_uint64_law z : 0 < z < 2 ^ 64 -> find_msb_uint64 z = Z.log2 z;
  time_add_law t s : 0 <= t + s < 2 ^ 32 -> time_add t s = t + s;
  time_diff_seconds_law t u : time_diff_seconds t u = t - u;
  time_point_sec_maximum_law : time_point_sec_maximum = 2 ^ 32 - 1;
  fc_to_string_law z : is_int64 z = true -> fc_to_string z = pretty z;
  fc_to_int64_law z : is_int64 z = true -> fc_to_int64 (pretty z) = Ok z;
  fc_trim_law s : trimmed s = true -> fc_trim s = s
}.

(** ** A reference implementation *)

Definition checked (z : Z) : result Z :=
  if is_int64 z then Ok z else Throw fc_overflow_exception.

Definition digit_value (c : ascii) : option Z :=
  let n := Z.of_N (N_of_ascii c) in
  if (48 <=? n) && (n <=? 57) then Some (n - 48) else None.

Fixpoint parse_digits (acc : Z) (s : string) : option Z :=
  match s with
  | EmptyString => Some acc
  | String c s' =>
      match digit_value c with
      | Some d => parse_digits (10 * acc + d) s'
      | None => None
      end
  end.

Definition parse_int64 (s : string) : result Z :=
  let parsed :=
    match s with
    | EmptyString => None
    | String "-" s' => option_map Z.opp (parse_digits 0 s')
    | _ => parse_digits 0 s
    end in
  match parsed with
  | Some z => checked z
  | None => Throw fc_parse_error_exception
  end.

#[export] Instance fc_ref : fc_ops := {|
  safe_add a b := checked (a + b);
  safe_sub a b := checked (a - b);
  safe_mul a b := checked (a * b);
  safe_div a b := if b =? 0 then Throw fc_assert_exception else checked (Z.quot a b);
  safe_mod a b := if b =? 0 then Throw fc_assert_exception else Ok (Z.rem a b);
  safe_neg a := checked (- a);
  safe_of_uint64 z := to_int64_wrap z;
  u128_of_int64 z := z mod 2 ^ 128;
  u128_add a b := (a + b) mod 2 ^ 128;
  u128_sub a b := (a - b) mod 2 ^ 128;
  u128_mul a b := (a * b) mod 2 ^ 128;
  u128_div a b := if b =? 0 then Throw fc_assert_exception else Ok (a / b);
  u128_hi a := a / 2 ^ 64;
  u128_to_uint64 a := if a <? 2 ^ 64 then Ok a else Throw fc_assert_exception;
  u128_shiftl a n := (a * 2 ^ n) mod 2 ^ 128;
  u128_shiftr a n := a / 2 ^ n;
  u128_popcount a := bits_set a;
  u256_of_int64 z := z mod 2 ^ 256;
  u256_mul a b := (a * b) mod 2 ^ 256;
  u256_div a b := if b =? 0 then Throw fc_assert_exception else Ok (a / b);
  find_msb_uint64 z := Z.log2 z;
  time_add t s := (t + s) mod 2 ^ 32;
  time_diff_seconds t u := t - u;
  time_point_sec_maximum := 2 ^ 32 - 1;
  fc_to_string z := pretty z;
  fc_to_int64 s := parse_int64 s;
  fc_trim s := if trimmed s then s else EmptyString;
  is_utf8 _ := true;
  json_is_valid _ := true;
  no_key := 0
|}.

Lemma digit_value_pretty n : (n < 10)%N -> digit_value (pretty_N_char n) = Some (Z.of_N n).
Proof. revert n. apply digit_cases. by repeat constructor. Qed.

(** Parsing what [pretty_N_go] prints in front of [s] is parsing [s] with the
    printed number as the accumulator. *)
Lemma parse_digits_pretty n s :
  parse_digits 0 (pretty_N_go n s) = parse_digits (Z.of_N n) s.
Proof.
  revert s. induction n as [n IH] using (well_founded_induction N.lt_wf_0); intros s.
  destruct (decide (n = 0%N)) as [-> | Hn]; [by rewrite pretty_N_go_0|].
  rewrite pretty_N_go_step by lia.
  rewrite IH by (apply N.div_lt; lia). cbn [parse_digits].
  rewrite digit_value_pretty by (apply N.mod_lt; lia).
  f_equal. rewrite N2Z.inj_div, N2Z.inj_mod.
  pose proof (Z.div_mod (Z.of_N n) 10). lia.
Qed.

Lemma parse_digits_pretty_N (n : N) : parse_digits 0 (pretty n) = Some (Z.of_N n).
Proof.
  unfold pretty, pretty_N. case_decide as Hn; [by subst|]. apply parse_digits_pretty.
Qed.

(** The decimal numeral of a natural number is not empty and starts with a
    digit. *)
Lemma pretty_N_go_head n s :
  (0 < n)%N -> exists d t, (d < 10)%N /\ pretty_N_go n s = String (pretty_N_char d) t.
Proof.
  revert s. induction n as [n IH] using (well_founded_induction N.lt_wf_0); intros s Hn.
  rewrite pretty_N_go_step by lia.
  destruct (decide (n / 10 = 0)%N) as [-> | Hq].
  - rewrite pretty_N_go_0. exists (n mod 10)%N, s. split; [apply N.mod_lt; lia | done].
  - apply IH; [apply N.div_lt; lia | by apply N.neq_0_lt_0].
Qed.

Lemma pretty_N_head (n : N) :
  exists d t, (d < 10)%N /\ pretty n = String (pretty_N_char d) t.
Proof.
  unfold pretty, pretty_N. case_decide as Hn.
  - exists 0%N, EmptyString. done.
  - destruct (pretty_N_go_head n "" ltac:(lia)) as (d & t & ? & ?). eauto.
Qed.

Lemma parse_int64_digit d t :
  (d < 10)%N -> parse_int64 (String (pretty_N_char d) t) =
    match parse_digits 0 (String (pretty_N_char d) t) with
    | Some z => checked z
    | None => Throw fc_parse_error_exception
    end.
Proof. revert d. apply digit_cases. by repeat constructor. Qed.

Lemma parse_int64_pretty (z : Z) : is_int64 z = true -> parse_int64 (pretty z) = Ok z.
Proof.
  intros Hz. destruct z as [| p | p]; [reflexivity | |].
  - change (pretty (Z.pos p)) with (pretty (N.pos p)).
    destruct (pretty_N_head (N.pos p)) as (d & t & Hd & Ht).
    rewrite Ht, (parse_int64_digit d t Hd), <- Ht, parse_digits_pretty_N.
    unfold checked. cbn [Z.of_N]. by rewrite Hz.
  - change (pretty (Z.neg p)) with (String "-" (pretty (N.pos p))).
    unfold parse_int64. rewrite parse_digits_pretty_N.
    change (checked (Z.neg p) = Ok (Z.neg p)). unfold checked. by rewrite Hz.
Qed.

#[export] Instance fc_ref_laws : fc_laws fc_ref.
Proof.
  split; intros; cbn; try reflexivity.
  - by rewrite (proj2 (Z.eqb_neq b 0)).
  - rewrite (proj2 (Z.eqb_neq b 0)); [done | lia].
  - by apply to_int64_wrap_id.
  - rewrite (proj2 (Z.eqb_neq b 0)); [done | lia].
  - apply is_int64_spec in H0. apply Z.mod_small. lia.
  - rewrite (proj2 (Z.eqb_neq b 0)); [done | lia].
  - apply Z.mod_small. lia.
  - by apply parse_int64_pretty.
  - by rewrite H.
Qed.
