(* ===== verification/Version.v ===== *)
(** * Versions

    [protocol/version.hpp] and [protocol/version.cpp]: a version packs the major version,
    the hardfork and the release into one number; a hardfork version has no release.  The
    text form is read back with the formatted input of the standard library. *)

From stdpp Require Import pretty.
From S2P Require Import Prelude Exceptions Text Fc.

(** [version::version] *)
Definition version (m h r : Z) : Z :=
  let v_num := to_uint32_wrap (Z.shiftl (Z.lor 0 m) 8) in
  let v_num := to_uint32_wrap (Z.shiftl (Z.lor v_num h) 16) in
  Z.lor v_num r.

(** [hardfork_version::hardfork_version]; a version is cut to its hardfork version *)
Definition hardfork_version (m h : Z) : Z := version m h 0.
Definition hardfork_of_version (v : Z) : Z := Z.land v 4294901760.

(** [version::operator std::string] *)
Definition version_to_string (v_num : Z) : string :=
  pretty (Z.land (Z.shiftr v_num 24) 255) +:+ "." +:+
  pretty (Z.land (Z.shiftr v_num 16) 255) +:+ "." +:+
  pretty (Z.land v_num 65535).

(** ** Formatted input

    [operator>>] of a [std::stringstream] in the classic locale: the characters left, and
    the flags [eofbit] and [failbit]. *)
Record istream := mk_istream { is_rest : string; is_eof : bool; is_fail : bool }.

Fixpoint skip_space (s : string) : string :=
  match s with
  | String c s' => if is_space c then skip_space s' else s
  | EmptyString => s
  end.

(** [istream::sentry]: white space is skipped; at the end the read fails. *)
Definition sentry (s : istream) : bool * istream :=
  if is_eof s || is_fail s then (false, mk_istream (is_rest s) (is_eof s) true)
  else match skip_space (is_rest s) with
       | EmptyString => (false, mk_istream EmptyString true true)
       | rest => (true, mk_istream rest false false)
       end.

(** A character; a failed read leaves the variable alone. *)
Definition read_char (old : ascii) (s : istream) : ascii * istream :=
  match sentry s with
  | (true, mk_istream (String c rest) eof fail) => (c, mk_istream rest eof fail)
  | (_, s') => (old, s')
  end.

(** A [uint32_t]: an optional sign and decimal digits; without a digit it is zero, beyond
    the range the greatest number, and the read fails. *)
Fixpoint read_digits (acc : Z) (s : string) : Z * string :=
  match s with
  | String c s' => match digit_value c with Some d => read_digits (10 * acc + d) s' | None => (acc, s) end
  | EmptyString => (acc, s)
  end.
Definition read_sign (s : string) : bool * string :=
  match s with
  | String "-" s' => (true, s')
  | String "+" s' => (false, s')
  | _ => (false, s)
  end.
Definition starts_with_digit (s : string) : bool :=
  match s with String c _ => is_decimal_digit c | EmptyString => false end.
Definition at_end (s : string) : bool := match s with EmptyString => true | _ => false end.
Definition read_uint32 (old : Z) (s : istream) : Z * istream :=
  match sentry s with
  | (true, s') =>
      let '(negative, body) := read_sign (is_rest s') in
      if starts_with_digit body then
        let '(n, rest) := read_digits 0 body in
        if 2 ^ 32 - 1 <? n then (2 ^ 32 - 1, mk_istream rest (at_end rest) true)
        else (if negative then to_uint32_wrap (- n) else n, mk_istream rest (at_end rest) false)
      else (0, mk_istream body (at_end body) true)
  | (false, s') => (old, s')
  end.

(** [from_variant] of a version *)
Definition is_separator (c : ascii) : bool := Ascii.eqb c "." || Ascii.eqb c "_".
Definition version_from_string (str : string) : result Z :=
  let '(major, s) := read_uint32 0 (mk_istream str false false) in
  let '(dot_a, s) := read_char Ascii.zero s in
  let '(hardfork, s) := read_uint32 0 s in
  let '(dot_b, s) := read_char Ascii.zero s in
  let '(revision, s) := read_uint32 0 s in
  check_value (is_separator dot_a && Ascii.eqb dot_a dot_b) ;;
  check_value (major <=? 255) ;;
  check_value (hardfork <=? 255) ;;
  check_value (revision <=? 65535) ;;
  check_value (is_eof s) ;;
  Ok (Z.lor (Z.lor (Z.lor 0 (Z.shiftl major 24)) (Z.shiftl hardfork 16)) revision).

(** ... and of a hardfork version *)
Definition hardfork_version_from_string (str : string) : result Z :=
  ver ← version_from_string str; Ok (Z.land ver 4294901760).

(** ** Fields *)

Definition in_bits (n v : Z) : Prop := 0 <= v < 2 ^ n.
Lemma testbit_above n v i : in_bits n v -> 0 <= n <= i -> Z.testbit v i = false.
Proof.
  intros [H0 H1] Hi. destruct (decide (v = 0)) as [-> | Hv]; [apply Z.bits_0|].
  apply Z.bits_above_log2; [lia|]. apply Z.log2_lt_pow2; [lia|]. eapply Z.lt_le_trans; [exact H1|]. apply Z.pow_le_mono_r; lia.
Qed.
Lemma lor_in_bits n a b : 0 <= n -> in_bits n a -> in_bits n b -> in_bits n (Z.lor a b).
Proof.
  intros Hn [A0 A1] [B0 B1]. split; [by apply Z.lor_nonneg|].
  destruct (decide (Z.lor a b = 0)) as [-> | Hne]; [lia|]. pose proof (proj2 (Z.lor_nonneg a b) (conj A0 B0)).
  apply Z.log2_lt_pow2; [lia|]. rewrite Z.log2_lor by done.
  destruct (decide (n = 0)) as [-> | Hn0]; [change (2 ^ 0) with 1 in *; exfalso; apply Hne; by replace a with 0 by lia; replace b with 0 by lia|].
  apply Z.max_lub_lt; (destruct (decide (0 < a)) as [Ha|Ha], (decide (0 < b)) as [Hb|Hb]);
    first [by apply Z.log2_lt_pow2 | rewrite Z.log2_nonpos; lia].
Qed.
Lemma shiftl_in_bits n k v : 0 <= n -> 0 <= k -> in_bits n v -> in_bits (n + k) (Z.shiftl v k).
Proof. intros Hn Hk [H0 H1]. rewrite Z.shiftl_mul_pow2 by done. unfold in_bits. rewrite Z.pow_add_r by done. nia. Qed.
Lemma in_bits_le n k v : 0 <= n <= k -> in_bits n v -> in_bits k v.
Proof. intros Hn [H0 H1]. split; [done|]. eapply Z.lt_le_trans; [exact H1|]. apply Z.pow_le_mono_r; lia. Qed.

(** ** Reading what was printed *)

Lemma read_digits_app n t : read_digits 0 (pretty_N_go n t) = read_digits (Z.of_N n) t.
Proof.
  revert t. induction n as [n IH] using (well_founded_induction N.lt_wf_0); intros t.
  destruct (decide (n = 0%N)) as [-> | Hn]; [by rewrite pretty_N_go_0|].
  rewrite pretty_N_go_step, IH by (lia || (apply N.div_lt; lia)). cbn [read_digits].
  rewrite digit_value_pretty by (apply N.mod_lt; lia). f_equal.
  rewrite N2Z.inj_div, N2Z.inj_mod. pose proof (Z.div_mod (Z.of_N n) 10). lia.
Qed.
Lemma pretty_N_go_app n s t : pretty_N_go n s +:+ t = pretty_N_go n (s +:+ t).
Proof.
  revert s. induction n as [n IH] using (well_founded_induction N.lt_wf_0); intros s.
  destruct (decide (n = 0%N)) as [-> | Hn]; [by rewrite !pretty_N_go_0|].
  rewrite !(pretty_N_go_step n) by lia. by rewrite IH by (apply N.div_lt; lia).
Qed.
Definition no_digit (t : string) : Prop := match t with String c _ => digit_value c = None | EmptyString => True end.
Lemma read_digits_stop acc t : no_digit t -> read_digits acc t = (acc, t).
Proof. destruct t as [| c t]; [done|]. cbn. by intros ->. Qed.

(** A printed number: digits, then what follows it *)
Lemma digit_not_space d : (d < 10)%N -> is_space (pretty_N_char d) = false /\ is_decimal_digit (pretty_N_char d) = true.
Proof. revert d. apply digit_cases. by repeat constructor. Qed.
Lemma digit_read_sign d t : (d < 10)%N -> read_sign (String (pretty_N_char d) t) = (false, String (pretty_N_char d) t).
Proof. revert d. apply digit_cases. by repeat constructor. Qed.
Lemma read_printed old v t : in_bits 32 v -> no_digit t ->
  read_uint32 old (mk_istream (pretty v +:+ t) false false) = (v, mk_istream t (at_end t) false).
Proof.
  intros [H0 H1] Ht. assert (pretty v = pretty (Z.to_N v)) as -> by (by destruct v).
  assert (read_digits 0 (pretty (Z.to_N v) +:+ t) = (v, t)) as Hd.
  { unfold pretty, pretty_N. case_decide as E.
    - replace v with 0 by lia. rewrite string_app_cons, string_app_nil. cbn [read_digits digit_value]. by apply read_digits_stop.
    - rewrite pretty_N_go_app, read_digits_app, Z2N.id by done. by apply read_digits_stop. }
  destruct (pretty_N_head (Z.to_N v)) as (d & s & Hlt & Hp). rewrite Hp, string_app_cons in *.
  destruct (digit_not_space d Hlt) as [Hsp Hdig]. unfold read_uint32, sentry. cbn [is_eof is_fail is_rest orb skip_space].
  rewrite Hsp. cbn [is_rest]. rewrite digit_read_sign by done. cbn [starts_with_digit]. rewrite Hdig, Hd.
  destruct (Z.ltb_spec (2 ^ 32 - 1) v); [lia | done].
Qed.

Lemma read_separator old t : read_char old (mk_istream (String "." t) false false) = ("."%char, mk_istream t false false).
Proof. reflexivity. Qed.

(** The three fields make up the number. *)
Lemma fields_join v : in_bits 32 v ->
  Z.lor (Z.lor (Z.lor 0 (Z.shiftl (Z.land (Z.shiftr v 24) 255) 24)) (Z.shiftl (Z.land (Z.shiftr v 16) 255) 16)) (Z.land v 65535) = v.
Proof.
  intros Hv. change 255 with (Z.ones 8). change 65535 with (Z.ones 16). apply Z.bits_inj'. intros i Hi.
  rewrite Z.lor_0_l, !Z.lor_spec, !Z.shiftl_spec, !Z.land_spec by done.
  destruct (Z.lt_ge_cases i 16); [|destruct (Z.lt_ge_cases i 24); [|destruct (Z.lt_ge_cases i 32)]].
  - rewrite !(Z.testbit_neg_r _ (i - 24)), !(Z.testbit_neg_r _ (i - 16)), Z.testbit_ones_nonneg by lia. cbn [andb orb]. destruct (Z.ltb_spec i 16); [by rewrite andb_true_r | lia].
  - rewrite !(Z.testbit_neg_r _ (i - 24)), !Z.testbit_ones_nonneg, Z.shiftr_spec by lia.
    destruct (Z.ltb_spec (i - 16) 8), (Z.ltb_spec i 16); try lia. replace (i - 16 + 16) with i by lia. cbn. by rewrite andb_true_r, andb_false_r, orb_false_r.
  - rewrite !Z.testbit_ones_nonneg, !Z.shiftr_spec by lia.
    destruct (Z.ltb_spec (i - 24) 8), (Z.ltb_spec (i - 16) 8), (Z.ltb_spec i 16); try lia. replace (i - 24 + 24) with i by lia.
    by rewrite andb_true_r, !andb_false_r, !orb_false_r.
  - rewrite !(testbit_above 32 v) by (done || lia). rewrite !Z.testbit_ones_nonneg, !Z.shiftr_spec by lia.
    destruct (Z.ltb_spec (i - 24) 8), (Z.ltb_spec (i - 16) 8), (Z.ltb_spec i 16); try lia.
Qed.
Lemma field_range v n : 0 <= n -> in_bits n (Z.land v (Z.ones n)).
Proof. intros Hn. rewrite Z.land_ones by done. apply Z.mod_pos_bound. by apply Z.pow_pos_nonneg. Qed.

Lemma read_back v : in_bits 32 v -> version_from_string (version_to_string v) = Ok v.
Proof.
  intros Hv. pose proof (field_range (Z.shiftr v 24) 8 ltac:(done)) as H1. pose proof (field_range (Z.shiftr v 16) 8 ltac:(done)) as H2.
  pose proof (field_range v 16 ltac:(done)) as H3. change (Z.ones 8) with 255 in *. change (Z.ones 16) with 65535 in *.
  unfold version_to_string, version_from_string. rewrite read_printed by (done || by eapply in_bits_le; [|exact H1]).
  rewrite string_app_cons, string_app_nil, read_separator. cbn [at_end].
  rewrite read_printed by (done || by eapply in_bits_le; [|exact H2]). rewrite string_app_cons, string_app_nil, read_separator. cbn [at_end].
  assert (pretty (Z.land v 65535) = pretty (Z.land v 65535) +:+ "") as ->.
  { generalize (pretty (Z.land v 65535)). intros s. induction s as [| c s IH]; [done|]. by rewrite string_app_cons, <- IH. }
  rewrite read_printed by (done || by eapply in_bits_le; [|exact H3]). cbn [at_end is_eof].
  unfold in_bits in *. unfold check_value. cbn [is_separator Ascii.eqb andb orb].
  repeat match goal with |- context [?a <=? ?b] => destruct (Z.leb_spec a b); [|lia] end. cbn -[Z.lor Z.land Z.shiftl Z.shiftr]. f_equal. by apply (fields_join v).
Qed.

(** Whatever is accepted fits the number of a version. *)
Lemma read_digits_nonneg s acc : 0 <= acc -> 0 <= (read_digits acc s).1.
Proof.
  revert acc. induction s as [| c s IH]; intros acc Hacc; cbn [read_digits]; [done|]. destruct (digit_value c) as [d|] eqn:E; [|done].
  apply IH. unfold digit_value in E. case_match; [|done]. injection E as <-. lia.
Qed.
Lemma read_uint32_range s : in_bits 32 (read_uint32 0 s).1.
Proof.
  unfold read_uint32. destruct (sentry s) as [[|] s']; [|done]. destruct (read_sign (is_rest s')) as [n body].
  destruct (starts_with_digit body); [|done]. pose proof (read_digits_nonneg body 0 ltac:(done)) as Hpos.
  destruct (read_digits 0 body) as [v rest]. cbn in Hpos. destruct (Z.ltb_spec (2 ^ 32 - 1) v); cbn; [done|].
  destruct n; [apply Z.mod_pos_bound; lia|]. unfold in_bits. lia.
Qed.
Lemma read_range str v : version_from_string str = Ok v -> in_bits 32 v.
Proof.
  unfold version_from_string. intros H. destruct (read_uint32 0 (mk_istream str false false)) as [major s1] eqn:E1.
  destruct (read_char Ascii.zero s1) as [dot_a s2]. destruct (read_uint32 0 s2) as [hardfork s3] eqn:E2.
  destruct (read_char Ascii.zero s3) as [dot_b s4]. destruct (read_uint32 0 s4) as [revision s5] eqn:E3.
  pose proof (read_uint32_range (mk_istream str false false)) as R1. pose proof (read_uint32_range s2) as R2. pose proof (read_uint32_range s4) as R3.
  rewrite E1 in R1. rewrite E2 in R2. rewrite E3 in R3. cbn in R1, R2, R3. unfold check_value, in_bits in *. inv_ok. bool_to_prop.
  apply lor_in_bits; [done | apply lor_in_bits; [done | |] |].
  - rewrite Z.lor_0_l. apply (shiftl_in_bits 8 24); [done | done |]. unfold in_bits. lia.
  - apply (in_bits_le 24); [lia|]. apply (shiftl_in_bits 8 16); [done | done |]. unfold in_bits. lia.
  - unfold in_bits. lia.
Qed.

(** C39: Versions survive their text form.  What [operator std::string] prints of any 32-bit
    version number is read back as that number, whatever is accepted as a version fits 32
    bits, so that printing it again and reading it gives it back, and the version of a
    hardfork is its version without the release. *)
Theorem version_text_roundtrip v : 0 <= v < 2 ^ 32 ->
  version_from_string (version_to_string v) = Ok v /\
  hardfork_version_from_string (version_to_string v) = Ok (hardfork_of_version v) /\
  (forall s w, version_from_string s = Ok w -> 0 <= w < 2 ^ 32 /\ version_from_string (version_to_string w) = Ok w).
Proof.
  intros Hv. unfold hardfork_version_from_string. rewrite !read_back by done. split_and!; [done | done |].
  intros s w Hw. pose proof (read_range s w Hw). split; [done | by apply read_back].
Qed.
Lemma version_text_roundtrip_witness : version_to_string (version 0 21 7) = "0.21.7" /\
  version_from_string (version_to_string (version 0 21 7)) = Ok (version 0 21 7) /\
  hardfork_version_from_string (version_to_string (version 0 21 7)) = Ok (hardfork_of_version (version 0 21 7)).
Proof.
  split; [vm_compute; reflexivity|]. destruct (version_text_roundtrip (version 0 21 7)) as (H1 & H2 & _); [vm_compute; split; [discriminate | reflexivity]|].
  by split.
Defined.

(** A release number may be missing: reading it fails, but it fails at the end. *)
Lemma missing_release_accepted : version_from_string "0.21." = Ok (version 0 21 0).
Proof. vm_compute. reflexivity. Qed.
