(* ===== verification/Config.v ===== *)
(** * Protocol constants

    The constants of [libraries/protocol/include/golos/protocol/config.hpp] that
    the modelled code uses, in the configuration of the live network (the
    branch without STEEMIT_BUILD_TESTNET), and the hardfork numbers of
    [libraries/chain/hardfork.d]. *)

From S2P Require Import Prelude.

(** Symbols: byte 0 holds the number of decimals, bytes 1 to 6 the name. *)
Definition VESTS_SYMBOL : Z :=
  Z.lor 6 (Z.lor (Z.shiftl 71 8) (Z.lor (Z.shiftl 69 16) (Z.lor (Z.shiftl 83 24)
    (Z.lor (Z.shiftl 84 32) (Z.shiftl 83 40))))).
Definition STEEM_SYMBOL : Z :=
  Z.lor 3 (Z.lor (Z.shiftl 71 8) (Z.lor (Z.shiftl 79 16) (Z.lor (Z.shiftl 76 24)
    (Z.lor (Z.shiftl 79 32) (Z.shiftl 83 40))))).
Definition SBD_SYMBOL : Z :=
  Z.lor 3 (Z.lor (Z.shiftl 71 8) (Z.lor (Z.shiftl 66 16) (Z.shiftl 71 24))).

Definition STEEMIT_GENESIS_TIME : Z := 1476788400.
Definition STEEMIT_CASHOUT_WINDOW_SECONDS : Z := 60*60*24*7.
Definition GOLOS_BUG1074_BLOCK : Z := 23569125.
Definition STEEMIT_CASHOUT_WINDOW_SECONDS_PRE_HF12 : Z := 60*60*24.
Definition STEEMIT_CASHOUT_WINDOW_SECONDS_PRE_HF17 : Z := STEEMIT_CASHOUT_WINDOW_SECONDS_PRE_HF12.
Definition STEEMIT_SECOND_CASHOUT_WINDOW : Z := 60*60*24*30.
Definition STEEMIT_MAX_CASHOUT_WINDOW_SECONDS : Z := 60*60*24*14.
Definition STEEMIT_FIRST_CASHOUT_TIME : Z := 1484478000.
Definition STEEMIT_UPVOTE_LOCKOUT : Z := 60.
Definition STEEMIT_MAX_VOTE_CHANGES : Z := 5.
Definition STEEMIT_MIN_VOTE_INTERVAL_SEC : Z := 3.
Definition STEEMIT_MIN_ROOT_COMMENT_INTERVAL : Z := 60*5.
Definition STEEMIT_MIN_REPLY_INTERVAL : Z := 20.
Definition STEEMIT_POST_AVERAGE_WINDOW : Z := 60*60*24.
Definition STEEMIT_MAX_COMMENT_DEPTH_PRE_HF17 : Z := 5.
Definition STEEMIT_MAX_COMMENT_DEPTH : Z := 65520.
Definition STEEMIT_SOFT_MAX_COMMENT_DEPTH : Z := 255.
Definition STEEMIT_MAX_COMMENT_BENEFICIARIES : Z := 64.
Definition STEEMIT_HARDFORK_0_6_REVERSE_AUCTION_TIME : Z := 1476788510.
Definition STEEMIT_MIN_ACCOUNT_CREATION_FEE : Z := 1.
Definition STEEMIT_OWNER_AUTH_RECOVERY_PERIOD : Z := 30*24*60*60.
Definition STEEMIT_ACCOUNT_RECOVERY_REQUEST_EXPIRATION_PERIOD : Z := 24*60*60.
Definition STEEMIT_OWNER_UPDATE_LIMIT : Z := 60*60.
Definition STEEMIT_OWNER_AUTH_HISTORY_TRACKING_START_BLOCK_NUM : Z := 1.
Definition STEEMIT_BLOCK_INTERVAL : Z := 3.
Definition STEEMIT_BLOCKS_PER_DAY : Z := 24*60*60/STEEMIT_BLOCK_INTERVAL.
Definition STEEMIT_MAX_VOTED_WITNESSES : Z := 19.
Definition STEEMIT_MAX_MINER_WITNESSES : Z := 1.
Definition STEEMIT_MAX_RUNNER_WITNESSES : Z := 1.
Definition STEEMIT_MAX_WITNESSES : Z :=
  STEEMIT_MAX_VOTED_WITNESSES + STEEMIT_MAX_MINER_WITNESSES + STEEMIT_MAX_RUNNER_WITNESSES.
Definition STEEMIT_MAX_MEMO_SIZE : Z := 2048.
Definition STEEMIT_MAX_PROXY_RECURSION_DEPTH : Z := 4.
Definition STEEMIT_VESTING_WITHDRAW_INTERVALS_PRE_HF_16 : Z := 104.
Definition STEEMIT_VESTING_WITHDRAW_INTERVALS : Z := 13.
Definition STEEMIT_VESTING_WITHDRAW_INTERVAL_SECONDS : Z := 60*60*24*7.
Definition STEEMIT_MAX_WITHDRAW_ROUTES : Z := 10.
Definition STEEMIT_SAVINGS_WITHDRAW_TIME : Z := 3*24*60*60.
Definition STEEMIT_SAVINGS_WITHDRAW_REQUEST_LIMIT : Z := 100.
Definition STEEMIT_VOTE_REGENERATION_SECONDS : Z := 5*60*60*24.
Definition STEEMIT_REVERSE_AUCTION_WINDOW_SECONDS : Z := 60*30.
Definition STEEMIT_COMMENTS_WINDOW : Z := 200.
Definition STEEMIT_COMMENTS_PER_WINDOW : Z := 10.
Definition STEEMIT_VOTES_WINDOW : Z := 15.
Definition STEEMIT_VOTES_PER_WINDOW : Z := 5.
Definition STEEMIT_POSTS_WINDOW : Z := 3.
Definition STEEMIT_POSTS_PER_WINDOW : Z := 1.
Definition STEEMIT_CUSTOM_OPS_BANDWIDTH_MULTIPLIER : Z := 100.
Definition STEEMIT_MAX_ACCOUNT_WITNESS_VOTES : Z := 30.
Definition STEEMIT_100_PERCENT : Z := 10000.
Definition STEEMIT_1_PERCENT : Z := STEEMIT_100_PERCENT/100.
Definition STEEMIT_DEFAULT_SBD_INTEREST_RATE : Z := 10*STEEMIT_1_PERCENT.
Definition GOLOS_CREATE_ACCOUNT_WITH_GOLOS_MODIFIER : Z := 30.
Definition GOLOS_CREATE_ACCOUNT_DELEGATION_RATIO : Z := 5.
Definition GOLOS_CREATE_ACCOUNT_DELEGATION_TIME : Z := 30*24*60*60.
Definition GOLOS_MIN_DELEGATION_MULTIPLIER : Z := 10.
Definition STEEMIT_DEFAULT_DELEGATED_VESTING_INTEREST_RATE : Z := 25*STEEMIT_1_PERCENT.
Definition STEEMIT_MAX_DELEGATED_VESTING_INTEREST_RATE : Z := 80*STEEMIT_1_PERCENT.
Definition GOLOS_DEFAULT_REFERRAL_INTEREST_RATE : Z := 10*STEEMIT_1_PERCENT.
Definition GOLOS_MAX_REFERRAL_INTEREST_RATE : Z := STEEMIT_100_PERCENT.
Definition GOLOS_DEFAULT_REFERRAL_TERM_SEC : Z := 60*60*24*30*6.
Definition GOLOS_MAX_REFERRAL_TERM_SEC : Z := 60*60*24*30*12.
Definition STEEMIT_EQUIHASH_N : Z := 140.
Definition STEEMIT_EQUIHASH_K : Z := 6.
Definition STEEMIT_LIQUIDITY_TIMEOUT_SEC : Z := 60*60*24*7.
Definition STEEMIT_MIN_LIQUIDITY_REWARD_PERIOD_SEC : Z := 60.
Definition STEEMIT_MIN_LIQUIDITY_REWARD_PERIOD_SEC_HF10 : Z := 60*30.
Definition STEEMIT_POST_MAX_BANDWIDTH : Z := 4*STEEMIT_100_PERCENT.
Definition STEEMIT_POST_WEIGHT_CONSTANT : Z := STEEMIT_POST_MAX_BANDWIDTH * STEEMIT_POST_MAX_BANDWIDTH.
Definition STEEMIT_MIN_CURATION_PERCENT : Z := 25*STEEMIT_1_PERCENT.
Definition STEEMIT_DEF_CURATION_PERCENT : Z := 25*STEEMIT_1_PERCENT.
Definition STEEMIT_MAX_CURATION_PERCENT : Z := STEEMIT_100_PERCENT.
Definition STEEMIT_MIN_ACCOUNT_NAME_LENGTH : Z := 3.
Definition STEEMIT_MAX_ACCOUNT_NAME_LENGTH : Z := 16.
Definition STEEMIT_MIN_PERMLINK_LENGTH : Z := 0.
Definition STEEMIT_MAX_PERMLINK_LENGTH : Z := 256.
Definition STEEMIT_MAX_SHARE_SUPPLY : Z := 1000000000000000.
Definition STEEMIT_MAX_SIG_CHECK_DEPTH : nat := 2.
Definition STEEMIT_SECONDS_PER_YEAR : Z := 60*60*24*365.
Definition STEEMIT_SBD_INTEREST_COMPOUND_INTERVAL_SEC : Z := 60*60*24*30.
Definition STEEMIT_MAX_TRANSACTION_SIZE : Z := 1024*64.
Definition STEEMIT_MIN_BLOCK_SIZE_LIMIT : Z := STEEMIT_MAX_TRANSACTION_SIZE.
Definition STEEMIT_FEED_HISTORY_WINDOW : Z := 12*7.
Definition STEEMIT_CONVERSION_DELAY_PRE_HF_16 : Z := 7*24*60*60.
Definition STEEMIT_CONVERSION_DELAY : Z := STEEMIT_FEED_HISTORY_WINDOW*60*60.
Definition STEEMIT_ACTIVE_CHALLENGE_COOLDOWN : Z := 24*60*60.
Definition STEEMIT_OWNER_CHALLENGE_COOLDOWN : Z := 24*60*60.
Definition STEEMIT_START_MINER_VOTING_BLOCK : Z := 60*10/STEEMIT_BLOCK_INTERVAL.
Definition STEEMIT_HARDFORK_REQUIRED_WITNESSES : Z := 17.
Definition STEEMIT_MAX_TIME_UNTIL_EXPIRATION : Z := 60*60.
Definition STEEMIT_BANDWIDTH_AVERAGE_WINDOW_SECONDS : Z := 60*60*24*7.
Definition STEEMIT_BANDWIDTH_PRECISION : Z := 1000000.
Definition STEEMIT_MAX_RESERVE_RATIO : Z := 20000.
Definition STEEMIT_MAX_UNDO_HISTORY : Z := 10000.
Definition STEEMIT_IRREVERSIBLE_THRESHOLD : Z := 75*STEEMIT_1_PERCENT.
Definition STEEMIT_BLOCKS_PER_YEAR : Z := 365*24*60*60/STEEMIT_BLOCK_INTERVAL.
Definition STEEMIT_START_VESTING_BLOCK : Z := STEEMIT_BLOCKS_PER_DAY*49.
Definition STEEMIT_INFLATION_RATE_START_PERCENT : Z := 1515.
Definition STEEMIT_INFLATION_RATE_STOP_PERCENT : Z := 95.
Definition STEEMIT_INFLATION_NARROWING_PERIOD : Z := 250000.
Definition STEEMIT_CONTENT_REWARD_PERCENT : Z := 6667*STEEMIT_1_PERCENT/100.
Definition STEEMIT_VESTING_FUND_PERCENT : Z := 2667*STEEMIT_1_PERCENT/100.
Definition STEEMIT_MINING_REWARD : Z := 666.
Definition STEEMIT_MINING_REWARD_PRE_HF_16 : Z := 1000.
Definition STEEMIT_LIQUIDITY_REWARD_PERIOD_SEC : Z := 60*60.
Definition STEEMIT_LIQUIDITY_REWARD_BLOCKS : Z := STEEMIT_LIQUIDITY_REWARD_PERIOD_SEC/STEEMIT_BLOCK_INTERVAL.
Definition STEEMIT_MIN_LIQUIDITY_REWARD : Z := 1000*STEEMIT_LIQUIDITY_REWARD_BLOCKS.
Definition STEEMIT_MIN_CONTENT_REWARD : Z := 1500.
Definition STEEMIT_MIN_CURATE_REWARD : Z := 500.
Definition STEEMIT_MIN_PRODUCER_REWARD : Z := STEEMIT_MINING_REWARD.
Definition STEEMIT_MIN_PRODUCER_REWARD_PRE_HF_16 : Z := STEEMIT_MINING_REWARD_PRE_HF_16.
Definition STEEMIT_MIN_POW_REWARD : Z := STEEMIT_MINING_REWARD.
Definition STEEMIT_MIN_POW_REWARD_PRE_HF_16 : Z := STEEMIT_MINING_REWARD_PRE_HF_16.
Definition STEEMIT_APR_PERCENT_MULTIPLY_PER_BLOCK : Z := 0x5ccce802de5f.
Definition STEEMIT_APR_PERCENT_SHIFT_PER_BLOCK : Z := 87.
Definition STEEMIT_APR_PERCENT_MULTIPLY_PER_ROUND : Z := 0x79ccf5c73480.
Definition STEEMIT_APR_PERCENT_SHIFT_PER_ROUND : Z := 83.
Definition STEEMIT_APR_PERCENT_MULTIPLY_PER_HOUR : Z := 0x6cc139a15cbd.
Definition STEEMIT_APR_PERCENT_SHIFT_PER_HOUR : Z := 77.
Definition STEEMIT_CURATE_APR_PERCENT : Z := 1937.
Definition STEEMIT_CONTENT_APR_PERCENT : Z := 5813.
Definition STEEMIT_LIQUIDITY_APR_PERCENT : Z := 750.
Definition STEEMIT_PRODUCER_APR_PERCENT : Z := 750.
Definition STEEMIT_POW_APR_PERCENT : Z := 750.
Definition STEEMIT_SBD_STOP_PERCENT : Z := 5*STEEMIT_1_PERCENT.
Definition STEEMIT_SBD_START_PERCENT : Z := 2*STEEMIT_1_PERCENT.
Definition STEEMIT_BLOCKS_PER_HOUR : Z := 60*60/STEEMIT_BLOCK_INTERVAL.
Definition STEEMIT_FEED_INTERVAL_BLOCKS : Z := STEEMIT_BLOCKS_PER_HOUR.
Definition STEEMIT_FEED_HISTORY_WINDOW_PRE_HF_16 : Z := 24*7.
Definition STEEMIT_MAX_FEED_AGE : Z := 7*24*60*60.
Definition STEEMIT_MIN_FEEDS : Z := STEEMIT_MAX_WITNESSES/3.

Definition STEEMIT_MINER_ACCOUNT : string := "miners".
Definition STEEMIT_NULL_ACCOUNT : string := "null".
Definition STEEMIT_TEMP_ACCOUNT : string := "temp".
Definition STEEMIT_INIT_MINER_NAME : string := "cyberfounder".
Definition STEEMIT_MAX_WITNESS_URL_LENGTH : Z := 2048.
Definition STEEMIT_TRANSIT_REQUIRED_WITNESSES : Z := 16.
Definition STEEMIT_PROXY_TO_SELF_ACCOUNT : string := "".
Definition STEEMIT_ROOT_POST_PARENT : string := "".

(** Hardfork numbers. *)
Definition STEEMIT_HARDFORK_0_1 : nat := 1.
Definition STEEMIT_HARDFORK_0_2 : nat := 2.
Definition STEEMIT_HARDFORK_0_3 : nat := 3.
Definition STEEMIT_HARDFORK_0_4 : nat := 4.
Definition STEEMIT_HARDFORK_0_5 : nat := 5.
Definition STEEMIT_HARDFORK_0_5__54 : nat := 5.
Definition STEEMIT_HARDFORK_0_5__55 : nat := 5.
Definition STEEMIT_HARDFORK_0_5__57 : nat := 5.
Definition STEEMIT_HARDFORK_0_5__59 : nat := 5.
Definition STEEMIT_HARDFORK_0_6 : nat := 6.
Definition STEEMIT_HARDFORK_0_6__104 : nat := 6.
Definition STEEMIT_HARDFORK_0_6__113 : nat := 6.
Definition STEEMIT_HARDFORK_0_6__114 : nat := 6.
Definition STEEMIT_HARDFORK_0_6__127 : nat := 6.
Definition STEEMIT_HARDFORK_0_6__80 : nat := 6.
Definition STEEMIT_HARDFORK_0_7 : nat := 7.
Definition STEEMIT_HARDFORK_0_8 : nat := 8.
Definition STEEMIT_HARDFORK_0_9 : nat := 9.
Definition STEEMIT_HARDFORK_0_9__141 : nat := 9.
Definition STEEMIT_HARDFORK_0_10 : nat := 10.
Definition STEEMIT_HARDFORK_0_10__141 : nat := 10.
Definition STEEMIT_HARDFORK_0_10__149 : nat := 10.
Definition STEEMIT_HARDFORK_0_11 : nat := 11.
Definition STEEMIT_HARDFORK_0_11__169 : nat := 11.
Definition STEEMIT_HARDFORK_0_12 : nat := 12.
Definition STEEMIT_HARDFORK_0_12__176 : nat := 12.
Definition STEEMIT_HARDFORK_0_12__177 : nat := 12.
Definition STEEMIT_HARDFORK_0_12__178 : nat := 12.
Definition STEEMIT_HARDFORK_0_12__179 : nat := 12.
Definition STEEMIT_HARDFORK_0_13 : nat := 13.
Definition STEEMIT_HARDFORK_0_13__248 : nat := 13.
Definition STEEMIT_HARDFORK_0_13__256 : nat := 13.
Definition STEEMIT_HARDFORK_0_13__257 : nat := 13.
Definition STEEMIT_HARDFORK_0_14 : nat := 14.
Definition STEEMIT_HARDFORK_0_14__230 : nat := 14.
Definition STEEMIT_HARDFORK_0_14__259 : nat := 14.
Definition STEEMIT_HARDFORK_0_14__278 : nat := 14.
Definition STEEMIT_HARDFORK_0_14__307 : nat := 14.
Definition STEEMIT_HARDFORK_0_14__327 : nat := 14.
Definition STEEMIT_HARDFORK_0_15 : nat := 15.
Definition STEEMIT_HARDFORK_0_15__465 : nat := 15.
Definition STEEMIT_HARDFORK_0_16 : nat := 16.
Definition STEEMIT_HARDFORK_0_16__551 : nat := 16.
Definition STEEMIT_HARDFORK_0_16__562 : nat := 16.
Definition STEEMIT_HARDFORK_0_17 : nat := 17.
Definition STEEMIT_HARDFORK_0_17__430 : nat := 17.
Definition STEEMIT_HARDFORK_0_17__431 : nat := 17.
Definition STEEMIT_HARDFORK_0_17__433 : nat := 17.
Definition STEEMIT_HARDFORK_0_18 : nat := 18.
Definition STEEMIT_HARDFORK_0_18__220 : nat := 18.
Definition STEEMIT_HARDFORK_0_18__673 : nat := 18.
Definition STEEMIT_HARDFORK_0_19 : nat := 19.
Definition STEEMIT_HARDFORK_0_19__295 : nat := 19.
Definition STEEMIT_HARDFORK_0_19__324 : nat := 19.
Definition STEEMIT_HARDFORK_0_19__533_1002 : nat := 19.
Definition STEEMIT_HARDFORK_0_19__677 : nat := 19.
Definition STEEMIT_HARDFORK_0_19__756 : nat := 19.
Definition STEEMIT_HARDFORK_0_19__898 : nat := 19.
Definition STEEMIT_HARDFORK_0_19__924 : nat := 19.
Definition STEEMIT_HARDFORK_0_19__952 : nat := 19.
Definition STEEMIT_HARDFORK_0_19__971 : nat := 19.
Definition STEEMIT_HARDFORK_0_20 : nat := 20.
Definition STEEMIT_HARDFORK_0_20__1074 : nat := 20.
Definition STEEMIT_HARDFORK_0_20__1075 : nat := 20.
Definition STEEMIT_HARDFORK_0_21 : nat := 21.
Definition STEEMIT_HARDFORK_0_21__1348 : nat := 21.

(** [database::validation_steps] of [database.hpp]: the checks a caller may leave out *)
Definition skip_nothing : Z := 0.
Definition skip_witness_signature : Z := Z.shiftl 1 0.
Definition skip_transaction_signatures : Z := Z.shiftl 1 1.
Definition skip_transaction_dupe_check : Z := Z.shiftl 1 2.
Definition skip_fork_db : Z := Z.shiftl 1 3.
Definition skip_block_size_check : Z := Z.shiftl 1 4.
Definition skip_tapos_check : Z := Z.shiftl 1 5.
Definition skip_authority_check : Z := Z.shiftl 1 6.
Definition skip_merkle_check : Z := Z.shiftl 1 7.
Definition skip_undo_history_check : Z := Z.shiftl 1 8.
Definition skip_witness_schedule_check : Z := Z.shiftl 1 9.
Definition skip_validate_operations : Z := Z.shiftl 1 10.
Definition skip_block_log : Z := Z.shiftl 1 13.
Definition has_flag (skip flag : Z) : bool := negb (Z.land skip flag =? 0).
