(* ===== verification/Asset.v ===== *)
(** * Assets and prices

    [libraries/protocol/asset.cpp] and [include/golos/protocol/asset.hpp]: an
    asset is an amount (a checked 64-bit integer) in a symbol (a 64-bit word whose
    byte 0 is the number of decimals and whose bytes 1 to 6 are the name); a price
    is a pair of assets.  The operators that assert equal symbols return
    [result]; products with a price go through 128-bit arithmetic. *)

From stdpp Require Import pretty.
From S2P Require Import Prelude Exceptions Text Fc Config.

(** [struct asset] *)
Record asset := mk_asset { amount : Z; symbol : Z }.
#[export] Instance asset_rebuild : Rebuild asset := fun a => mk_asset (amount a) (symbol a).
#[export] Instance asset_eq_dec : EqDecision asset.
Proof. solve_decision. Defined.
#[export] Instance asset_inhabited : Inhabited asset := populate (mk_asset 0 STEEM_SYMBOL).

(** [struct price] *)
Record price := mk_price { base : asset; quote : asset }.
#[export] Instance price_eq_dec : EqDecision price.
Proof. solve_decision. Defined.

(** ** Symbols *)

(** Byte [i] of the symbol, in memory order (little endian). *)
Definition symbol_byte (sym : Z) (i : Z) : Z := Z.land (Z.shiftr sym (8 * i)) 255.

(** The C string that starts at byte [i], reading at most [n] bytes. *)
Fixpoint symbol_cstring (sym : Z) (i : Z) (n : nat) : string :=
  match n with
  | O => EmptyString
  | S n' =>
      let b := symbol_byte sym i in
      if b =? 0 then EmptyString
      else String (ascii_of_N (Z.to_N b)) (symbol_cstring sym (i + 1) n')
  end.

(** [asset::symbol_name] of a symbol *)
Definition symbol_name_of (sym : Z) : result string :=
  fc_assert (symbol_byte sym 7 =? 0) ;;
  Ok (symbol_cstring sym 1 6).

(** [asset::symbol_name] *)
Definition symbol_name (a : asset) : result string := symbol_name_of (symbol a).

(** [asset::decimals] *)
Definition decimals (a : asset) : result Z :=
  let d := symbol_byte (symbol a) 0 in
  fc_assert (d <? 15) ;; Ok d.

(** [asset::set_decimals] *)
Definition set_decimals (d : Z) (a : asset) : result asset :=
  fc_assert (d <? 15) ;;
  Ok (a <| symbol ::= fun sym => Z.lor (Z.ldiff sym 255) d |>).

Definition precision_table : list Z :=
  [1; 10; 100; 1000; 10000; 100000; 1000000; 10000000; 100000000; 1000000000;
   10000000000; 100000000000; 1000000000000; 10000000000000; 100000000000000].

(** [asset::precision] *)
Definition precision (a : asset) : result Z :=
  d ← decimals a;
  Ok (nth (Z.to_nat d) precision_table 0).

Section Operators.
Context `{F : fc_ops}.

(** ** Operators on assets *)

(** [operator+=], [operator+] *)
Definition asset_add (a b : asset) : result asset :=
  fc_assert (symbol a =? symbol b) ;;
  n ← safe_add (amount a) (amount b);
  Ok (mk_asset n (symbol a)).

(** [operator-=], [operator-] *)
Definition asset_sub (a b : asset) : result asset :=
  fc_assert (symbol a =? symbol b) ;;
  n ← safe_sub (amount a) (amount b);
  Ok (mk_asset n (symbol a)).

(** unary [operator-] *)
Definition asset_neg (a : asset) : result asset :=
  n ← safe_neg (amount a);
  Ok (mk_asset n (symbol a)).

(** [operator*=], [operator*] with an int *)
Definition asset_mul_int (a : asset) (x : Z) : result asset :=
  n ← safe_mul (amount a) x;
  Ok (mk_asset n (symbol a)).

(** [operator/=], [operator/] with an int *)
Definition asset_div_int (a : asset) (x : Z) : result asset :=
  n ← safe_div (amount a) x;
  Ok (mk_asset n (symbol a)).

(** Comparisons; each asserts that the symbols agree. *)
Definition asset_eqb (a b : asset) : result bool :=
  fc_assert (symbol a =? symbol b) ;; Ok (amount a =? amount b).
Definition asset_ltb (a b : asset) : result bool :=
  fc_assert (symbol a =? symbol b) ;; Ok (amount a <? amount b).
Definition asset_leb (a b : asset) : result bool :=
  e ← asset_eqb a b;
  if (e : bool) then Ok true else asset_ltb a b.
Definition asset_neb (a b : asset) : result bool := e ← asset_eqb a b; Ok (negb e).
Definition asset_gtb (a b : asset) : result bool := l ← asset_leb a b; Ok (negb l).
Definition asset_geb (a b : asset) : result bool := l ← asset_ltb a b; Ok (negb l).

(** ** Prices *)

(** [operator==] *)
Definition price_eqb (a b : price) : bool :=
  if negb ((symbol (base a) =? symbol (base b)) && (symbol (quote a) =? symbol (quote b)))
  then false
  else
    let amult := u128_mul (u128_of_int64 (amount (quote b))) (u128_of_int64 (amount (base a))) in
    let bmult := u128_mul (u128_of_int64 (amount (quote a))) (u128_of_int64 (amount (base b))) in
    amult =? bmult.

(** [operator<] *)
Definition price_ltb (a b : price) : bool :=
  if symbol (base a) <? symbol (base b) then true
  else if symbol (base a) >? symbol (base b) then false
  else if symbol (quote a) <? symbol (quote b) then true
  else if symbol (quote a) >? symbol (quote b) then false
  else
    let amult := u128_mul (u128_of_int64 (amount (quote b))) (u128_of_int64 (amount (base a))) in
    let bmult := u128_mul (u128_of_int64 (amount (quote a))) (u128_of_int64 (amount (base b))) in
    amult <? bmult.

Definition price_leb (a b : price) : bool := price_eqb a b || price_ltb a b.
Definition price_neb (a b : price) : bool := negb (price_eqb a b).
Definition price_gtb (a b : price) : bool := negb (price_leb a b).
Definition price_geb (a b : price) : bool := negb (price_ltb a b).

(** [price operator/(asset, asset)] *)
Definition asset_div (b q : asset) : result price :=
  bn ← symbol_name b;
  qn ← symbol_name q;
  fc_assert (negb (String.eqb bn qn)) ;;
  Ok (mk_price b q).

(** [operator~] *)
Definition price_invert (p : price) : price := mk_price (quote p) (base p).

(** One branch of [operator*(asset, price)]: multiply by [num], divide by [den]. *)
Definition mul_div (a num den : Z) (sym : Z) : result asset :=
  fc_assert (den >? 0) ;;
  r ← u128_div (u128_mul (u128_of_int64 a) (u128_of_int64 num)) (u128_of_int64 den);
  fc_assert (u128_hi r =? 0) ;;
  v ← u128_to_uint64 r;
  Ok (mk_asset (safe_of_uint64 v) sym).

(** [asset operator*(asset, price)] *)
Definition asset_mul_price (a : asset) (b : price) : result asset :=
  an ← symbol_name a;
  bn ← symbol_name (base b);
  if String.eqb an bn then
    mul_div (amount a) (amount (quote b)) (amount (base b)) (symbol (quote b))
  else
    qn ← symbol_name (quote b);
    if String.eqb an qn then
      mul_div (amount a) (amount (base b)) (amount (quote b)) (symbol (base b))
    else Throw fc_assert_exception.

(** [price::max], [price::min] *)
Definition price_max (bsym qsym : Z) : result price :=
  asset_div (mk_asset STEEMIT_MAX_SHARE_SUPPLY bsym) (mk_asset 1 qsym).
Definition price_min (bsym qsym : Z) : result price :=
  asset_div (mk_asset 1 bsym) (mk_asset STEEMIT_MAX_SHARE_SUPPLY qsym).

(** [price::is_null]: equal to the default price *)
Definition price_is_null (p : price) : bool :=
  price_eqb p (mk_price (mk_asset 0 STEEM_SYMBOL) (mk_asset 0 STEEM_SYMBOL)).

(** [price::validate] *)
Definition price_validate (p : price) : result unit :=
  check_value (amount (base p) >? 0) ;;
  check_value (amount (quote p) >? 0) ;;
  bn ← symbol_name (base p);
  qn ← symbol_name (quote p);
  check_value (negb (String.eqb bn qn)).

(** ** Text form *)

(** [asset::to_string] *)
Definition asset_to_string (a : asset) : result string :=
  prec ← precision a;
  let whole := fc_to_string (Z.quot (amount a) prec) in
  let text :=
    if prec >? 1 then
      let fract := Z.rem (amount a) prec in
      whole +:+ "." +:+ drop_string 1 (fc_to_string (prec + fract))
    else whole in
  name ← symbol_name a;
  Ok (text +:+ " " +:+ name).

(** [memcpy(sy + 1, name, size)] into a word whose bytes 1 to 7 are zero *)
Fixpoint symbol_of_name (name : string) (i : Z) : Z :=
  match name with
  | EmptyString => 0
  | String c name' => Z.lor (Z.shiftl (Z.of_N (N_of_ascii c)) (8 * i)) (symbol_of_name name' (i + 1))
  end.

(** [asset::from_string]; the amount is computed on the raw [int64_t] value. *)
Definition asset_from_string (from : string) : result asset :=
  let s := fc_trim from in
  match find_char " " s with
  | None => Throw invalid_value
  | Some space_pos =>
      result_with_amount ←
        match find_char "." s with
        | Some dot_pos =>
            check_value (bool_decide (dot_pos < space_pos)%nat) ;;
            let intpart := take_string dot_pos s in
            let fractpart :=
              "1" +:+ take_string (space_pos - dot_pos - 1) (drop_string (dot_pos + 1) s) in
            let digits := Z.of_nat (String.length fractpart) - 1 in
            check_value (digits <? 15) ;;
            r ← set_decimals digits (mk_asset 0 0);
            i ← fc_to_int64 intpart;
            prec ← precision r;
            f ← fc_to_int64 fractpart;
            Ok (r <| amount := to_int64_wrap (to_int64_wrap (to_int64_wrap (i * prec) + f) - prec) |>)
        | None =>
            let intpart := take_string space_pos s in
            i ← fc_to_int64 intpart;
            r ← set_decimals 0 (mk_asset 0 0);
            Ok (r <| amount := i |>)
        end;
      let name := drop_string (space_pos + 1) s in
      check_value ((String.length name =? 0)%nat || (String.length name <=? 6)%nat) ;;
      Ok (result_with_amount <| symbol ::= fun sym => Z.lor sym (symbol_of_name name 1) |>)
  end.

End Operators.

(** ** Facts about the operators *)

(** The part of an asset that is denominated in [sym]. *)
Definition amount_in (sym : Z) (a : asset) : Z := if symbol a =? sym then amount a else 0.

Section Facts.
Context `{F : fc_ops} {L : fc_laws F}.
Implicit Types (a b c : asset) (p : price).

Lemma asset_add_Ok a b c :
  asset_add a b = Ok c <->
  symbol a = symbol b /\ is_int64 (amount a + amount b) = true /\
  c = mk_asset (amount a + amount b) (symbol a).
Proof.
  unfold asset_add. rewrite safe_add_law. unfold fc_assert.
  destruct (Z.eqb_spec (symbol a) (symbol b)), (is_int64 (amount a + amount b)); cbn; naive_solver.
Qed.

Lemma asset_sub_Ok a b c :
  asset_sub a b = Ok c <->
  symbol a = symbol b /\ is_int64 (amount a - amount b) = true /\
  c = mk_asset (amount a - amount b) (symbol a).
Proof.
  unfold asset_sub. rewrite safe_sub_law. unfold fc_assert.
  destruct (Z.eqb_spec (symbol a) (symbol b)), (is_int64 (amount a - amount b)); cbn; naive_solver.
Qed.

Lemma asset_neg_Ok a c :
  asset_neg a = Ok c <-> is_int64 (- amount a) = true /\ c = mk_asset (- amount a) (symbol a).
Proof.
  unfold asset_neg. rewrite safe_neg_law.
  destruct (is_int64 (- amount a)); cbn; naive_solver.
Qed.

Lemma asset_ltb_Ok a b r :
  asset_ltb a b = Ok r <-> symbol a = symbol b /\ r = (amount a <? amount b).
Proof.
  unfold asset_ltb, fc_assert. destruct (Z.eqb_spec (symbol a) (symbol b)); cbn; naive_solver.
Qed.

Lemma asset_eqb_Ok a b r :
  asset_eqb a b = Ok r <-> symbol a = symbol b /\ r = (amount a =? amount b).
Proof.
  unfold asset_eqb, fc_assert. destruct (Z.eqb_spec (symbol a) (symbol b)); cbn; naive_solver.
Qed.

Lemma asset_leb_Ok a b r :
  asset_leb a b = Ok r <-> symbol a = symbol b /\ r = (amount a <=? amount b).
Proof.
  unfold asset_leb, asset_eqb, asset_ltb, fc_assert.
  destruct (Z.eqb_spec (symbol a) (symbol b)); cbn; [|naive_solver].
  destruct (Z.eqb_spec (amount a) (amount b)) as [E | E]; cbn.
  - rewrite E, Z.leb_refl. naive_solver.
  - replace (amount a <? amount b) with (amount a <=? amount b) by lia. naive_solver.
Qed.

Lemma asset_geb_Ok a b r :
  asset_geb a b = Ok r <-> symbol a = symbol b /\ r = (amount b <=? amount a).
Proof.
  unfold asset_geb. rewrite bind_Ok. setoid_rewrite asset_ltb_Ok.
  rewrite Z.leb_antisym. naive_solver.
Qed.

Lemma asset_gtb_Ok a b r :
  asset_gtb a b = Ok r <-> symbol a = symbol b /\ r = (amount b <? amount a).
Proof.
  unfold asset_gtb. rewrite bind_Ok. setoid_rewrite asset_leb_Ok.
  rewrite Z.ltb_antisym. naive_solver.
Qed.

Lemma amount_in_add sym a b c :
  asset_add a b = Ok c -> amount_in sym c = amount_in sym a + amount_in sym b.
Proof.
  rewrite asset_add_Ok. intros (Hs & _ & ->). unfold amount_in. cbn. rewrite <- Hs.
  destruct (symbol a =? sym); lia.
Qed.

Lemma amount_in_sub sym a b c :
  asset_sub a b = Ok c -> amount_in sym c = amount_in sym a - amount_in sym b.
Proof.
  rewrite asset_sub_Ok. intros (Hs & _ & ->). unfold amount_in. cbn. rewrite <- Hs.
  destruct (symbol a =? sym); lia.
Qed.

Lemma amount_in_neg sym a c :
  asset_neg a = Ok c -> amount_in sym c = - amount_in sym a.
Proof.
  rewrite asset_neg_Ok. intros (_ & ->). unfold amount_in. cbn.
  destruct (symbol a =? sym); lia.
Qed.

Lemma amount_in_null sym a : amount a = 0 -> amount_in sym a = 0.
Proof. unfold amount_in. intros ->. by destruct (symbol a =? sym). Qed.

Lemma amount_in_zero sym s : amount_in sym (mk_asset 0 s) = 0.
Proof. unfold amount_in. cbn. by destruct (s =? sym). Qed.

(** ** Products with a price *)

(** On non-negative operands [mul_div] is the exact quotient, and it throws
    exactly when that quotient needs more than 64 bits. *)
Lemma mul_div_spec (a num den sym : Z) :
  0 <= a < 2 ^ 63 -> 0 <= num < 2 ^ 63 -> 0 < den < 2 ^ 63 ->
  mul_div a num den sym =
    if a * num / den <? 2 ^ 64
    then Ok (mk_asset (safe_of_uint64 (a * num / den)) sym)
    else Throw fc_assert_exception.
Proof.
  intros Ha Hn Hd. unfold mul_div.
  rewrite !u128_of_int64_law, !(Z.mod_small _ (2 ^ 128)) by lia.
  rewrite u128_mul_law, Z.mod_small by nia.
  rewrite u128_div_law by nia.
  assert (0 <= a * num / den < 2 ^ 128) as Hq.
  { split; [apply Z.div_pos; nia|]. apply Z.div_lt_upper_bound; nia. }
  unfold fc_assert. replace (den >? 0) with true by lia. cbn [mbind result_bind].
  rewrite u128_hi_law, u128_to_uint64_law by lia.
  destruct (Z.ltb_spec (a * num / den) (2 ^ 64)) as [H | H].
  - rewrite (Z.div_small _ _ (conj (proj1 Hq) H)). reflexivity.
  - assert (1 <= a * num / den / 2 ^ 64) by (apply Z.div_le_lower_bound; lia).
    replace (a * num / den / 2 ^ 64 =? 0) with false by lia. reflexivity.
Qed.

Lemma asset_mul_price_base a p n :
  symbol_name a = Ok n -> symbol_name (base p) = Ok n ->
  asset_mul_price a p =
    mul_div (amount a) (amount (quote p)) (amount (base p)) (symbol (quote p)).
Proof. intros Ha Hb. unfold asset_mul_price. rewrite Ha, Hb. cbn. by rewrite String.eqb_refl. Qed.

Lemma asset_mul_price_quote a p n m :
  symbol_name a = Ok n -> symbol_name (base p) = Ok m -> symbol_name (quote p) = Ok n -> n <> m ->
  asset_mul_price a p =
    mul_div (amount a) (amount (base p)) (amount (quote p)) (symbol (base p)).
Proof.
  intros Ha Hb Hq Hnm. unfold asset_mul_price. rewrite Ha, Hb. cbn.
  rewrite (proj2 (String.eqb_neq n m) Hnm), Hq. cbn. by rewrite String.eqb_refl.
Qed.

End Facts.
