(* ===== verification/AssetProps.v ===== *)
(** * Properties of assets and prices

    Exactness and rounding of the product with a price, the order on prices used
    as the key of the order book, and the text form of an asset. *)

From stdpp Require Import pretty.
From S2P Require Import Prelude Exceptions Text Fc Config Asset.

(** ** Rounding *)

(** What is lost by converting an amount with one price there and back. *)
Lemma floor_there_and_back (x n d : Z) :
  0 <= x -> 0 < n -> 0 < d ->
  let y := x * n / d * d / n in 0 <= y <= x /\ (x - y - 1) * n < d.
Proof.
  intros Hx Hn Hd y. subst y.
  pose proof (Z.div_mod (x * n) d ltac:(lia)) as E1.
  pose proof (Z.mod_pos_bound (x * n) d ltac:(lia)) as B1.
  set (q := x * n / d) in *.
  assert (0 <= q) by (apply Z.div_pos; nia).
  pose proof (Z.div_mod (q * d) n ltac:(lia)) as E2.
  pose proof (Z.mod_pos_bound (q * d) n ltac:(lia)) as B2.
  assert (0 <= q * d / n) by (apply Z.div_pos; nia).
  split; [split; [done | nia] | nia].
Qed.

Section Props.
Context `{F : fc_ops} {L : fc_laws F}.
Implicit Types (a b c : asset) (p q r : price).

(** A price as [price::validate] accepts it, with amounts that are int64 and
    symbols named [bn] and [qn]. *)
Definition valid_price p (bn qn : string) : Prop :=
  0 < amount (base p) < 2 ^ 63 /\ 0 < amount (quote p) < 2 ^ 63 /\
  symbol_name (base p) = Ok bn /\ symbol_name (quote p) = Ok qn /\ bn <> qn.

(** multiplying a non-negative asset by a valid price yields exactly the
    rounded-down cross product in the other symbol of the price, and throws exactly
    when that value does not fit in 64 bits; an asset in neither symbol of the price
    is refused. *)
Theorem asset_mul_price_exact a p n bn qn :
  0 <= amount a < 2 ^ 63 -> valid_price p bn qn -> symbol_name a = Ok n ->
  asset_mul_price a p =
    (if String.eqb n bn then
       let v := amount a * amount (quote p) / amount (base p) in
       if v <? 2 ^ 64 then Ok (mk_asset (safe_of_uint64 v) (symbol (quote p)))
       else Throw fc_assert_exception
     else if String.eqb n qn then
       let v := amount a * amount (base p) / amount (quote p) in
       if v <? 2 ^ 64 then Ok (mk_asset (safe_of_uint64 v) (symbol (base p)))
       else Throw fc_assert_exception
     else Throw fc_assert_exception).
Proof.
  intros Ha (Hb & Hq & Ebn & Eqn & Hne) En.
  destruct (String.eqb_spec n bn) as [-> | D1]; [|destruct (String.eqb_spec n qn) as [-> | D2]].
  - rewrite (asset_mul_price_base a p bn) by done. apply mul_div_spec; lia.
  - rewrite (asset_mul_price_quote a p qn bn) by congruence. apply mul_div_spec; lia.
  - unfold asset_mul_price. rewrite En, Ebn, Eqn. cbn.
    rewrite (proj2 (String.eqb_neq n bn)), (proj2 (String.eqb_neq n qn)) by congruence. done.
Qed.

(** converting an asset with a price and converting the result back with the
    same price never creates value, and loses less than one unit plus one unit's
    worth of the other side of the price. *)
Theorem convert_back_no_gain a b c p bn qn :
  0 <= amount a < 2 ^ 63 -> valid_price p bn qn -> symbol_name a = Ok bn ->
  amount a * amount (quote p) / amount (base p) < 2 ^ 63 ->
  asset_mul_price a p = Ok b -> asset_mul_price b p = Ok c ->
  0 <= amount c <= amount a /\
  (amount a - amount c - 1) * amount (quote p) < amount (base p).
Proof.
  intros Ha (Hb & Hq & Ebn & Eqn & Hne) En Hfit Hab Hbc.
  rewrite (asset_mul_price_base a p bn), mul_div_spec in Hab by (congruence || lia).
  assert (0 <= amount a * amount (quote p) / amount (base p)) by (apply Z.div_pos; nia).
  rewrite (proj2 (Z.ltb_lt _ _)) in Hab by lia.
  rewrite safe_of_uint64_law in Hab by (rewrite is_int64_spec; lia).
  injection Hab as <-.
  rewrite (asset_mul_price_quote _ p qn bn) in Hbc; [|done|done|done|congruence].
  rewrite mul_div_spec in Hbc by (cbn; lia). cbn [amount] in Hbc.
  pose proof (floor_there_and_back (amount a) (amount (quote p)) (amount (base p))
    ltac:(lia) ltac:(lia) ltac:(lia)) as Hback. cbn zeta in Hback.
  rewrite (proj2 (Z.ltb_lt _ _)) in Hbc by lia.
  rewrite safe_of_uint64_law in Hbc by (rewrite is_int64_spec; lia).
  injection Hbc as <-. exact Hback.
Qed.

(** ** The order on prices *)

Lemma u128_product x y :
  0 < x < 2 ^ 63 -> 0 < y < 2 ^ 63 ->
  u128_mul (u128_of_int64 x) (u128_of_int64 y) = x * y.
Proof.
  intros Hx Hy. rewrite !u128_of_int64_law, !(Z.mod_small _ (2 ^ 128)), u128_mul_law by lia.
  apply Z.mod_small. nia.
Qed.

Definition positive_price p : Prop :=
  0 < amount (base p) < 2 ^ 63 /\ 0 < amount (quote p) < 2 ^ 63.

(** The key a price is compared by: the symbols, then the rate base / quote. *)
Definition price_key_lt p q : Prop :=
  symbol (base p) < symbol (base q) \/
  symbol (base p) = symbol (base q) /\
    (symbol (quote p) < symbol (quote q) \/
     symbol (quote p) = symbol (quote q) /\
       amount (base p) * amount (quote q) < amount (base q) * amount (quote p)).

Lemma price_ltb_key p q :
  positive_price p -> positive_price q -> price_ltb p q = true <-> price_key_lt p q.
Proof.
  intros [Hp1 Hp2] [Hq1 Hq2]. unfold price_ltb, price_key_lt.
  rewrite !u128_product by done.
  rewrite (Z.mul_comm (amount (quote q))), (Z.mul_comm (amount (quote p))).
  destruct (Z.ltb_spec (symbol (base p)) (symbol (base q))); [intuition lia|].
  rewrite !Z.gtb_ltb.
  destruct (Z.ltb_spec (symbol (base q)) (symbol (base p))); [intuition lia|].
  destruct (Z.ltb_spec (symbol (quote p)) (symbol (quote q))); [intuition lia|].
  destruct (Z.ltb_spec (symbol (quote q)) (symbol (quote p))); [intuition lia|].
  rewrite Z.ltb_lt. intuition lia.
Qed.

Lemma price_eqb_key p q :
  positive_price p -> positive_price q ->
  price_eqb p q = true <->
  symbol (base p) = symbol (base q) /\ symbol (quote p) = symbol (quote q) /\
  amount (base p) * amount (quote q) = amount (base q) * amount (quote p).
Proof.
  intros [Hp1 Hp2] [Hq1 Hq2]. unfold price_eqb.
  rewrite !u128_product by done.
  rewrite (Z.mul_comm (amount (quote q))), (Z.mul_comm (amount (quote p))).
  destruct (Z.eqb_spec (symbol (base p)) (symbol (base q))); cbn; [|naive_solver].
  destruct (Z.eqb_spec (symbol (quote p)) (symbol (quote q))); cbn; [|naive_solver].
  rewrite Z.eqb_eq. naive_solver.
Qed.

(** C37: on prices with positive amounts [operator<] is a strict total order whose
    equality is [operator==] (the rates agree): it is transitive, and exactly one
    of "less", "equal", "greater" holds for any two prices.  This is what the
    price index of the order book needs of its comparator. *)
Theorem price_order p q r :
  positive_price p -> positive_price q -> positive_price r ->
  (price_ltb p q = true -> price_ltb q r = true -> price_ltb p r = true) /\
  (price_eqb p q = true -> price_ltb q r = true -> price_ltb p r = true) /\
  match price_ltb p q, price_eqb p q, price_ltb q p with
  | true, false, false | false, true, false | false, false, true => True
  | _, _, _ => False
  end.
Proof.
  intros Hp Hq Hr. rewrite !price_ltb_key, price_eqb_key by done.
  destruct Hp as [Hp1 Hp2], Hq as [Hq1 Hq2], Hr as [Hr1 Hr2].
  unfold price_key_lt. split; [|split].
  - intros [?|[? [?|[? ?]]]] [?|[? [?|[? ?]]]]; try lia. right; split; [lia|].
    right; split; [lia|]. nia.
  - intros (? & ? & ?) [?|[? [?|[? ?]]]]; try lia. right; split; [lia|].
    right; split; [lia|]. nia.
  - destruct (price_ltb p q) eqn:E1, (price_eqb p q) eqn:E2, (price_ltb q p) eqn:E3;
      try apply price_ltb_key in E1; try apply price_eqb_key in E2;
      try apply price_ltb_key in E3; try done; unfold price_key_lt in *; try lia.
    apply not_true_iff_false in E1, E2, E3.
    rewrite price_ltb_key in E1, E3 by done. rewrite price_eqb_key in E2 by done.
    unfold price_key_lt in *. lia.
Qed.

End Props.

(** ** The bytes of a symbol *)

Lemma symbol_byte_lor x y i :
  symbol_byte (Z.lor x y) i = Z.lor (symbol_byte x i) (symbol_byte y i).
Proof. unfold symbol_byte. by rewrite Z.shiftr_lor, Z.land_lor_distr_l. Qed.

Lemma symbol_byte_mod x i : 0 <= i -> symbol_byte x i = x / 2 ^ (8 * i) mod 2 ^ 8.
Proof.
  intros Hi. unfold symbol_byte. rewrite Z.shiftr_div_pow2 by lia.
  change 255 with (Z.ones 8). apply Z.land_ones. lia.
Qed.

Lemma symbol_byte_shifted b k i :
  0 <= b < 256 -> 0 <= k -> 0 <= i ->
  symbol_byte (Z.shiftl b (8 * k)) i = if i =? k then b else 0.
Proof.
  intros Hb Hk Hi. rewrite symbol_byte_mod, Z.shiftl_mul_pow2 by lia.
  destruct (Z.eqb_spec i k) as [-> | Hne].
  - rewrite Z.div_mul by (apply Z.pow_nonzero; lia). apply Z.mod_small. lia.
  - assert (i < k \/ k < i) as [Hlt | Hlt] by lia.
    + replace (8 * k) with (8 * (k - i - 1) + 8 + 8 * i) by lia.
      rewrite !Z.pow_add_r by lia. rewrite !Z.mul_assoc.
      rewrite Z.div_mul by (apply Z.pow_nonzero; lia). apply Z.mod_mul. lia.
    + rewrite (Z.div_small _ (2 ^ (8 * i))); [done|].
      replace (8 * i) with (8 * (i - k - 1) + 8 + 8 * k) by lia.
      rewrite !Z.pow_add_r by lia.
      pose proof (Z.pow_pos_nonneg 2 (8 * (i - k - 1)) ltac:(lia) ltac:(lia)).
      pose proof (Z.pow_pos_nonneg 2 (8 * k) ltac:(lia) ltac:(lia)). nia.
Qed.

Lemma ascii_byte_range c : 0 <= Z.of_N (N_of_ascii c) < 256.
Proof. pose proof (N_ascii_bounded c). lia. Qed.

Lemma symbol_of_name_low name k i :
  0 <= i < k -> symbol_byte (symbol_of_name name k) i = 0.
Proof.
  revert k. induction name as [| c name IH]; intros k Hi; cbn [symbol_of_name].
  - rewrite symbol_byte_mod by lia. rewrite Z.div_0_l by (apply Z.pow_nonzero; lia). done.
  - rewrite symbol_byte_lor, IH, symbol_byte_shifted by (lia || apply ascii_byte_range).
    by replace (i =? k) with false by lia.
Qed.

Lemma symbol_of_name_head c name k :
  0 <= k -> symbol_byte (symbol_of_name (String c name) k) k = Z.of_N (N_of_ascii c).
Proof.
  intros Hk. cbn [symbol_of_name].
  rewrite symbol_byte_lor, symbol_of_name_low, symbol_byte_shifted by (lia || apply ascii_byte_range).
  by rewrite Z.eqb_refl, Z.lor_0_r.
Qed.

Lemma symbol_of_name_tail c name k i :
  0 <= k < i ->
  symbol_byte (symbol_of_name (String c name) k) i = symbol_byte (symbol_of_name name (k + 1)) i.
Proof.
  intros Hk. cbn [symbol_of_name].
  rewrite symbol_byte_lor, symbol_byte_shifted by (lia || apply ascii_byte_range).
  by replace (i =? k) with false by lia.
Qed.

Lemma symbol_of_name_high name k i :
  0 <= k -> k + size_of name <= i -> symbol_byte (symbol_of_name name k) i = 0.
Proof.
  unfold size_of. revert k. induction name as [| c name IH]; intros k Hk Hi.
  - cbn. rewrite symbol_byte_mod by (cbn in Hi; lia).
    rewrite Z.div_0_l by (apply Z.pow_nonzero; cbn in Hi; lia). done.
  - cbn in Hi. rewrite symbol_of_name_tail, IH by lia. done.
Qed.

(** The C string at byte [k] is [name] when the bytes from [k] on are those of
    [name] followed by a zero byte. *)
Lemma symbol_cstring_name sym name k n :
  0 <= k -> (String.length name <= n)%nat ->
  all_chars (fun c => negb (Ascii.eqb c "000")) name = true ->
  (forall i, k <= i -> symbol_byte sym i = symbol_byte (symbol_of_name name k) i) ->
  symbol_cstring sym k n = name.
Proof.
  revert k n. induction name as [| c name IH]; intros k n Hk Hn Hnz Hbytes.
  - destruct n as [| n]; cbn; [done|].
    rewrite Hbytes, symbol_of_name_high by (unfold size_of; cbn; lia). done.
  - destruct n as [| n]; [cbn in Hn; lia|]. cbn [symbol_cstring].
    rewrite Hbytes, symbol_of_name_head by lia.
    cbn in Hnz. apply andb_true_iff in Hnz as [Hc Hnz].
    destruct (Z.eqb_spec (Z.of_N (N_of_ascii c)) 0) as [E | E].
    { assert (c = "000"%char) as ->; [|done].
      rewrite <- (ascii_N_embedding c). by replace (N_of_ascii c) with 0%N by lia. }
    rewrite N2Z.id, ascii_N_embedding. f_equal.
    apply IH; [lia | cbn in Hn; lia | done |].
    intros i Hi. rewrite Hbytes, symbol_of_name_tail by lia. done.
Qed.

(** ** Text form *)

Definition make_symbol (d : nat) (name : string) : Z :=
  Z.lor (Z.of_nat d) (symbol_of_name name 1).

(** A symbol name as the network uses it: one to six capital letters. *)
Definition is_capital (c : ascii) : bool :=
  let n := N_of_ascii c in (65 <=? n)%N && (n <=? 90)%N.
Definition well_formed_name (name : string) : bool :=
  (1 <=? String.length name)%nat && (String.length name <=? 6)%nat && all_chars is_capital name.

Lemma is_capital_not c c' : is_capital c' = false -> is_capital c = true -> Ascii.eqb c' c = false.
Proof. intros H1 H2. apply Ascii.eqb_neq. congruence. Qed.

Lemma is_digit_not c c' :
  is_decimal_digit c' = false -> is_decimal_digit c = true -> Ascii.eqb c' c = false.
Proof. intros H1 H2. apply Ascii.eqb_neq. congruence. Qed.

Lemma digits_avoid c s :
  is_decimal_digit c = false -> all_chars is_decimal_digit s = true ->
  all_chars (fun c' => negb (Ascii.eqb c c')) s = true.
Proof.
  intros Hc. apply all_chars_impl. intros c' Hc'. by rewrite (is_digit_not c' c).
Qed.

Lemma capitals_avoid c s :
  is_capital c = false -> all_chars is_capital s = true ->
  all_chars (fun c' => negb (Ascii.eqb c c')) s = true.
Proof.
  intros Hc. apply all_chars_impl. intros c' Hc'. by rewrite (is_capital_not c' c).
Qed.

Lemma make_symbol_bytes d name i :
  (d < 256)%nat -> 1 <= i ->
  symbol_byte (make_symbol d name) i = symbol_byte (symbol_of_name name 1) i.
Proof.
  intros Hd Hi. unfold make_symbol. rewrite symbol_byte_lor.
  replace (Z.of_nat d) with (Z.shiftl (Z.of_nat d) (8 * 0)) by apply Z.shiftl_0_r.
  rewrite symbol_byte_shifted by lia. by replace (i =? 0) with false by lia.
Qed.

Lemma make_symbol_byte0 d name :
  (d < 256)%nat -> symbol_byte (make_symbol d name) 0 = Z.of_nat d.
Proof.
  intros Hd. unfold make_symbol. rewrite symbol_byte_lor, symbol_of_name_low by lia.
  replace (Z.of_nat d) with (Z.shiftl (Z.of_nat d) (8 * 0)) at 1 by apply Z.shiftl_0_r.
  rewrite symbol_byte_shifted by lia. by rewrite Z.lor_0_r.
Qed.

Lemma make_symbol_name d name :
  (d < 256)%nat -> well_formed_name name = true -> symbol_name_of (make_symbol d name) = Ok name.
Proof.
  unfold well_formed_name. rewrite !andb_true_iff, !Nat.leb_le. intros Hd [[H1 H6] Hcap].
  unfold symbol_name_of.
  rewrite make_symbol_bytes, symbol_of_name_high by (unfold size_of; lia).
  unfold fc_assert. cbn [Z.eqb mbind result_bind]. f_equal.
  apply symbol_cstring_name; [lia | done | |].
  - eapply all_chars_impl; [|exact Hcap]. intros c Hc.
    by rewrite (proj2 (Ascii.eqb_neq c "000")) by (intros ->; done).
  - intros i Hi. apply make_symbol_bytes; lia.
Qed.

Lemma precision_make_symbol d name n :
  (d < 15)%nat -> precision (mk_asset n (make_symbol d name)) = Ok (10 ^ Z.of_nat d).
Proof.
  intros Hd. unfold precision, decimals. cbn [symbol].
  rewrite make_symbol_byte0 by lia. unfold fc_assert.
  replace (Z.of_nat d <? 15) with true by lia. cbn [mbind result_bind].
  rewrite Nat2Z.id. f_equal.
  do 15 (destruct d as [| d]; [reflexivity|]). lia.
Qed.

Lemma precision_no_name d n :
  (d < 15)%nat -> precision (mk_asset n (Z.of_nat d)) = Ok (10 ^ Z.of_nat d).
Proof.
  intros Hd. pose proof (precision_make_symbol d "" n Hd) as H.
  unfold make_symbol in H. cbn in H. by rewrite Z.lor_0_r in H.
Qed.

Lemma set_decimals_fresh d :
  (d < 15)%nat -> set_decimals (Z.of_nat d) (mk_asset 0 0) = Ok (mk_asset 0 (Z.of_nat d)).
Proof.
  intros Hd. unfold set_decimals, fc_assert. replace (Z.of_nat d <? 15) with true by lia.
  cbn [mbind result_bind]. unfold set_field. cbn [amount symbol]. by rewrite Z.ldiff_0_l, Z.lor_0_l.
Qed.

Lemma string_last_app c s t c' : string_last c (s +:+ String c' t) = string_last c' t.
Proof.
  revert c. induction s as [| c'' s IH]; intros c; [done|]. rewrite string_app_cons. apply IH.
Qed.

Lemma string_last_all P c s : P c = true -> all_chars P s = true -> P (string_last c s) = true.
Proof.
  revert c. induction s as [| c' s IH]; intros c Hc; cbn; [done|].
  rewrite andb_true_iff. intros [? ?]. by apply IH.
Qed.

Lemma not_space_above c : (33 <= N_of_ascii c)%N -> is_space c = false.
Proof.
  intros H. unfold is_space. apply orb_false_iff. split; [apply N.eqb_neq; lia|].
  apply andb_false_iff. right. apply N.leb_gt. lia.
Qed.

Lemma not_space_digit c : is_decimal_digit c = true -> is_space c = false.
Proof. intros [H%N.leb_le _]%andb_true_iff. apply not_space_above. lia. Qed.

Lemma not_space_capital c : is_capital c = true -> is_space c = false.
Proof. intros [H%N.leb_le _]%andb_true_iff. apply not_space_above. lia. Qed.

(** A numeral, anything, a space and a name: the text [to_string] produces has no
    white space at its ends. *)
Lemma trimmed_text num mid name :
  num <> EmptyString -> all_chars is_decimal_digit num = true -> well_formed_name name = true ->
  trimmed (num +:+ mid +:+ " " +:+ name) = true.
Proof.
  intros Hnum Hdig. unfold well_formed_name. rewrite !andb_true_iff, !Nat.leb_le.
  intros [[Hlen _] Hcap].
  destruct num as [| c num]; [done|]. cbn in Hdig. apply andb_true_iff in Hdig as [Hc _].
  destruct name as [| c' name]; [cbn in Hlen; lia|].
  cbn in Hcap. apply andb_true_iff in Hcap as [Hc' Hcap].
  rewrite string_app_cons. cbn [trimmed]. rewrite (not_space_digit c Hc). cbn.
  apply negb_true_iff. rewrite <- !string_app_assoc.
  change (" " +:+ String c' name) with (String " " (String c' name)).
  rewrite string_last_app. cbn. apply not_space_capital.
  by apply (string_last_all is_capital).
Qed.

Section TextForm.
Context `{F : fc_ops} {L : fc_laws F}.

(** The digits after the decimal point: [to_string(prec + fract)] without its
    leading 1. *)
Lemma fraction_text d f :
  (d < 15)%nat -> 0 <= f < 10 ^ Z.of_nat d ->
  exists t, drop_string 1 (fc_to_string (10 ^ Z.of_nat d + f)) = t /\ String.length t = d /\
    all_chars is_decimal_digit t = true /\
    fc_to_int64 (String "1" t) = Ok (10 ^ Z.of_nat d + f).
Proof.
  intros Hd Hf.
  assert (10 ^ Z.of_nat d <= 10 ^ 14) by (apply Z.pow_le_mono_r; lia).
  assert (is_int64 (10 ^ Z.of_nat d + f) = true) as Hint by (rewrite is_int64_spec; lia).
  destruct (pretty_power d f Hf) as (t & Ht & Hlen).
  exists t. rewrite fc_to_string_law, Ht by done. split; [done|]. split; [done|]. split.
  - pose proof (pretty_Z_digits (10 ^ Z.of_nat d + f) ltac:(lia)) as Hdig.
    rewrite Ht in Hdig. done.
  - rewrite <- Ht. by apply fc_to_int64_law.
Qed.

Lemma pretty_nonempty (z : Z) : 0 <= z -> (pretty z : string) <> EmptyString.
Proof.
  intros Hz. destruct z as [| p | p]; [done | | lia].
  change (pretty (Z.pos p)) with (pretty (N.pos p)).
  destruct (pretty_N_head (N.pos p)) as (d & t & _ & ->). done.
Qed.

(** How [from_string] reads a name after the amount. *)
Lemma from_string_name r name :
  well_formed_name name = true ->
  (check_value ((String.length name =? 0)%nat || (String.length name <=? 6)%nat) ;;
   Ok (r <| symbol ::= fun sym => Z.lor sym (symbol_of_name name 1) |>)) =
  Ok (mk_asset (amount r) (Z.lor (symbol r) (symbol_of_name name 1))).
Proof.
  unfold well_formed_name. rewrite !andb_true_iff. intros [[_ ->] _].
  by rewrite orb_true_r.
Qed.

(** [from_string] on "whole.fraction NAME". *)
Lemma from_string_dotted w t name i f :
  w <> EmptyString -> all_chars is_decimal_digit w = true -> all_chars is_decimal_digit t = true ->
  (String.length t < 15)%nat -> well_formed_name name = true ->
  fc_to_int64 w = Ok i -> fc_to_int64 (String "1" t) = Ok f ->
  let prec := 10 ^ Z.of_nat (String.length t) in
  asset_from_string ((w +:+ "." +:+ t) +:+ " " +:+ name) =
    Ok (mk_asset (to_int64_wrap (to_int64_wrap (to_int64_wrap (i * prec) + f) - prec))
                 (make_symbol (String.length t) name)).
Proof.
  intros Hw Hdw Hdt Hlen Hname Hi Hf prec. unfold asset_from_string.
  rewrite fc_trim_law by (rewrite string_app_assoc; by apply trimmed_text).
  change (" " +:+ name) with (String " " name).
  rewrite (find_char_app " " (w +:+ "." +:+ t)).
  2:{ by rewrite !all_chars_app, (digits_avoid _ w), (digits_avoid _ t) by done. }
  rewrite string_app_assoc. change (("." +:+ t) +:+ String " " name) with
    (String "." (t +:+ String " " name)).
  rewrite (find_char_app "." w) by (by apply digits_avoid).
  rewrite take_string_app, !string_length_app. cbn [String.length].
  rewrite bool_decide_true by lia. cbn [check_value mbind result_bind].
  replace (String.length w + (1 + String.length t) - String.length w - 1)%nat
    with (String.length t) by lia.
  replace (String.length w + 1)%nat with (String.length (w +:+ "."))
    by (by rewrite string_length_app).
  change (w +:+ String "." (t +:+ String " " name)) with (w +:+ "." +:+ (t +:+ String " " name)).
  rewrite <- (string_app_assoc w), drop_string_app, take_string_app.
  replace (Z.of_nat (1 + String.length t) - 1) with (Z.of_nat (String.length t)) by lia.
  replace (Z.of_nat (String.length t) <? 15) with true by lia. cbn [check_value mbind result_bind].
  rewrite set_decimals_fresh by done. cbn [mbind result_bind].
  rewrite Hi. cbn [mbind result_bind]. rewrite precision_no_name by done. cbn [mbind result_bind].
  change ("1" +:+ t) with (String "1" t). rewrite Hf. cbn [mbind result_bind].
  replace (drop_string _ _) with name; [by apply from_string_name|].
  replace ((w +:+ ".") +:+ t +:+ String " " name) with ((w +:+ "." +:+ t +:+ " ") +:+ name)
    by (by rewrite !string_app_assoc).
  replace (String.length w + _ + 1)%nat with (String.length (w +:+ "." +:+ t +:+ " ")).
  2:{ rewrite !string_length_app. cbn. lia. }
  by rewrite drop_string_app.
Qed.

(** [from_string] on "whole NAME". *)
Lemma from_string_plain w name i :
  w <> EmptyString -> all_chars is_decimal_digit w = true -> well_formed_name name = true ->
  fc_to_int64 w = Ok i ->
  asset_from_string (w +:+ " " +:+ name) = Ok (mk_asset i (make_symbol 0 name)).
Proof.
  intros Hw Hdw Hname Hi. unfold asset_from_string.
  rewrite fc_trim_law by (by apply (trimmed_text w "")).
  change (" " +:+ name) with (String " " name).
  rewrite (find_char_app " " w) by (by apply digits_avoid).
  rewrite find_char_none.
  2:{ rewrite all_chars_app, (digits_avoid _ w) by done.
      unfold well_formed_name in Hname. apply andb_true_iff in Hname as [_ Hcap].
      cbn [all_chars andb]. apply (capitals_avoid "."); [reflexivity | exact Hcap]. }
  rewrite take_string_app, Hi. cbn [mbind result_bind].
  change (set_decimals 0 (mk_asset 0 0)) with (set_decimals (Z.of_nat 0) (mk_asset 0 0)).
  rewrite (set_decimals_fresh 0) by lia. cbn [mbind result_bind].
  change (w +:+ String " " name) with (w +:+ " " +:+ name).
  replace (drop_string _ _) with name; [by apply from_string_name|].
  rewrite <- string_app_assoc.
  replace (String.length w + 1)%nat with (String.length (w +:+ " "))
    by (by rewrite string_length_app).
  by rewrite drop_string_app.
Qed.

(** C38: the text form of an asset with a non-negative amount parses back to the
    same asset, for every number of decimals and every name of capital letters. *)
Theorem asset_text_roundtrip (n : Z) (d : nat) (name : string) :
  0 <= n < 2 ^ 63 -> (d < 15)%nat -> well_formed_name name = true ->
  exists text, asset_to_string (mk_asset n (make_symbol d name)) = Ok text /\
    asset_from_string text = Ok (mk_asset n (make_symbol d name)).
Proof.
  intros Hn Hd Hname.
  assert (1 <= 10 ^ Z.of_nat d) by (pose proof (Z.pow_pos_nonneg 10 (Z.of_nat d)); lia).
  assert (0 <= n / 10 ^ Z.of_nat d <= n) as Hwhole.
  { split; [apply Z.div_pos; lia | apply Z.div_le_upper_bound; nia]. }
  assert (is_int64 (n / 10 ^ Z.of_nat d) = true) as Hint by (rewrite is_int64_spec; lia).
  unfold asset_to_string. rewrite precision_make_symbol by done. cbn [mbind result_bind].
  unfold symbol_name. cbn [symbol amount]. rewrite make_symbol_name by (done || lia).
  cbn [mbind result_bind]. rewrite Z.quot_div_nonneg, Z.rem_mod_nonneg by lia.
  rewrite (fc_to_string_law (n / _)) by done.
  destruct (Z.gtb_spec (10 ^ Z.of_nat d) 1) as [Hprec | Hprec].
  - pose proof (Z.mod_pos_bound n (10 ^ Z.of_nat d) ltac:(lia)) as Hmod.
    destruct (fraction_text d (n mod 10 ^ Z.of_nat d) Hd Hmod) as (t & -> & Ht & Htd & Hparse).
    eexists. split; [reflexivity|]. subst d.
    erewrite from_string_dotted; [| apply pretty_nonempty; lia | apply pretty_Z_digits; lia
      | done | done | done | by apply fc_to_int64_law | exact Hparse].
    do 2 f_equal. set (P := 10 ^ Z.of_nat (String.length t)) in *.
    pose proof (Z.div_mod n P ltac:(lia)) as E.
    assert (P <= 10 ^ 14) by (apply Z.pow_le_mono_r; lia).
    rewrite <- !(Z.add_opp_r _ P), to_int64_wrap_add, <- Z.add_assoc, to_int64_wrap_add.
    rewrite to_int64_wrap_id; [lia | rewrite is_int64_spec; lia].
  - eexists. split; [reflexivity|].
    assert (d = O) as ->. { destruct d; [done|]. rewrite Nat2Z.inj_succ, Z.pow_succ_r in Hprec; lia. }
    change (10 ^ Z.of_nat 0) with 1. rewrite Z.div_1_r.
    apply from_string_plain; [by apply pretty_nonempty; lia | by apply pretty_Z_digits; lia | done |].
    apply fc_to_int64_law. rewrite is_int64_spec. lia.
Qed.
End TextForm.

(** ** The theorems at concrete values *)

Definition golos (n : Z) : asset := mk_asset n STEEM_SYMBOL.
Definition gbg (n : Z) : asset := mk_asset n SBD_SYMBOL.
Definition gests (n : Z) : asset := mk_asset n VESTS_SYMBOL.

Lemma asset_mul_price_exact_witness :
  asset_mul_price (golos 10000) (mk_price (golos 3000) (gbg 1000)) = Ok (gbg 3333).
Proof.
  rewrite (asset_mul_price_exact (golos 10000) (mk_price (golos 3000) (gbg 1000))
             "GOLOS" "GOLOS" "GBG"); [vm_compute; reflexivity | cbn; lia | | reflexivity].
  repeat split; cbn; lia || reflexivity || discriminate.
Defined.

Lemma convert_back_no_gain_witness :
  0 <= 9999 <= 10000 /\ (10000 - 9999 - 1) * 1000 < 3000.
Proof.
  apply (convert_back_no_gain (golos 10000) (gbg 3333) (golos 9999)
           (mk_price (golos 3000) (gbg 1000)) "GOLOS" "GBG");
    [cbn; lia | | reflexivity | vm_compute; reflexivity | vm_compute; reflexivity
    | vm_compute; reflexivity].
  repeat split; cbn; lia || reflexivity || discriminate.
Defined.

Lemma price_order_witness :
  price_ltb (mk_price (golos 1) (gbg 2)) (mk_price (golos 3) (gbg 2)) = true /\
  (price_ltb (mk_price (golos 3) (gbg 2)) (mk_price (golos 2) (gbg 1)) = true ->
   price_ltb (mk_price (golos 1) (gbg 2)) (mk_price (golos 2) (gbg 1)) = true).
Proof.
  split; [reflexivity|]. intros H.
  apply (proj1 (price_order (mk_price (golos 1) (gbg 2)) (mk_price (golos 3) (gbg 2))
    (mk_price (golos 2) (gbg 1)) ltac:(split; cbn; lia) ltac:(split; cbn; lia)
    ltac:(split; cbn; lia))); [reflexivity | exact H].
Defined.

Lemma asset_text_roundtrip_witness :
  exists text, asset_to_string (mk_asset 1234567 (make_symbol 3 "GOLOS")) = Ok text /\
    asset_from_string text = Ok (mk_asset 1234567 (make_symbol 3 "GOLOS")).
Proof. apply (asset_text_roundtrip 1234567 3 "GOLOS"); [lia | lia | reflexivity]. Defined.
