(* ===== verification/FlatMap.v ===== *)
(** * Ordered containers

    [fc::flat_map] and [fc::flat_set] as the sources use them: a vector of entries
    kept in the order of their keys.  Iteration order is observable (authority
    checks stop early), so a flat map is an association list and a flat set a
    list, both sorted by the key order; insertion keeps the order.  The key order
    is class [KeyOrder]; its instances are account names ([string_less]) and
    public keys. *)

From S2P Require Import Prelude.

Class KeyOrder (K : Type) := {
  key_compare : K -> K -> comparison;
  key_compare_eq : forall x y, key_compare x y = Eq <-> x = y;
  key_compare_trans : forall x y z,
    key_compare x y = Lt -> key_compare y z = Lt -> key_compare x z = Lt
}.

Lemma string_compare_eq (x y : string) : String.compare x y = Eq <-> x = y.
Proof.
  split; [apply String.compare_eq_iff | intros ->].
  destruct (String.compare y y) eqn:E; [done | |].
  all: pose proof (String.compare_antisym y y) as H; rewrite E in H; discriminate.
Qed.

Lemma string_compare_trans (x y z : string) :
  String.compare x y = Lt -> String.compare y z = Lt -> String.compare x z = Lt.
Proof.
  revert y z. induction x as [| c x IH]; intros [| d y] [| e z]; cbn; try done.
  unfold Ascii.compare.
  destruct (N.compare_spec (N_of_ascii c) (N_of_ascii d)) as [E1 | E1 | E1]; try done;
  destruct (N.compare_spec (N_of_ascii d) (N_of_ascii e)) as [E2 | E2 | E2]; try done;
  destruct (N.compare_spec (N_of_ascii c) (N_of_ascii e)) as [E3 | E3 | E3]; try lia; try done.
  apply IH.
Qed.

#[export] Instance string_key_order : KeyOrder string :=
  {| key_compare := String.compare; key_compare_eq := string_compare_eq;
     key_compare_trans := string_compare_trans |}.

Lemma Z_compare_trans (x y z : Z) :
  Z.compare x y = Lt -> Z.compare y z = Lt -> Z.compare x z = Lt.
Proof. rewrite !Z.compare_lt_iff. lia. Qed.

#[export] Instance key_key_order : KeyOrder Z :=
  {| key_compare := Z.compare; key_compare_eq := Z.compare_eq_iff;
     key_compare_trans := Z_compare_trans |}.

Definition flat_map (K V : Type) : Type := list (K * V).
Definition flat_set (K : Type) : Type := list K.

Section Containers.
Context {K V : Type} `{KeyOrder K}.

(** [find] *)
Fixpoint fm_find (k : K) (m : flat_map K V) : option V :=
  match m with
  | [] => None
  | (k', v) :: m' => match key_compare k k' with Eq => Some v | _ => fm_find k m' end
  end.

(** [m[k] = v] *)
Fixpoint fm_set (k : K) (v : V) (m : flat_map K V) : flat_map K V :=
  match m with
  | [] => [(k, v)]
  | (k', v') :: m' =>
      match key_compare k k' with
      | Lt => (k, v) :: m
      | Eq => (k', v) :: m'
      | Gt => (k', v') :: fm_set k v m'
      end
  end.

(** [erase] *)
Fixpoint fm_erase (k : K) (m : flat_map K V) : flat_map K V :=
  match m with
  | [] => []
  | (k', v') :: m' => match key_compare k k' with Eq => m' | _ => (k', v') :: fm_erase k m' end
  end.

(** [insert] of a flat set: an element already present stays. *)
Fixpoint fs_insert (k : K) (s : flat_set K) : flat_set K :=
  match s with
  | [] => [k]
  | k' :: s' =>
      match key_compare k k' with
      | Lt => k :: s
      | Eq => s
      | Gt => k' :: fs_insert k s'
      end
  end.

(** [find] of a flat set *)
Fixpoint fs_mem (k : K) (s : flat_set K) : bool :=
  match s with
  | [] => false
  | k' :: s' => match key_compare k k' with Eq => true | _ => fs_mem k s' end
  end.

Definition fs_insert_all (ks : list K) (s : flat_set K) : flat_set K :=
  fold_left (fun acc k => fs_insert k acc) ks s.

Lemma key_compare_refl (k : K) : key_compare k k = Eq.
Proof. by apply key_compare_eq. Qed.

Lemma key_compare_dec (k k' : K) : k = k' /\ key_compare k k' = Eq \/ k <> k' /\ key_compare k k' <> Eq.
Proof.
  destruct (key_compare k k') eqn:E.
  - left. by apply key_compare_eq in E.
  - right. split; [|done]. intros ->. by rewrite key_compare_refl in E.
  - right. split; [|done]. intros ->. by rewrite key_compare_refl in E.
Qed.

Lemma fm_find_set_eq k v m : fm_find k (fm_set k v m) = Some v.
Proof.
  induction m as [| [k' v'] m IH]; cbn; [by rewrite key_compare_refl|].
  destruct (key_compare k k') eqn:E; cbn; rewrite ?E, ?key_compare_refl; done.
Qed.

Lemma fm_find_set_ne k k' v m : k <> k' -> fm_find k' (fm_set k v m) = fm_find k' m.
Proof.
  intros Hne. assert (key_compare k' k <> Eq) as Hc by (rewrite key_compare_eq; congruence).
  induction m as [| [k2 v2] m IH]; cbn.
  - destruct (key_compare k' k); done.
  - destruct (key_compare k k2) eqn:E; cbn.
    + apply key_compare_eq in E as <-. destruct (key_compare k' k); done.
    + destruct (key_compare k' k); done.
    + by rewrite IH.
Qed.

Lemma fs_mem_In k s : fs_mem k s = true <-> k ∈ s.
Proof.
  induction s as [| k' s IH]; cbn; [split; [done | by intros ?%elem_of_nil]|].
  rewrite elem_of_cons. destruct (key_compare_dec k k') as [[-> ->] | [Hne Hc]]; [intuition|].
  destruct (key_compare k k'); [done | |]; rewrite IH; intuition.
Qed.

Lemma elem_of_fs_insert k k' s : k' ∈ fs_insert k s <-> k' = k \/ k' ∈ s.
Proof.
  induction s as [| k2 s IH]; cbn; [rewrite !elem_of_cons; done|].
  destruct (key_compare k k2) eqn:E; rewrite ?elem_of_cons.
  - apply key_compare_eq in E as ->. naive_solver.
  - naive_solver.
  - rewrite IH. naive_solver.
Qed.

Lemma elem_of_fs_insert_all k ks s : k ∈ fs_insert_all ks s <-> k ∈ ks \/ k ∈ s.
Proof.
  unfold fs_insert_all. revert s. induction ks as [| k' ks IH]; intros s; cbn.
  - split; [auto | intros [?%elem_of_nil | ?]; done].
  - rewrite IH, elem_of_fs_insert, elem_of_cons. naive_solver.
Qed.

End Containers.
