(* ===== verification/Authority.v ===== *)
(** * Account names and authorities

    [libraries/protocol/authority.cpp] and [include/golos/protocol/authority.hpp]:
    an authority is a weight threshold with weighted accounts and weighted keys;
    [is_valid_account_name] scans a name label by label.  A public key is the
    number its 33 bytes spell; an account name is a string. *)

From S2P Require Import Prelude Exceptions Text Config FlatMap.

(** [struct authority] *)
Record authority := mk_authority {
  weight_threshold : Z;
  account_auths : flat_map string Z;
  key_auths : flat_map Z Z
}.
#[export] Instance authority_rebuild : Rebuild authority :=
  fun a => mk_authority (weight_threshold a) (account_auths a) (key_auths a).
#[export] Instance authority_eq_dec : EqDecision authority.
Proof. solve_decision. Defined.

(** The default authority: no threshold, nobody. *)
Definition authority_default : authority := mk_authority 0 [] [].

(** [add_authority] *)
Definition add_authority_key (k : Z) (w : Z) (a : authority) : authority :=
  a <| key_auths ::= fm_set k w |>.
Definition add_authority_account (k : string) (w : Z) (a : authority) : authority :=
  a <| account_auths ::= fm_set k w |>.

(** [get_keys] *)
Definition get_keys (a : authority) : list Z := (key_auths a).*1.

(** The 64-bit sum of the weights of a map. *)
Definition sum_weights {K : Type} (start : Z) (m : flat_map K Z) : Z :=
  fold_left (fun acc item => to_uint64_wrap (acc + snd item)) m start.

(** [is_impossible] *)
Definition is_impossible (a : authority) : bool :=
  sum_weights (sum_weights 0 (account_auths a)) (key_auths a) <? weight_threshold a.

(** [num_auths] *)
Definition num_auths (a : authority) : Z :=
  to_uint32_wrap (Z.of_nat (length (account_auths a) + length (key_auths a))).

(** [clear] *)
Definition authority_clear (a : authority) : authority :=
  a <| account_auths := [] |> <| key_auths := [] |>.

(** [operator==] *)
Definition authority_eqb (a b : authority) : bool :=
  (weight_threshold a =? weight_threshold b) &&
  bool_decide (account_auths a = account_auths b) &&
  bool_decide (key_auths a = key_auths b).

(** [add_authority_accounts] *)
Definition add_authority_accounts (result : flat_set string) (a : authority) : flat_set string :=
  fs_insert_all (account_auths a).*1 result.

(** ** Account names *)

Definition is_letter (x : ascii) : bool :=
  ("a" <=? x)%char && (x <=? "z")%char.
Definition is_digit (x : ascii) : bool :=
  ("0" <=? x)%char && (x <=? "9")%char.

(** [name[i]]; reading at the size yields the terminating null character. *)
Definition char_at (name : list ascii) (i : nat) : ascii := default zero (name !! i).

(** [name.find_first_of('.', begin)] *)
Definition find_dot (name : list ascii) (begin : nat) : option nat :=
  '(i, _) ← list_find (fun c => c = "."%char) (drop begin name); Some (begin + i)%nat.

(** The body of the loop over the labels, from [begin] to [end_]. *)
Definition label_in_place (name : list ascii) (begin end_ : nat) : bool :=
  negb (end_ - begin <? 3)%nat &&
  is_letter (char_at name begin) &&
  (let t := char_at name (end_ - 1) in is_letter t || is_digit t) &&
  forallb (fun i => let t := char_at name i in is_letter t || is_digit t || Ascii.eqb t "-")
          (seq (begin + 1) (end_ - 1 - (begin + 1))).

(** The loop over the labels; each turn moves [begin] past a dot. *)
Fixpoint labels_from (fuel : nat) (name : list ascii) (begin : nat) : bool :=
  match fuel with
  | O => false
  | S fuel' =>
      let len := length name in
      let end_ := default len (find_dot name begin) in
      if label_in_place name begin end_ then
        if (end_ =? len)%nat then true else labels_from fuel' name (end_ + 1)
      else false
  end.

(** [is_valid_account_name] *)
Definition is_valid_account_name (name : string) : bool :=
  let s := String.list_ascii_of_string name in
  let len := Z.of_nat (length s) in
  if len <? STEEMIT_MIN_ACCOUNT_NAME_LENGTH then false
  else if len >? STEEMIT_MAX_ACCOUNT_NAME_LENGTH then false
  else labels_from (S (length s)) s 0.

(** [authority::validate] *)
Definition authority_validate (a : authority) : result unit :=
  result_for_each (fun item => check_value (is_valid_account_name (fst item))) (account_auths a).

(** ** The grammar of account names

    The rules listed above [is_valid_account_name] in authority.hpp. *)

Definition let_dig (c : ascii) : Prop := is_letter c = true \/ is_digit c = true.
Definition let_dig_hyp (c : ascii) : Prop := let_dig c \/ c = "-"%char.

Inductive label : list ascii -> Prop :=
| label_intro first middle last :
    is_letter first = true -> middle <> [] -> Forall let_dig_hyp middle -> let_dig last ->
    label (first :: middle ++ [last]).

Inductive subdomain : list ascii -> Prop :=
| subdomain_label l : label l -> subdomain l
| subdomain_dot l rest : label l -> subdomain rest -> subdomain (l ++ "."%char :: rest).

Lemma let_dig_hyp_dec c :
  is_letter c || is_digit c || Ascii.eqb c "-" = true <-> let_dig_hyp c.
Proof.
  unfold let_dig_hyp, let_dig. rewrite !orb_true_iff, Ascii.eqb_eq. done.
Qed.

Lemma let_dig_not_dot c : let_dig_hyp c -> c <> "."%char.
Proof. intros H ->. apply let_dig_hyp_dec in H. discriminate. Qed.

Lemma label_no_dot l : label l -> Forall (fun c => c <> "."%char) l.
Proof.
  destruct 1 as [c m d Hc Hm Hall Hd]. repeat constructor.
  - apply let_dig_not_dot. left. by left.
  - apply Forall_app. split.
    + eapply Forall_impl; [exact Hall|]. intros x; apply let_dig_not_dot.
    + repeat constructor. apply let_dig_not_dot. by left.
Qed.

(** The checks made in place are the label rules for the characters between
    [begin] and [end_]. *)
Lemma label_in_place_spec pre l post :
  label_in_place (pre ++ l ++ post) (length pre) (length pre + length l) = true <-> label l.
Proof.
  set (name := pre ++ l ++ post).
  assert (Hat : forall i, (i < length l)%nat -> name !! (length pre + i)%nat = l !! i).
  { intros i Hi. unfold name. rewrite lookup_app_r by lia.
    rewrite lookup_app_l by lia. f_equal. lia. }
  unfold label_in_place. rewrite !andb_true_iff, negb_true_iff, Nat.ltb_ge.
  replace (length pre + length l - length pre)%nat with (length l) by lia.
  split.
  - intros [[[Hlen Hfirst] Hlast] Hmid].
    destruct l as [| c l]; [cbn in Hlen; lia|].
    destruct l as [| d m _] using rev_ind; [cbn in Hlen; lia|].
    rewrite length_cons, length_app in *. cbn [length] in *.
    constructor.
    + unfold char_at in Hfirst. rewrite <- (Nat.add_0_r (length pre)), Hat in Hfirst by lia. done.
    + destruct m; [cbn in Hlen; lia | done].
    + apply Forall_lookup. intros i x Hi. apply let_dig_hyp_dec.
      assert (i < length m)%nat by (by eapply lookup_lt_Some).
      rewrite forallb_forall in Hmid.
      specialize (Hmid (length pre + S i)%nat). rewrite in_seq in Hmid.
      unfold char_at in Hmid. rewrite Hat in Hmid by lia.
      change ((c :: m ++ [d]) !! S i) with ((m ++ [d]) !! i) in Hmid.
      rewrite lookup_app_l, Hi in Hmid by done. apply Hmid. lia.
    + unfold char_at in Hlast.
      replace (length pre + S (length m + 1) - 1)%nat with (length pre + S (length m))%nat in Hlast by lia.
      rewrite Hat in Hlast by lia.
      change ((c :: m ++ [d]) !! S (length m)) with ((m ++ [d]) !! length m) in Hlast.
      rewrite lookup_app_r, Nat.sub_diag in Hlast by lia. by apply orb_true_iff in Hlast.
  - destruct 1 as [c m d Hc Hm Hall Hd].
    assert (0 < length m)%nat by (destruct m; [done | cbn; lia]).
    rewrite length_cons, length_app in *. cbn [length] in *.
    split; [split; [split; [lia|]|]|].
    + unfold char_at. rewrite <- (Nat.add_0_r (length pre)), Hat by lia. done.
    + unfold char_at.
      replace (length pre + S (length m + 1) - 1)%nat with (length pre + S (length m))%nat by lia.
      rewrite Hat by lia.
      change ((c :: m ++ [d]) !! S (length m)) with ((m ++ [d]) !! length m).
      rewrite lookup_app_r, Nat.sub_diag by lia. by apply orb_true_iff.
    + apply forallb_forall. intros i Hi. rewrite in_seq in Hi. apply let_dig_hyp_dec.
      replace i with (length pre + S (i - length pre - 1))%nat by lia.
      unfold char_at. rewrite Hat by lia.
      change ((c :: m ++ [d]) !! S (i - length pre - 1))
        with ((m ++ [d]) !! (i - length pre - 1)%nat).
      rewrite lookup_app_l by lia.
      destruct (lookup_lt_is_Some_2 m (i - length pre - 1)%nat ltac:(lia)) as [x Hx].
      rewrite Hx. cbn. by eapply Forall_lookup_1.
Qed.

Lemma dot_split_unique (l1 l2 r1 r2 : list ascii) :
  Forall (fun c => c <> "."%char) l1 -> Forall (fun c => c <> "."%char) l2 ->
  l1 ++ "."%char :: r1 = l2 ++ "."%char :: r2 -> l1 = l2 /\ r1 = r2.
Proof.
  revert l2. induction l1 as [| c l1 IH]; intros [| d l2] H1 H2 Heq; cbn in Heq.
  - by injection Heq as ->.
  - injection Heq as <- _. by apply Forall_cons in H2 as [? _].
  - injection Heq as -> _. by apply Forall_cons in H1 as [? _].
  - injection Heq as -> Heq. apply Forall_cons in H1 as [_ H1]. apply Forall_cons in H2 as [_ H2].
    by destruct (IH l2 H1 H2 Heq) as [-> ->].
Qed.

Lemma subdomain_at_dot l rest :
  Forall (fun c => c <> "."%char) l ->
  subdomain (l ++ "."%char :: rest) <-> label l /\ subdomain rest.
Proof.
  intros Hl. split; [| intros []; by constructor].
  remember (l ++ "."%char :: rest) as s eqn:Es. destruct 1 as [s Hs | l' rest' Hl' Hrest'].
  - subst s. apply label_no_dot, Forall_app in Hs as [_ Hs]. by apply Forall_cons in Hs as [? _].
  - destruct (dot_split_unique l' l rest' rest) as [-> ->]; auto using label_no_dot.
Qed.

Lemma subdomain_no_dot l :
  Forall (fun c => c <> "."%char) l -> subdomain l <-> label l.
Proof.
  intros Hl. split; [| by constructor]. destruct 1 as [| l' rest' Hl' Hrest']; [done|].
  apply Forall_app in Hl as [_ Hl]. by apply Forall_cons in Hl as [? _].
Qed.

(** Where the next dot is, seen from the start of the remaining text. *)
Lemma find_dot_cases pre rest :
  (exists l rest', rest = l ++ "."%char :: rest' /\ Forall (fun c => c <> "."%char) l /\
     find_dot (pre ++ rest) (length pre) = Some (length pre + length l)%nat) \/
  (Forall (fun c => c <> "."%char) rest /\ find_dot (pre ++ rest) (length pre) = None).
Proof.
  unfold find_dot. rewrite drop_app_length.
  destruct (list_find (fun c => c = "."%char) rest) as [[i c]|] eqn:E; cbn.
  - left. apply list_find_Some in E as (Hi & -> & Hbefore).
    exists (take i rest), (drop (S i) rest).
    assert (i < length rest)%nat by (by eapply lookup_lt_Some). split_and!.
    + symmetry. by apply take_drop_middle.
    + apply Forall_lookup. intros j x Hj. apply lookup_take_Some in Hj as [Hj Hlt].
      by eapply Hbefore.
    + rewrite length_take. do 2 f_equal. lia.
  - right. split; [|done]. apply list_find_None in E. done.
Qed.

Lemma labels_from_spec fuel pre rest :
  (length rest < fuel)%nat ->
  labels_from fuel (pre ++ rest) (length pre) = true <-> subdomain rest.
Proof.
  revert pre rest. induction fuel as [| fuel IH]; intros pre rest Hfuel; [lia|].
  cbn [labels_from]. rewrite length_app.
  destruct (find_dot_cases pre rest) as [(l & rest' & -> & Hl & ->) | [Hrest ->]];
    cbn [default id].
  - rewrite length_app in Hfuel |- *. cbn [length] in *.
    rewrite subdomain_at_dot by done.
    pose proof (label_in_place_spec pre l ("."%char :: rest')) as Hin.
    destruct (label_in_place _ _ _) eqn:E; [| naive_solver].
    rewrite (proj2 (Nat.eqb_neq (length pre + length l) _)) by lia.
    assert (labels_from fuel (pre ++ l ++ "."%char :: rest') (length pre + length l + 1) =
            labels_from fuel ((pre ++ l ++ ["."%char]) ++ rest')
              (length (pre ++ l ++ ["."%char]))) as ->.
    { f_equal; [by rewrite <- !app_assoc | rewrite !length_app; cbn; lia]. }
    rewrite IH by lia. intuition.
  - rewrite subdomain_no_dot, Nat.eqb_refl by done.
    pose proof (label_in_place_spec pre rest []) as Hin. rewrite app_nil_r in Hin.
    destruct (label_in_place _ _ _); intuition.
Qed.

(** [is_valid_account_name] accepts exactly the names of 3 to 16 characters
    that the grammar derives: labels separated by dots, each of at least three
    characters, starting with a lower-case letter, ending with a letter or digit and
    made of letters, digits and hyphens. *)
Theorem is_valid_account_name_grammar name :
  is_valid_account_name name = true <->
  (3 <= String.length name <= 16)%nat /\ subdomain (String.list_ascii_of_string name).
Proof.
  assert (String.length name = length (String.list_ascii_of_string name)) as ->.
  { induction name; cbn; auto. }
  unfold is_valid_account_name, STEEMIT_MIN_ACCOUNT_NAME_LENGTH, STEEMIT_MAX_ACCOUNT_NAME_LENGTH.
  set (s := String.list_ascii_of_string name).
  destruct (Z.ltb_spec (Z.of_nat (length s)) 3); [split; [done | lia]|].
  destruct (Z.gtb_spec (Z.of_nat (length s)) 16); [split; [done | lia]|].
  rewrite (labels_from_spec (S (length s)) [] s) by lia. intuition lia.
Qed.
