(* ===== verification/Operations.v ===== *)
(** * Operations

    The operation structures of [libraries/protocol/include/golos/protocol/]
    ([steem_operations.hpp], [proposal_operations.hpp],
    [steem_virtual_operations.hpp]) and the variant type [operation] of
    [operations.hpp].  A field [f] of [x_operation] is the projection [x_f]; the
    C++ integer types are [Z], times are seconds, account names are strings,
    public keys, digests and signatures are the numbers their bytes spell. *)

From Stdlib Require Import Init.Byte.
From S2P Require Import Prelude Exceptions Text Fc Config Asset FlatMap Authority.

(** [extensions_type]: a set of [void_t] *)
Definition extensions_type := list unit.

(** ** Parts of operations *)

(** [account_referral_options] *)
Record account_referral_options := mk_account_referral_options {
  account_referral_options_referrer : string;
  account_referral_options_interest_rate : Z;
  account_referral_options_end_date : Z;
  account_referral_options_break_fee : asset
}.

(** [account_create_with_delegation_extension] *)
Inductive account_create_with_delegation_extension :=
| ext_account_referral_options (o : account_referral_options).

(** [beneficiary_route_type] *)
Record beneficiary_route_type := mk_beneficiary_route_type {
  beneficiary_account : string;
  beneficiary_weight : Z
}.

(** [comment_payout_beneficiaries] *)
Record comment_payout_beneficiaries := mk_comment_payout_beneficiaries {
  comment_payout_beneficiaries_beneficiaries : list beneficiary_route_type
}.

(** [auction_window_reward_destination_type] *)
Inductive auction_window_reward_destination_type := to_reward_fund | to_curators | to_author.
#[export] Instance auction_window_reward_destination_type_eq_dec :
  EqDecision auction_window_reward_destination_type.
Proof. solve_decision. Defined.

(** [comment_auction_window_reward_destination] *)
Record comment_auction_window_reward_destination := mk_comment_auction_window_reward_destination {
  comment_auction_window_reward_destination_destination : auction_window_reward_destination_type
}.

(** [comment_curation_rewards_percent] *)
Record comment_curation_rewards_percent := mk_comment_curation_rewards_percent {
  comment_curation_rewards_percent_percent : Z
}.

(** [comment_options_extension] *)
Inductive comment_options_extension :=
| ext_comment_payout_beneficiaries (o : comment_payout_beneficiaries)
| ext_comment_auction_window_reward_destination (o : comment_auction_window_reward_destination)
| ext_comment_curation_rewards_percent (o : comment_curation_rewards_percent).

(** [curation_curve]; [curve_other] stands for the remaining values of its byte. *)
Inductive curation_curve := bounded | linear | square_root | detect | curve_other (v : Z).
#[export] Instance curation_curve_eq_dec : EqDecision curation_curve.
Proof. solve_decision. Defined.

(** [delegator_payout_strategy] *)
Inductive delegator_payout_strategy := to_delegator | to_delegated_vesting | payout_strategy_size.
#[export] Instance delegator_payout_strategy_eq_dec : EqDecision delegator_payout_strategy.
Proof. solve_decision. Defined.

(** ** Chain properties

    Each version extends the previous one; the base structure is the first
    field. *)

Definition GOLOS_MIN_REFERRAL_BREAK_FEE : asset := mk_asset 1 STEEM_SYMBOL.
Definition GOLOS_MAX_REFERRAL_BREAK_FEE : asset := mk_asset 100000 STEEM_SYMBOL.

(** [chain_properties_17] *)
Record chain_properties_17 := mk_chain_properties_17 {
  account_creation_fee : asset;
  maximum_block_size : Z;
  sbd_interest_rate : Z
}.

(** [chain_properties_18] *)
Record chain_properties_18 := mk_chain_properties_18 {
  base_17 : chain_properties_17;
  create_account_min_golos_fee : asset;
  create_account_min_delegation : asset;
  create_account_delegation_time : Z;
  min_delegation : asset
}.

(** [chain_properties_19] *)
Record chain_properties_19 := mk_chain_properties_19 {
  base_18 : chain_properties_18;
  max_referral_interest_rate : Z;
  max_referral_term_sec : Z;
  min_referral_break_fee : asset;
  max_referral_break_fee : asset;
  posts_window : Z;
  posts_per_window : Z;
  comments_window : Z;
  comments_per_window : Z;
  votes_window : Z;
  votes_per_window : Z;
  auction_window_size : Z;
  max_delegated_vesting_interest_rate : Z;
  custom_ops_bandwidth_multiplier : Z;
  min_curation_percent : Z;
  max_curation_percent : Z;
  curation_reward_curve : curation_curve;
  allow_return_auction_reward_to_fund : bool;
  allow_distribute_auction_reward : bool
}.

#[export] Instance chain_properties_18_rebuild : Rebuild chain_properties_18 := fun p =>
  mk_chain_properties_18 (base_17 p) (create_account_min_golos_fee p) (create_account_min_delegation p)
    (create_account_delegation_time p) (min_delegation p).
#[export] Instance chain_properties_19_rebuild : Rebuild chain_properties_19 := fun p =>
  mk_chain_properties_19 (base_18 p) (max_referral_interest_rate p) (max_referral_term_sec p) (min_referral_break_fee p)
    (max_referral_break_fee p) (posts_window p) (posts_per_window p) (comments_window p) (comments_per_window p)
    (votes_window p) (votes_per_window p) (auction_window_size p) (max_delegated_vesting_interest_rate p)
    (custom_ops_bandwidth_multiplier p) (min_curation_percent p) (max_curation_percent p) (curation_reward_curve p)
    (allow_return_auction_reward_to_fund p) (allow_distribute_auction_reward p).

(** The values of the member initialisers. *)
Definition chain_properties_17_default : chain_properties_17 :=
  mk_chain_properties_17 (mk_asset STEEMIT_MIN_ACCOUNT_CREATION_FEE STEEM_SYMBOL)
    (STEEMIT_MIN_BLOCK_SIZE_LIMIT * 2) STEEMIT_DEFAULT_SBD_INTEREST_RATE.

Definition chain_properties_18_default : chain_properties_18 :=
  mk_chain_properties_18 chain_properties_17_default
    (mk_asset (STEEMIT_MIN_ACCOUNT_CREATION_FEE * GOLOS_CREATE_ACCOUNT_WITH_GOLOS_MODIFIER) STEEM_SYMBOL)
    (mk_asset (STEEMIT_MIN_ACCOUNT_CREATION_FEE * GOLOS_CREATE_ACCOUNT_WITH_GOLOS_MODIFIER *
               GOLOS_CREATE_ACCOUNT_DELEGATION_RATIO) STEEM_SYMBOL)
    GOLOS_CREATE_ACCOUNT_DELEGATION_TIME
    (mk_asset (STEEMIT_MIN_ACCOUNT_CREATION_FEE * GOLOS_MIN_DELEGATION_MULTIPLIER) STEEM_SYMBOL).

Definition chain_properties_19_default : chain_properties_19 :=
  mk_chain_properties_19 chain_properties_18_default
    GOLOS_DEFAULT_REFERRAL_INTEREST_RATE GOLOS_DEFAULT_REFERRAL_TERM_SEC
    GOLOS_MIN_REFERRAL_BREAK_FEE GOLOS_MAX_REFERRAL_BREAK_FEE
    STEEMIT_POSTS_WINDOW STEEMIT_POSTS_PER_WINDOW
    STEEMIT_COMMENTS_WINDOW STEEMIT_COMMENTS_PER_WINDOW
    STEEMIT_VOTES_WINDOW STEEMIT_VOTES_PER_WINDOW
    STEEMIT_REVERSE_AUCTION_WINDOW_SECONDS STEEMIT_DEFAULT_DELEGATED_VESTING_INTEREST_RATE
    STEEMIT_CUSTOM_OPS_BANDWIDTH_MULTIPLIER
    STEEMIT_DEF_CURATION_PERCENT STEEMIT_DEF_CURATION_PERCENT linear true true.

(** [versioned_chain_properties] *)
Inductive versioned_chain_properties :=
| props_17 (p : chain_properties_17)
| props_18 (p : chain_properties_18)
| props_19 (p : chain_properties_19).

(** ** Proofs of work and block headers *)

(** [struct pow] *)
Record pow_type := mk_pow_type {
  pow_work_worker : Z;
  pow_work_input : Z;
  pow_work_signature : Z;
  pow_work_work : Z
}.

(** [pow2_input] *)
Record pow2_input := mk_pow2_input {
  pow2_input_worker_account : string;
  pow2_input_prev_block : Z;
  pow2_input_nonce : Z
}.

(** [struct pow2] *)
Record pow2 := mk_pow2_work {
  pow2_work_input : pow2_input;
  pow2_work_pow_summary : Z
}.

(** [fc::equihash::proof] *)
Record equihash_proof := mk_equihash_proof {
  proof_n : Z;
  proof_k : Z;
  proof_seed : Z;
  proof_inputs : list Z
}.

(** [equihash_pow] *)
Record equihash_pow := mk_equihash_pow {
  equihash_pow_input : pow2_input;
  equihash_pow_proof : equihash_proof;
  equihash_pow_prev_block : Z;
  equihash_pow_pow_summary : Z
}.

(** [pow2_work] *)
Inductive pow2_work :=
| work_pow2 (w : pow2)
| work_equihash_pow (w : equihash_pow).

(** [block_header_extensions]: a version that runs, or a vote for a hardfork *)
Inductive block_header_extension :=
| extension_void
| extension_version (v : Z)
| extension_hardfork_version_vote (hf_version hf_time : Z).

(** [signed_block_header] with its base [block_header]; the extensions are in the
    order of the flat set. *)
Record signed_block_header := mk_signed_block_header {
  header_previous : Z;
  header_timestamp : Z;
  header_witness : string;
  header_transaction_merkle_root : Z;
  header_extensions : list block_header_extension;
  header_witness_signature : Z
}.

(** ** The operations *)

Record vote_operation := mk_vote {
  vote_voter : string;
  vote_author : string;
  vote_permlink : string;
  vote_weight : Z
}.

Record comment_operation := mk_comment {
  comment_parent_author : string;
  comment_parent_permlink : string;
  comment_author : string;
  comment_permlink : string;
  comment_title : string;
  comment_body : string;
  comment_json_metadata : string
}.

Record transfer_operation := mk_transfer {
  transfer_from : string;
  transfer_to : string;
  transfer_amount : asset;
  transfer_memo : string
}.

Record transfer_to_vesting_operation := mk_transfer_to_vesting {
  transfer_to_vesting_from : string;
  transfer_to_vesting_to : string;
  transfer_to_vesting_amount : asset
}.

Record withdraw_vesting_operation := mk_withdraw_vesting {
  withdraw_vesting_account : string;
  withdraw_vesting_vesting_shares : asset
}.

Record limit_order_create_operation := mk_limit_order_create {
  limit_order_create_owner : string;
  limit_order_create_orderid : Z;
  limit_order_create_amount_to_sell : asset;
  limit_order_create_min_to_receive : asset;
  limit_order_create_fill_or_kill : bool;
  limit_order_create_expiration : Z
}.

Record limit_order_cancel_operation := mk_limit_order_cancel {
  limit_order_cancel_owner : string;
  limit_order_cancel_orderid : Z
}.

Record feed_publish_operation := mk_feed_publish {
  feed_publish_publisher : string;
  feed_publish_exchange_rate : price
}.

Record convert_operation := mk_convert {
  convert_owner : string;
  convert_requestid : Z;
  convert_amount : asset
}.

Record account_create_operation := mk_account_create {
  account_create_fee : asset;
  account_create_creator : string;
  account_create_new_account_name : string;
  account_create_owner : authority;
  account_create_active : authority;
  account_create_posting : authority;
  account_create_memo_key : Z;
  account_create_json_metadata : string
}.

Record account_update_operation := mk_account_update {
  account_update_account : string;
  account_update_owner : option authority;
  account_update_active : option authority;
  account_update_posting : option authority;
  account_update_memo_key : Z;
  account_update_json_metadata : string
}.

Record witness_update_operation := mk_witness_update {
  witness_update_owner : string;
  witness_update_url : string;
  witness_update_block_signing_key : Z;
  witness_update_props : chain_properties_17;
  witness_update_fee : asset
}.

Record account_witness_vote_operation := mk_account_witness_vote {
  account_witness_vote_account : string;
  account_witness_vote_witness : string;
  account_witness_vote_approve : bool
}.

Record account_witness_proxy_operation := mk_account_witness_proxy {
  account_witness_proxy_account : string;
  account_witness_proxy_proxy : string
}.

Record pow_operation := mk_pow {
  pow_worker_account : string;
  pow_block_id : Z;
  pow_nonce : Z;
  pow_work : pow_type;
  pow_props : chain_properties_17
}.

Record custom_operation := mk_custom {
  custom_required_auths : flat_set string;
  custom_id : Z;
  custom_data : list Byte.byte
}.

Record report_over_production_operation := mk_report_over_production {
  report_over_production_reporter : string;
  report_over_production_first_block : signed_block_header;
  report_over_production_second_block : signed_block_header
}.

Record delete_comment_operation := mk_delete_comment {
  delete_comment_author : string;
  delete_comment_permlink : string
}.

Record custom_json_operation := mk_custom_json {
  custom_json_required_auths : flat_set string;
  custom_json_required_posting_auths : flat_set string;
  custom_json_id : string;
  custom_json_json : string
}.

Record comment_options_operation := mk_comment_options {
  comment_options_author : string;
  comment_options_permlink : string;
  comment_options_max_accepted_payout : asset;
  comment_options_percent_steem_dollars : Z;
  comment_options_allow_votes : bool;
  comment_options_allow_curation_rewards : bool;
  comment_options_extensions : list comment_options_extension
}.

Record set_withdraw_vesting_route_operation := mk_set_withdraw_vesting_route {
  set_withdraw_vesting_route_from_account : string;
  set_withdraw_vesting_route_to_account : string;
  set_withdraw_vesting_route_percent : Z;
  set_withdraw_vesting_route_auto_vest : bool
}.

Record limit_order_create2_operation := mk_limit_order_create2 {
  limit_order_create2_owner : string;
  limit_order_create2_orderid : Z;
  limit_order_create2_amount_to_sell : asset;
  limit_order_create2_fill_or_kill : bool;
  limit_order_create2_exchange_rate : price;
  limit_order_create2_expiration : Z
}.

Record challenge_authority_operation := mk_challenge_authority {
  challenge_authority_challenger : string;
  challenge_authority_challenged : string;
  challenge_authority_require_owner : bool
}.

Record prove_authority_operation := mk_prove_authority {
  prove_authority_challenged : string;
  prove_authority_require_owner : bool
}.

Record request_account_recovery_operation := mk_request_account_recovery {
  request_account_recovery_recovery_account : string;
  request_account_recovery_account_to_recover : string;
  request_account_recovery_new_owner_authority : authority;
  request_account_recovery_extensions : extensions_type
}.

Record recover_account_operation := mk_recover_account {
  recover_account_account_to_recover : string;
  recover_account_new_owner_authority : authority;
  recover_account_recent_owner_authority : authority;
  recover_account_extensions : extensions_type
}.

Record change_recovery_account_operation := mk_change_recovery_account {
  change_recovery_account_account_to_recover : string;
  change_recovery_account_new_recovery_account : string;
  change_recovery_account_extensions : extensions_type
}.

Record escrow_transfer_operation := mk_escrow_transfer {
  escrow_transfer_from : string;
  escrow_transfer_to : string;
  escrow_transfer_agent : string;
  escrow_transfer_escrow_id : Z;
  escrow_transfer_sbd_amount : asset;
  escrow_transfer_steem_amount : asset;
  escrow_transfer_fee : asset;
  escrow_transfer_ratification_deadline : Z;
  escrow_transfer_escrow_expiration : Z;
  escrow_transfer_json_meta : string
}.

Record escrow_dispute_operation := mk_escrow_dispute {
  escrow_dispute_from : string;
  escrow_dispute_to : string;
  escrow_dispute_agent : string;
  escrow_dispute_who : string;
  escrow_dispute_escrow_id : Z
}.

Record escrow_release_operation := mk_escrow_release {
  escrow_release_from : string;
  escrow_release_to : string;
  escrow_release_agent : string;
  escrow_release_who : string;
  escrow_release_receiver : string;
  escrow_release_escrow_id : Z;
  escrow_release_sbd_amount : asset;
  escrow_release_steem_amount : asset
}.

Record pow2_operation := mk_pow2 {
  pow2_op_work : pow2_work;
  pow2_op_new_owner_key : option Z;
  pow2_op_props : chain_properties_17
}.

Record escrow_approve_operation := mk_escrow_approve {
  escrow_approve_from : string;
  escrow_approve_to : string;
  escrow_approve_agent : string;
  escrow_approve_who : string;
  escrow_approve_escrow_id : Z;
  escrow_approve_approve : bool
}.

Record transfer_to_savings_operation := mk_transfer_to_savings {
  transfer_to_savings_from : string;
  transfer_to_savings_to : string;
  transfer_to_savings_amount : asset;
  transfer_to_savings_memo : string
}.

Record transfer_from_savings_operation := mk_transfer_from_savings {
  transfer_from_savings_from : string;
  transfer_from_savings_request_id : Z;
  transfer_from_savings_to : string;
  transfer_from_savings_amount : asset;
  transfer_from_savings_memo : string
}.

Record cancel_transfer_from_savings_operation := mk_cancel_transfer_from_savings {
  cancel_transfer_from_savings_from : string;
  cancel_transfer_from_savings_request_id : Z
}.

Record custom_binary_operation := mk_custom_binary {
  custom_binary_required_owner_auths : flat_set string;
  custom_binary_required_active_auths : flat_set string;
  custom_binary_required_posting_auths : flat_set string;
  custom_binary_required_auths : list authority;
  custom_binary_id : string;
  custom_binary_data : list Byte.byte
}.

Record decline_voting_rights_operation := mk_decline_voting_rights {
  decline_voting_rights_account : string;
  decline_voting_rights_decline : bool
}.

Record reset_account_operation := mk_reset_account {
  reset_account_reset_account : string;
  reset_account_account_to_reset : string;
  reset_account_new_owner_authority : authority
}.

Record set_reset_account_operation := mk_set_reset_account {
  set_reset_account_account : string;
  set_reset_account_current_reset_account : string;
  set_reset_account_reset_account : string
}.

Record delegate_vesting_shares_operation := mk_delegate_vesting_shares {
  delegate_vesting_shares_delegator : string;
  delegate_vesting_shares_delegatee : string;
  delegate_vesting_shares_vesting_shares : asset
}.

Record account_create_with_delegation_operation := mk_account_create_with_delegation {
  account_create_with_delegation_fee : asset;
  account_create_with_delegation_delegation : asset;
  account_create_with_delegation_creator : string;
  account_create_with_delegation_new_account_name : string;
  account_create_with_delegation_owner : authority;
  account_create_with_delegation_active : authority;
  account_create_with_delegation_posting : authority;
  account_create_with_delegation_memo_key : Z;
  account_create_with_delegation_json_metadata : string;
  account_create_with_delegation_extensions : list account_create_with_delegation_extension
}.

Record account_metadata_operation := mk_account_metadata {
  account_metadata_account : string;
  account_metadata_json_metadata : string
}.

(** The proposed operations are wrapped operations; the structure is
    parametric in the type that [operation] ties. *)
Record proposal_create_operation_of (operation_t : Type) := mk_proposal_create {
  proposal_create_author : string;
  proposal_create_title : string;
  proposal_create_memo : string;
  proposal_create_proposed_operations : list operation_t;
  proposal_create_expiration_time : Z;
  proposal_create_review_period_time : option Z;
  proposal_create_extensions : extensions_type
}.
Arguments proposal_create_author {operation_t}.
Arguments proposal_create_title {operation_t}.
Arguments proposal_create_memo {operation_t}.
Arguments proposal_create_proposed_operations {operation_t}.
Arguments proposal_create_expiration_time {operation_t}.
Arguments proposal_create_review_period_time {operation_t}.
Arguments proposal_create_extensions {operation_t}.
Arguments mk_proposal_create {operation_t}.

Record proposal_update_operation := mk_proposal_update {
  proposal_update_author : string;
  proposal_update_title : string;
  proposal_update_active_approvals_to_add : flat_set string;
  proposal_update_active_approvals_to_remove : flat_set string;
  proposal_update_owner_approvals_to_add : flat_set string;
  proposal_update_owner_approvals_to_remove : flat_set string;
  proposal_update_posting_approvals_to_add : flat_set string;
  proposal_update_posting_approvals_to_remove : flat_set string;
  proposal_update_key_approvals_to_add : flat_set Z;
  proposal_update_key_approvals_to_remove : flat_set Z;
  proposal_update_extensions : extensions_type
}.

Record proposal_delete_operation := mk_proposal_delete {
  proposal_delete_author : string;
  proposal_delete_title : string;
  proposal_delete_requester : string;
  proposal_delete_extensions : extensions_type
}.

Record chain_properties_update_operation := mk_chain_properties_update {
  chain_properties_update_owner : string;
  chain_properties_update_props : versioned_chain_properties
}.

Record break_free_referral_operation := mk_break_free_referral {
  break_free_referral_referral : string;
  break_free_referral_extensions : extensions_type
}.

Record delegate_vesting_shares_with_interest_operation := mk_delegate_vesting_shares_with_interest {
  delegate_vesting_shares_with_interest_delegator : string;
  delegate_vesting_shares_with_interest_delegatee : string;
  delegate_vesting_shares_with_interest_vesting_shares : asset;
  delegate_vesting_shares_with_interest_interest_rate : Z;
  delegate_vesting_shares_with_interest_payout_strategy : delegator_payout_strategy;
  delegate_vesting_shares_with_interest_extensions : extensions_type
}.

Record reject_vesting_shares_delegation_operation := mk_reject_vesting_shares_delegation {
  reject_vesting_shares_delegation_delegator : string;
  reject_vesting_shares_delegation_delegatee : string;
  reject_vesting_shares_delegation_extensions : extensions_type
}.

Record transit_to_cyberway_operation := mk_transit_to_cyberway {
  transit_to_cyberway_owner : string;
  transit_to_cyberway_vote_to_transit : bool
}.

(** *** Virtual operations *)

Record fill_convert_request_operation := mk_fill_convert_request {
  fill_convert_request_owner : string;
  fill_convert_request_requestid : Z;
  fill_convert_request_amount_in : asset;
  fill_convert_request_amount_out : asset
}.

Record author_reward_operation := mk_author_reward {
  author_reward_author : string;
  author_reward_permlink : string;
  author_reward_sbd_payout : asset;
  author_reward_steem_payout : asset;
  author_reward_vesting_payout : asset;
  author_reward_sbd_and_steem_in_golos : asset;
  author_reward_vesting_payout_in_golos : asset
}.

Record curation_reward_operation := mk_curation_reward {
  curation_reward_curator : string;
  curation_reward_reward : asset;
  curation_reward_comment_author : string;
  curation_reward_comment_permlink : string;
  curation_reward_reward_in_golos : asset
}.

Record comment_reward_operation := mk_comment_reward {
  comment_reward_author : string;
  comment_reward_permlink : string;
  comment_reward_payout : asset
}.

Record liquidity_reward_operation := mk_liquidity_reward {
  liquidity_reward_owner : string;
  liquidity_reward_payout : asset
}.

Record interest_operation := mk_interest {
  interest_owner : string;
  interest_interest : asset
}.

Record fill_vesting_withdraw_operation := mk_fill_vesting_withdraw {
  fill_vesting_withdraw_from_account : string;
  fill_vesting_withdraw_to_account : string;
  fill_vesting_withdraw_withdrawn : asset;
  fill_vesting_withdraw_deposited : asset
}.

Record fill_order_operation := mk_fill_order {
  fill_order_current_owner : string;
  fill_order_current_orderid : Z;
  fill_order_current_pays : asset;
  fill_order_open_owner : string;
  fill_order_open_orderid : Z;
  fill_order_open_pays : asset
}.

Record shutdown_witness_operation := mk_shutdown_witness {
  shutdown_witness_owner : string
}.

Record fill_transfer_from_savings_operation := mk_fill_transfer_from_savings {
  fill_transfer_from_savings_from : string;
  fill_transfer_from_savings_to : string;
  fill_transfer_from_savings_amount : asset;
  fill_transfer_from_savings_request_id : Z;
  fill_transfer_from_savings_memo : string
}.

Record hardfork_operation := mk_hardfork {
  hardfork_hardfork_id : Z
}.

Record comment_payout_update_operation := mk_comment_payout_update {
  comment_payout_update_author : string;
  comment_payout_update_permlink : string
}.

Record comment_benefactor_reward_operation := mk_comment_benefactor_reward {
  comment_benefactor_reward_benefactor : string;
  comment_benefactor_reward_author : string;
  comment_benefactor_reward_permlink : string;
  comment_benefactor_reward_reward : asset;
  comment_benefactor_reward_reward_in_golos : asset
}.

Record return_vesting_delegation_operation := mk_return_vesting_delegation {
  return_vesting_delegation_account : string;
  return_vesting_delegation_vesting_shares : asset
}.

Record producer_reward_operation := mk_producer_reward {
  producer_reward_producer : string;
  producer_reward_vesting_shares : asset
}.

Record delegation_reward_operation := mk_delegation_reward {
  delegation_reward_delegator : string;
  delegation_reward_delegatee : string;
  delegation_reward_payout_strategy : delegator_payout_strategy;
  delegation_reward_vesting_shares : asset;
  delegation_reward_vesting_shares_in_golos : asset
}.

Record auction_window_reward_operation := mk_auction_window_reward {
  auction_window_reward_reward : asset;
  auction_window_reward_comment_author : string;
  auction_window_reward_comment_permlink : string
}.

Record total_comment_reward_operation := mk_total_comment_reward {
  total_comment_reward_author : string;
  total_comment_reward_permlink : string;
  total_comment_reward_author_reward : asset;
  total_comment_reward_benefactor_reward : asset;
  total_comment_reward_curator_reward : asset;
  total_comment_reward_net_rshares : Z
}.

(** [operation]: the alternatives in their serialisation order *)
Inductive operation :=
| op_vote (o : vote_operation)
| op_comment (o : comment_operation)
| op_transfer (o : transfer_operation)
| op_transfer_to_vesting (o : transfer_to_vesting_operation)
| op_withdraw_vesting (o : withdraw_vesting_operation)
| op_limit_order_create (o : limit_order_create_operation)
| op_limit_order_cancel (o : limit_order_cancel_operation)
| op_feed_publish (o : feed_publish_operation)
| op_convert (o : convert_operation)
| op_account_create (o : account_create_operation)
| op_account_update (o : account_update_operation)
| op_witness_update (o : witness_update_operation)
| op_account_witness_vote (o : account_witness_vote_operation)
| op_account_witness_proxy (o : account_witness_proxy_operation)
| op_pow (o : pow_operation)
| op_custom (o : custom_operation)
| op_report_over_production (o : report_over_production_operation)
| op_delete_comment (o : delete_comment_operation)
| op_custom_json (o : custom_json_operation)
| op_comment_options (o : comment_options_operation)
| op_set_withdraw_vesting_route (o : set_withdraw_vesting_route_operation)
| op_limit_order_create2 (o : limit_order_create2_operation)
| op_challenge_authority (o : challenge_authority_operation)
| op_prove_authority (o : prove_authority_operation)
| op_request_account_recovery (o : request_account_recovery_operation)
| op_recover_account (o : recover_account_operation)
| op_change_recovery_account (o : change_recovery_account_operation)
| op_escrow_transfer (o : escrow_transfer_operation)
| op_escrow_dispute (o : escrow_dispute_operation)
| op_escrow_release (o : escrow_release_operation)
| op_pow2 (o : pow2_operation)
| op_escrow_approve (o : escrow_approve_operation)
| op_transfer_to_savings (o : transfer_to_savings_operation)
| op_transfer_from_savings (o : transfer_from_savings_operation)
| op_cancel_transfer_from_savings (o : cancel_transfer_from_savings_operation)
| op_custom_binary (o : custom_binary_operation)
| op_decline_voting_rights (o : decline_voting_rights_operation)
| op_reset_account (o : reset_account_operation)
| op_set_reset_account (o : set_reset_account_operation)
| op_delegate_vesting_shares (o : delegate_vesting_shares_operation)
| op_account_create_with_delegation (o : account_create_with_delegation_operation)
| op_account_metadata (o : account_metadata_operation)
| op_proposal_create (o : proposal_create_operation_of operation)
| op_proposal_update (o : proposal_update_operation)
| op_proposal_delete (o : proposal_delete_operation)
| op_chain_properties_update (o : chain_properties_update_operation)
| op_break_free_referral (o : break_free_referral_operation)
| op_delegate_vesting_shares_with_interest (o : delegate_vesting_shares_with_interest_operation)
| op_reject_vesting_shares_delegation (o : reject_vesting_shares_delegation_operation)
| op_transit_to_cyberway (o : transit_to_cyberway_operation)
| op_fill_convert_request (o : fill_convert_request_operation)
| op_author_reward (o : author_reward_operation)
| op_curation_reward (o : curation_reward_operation)
| op_comment_reward (o : comment_reward_operation)
| op_liquidity_reward (o : liquidity_reward_operation)
| op_interest (o : interest_operation)
| op_fill_vesting_withdraw (o : fill_vesting_withdraw_operation)
| op_fill_order (o : fill_order_operation)
| op_shutdown_witness (o : shutdown_witness_operation)
| op_fill_transfer_from_savings (o : fill_transfer_from_savings_operation)
| op_hardfork (o : hardfork_operation)
| op_comment_payout_update (o : comment_payout_update_operation)
| op_comment_benefactor_reward (o : comment_benefactor_reward_operation)
| op_return_vesting_delegation (o : return_vesting_delegation_operation)
| op_producer_reward (o : producer_reward_operation)
| op_delegation_reward (o : delegation_reward_operation)
| op_auction_window_reward (o : auction_window_reward_operation)
| op_total_comment_reward (o : total_comment_reward_operation).

Definition proposal_create_operation := proposal_create_operation_of operation.

(** [is_virtual_operation] *)
Definition is_virtual_operation (op : operation) : bool :=
  match op with
  | op_fill_convert_request _
  | op_author_reward _
  | op_curation_reward _
  | op_comment_reward _
  | op_liquidity_reward _
  | op_interest _
  | op_fill_vesting_withdraw _
  | op_fill_order _
  | op_shutdown_witness _
  | op_fill_transfer_from_savings _
  | op_hardfork _
  | op_comment_payout_update _
  | op_comment_benefactor_reward _
  | op_return_vesting_delegation _
  | op_producer_reward _
  | op_delegation_reward _
  | op_auction_window_reward _
  | op_total_comment_reward _ => true
  | _ => false
  end.

(** [is_market_operation] *)
Definition is_market_operation (op : operation) : bool :=
  match op with
  | op_limit_order_create _ | op_limit_order_cancel _
  | op_transfer _ | op_transfer_to_vesting _ => true
  | _ => false
  end.

(** [is_custom_json_operation] *)
Definition is_custom_json_operation (op : operation) : bool :=
  match op with op_custom_json _ => true | _ => false end.
