(* ===== verification/Crypto.v ===== *)
(** * Hashes and signatures, as an interface

    The cryptographic functions of [fc] and the binary serialisation they are
    applied to are outside the sources; class [crypto_ops] names the ones the
    modelled code calls.  A digest, a signature and a public key are numbers. *)

From S2P Require Import Prelude Exceptions Operations.

Class crypto_ops := {
  (* fc::sha256::hash of the serialisation of a value *)
  sha256_of_block_id : Z -> Z;
  sha256_of_sha256 : Z -> Z;
  sha256_of_signature : Z -> Z;
  sha256_of_public_key : Z -> Z;
  sha256_of_pow2_input : pow2_input -> Z;
  sha256_of_sha256_and_key : Z -> Z -> Z;
  sha256_of_inputs : list Z -> Z;
  sha256_of_pair : Z -> Z -> Z;
  sha256_of_block_header : Z -> Z -> string -> Z -> list block_header_extension -> Z;
  sha224_of_signed_block_header : signed_block_header -> Z;
  ripemd160_of_sha256 : Z -> Z;
  approx_log_32 : Z -> Z;
  (* fc::ecc: recovery of the signing key (signature, digest, check canonical) and
     signing (private key, digest) *)
  recover_public_key : Z -> Z -> bool -> result Z;
  sign_compact : Z -> Z -> result Z;
  (* fc::equihash::proof::is_valid *)
  equihash_is_valid : equihash_proof -> bool
}.

(** A toy implementation, to run the definitions on concrete values. *)
#[export] Instance crypto_ref : crypto_ops := {|
  sha256_of_block_id x := x + 1;
  sha256_of_sha256 x := x + 2;
  sha256_of_signature x := x + 3;
  sha256_of_public_key x := x + 4;
  sha256_of_pow2_input i := pow2_input_prev_block i + pow2_input_nonce i;
  sha256_of_sha256_and_key x k := 3 * x + k;
  sha256_of_inputs l := foldr Z.add 0 l;
  sha256_of_pair x y := 2 * x + y + 1;
  sha256_of_block_header p t w m e := p + t + m;
  sha224_of_signed_block_header h := header_previous h + header_timestamp h +
    header_transaction_merkle_root h;
  ripemd160_of_sha256 x := x + 5;
  approx_log_32 x := x mod 2 ^ 32;
  recover_public_key s d _ := Ok (s - d);
  sign_compact k d := Ok (k + d);
  equihash_is_valid _ := true
|}.

Section Headers.
Context `{C : crypto_ops}.

(** [fc::endian_reverse_u32] *)
Definition endian_reverse_u32 (x : Z) : Z :=
  Z.lor (Z.shiftl (Z.land x 255) 24)
    (Z.lor (Z.shiftl (Z.land (Z.shiftr x 8) 255) 16)
       (Z.lor (Z.shiftl (Z.land (Z.shiftr x 16) 255) 8) (Z.land (Z.shiftr x 24) 255))).

(** [block_header::num_from_id]: word 0 of the id, byte-reversed.  The bytes of an
    id are read as one little-endian number, so word 0 is its low 32 bits. *)
Definition num_from_id (id : Z) : Z := endian_reverse_u32 (Z.land id (2 ^ 32 - 1)).

(** [block_header::block_num] *)
Definition block_num (h : signed_block_header) : Z :=
  to_uint32_wrap (num_from_id (header_previous h) + 1).

(** [block_header::digest] *)
Definition header_digest (h : signed_block_header) : Z :=
  sha256_of_block_header (header_previous h) (header_timestamp h) (header_witness h)
    (header_transaction_merkle_root h) (header_extensions h).

(** [signed_block_header::id]: the block number in word 0, then the hash, 160 bits *)
Definition block_id (h : signed_block_header) : Z :=
  let tmp := sha224_of_signed_block_header h in
  Z.land (Z.lor (Z.ldiff tmp (2 ^ 32 - 1)) (endian_reverse_u32 (block_num h))) (2 ^ 160 - 1).

(** [signed_block_header::signee] *)
Definition signee (h : signed_block_header) : result Z :=
  recover_public_key (header_witness_signature h) (header_digest h) true.

(** [signed_block_header::sign] *)
Definition sign_header (signer : Z) (h : signed_block_header) : result signed_block_header :=
  s ← sign_compact signer (header_digest h);
  Ok (mk_signed_block_header (header_previous h) (header_timestamp h) (header_witness h)
        (header_transaction_merkle_root h) (header_extensions h) s).

(** [signed_block_header::validate_signee] *)
Definition validate_signee (h : signed_block_header) (expected_signee : Z) : result bool :=
  k ← signee h; Ok (k =? expected_signee).

End Headers.
