(* ===== verification/Validate.v ===== *)
(** * Stateless validation of operations

    The [validate] methods of [libraries/protocol/steem_operations.cpp] and
    [libraries/protocol/proposal_operations.cpp], in the order of the sources.
    [GOLOS_CHECK_PARAM(p, ...)] is [check_param "p" (...)]; the macros of
    [validate_helper.hpp] are the definitions at the top. *)

From S2P Require Import Prelude Exceptions Text Fc Config Asset FlatMap Authority Operations Crypto.

Section Validate.
Context `{F : fc_ops} `{C : crypto_ops}.

(** ** Helpers *)

(** [validate_permlink] *)
Definition validate_permlink (permlink : string) : result unit :=
  check_value (size_of permlink <? STEEMIT_MAX_PERMLINK_LENGTH) ;;
  check_value (is_utf8 permlink).

(** [validate_account_name] *)
Definition validate_account_name (name : string) : result unit :=
  check_value (is_valid_account_name name).

(** [validate_account_json_metadata] *)
Definition validate_account_json_metadata (json_metadata : string) : result unit :=
  if size_of json_metadata >? 0 then
    check_value (is_utf8 json_metadata) ;;
    check_value (json_is_valid json_metadata)
  else Ok tt.

(** [is_asset_type] *)
Definition is_asset_type (a : asset) (sym : Z) : bool := symbol a =? sym.

(** GOLOS_CHECK_PARAM_ACCOUNT *)
Definition check_param_account (param name : string) : result unit :=
  check_param param (validate_account_name name).

(** GOLOS_CHECK_PARAM_VALIDATE for an authority *)
Definition check_param_authority (param : string) (a : authority) : result unit :=
  check_param param (authority_validate a).

(** GOLOS_CHECK_VALUE_NOT_EMPTY, GOLOS_CHECK_VALUE_MAX_SIZE *)
Definition check_value_not_empty (s : string) : result unit := check_value (negb (size_of s =? 0)).
Definition check_value_max_size (s : string) (m : Z) : result unit := check_value (size_of s <=? m).

(** GOLOS_CHECK_VALUE_LEGE *)
Definition check_value_lege (x l h : Z) : result unit := check_value ((l <=? x) && (x <=? h)).

(** GOLOS_CHECK_ASSET_GE, GOLOS_CHECK_ASSET_GE0, GOLOS_CHECK_ASSET_GT0 with a single
    symbol: the type, then the amount *)
Definition check_asset_ge (a : asset) (sym v : Z) : result unit :=
  check_value (symbol a =? sym) ;; check_value (amount a >=? v).
Definition check_asset_ge0 (a : asset) (sym : Z) : result unit := check_asset_ge a sym 0.
Definition check_asset_gt0 (a : asset) (sym : Z) : result unit :=
  check_value (symbol a =? sym) ;; check_value (amount a >? 0).

(** ... and with GOLOS_OR_GBG *)
Definition is_golos_or_gbg (a : asset) : bool :=
  (symbol a =? STEEM_SYMBOL) || (symbol a =? SBD_SYMBOL).
Definition check_asset_ge0_golos_or_gbg (a : asset) : result unit :=
  check_value (is_golos_or_gbg a) ;; check_value (amount a >=? 0).
Definition check_asset_gt0_golos_or_gbg (a : asset) : result unit :=
  check_value (is_golos_or_gbg a) ;; check_value (amount a >? 0).

(** ** Accounts *)

Definition account_create_operation_validate (op : account_create_operation) : result unit :=
  check_param "new_account_name" (validate_account_name (account_create_new_account_name op)) ;;
  check_param "owner" (authority_validate (account_create_owner op)) ;;
  check_param "active" (authority_validate (account_create_active op)) ;;
  check_param "fee"
    (check_value (is_asset_type (account_create_fee op) STEEM_SYMBOL) ;;
     c ← asset_geb (account_create_fee op) (mk_asset 0 STEEM_SYMBOL);
     check_value c) ;;
  check_param "json_metadata" (validate_account_json_metadata (account_create_json_metadata op)).

Definition account_referral_options_validate (o : account_referral_options) : result unit :=
  validate_account_name (account_referral_options_referrer o) ;;
  check_param "break_fee"
    (check_value (symbol (account_referral_options_break_fee o) =? STEEM_SYMBOL) ;;
     check_value (amount (account_referral_options_break_fee o) >=? 0)).

Definition account_create_with_delegation_operation_validate
    (op : account_create_with_delegation_operation) : result unit :=
  check_param_account "new_account_name" (account_create_with_delegation_new_account_name op) ;;
  check_param_account "creator" (account_create_with_delegation_creator op) ;;
  check_param "fee" (check_asset_ge0 (account_create_with_delegation_fee op) STEEM_SYMBOL) ;;
  check_param "delegation"
    (check_asset_ge0 (account_create_with_delegation_delegation op) VESTS_SYMBOL) ;;
  check_param_authority "owner" (account_create_with_delegation_owner op) ;;
  check_param_authority "active" (account_create_with_delegation_active op) ;;
  check_param_authority "posting" (account_create_with_delegation_posting op) ;;
  check_param "json_metadata"
    (validate_account_json_metadata (account_create_with_delegation_json_metadata op)) ;;
  result_for_each
    (fun e => match e with ext_account_referral_options aro => account_referral_options_validate aro end)
    (account_create_with_delegation_extensions op).

Definition account_update_operation_validate (op : account_update_operation) : result unit :=
  check_param "account" (validate_account_name (account_update_account op)) ;;
  check_param "json_metadata" (validate_account_json_metadata (account_update_json_metadata op)).

Definition account_metadata_operation_validate (op : account_metadata_operation) : result unit :=
  check_param_account "account" (account_metadata_account op) ;;
  check_param "json_metadata"
    (check_value_not_empty (account_metadata_json_metadata op) ;;
     validate_account_json_metadata (account_metadata_json_metadata op)).

(** ** Content *)

Definition comment_operation_validate (op : comment_operation) : result unit :=
  check_param "title"
    (check_value (size_of (comment_title op) <? 256) ;;
     check_value (is_utf8 (comment_title op))) ;;
  check_param "body"
    (check_value (size_of (comment_body op) >? 0) ;;
     check_value (is_utf8 (comment_body op))) ;;
  (if negb (size_of (comment_parent_author op) =? 0)
   then check_param "parent_author" (validate_account_name (comment_parent_author op))
   else Ok tt) ;;
  check_param "author" (validate_account_name (comment_author op)) ;;
  check_param "parent_permlink" (validate_permlink (comment_parent_permlink op)) ;;
  check_param "permlink" (validate_permlink (comment_permlink op)) ;;
  if size_of (comment_json_metadata op) >? 0
  then check_param "json_metadata" (check_value (json_is_valid (comment_json_metadata op)))
  else Ok tt.

(** [beneficiary_route_type::operator<] *)
Definition beneficiary_ltb (a b : beneficiary_route_type) : bool :=
  match key_compare (beneficiary_account a) (beneficiary_account b) with Lt => true | _ => false end.

(** The loop that checks every route and adds the weights in 32 bits. *)
Fixpoint beneficiaries_sum (sum : Z) (l : list beneficiary_route_type) : result Z :=
  match l with
  | [] => Ok sum
  | b :: l' =>
      validate_account_name (beneficiary_account b) ;;
      check_value (beneficiary_weight b <=? STEEMIT_100_PERCENT) ;;
      beneficiaries_sum (to_uint32_wrap (sum + beneficiary_weight b)) l'
  end.

(** The loop that compares neighbours. *)
Fixpoint beneficiaries_sorted (l : list beneficiary_route_type) : result unit :=
  match l with
  | a :: (b :: _) as l' => check_value (beneficiary_ltb a b) ;; beneficiaries_sorted l'
  | _ => Ok tt
  end.

Definition comment_payout_beneficiaries_validate (o : comment_payout_beneficiaries) : result unit :=
  let beneficiaries := comment_payout_beneficiaries_beneficiaries o in
  check_param "beneficiaries"
    (check_value (negb (Z.of_nat (length beneficiaries) =? 0)) ;;
     check_value (Z.of_nat (length beneficiaries) <? 128) ;;
     sum ← beneficiaries_sum 0 beneficiaries;
     check_value (sum <=? STEEMIT_100_PERCENT) ;;
     beneficiaries_sorted beneficiaries).

Definition comment_auction_window_reward_destination_validate
    (o : comment_auction_window_reward_destination) : result unit :=
  let destination := comment_auction_window_reward_destination_destination o in
  check_param "destination"
    (check_value (bool_decide (destination = to_reward_fund) || bool_decide (destination = to_curators))).

Definition comment_curation_rewards_percent_validate (o : comment_curation_rewards_percent) : result unit :=
  let percent := comment_curation_rewards_percent_percent o in
  check_param "percent"
    (check_value ((STEEMIT_MIN_CURATION_PERCENT <=? percent) && (percent <=? STEEMIT_MAX_CURATION_PERCENT))).

(** [comment_options_extension_validate_visitor] *)
Definition comment_options_extension_validate (e : comment_options_extension) : result unit :=
  match e with
  | ext_comment_payout_beneficiaries cpb => comment_payout_beneficiaries_validate cpb
  | ext_comment_auction_window_reward_destination d => comment_auction_window_reward_destination_validate d
  | ext_comment_curation_rewards_percent p => comment_curation_rewards_percent_validate p
  end.

Definition comment_options_operation_validate (op : comment_options_operation) : result unit :=
  check_param_account "author" (comment_options_author op) ;;
  check_param "percent_steem_dollars"
    (check_value (comment_options_percent_steem_dollars op <=? STEEMIT_100_PERCENT)) ;;
  check_param "max_accepted_payout"
    (check_asset_ge0 (comment_options_max_accepted_payout op) SBD_SYMBOL) ;;
  check_param "permlink" (validate_permlink (comment_options_permlink op)) ;;
  result_for_each comment_options_extension_validate (comment_options_extensions op).

Definition delete_comment_operation_validate (op : delete_comment_operation) : result unit :=
  check_param_account "author" (delete_comment_author op) ;;
  check_param "permlink" (validate_permlink (delete_comment_permlink op)).

Definition challenge_authority_operation_validate (op : challenge_authority_operation) : result unit :=
  check_param_account "challenger" (challenge_authority_challenger op) ;;
  check_param_account "challenged" (challenge_authority_challenged op) ;;
  check_logic (negb (String.eqb (challenge_authority_challenged op) (challenge_authority_challenger op)))
    cannot_challenge_yourself.

Definition prove_authority_operation_validate (op : prove_authority_operation) : result unit :=
  check_param_account "challenged" (prove_authority_challenged op).

Definition vote_operation_validate (op : vote_operation) : result unit :=
  check_param "voter" (validate_account_name (vote_voter op)) ;;
  check_param "author" (validate_account_name (vote_author op)) ;;
  check_param "weight" (check_value (Z.abs (vote_weight op) <=? STEEMIT_100_PERCENT)) ;;
  check_param "permlink" (validate_permlink (vote_permlink op)).

(** ** Transfers and vesting *)

Definition transfer_operation_validate (op : transfer_operation) : result unit :=
  check_param "from" (validate_account_name (transfer_from op)) ;;
  check_param "to" (validate_account_name (transfer_to op)) ;;
  check_param "amount"
    (check_value (negb (symbol (transfer_amount op) =? VESTS_SYMBOL)) ;;
     check_value (amount (transfer_amount op) >? 0)) ;;
  check_param "memo"
    (check_value (size_of (transfer_memo op) <? STEEMIT_MAX_MEMO_SIZE) ;;
     check_value (is_utf8 (transfer_memo op))).

Definition transfer_to_vesting_operation_validate (op : transfer_to_vesting_operation) : result unit :=
  check_param "from" (validate_account_name (transfer_to_vesting_from op)) ;;
  check_param "amount"
    (check_value (is_asset_type (transfer_to_vesting_amount op) STEEM_SYMBOL) ;;
     c ← asset_gtb (transfer_to_vesting_amount op) (mk_asset 0 STEEM_SYMBOL);
     check_value c) ;;
  check_param "to"
    (if negb (String.eqb (transfer_to_vesting_to op) "")
     then validate_account_name (transfer_to_vesting_to op)
     else Ok tt).

Definition withdraw_vesting_operation_validate (op : withdraw_vesting_operation) : result unit :=
  check_param "account" (validate_account_name (withdraw_vesting_account op)) ;;
  check_param "vesting_shares"
    (check_value (is_asset_type (withdraw_vesting_vesting_shares op) VESTS_SYMBOL) ;;
     check_value (amount (withdraw_vesting_vesting_shares op) >=? 0)).

Definition set_withdraw_vesting_route_operation_validate
    (op : set_withdraw_vesting_route_operation) : result unit :=
  check_param_account "from_account" (set_withdraw_vesting_route_from_account op) ;;
  check_param_account "to_account" (set_withdraw_vesting_route_to_account op) ;;
  check_param "percent" (check_value_lege (set_withdraw_vesting_route_percent op) 0 STEEMIT_100_PERCENT).

(** ** Witnesses *)

Definition chain_properties_17_validate (p : chain_properties_17) : result unit :=
  check_asset_ge (account_creation_fee p) STEEM_SYMBOL STEEMIT_MIN_ACCOUNT_CREATION_FEE ;;
  check_value (maximum_block_size p >=? STEEMIT_MIN_BLOCK_SIZE_LIMIT) ;;
  check_value_lege (sbd_interest_rate p) 0 STEEMIT_100_PERCENT.

Definition chain_properties_18_validate (p : chain_properties_18) : result unit :=
  chain_properties_17_validate (base_17 p) ;;
  check_asset_gt0 (create_account_min_golos_fee p) STEEM_SYMBOL ;;
  check_asset_gt0 (create_account_min_delegation p) STEEM_SYMBOL ;;
  check_asset_gt0 (min_delegation p) STEEM_SYMBOL ;;
  check_value (create_account_delegation_time p >? GOLOS_CREATE_ACCOUNT_DELEGATION_TIME / 2).

Definition chain_properties_19_validate (p : chain_properties_19) : result unit :=
  let window_max := (2 ^ 16 - 1) / 2 in
  chain_properties_18_validate (base_18 p) ;;
  check_value (max_referral_interest_rate p <=? GOLOS_MAX_REFERRAL_INTEREST_RATE) ;;
  check_value (max_referral_term_sec p <=? GOLOS_MAX_REFERRAL_TERM_SEC) ;;
  check_param "min_referral_break_fee"
    (check_value (is_asset_type (min_referral_break_fee p) STEEM_SYMBOL) ;;
     c ← asset_geb (min_referral_break_fee p) (mk_asset 0 STEEM_SYMBOL);
     check_value c) ;;
  check_param "max_referral_break_fee"
    (check_value (is_asset_type (max_referral_break_fee p) STEEM_SYMBOL) ;;
     c ← asset_geb (max_referral_break_fee p) (min_referral_break_fee p);
     check_value c ;;
     d ← asset_leb (max_referral_break_fee p) GOLOS_MAX_REFERRAL_BREAK_FEE;
     check_value d) ;;
  check_value_lege (posts_window p) 1 window_max ;;
  check_value_lege (posts_per_window p) 1 (posts_window p) ;;
  check_value_lege (comments_window p) 1 window_max ;;
  check_value_lege (comments_per_window p) 1 (comments_window p) ;;
  check_value_lege (votes_window p) 1 window_max ;;
  check_value_lege (votes_per_window p) 1 (votes_window p) ;;
  check_value (max_delegated_vesting_interest_rate p <=? STEEMIT_MAX_DELEGATED_VESTING_INTEREST_RATE) ;;
  check_value (custom_ops_bandwidth_multiplier p >=? 1) ;;
  check_value_lege (min_curation_percent p) STEEMIT_MIN_CURATION_PERCENT (max_curation_percent p) ;;
  check_value_lege (max_curation_percent p) (min_curation_percent p) STEEMIT_MAX_CURATION_PERCENT ;;
  check_param "curation_reward_curve"
    (check_value (bool_decide (curation_reward_curve p = bounded) ||
                  bool_decide (curation_reward_curve p = linear) ||
                  bool_decide (curation_reward_curve p = square_root))) ;;
  check_param "allow_return_auction_reward_to_fund"
    (check_value (allow_return_auction_reward_to_fund p || allow_distribute_auction_reward p)).

Definition witness_update_operation_validate (op : witness_update_operation) : result unit :=
  check_param_account "owner" (witness_update_owner op) ;;
  check_param "url"
    (check_value_not_empty (witness_update_url op) ;; check_value (is_utf8 (witness_update_url op))) ;;
  check_param "fee" (check_asset_ge0 (witness_update_fee op) STEEM_SYMBOL) ;;
  check_param "props" (chain_properties_17_validate (witness_update_props op)).

(** [chain_properties_validator] *)
Definition versioned_chain_properties_validate (p : versioned_chain_properties) : result unit :=
  match p with
  | props_17 q => chain_properties_17_validate q
  | props_18 q => chain_properties_18_validate q
  | props_19 q => chain_properties_19_validate q
  end.

Definition chain_properties_update_operation_validate (op : chain_properties_update_operation) : result unit :=
  check_param_account "owner" (chain_properties_update_owner op) ;;
  check_param "props" (versioned_chain_properties_validate (chain_properties_update_props op)).

Definition account_witness_vote_operation_validate (op : account_witness_vote_operation) : result unit :=
  check_param_account "account" (account_witness_vote_account op) ;;
  check_param_account "witness" (account_witness_vote_witness op).

Definition account_witness_proxy_operation_validate (op : account_witness_proxy_operation) : result unit :=
  check_param_account "account" (account_witness_proxy_account op) ;;
  if negb (size_of (account_witness_proxy_proxy op) =? 0) then
    check_param "proxy"
      (validate_account_name (account_witness_proxy_proxy op) ;;
       check_value (negb (String.eqb (account_witness_proxy_proxy op) (account_witness_proxy_account op))))
  else Ok tt.

(** ** Custom operations *)

Definition custom_operation_validate (op : custom_operation) : result unit :=
  check_param "required_auths" (check_value (Z.of_nat (length (custom_required_auths op)) >? 0)).

Definition custom_json_operation_validate (op : custom_json_operation) : result unit :=
  check_param "required_auths"
    (check_value (Z.of_nat (length (custom_json_required_auths op)) +
                  Z.of_nat (length (custom_json_required_posting_auths op)) >? 0)) ;;
  check_param "id" (check_value_max_size (custom_json_id op) 32) ;;
  check_param "json"
    (check_value (is_utf8 (custom_json_json op)) ;; check_value (json_is_valid (custom_json_json op))).

Definition custom_binary_operation_validate (op : custom_binary_operation) : result unit :=
  check_param "required_owner_auths"
    (check_value (Z.of_nat (length (custom_binary_required_owner_auths op)) +
                  Z.of_nat (length (custom_binary_required_active_auths op)) +
                  Z.of_nat (length (custom_binary_required_posting_auths op)) >? 0)) ;;
  check_param "id" (check_value_max_size (custom_binary_id op) 32) ;;
  check_param "required_auths" (result_for_each authority_validate (custom_binary_required_auths op)).

(** ** Proofs of work *)

(** [pow_operation::work_input]: word 0 of the hash is replaced by the nonce *)
Definition pow_operation_work_input (op : pow_operation) : Z :=
  let hash := sha256_of_block_id (pow_block_id op) in
  sha256_of_sha256 (Z.lor (Z.ldiff hash (2 ^ 64 - 1)) (pow_nonce op)).

Definition pow_validate (w : pow_type) : result unit :=
  check_value (negb (pow_work_work w =? 0)) ;;
  k ← recover_public_key (pow_work_signature w) (pow_work_input w) false;
  check_value (pow_work_worker w =? k) ;;
  let sig_hash := sha256_of_signature (pow_work_signature w) in
  recover ← recover_public_key (pow_work_signature w) sig_hash false;
  check_value (pow_work_work w =? sha256_of_public_key recover).

Definition pow_operation_validate (op : pow_operation) : result unit :=
  chain_properties_17_validate (pow_props op) ;;
  check_param_account "worker_account" (pow_worker_account op) ;;
  check_param "work"
    (check_value (pow_operation_work_input op =? pow_work_input (pow_work op)) ;;
     pow_validate (pow_work op)).

(** [pow2::create] *)
Definition pow2_create (prev : Z) (account_name : string) (n : Z) : result pow2 :=
  let input := mk_pow2_input account_name prev n in
  let prv_key := sha256_of_pow2_input input in
  let digest := sha256_of_sha256 prv_key in
  signature ← sign_compact prv_key digest;
  let sig_hash := sha256_of_signature signature in
  recover ← recover_public_key signature sig_hash true;
  Ok (mk_pow2_work input (approx_log_32 (sha256_of_sha256_and_key digest recover))).

Definition pow2_validate (w : pow2) : result unit :=
  let input := pow2_work_input w in
  check_param_account "input.worker_account" (pow2_input_worker_account input) ;;
  tmp ← pow2_create (pow2_input_prev_block input) (pow2_input_worker_account input) (pow2_input_nonce input);
  check_param "pow_summary" (check_value (pow2_work_pow_summary w =? pow2_work_pow_summary tmp)).

Definition equihash_pow_validate (w : equihash_pow) : result unit :=
  let input := equihash_pow_input w in
  let proof := equihash_pow_proof w in
  check_param_account "input.worker_account" (pow2_input_worker_account input) ;;
  let seed := sha256_of_pow2_input input in
  check_param "proof"
    (check_value (proof_n proof =? STEEMIT_EQUIHASH_N) ;;
     check_value (proof_k proof =? STEEMIT_EQUIHASH_K) ;;
     check_value (proof_seed proof =? seed) ;;
     check_value (equihash_is_valid proof)) ;;
  check_param "pow_summary"
    (check_value (equihash_pow_pow_summary w =? approx_log_32 (sha256_of_inputs (proof_inputs proof)))).

Definition pow2_operation_validate (op : pow2_operation) : result unit :=
  chain_properties_17_validate (pow2_op_props op) ;;
  match pow2_op_work op with
  | work_pow2 w => pow2_validate w
  | work_equihash_pow w => equihash_pow_validate w
  end.

(** ** Market *)

(** The two symbols are GOLOS and GBG, in either order. *)
Definition golos_gbg_market (a b : asset) : bool :=
  (is_asset_type a STEEM_SYMBOL && is_asset_type b SBD_SYMBOL) ||
  (is_asset_type a SBD_SYMBOL && is_asset_type b STEEM_SYMBOL).

Definition feed_publish_operation_validate (op : feed_publish_operation) : result unit :=
  check_param "publisher" (validate_account_name (feed_publish_publisher op)) ;;
  check_logic (golos_gbg_market (base (feed_publish_exchange_rate op)) (quote (feed_publish_exchange_rate op)))
    price_feed_must_be_for_golos_gbg_market ;;
  check_param "exchange_rate" (price_validate (feed_publish_exchange_rate op)).

Definition limit_order_create_operation_validate (op : limit_order_create_operation) : result unit :=
  check_param "owner" (validate_account_name (limit_order_create_owner op)) ;;
  check_logic (golos_gbg_market (limit_order_create_amount_to_sell op) (limit_order_create_min_to_receive op))
    limit_order_must_be_for_golos_gbg_market ;;
  price ← asset_div (limit_order_create_amount_to_sell op) (limit_order_create_min_to_receive op);
  check_param "price" (price_validate price).

Definition limit_order_create2_operation_validate (op : limit_order_create2_operation) : result unit :=
  check_param "owner" (validate_account_name (limit_order_create2_owner op)) ;;
  check_param "exchange_rate" (price_validate (limit_order_create2_exchange_rate op)) ;;
  check_logic (golos_gbg_market (limit_order_create2_amount_to_sell op)
                 (quote (limit_order_create2_exchange_rate op)))
    limit_order_must_be_for_golos_gbg_market ;;
  check_param "amount_to_sell"
    (check_value (symbol (limit_order_create2_amount_to_sell op) =?
                  symbol (base (limit_order_create2_exchange_rate op))) ;;
     traded ← asset_mul_price (limit_order_create2_amount_to_sell op) (limit_order_create2_exchange_rate op);
     check_value (amount traded >? 0)).

Definition limit_order_cancel_operation_validate (op : limit_order_cancel_operation) : result unit :=
  check_param "owner" (validate_account_name (limit_order_cancel_owner op)).

Definition convert_operation_validate (op : convert_operation) : result unit :=
  check_param_account "owner" (convert_owner op) ;;
  check_param "amount" (check_asset_gt0 (convert_amount op) SBD_SYMBOL).

Definition report_over_production_operation_validate (op : report_over_production_operation) : result unit :=
  let first_block := report_over_production_first_block op in
  let second_block := report_over_production_second_block op in
  check_param_account "reporter" (report_over_production_reporter op) ;;
  check_param_account "first_block.witness" (header_witness first_block) ;;
  check_param "first_block"
    (check_value (String.eqb (header_witness first_block) (header_witness second_block)) ;;
     check_value (header_timestamp first_block =? header_timestamp second_block) ;;
     k1 ← signee first_block;
     k2 ← signee second_block;
     check_value (k1 =? k2) ;;
     check_value (negb (block_id first_block =? block_id second_block))).

(** ** Escrow *)

Definition escrow_transfer_operation_validate (op : escrow_transfer_operation) : result unit :=
  check_param_account "from" (escrow_transfer_from op) ;;
  check_param_account "to" (escrow_transfer_to op) ;;
  check_param_account "agent" (escrow_transfer_agent op) ;;
  check_param "fee" (check_asset_ge0_golos_or_gbg (escrow_transfer_fee op)) ;;
  check_param "sbd_amount" (check_asset_ge0 (escrow_transfer_sbd_amount op) SBD_SYMBOL) ;;
  check_param "steem_amount" (check_asset_ge0 (escrow_transfer_steem_amount op) STEEM_SYMBOL) ;;
  check_logic ((amount (escrow_transfer_sbd_amount op) >? 0) || (amount (escrow_transfer_steem_amount op) >? 0))
    escrow_no_amount_set ;;
  check_param "agent"
    (check_value (negb (String.eqb (escrow_transfer_from op) (escrow_transfer_agent op)) &&
                  negb (String.eqb (escrow_transfer_to op) (escrow_transfer_agent op)))) ;;
  check_logic (escrow_transfer_ratification_deadline op <? escrow_transfer_escrow_expiration op)
    escrow_wrong_time_limits ;;
  if size_of (escrow_transfer_json_meta op) >? 0 then
    check_param "json_meta"
      (check_value (is_utf8 (escrow_transfer_json_meta op)) ;;
       check_value (json_is_valid (escrow_transfer_json_meta op)))
  else Ok tt.

Definition escrow_approve_operation_validate (op : escrow_approve_operation) : result unit :=
  check_param_account "from" (escrow_approve_from op) ;;
  check_param_account "to" (escrow_approve_to op) ;;
  check_param_account "agent" (escrow_approve_agent op) ;;
  check_param_account "who" (escrow_approve_who op) ;;
  check_param "who"
    (check_value (String.eqb (escrow_approve_who op) (escrow_approve_to op) ||
                  String.eqb (escrow_approve_who op) (escrow_approve_agent op))).

Definition escrow_dispute_operation_validate (op : escrow_dispute_operation) : result unit :=
  check_param_account "from" (escrow_dispute_from op) ;;
  check_param_account "to" (escrow_dispute_to op) ;;
  check_param_account "agent" (escrow_dispute_agent op) ;;
  check_param_account "who" (escrow_dispute_who op) ;;
  check_param "who"
    (check_value (String.eqb (escrow_dispute_who op) (escrow_dispute_from op) ||
                  String.eqb (escrow_dispute_who op) (escrow_dispute_to op))).

Definition escrow_release_operation_validate (op : escrow_release_operation) : result unit :=
  check_param_account "from" (escrow_release_from op) ;;
  check_param_account "to" (escrow_release_to op) ;;
  check_param_account "agent" (escrow_release_agent op) ;;
  check_param_account "who" (escrow_release_who op) ;;
  check_param_account "receiver" (escrow_release_receiver op) ;;
  check_param "who"
    (check_value (String.eqb (escrow_release_who op) (escrow_release_from op) ||
                  String.eqb (escrow_release_who op) (escrow_release_to op) ||
                  String.eqb (escrow_release_who op) (escrow_release_agent op))) ;;
  check_param "receiver"
    (check_value (String.eqb (escrow_release_receiver op) (escrow_release_from op) ||
                  String.eqb (escrow_release_receiver op) (escrow_release_to op))) ;;
  check_param "sbd_amount" (check_asset_ge0 (escrow_release_sbd_amount op) SBD_SYMBOL) ;;
  check_param "steem_amount" (check_asset_ge0 (escrow_release_steem_amount op) STEEM_SYMBOL) ;;
  check_logic ((amount (escrow_release_sbd_amount op) >? 0) || (amount (escrow_release_steem_amount op) >? 0))
    escrow_no_amount_set.

(** ** Recovery *)

Definition request_account_recovery_operation_validate (op : request_account_recovery_operation) : result unit :=
  check_param_account "recovery_account" (request_account_recovery_recovery_account op) ;;
  check_param_account "account_to_recover" (request_account_recovery_account_to_recover op) ;;
  check_param_authority "new_owner_authority" (request_account_recovery_new_owner_authority op).

Definition recover_account_operation_validate (op : recover_account_operation) : result unit :=
  let new_owner_authority := recover_account_new_owner_authority op in
  let recent_owner_authority := recover_account_recent_owner_authority op in
  check_param_account "account_to_recover" (recover_account_account_to_recover op) ;;
  check_param "new_owner_authority"
    (check_logic (negb (authority_eqb new_owner_authority recent_owner_authority)) cannot_set_recent_recovery ;;
     check_value (negb (is_impossible new_owner_authority)) ;;
     check_value (negb (weight_threshold new_owner_authority =? 0)) ;;
     authority_validate new_owner_authority) ;;
  check_param "recent_owner_authority"
    (check_value (negb (is_impossible recent_owner_authority)) ;;
     authority_validate recent_owner_authority).

Definition change_recovery_account_operation_validate (op : change_recovery_account_operation) : result unit :=
  check_param_account "account_to_recover" (change_recovery_account_account_to_recover op) ;;
  check_param_account "new_recovery_account" (change_recovery_account_new_recovery_account op).

(** ** Savings, voting rights, reset accounts *)

Definition transfer_to_savings_operation_validate (op : transfer_to_savings_operation) : result unit :=
  check_param_account "from" (transfer_to_savings_from op) ;;
  check_param_account "to" (transfer_to_savings_to op) ;;
  check_param "amount" (check_asset_gt0_golos_or_gbg (transfer_to_savings_amount op)) ;;
  check_param "memo"
    (check_value_max_size (transfer_to_savings_memo op) (STEEMIT_MAX_MEMO_SIZE - 1) ;;
     check_value (is_utf8 (transfer_to_savings_memo op))).

Definition transfer_from_savings_operation_validate (op : transfer_from_savings_operation) : result unit :=
  check_param_account "from" (transfer_from_savings_from op) ;;
  check_param_account "to" (transfer_from_savings_to op) ;;
  check_param "amount" (check_asset_gt0_golos_or_gbg (transfer_from_savings_amount op)) ;;
  check_param "memo"
    (check_value_max_size (transfer_from_savings_memo op) (STEEMIT_MAX_MEMO_SIZE - 1) ;;
     check_value (is_utf8 (transfer_from_savings_memo op))).

Definition cancel_transfer_from_savings_operation_validate
    (op : cancel_transfer_from_savings_operation) : result unit :=
  check_param_account "from" (cancel_transfer_from_savings_from op).

Definition decline_voting_rights_operation_validate (op : decline_voting_rights_operation) : result unit :=
  check_param_account "account" (decline_voting_rights_account op).

Definition reset_account_operation_validate (op : reset_account_operation) : result unit :=
  let new_owner_authority := reset_account_new_owner_authority op in
  check_param_account "reset_account" (reset_account_reset_account op) ;;
  check_param_account "account_to_reset" (reset_account_account_to_reset op) ;;
  check_param "new_owner_authority"
    (check_value (negb (is_impossible new_owner_authority)) ;;
     check_value (negb (weight_threshold new_owner_authority =? 0)) ;;
     authority_validate new_owner_authority).

Definition set_reset_account_operation_validate (op : set_reset_account_operation) : result unit :=
  check_param_account "account" (set_reset_account_account op) ;;
  (if negb (size_of (set_reset_account_current_reset_account op) =? 0)
   then check_param_account "current_reset_account" (set_reset_account_current_reset_account op)
   else Ok tt) ;;
  check_param_account "reset_account" (set_reset_account_reset_account op) ;;
  check_logic (negb (String.eqb (set_reset_account_current_reset_account op) (set_reset_account_reset_account op)))
    cannot_set_same_reset_account.

(** ** Delegation *)

Definition delegate_vesting_shares_operation_validate (op : delegate_vesting_shares_operation) : result unit :=
  check_param_account "delegator" (delegate_vesting_shares_delegator op) ;;
  check_param_account "delegatee" (delegate_vesting_shares_delegatee op) ;;
  check_logic (negb (String.eqb (delegate_vesting_shares_delegator op) (delegate_vesting_shares_delegatee op)))
    cannot_delegate_to_yourself ;;
  check_param "vesting_shares" (check_asset_ge0 (delegate_vesting_shares_vesting_shares op) VESTS_SYMBOL).

Definition break_free_referral_operation_validate (op : break_free_referral_operation) : result unit :=
  check_param_account "referral" (break_free_referral_referral op).

Definition delegate_vesting_shares_with_interest_operation_validate
    (op : delegate_vesting_shares_with_interest_operation) : result unit :=
  check_param_account "delegator" (delegate_vesting_shares_with_interest_delegator op) ;;
  check_param_account "delegatee" (delegate_vesting_shares_with_interest_delegatee op) ;;
  check_logic (negb (String.eqb (delegate_vesting_shares_with_interest_delegator op)
                                (delegate_vesting_shares_with_interest_delegatee op)))
    cannot_delegate_to_yourself ;;
  check_param "vesting_shares"
    (check_asset_ge0 (delegate_vesting_shares_with_interest_vesting_shares op) VESTS_SYMBOL).

Definition reject_vesting_shares_delegation_operation_validate
    (op : reject_vesting_shares_delegation_operation) : result unit :=
  check_param_account "delegator" (reject_vesting_shares_delegation_delegator op) ;;
  check_param_account "delegatee" (reject_vesting_shares_delegation_delegatee op).

Definition transit_to_cyberway_operation_validate (op : transit_to_cyberway_operation) : result unit :=
  check_param_account "owner" (transit_to_cyberway_owner op).

(** ** Proposals *)

Definition GOLOS_PROPOSAL_MAX_TITLE_SIZE : Z := 256.
Definition GOLOS_PROPOSAL_MAX_MEMO_SIZE : Z := 4096.

Definition check_param_title (title : string) : result unit :=
  check_param "title"
    (check_value_not_empty title ;;
     check_value_max_size title GOLOS_PROPOSAL_MAX_TITLE_SIZE ;;
     check_value (is_utf8 title)).

Definition proposal_create_operation_validate {op_t : Type} (operation_validate : op_t -> result unit)
    (op : proposal_create_operation_of op_t) : result unit :=
  check_param_account "author" (proposal_create_author op) ;;
  check_param_title (proposal_create_title op) ;;
  check_param "proposed_operations"
    (check_value (negb (Z.of_nat (length (proposal_create_proposed_operations op)) =? 0)) ;;
     result_for_each operation_validate (proposal_create_proposed_operations op)) ;;
  check_param "memo"
    (if size_of (proposal_create_memo op) >? 0 then
       check_value_max_size (proposal_create_memo op) GOLOS_PROPOSAL_MAX_MEMO_SIZE ;;
       check_value (is_utf8 (proposal_create_memo op))
     else Ok tt).

(** The local function of [proposal_update_operation::validate] *)
Definition approvals_disjoint {K : Type} `{KeyOrder K} (to_add to_remove : flat_set K) : result unit :=
  result_for_each (fun a => check_logic (negb (fs_mem a to_remove)) add_and_remove_same_approval) to_add.

Definition proposal_update_operation_validate (op : proposal_update_operation) : result unit :=
  check_param_account "author" (proposal_update_author op) ;;
  check_param_title (proposal_update_title op) ;;
  check_logic
    (0 <? Z.of_nat (length (proposal_update_owner_approvals_to_add op) +
                    length (proposal_update_owner_approvals_to_remove op) +
                    length (proposal_update_active_approvals_to_add op) +
                    length (proposal_update_active_approvals_to_remove op) +
                    length (proposal_update_posting_approvals_to_add op) +
                    length (proposal_update_posting_approvals_to_remove op) +
                    length (proposal_update_key_approvals_to_add op) +
                    length (proposal_update_key_approvals_to_remove op)))
    empty_approvals ;;
  approvals_disjoint (proposal_update_owner_approvals_to_add op) (proposal_update_owner_approvals_to_remove op) ;;
  approvals_disjoint (proposal_update_active_approvals_to_add op) (proposal_update_active_approvals_to_remove op) ;;
  approvals_disjoint (proposal_update_posting_approvals_to_add op) (proposal_update_posting_approvals_to_remove op) ;;
  approvals_disjoint (proposal_update_key_approvals_to_add op) (proposal_update_key_approvals_to_remove op).

Definition proposal_delete_operation_validate (op : proposal_delete_operation) : result unit :=
  check_param_account "requester" (proposal_delete_requester op) ;;
  check_param_account "author" (proposal_delete_author op) ;;
  check_param_title (proposal_delete_title op).

(** ** All operations *)

(** [operation_validate]; [virtual_operation::validate] asserts false *)
Fixpoint operation_validate (op : operation) : result unit :=
  match op with
  | op_vote o => vote_operation_validate o
  | op_comment o => comment_operation_validate o
  | op_transfer o => transfer_operation_validate o
  | op_transfer_to_vesting o => transfer_to_vesting_operation_validate o
  | op_withdraw_vesting o => withdraw_vesting_operation_validate o
  | op_limit_order_create o => limit_order_create_operation_validate o
  | op_limit_order_cancel o => limit_order_cancel_operation_validate o
  | op_feed_publish o => feed_publish_operation_validate o
  | op_convert o => convert_operation_validate o
  | op_account_create o => account_create_operation_validate o
  | op_account_update o => account_update_operation_validate o
  | op_witness_update o => witness_update_operation_validate o
  | op_account_witness_vote o => account_witness_vote_operation_validate o
  | op_account_witness_proxy o => account_witness_proxy_operation_validate o
  | op_pow o => pow_operation_validate o
  | op_custom o => custom_operation_validate o
  | op_report_over_production o => report_over_production_operation_validate o
  | op_delete_comment o => delete_comment_operation_validate o
  | op_custom_json o => custom_json_operation_validate o
  | op_comment_options o => comment_options_operation_validate o
  | op_set_withdraw_vesting_route o => set_withdraw_vesting_route_operation_validate o
  | op_limit_order_create2 o => limit_order_create2_operation_validate o
  | op_challenge_authority o => challenge_authority_operation_validate o
  | op_prove_authority o => prove_authority_operation_validate o
  | op_request_account_recovery o => request_account_recovery_operation_validate o
  | op_recover_account o => recover_account_operation_validate o
  | op_change_recovery_account o => change_recovery_account_operation_validate o
  | op_escrow_transfer o => escrow_transfer_operation_validate o
  | op_escrow_dispute o => escrow_dispute_operation_validate o
  | op_escrow_release o => escrow_release_operation_validate o
  | op_pow2 o => pow2_operation_validate o
  | op_escrow_approve o => escrow_approve_operation_validate o
  | op_transfer_to_savings o => transfer_to_savings_operation_validate o
  | op_transfer_from_savings o => transfer_from_savings_operation_validate o
  | op_cancel_transfer_from_savings o => cancel_transfer_from_savings_operation_validate o
  | op_custom_binary o => custom_binary_operation_validate o
  | op_decline_voting_rights o => decline_voting_rights_operation_validate o
  | op_reset_account o => reset_account_operation_validate o
  | op_set_reset_account o => set_reset_account_operation_validate o
  | op_delegate_vesting_shares o => delegate_vesting_shares_operation_validate o
  | op_account_create_with_delegation o => account_create_with_delegation_operation_validate o
  | op_account_metadata o => account_metadata_operation_validate o
  | op_proposal_create o => proposal_create_operation_validate operation_validate o
  | op_proposal_update o => proposal_update_operation_validate o
  | op_proposal_delete o => proposal_delete_operation_validate o
  | op_chain_properties_update o => chain_properties_update_operation_validate o
  | op_break_free_referral o => break_free_referral_operation_validate o
  | op_delegate_vesting_shares_with_interest o => delegate_vesting_shares_with_interest_operation_validate o
  | op_reject_vesting_shares_delegation o => reject_vesting_shares_delegation_operation_validate o
  | op_transit_to_cyberway o => transit_to_cyberway_operation_validate o
  | op_fill_convert_request _
  | op_author_reward _
  | op_curation_reward _
  | op_comment_reward _
  | op_liquidity_reward _
  | op_interest _
  | op_fill_vesting_withdraw _
  | op_fill_order _
  | op_shutdown_witness _
  | op_fill_transfer_from_savings _
  | op_hardfork _
  | op_comment_payout_update _
  | op_comment_benefactor_reward _
  | op_return_vesting_delegation _
  | op_producer_reward _
  | op_delegation_reward _
  | op_auction_window_reward _
  | op_total_comment_reward _ => Throw fc_assert_exception
  end.

End Validate.
