(* ===== verification/ValidateProps.v ===== *)
(** * Properties of operation validation *)

From S2P Require Import Prelude Exceptions Text Fc Config Asset FlatMap Authority Operations Crypto Validate.

(** Account names in strictly ascending order. *)
Definition account_before (a b : beneficiary_route_type) : Prop :=
  key_compare (beneficiary_account a) (beneficiary_account b) = Lt.

#[export] Instance account_before_trans : Transitive account_before.
Proof. intros a b c. apply key_compare_trans. Qed.

Definition total_weight (l : list beneficiary_route_type) : Z :=
  foldr (fun b acc => beneficiary_weight b + acc) 0 l.

Section Beneficiaries.
Context `{F : fc_ops} `{C : crypto_ops}.
Implicit Types (l : list beneficiary_route_type).

Lemma total_weight_nonneg l :
  Forall (fun b => 0 <= beneficiary_weight b) l -> 0 <= total_weight l.
Proof. induction 1; unfold total_weight in *; cbn; lia. Qed.

Lemma weight_le_total b l :
  Forall (fun b => 0 <= beneficiary_weight b) l -> b ∈ l -> beneficiary_weight b <= total_weight l.
Proof.
  induction 1 as [| c l Hc Hpos IH]; intros Hb; [by apply elem_of_nil in Hb|].
  pose proof (total_weight_nonneg l Hpos). unfold total_weight in *. cbn [foldr].
  apply elem_of_cons in Hb as [-> | Hb]; [lia|]. specialize (IH Hb). lia.
Qed.

(** The 32-bit sum of at most 127 checked weights is their sum. *)
Lemma beneficiaries_sum_Ok l start s :
  Forall (fun b => 0 <= beneficiary_weight b) l ->
  0 <= start -> start + Z.of_nat (length l) * STEEMIT_100_PERCENT < 2 ^ 32 ->
  beneficiaries_sum start l = Ok s <->
  Forall (fun b => is_valid_account_name (beneficiary_account b) = true /\
                   beneficiary_weight b <= STEEMIT_100_PERCENT) l /\ s = start + total_weight l.
Proof.
  intros Hpos. revert start.
  induction Hpos as [| b l Hb _ IH]; intros start Hs Hlen; cbn [beneficiaries_sum].
  - unfold total_weight. cbn. split; [intros [= <-] | intros [_ ->]; f_equal; lia].
    split; [constructor | lia].
  - rewrite length_cons, Nat2Z.inj_succ in Hlen. unfold validate_account_name.
    rewrite Forall_cons.
    destruct (is_valid_account_name (beneficiary_account b)); cbn; [|naive_solver].
    destruct (Z.leb_spec (beneficiary_weight b) STEEMIT_100_PERCENT) as [Hw | Hw]; cbn.
    2:{ split; [done | intros [[[_ ?] _] _]; lia]. }
    unfold to_uint32_wrap. unfold STEEMIT_100_PERCENT in *. rewrite Z.mod_small by lia.
    rewrite IH by lia. fold (total_weight l). rewrite Z.add_assoc. naive_solver.
Qed.

Lemma beneficiary_ltb_spec a b : beneficiary_ltb a b = true <-> account_before a b.
Proof.
  unfold beneficiary_ltb, account_before.
  by destruct (key_compare (beneficiary_account a) (beneficiary_account b)).
Qed.

Lemma beneficiaries_sorted_Ok l u :
  beneficiaries_sorted l = Ok u <-> StronglySorted account_before l.
Proof.
  transitivity (Sorted account_before l).
  2:{ split; [apply Sorted_StronglySorted, _ | apply StronglySorted_Sorted]. }
  destruct u. induction l as [| a [| b l] IH]; cbn [beneficiaries_sorted].
  - split; [constructor | done].
  - split; [by repeat constructor | done].
  - change ((check_value (beneficiary_ltb a b) ;; beneficiaries_sorted (b :: l)) = Ok () <->
            Sorted account_before (a :: b :: l)).
    split.
    + intros H. inv_ok. constructor; [by apply IH|]. constructor. by apply beneficiary_ltb_spec.
    + inversion 1 as [| ? ? Hs Hr]; subst. inversion Hr as [| ? ? Hab]; subst.
      apply beneficiary_ltb_spec in Hab. rewrite Hab. by apply IH.
Qed.

Lemma sorted_accounts_distinct l :
  StronglySorted account_before l -> NoDup (beneficiary_account <$> l).
Proof.
  induction 1 as [| a l _ IH Hall]; cbn; constructor; [|done].
  intros (b & Heq & Hb)%list_elem_of_fmap.
  rewrite Forall_forall in Hall. specialize (Hall b Hb). unfold account_before in Hall.
  rewrite Heq, key_compare_refl in Hall. discriminate.
Qed.

(** a beneficiary list passes validation exactly when it has 1 to 127 routes,
    every account name is valid, every weight and the (exact, not wrapped) sum of
    the weights is at most 100%, and the accounts are in strictly ascending order; so
    an accepted list names no account twice. *)
Theorem comment_payout_beneficiaries_validate_spec o :
  let l := comment_payout_beneficiaries_beneficiaries o in
  Forall (fun b => 0 <= beneficiary_weight b) l ->
  (comment_payout_beneficiaries_validate o = Ok tt <->
   (1 <= length l <= 127)%nat /\
   Forall (fun b => is_valid_account_name (beneficiary_account b) = true) l /\
   total_weight l <= STEEMIT_100_PERCENT /\ StronglySorted account_before l) /\
  (comment_payout_beneficiaries_validate o = Ok tt -> NoDup (beneficiary_account <$> l)).
Proof.
  intros l Hpos.
  enough (comment_payout_beneficiaries_validate o = Ok tt <->
   (1 <= length l <= 127)%nat /\
   Forall (fun b => is_valid_account_name (beneficiary_account b) = true) l /\
   total_weight l <= STEEMIT_100_PERCENT /\ StronglySorted account_before l) as Hiff.
  { split; [done|]. rewrite Hiff. intros (_ & _ & _ & ?). by apply sorted_accounts_distinct. }
  unfold comment_payout_beneficiaries_validate. fold l. split.
  - intros H. inv_ok. bool_to_prop.
    rewrite beneficiaries_sum_Ok in Hrun1 by (done || unfold STEEMIT_100_PERCENT; lia).
    destruct Hrun1 as [Hall ->]. rewrite beneficiaries_sorted_Ok in H.
    split; [lia|]. split; [|split; [lia | done]].
    eapply Forall_impl; [exact Hall|]. by intros b [? _].
  - intros (Hlen & Hnames & Htotal & Hsorted).
    rewrite check_param_Ok.
    replace (Z.of_nat (length l) =? 0) with false by lia.
    replace (Z.of_nat (length l) <? 128) with true by lia. cbn [negb check_value mbind result_bind].
    assert (beneficiaries_sum 0 l = Ok (total_weight l)) as ->.
    { apply beneficiaries_sum_Ok; [done | lia | unfold STEEMIT_100_PERCENT; lia |]. split; [|lia].
      apply Forall_forall. intros b Hb. rewrite Forall_forall in Hnames. split; [auto|].
      transitivity (total_weight l); [|done]. by apply weight_le_total. }
    cbn. rewrite (proj2 (Z.leb_le _ _) Htotal). cbn. by apply beneficiaries_sorted_Ok.
Qed.

End Beneficiaries.

Lemma comment_payout_beneficiaries_validate_spec_witness :
  let o := mk_comment_payout_beneficiaries
             [mk_beneficiary_route_type "alice" 4000; mk_beneficiary_route_type "bob" 6000] in
  comment_payout_beneficiaries_validate o = Ok tt /\ NoDup ["alice"; "bob"].
Proof.
  intros o. assert (comment_payout_beneficiaries_validate o = Ok tt) as H by (vm_compute; reflexivity).
  split; [exact H|].
  apply (proj2 (comment_payout_beneficiaries_validate_spec o ltac:(repeat constructor; cbn; lia)) H).
Defined.
