(* ===== verification/SignState.v ===== *)
(** * Checking authorities against signatures

    [libraries/protocol/sign_state.cpp]: a [sign_state] records which of the
    provided signatures were used and which accounts have approved; the recursive
    [check_authority] walks the keys and then the accounts of an authority, stops
    as soon as the threshold is reached, and follows account authorities to a
    bounded depth.  The state is passed explicitly; the getter of authorities may
    throw.

    The specification is the inductive predicate [authorized]: an authority is
    satisfied when the weights of some of its signed keys and vouched-for accounts
    reach its threshold. *)

From S2P Require Import Prelude Exceptions Config FlatMap Authority.

(** [authority_getter] *)
Definition authority_getter := string -> result authority.

(** [struct sign_state] *)
Record sign_state := mk_sign_state {
  get_active : authority_getter;
  available_keys : flat_set Z;
  provided_signatures : flat_map Z bool;
  unused_signatures : list Z;
  used_signatures : list Z;
  approved_by : flat_map string bool;
  unused_approvals : list string;
  max_recursion : nat
}.
#[export] Instance sign_state_rebuild : Rebuild sign_state := fun s =>
  mk_sign_state (get_active s) (available_keys s) (provided_signatures s) (unused_signatures s)
    (used_signatures s) (approved_by s) (unused_approvals s) (max_recursion s).

(** The constructor *)
Definition sign_state_init (sigs : flat_set Z) (a : authority_getter) (keys : flat_set Z) : sign_state :=
  mk_sign_state a keys
    (fold_left (fun m key => fm_set key false m) sigs [])
    [] [] (fm_set "temp" true []) [] STEEMIT_MAX_SIG_CHECK_DEPTH.

(** [signed_by] *)
Definition signed_by (k : Z) (s : sign_state) : bool * sign_state :=
  match fm_find k (provided_signatures s) with
  | None =>
      if fs_mem k (available_keys s)
      then (true, s <| provided_signatures ::= fm_set k true |>)
      else (false, s)
  | Some _ => (true, s <| provided_signatures ::= fm_set k true |>)
  end.

(** The loop over [key_auths]: whether it returned, the weight so far, the state. *)
Fixpoint check_keys (threshold : Z) (keys : flat_map Z Z) (total_weight : Z) (s : sign_state)
    : bool * Z * sign_state :=
  match keys with
  | [] => (false, total_weight, s)
  | (k, w) :: keys' =>
      let '(signed, s') := signed_by k s in
      if signed then
        let total_weight' := to_uint32_wrap (total_weight + w) in
        if total_weight' >=? threshold then (true, total_weight', s')
        else check_keys threshold keys' total_weight' s'
      else check_keys threshold keys' total_weight s'
  end.

(** The loop over [account_auths]; [deeper] is the recursive call, absent when
    [depth == max_recursion]. *)
Fixpoint check_accounts (deeper : option (authority -> sign_state -> result (bool * sign_state)))
    (threshold : Z) (accounts : flat_map string Z) (total_weight : Z) (s : sign_state)
    : result (bool * Z * sign_state) :=
  match accounts with
  | [] => Ok (false, total_weight, s)
  | (a, w) :: accounts' =>
      match fm_find a (approved_by s) with
      | Some _ =>
          let total_weight' := to_uint32_wrap (total_weight + w) in
          if total_weight' >=? threshold then Ok (true, total_weight', s)
          else check_accounts deeper threshold accounts' total_weight' s
      | None =>
          match deeper with
          | None => check_accounts deeper threshold accounts' total_weight s
          | Some check =>
              auth ← get_active s a;
              '(ok, s1) ← check auth s;
              if (ok : bool) then
                let s2 := s1 <| approved_by ::= fm_set a true |> in
                let total_weight' := to_uint32_wrap (total_weight + w) in
                if total_weight' >=? threshold then Ok (true, total_weight', s2)
                else check_accounts deeper threshold accounts' total_weight' s2
              else check_accounts deeper threshold accounts' total_weight s1
          end
      end
  end.

(** [check_authority(auth, depth)], by recursion on [max_recursion - depth] *)
Fixpoint check_authority_depth (remaining : nat) (auth : authority) (s : sign_state)
    : result (bool * sign_state) :=
  let '(returned, total_weight, s1) := check_keys (weight_threshold auth) (key_auths auth) 0 s in
  if (returned : bool) then Ok (true, s1) else
  let deeper :=
    match remaining with O => None | S r => Some (check_authority_depth r) end in
  '(returned, total_weight, s2) ←
    check_accounts deeper (weight_threshold auth) (account_auths auth) total_weight s1;
  if (returned : bool) then Ok (true, s2)
  else Ok (total_weight >=? weight_threshold auth, s2).

(** [check_authority(auth)] *)
Definition check_authority (auth : authority) (s : sign_state) : result (bool * sign_state) :=
  check_authority_depth (max_recursion s) auth s.

(** [check_authority(id)] *)
Definition check_authority_id (id : string) (s : sign_state) : result (bool * sign_state) :=
  match fm_find id (approved_by s) with
  | Some _ => Ok (true, s <| approved_by ::= fm_set id true |>)
  | None => auth ← get_active s id; check_authority auth s
  end.

(** [remove_unused_signatures] *)
Definition remove_unused_signatures (s : sign_state) : bool * sign_state :=
  let unused := (filter (fun sig => negb (snd sig)) (provided_signatures s)).*1 in
  let used := (filter (fun sig => Is_true (snd sig)) (provided_signatures s)).*1 in
  let s' := s <| used_signatures := used |> <| unused_signatures := unused |>
              <| provided_signatures ::= fun m => fold_left (fun acc k => fm_erase k acc) unused m |> in
  (negb (Nat.eqb (length unused) 0), s').

(** [filter_unused_approvals] *)
Definition filter_unused_approvals (s : sign_state) : bool * sign_state :=
  let unused := (filter (fun a => negb (snd a)) (approved_by s)).*1 in
  (negb (Nat.eqb (length unused) 0), s <| unused_approvals := unused |>).

(** ** Specification *)

Definition weights {K : Type} (l : flat_map K Z) : Z := foldr (fun item acc => snd item + acc) 0 l.

(** Weights are [uint16_t], the threshold is [uint32_t]. *)
Definition authority_wf (a : authority) : Prop :=
  0 <= weight_threshold a /\ Forall (fun item => 0 <= snd item < 2 ^ 16) (key_auths a) /\
  Forall (fun item => 0 <= snd item < 2 ^ 16) (account_auths a).

(** One unfolding of the recursion. *)
Lemma check_authority_depth_eq n auth s :
  check_authority_depth n auth s =
    let '(returned, total_weight, s1) := check_keys (weight_threshold auth) (key_auths auth) 0 s in
    if (returned : bool) then Ok (true, s1) else
    '(returned, total_weight, s2) ←
      check_accounts (match n with O => None | S r => Some (check_authority_depth r) end)
        (weight_threshold auth) (account_auths auth) total_weight s1;
    if (returned : bool) then Ok (true, s2)
    else Ok (total_weight >=? weight_threshold auth, s2).
Proof. by destruct n. Qed.

Section Spec.
(** [vouch a au]: satisfying authority [au] counts as approval by account [a];
    [signed k]: key [k] has signed; [approved a]: account [a] approves outright. *)
Variable vouch : string -> authority -> Prop.
Variable signed : Z -> Prop.
Variable approved : string -> Prop.

Inductive authorized : authority -> Prop :=
| authorized_intro auth keys accounts :
    keys `sublist_of` key_auths auth -> accounts `sublist_of` account_auths auth ->
    Forall (fun item => signed (fst item)) keys ->
    Forall (fun item => approved (fst item) \/ exists au, vouch (fst item) au /\ authorized au) accounts ->
    weight_threshold auth <= weights keys + weights accounts ->
    authorized auth.

(** An account that approves, outright or through an authority. *)
Definition account_approves (a : string) : Prop :=
  approved a \/ exists au, vouch a au /\ authorized au.

(** The state is one whose marks are justified: every key it can use has signed,
    every account it lists as approving does approve, and its getter only returns
    authorities that count. *)
Record justified (s : sign_state) : Prop := {
  justified_provided : forall k b, fm_find k (provided_signatures s) = Some b -> signed k;
  justified_available : forall k, fs_mem k (available_keys s) = true -> signed k;
  justified_approved : forall a b, fm_find a (approved_by s) = Some b -> account_approves a;
  justified_getter : forall a au, get_active s a = Ok au -> vouch a au /\ authority_wf au
}.

Lemma weights_nonneg {K : Type} (l : flat_map K Z) :
  Forall (fun item => 0 <= snd item < 2 ^ 16) l -> 0 <= weights l.
Proof. induction 1; unfold weights in *; cbn; lia. Qed.

Lemma add_wrap_le total w : 0 <= total -> 0 <= w -> 0 <= to_uint32_wrap (total + w) <= total + w.
Proof.
  intros Ht Hw. unfold to_uint32_wrap. split; [apply Z.mod_pos_bound; lia | apply Z.mod_le; lia].
Qed.

Lemma signed_by_justified k s b s' :
  signed_by k s = (b, s') -> justified s -> justified s' /\ (b = true -> signed k).
Proof.
  intros H Hj. unfold signed_by in H.
  assert (signed k -> justified (s <| provided_signatures ::= fm_set k true |>)) as Hset.
  { intros Hk. split; cbn; try apply Hj. intros k' b' Hfind.
    destruct (decide (k = k')) as [<- | Hne]; [done|].
    rewrite fm_find_set_ne in Hfind by done. by eapply (justified_provided s). }
  destruct (fm_find k (provided_signatures s)) as [x|] eqn:Ek.
  - pose proof (justified_provided s Hj k x Ek). injection H as <- <-. auto.
  - destruct (fs_mem k (available_keys s)) eqn:Em; injection H as <- <-; [|done].
    pose proof (justified_available s Hj k Em). auto.
Qed.

Lemma approve_justified a s :
  account_approves a -> justified s -> justified (s <| approved_by ::= fm_set a true |>).
Proof.
  intros Ha Hj. split; cbn; try apply Hj. intros a' b' Hfind.
  destruct (decide (a = a')) as [<- | Hne]; [done|].
  rewrite fm_find_set_ne in Hfind by done. by eapply (justified_approved s).
Qed.

(** The loop over the keys collects the weight of signed keys. *)
Lemma check_keys_justified threshold l total s r total' s' :
  check_keys threshold l total s = (r, total', s') -> justified s ->
  0 <= total -> Forall (fun item => 0 <= snd item < 2 ^ 16) l ->
  justified s' /\ 0 <= total' /\ (r = true -> threshold <= total') /\
  exists keys, keys `sublist_of` l /\ Forall (fun item => signed (fst item)) keys /\
    total' <= total + weights keys.
Proof.
  revert total s. induction l as [| [k w] l IH]; intros total s H Hj Ht Hl; cbn in H.
  - injection H as <- <- <-. split_and!; [done | done | done |]. exists [].
    split_and!; [constructor | constructor | cbn; lia].
  - apply Forall_cons in Hl as [Hw Hl]. cbn in Hw.
    destruct (signed_by k s) as [b s1] eqn:Es.
    destruct (signed_by_justified _ _ _ _ Es Hj) as [Hj1 Hk]. destruct b.
    + pose proof (add_wrap_le total w ltac:(lia) ltac:(lia)) as Hwrap.
      destruct (Z.geb_spec (to_uint32_wrap (total + w)) threshold).
      * injection H as <- <- <-. split_and!; [done | lia | lia |]. exists [(k, w)].
        split_and!; [by apply sublist_skip, sublist_nil_l | by repeat constructor; auto | cbn; lia].
      * destruct (IH _ _ H Hj1 ltac:(lia) Hl) as (? & ? & ? & keys & ? & ? & ?).
        split_and!; [done.. |]. exists ((k, w) :: keys).
        split_and!; [by apply sublist_skip | constructor; auto | unfold weights in *; cbn; lia].
    + destruct (IH _ _ H Hj1 Ht Hl) as (? & ? & ? & keys & ? & ? & ?).
      split_and!; [done.. |]. exists keys. split_and!; [by apply sublist_cons | done | done].
Qed.

Definition sound_check (check : authority -> sign_state -> result (bool * sign_state)) : Prop :=
  forall auth s b s', check auth s = Ok (b, s') -> justified s -> authority_wf auth ->
    justified s' /\ (b = true -> authorized auth).

Lemma check_accounts_justified deeper threshold l total s r total' s' :
  (forall check, deeper = Some check -> sound_check check) ->
  check_accounts deeper threshold l total s = Ok (r, total', s') -> justified s ->
  0 <= total -> Forall (fun item => 0 <= snd item < 2 ^ 16) l ->
  justified s' /\ 0 <= total' /\ (r = true -> threshold <= total') /\
  exists accounts, accounts `sublist_of` l /\ Forall (fun item => account_approves (fst item)) accounts /\
    total' <= total + weights accounts.
Proof.
  intros Hdeep. revert total s.
  induction l as [| [a w] l IH]; intros total s H Hj Ht Hl; cbn in H.
  { inv_ok. split_and!; [done | done | done |]. exists [].
    split_and!; [constructor | constructor | cbn; lia]. }
  apply Forall_cons in Hl as [Hw Hl]. cbn in Hw.
  pose proof (add_wrap_le total w ltac:(lia) ltac:(lia)) as Hwrap.
  assert (forall s1, justified s1 -> account_approves a ->
    (if to_uint32_wrap (total + w) >=? threshold then Ok (true, to_uint32_wrap (total + w), s1)
     else check_accounts deeper threshold l (to_uint32_wrap (total + w)) s1) = Ok (r, total', s') ->
    justified s' /\ 0 <= total' /\ (r = true -> threshold <= total') /\
    exists accounts, accounts `sublist_of` ((a, w) :: l) /\
      Forall (fun item => account_approves (fst item)) accounts /\ total' <= total + weights accounts)
    as Hcount.
  { intros s1 Hj1 Ha H1. destruct (Z.geb_spec (to_uint32_wrap (total + w)) threshold).
    - inv_ok. split_and!; [done | lia | lia |]. exists [(a, w)].
      split_and!; [by apply sublist_skip, sublist_nil_l | by apply Forall_singleton | cbn; lia].
    - destruct (IH _ _ H1 Hj1 ltac:(lia) Hl) as (? & ? & ? & accounts & ? & ? & ?).
      split_and!; [done.. |]. exists ((a, w) :: accounts).
      split_and!; [by apply sublist_skip | by constructor | unfold weights in *; cbn; lia]. }
  assert (forall s1, justified s1 -> check_accounts deeper threshold l total s1 = Ok (r, total', s') ->
    justified s' /\ 0 <= total' /\ (r = true -> threshold <= total') /\
    exists accounts, accounts `sublist_of` ((a, w) :: l) /\
      Forall (fun item => account_approves (fst item)) accounts /\ total' <= total + weights accounts)
    as Hskip.
  { intros s1 Hj1 H1. destruct (IH _ _ H1 Hj1 Ht Hl) as (? & ? & ? & accounts & ? & ? & ?).
    split_and!; [done.. |]. exists accounts. split_and!; [by apply sublist_cons | done | done]. }
  destruct (fm_find a (approved_by s)) as [x|] eqn:Ea.
  { apply (Hcount s Hj); [by eapply (justified_approved s) | exact H]. }
  destruct deeper as [check|]; [|by apply (Hskip s Hj)].
  inv_ok. destruct a1 as [ok s1]. destruct (justified_getter s Hj _ _ Hrun) as [Hv Hwf].
  destruct (Hdeep check eq_refl _ _ _ _ Hrun0 Hj Hwf) as [Hj1 Hok]. destruct ok.
  - apply (Hcount (s1 <| approved_by ::= fm_set a true |>)); [| |exact H].
    + apply approve_justified; [right; eauto | done].
    + right. eauto.
  - by apply (Hskip s1 Hj1).
Qed.

Lemma check_authority_depth_sound n : sound_check (check_authority_depth n).
Proof.
  induction n as [n IHn] using lt_wf_ind. intros auth s b s' H Hj (Hthr & Hkeys & Haccs).
  rewrite check_authority_depth_eq in H.
  destruct (check_keys _ _ 0 s) as [[r total] s1] eqn:Ek.
  destruct (check_keys_justified _ _ _ _ _ _ _ Ek Hj ltac:(lia) Hkeys)
    as (Hj1 & Ht & Hr & keys & Hsub & Hsig & Hle).
  destruct r.
  { inv_ok. split; [done|]. intros _. apply (authorized_intro auth keys []);
      [done | apply sublist_nil_l | done | constructor | specialize (Hr eq_refl); cbn; lia]. }
  inv_ok. destruct a as [[r2 total2] s2].
  assert (forall check, match n with O => None | S r => Some (check_authority_depth r) end = Some check ->
    sound_check check) as Hdeep.
  { intros check Hc. destruct n; [discriminate | injection Hc as <-; apply IHn; lia]. }
  destruct (check_accounts_justified _ _ _ _ _ _ _ _ Hdeep Hrun Hj1 Ht Haccs)
    as (Hj2 & Ht2 & Hr2 & accounts & Hsub2 & Happ & Hle2).
  assert (weight_threshold auth <= total2 -> authorized auth) as Hauth.
  { intros Hge. apply (authorized_intro auth keys accounts); [done..|lia]. }
  destruct r2; inv_ok.
  - split; [done|]. auto.
  - split; [done|]. intros Hge. bool_to_prop. auto.
Qed.

(** [check_authority] on an authority or on an account *)
Lemma check_authority_sound auth s b s' :
  check_authority auth s = Ok (b, s') -> justified s -> authority_wf auth ->
  justified s' /\ (b = true -> authorized auth).
Proof. apply check_authority_depth_sound. Qed.

Lemma check_authority_id_sound id s b s' :
  check_authority_id id s = Ok (b, s') -> justified s ->
  justified s' /\ (b = true -> account_approves id).
Proof.
  unfold check_authority_id. intros H Hj.
  destruct (fm_find id (approved_by s)) as [x|] eqn:E; inv_ok.
  - pose proof (justified_approved s Hj _ _ E). split; [by apply approve_justified | done].
  - destruct (justified_getter s Hj _ _ Hrun) as [Hv Hwf].
    destruct (check_authority_sound _ _ _ _ H Hj Hwf) as [Hj' Hb].
    split; [done|]. intros ->. right. eauto.
Qed.

End Spec.

(** ** Completeness

    What the bounded search must find: the weights of all signed keys and of all
    accounts that approve within the remaining depth. *)

Definition weight_of {K : Type} (p : K -> bool) (l : flat_map K Z) : Z :=
  foldr (fun item acc => (if p (fst item) then snd item else 0) + acc) 0 l.

Section Complete.
Variable getter : authority_getter.
Variable signed : Z -> bool.
Variable approved : string -> bool.

Fixpoint reaches (n : nat) (auth : authority) : bool :=
  weight_threshold auth <=?
    weight_of signed (key_auths auth) +
    weight_of
      (fun a => approved a ||
         match n with
         | O => false
         | S m => match getter a with Ok au => reaches m au | Throw _ => false end
         end) (account_auths auth).

(** The state offers every signature and approval, and reads authorities from [getter]. *)
Record covers (s : sign_state) : Prop := {
  covers_signed : forall k, signed k = true ->
    is_Some (fm_find k (provided_signatures s)) \/ fs_mem k (available_keys s) = true;
  covers_approved : forall a, approved a = true -> is_Some (fm_find a (approved_by s));
  covers_getter : forall a, get_active s a = getter a
}.

(** The sum of all the weights fits in 32 bits. *)
Definition authority_small (a : authority) : Prop :=
  authority_wf a /\ weights (key_auths a) + weights (account_auths a) < 2 ^ 32.

Hypothesis getter_small : forall a au, getter a = Ok au -> authority_small au.

Lemma fm_find_set_is_Some {K V : Type} `{KeyOrder K} (k k' : K) (v : V) m :
  is_Some (fm_find k' m) -> is_Some (fm_find k' (fm_set k v m)).
Proof.
  intros Hk. destruct (key_compare_dec k k') as [[-> _] | [Hne _]].
  - rewrite fm_find_set_eq. eauto.
  - by rewrite fm_find_set_ne.
Qed.

Lemma signed_by_covers k s b s' :
  signed_by k s = (b, s') -> covers s -> covers s' /\ (signed k = true -> b = true).
Proof.
  intros H Hc. unfold signed_by in H.
  assert (covers (s <| provided_signatures ::= fm_set k true |>)) as Hset.
  { split; cbn; try apply Hc. intros k' Hk'.
    destruct (covers_signed s Hc k' Hk'); [left; by apply fm_find_set_is_Some | by right]. }
  destruct (fm_find k (provided_signatures s)) as [x|] eqn:Ek; [by injection H as <- <-|].
  destruct (fs_mem k (available_keys s)) eqn:Em; injection H as <- <-; [done|].
  split; [done|]. intros Hk. destruct (covers_signed s Hc k Hk) as [[? E] | E]; congruence.
Qed.

Lemma check_keys_complete threshold l total s r total' s' :
  check_keys threshold l total s = (r, total', s') -> covers s ->
  0 <= total -> Forall (fun item => 0 <= snd item < 2 ^ 16) l -> total + weights l < 2 ^ 32 ->
  covers s' /\ (r = true \/ total + weight_of signed l <= total') /\ 0 <= total' <= total + weights l.
Proof.
  revert total s. induction l as [| [k w] l IH]; intros total s H Hc Ht Hl Hfit; cbn in H.
  - injection H as <- <- <-. unfold weight_of, weights in *. cbn in *. split_and!; [done | lia.. ].
  - apply Forall_cons in Hl as [Hw Hl]. cbn in Hw. pose proof (weights_nonneg l Hl).
    unfold weight_of, weights in *. cbn in Hfit |- *.
    destruct (signed_by k s) as [b s1] eqn:Es.
    destruct (signed_by_covers _ _ _ _ Es Hc) as [Hc1 Hk]. destruct b.
    + unfold to_uint32_wrap in H. rewrite Z.mod_small in H by lia.
      destruct (Z.geb_spec (total + w) threshold).
      * injection H as <- <- <-. split_and!; [done | auto | lia.. ].
      * destruct (IH _ _ H Hc1 ltac:(lia) Hl ltac:(lia)) as (? & ? & ?).
        split_and!; [done | | lia.. ]. destruct (signed k); intuition lia.
    + destruct (IH _ _ H Hc1 Ht Hl ltac:(lia)) as (? & ? & ?).
      split_and!; [done | | lia.. ]. destruct (signed k); [discriminate (Hk eq_refl) | intuition lia].
Qed.

Definition complete_check (n : nat) (check : authority -> sign_state -> result (bool * sign_state)) : Prop :=
  forall auth s, covers s -> authority_small auth ->
    match check auth s with
    | Ok (b, s') => covers s' /\ (reaches n auth = true -> b = true)
    | Throw e => exists a, getter a = Throw e
    end.

Definition complete_deeper (n : nat)
    (deeper : option (authority -> sign_state -> result (bool * sign_state))) : Prop :=
  match n, deeper with
  | O, None => True
  | S m, Some check => complete_check m check
  | _, _ => False
  end.

Definition approves_within (n : nat) (a : string) : bool :=
  approved a ||
  match n with
  | O => false
  | S m => match getter a with Ok au => reaches m au | Throw _ => false end
  end.

Lemma check_accounts_complete n deeper threshold l total s :
  complete_deeper n deeper -> covers s ->
  0 <= total -> Forall (fun item => 0 <= snd item < 2 ^ 16) l -> total + weights l < 2 ^ 32 ->
  match check_accounts deeper threshold l total s with
  | Ok (r, total', s') => covers s' /\ (r = true \/ total + weight_of (approves_within n) l <= total')
  | Throw e => exists a, getter a = Throw e
  end.
Proof.
  intros Hdeep. revert total s.
  induction l as [| [a w] l IH]; intros total s Hc Ht Hl Hfit; cbn [check_accounts].
  { split; [done|]. right. unfold weight_of. cbn. lia. }
  apply Forall_cons in Hl as [Hw Hl]. cbn in Hw. pose proof (weights_nonneg l Hl).
  assert (total + (w + weights l) < 2 ^ 32) as Hfit' by (unfold weights in *; exact Hfit).
  change (weight_of (approves_within n) ((a, w) :: l))
    with ((if approves_within n a then w else 0) + weight_of (approves_within n) l).
  assert (forall s1, covers s1 ->
    match (if to_uint32_wrap (total + w) >=? threshold then Ok (true, to_uint32_wrap (total + w), s1)
           else check_accounts deeper threshold l (to_uint32_wrap (total + w)) s1) with
    | Ok (r, total', s') => covers s' /\ (r = true \/
        total + ((if approves_within n a then w else 0) + weight_of (approves_within n) l) <= total')
    | Throw e => exists a, getter a = Throw e
    end) as Hcount.
  { intros s1 Hc1. unfold to_uint32_wrap. rewrite Z.mod_small by lia.
    destruct (Z.geb_spec (total + w) threshold); [by auto|].
    specialize (IH (total + w) s1 Hc1 ltac:(lia) Hl ltac:(lia)).
    destruct (check_accounts deeper threshold l (total + w) s1) as [[[r t'] s']|e]; [|done].
    destruct IH as [? IH]. split; [done|]. destruct (approves_within n a); intuition lia. }
  assert (forall s1, covers s1 -> approves_within n a = false ->
    match check_accounts deeper threshold l total s1 with
    | Ok (r, total', s') => covers s' /\ (r = true \/
        total + ((if approves_within n a then w else 0) + weight_of (approves_within n) l) <= total')
    | Throw e => exists a, getter a = Throw e
    end) as Hskip.
  { intros s1 Hc1 ->. specialize (IH total s1 Hc1 Ht Hl ltac:(lia)).
    destruct (check_accounts deeper threshold l total s1) as [[[r t'] s']|e]; [|done].
    destruct IH as [? IH]. split; [done|]. intuition lia. }
  destruct (fm_find a (approved_by s)) as [x|] eqn:Ea; [by apply Hcount|].
  assert (approved a = false) as Hna.
  { destruct (approved a) eqn:E; [|done]. destruct (covers_approved s Hc a E). congruence. }
  destruct n as [| m], deeper as [check|]; try done.
  - apply Hskip; [done|]. unfold approves_within. by rewrite Hna.
  - rewrite (covers_getter s Hc). destruct (getter a) as [au|e] eqn:Eg; cbn; [|eauto].
    specialize (Hdeep au s Hc (getter_small _ _ Eg)).
    destruct (check au s) as [[ok s1]|e]; cbn; [|done].
    destruct Hdeep as [Hc1 Hok]. destruct ok.
    + apply Hcount. split; cbn; try apply Hc1. intros a' Ha'.
      by apply fm_find_set_is_Some, (covers_approved s1).
    + apply Hskip; [done|]. unfold approves_within. rewrite Hna, Eg. cbn.
      destruct (reaches m au); [discriminate (Hok eq_refl) | done].
Qed.

Lemma check_authority_depth_complete n : complete_check n (check_authority_depth n).
Proof.
  induction n as [n IHn] using lt_wf_ind. intros auth s Hc ((Hthr & Hkeys & Haccs) & Hfit).
  assert (Hdeep : complete_deeper n (match n with O => None | S r => Some (check_authority_depth r) end)).
  { destruct n; cbn; [done | apply IHn; lia]. }
  pose proof (weights_nonneg _ Hkeys). pose proof (weights_nonneg _ Haccs).
  assert (Hreach : reaches n auth = true ->
    weight_threshold auth <= weight_of signed (key_auths auth) +
                             weight_of (approves_within n) (account_auths auth)).
  { destruct n; intros Hr; apply Z.leb_le in Hr; exact Hr. }
  rewrite check_authority_depth_eq.
  destruct (check_keys _ _ 0 s) as [[r total] s1] eqn:Ek.
  destruct (check_keys_complete _ _ _ _ _ _ _ Ek Hc ltac:(lia) Hkeys ltac:(lia)) as (Hc1 & Hr & Ht).
  destruct r; [done|]. destruct Hr as [? | Hr]; [done|].
  pose proof (check_accounts_complete n _ (weight_threshold auth) (account_auths auth) total s1
                Hdeep Hc1 ltac:(lia) Haccs ltac:(lia)) as Hacc.
  destruct (check_accounts _ _ _ total s1) as [[[r2 t2] s2]|e]; cbn; [|done].
  destruct Hacc as [Hc2 Hacc]. destruct r2; cbn; [done|]. destruct Hacc as [? | Hacc]; [done|].
  split; [done|]. intros Hre. specialize (Hreach Hre). rewrite Z.geb_leb. apply Z.leb_le. lia.
Qed.

(** when the signed keys and the accounts approving within the recursion depth
    carry enough weight, [check_authority] accepts, whatever the order of the entries
    and however early the loops stop; the only exception it can raise is one raised
    by reading an authority. *)
Theorem check_authority_complete auth s :
  covers s -> authority_small auth -> reaches (max_recursion s) auth = true ->
  (exists s', check_authority auth s = Ok (true, s')) \/
  (exists a e, getter a = Throw e /\ check_authority auth s = Throw e).
Proof.
  intros Hc Hs Hr. pose proof (check_authority_depth_complete (max_recursion s) auth s Hc Hs) as H.
  unfold check_authority. destruct (check_authority_depth _ _ _) as [[b s']|e].
  - destruct H as [_ Hb]. rewrite (Hb Hr). eauto.
  - destruct H as [a Ha]. eauto.
Qed.

End Complete.

(** Alice's authority needs key 7 and bob; bob's needs key 8. *)
Definition demo_alice : authority := mk_authority 2 [("bob", 1)] [(7, 1)].
Definition demo_getter : authority_getter := fun _ => Ok (mk_authority 1 [] [(8, 1)]).

Lemma check_authority_complete_witness :
  exists s', check_authority demo_alice (sign_state_init [7; 8] demo_getter []) = Ok (true, s').
Proof.
  destruct (check_authority_complete demo_getter (fun k => fs_mem k [7; 8]) (fun _ => false)
    ltac:(intros a au [= <-]; repeat split; repeat constructor; cbn; lia)
    demo_alice (sign_state_init [7; 8] demo_getter [])) as [H | (a & e & H & _)].
  - split; [|done|done]. intros k Hk. apply fs_mem_In in Hk. left. cbn.
    repeat (apply elem_of_cons in Hk as [-> | Hk]; [vm_compute; eauto|]). by apply elem_of_nil in Hk.
  - repeat split; repeat constructor; cbn; lia.
  - vm_compute. reflexivity.
  - exact H.
  - discriminate H.
Defined.
