(* ===== verification/Transaction.v ===== *)
(** * Transactions and their authorities

    [libraries/protocol/transaction.cpp] and [transaction.hpp]: validation of a
    transaction, the authorities its operations require, and [verify_authority],
    which decides whether the signatures (and, for proposals, the collected
    approvals) satisfy them. *)

From S2P Require Import Prelude Exceptions Text Fc Config Asset FlatMap Authority Operations Crypto Validate SignState.

(** [struct transaction] and [struct signed_transaction] *)
Record signed_transaction := mk_signed_transaction {
  ref_block_num : Z;
  ref_block_prefix : Z;
  expiration : Z;
  operations : list operation;
  trx_extensions : extensions_type;
  signatures : list Z
}.

(** The four containers [get_required_authorities] fills. *)
Record required_authorities := mk_required_authorities {
  required_active : flat_set string;
  required_owner : flat_set string;
  required_posting : flat_set string;
  required_other : list authority
}.
#[export] Instance required_authorities_rebuild : Rebuild required_authorities := fun r =>
  mk_required_authorities (required_active r) (required_owner r) (required_posting r) (required_other r).

Definition required_none : required_authorities := mk_required_authorities [] [] [] [].

Definition require_active (a : string) (r : required_authorities) : required_authorities :=
  r <| required_active ::= fs_insert a |>.
Definition require_owner (a : string) (r : required_authorities) : required_authorities :=
  r <| required_owner ::= fs_insert a |>.
Definition require_posting (a : string) (r : required_authorities) : required_authorities :=
  r <| required_posting ::= fs_insert a |>.
Definition require_actives (l : list string) (r : required_authorities) : required_authorities :=
  r <| required_active ::= fs_insert_all l |>.
Definition require_owners (l : list string) (r : required_authorities) : required_authorities :=
  r <| required_owner ::= fs_insert_all l |>.
Definition require_postings (l : list string) (r : required_authorities) : required_authorities :=
  r <| required_posting ::= fs_insert_all l |>.
Definition require_other (l : list authority) (r : required_authorities) : required_authorities :=
  r <| required_other ::= fun o => o ++ l |>.

(** [proposal_update_operation::get_required_authorities]: one authority that
    every listed key must sign *)
Definition proposal_update_key_authority (o : proposal_update_operation) : list authority :=
  let keys := fold_left (fun m k => fm_set k 1 m)
    (proposal_update_key_approvals_to_add o ++ proposal_update_key_approvals_to_remove o) [] in
  if (0 <? length keys)%nat then [mk_authority (Z.of_nat (length keys)) [] keys] else [].

(** [operation_get_required_authorities]: what each structure inserts *)
Definition operation_get_required_authorities (op : operation) (r : required_authorities)
    : required_authorities :=
  match op with
  | op_vote o => require_posting (vote_voter o) r
  | op_comment o => require_posting (comment_author o) r
  | op_transfer o =>
      if negb (symbol (transfer_amount o) =? VESTS_SYMBOL)
      then require_active (transfer_from o) r else require_owner (transfer_from o) r
  | op_transfer_to_vesting o => require_active (transfer_to_vesting_from o) r
  | op_withdraw_vesting o => require_active (withdraw_vesting_account o) r
  | op_limit_order_create o => require_active (limit_order_create_owner o) r
  | op_limit_order_cancel o => require_active (limit_order_cancel_owner o) r
  | op_feed_publish o => require_active (feed_publish_publisher o) r
  | op_convert o => require_active (convert_owner o) r
  | op_account_create o => require_active (account_create_creator o) r
  | op_account_update o =>
      match account_update_owner o with
      | Some _ => require_owner (account_update_account o) r
      | None => require_active (account_update_account o) r
      end
  | op_witness_update o => require_active (witness_update_owner o) r
  | op_account_witness_vote o => require_active (account_witness_vote_account o) r
  | op_account_witness_proxy o => require_active (account_witness_proxy_account o) r
  | op_pow _ => r
  | op_custom o => require_actives (custom_required_auths o) r
  | op_report_over_production _ => r
  | op_delete_comment o => require_posting (delete_comment_author o) r
  | op_custom_json o =>
      require_postings (custom_json_required_posting_auths o)
        (require_actives (custom_json_required_auths o) r)
  | op_comment_options o => require_posting (comment_options_author o) r
  | op_set_withdraw_vesting_route o => require_active (set_withdraw_vesting_route_from_account o) r
  | op_limit_order_create2 o => require_active (limit_order_create2_owner o) r
  | op_challenge_authority o => require_active (challenge_authority_challenger o) r
  | op_prove_authority o =>
      if prove_authority_require_owner o
      then require_owner (prove_authority_challenged o) r
      else require_active (prove_authority_challenged o) r
  | op_request_account_recovery o => require_active (request_account_recovery_recovery_account o) r
  | op_recover_account o =>
      require_other [recover_account_new_owner_authority o; recover_account_recent_owner_authority o] r
  | op_change_recovery_account o => require_owner (change_recovery_account_account_to_recover o) r
  | op_escrow_transfer o => require_active (escrow_transfer_from o) r
  | op_escrow_dispute o => require_active (escrow_dispute_who o) r
  | op_escrow_release o => require_active (escrow_release_who o) r
  | op_pow2 o =>
      match pow2_op_new_owner_key o with
      | None =>
          require_active
            (match pow2_op_work o with
             | work_pow2 w => pow2_input_worker_account (pow2_work_input w)
             | work_equihash_pow w => pow2_input_worker_account (equihash_pow_input w)
             end) r
      | Some k => require_other [mk_authority 1 [] [(k, 1)]] r
      end
  | op_escrow_approve o => require_active (escrow_approve_who o) r
  | op_transfer_to_savings o => require_active (transfer_to_savings_from o) r
  | op_transfer_from_savings o => require_active (transfer_from_savings_from o) r
  | op_cancel_transfer_from_savings o => require_active (cancel_transfer_from_savings_from o) r
  | op_custom_binary o =>
      require_other (custom_binary_required_auths o)
        (require_postings (custom_binary_required_posting_auths o)
           (require_owners (custom_binary_required_owner_auths o)
              (require_actives (custom_binary_required_active_auths o) r)))
  | op_decline_voting_rights o => require_owner (decline_voting_rights_account o) r
  | op_reset_account o => require_active (reset_account_reset_account o) r
  | op_set_reset_account o =>
      if negb (size_of (set_reset_account_current_reset_account o) =? 0)
      then require_owner (set_reset_account_account o) r
      else require_posting (set_reset_account_account o) r
  | op_delegate_vesting_shares o => require_active (delegate_vesting_shares_delegator o) r
  | op_account_create_with_delegation o => require_active (account_create_with_delegation_creator o) r
  | op_account_metadata o => require_posting (account_metadata_account o) r
  | op_proposal_create o => require_active (proposal_create_author o) r
  | op_proposal_update o =>
      require_other (proposal_update_key_authority o)
        (require_postings (proposal_update_posting_approvals_to_add o ++
                           proposal_update_posting_approvals_to_remove o)
           (require_owners (proposal_update_owner_approvals_to_add o ++
                            proposal_update_owner_approvals_to_remove o)
              (require_actives (proposal_update_active_approvals_to_add o ++
                                proposal_update_active_approvals_to_remove o) r)))
  | op_proposal_delete o => require_active (proposal_delete_requester o) r
  | op_chain_properties_update o => require_active (chain_properties_update_owner o) r
  | op_break_free_referral o => require_active (break_free_referral_referral o) r
  | op_delegate_vesting_shares_with_interest o =>
      require_active (delegate_vesting_shares_with_interest_delegator o) r
  | op_reject_vesting_shares_delegation o =>
      require_active (reject_vesting_shares_delegation_delegatee o) r
  | op_transit_to_cyberway o => require_active (transit_to_cyberway_owner o) r
  | _ => r
  end.

(** [transaction::get_required_authorities] *)
Definition get_required_authorities (ops : list operation) : required_authorities :=
  fold_left (fun r op => operation_get_required_authorities op r) ops required_none.

(** ** Verification *)

(** [assert_unused_approvals] *)
Definition assert_unused_approvals (s : sign_state) : result unit :=
  let '(unused, s1) := remove_unused_signatures s in
  if (unused : bool) then Throw (tx_irrelevant_sig (unused_signatures s1)) else
  let '(unused, s2) := filter_unused_approvals s1 in
  if (unused : bool) then Throw (tx_irrelevant_approval (unused_approvals s2)) else Ok tt.

(** [s.approved_by[id] = false] for every [id] *)
Definition add_approvals (ids : flat_set string) (s : sign_state) : sign_state :=
  fold_left (fun st id => st <| approved_by ::= fm_set id false |>) ids s.

(** A short-circuiting disjunction of authority checks. *)
Definition or_check (c : result (bool * sign_state)) (next : sign_state -> result (bool * sign_state))
    : result (bool * sign_state) :=
  '(ok, s) ← c;
  if (ok : bool) then Ok (true, s) else next s.

(** The loops that collect the accounts whose authority is missing. *)
Fixpoint missing_posting (get_active get_owner : authority_getter) (ids : list string)
    (missing : list string) (s : sign_state) : result (list string * sign_state) :=
  match ids with
  | [] => Ok (missing, s)
  | id :: ids' =>
      '(ok, s') ←
        or_check (check_authority_id id s) (fun s1 =>
        or_check (a ← get_active id; check_authority a s1) (fun s2 =>
        o ← get_owner id; check_authority o s2));
      missing_posting get_active get_owner ids' (if (ok : bool) then missing else missing ++ [id]) s'
  end.

Fixpoint missing_other (auths : list authority) (missing : list authority) (s : sign_state)
    : result (list authority * sign_state) :=
  match auths with
  | [] => Ok (missing, s)
  | auth :: auths' =>
      '(ok, s') ← check_authority auth s;
      missing_other auths' (if (ok : bool) then missing else missing ++ [auth]) s'
  end.

Fixpoint missing_active (get_owner : authority_getter) (ids : list string)
    (missing : list string) (s : sign_state) : result (list string * sign_state) :=
  match ids with
  | [] => Ok (missing, s)
  | id :: ids' =>
      '(ok, s') ←
        or_check (check_authority_id id s) (fun s1 => o ← get_owner id; check_authority o s1);
      missing_active get_owner ids' (if (ok : bool) then missing else missing ++ [id]) s'
  end.

Fixpoint missing_owner (get_owner : authority_getter) (owner_approvals : flat_set string)
    (ids : list string) (missing : list string) (s : sign_state) : result (list string * sign_state) :=
  match ids with
  | [] => Ok (missing, s)
  | id :: ids' =>
      '(ok, s') ←
        (if fs_mem id owner_approvals then Ok (true, s)
         else o ← get_owner id; check_authority o s);
      if (ok : bool)
      then missing_owner get_owner owner_approvals ids' missing (s' <| approved_by ::= fm_set id true |>)
      else missing_owner get_owner owner_approvals ids' (missing ++ [id]) s'
  end.

Definition is_nil {A : Type} (l : list A) : bool := match l with [] => true | _ => false end.

(** [golos::protocol::verify_authority] *)
Definition verify_authority (ops : list operation) (sigs : flat_set Z)
    (get_active get_owner get_posting : authority_getter) (max_recursion_depth : nat)
    (active_approvals owner_approvals posting_approvals : flat_set string) : result unit :=
  let r := get_required_authorities ops in
  if negb (is_nil (required_posting r)) then
    check_logic (is_nil (required_active r) && is_nil (required_owner r) && is_nil (required_other r))
      tx_with_both_posting_active_ops ;;
    let s := (sign_state_init sigs get_posting []) <| max_recursion := max_recursion_depth |> in
    let s := add_approvals posting_approvals s in
    '(missing_accounts, s) ← missing_posting get_active get_owner (required_posting r) [] s;
    if negb (is_nil missing_accounts) then
      let '(_, s') := remove_unused_signatures s in
      Throw (tx_missing_posting_auth missing_accounts (used_signatures s'))
    else assert_unused_approvals s
  else
    let s := (sign_state_init sigs get_active []) <| max_recursion := max_recursion_depth |> in
    let s := add_approvals owner_approvals (add_approvals active_approvals s) in
    '(missing_auths, s) ← missing_other (required_other r) [] s;
    if negb (is_nil missing_auths) then Throw tx_missing_other_auth else
    '(missing_accounts, s) ← missing_active get_owner (required_active r) [] s;
    if negb (is_nil missing_accounts) then
      let '(_, s') := remove_unused_signatures s in
      Throw (tx_missing_active_auth missing_accounts (used_signatures s'))
    else
    '(missing_accounts, s) ← missing_owner get_owner owner_approvals (required_owner r) [] s;
    if negb (is_nil missing_accounts) then
      let '(_, s') := remove_unused_signatures s in
      Throw (tx_missing_owner_auth missing_accounts (used_signatures s'))
    else assert_unused_approvals s.

Section SignedTransaction.
Context `{F : fc_ops} `{C : crypto_ops}.

(** [transaction::sig_digest]: a hash of the chain id and the serialised
    transaction, outside the sources. *)
Variable sig_digest : Z -> signed_transaction -> Z.

(** [transaction::validate] *)
Definition transaction_validate (trx : signed_transaction) : result unit :=
  if is_nil (operations trx) then Throw transaction_exception else
  result_for_each
    (fun op => match operation_validate op with
               | Ok _ => Ok tt
               | Throw _ => Throw tx_invalid_operation
               end) (operations trx).

(** [get_signature_keys] *)
Fixpoint insert_signature_keys (d : Z) (sigs : list Z) (keys : flat_set Z) : result (flat_set Z) :=
  match sigs with
  | [] => Ok keys
  | sig :: sigs' =>
      k ← recover_public_key sig d true;
      if fs_mem k keys then Throw tx_duplicate_sig
      else insert_signature_keys d sigs' (fs_insert k keys)
  end.
Definition get_signature_keys (chain_id : Z) (trx : signed_transaction) : result (flat_set Z) :=
  insert_signature_keys (sig_digest chain_id trx) (signatures trx) [].

(** Checks made for their effect on the state. *)
Fixpoint check_all {A : Type} (check : A -> sign_state -> result (bool * sign_state)) (l : list A)
    (s : sign_state) : result sign_state :=
  match l with
  | [] => Ok s
  | x :: l' => '(_, s') ← check x s; check_all check l' s'
  end.

(** The provided keys that are available, as a set. *)
Definition available_provided (available : flat_set Z) (s : sign_state) : flat_set Z :=
  fold_left (fun acc k => if fs_mem k available then fs_insert k acc else acc)
    (provided_signatures s).*1 [].

(** [get_required_signatures] *)
Definition get_required_signatures (chain_id : Z) (trx : signed_transaction) (available : flat_set Z)
    (get_active get_owner get_posting : authority_getter) (max_recursion_depth : nat) : result (flat_set Z) :=
  let r := get_required_authorities (operations trx) in
  if negb (is_nil (required_posting r)) then
    keys ← get_signature_keys chain_id trx;
    let s := (sign_state_init keys get_posting available) <| max_recursion := max_recursion_depth |> in
    check_logic (is_nil (required_active r) && is_nil (required_owner r)) tx_with_both_posting_active_ops ;;
    s ← check_all check_authority_id (required_posting r) s;
    let '(_, s) := remove_unused_signatures s in
    Ok (available_provided available s)
  else
    keys ← get_signature_keys chain_id trx;
    let s := (sign_state_init keys get_active available) <| max_recursion := max_recursion_depth |> in
    s ← check_all check_authority (required_other r) s;
    s ← check_all (fun owner s => o ← get_owner owner; check_authority o s) (required_owner r) s;
    s ← check_all check_authority_id (required_active r) s;
    let '(_, s) := remove_unused_signatures s in
    Ok (available_provided available s).

(** The exceptions the handlers of [minimize_required_signatures] catch. *)
Definition is_missing_authority (e : exception) : bool :=
  match e with
  | tx_missing_owner_auth _ _ | tx_missing_active_auth _ _
  | tx_missing_posting_auth _ _ | tx_missing_other_auth => true
  | _ => false
  end.

(** [flat_set::erase] *)
Fixpoint fs_erase (k : Z) (s : flat_set Z) : flat_set Z :=
  match s with
  | [] => []
  | k' :: s' => if k =? k' then s' else k' :: fs_erase k s'
  end.

(** The loop of [minimize_required_signatures]: a key stays erased when the
    remaining ones verify. *)
Fixpoint minimize_keys (ops : list operation) (get_active get_owner get_posting : authority_getter)
    (max_recursion : nat) (ks : list Z) (res : flat_set Z) : result (flat_set Z) :=
  match ks with
  | [] => Ok res
  | k :: ks' =>
      let erased := fs_erase k res in
      match verify_authority ops erased get_active get_owner get_posting max_recursion [] [] [] with
      | Ok _ => minimize_keys ops get_active get_owner get_posting max_recursion ks' erased
      | Throw e =>
          if is_missing_authority e
          then minimize_keys ops get_active get_owner get_posting max_recursion ks' (fs_insert k erased)
          else Throw e
      end
  end.

(** [minimize_required_signatures] *)
Definition minimize_required_signatures (chain_id : Z) (trx : signed_transaction) (available : flat_set Z)
    (get_active get_owner get_posting : authority_getter) (max_recursion : nat) : result (flat_set Z) :=
  s ← get_required_signatures chain_id trx available get_active get_owner get_posting max_recursion;
  minimize_keys (operations trx) get_active get_owner get_posting max_recursion s s.

(** [signed_transaction::verify_authority] *)
Definition transaction_verify_authority (chain_id : Z) (trx : signed_transaction)
    (get_active get_owner get_posting : authority_getter) (max_recursion : nat) : result unit :=
  sigs ← get_signature_keys chain_id trx;
  verify_authority (operations trx) sigs get_active get_owner get_posting max_recursion [] [] [].

End SignedTransaction.
