(* ===== verification/TransactionProps.v ===== *)
(** * Soundness of transaction verification

    [verify_authority] accepts only when every authority the operations require is
    satisfied by the signatures and the approvals, in the sense of the inductive
    predicate [authorized]. *)

From S2P Require Import Prelude Exceptions Text Fc Config Asset FlatMap Authority Operations Crypto Validate SignState Transaction.

Definition getter_wf (g : authority_getter) : Prop := forall a au, g a = Ok au -> authority_wf au.

Section Loops.
Variable vouch : string -> authority -> Prop.
Variable signed : Z -> Prop.
Variable approved : string -> Prop.
#[local] Abbreviation justified := (justified vouch signed approved).
#[local] Abbreviation authorized := (authorized vouch signed approved).
#[local] Abbreviation account_approves := (account_approves vouch signed approved).

Lemma or_check_sound (P Q : Prop) c next b s :
  or_check c next = Ok (b, s) ->
  (forall b1 s1, c = Ok (b1, s1) -> justified s1 /\ (b1 = true -> P)) ->
  (forall s1 b2 s2, justified s1 -> next s1 = Ok (b2, s2) -> justified s2 /\ (b2 = true -> Q)) ->
  justified s /\ (b = true -> P \/ Q).
Proof.
  unfold or_check. intros H Hc Hn. destruct c as [[ok s1] | e]; [|discriminate].
  destruct (Hc _ _ eq_refl) as [Hj1 H1]. cbn in H. destruct ok; [injection H as <- <-; auto|].
  destruct (Hn _ _ _ Hj1 H). auto.
Qed.

Lemma check_from_getter (g : authority_getter) id s b s' :
  getter_wf g -> (a ← g id; check_authority a s) = Ok (b, s') -> justified s ->
  justified s' /\ (b = true -> exists au, g id = Ok au /\ authorized au).
Proof.
  intros Hg H Hj. inv_ok.
  destruct (check_authority_sound _ _ _ _ _ _ _ H Hj (Hg _ _ Hrun)). eauto.
Qed.

Lemma missing_posting_sound ga go ids missing s m s' :
  getter_wf ga -> getter_wf go ->
  missing_posting ga go ids missing s = Ok (m, s') -> justified s ->
  justified s' /\ (m = [] -> missing = [] /\
    Forall (fun id => account_approves id \/ (exists au, ga id = Ok au /\ authorized au) \/
                      (exists au, go id = Ok au /\ authorized au)) ids).
Proof.
  intros Hga Hgo. revert missing s.
  induction ids as [| id ids IH]; intros missing s H Hj; cbn in H; inv_ok; [auto|].
  destruct a as [ok s1].
  apply (or_check_sound (account_approves id)
    ((exists au, ga id = Ok au /\ authorized au) \/ (exists au, go id = Ok au /\ authorized au)))
    in Hrun as [Hj1 Hok].
  2:{ intros b1 s2 Hc. by apply (check_authority_id_sound _ _ _ _ _ _ _ Hc). }
  2:{ intros s2 b2 s3 Hj2 Hc. eapply or_check_sound; [exact Hc | |].
      - clear Hc. intros b3 s4 Hc. by apply (check_from_getter ga _ _ _ _ Hga Hc).
      - clear Hc. intros s4 b4 s5 Hj4 Hc. by apply (check_from_getter go _ _ _ _ Hgo Hc). }
  destruct (IH _ _ H Hj1) as [Hj' Hall]. split; [done|]. intros Hm. destruct (Hall Hm) as [Hmiss Hids].
  destruct ok; [|by destruct missing]. split; [done|]. constructor; auto.
Qed.

Lemma missing_other_sound auths missing s m s' :
  Forall authority_wf auths ->
  missing_other auths missing s = Ok (m, s') -> justified s ->
  justified s' /\ (m = [] -> missing = [] /\ Forall authorized auths).
Proof.
  intros Hwf. revert missing s.
  induction Hwf as [| auth auths Ha Hwf IH]; intros missing s H Hj; cbn in H; inv_ok; [auto|].
  destruct a as [ok s1]. destruct (check_authority_sound _ _ _ _ _ _ _ Hrun Hj Ha) as [Hj1 Hok].
  destruct (IH _ _ H Hj1) as [Hj' Hall]. split; [done|]. intros Hm. destruct (Hall Hm) as [Hmiss Hids].
  destruct ok; [|by destruct missing]. split; [done|]. constructor; auto.
Qed.

Lemma missing_active_sound go ids missing s m s' :
  getter_wf go ->
  missing_active go ids missing s = Ok (m, s') -> justified s ->
  justified s' /\ (m = [] -> missing = [] /\
    Forall (fun id => account_approves id \/ (exists au, go id = Ok au /\ authorized au)) ids).
Proof.
  intros Hgo. revert missing s.
  induction ids as [| id ids IH]; intros missing s H Hj; cbn in H; inv_ok; [auto|].
  destruct a as [ok s1].
  apply (or_check_sound (account_approves id) (exists au, go id = Ok au /\ authorized au))
    in Hrun as [Hj1 Hok].
  2:{ intros b1 s2 Hc. by apply (check_authority_id_sound _ _ _ _ _ _ _ Hc). }
  2:{ intros s2 b2 s3 Hj2 Hc. by apply (check_from_getter go _ _ _ _ Hgo Hc). }
  destruct (IH _ _ H Hj1) as [Hj' Hall]. split; [done|]. intros Hm. destruct (Hall Hm) as [Hmiss Hids].
  destruct ok; [|by destruct missing]. split; [done|]. constructor; auto.
Qed.

Lemma missing_owner_sound go approvals ids missing s m s' :
  getter_wf go ->
  (forall id, id ∈ approvals -> approved id) ->
  (forall id au, id ∈ ids -> go id = Ok au -> vouch id au) ->
  missing_owner go approvals ids missing s = Ok (m, s') -> justified s ->
  justified s' /\ (m = [] -> missing = [] /\
    Forall (fun id => id ∈ approvals \/ (exists au, go id = Ok au /\ authorized au)) ids).
Proof.
  intros Hgo Happ. revert missing s.
  induction ids as [| id ids IH]; intros missing s Hv H Hj; cbn in H; inv_ok; [auto|].
  destruct a as [ok s1].
  assert (justified s1 /\ (ok = true -> id ∈ approvals \/ exists au, go id = Ok au /\ authorized au))
    as [Hj1 Hok].
  { destruct (fs_mem id approvals) eqn:Em.
    - inv_ok. apply fs_mem_In in Em. auto.
    - destruct (check_from_getter go _ _ _ _ Hgo Hrun Hj). auto. }
  assert (forall id0 au, id0 ∈ ids -> go id0 = Ok au -> vouch id0 au) as Hv'.
  { intros id0 au Hin. apply Hv. by apply elem_of_cons; right. }
  destruct ok.
  - assert (account_approves id) as Ha.
    { destruct (Hok eq_refl) as [Hin | (au & Hau & Hauth)]; [left; auto | right; exists au].
      split; [|done]. apply Hv; [by apply elem_of_cons; left | done]. }
    destruct (IH missing _ Hv' H (approve_justified _ _ _ _ _ Ha Hj1)) as [Hj' Hall].
    split; [done|]. intros Hm. destruct (Hall Hm) as [Hmiss Hids]. split; [done|]. constructor; auto.
  - destruct (IH _ _ Hv' H Hj1) as [Hj' Hall].
    split; [done|]. intros Hm. destruct (Hall Hm) as [Hmiss _]. by destruct missing.
Qed.

Lemma add_approvals_justified ids s :
  (forall id, id ∈ ids -> approved id) -> justified s -> justified (add_approvals ids s).
Proof.
  unfold add_approvals. revert s. induction ids as [| id ids IH]; intros s Happ Hj; cbn; [done|].
  apply IH; [intros id' Hin; apply Happ; by apply elem_of_cons; right|].
  split; cbn; try apply Hj. intros a b Hfind.
  destruct (decide (id = a)) as [<- | Hne].
  - left. apply Happ. by apply elem_of_cons; left.
  - rewrite fm_find_set_ne in Hfind by done. by eapply justified_approved.
Qed.

Lemma init_provided (sigs : flat_set Z) m k b :
  fm_find k (fold_left (fun m key => fm_set key false m) sigs m) = Some b ->
  k ∈ sigs \/ fm_find k m = Some b.
Proof.
  revert m. induction sigs as [| sig sigs IH]; intros m H; cbn in H; [auto|].
  destruct (IH _ H) as [Hin | Hfind]; [left; by apply elem_of_cons; right|].
  destruct (decide (sig = k)) as [<- | Hne]; [left; by apply elem_of_cons; left|].
  rewrite fm_find_set_ne in Hfind by done. auto.
Qed.

Lemma init_justified sigs g depth :
  (forall k, k ∈ sigs -> signed k) -> approved "temp" ->
  (forall a au, g a = Ok au -> vouch a au /\ authority_wf au) ->
  justified ((sign_state_init sigs g []) <| max_recursion := depth |>).
Proof.
  intros Hs Ht Hg. split; cbn.
  - intros k b H. destruct (init_provided sigs [] k b H) as [Hin | ?]; [auto | done].
  - done.
  - intros a b H. destruct (String.compare a "temp") eqn:E; try done.
    apply String.compare_eq_iff in E as ->. by left.
  - done.
Qed.
End Loops.

(** C29: when [verify_authority] accepts, every requirement of the operations is
    met.  A transaction with posting requirements has no others, and each of its
    accounts approves through its posting, active or owner authority; otherwise every
    listed authority is satisfied, every active account approves through its active or
    owner authority, and every owner account approved as owner or its owner authority is
    satisfied.  Satisfaction is by keys that really signed and by the approvals given,
    through any chain of account authorities. *)
Theorem verify_authority_sound ops sigs get_active get_owner get_posting depth active owner posting :
  getter_wf get_active -> getter_wf get_owner -> getter_wf get_posting ->
  Forall authority_wf (required_other (get_required_authorities ops)) ->
  verify_authority ops sigs get_active get_owner get_posting depth active owner posting = Ok tt ->
  let r := get_required_authorities ops in
  let signed k := k ∈ sigs in
  if is_nil (required_posting r) then
    let approved a := a = "temp" \/ a ∈ active \/ a ∈ owner in
    let vouch a au := get_active a = Ok au \/ (a ∈ required_owner r /\ get_owner a = Ok au) in
    let sat := authorized vouch signed approved in
    Forall sat (required_other r) /\
    Forall (fun id => account_approves vouch signed approved id \/
                      exists au, get_owner id = Ok au /\ sat au) (required_active r) /\
    Forall (fun id => id ∈ owner \/ exists au, get_owner id = Ok au /\ sat au) (required_owner r)
  else
    let approved a := a = "temp" \/ a ∈ posting in
    let vouch a au := get_posting a = Ok au in
    let sat := authorized vouch signed approved in
    required_active r = [] /\ required_owner r = [] /\ required_other r = [] /\
    Forall (fun id => account_approves vouch signed approved id \/
                      (exists au, get_active id = Ok au /\ sat au) \/
                      (exists au, get_owner id = Ok au /\ sat au)) (required_posting r).
Proof.
  intros Hga Hgo Hgp Hother H r signed. unfold verify_authority in H. fold r in H.
  destruct (is_nil (required_posting r)) eqn:Ep; cbn [negb] in H.
  - intros approved vouch sat. inv_ok. destruct a as [mo s1].
    assert (justified vouch signed approved
      (add_approvals owner (add_approvals active
        ((sign_state_init sigs get_active []) <| max_recursion := depth |>)))) as Hj.
    { repeat apply add_approvals_justified; [by right; right | by right; left |].
      apply init_justified; [done | by left |]. intros a au Ha. split; [by left | by eapply Hga]. }
    destruct (missing_other_sound _ _ _ _ _ _ _ _ Hother Hrun Hj) as [Hj1 Ho].
    destruct (is_nil mo) eqn:Emo; [|done]. destruct mo; [|done]. cbn [negb] in H.
    inv_ok. destruct a as [ma s2].
    destruct (missing_active_sound _ _ _ _ _ _ _ _ _ Hgo Hrun0 Hj1) as [Hj2 Ha].
    destruct (is_nil ma) eqn:Ema; [|done]. destruct ma; [|done]. cbn [negb] in H.
    inv_ok. destruct a as [mw s3].
    destruct (missing_owner_sound vouch signed approved _ _ _ _ _ _ _ Hgo
      ltac:(intros; right; by right) ltac:(intros; right; done) Hrun1 Hj2) as [Hj3 Hw].
    destruct (is_nil mw) eqn:Emw; [|done]. destruct mw; [|done].
    split; [by apply Ho | split; [by apply Ha | by apply Hw]].
  - intros approved vouch sat. inv_ok. bool_to_prop. destruct a0 as [mp s1].
    assert (justified vouch signed approved (add_approvals posting
      ((sign_state_init sigs get_posting []) <| max_recursion := depth |>))) as Hj.
    { apply add_approvals_justified; [by right|].
      apply init_justified; [done | by left |]. intros b au Hb. split; [done | by eapply Hgp]. }
    destruct (missing_posting_sound _ _ _ _ _ _ _ _ _ _ Hga Hgo Hrun0 Hj) as [Hj1 Hp].
    destruct (is_nil mp) eqn:Emp; [|done]. destruct mp; [|done].
    destruct (required_active r), (required_owner r), (required_other r); try done.
    split_and!; [done..|]. by apply Hp.
Qed.

Definition demo_owner : authority_getter := fun _ => Ok (mk_authority 1 [] [(9, 1)]).
Definition demo_transfer : operation :=
  op_transfer (mk_transfer "alice" "bob" (mk_asset 5 STEEM_SYMBOL) "").

Lemma demo_getters_wf : getter_wf demo_getter /\ getter_wf demo_owner.
Proof. split; intros a au [= <-]; repeat split; repeat constructor; cbn; lia. Qed.

Lemma verify_authority_sound_witness :
  verify_authority [demo_transfer] [8] demo_getter demo_owner demo_getter 2 [] [] [] = Ok tt /\
  Forall (fun id =>
    account_approves (fun a au => demo_getter a = Ok au \/ (a ∈ [] /\ demo_owner a = Ok au))
      (fun k => k ∈ [8]) (fun a => a = "temp" \/ a ∈ [] \/ a ∈ []) id \/
    exists au, demo_owner id = Ok au /\
      authorized (fun a au => demo_getter a = Ok au \/ (a ∈ [] /\ demo_owner a = Ok au))
        (fun k => k ∈ [8]) (fun a => a = "temp" \/ a ∈ [] \/ a ∈ []) au) ["alice"].
Proof.
  assert (verify_authority [demo_transfer] [8] demo_getter demo_owner demo_getter 2 [] [] [] = Ok tt)
    as H by (vm_compute; reflexivity).
  split; [exact H|]. destruct demo_getters_wf as [Hg Ho].
  apply (proj1 (proj2 (verify_authority_sound [demo_transfer] [8] demo_getter demo_owner demo_getter 2
                         [] [] [] Hg Ho Hg ltac:(constructor) H))).
Defined.
