(* ===== verification/BlockId.v ===== *)
(** * Numbers in block ids

    The id of a block carries the number of the block ([block.cpp]): reading the number
    back from the id gives the number of the block itself, whatever its hash. *)

From S2P Require Import Prelude Exceptions Operations Crypto.

(** The bits of a byte-reversed word *)
Lemma byte_testbit y i n : Z.testbit (Z.land y 255) (i - n) = (n <=? i) && (i <? n + 8) && Z.testbit y (i - n).
Proof.
  destruct (Z.leb_spec n i) as [Hn|Hn]; [|by rewrite Z.testbit_neg_r by lia].
  change 255 with (Z.ones 8). rewrite Z.land_spec, Z.testbit_ones_nonneg by lia.
  replace (i - n <? 8) with (i <? n + 8) by (destruct (Z.ltb_spec i (n + 8)), (Z.ltb_spec (i - n) 8); lia). apply andb_comm.
Qed.

Lemma endian_testbit x i : 0 <= i ->
  Z.testbit (endian_reverse_u32 x) i = (i <? 32) && Z.testbit x (8 * (3 - i / 8) + i mod 8).
Proof.
  intros Hi. unfold endian_reverse_u32. rewrite !Z.lor_spec, !Z.shiftl_spec by lia.
  rewrite <- (Z.sub_0_r i) at 4. rewrite !byte_testbit.
  pose proof (Z.div_mod i 8 ltac:(lia)). pose proof (Z.mod_pos_bound i 8 ltac:(lia)).
  destruct (Z.ltb_spec i 8); [|destruct (Z.ltb_spec i 16); [|destruct (Z.ltb_spec i 24); [|destruct (Z.ltb_spec i 32)]]].
  all: repeat match goal with
    | |- context [?a <=? ?b] => first [rewrite (proj2 (Z.leb_le a b)) by lia | rewrite (proj2 (Z.leb_gt a b)) by lia]
    | |- context [?a <? ?b] => first [rewrite (proj2 (Z.ltb_lt a b)) by lia | rewrite (proj2 (Z.ltb_ge a b)) by lia] end;
    cbn [andb orb]; rewrite ?orb_false_r, ?Z.shiftr_spec by lia; try done; f_equal; lia.
Qed.

Lemma endian_involutive x : 0 <= x < 2 ^ 32 -> endian_reverse_u32 (endian_reverse_u32 x) = x.
Proof.
  intros Hx. apply Z.bits_inj'. intros i Hi. rewrite endian_testbit by done.
  pose proof (Z.div_mod i 8 ltac:(lia)). pose proof (Z.mod_pos_bound i 8 ltac:(lia)).
  destruct (Z.ltb_spec i 32) as [Hi32|Hi32]; cbn [andb].
  - set (k := 8 * (3 - i / 8) + i mod 8). assert (0 <= k < 32) by (unfold k; lia).
    assert (k / 8 = 3 - i / 8) as Hdiv by (symmetry; apply (Z.div_unique k 8 _ (i mod 8)); unfold k; lia).
    assert (k mod 8 = i mod 8) as Hmod by (symmetry; apply (Z.mod_unique k 8 (3 - i / 8)); unfold k; lia).
    rewrite endian_testbit by lia. rewrite Hdiv, Hmod. rewrite (proj2 (Z.ltb_lt k 32)) by lia. cbn [andb]. f_equal. lia.
  - symmetry. destruct (decide (x = 0)) as [-> | Hne]; [apply Z.bits_0|]. apply Z.bits_above_log2; [lia|].
    assert (Z.log2 x < 32) by (apply Z.log2_lt_pow2; lia). lia.
Qed.

Section BlockId.
Context `{C : crypto_ops}.

Lemma block_num_range h : 0 <= block_num h < 2 ^ 32.
Proof. unfold block_num, to_uint32_wrap. apply Z.mod_pos_bound. lia. Qed.

Lemma low_word id w : 0 <= w < 2 ^ 32 ->
  Z.land (Z.land (Z.lor (Z.ldiff id (2 ^ 32 - 1)) w) (2 ^ 160 - 1)) (2 ^ 32 - 1) = w.
Proof.
  intros Hw. apply Z.bits_inj'. intros i Hi. change (2 ^ 32 - 1) with (Z.ones 32). change (2 ^ 160 - 1) with (Z.ones 160).
  rewrite !Z.land_spec, Z.lor_spec, Z.ldiff_spec, !Z.testbit_ones_nonneg by lia.
  destruct (Z.ltb_spec i 32) as [Hi32|Hi32]; cbn.
  - rewrite (proj2 (Z.ltb_lt i 160)) by lia. by rewrite andb_false_r, !andb_true_r.
  - rewrite !andb_false_r. symmetry. destruct (decide (w = 0)) as [-> | Hne]; [apply Z.bits_0|]. apply Z.bits_above_log2; [lia|].
    assert (Z.log2 w < 32) by (apply Z.log2_lt_pow2; lia). lia.
Qed.

Lemma endian_range x : 0 <= endian_reverse_u32 x < 2 ^ 32.
Proof.
  assert (0 <= endian_reverse_u32 x) as Hpos.
  { unfold endian_reverse_u32. rewrite !Z.lor_nonneg, !Z.shiftl_nonneg, !Z.land_nonneg. lia. }
  split; [done|]. destruct (decide (endian_reverse_u32 x = 0)) as [-> | Hne]; [lia|].
  apply Z.log2_lt_pow2; [lia|]. apply Z.nle_gt. intros Hlog.
  pose proof (Z.bit_log2 (endian_reverse_u32 x) ltac:(lia)) as Hbit. rewrite endian_testbit in Hbit by lia.
  rewrite (proj2 (Z.ltb_ge _ 32)) in Hbit by lia. done.
Qed.

Lemma num_from_block_id h : num_from_id (block_id h) = block_num h.
Proof.
  unfold num_from_id, block_id. cbv zeta. rewrite low_word by apply endian_range. apply endian_involutive, block_num_range.
Qed.
End BlockId.
