(* ===== verification/ForkDatabase.v ===== *)
(** * The fork database

    The tree of recent blocks ([fork_database.cpp]).  Items are shared objects: the
    indices and the head hold shared pointers to them and an item refers to the one
    before it by a weak pointer.  The model gives every item an address; following a weak
    pointer finds the item only while an index or the head still holds it.  Items do not
    change once they are in the index. *)

From S2P Require Import Prelude Exceptions Operations FlatMap Authority Crypto SignState Transaction BlockId.

(** [signed_block] *)
Record signed_block := mk_signed_block {
  block_header : signed_block_header;
  block_transactions : list signed_transaction
}.

(** [fork_item] *)
Record fork_item := mk_fork_item {
  item_ptr : Z;
  item_prev : option Z;
  item_num : Z;
  item_invalid : bool;
  item_id : Z;
  item_data : signed_block
}.
Definition previous_id (i : fork_item) : Z := header_previous (block_header (item_data i)).
Definition data_num (i : fork_item) : Z := block_num (block_header (item_data i)).

(** [fork_database]; the unlinked index is never filled: [push_block] rethrows before it
    would insert an item there. *)
Record fork_database := mk_fork_database {
  fork_index : gmap Z fork_item;
  fork_unlinked_index : gmap Z fork_item;
  fork_head : option fork_item;
  fork_max_size : Z;
  fork_next_ptr : Z
}.
#[export] Instance fork_database_rebuild : Rebuild fork_database := fun f =>
  mk_fork_database (fork_index f) (fork_unlinked_index f) (fork_head f) (fork_max_size f) (fork_next_ptr f).

Section ForkDatabase.
Context `{C : crypto_ops}.

(** A new database *)
Definition fork_database_init : fork_database := mk_fork_database ∅ ∅ None 1024 0.

(** [weak_ptr::lock] *)
Definition find_ptr (p : Z) (m : gmap Z fork_item) : option fork_item :=
  head (filter (fun i => item_ptr i = p) (map_to_list m).*2).
Definition lock (p : option Z) (f : fork_database) : option fork_item :=
  match p with
  | None => None
  | Some q =>
      match find_ptr q (fork_index f), find_ptr q (fork_unlinked_index f), fork_head f with
      | Some i, _, _ => Some i
      | None, Some i, _ => Some i
      | None, None, Some h => if item_ptr h =? q then Some h else None
      | None, None, None => None
      end
  end.

(** [make_shared<fork_item>(b)] *)
Definition make_item (p : Z) (b : signed_block) : fork_item := {|
  item_ptr := p; item_prev := None; item_num := block_num (block_header b); item_invalid := false;
  item_id := block_id (block_header b); item_data := b |}.

(** [_index.insert(item)]: the index on the id is unique *)
Definition index_insert (i : fork_item) (m : gmap Z fork_item) : gmap Z fork_item :=
  match m !! item_id i with Some _ => m | None => <[item_id i := i]> m end.

(** [reset] *)
Definition fork_reset (f : fork_database) : fork_database :=
  f <| fork_head := None |> <| fork_index := ∅ |>.

(** [pop_block] *)
Definition fork_pop_block (f : fork_database) : result fork_database :=
  match fork_head f with
  | None => Throw fc_assert_exception
  | Some h =>
      match lock (item_prev h) f with
      | None => Throw fc_assert_exception
      | Some prev => Ok (f <| fork_head := Some prev |>)
      end
  end.

(** [start_block] *)
Definition start_block (b : signed_block) (f : fork_database) : fork_database :=
  let item := make_item (fork_next_ptr f) b in
  f <| fork_next_ptr ::= (fun p => p + 1) |> <| fork_index ::= index_insert item |> <| fork_head := Some item |>.

(** [_push_block]: the link to the block before, then the index and the head *)
Definition link_item (item : fork_item) (f : fork_database) : result fork_item :=
  match fork_head f with
  | Some _ =>
      if negb (previous_id item =? 0) then
        match fork_index f !! previous_id item with
        | None => Throw unlinkable_block_exception
        | Some p => fc_assert (negb (item_invalid p)) ;;
                    Ok (mk_fork_item (item_ptr item) (Some (item_ptr p)) (item_num item) (item_invalid item)
                          (item_id item) (item_data item))
        end
      else Ok item
  | None => Ok item
  end.
Definition insert_item (item : fork_item) (f : fork_database) : fork_database :=
  let f := f <| fork_index ::= index_insert item |> in
  match fork_head f with
  | Some h => if item_num item >? item_num h then f <| fork_head := Some item |> else f
  | None => f <| fork_head := Some item |>
  end.
Definition push_item (item : fork_item) (f : fork_database) : result fork_database :=
  (match fork_head f with
   | Some h => fc_assert (item_num item >? Z.max 0 (item_num h - fork_max_size f))
   | None => Ok tt
   end) ;;
  item ← link_item item f;
  Ok (insert_item item f).

(** [push_block]; returns the head *)
Definition fork_push_block (b : signed_block) (f : fork_database) : result (option fork_item * fork_database) :=
  f' ← push_item (make_item (fork_next_ptr f) b) (f <| fork_next_ptr ::= (fun p => p + 1) |>);
  Ok (fork_head f', f').

(** [set_max_size]: both loops erase from the front of the index by number *)
Definition recent (h : fork_item) (max_size : Z) (i : fork_item) : Prop := Z.max 0 (item_num h - max_size) <= item_num i.
#[export] Instance recent_dec h max_size i : Decision (recent h max_size i).
Proof. unfold recent. apply _. Defined.
Definition set_max_size (s : Z) (f : fork_database) : fork_database :=
  let f := f <| fork_max_size := s |> in
  match fork_head f with
  | None => f
  | Some h =>
      f <| fork_index ::= (fun m => filter (fun kv => recent h s (snd kv)) m) |>
        <| fork_unlinked_index ::= (fun m => filter (fun kv => recent h s (snd kv)) m) |>
  end.

(** [is_known_block], [fetch_block] *)
Definition is_known_block (id : Z) (f : fork_database) : bool :=
  bool_decide (is_Some (fork_index f !! id)) || bool_decide (is_Some (fork_unlinked_index f !! id)).
Definition fetch_block (id : Z) (f : fork_database) : option fork_item :=
  match fork_index f !! id with Some i => Some i | None => fork_unlinked_index f !! id end.

(** [fetch_block_by_number]; equal numbers are in the order of insertion. *)
Definition fetch_block_by_number (num : Z) (f : fork_database) : list fork_item :=
  sort_by (fun i j => item_ptr i <=? item_ptr j) (filter (fun i => item_num i = num) (map_to_list (fork_index f)).*2).

(** The loops of [fetch_branch_from]: one branch down to the height [num], and both down
    to a common previous block.  The number of the block in hand goes down by one in each
    turn. *)
Fixpoint descend (fuel : nat) (f : fork_database) (num : Z) (i : fork_item) : result (list fork_item * fork_item) :=
  if data_num i >? num then
    match fuel with
    | O => Throw fc_assert_exception
    | S n =>
        match lock (item_prev i) f with
        | None => Throw fc_assert_exception
        | Some p => r ← descend n f num p; Ok (i :: fst r, snd r)
        end
    end
  else Ok ([], i).
Fixpoint meet (fuel : nat) (f : fork_database) (i j : fork_item) : result (list fork_item * list fork_item) :=
  if negb (previous_id i =? previous_id j) then
    match fuel with
    | O => Throw fc_assert_exception
    | S n =>
        match lock (item_prev i) f, lock (item_prev j) f with
        | Some p, Some q => r ← meet n f p q; Ok (i :: fst r, j :: snd r)
        | _, _ => Throw fc_assert_exception
        end
    end
  else Ok ([i], [j]).

(** [fetch_branch_from] *)
Definition fetch_branch_from (first second : Z) (f : fork_database) : result (list fork_item * list fork_item) :=
  match fork_index f !! first, fork_index f !! second with
  | Some i, Some j =>
      r1 ← descend (S (Z.to_nat (data_num i))) f (data_num j) i;
      r2 ← descend (S (Z.to_nat (data_num j))) f (data_num (snd r1)) j;
      r ← meet (S (Z.to_nat (data_num i))) f (snd r1) (snd r2);
      Ok (fst r1 ++ fst r, fst r2 ++ snd r)
  | _, _ => Throw fc_assert_exception
  end.

(** [walk_main_branch_to_num]; [head()] must not be empty *)
Fixpoint walk_down (fuel : nat) (f : fork_database) (num : Z) (i : fork_item) : option fork_item :=
  if item_num i >? num then
    match fuel with
    | O => None
    | S n => match lock (item_prev i) f with Some p => walk_down n f num p | None => None end
    end
  else Some i.
Definition walk_main_branch_to_num (num : Z) (f : fork_database) : option fork_item :=
  match fork_head f with
  | None => None
  | Some h => if num >? item_num h then None else walk_down (S (Z.to_nat (item_num h))) f num h
  end.

(** [fetch_block_on_main_branch_by_number] *)
Definition fetch_block_on_main_branch_by_number (num : Z) (f : fork_database) : option fork_item :=
  match fetch_block_by_number num f with
  | [b] => Some b
  | [] => None
  | _ => walk_main_branch_to_num num f
  end.

(** [set_head], [remove] *)
Definition set_head (h : option fork_item) (f : fork_database) : fork_database := f <| fork_head := h |>.
Definition fork_remove (id : Z) (f : fork_database) : fork_database := f <| fork_index ::= delete id |>.
End ForkDatabase.

(** ** Well-formed databases *)

Section Wf.
Context `{C : crypto_ops}.

(** The items that something holds *)
Definition held (f : fork_database) (i : fork_item) : Prop :=
  (exists id, fork_index f !! id = Some i) \/ fork_head f = Some i.

(** What an item says of its block; the numbers of blocks start at 1. *)
Definition item_ok (i : fork_item) : Prop :=
  item_id i = block_id (block_header (item_data i)) /\ item_num i = data_num i /\ 0 < data_num i.

Record fork_wf (f : fork_database) : Prop := {
  fork_keyed : map_Forall (fun id i => item_id i = id) (fork_index f);
  fork_unlinked_empty : fork_unlinked_index f = ∅;
  fork_items : forall i, held f i -> item_ok i /\ item_ptr i < fork_next_ptr f;
  fork_ptrs : forall i j, held f i -> held f j -> item_ptr i = item_ptr j -> i = j;
  fork_prev_ok : forall i p, held f i -> item_prev i = Some p ->
    p < fork_next_ptr f /\ forall j, held f j -> item_ptr j = p -> item_id j = previous_id i
}.

Lemma find_ptr_Some p m i : find_ptr p m = Some i -> (exists id, m !! id = Some i) /\ item_ptr i = p.
Proof.
  unfold find_ptr. intros H%head_Some_elem_of. apply list_elem_of_filter in H as [Hp ([id i'] & -> & Hin)%list_elem_of_fmap].
  apply elem_of_map_to_list in Hin. eauto.
Qed.
Lemma find_ptr_None p m : find_ptr p m = None -> forall id i, m !! id = Some i -> item_ptr i <> p.
Proof.
  unfold find_ptr. rewrite head_None. intros H id i Hi <-.
  assert (i ∈ filter (fun j => item_ptr j = item_ptr i) (map_to_list m).*2) as Hin; [|rewrite H in Hin; by apply not_elem_of_nil in Hin].
  apply list_elem_of_filter. split; [done|]. apply list_elem_of_fmap. exists (id, i). split; [done|]. by apply elem_of_map_to_list.
Qed.

(** A weak pointer leads to the item with its address, if something holds it. *)
Lemma lock_held p f i : fork_wf f -> lock (Some p) f = Some i <-> held f i /\ item_ptr i = p.
Proof.
  intros Hwf. unfold lock. rewrite (fork_unlinked_empty _ Hwf). replace (find_ptr p ∅) with (@None fork_item) by done.
  destruct (find_ptr p (fork_index f)) as [j|] eqn:Hj.
  - apply find_ptr_Some in Hj as [Hin Hp]. split; [intros [= <-]; split; [by left | done]|].
    intros [Hi Hpi]. f_equal. apply (fork_ptrs _ Hwf); [by left | done | congruence].
  - pose proof (find_ptr_None _ _ Hj) as Hnone. split.
    + destruct (fork_head f) as [h|] eqn:Hh; [|done]. destruct (Z.eqb_spec (item_ptr h) p); [|done]. intros [= <-]. split; [by right | done].
    + intros [[[id Hid] | ->] Hp]; [by apply Hnone in Hid|]. by rewrite Hp, Z.eqb_refl.
Qed.

Lemma lock_previous f i j : fork_wf f -> held f i -> lock (item_prev i) f = Some j -> held f j /\ item_id j = previous_id i.
Proof.
  intros Hwf Hi Hl. destruct (item_prev i) as [p|] eqn:Hp; [|done]. apply lock_held in Hl as [Hj Hpj]; [|done].
  split; [done|]. by eapply (proj2 (fork_prev_ok _ Hwf i p Hi Hp)).
Qed.

(** The number of the item before *)
Lemma previous_num i j : item_ok j -> item_id j = previous_id i -> data_num i = to_uint32_wrap (data_num j + 1).
Proof.
  intros [Hid _] E. unfold data_num at 1, block_num. unfold previous_id in E. rewrite <- E, Hid, num_from_block_id. done.
Qed.
Lemma lock_num f i j : fork_wf f -> held f i -> lock (item_prev i) f = Some j -> data_num j = data_num i - 1.
Proof.
  intros Hwf Hi Hl. destruct (fork_items _ Hwf i Hi) as [(_ & _ & Hpos) _]. destruct (lock_previous f i j Hwf Hi Hl) as [Hj E].
  destruct (fork_items _ Hwf j Hj) as [Hok _]. pose proof (previous_num i j Hok E) as Hn. unfold to_uint32_wrap in Hn.
  pose proof (block_num_range (block_header (item_data j))) as Hr. fold (data_num j) in Hr.
  destruct (decide (data_num j + 1 = 2 ^ 32)) as [E32|]; [rewrite E32, Z.mod_same in Hn; lia|]. rewrite Z.mod_small in Hn; lia.
Qed.

(** *** Every operation keeps a database well formed *)

Lemma wf_init : fork_wf fork_database_init.
Proof.
  split; [apply map_Forall_empty | done | | |].
  all: unfold held; cbn; setoid_rewrite lookup_empty; naive_solver.
Qed.

(** Fewer items are held *)
Lemma wf_fewer f f' : fork_wf f -> fork_unlinked_index f' = ∅ -> fork_next_ptr f' = fork_next_ptr f ->
  map_Forall (fun id i => item_id i = id) (fork_index f') -> (forall i, held f' i -> held f i) -> fork_wf f'.
Proof.
  intros [Hk Hu Hi Hp Hpr] Hu' Hn Hk' Hsub. split; [done | done | | |].
  - intros i Hh. rewrite Hn. by apply Hi, Hsub.
  - intros i j H1 H2. apply Hp; by apply Hsub.
  - intros i p Hh Ep. rewrite Hn. destruct (Hpr i p (Hsub _ Hh) Ep) as [Hlt Hj]. split; [done|]. intros j Hj'. by apply Hj, Hsub.
Qed.

Lemma fork_reset_wf f : fork_wf f -> fork_wf (fork_reset f).
Proof.
  intros Hwf. eapply wf_fewer; [done | apply Hwf | done | apply map_Forall_empty |].
  unfold held. cbn. setoid_rewrite lookup_empty. naive_solver.
Qed.
Lemma fork_pop_block_wf f f' : fork_wf f -> fork_pop_block f = Ok f' -> fork_wf f'.
Proof.
  unfold fork_pop_block. intros Hwf H. destruct (fork_head f) as [h|] eqn:Hh; [|done].
  destruct (lock (item_prev h) f) as [prev|] eqn:Hl; [|done]. injection H as <-.
  destruct (lock_previous f h prev Hwf ltac:(by right) Hl) as [Hprev _].
  eapply wf_fewer; [done | apply Hwf | done | apply Hwf |]. intros i [Hi | [= <-]]; [by left | done].
Qed.
Lemma set_head_wf f h : fork_wf f -> held f h -> fork_wf (set_head (Some h) f).
Proof. intros Hwf Hh. eapply wf_fewer; [done | apply Hwf | done | apply Hwf |]. intros i [Hi | [= <-]]; [by left | done]. Qed.
Lemma fork_remove_wf f id : fork_wf f -> fork_wf (fork_remove id f).
Proof.
  intros Hwf. eapply wf_fewer; [done | apply Hwf | done | by apply map_Forall_delete, Hwf |].
  intros i [[k Hk] | Hi]; [|by right]. cbn in Hk. apply lookup_delete_Some in Hk as [_ Hk]. left. eauto.
Qed.
Lemma set_max_size_wf f s : fork_wf f -> fork_wf (set_max_size s f).
Proof.
  intros Hwf. unfold set_max_size. cbn. destruct (fork_head f) as [h|] eqn:Hh.
  - eapply wf_fewer; [done | cbn; by rewrite (fork_unlinked_empty _ Hwf) | done | |].
    + cbn. intros k i [Hi _]%map_lookup_filter_Some. by apply (fork_keyed _ Hwf).
    + intros i [[k Hk] | Hi]; [|right; cbn in *; congruence]. cbn in Hk. apply map_lookup_filter_Some in Hk as [Hk _]. left. eauto.
  - eapply wf_fewer; [done | apply Hwf | done | apply Hwf |]. intros i [Hi | Hi]; [by left | by right].
Qed.
(** A new item *)
Lemma wf_new_item f item h : fork_wf f -> fork_unlinked_index f = ∅ -> item_ok item -> item_ptr item = fork_next_ptr f ->
  (forall p, item_prev item = Some p -> exists j, held f j /\ item_ptr j = p /\ item_id j = previous_id item) ->
  (h = Some item \/ h = fork_head f) ->
  fork_wf (mk_fork_database (index_insert item (fork_index f)) ∅ h (fork_max_size f) (fork_next_ptr f + 1)).
Proof.
  intros Hwf Hu Hok Hptr Hprev Hh. set (f' := mk_fork_database _ _ _ _ _).
  assert (forall i, held f' i -> held f i \/ i = item) as Hheld.
  { intros i [[id Hi] | Hi].
    - cbn in Hi. unfold index_insert in Hi. destruct (fork_index f !! item_id item); [left; left; eauto|].
      apply lookup_insert_Some in Hi as [[_ <-] | [_ Hi]]; [by right | left; left; eauto].
    - cbn in Hi. destruct Hh as [-> | ->]; [injection Hi as <-; by right | left; by right]. }
  split.
  - cbn. unfold index_insert. destruct (fork_index f !! item_id item); [apply Hwf|]. apply map_Forall_insert_2; [done | apply Hwf].
  - done.
  - intros i [Hi | ->]%Hheld; [|cbn; split; [done | lia]]. destruct (fork_items _ Hwf i Hi). cbn. split; [done | lia].
  - intros i j [Hi | ->]%Hheld [Hj | ->]%Hheld E; [by apply (fork_ptrs _ Hwf) | | | done].
    + destruct (fork_items _ Hwf i Hi). lia.
    + destruct (fork_items _ Hwf j Hj). lia.
  - intros i p [Hi | ->]%Hheld Ep.
    + destruct (fork_prev_ok _ Hwf i p Hi Ep) as [Hlt Hj]. split; [cbn; lia|]. intros j [Hj' | ->]%Hheld E; [by apply Hj | lia].
    + destruct (Hprev p Ep) as (q & Hq & Epq & Eid). destruct (fork_items _ Hwf q Hq) as [_ Hlt]. split; [cbn; lia|].
      intros j [Hj | ->]%Hheld E; [|lia]. replace j with q; [done|]. apply (fork_ptrs _ Hwf); [done | done | congruence].
Qed.

Lemma start_block_wf b f : fork_wf f -> 0 < block_num (block_header b) -> fork_wf (start_block b f).
Proof.
  intros Hwf Hpos. pose proof (wf_new_item f (make_item (fork_next_ptr f) b) (Some (make_item (fork_next_ptr f) b)) Hwf
    (fork_unlinked_empty _ Hwf) ltac:(done) ltac:(done) ltac:(done) ltac:(by left)) as Hnew.
  pose proof (fork_unlinked_empty _ Hwf) as Hu. destruct f. cbn in Hu. by subst.
Qed.

(** What [push_block] puts into the index *)
Lemma link_item_Ok b f item : link_item (make_item (fork_next_ptr f) b) f = Ok item ->
  item_id item = block_id (block_header b) /\ item_num item = block_num (block_header b) /\ item_data item = b /\ item_ptr item = fork_next_ptr f /\
  (forall p, item_prev item = Some p -> exists j, held f j /\ item_ptr j = p /\ fork_index f !! previous_id item = Some j) /\
  (is_Some (fork_head f) -> previous_id item <> 0 -> is_Some (item_prev item)).
Proof.
  unfold link_item. intros H. destruct (fork_head f) as [h|].
  2: { injection H as <-. split_and!; [done.. | by intros []]. }
  destruct (Z.eqb_spec (previous_id (make_item (fork_next_ptr f) b)) 0) as [E | E]; cbn [negb] in H.
  - injection H as <-. split_and!; done.
  - destruct (fork_index f !! _) as [p|] eqn:Hp; [|done]. inv_ok. split_and!; try done.
    intros q [= <-]. exists p. split_and!; [left; eauto | done | exact Hp].
Qed.
Lemma fork_push_block_inv b f h f' : fork_push_block b f = Ok (h, f') ->
  exists item, link_item (make_item (fork_next_ptr f) b) f = Ok item /\ h = fork_head f' /\
    f' = insert_item item (f <| fork_next_ptr ::= (fun p => p + 1) |>) /\
    (is_Some (fork_head f) -> 0 < block_num (block_header b)).
Proof.
  unfold fork_push_block, push_item. intros H. inv_ok. eexists. split_and!; [done | done | done |]. intros [h0 Hh].
  cbn in Hrun0. rewrite Hh in Hrun0. inv_ok. lia.
Qed.

Lemma insert_item_eq item f : fork_unlinked_index f = ∅ ->
  insert_item item (f <| fork_next_ptr ::= (fun p => p + 1) |>) =
  mk_fork_database (index_insert item (fork_index f)) ∅
    (match fork_head f with
     | Some h => if item_num item >? item_num h then Some item else Some h
     | None => Some item end) (fork_max_size f) (fork_next_ptr f + 1).
Proof. destruct f as [m u hd s n]. cbn. intros ->. unfold insert_item. cbn. destruct hd as [h|]; [|done]. by destruct (_ >? _). Qed.

Lemma fork_push_block_wf b f h f' : fork_wf f -> 0 < block_num (block_header b) ->
  fork_push_block b f = Ok (h, f') -> fork_wf f'.
Proof.
  intros Hwf Hpos (item & (Hid & Hnum & Hdata & Hptr & Hprev & _)%link_item_Ok & -> & -> & _)%fork_push_block_inv.
  rewrite insert_item_eq by apply Hwf. apply wf_new_item; [done | apply Hwf | | done | |].
  - unfold item_ok, data_num. by rewrite Hdata.
  - intros p Hp. destruct (Hprev p Hp) as (j & Hj & Ej & Hpj). exists j. split_and!; [done | done |].
    by apply (fork_keyed _ Hwf).
  - destruct (fork_head f) as [h0|]; [|by left]. destruct (_ >? _); [by left | by right].
Qed.
End Wf.

(** ** Branches *)

Section Branches.
Context `{C : crypto_ops}.
Variable f : fork_database.
Hypothesis Hwf : fork_wf f.

(** The item before; [None] stands for a block that was dropped *)
Definition parent (i j : fork_item) : Prop := lock (item_prev i) f = Some j.

(** Blocks that each build on the next *)
Inductive chain : fork_item -> list fork_item -> fork_item -> Prop :=
| chain_nil i : chain i [] i
| chain_cons i j l k : parent i j -> chain j l k -> chain i (i :: l) k.

Lemma chain_app i l1 j l2 k : chain i l1 j -> chain j l2 k -> chain i (l1 ++ l2) k.
Proof. induction 1 as [| i j0 l k0 Hp _ IH]; intros H; [done|]. econstructor; [done | by apply IH]. Qed.

Lemma parent_held i j : held f i -> parent i j -> held f j.
Proof. intros Hi Hp. by apply (lock_previous f i j Hwf Hi Hp). Qed.
Lemma chain_held i l j : held f i -> chain i l j -> held f j.
Proof. intros Hi H. induction H as [|]; [done|]. by apply IHchain, (parent_held i). Qed.
Lemma parent_num i j : held f i -> parent i j -> data_num j = data_num i - 1.
Proof. intros. by eapply lock_num. Qed.

(** The first loop reaches the height [num], or the branch ends before. *)
Lemma descend_spec fuel num i l j : held f i -> 0 <= num -> descend fuel f num i = Ok (l, j) ->
  chain i l j /\ (num <= data_num i -> data_num j = num) /\ (data_num i <= num -> l = [] /\ j = i) /\
  Forall (fun k => num < data_num k) l.
Proof.
  revert i l. induction fuel as [| n IH]; intros i l Hi Hnum H; cbn in H; destruct (Z.gtb_spec (data_num i) num) as [Hgt | Hle]; try done.
  1, 3: injection H as <- <-; split_and!; [constructor | lia | done | done].
  destruct (lock (item_prev i) f) as [p|] eqn:Hp; [|done]. inv_ok. destruct a as [l' j']. cbn in *.
  pose proof (parent_num i p Hi Hp) as Hn.
  destruct (IH p l' (parent_held _ _ Hi Hp) Hnum Hrun) as (Hc & Heq & _ & Hall). split_and!.
  - by econstructor.
  - intros _. apply Heq. lia.
  - lia.
  - by constructor; [lia|].
Qed.

(** The third loop goes down two branches of the same height to a common previous
    block; the previous blocks above it differ pairwise. *)
Lemma meet_spec fuel i j l1 l2 : held f i -> held f j -> data_num i = data_num j -> meet fuel f i j = Ok (l1, l2) ->
  exists m1 m2 a b, l1 = m1 ++ [a] /\ l2 = m2 ++ [b] /\ chain i m1 a /\ chain j m2 b /\ previous_id a = previous_id b /\
    data_num a = data_num b /\ Forall2 (fun x y => data_num x = data_num y /\ previous_id x <> previous_id y) m1 m2.
Proof.
  revert i j l1 l2. induction fuel as [| n IH]; intros i j l1 l2 Hi Hj Hn H; cbn in H;
    destruct (Z.eqb_spec (previous_id i) (previous_id j)) as [E | E]; cbn [negb] in H; try done.
  1, 2: injection H as <- <-; exists [], [], i, j; split_and!; [done | done | constructor | constructor | done | done | constructor].
  destruct (lock (item_prev i) f) as [p|] eqn:Hp; [|done]. destruct (lock (item_prev j) f) as [q|] eqn:Hq; [|done].
  inv_ok. destruct a as [l1' l2']. cbn in *.
  assert (data_num p = data_num q) as Hpq by (rewrite (parent_num i p Hi Hp), (parent_num j q Hj Hq); lia).
  destruct (IH p q l1' l2' (parent_held _ _ Hi Hp) (parent_held _ _ Hj Hq) Hpq Hrun)
    as (m1 & m2 & a & b & -> & -> & Hc1 & Hc2 & Hpr & Hnum & Hall).
  exists (i :: m1), (j :: m2), a, b. split_and!; [done | done | by econstructor | by econstructor | done | done |]. by constructor.
Qed.


Lemma chain_nums i l j : held f i -> chain i l j ->
  data_num j = data_num i - Z.of_nat (length l) /\ forall k x, l !! k = Some x -> data_num x = data_num i - Z.of_nat k.
Proof.
  intros Hi H. induction H as [i | i p l j Hp _ IH]; [split; [cbn; lia | done]|].
  destruct (IH (parent_held _ _ Hi Hp)) as [Hj Hx]. pose proof (parent_num i p Hi Hp). split; [cbn [length]; lia|].
  intros [| k] x Hk; cbn in Hk; [simplify_eq; lia|]. apply Hx in Hk. lia.
Qed.

(** *** Enough fuel *)

Lemma descend_total fuel num i l j : held f i -> (Z.to_nat (data_num i) <= fuel)%nat -> 0 <= num ->
  chain i l j -> data_num j <= num -> exists r, descend fuel f num i = Ok r.
Proof.
  revert i l. induction fuel as [| n IH]; intros i l Hi Hfuel Hnum Hc Hj; cbn [descend];
    destruct (Z.gtb_spec (data_num i) num) as [Hgt | Hle]; [lia | eauto | | eauto].
  destruct Hc as [i | i p l k Hp Hc]; [lia|]. rewrite Hp. pose proof (parent_num i p Hi Hp).
  destruct (IH p l (parent_held _ _ Hi Hp) ltac:(lia) Hnum Hc Hj) as [r ->]. eauto.
Qed.
Lemma meet_total fuel i j l1 l2 a b : held f i -> held f j -> data_num i = data_num j -> (Z.to_nat (data_num i) <= fuel)%nat ->
  chain i l1 a -> chain j l2 b -> length l1 = length l2 -> previous_id a = previous_id b -> exists r, meet fuel f i j = Ok r.
Proof.
  revert i j l1 l2. induction fuel as [| n IH]; intros i j l1 l2 Hi Hj Hn Hfuel Ha Hb Hlen E; cbn [meet];
    destruct (Z.eqb_spec (previous_id i) (previous_id j)) as [Eij | Eij]; cbn [negb]; [eauto | | eauto |].
  - destruct (fork_items _ Hwf i Hi) as [(_ & _ & Hpos) _]. lia.
  - destruct Ha as [i | i p l1 a Hp Ha]; destruct Hb as [j | j q l2 b Hq Hb]; cbn in Hlen; [done | done | done |].
    rewrite Hp, Hq. pose proof (parent_num i p Hi Hp). pose proof (parent_num j q Hj Hq).
    destruct (IH p q l1 l2 (parent_held _ _ Hi Hp) (parent_held _ _ Hj Hq) ltac:(lia) ltac:(lia) Ha Hb ltac:(lia) E) as [r ->]. eauto.
Qed.

(** A longer way down passes where a shorter one ends. *)
Lemma chain_split i l a l' c : chain i l a -> chain i l' c -> (length l' <= length l)%nat -> exists l2, l = l' ++ l2 /\ chain c l2 a.
Proof.
  intros Hc Hc'. revert l Hc. induction Hc' as [i | i p l' c Hp _ IH]; intros l Hc Hlen; [by exists l|].
  destruct Hc as [i | i p' l a Hp' Hc]; cbn in Hlen; [lia|]. assert (p' = p) as -> by (unfold parent in *; congruence).
  destruct (IH l Hc ltac:(lia)) as (l2 & -> & H2). by exists l2.
Qed.
Lemma chain_det i l a l' c : chain i l a -> chain i l' c -> length l = length l' -> l = l' /\ a = c.
Proof.
  intros H1 H2 E. destruct (chain_split _ _ _ _ _ H1 H2 ltac:(lia)) as (l2 & -> & H3).
  rewrite length_app in E. destruct l2; [|cbn in E; lia]. inversion H3. by rewrite app_nil_r.
Qed.

Lemma fetch_branch_from_returns first second i j l1 l2 a b : fork_index f !! first = Some i -> fork_index f !! second = Some j ->
  chain i l1 a -> chain j l2 b -> previous_id a = previous_id b -> data_num a = data_num b ->
  exists r, fetch_branch_from first second f = Ok r.
Proof.
  intros Hi Hj Hc1 Hc2 Hprev Hnum. unfold fetch_branch_from. rewrite Hi, Hj.
  assert (held f i) as Hhi by (left; eauto). assert (held f j) as Hhj by (left; eauto).
  pose proof (chain_held _ _ _ Hhi Hc1) as Hha. pose proof (chain_held _ _ _ Hhj Hc2) as Hhb.
  destruct (fork_items _ Hwf a Hha) as [(_ & _ & Hpa) _].
  destruct (chain_nums _ _ _ Hhi Hc1) as [Hn1 _]. destruct (chain_nums _ _ _ Hhj Hc2) as [Hn2 _].
  destruct (descend_total (S (Z.to_nat (data_num i))) (data_num j) i l1 a) as [[m1 i'] E1]; [done | lia | lia | done | lia |].
  rewrite E1. cbn -[meet descend]. destruct (descend_spec _ (data_num j) _ _ _ Hhi ltac:(lia) E1) as (Hd1 & Hup1 & Hlo1 & _).
  destruct (chain_nums _ _ _ Hhi Hd1) as [Hni' _].
  assert (data_num a <= data_num i') by (destruct (decide (data_num j <= data_num i)); [rewrite Hup1 by lia; lia | destruct Hlo1 as [_ ->]; lia]).
  destruct (descend_total (S (Z.to_nat (data_num j))) (data_num i') j l2 b) as [[m2 j'] E2]; [done | lia | lia | done | lia |].
  rewrite E2. cbn -[meet descend]. destruct (descend_spec _ (data_num i') _ _ _ Hhj ltac:(lia) E2) as (Hd2 & Hup2 & Hlo2 & _).
  destruct (chain_nums _ _ _ Hhj Hd2) as [Hnj' _].
  assert (data_num i' = data_num j') as Hij.
  { destruct (decide (data_num j <= data_num i)); [rewrite Hup1 by lia; destruct Hlo2 as [_ ->]; [lia | done] |].
    destruct Hlo1 as [_ ->]; [lia|]. rewrite Hup2; lia. }
  destruct (chain_split _ _ _ _ _ Hc1 Hd1 ltac:(lia)) as (k1 & -> & Hk1).
  destruct (chain_split _ _ _ _ _ Hc2 Hd2 ltac:(lia)) as (k2 & -> & Hk2). rewrite length_app in Hn1, Hn2.
  destruct (meet_total (S (Z.to_nat (data_num i))) i' j' k1 k2 a b) as [r E3]; try done; try lia.
  { exact (chain_held i m1 i' Hhi Hd1). }
  { exact (chain_held j m2 j' Hhj Hd2). }
  rewrite E3. eauto.
Qed.
Lemma fetch_branch_from_branches first second b1 b2 : fetch_branch_from first second f = Ok (b1, b2) ->
  exists i j m1 m2 a b, fork_index f !! first = Some i /\ fork_index f !! second = Some j /\
    b1 = m1 ++ [a] /\ b2 = m2 ++ [b] /\ chain i m1 a /\ chain j m2 b /\ previous_id a = previous_id b /\ data_num a = data_num b /\
    forall x y, x ∈ m1 -> y ∈ m2 -> data_num x = data_num y -> previous_id x <> previous_id y.
Proof.
  unfold fetch_branch_from. intros H. destruct (fork_index f !! first) as [i|] eqn:Hi; [|done].
  destruct (fork_index f !! second) as [j|] eqn:Hj; [|done].
  assert (held f i) as Hhi by (left; eauto). assert (held f j) as Hhj by (left; eauto).
  destruct (fork_items _ Hwf j Hhj) as [(_ & _ & Hpj) _]. destruct (fork_items _ Hwf i Hhi) as [(_ & _ & Hpi) _].
  inv_ok. destruct a as [l1 i'], a0 as [l2 j'], a1 as [n1 n2]. cbn -[meet descend] in *.
  destruct (descend_spec _ (data_num j) _ _ _ Hhi ltac:(lia) Hrun) as (Hd1 & Hup1 & Hlo1 & Hall1).
  assert (held f i') as Hhi' by exact (chain_held i l1 i' Hhi Hd1). destruct (fork_items _ Hwf i' Hhi') as [(_ & _ & Hpi') _].
  destruct (descend_spec _ (data_num i') _ _ _ Hhj ltac:(lia) Hrun0) as (Hd2 & Hup2 & Hlo2 & Hall2).
  assert (held f j') as Hhj' by exact (chain_held j l2 j' Hhj Hd2).
  assert (data_num i' = data_num j' /\ (l1 = [] \/ l2 = [] /\ data_num i' = data_num j)) as [Hij Hcase].
  { destruct (decide (data_num j <= data_num i)).
    - rewrite Hup1 in * by lia. destruct Hlo2 as [-> ->]; [lia|]. auto.
    - destruct Hlo1 as [-> ->]; [lia|]. rewrite Hup2; auto; lia. }
  destruct (meet_spec _ _ _ _ _ Hhi' Hhj' Hij Hrun1) as (m1 & m2 & a & b & -> & -> & Hm1 & Hm2 & Hprev & Hnum & Hdiff).
  exists i, j, (l1 ++ m1), (l2 ++ m2), a, b. rewrite <- !app_assoc. split_and!; try done.
  1, 2: by eapply chain_app.
  intros x y Hx Hy Hxy.
  destruct (chain_nums _ _ _ Hhi' Hm1) as [_ Hnx]. destruct (chain_nums _ _ _ Hhj' Hm2) as [_ Hny].
  assert (forall z, z ∈ m1 -> data_num z <= data_num i') as Hle1 by (intros z [k Hk]%list_elem_of_lookup; apply Hnx in Hk; lia).
  assert (forall z, z ∈ m2 -> data_num z <= data_num j') as Hle2 by (intros z [k Hk]%list_elem_of_lookup; apply Hny in Hk; lia).
  rewrite Forall_forall in Hall1, Hall2. apply elem_of_app in Hx as [Hx | Hx], Hy as [Hy | Hy].
  - destruct Hcase as [-> | [-> _]]; [by apply not_elem_of_nil in Hx | by apply not_elem_of_nil in Hy].
  - specialize (Hall1 x Hx). specialize (Hle2 y Hy). destruct Hcase as [-> | [-> E]]; [by apply not_elem_of_nil in Hx | lia].
  - specialize (Hall2 y Hy). specialize (Hle1 x Hx). lia.
  - apply list_elem_of_lookup in Hx as [k Hk], Hy as [k' Hk']. pose proof (Hnx _ _ Hk). pose proof (Hny _ _ Hk').
    assert (k = k') as <- by lia. by destruct (Forall2_lookup_lr _ _ _ _ _ _ Hdiff Hk Hk').
Qed.
End Branches.

(** ** What the fork database promises *)

Section Reachable.
Context `{C : crypto_ops}.

(** The operations of the class; numbers of blocks start at 1, and [set_head] is given an
    item of the database. *)
Inductive fork_step (f : fork_database) : fork_database -> Prop :=
| step_reset : fork_step f (fork_reset f)
| step_start b : 0 < block_num (block_header b) -> fork_step f (start_block b f)
| step_push b h f' : 0 < block_num (block_header b) -> fork_push_block b f = Ok (h, f') -> fork_step f f'
| step_pop f' : fork_pop_block f = Ok f' -> fork_step f f'
| step_max_size s : fork_step f (set_max_size s f)
| step_set_head h : held f h -> fork_step f (set_head (Some h) f)
| step_remove id : fork_step f (fork_remove id f).
Inductive fork_reachable : fork_database -> Prop :=
| reachable_init : fork_reachable fork_database_init
| reachable_step f f' : fork_reachable f -> fork_step f f' -> fork_reachable f'.

Lemma fork_step_wf f f' : fork_wf f -> fork_step f f' -> fork_wf f'.
Proof.
  intros Hwf [| b Hb | b h f0 Hb H | f0 H | s | h Hh | id];
    eauto using fork_reset_wf, start_block_wf, fork_push_block_wf, fork_pop_block_wf, set_max_size_wf, set_head_wf, fork_remove_wf.
Qed.
Lemma fork_reachable_wf f : fork_reachable f -> fork_wf f.
Proof. induction 1; [apply wf_init | by eapply fork_step_wf]. Qed.

(** C34: The links of the fork database.  Whatever operations were done, an item carries
    the id and the number of its block, and where its pointer to the block before still
    leads somewhere, it leads to an item of the database whose id is the one the block
    names as its previous and whose number is one less; two items of the index with
    the same id are the same. *)
Theorem fork_links f i : fork_reachable f -> held f i ->
  item_id i = block_id (block_header (item_data i)) /\ item_num i = data_num i /\
  (forall j, lock (item_prev i) f = Some j -> held f j /\ item_id j = previous_id i /\ item_num i = item_num j + 1) /\
  (forall id id' j, fork_index f !! id = Some i -> fork_index f !! id' = Some j -> item_id i = item_id j -> i = j).
Proof.
  intros Hwf%fork_reachable_wf Hi. destruct (fork_items _ Hwf i Hi) as [(Hid & Hnum & _) _]. split_and!; [done | done | |].
  - intros j Hj. destruct (lock_previous f i j Hwf Hi Hj) as [Hh Hprev]. pose proof (lock_num f i j Hwf Hi Hj).
    destruct (fork_items _ Hwf j Hh) as [(_ & Hnj & _) _]. split_and!; [done | done | lia].
  - intros id id' j H1 H2 E. rewrite (fork_keyed _ Hwf _ _ H1), (fork_keyed _ Hwf _ _ H2) in E. congruence.
Qed.

(** Two branches.  What [fetch_branch_from] returns are the two blocks it was asked for,
    each followed by the blocks before it, as far as a pair of blocks with the same
    number and the same previous block; above these no two blocks with the same number
    have the same previous block, so that the common block is the last one there is. *)
Theorem fetch_branch_from_spec f first second b1 b2 : fork_reachable f -> fetch_branch_from first second f = Ok (b1, b2) ->
  exists i j m1 m2 a b, fork_index f !! first = Some i /\ fork_index f !! second = Some j /\
    b1 = m1 ++ [a] /\ b2 = m2 ++ [b] /\ chain f i m1 a /\ chain f j m2 b /\ previous_id a = previous_id b /\ data_num a = data_num b /\
    forall x y, x ∈ m1 -> y ∈ m2 -> data_num x = data_num y -> previous_id x <> previous_id y.
Proof. intros Hwf%fork_reachable_wf. by apply fetch_branch_from_branches. Qed.

(** The search for branches ends.  When both blocks are in the index and some blocks
    below them have the same number and the same previous block, the three loops end
    and two branches are returned; the bound on their turns is never reached. *)
Theorem fetch_branch_from_total f first second i j l1 l2 a b : fork_reachable f ->
  fork_index f !! first = Some i -> fork_index f !! second = Some j ->
  chain f i l1 a -> chain f j l2 b -> previous_id a = previous_id b -> data_num a = data_num b ->
  exists r, fetch_branch_from first second f = Ok r.
Proof. intros Hwf%fork_reachable_wf. by apply fetch_branch_from_returns. Qed.
End Reachable.

(** ** Sample blocks

    Block 1, then one branch with block 2 and one with the blocks 2 and 3; the second
    number of a block tells the branches apart. *)
Definition toy_block (previous time branch : Z) : signed_block :=
  mk_signed_block (mk_signed_block_header previous time "witness" (branch * 2 ^ 40) [] 0) [].
Definition toy_block_id (b : signed_block) : Z := block_id (block_header b).
Definition toy_1 : signed_block := toy_block 0 1 1.
Definition toy_2a : signed_block := toy_block (toy_block_id toy_1) 2 2.
Definition toy_2b : signed_block := toy_block (toy_block_id toy_1) 2 3.
Definition toy_3b : signed_block := toy_block (toy_block_id toy_2b) 3 3.
Definition toy_3bad : signed_block := toy_block (toy_block_id toy_2b) 13 3.

Definition toy_push (b : signed_block) (f : fork_database) : fork_database :=
  match fork_push_block b f with Ok (_, f') => f' | Throw _ => f end.
Definition toy_forks : fork_database := toy_push toy_3b (toy_push toy_2b (toy_push toy_2a (toy_push toy_1 fork_database_init))).
Definition toy_found (b : signed_block) : fork_item :=
  match fork_index toy_forks !! toy_block_id b with Some i => i | None => make_item 0 b end.

Lemma toy_push_reachable b f : fork_reachable f -> 0 < block_num (block_header b) -> fork_reachable (toy_push b f).
Proof.
  intros Hf Hb. unfold toy_push. destruct (fork_push_block b f) as [[h f'] | e] eqn:E; [|done].
  eapply reachable_step; [done|]. by eapply step_push.
Qed.
Lemma toy_forks_reachable : fork_reachable toy_forks.
Proof. do 4 (apply toy_push_reachable; [| by vm_compute]). constructor. Qed.

Lemma fork_links_witness :
  let i := toy_found toy_3b in
  item_id i = block_id (block_header (item_data i)) /\ item_num i = data_num i /\
  (forall j, lock (item_prev i) toy_forks = Some j -> held toy_forks j /\ item_id j = previous_id i /\ item_num i = item_num j + 1) /\
  (forall id id' j, fork_index toy_forks !! id = Some i -> fork_index toy_forks !! id' = Some j -> item_id i = item_id j -> i = j).
Proof. refine (fork_links toy_forks (toy_found toy_3b) toy_forks_reachable _). right. vm_compute. reflexivity. Defined.

Lemma fetch_branch_from_spec_witness :
  exists i j m1 m2 a b, fork_index toy_forks !! toy_block_id toy_3b = Some i /\ fork_index toy_forks !! toy_block_id toy_2a = Some j /\
    [toy_found toy_3b; toy_found toy_2b] = m1 ++ [a] /\ [toy_found toy_2a] = m2 ++ [b] /\
    chain toy_forks i m1 a /\ chain toy_forks j m2 b /\ previous_id a = previous_id b /\ data_num a = data_num b /\
    forall x y, x ∈ m1 -> y ∈ m2 -> data_num x = data_num y -> previous_id x <> previous_id y.
Proof.
  refine (fetch_branch_from_spec toy_forks (toy_block_id toy_3b) (toy_block_id toy_2a) [toy_found toy_3b; toy_found toy_2b] [toy_found toy_2a]
    toy_forks_reachable _). vm_compute. reflexivity.
Defined.

Lemma fetch_branch_from_total_witness : exists r, fetch_branch_from (toy_block_id toy_3b) (toy_block_id toy_2a) toy_forks = Ok r.
Proof.
  refine (fetch_branch_from_total toy_forks _ _ (toy_found toy_3b) (toy_found toy_2a) [toy_found toy_3b] [] (toy_found toy_2b) (toy_found toy_2a)
    toy_forks_reachable _ _ _ _ _ _); try (vm_compute; reflexivity).
  - econstructor; [vm_compute; reflexivity | constructor].
  - constructor.
Defined.
