(* ===== verification/PushBlock.v ===== *)
(** * Pushing and popping blocks

    [database::_push_block] and [database::pop_block]: blocks go through the fork
    database; when another branch becomes longer the node undoes its blocks down to the
    common one and applies the other branch, and when that fails it goes back.

    An exception does not undo what was done to the members of [database] that are not in
    the object store (fork database, block log, undo stack, popped transactions), so the
    operations here return the node also when they throw.

    The application of a block to the objects is behind the class [chain_ops]: it is
    divided where [_apply_block] calls [update_last_irreversible_block], which works on
    the fork database, the block log and the undo stack. *)

From S2P Require Import Prelude Exceptions Config Operations FlatMap Authority Crypto SignState Transaction BlockId ForkDatabase.

(** What a node needs of the objects *)
Class chain_ops (St : Type) := {
  head_block_id : St -> Z;
  head_block_num : St -> Z;
  last_irreversible_block_num : St -> Z;
  (* [_apply_block] up to the new number of the last irreversible block, and the rest *)
  prepare_block : Z -> signed_block -> St -> result St;
  finish_block : Z -> signed_block -> St -> result St
}.

(** [database]: the objects, the undo stack of chainbase with the revision of its top,
    the fork database, the block log (last block first) and [_popped_tx] *)
Record node (St : Type) := mk_node {
  node_state : St;
  node_undo : list St;
  node_revision : Z;
  node_fork_db : fork_database;
  node_log : list signed_block;
  node_popped_tx : list signed_transaction
}.
Arguments mk_node {St}.
Arguments node_state {St} _.
Arguments node_undo {St} _.
Arguments node_revision {St} _.
Arguments node_fork_db {St} _.
Arguments node_log {St} _.
Arguments node_popped_tx {St} _.

Section PushBlock.
Context {St : Type} `{C : crypto_ops} `{Ops : chain_ops St}.

Definition NodeM (A : Type) : Type := node St -> result A * node St.
#[local] Instance node_ret : MRet NodeM := fun A a n => (Ok a, n).
#[local] Instance node_bind : MBind NodeM := fun A B f m n =>
  match m n with (Ok a, n') => f a n' | (Throw e, n') => (Throw e, n') end.

Definition with_state (s : St) (n : node St) : node St :=
  mk_node s (node_undo n) (node_revision n) (node_fork_db n) (node_log n) (node_popped_tx n).
Definition with_fork_db (f : fork_database) (n : node St) : node St :=
  mk_node (node_state n) (node_undo n) (node_revision n) f (node_log n) (node_popped_tx n).
Definition with_log (l : list signed_block) (n : node St) : node St :=
  mk_node (node_state n) (node_undo n) (node_revision n) (node_fork_db n) l (node_popped_tx n).

(** chainbase: [start_undo_session], [undo], which does nothing on an empty stack, and
    [commit], which drops the sessions up to a revision *)
Definition start_undo_session (n : node St) : node St :=
  mk_node (node_state n) (node_state n :: node_undo n) (node_revision n + 1) (node_fork_db n) (node_log n) (node_popped_tx n).
Definition undo (n : node St) : node St :=
  match node_undo n with
  | [] => n
  | s :: u => mk_node s u (node_revision n - 1) (node_fork_db n) (node_log n) (node_popped_tx n)
  end.
Definition commit (revision : Z) (n : node St) : node St :=
  mk_node (node_state n) (take (Z.to_nat (node_revision n - revision)) (node_undo n)) (node_revision n)
    (node_fork_db n) (node_log n) (node_popped_tx n).

(** The block log: [head()->block_num()], [read_block_by_num] *)
Definition log_head_num (n : node St) : Z :=
  match node_log n with [] => 0 | b :: _ => block_num (block_header b) end.
Definition read_block_by_num (num : Z) (n : node St) : option signed_block :=
  head (filter (fun b => block_num (block_header b) = num) (node_log n)).

(** [fetch_block_by_id] *)
Definition fetch_block_by_id (id : Z) (n : node St) : option signed_block :=
  match fetch_block id (node_fork_db n) with
  | Some i => Some (item_data i)
  | None =>
      match read_block_by_num (num_from_id id) n with
      | Some b => if block_id (block_header b) =? id then Some b else None
      | None => None
      end
  end.

(** The loop that writes the block log, for [k] blocks from number [num] on *)
Fixpoint write_log (k : nat) (num : Z) : NodeM unit := fun n =>
  match k with
  | O => (Ok tt, n)
  | S k' =>
      match fetch_block_on_main_branch_by_number num (node_fork_db n) with
      | None => (Throw fc_assert_exception, n)
      | Some b => write_log k' (num + 1) (with_log (item_data b :: node_log n) n)
      end
  end.

(** [update_last_irreversible_block] from [commit] on *)
Definition make_irreversible (skip : Z) : NodeM unit := fun n =>
  let lib := last_irreversible_block_num (node_state n) in
  let n := commit lib n in
  match (if negb (has_flag skip skip_block_log)
         then write_log (Z.to_nat (lib - log_head_num n)) (log_head_num n + 1) n else (Ok tt, n)) with
  | (Throw e, n) => (Throw e, n)
  | (Ok _, n) => (Ok tt, with_fork_db (set_max_size (to_uint32_wrap (head_block_num (node_state n) - lib + 1)) (node_fork_db n)) n)
  end.

(** [_apply_block] *)
Definition on_state (f : St -> result St) : NodeM unit := fun n =>
  match f (node_state n) with Ok s => (Ok tt, with_state s n) | Throw e => (Throw e, n) end.
Definition apply_block (skip : Z) (b : signed_block) : NodeM unit :=
  on_state (prepare_block skip b) ;; make_irreversible skip ;; on_state (finish_block skip b).

(** [auto session = start_undo_session(); apply_block(b, skip); session.push();]: the
    destructor of the session undoes it when an exception passes. *)
Definition apply_in_session (skip : Z) (b : signed_block) : NodeM unit := fun n =>
  match apply_block skip b (start_undo_session n) with
  | (Ok u, n') => (Ok u, n')
  | (Throw e, n') => (Throw e, undo n')
  end.

(** [pop_block] *)
Definition pop_block : NodeM unit := fun n =>
  match fetch_block_by_id (head_block_id (node_state n)) n with
  | None => (Throw pop_empty_chain, n)
  | Some b =>
      match fork_pop_block (node_fork_db n) with
      | Throw e => (Throw e, n)
      | Ok f =>
          let n := undo (with_fork_db f n) in
          (Ok tt, mk_node (node_state n) (node_undo n) (node_revision n) (node_fork_db n) (node_log n)
                    (block_transactions b ++ node_popped_tx n))
      end
  end.

(** [while (head_block_id() != id) pop_block()]; a pop moves the head of the fork
    database down by one, so there are at most as many as its number. *)
Fixpoint pop_until (fuel : nat) (id : Z) : NodeM unit := fun n =>
  if negb (head_block_id (node_state n) =? id) then
    match fuel with
    | O => (Throw fc_assert_exception, n)
    | S k => (pop_block ;; pop_until k id) n
    end
  else (Ok tt, n).
Definition pop_fuel (n : node St) : nat :=
  match fork_head (node_fork_db n) with Some h => S (Z.to_nat (item_num h)) | None => 1 end.

(** The loops over a branch, from its last block up *)
Fixpoint apply_all (skip : Z) (items : list fork_item) : NodeM unit :=
  match items with
  | [] => mret tt
  | i :: l => apply_in_session skip (item_data i) ;; apply_all skip l
  end.
Definition remove_all (items : list fork_item) (f : fork_database) : fork_database :=
  fold_left (fun f i => fork_remove (block_id (block_header (item_data i))) f) items f.

(** The loop over [branches.first] with its handler: [back] goes back to the old branch *)
Fixpoint switch_to (skip : Z) (back : list fork_item -> exception -> NodeM bool) (items : list fork_item) : NodeM bool := fun n =>
  match items with
  | [] => (Ok true, n)
  | i :: l =>
      match apply_in_session skip (item_data i) n with
      | (Ok _, n') => switch_to skip back l n'
      | (Throw e, n') => back (i :: l) e n'
      end
  end.
Definition go_back (skip : Z) (old : list fork_item) (base : Z) (failed : list fork_item) (e : exception) : NodeM bool := fun n =>
  let n := with_fork_db (set_head (hd_error old) (remove_all failed (node_fork_db n))) n in
  match (pop_until (pop_fuel n) base ;; apply_all skip (rev old)) n with
  | (Ok _, n') => (Throw e, n')
  | (Throw e', n') => (Throw e', n')
  end.

(** [branches.second.back()->data.previous] *)
Definition branch_base (branch : list fork_item) : Z :=
  match last branch with Some i => previous_id i | None => 0 end.

Definition switch_forks (skip : Z) (new_head : fork_item) : NodeM bool := fun n =>
  match fetch_branch_from (block_id (block_header (item_data new_head))) (head_block_id (node_state n)) (node_fork_db n) with
  | Throw e => (Throw e, n)
  | Ok (first, second) =>
      let base := branch_base second in
      (pop_until (pop_fuel n) base ;; switch_to skip (go_back skip second base) (rev first)) n
  end.

(** The last part of [_push_block]: a block on top of the head *)
Definition append_block (skip : Z) (new_block : signed_block) : NodeM bool := fun n =>
  match apply_in_session skip new_block n with
  | (Ok _, n') => (Ok false, n')
  | (Throw e, n') => (Throw e, with_fork_db (fork_remove (block_id (block_header new_block)) (node_fork_db n')) n')
  end.

(** [_push_block] *)
Definition push_block (skip : Z) (new_block : signed_block) : NodeM bool := fun n =>
  if negb (has_flag skip skip_fork_db) then
    match fork_push_block new_block (node_fork_db n) with
    | Throw e => (Throw e, n)
    | Ok (None, f) => (Throw fc_assert_exception, with_fork_db f n)
    | Ok (Some new_head, f) =>
        let n := with_fork_db f n in
        if negb (previous_id new_head =? head_block_id (node_state n)) then
          if data_num new_head >? head_block_num (node_state n) then switch_forks skip new_head n
          else (Ok false, n)
        else append_block skip new_block n
    end
  else append_block skip new_block n.
End PushBlock.

(** ** What a switch does *)

(** What a node relies on: a block applies only on top of the head it names, and is the
    head afterwards. *)
Class chain_laws (St : Type) `{C : crypto_ops} `{Ops : chain_ops St} := {
  prepare_head skip b s s' : prepare_block skip b s = Ok s' ->
    head_block_id s = header_previous (block_header b) /\ head_block_id s' = block_id (block_header b) /\
    head_block_num s' = block_num (block_header b);
  finish_head skip b s s' : finish_block skip b s = Ok s' ->
    head_block_id s' = head_block_id s /\ head_block_num s' = head_block_num s /\
    last_irreversible_block_num s' = last_irreversible_block_num s
}.

Section Switch.
Context {St : Type} `{C : crypto_ops} `{Ops : chain_ops St} {Laws : chain_laws St}.
#[local] Existing Instances node_ret node_bind.

(** The effect of blocks on the objects alone *)
Definition apply_pure (skip : Z) (b : signed_block) (s : St) : result St :=
  s1 ← prepare_block skip b s; finish_block skip b s1.
Fixpoint apply_blocks (skip : Z) (bs : list signed_block) (s : St) : result St :=
  match bs with [] => Ok s | b :: l => s1 ← apply_pure skip b s; apply_blocks skip l s1 end.

Lemma apply_pure_head skip b s s' : apply_pure skip b s = Ok s' ->
  head_block_id s = header_previous (block_header b) /\ head_block_id s' = block_id (block_header b) /\
  head_block_num s' = block_num (block_header b).
Proof.
  unfold apply_pure. intros H. inv_ok. apply prepare_head in Hrun as (? & ? & ?). apply finish_head in H as (? & ? & _).
  split_and!; congruence.
Qed.

Lemma node_bind_Ok {A B : Type} (m : NodeM (St := St) A) (g : A -> NodeM B) n b n' :
  (m ≫= g) n = (Ok b, n') -> exists a n1, m n = (Ok a, n1) /\ g a n1 = (Ok b, n').
Proof. unfold mbind, node_bind. destruct (m n) as [[a | e] n1]; [eauto | done]. Qed.

(** The parts of a node that [make_irreversible] does not touch *)
Record kept (n n' : node St) : Prop := mk_kept {
  kept_state : node_state n' = node_state n;
  kept_revision : node_revision n' = node_revision n;
  kept_head : fork_head (node_fork_db n') = fork_head (node_fork_db n);
  kept_undo : exists k, node_undo n' = take k (node_undo n)
}.
Lemma write_log_kept k num (n : node St) r n' : write_log k num n = (r, n') ->
  node_state n' = node_state n /\ node_revision n' = node_revision n /\ node_fork_db n' = node_fork_db n /\
  node_undo n' = node_undo n.
Proof.
  revert num n. induction k as [| k IH]; intros num n H; cbn in H; [by simplify_eq|].
  destruct (fetch_block_on_main_branch_by_number num (node_fork_db n)) as [i|]; [|by simplify_eq].
  apply IH in H as (-> & -> & -> & ->). done.
Qed.
Lemma set_max_size_head s f : fork_head (set_max_size s f) = fork_head f.
Proof. unfold set_max_size. cbn. by destruct (fork_head f) eqn:E. Qed.
Lemma make_irreversible_kept skip (n : node St) r n' : make_irreversible skip n = (r, n') -> kept n n'.
Proof.
  unfold make_irreversible. cbv zeta. intros H. set (n0 := commit _ n) in H.
  set (m := if negb (has_flag skip skip_block_log) then _ else _) in H.
  assert (forall r n1, m = (r, n1) -> node_state n1 = node_state n0 /\ node_revision n1 = node_revision n0 /\
    node_fork_db n1 = node_fork_db n0 /\ node_undo n1 = node_undo n0) as Hm.
  { intros r0 n1. unfold m. destruct (negb _); [apply write_log_kept | by intros [= <- <-]]. }
  destruct m as [[u | e] n1]; destruct (Hm _ _ eq_refl) as (E1 & E2 & E3 & E4); injection H as <- <-; split; cbn.
  all: rewrite ?set_max_size_head, ?E1, ?E2, ?E3, ?E4; try done; by eexists.
Qed.

(** A block applied in a session *)
Record applied (skip : Z) (b : signed_block) (n n' : node St) : Prop := mk_applied {
  applied_pure : apply_pure skip b (node_state n) = Ok (node_state n');
  applied_head : fork_head (node_fork_db n') = fork_head (node_fork_db n);
  applied_undo : exists k, node_undo n' = take k (node_state n :: node_undo n)
}.
Lemma apply_in_session_Ok skip b (n : node St) u n' : apply_in_session skip b n = (Ok u, n') -> applied skip b n n'.
Proof.
  unfold apply_in_session. intros H. destruct (apply_block skip b (start_undo_session n)) as [[v | e] n2] eqn:E; [|done].
  injection H as -> ->. unfold apply_block in E. apply node_bind_Ok in E as (u1 & n1 & E1 & E). apply node_bind_Ok in E as (u2 & n3 & E2 & E3).
  unfold on_state in E1. destruct (prepare_block skip b _) as [s1 | e] eqn:Ep; [|done]. injection E1 as <- <-.
  apply make_irreversible_kept in E2 as [K1 K2 K3 [k K4]].
  unfold on_state in E3. destruct (finish_block skip b _) as [s2 | e] eqn:Ef; [|done]. injection E3 as <- <-. cbn in *.
  split; cbn; [|done | by exists k]. unfold apply_pure. rewrite Ep. cbn. by rewrite <- K1.
Qed.

(** *** Popping *)

Lemma undo_fork_db (n : node St) : node_fork_db (undo n) = node_fork_db n.
Proof. unfold undo. by destruct (node_undo n). Qed.
Lemma undo_step (n : node St) : node_undo n <> [] \/ node_state (undo n) = node_state n /\ node_undo (undo n) = [].
Proof. unfold undo. destruct (node_undo n) as [|] eqn:E; [right; split; [done | by rewrite E] | by left]. Qed.

Lemma pop_block_Ok (n : node St) u n' : pop_block n = (Ok u, n') ->
  exists f, fork_pop_block (node_fork_db n) = Ok f /\ node_fork_db n' = f /\
    node_state n' = node_state (undo n) /\ node_undo n' = node_undo (undo n).
Proof.
  unfold pop_block. intros H. destruct (fetch_block_by_id _ n); [|done].
  destruct (fork_pop_block (node_fork_db n)) as [f | e] eqn:E; [|done]. injection H as _ <-. exists f. cbn.
  unfold undo. cbn. by destruct (node_undo n).
Qed.

(** A chain is still there if the head was elsewhere. *)
Lemma chain_head_moved f h i l j : fork_wf f -> held f h -> held f i -> chain (set_head (Some h) f) i l j -> chain f i l j.
Proof.
  intros Hwf Hh Hi H. pose proof (set_head_wf f h Hwf Hh) as Hwf'.
  induction H as [i | i p l j Hp _ IH]; [constructor|].
  assert (parent f i p) as Hpar.
  { unfold parent in *. destruct (item_prev i) as [q|]; [|done]. apply lock_held in Hp as [Hp Eq]; [|done]. apply lock_held; [done|].
    split; [|done]. destruct Hp as [Hp | [= <-]]; [by left | done]. }
  econstructor; [done|]. apply IH. by eapply parent_held.
Qed.

(** The loop that pops ends at the state it looks for, [k] blocks below, with the head of
    the fork database [k] blocks below, too. *)
Lemma pop_until_Ok fuel base (n : node St) u n' : fork_wf (node_fork_db n) -> pop_until fuel base n = (Ok u, n') ->
  head_block_id (node_state n') = base /\ exists k, (node_state n :: node_undo n) !! k = Some (node_state n') /\
    node_undo n' = drop k (node_undo n) /\
    (k = O /\ node_fork_db n' = node_fork_db n \/
     exists h l h', fork_head (node_fork_db n) = Some h /\ chain (node_fork_db n) h l h' /\ length l = k /\
       node_fork_db n' = set_head (Some h') (node_fork_db n)).
Proof.
  revert n. induction fuel as [| fuel IH]; intros n Hwf H; cbn in H;
    destruct (Z.eqb_spec (head_block_id (node_state n)) base) as [E | E]; cbn [negb] in H; try done.
  1, 2: injection H as _ <-; split; [done|]; exists O; split_and!; [done | done | by left].
  apply node_bind_Ok in H as (v & n1 & Hpop & H). apply pop_block_Ok in Hpop as (f & Hf & Ef & Es & Eu).
  pose proof (fork_pop_block_wf _ _ Hwf Hf) as Hwf1. rewrite <- Ef in Hwf1.
  destruct (IH n1 Hwf1 H) as (Hid & k & Hk & Hdrop & Hfork). split; [done|].
  rewrite Es, Eu in Hk. rewrite Eu in Hdrop.
  destruct (node_undo n) as [| s0 u0] eqn:Hu.
  { exfalso. unfold undo in Hk. rewrite Hu in Hk. cbn in Hk. rewrite Hu in Hk. destruct k as [| k]; [|done]. cbn in Hk. congruence. }
  unfold undo in Hk, Hdrop. rewrite Hu in Hk, Hdrop. cbn in Hk, Hdrop.
  exists (S k). split_and!; [done | destruct k; [done | by cbn] |]. right.
  unfold fork_pop_block in Hf. destruct (fork_head (node_fork_db n)) as [h|] eqn:Hh; [|done].
  destruct (lock (item_prev h) (node_fork_db n)) as [p|] eqn:Hp; [|done]. injection Hf as Hf. rewrite <- Hf in Ef.
  destruct Hfork as [[-> Hfork] | (h1 & l & h' & Hh1 & Hc & Hlen & Hfork)].
  - exists h, [h], p. split_and!; [done | eapply chain_cons; [exact Hp | apply chain_nil] | done | by rewrite Hfork, Ef].
  - exists h, (h :: l), h'. rewrite Ef in Hh1. cbn in Hh1. injection Hh1 as <-. split_and!; [done | | cbn; congruence |].
    + eapply chain_cons; [exact Hp|]. assert (held (node_fork_db n) p) as Hhp by (eapply parent_held; [done | by right | exact Hp]).
      apply (chain_head_moved _ p); [done | done | done |]. rewrite Ef in Hc. exact Hc.
    + rewrite Hfork, Ef. done.
Qed.


(** *** Switching *)

Lemma switch_to_Ok skip back items (n : node St) r n' : (forall l e n r n', back l e n = (Ok r, n') -> False) ->
  switch_to skip back items n = (Ok r, n') ->
  r = true /\ apply_blocks skip (item_data <$> items) (node_state n) = Ok (node_state n') /\
  fork_head (node_fork_db n') = fork_head (node_fork_db n).
Proof.
  intros Hback. revert n. induction items as [| i l IH]; intros n H; cbn in H; [by injection H as <- <-|].
  destruct (apply_in_session skip (item_data i) n) as [[u | e] n1] eqn:E; [|by apply Hback in H].
  apply apply_in_session_Ok in E as [E1 E2 _]. destruct (IH n1 H) as (-> & E3 & E4). split_and!; [done | | congruence].
  cbn. by rewrite E1.
Qed.
Lemma go_back_throws skip old base l e (n : node St) r n' : go_back skip old base l e n = (Ok r, n') -> False.
Proof. unfold go_back. cbv zeta. by case_match eqn:E; case_match. Qed.

Lemma apply_blocks_head skip bs b s s' : apply_blocks skip (bs ++ [b]) s = Ok s' ->
  head_block_id s' = block_id (block_header b) /\ head_block_num s' = block_num (block_header b).
Proof.
  revert s. induction bs as [| b0 bs IH]; intros s H; cbn in H; inv_ok; [|by eapply IH].
  by apply apply_pure_head in Hrun as (_ & ? & ?).
Qed.

Lemma chain_first f i l j : chain f i l j -> exists l', l ++ [j] = i :: l'.
Proof. destruct 1 as [i | i p l j]; [by exists [] | by exists (l ++ [j])]. Qed.

Lemma switch_forks_Ok skip new_head (n : node St) r n' : fork_wf (node_fork_db n) -> fork_head (node_fork_db n) = Some new_head ->
  switch_forks skip new_head n = (Ok r, n') ->
  r = true /\ exists first second s0 k l h,
    fetch_branch_from (item_id new_head) (head_block_id (node_state n)) (node_fork_db n) = Ok (first, second) /\
    (node_state n :: node_undo n) !! k = Some s0 /\ head_block_id s0 = branch_base second /\
    apply_blocks skip (item_data <$> rev first) s0 = Ok (node_state n') /\
    head_block_id (node_state n') = item_id new_head /\
    chain (node_fork_db n) new_head l h /\ length l = k /\ fork_head (node_fork_db n') = Some h.
Proof.
  intros Hwf Hh H. unfold switch_forks in H. assert (item_ok new_head) as (Hid & _) by (apply (fork_items _ Hwf); by right).
  rewrite <- Hid in H. destruct (fetch_branch_from _ _ _) as [[first second] | e] eqn:Ebr; [|done]. cbv zeta in H.
  apply node_bind_Ok in H as (u & n1 & Hpop & H). apply pop_until_Ok in Hpop as (Hbase & k & Hk & _ & Hfork); [|done].
  apply switch_to_Ok in H as (-> & Happ & Hhead); [|apply go_back_throws]. split; [done|].
  destruct (fetch_branch_from_branches _ Hwf _ _ _ _ Ebr) as (i & j & m1 & m2 & a & b & Hi & _ & -> & _ & Hc1 & _).
  assert (exists l h, chain (node_fork_db n) new_head l h /\ length l = k /\ fork_head (node_fork_db n') = Some h) as (l & h & Hl & Hlen & Hh').
  { destruct Hfork as [[-> Ef] | (h & l & h' & Eh & Hc & Hlen & Ef)].
    - exists [], new_head. split_and!; [apply chain_nil | done | congruence].
    - exists l, h'. assert (h = new_head) as -> by congruence. split_and!; [done | done |]. rewrite Hhead, Ef. done. }
  exists (m1 ++ [a]), second, (node_state n1), k, l, h. split_and!; try done.
  destruct (chain_first _ _ _ _ Hc1) as [l' El]. rewrite El in Happ. cbn in Happ. rewrite fmap_app in Happ.
  apply apply_blocks_head in Happ as [-> _]. assert (held (node_fork_db n) i) as Hhi by (left; eauto).
  destruct (fork_items _ Hwf i Hhi) as [(<- & _) _]. by apply (fork_keyed _ Hwf).
Qed.
(** *** The fork database stays well formed *)

Lemma make_irreversible_wf skip (n : node St) r n' :
  fork_wf (node_fork_db n) -> make_irreversible skip n = (r, n') -> fork_wf (node_fork_db n').
Proof.
  unfold make_irreversible. cbv zeta. intros Hwf H. set (n0 := commit _ n) in H.
  set (m := if negb (has_flag skip skip_block_log) then _ else _) in H.
  assert (forall r n1, m = (r, n1) -> node_fork_db n1 = node_fork_db n) as Hm.
  { intros r0 n1. unfold m. destruct (negb _); [by intros (_ & _ & -> & _)%write_log_kept | by intros [= <- <-]]. }
  destruct m as [[u | e] n1]; pose proof (Hm _ _ eq_refl) as E; injection H as <- <-; cbn; rewrite E; [by apply set_max_size_wf | done].
Qed.
Lemma apply_in_session_wf skip b (n : node St) r n' :
  fork_wf (node_fork_db n) -> apply_in_session skip b n = (r, n') -> fork_wf (node_fork_db n').
Proof.
  unfold apply_in_session, apply_block, mbind, node_bind, on_state. intros Hwf H.
  destruct (prepare_block skip b _); [|injection H as <- <-; by rewrite undo_fork_db].
  destruct (make_irreversible skip _) as [[u | e] n1] eqn:E; (apply make_irreversible_wf in E; [|done]);
    [|injection H as <- <-; by rewrite undo_fork_db].
  destruct (finish_block skip b _); injection H as <- <-; [done | by rewrite undo_fork_db].
Qed.
Lemma pop_until_wf fuel base (n : node St) u n' :
  fork_wf (node_fork_db n) -> pop_until fuel base n = (Ok u, n') -> fork_wf (node_fork_db n').
Proof.
  revert n. induction fuel as [| k IH]; intros n Hwf H; cbn in H; destruct (negb _); try done; try by injection H as <- <-.
  apply node_bind_Ok in H as (u1 & n1 & H1 & H2). apply pop_block_Ok in H1 as (f & Hf & E & _).
  apply (IH n1); [rewrite E; by eapply fork_pop_block_wf | done].
Qed.
Lemma switch_to_wf skip back items (n : node St) n' : (forall l e n1, fst (back l e n1) <> Ok true) ->
  fork_wf (node_fork_db n) -> switch_to skip back items n = (Ok true, n') -> fork_wf (node_fork_db n').
Proof.
  intros Hback. revert n. induction items as [| i l IH]; intros n Hwf H; cbn in H; [by injection H as <-|].
  destruct (apply_in_session skip (item_data i) n) as [[u | e] n1] eqn:E; [by eapply IH, H; eapply apply_in_session_wf|].
  specialize (Hback (i :: l) e n1). by rewrite H in Hback.
Qed.
Lemma go_back_fails skip old base failed e (n : node St) : fst (go_back skip old base failed e n) <> Ok true.
Proof. unfold go_back. cbv zeta. by destruct (pop_until _ _ ≫= _) as [[u | e'] n']. Qed.

Lemma push_block_wf skip b (n : node St) r n' : fork_wf (node_fork_db n) -> 0 < block_num (block_header b) ->
  push_block skip b n = (Ok r, n') -> fork_wf (node_fork_db n').
Proof.
  intros Hwf Hpos H. unfold push_block, append_block in H. destruct (negb _).
  2: { destruct (apply_in_session skip b n) as [[u | e] n1] eqn:E; [|done]. injection H as _ <-. by eapply apply_in_session_wf. }
  destruct (fork_push_block b (node_fork_db n)) as [[[new_head|] f] | e] eqn:Ef; [| done | done].
  pose proof (fork_push_block_wf _ _ _ _ Hwf Hpos Ef) as Hwf'. destruct (negb _).
  - destruct (_ >? _); [|by injection H as _ <-]. unfold switch_forks in H.
    destruct (fetch_branch_from _ _ _) as [[first second] | e]; [|done]. cbv zeta in H.
    apply node_bind_Ok in H as (u & n1 & H1 & H2). apply pop_until_wf in H1; [|done].
    assert (r = true) as ->; [|by eapply switch_to_wf, H2; [apply go_back_fails|]].
    clear H1. revert n1 H2. induction (rev first) as [| i l IH]; intros n1 H2; cbn in H2; [by injection H2|].
    destruct (apply_in_session skip (item_data i) n1) as [[v | e] n2]; [by eapply IH|].
    unfold go_back in H2. cbv zeta in H2. by destruct (pop_until _ _ ≫= _) as [[w | e'] n3].
  - destruct (apply_in_session skip b _) as [[u | e] n1] eqn:E; [|done]. injection H as _ <-. by eapply apply_in_session_wf, E.
Qed.

(** C15: A fork switch follows the longer branch.  When pushing a block makes the node
    switch, the fork database gave the branches from the new head and from the old head
    to blocks with the same previous block; the node went back to a state it had before,
    whose head is that common block, applied exactly the blocks of the new branch, oldest
    first, and has the new head as its head.  The head of the fork database itself was
    moved down the new branch by as many blocks as were undone and is left there. *)
Theorem push_block_switches skip b (n n' : node St) :
  fork_wf (node_fork_db n) -> 0 < block_num (block_header b) -> push_block skip b n = (Ok true, n') ->
  exists new_head f first second s0 k l h,
    fork_push_block b (node_fork_db n) = Ok (Some new_head, f) /\
    fetch_branch_from (item_id new_head) (head_block_id (node_state n)) f = Ok (first, second) /\
    (node_state n :: node_undo n) !! k = Some s0 /\ head_block_id s0 = branch_base second /\
    apply_blocks skip (item_data <$> rev first) s0 = Ok (node_state n') /\
    head_block_id (node_state n') = item_id new_head /\ head_block_num (node_state n) < data_num new_head /\
    chain f new_head l h /\ length l = k /\ fork_head (node_fork_db n') = Some h.
Proof.
  intros Hwf Hpos H. unfold push_block, append_block in H. destruct (negb _).
  2: { by destruct (apply_in_session skip b n) as [[u | e] n1]. }
  destruct (fork_push_block b (node_fork_db n)) as [[[new_head|] f] | e] eqn:Ef; [| done | done].
  pose proof (fork_push_block_wf _ _ _ _ Hwf Hpos Ef) as Hwf'.
  destruct (fork_push_block_inv _ _ _ _ Ef) as (item & _ & Hh & _).
  destruct (negb _); [|by destruct (apply_in_session skip b _) as [[u | e] n1]].
  cbn [node_state with_fork_db] in H. destruct (Z.gtb_spec (data_num new_head) (head_block_num (node_state n))); [|done].
  apply switch_forks_Ok in H as (_ & first & second & s0 & k & l & h & H1 & H2 & H3 & H4 & H5 & H6 & H7 & H8); [|done | done].
  exists new_head, f, first, second, s0, k, l, h. by split_and!.
Qed.
End Switch.

(** ** When a switch fails *)

Section GoBack.
Context {St : Type} `{C : crypto_ops} `{Ops : chain_ops St} {Laws : chain_laws St}.
#[local] Existing Instances node_ret node_bind.

(** No block that is applied makes a block after number [irreversible] irreversible. *)
Fixpoint stays_reversible (skip irreversible : Z) (bs : list signed_block) (s : St) : Prop :=
  match bs with
  | [] => True
  | b :: l =>
      (forall s1, prepare_block skip b s = Ok s1 -> 0 <= last_irreversible_block_num s1 <= irreversible) /\
      (forall s1, apply_pure skip b s = Ok s1 -> stays_reversible skip irreversible l s1)
  end.

Variables (skip irreversible : Z).

(** A session without a block that becomes irreversible *)
Record stepped (b : signed_block) (n n' : node St) : Prop := mk_stepped {
  stepped_log : node_log n' = node_log n;
  stepped_fork : node_fork_db n' = node_fork_db n \/
    exists lib, 0 <= lib <= irreversible /\
      node_fork_db n' = set_max_size (to_uint32_wrap (block_num (block_header b) - lib + 1)) (node_fork_db n)
}.

Lemma make_irreversible_idle (n : node St) : last_irreversible_block_num (node_state n) <= log_head_num n ->
  make_irreversible skip n = (Ok tt, with_fork_db
    (set_max_size (to_uint32_wrap (head_block_num (node_state n) - last_irreversible_block_num (node_state n) + 1)) (node_fork_db n))
    (commit (last_irreversible_block_num (node_state n)) n)).
Proof.
  intros Hle. unfold make_irreversible. cbv zeta.
  change (log_head_num (commit _ n)) with (log_head_num n).
  replace (Z.to_nat (_ - log_head_num n)) with O by lia. by destruct (negb _).
Qed.

Lemma apply_in_session_reversible b (n : node St) :
  irreversible <= log_head_num n -> irreversible <= node_revision n ->
  (forall s1, prepare_block skip b (node_state n) = Ok s1 -> 0 <= last_irreversible_block_num s1 <= irreversible) ->
  match apply_pure skip b (node_state n) with
  | Ok s => exists n' c, apply_in_session skip b n = (Ok tt, n') /\ stepped b n n' /\ node_state n' = s /\
      node_revision n' = node_revision n + 1 /\ node_undo n' = take c (node_state n :: node_undo n) /\
      node_revision n + 1 - irreversible <= Z.of_nat c
  | Throw e => exists n' c, apply_in_session skip b n = (Throw e, n') /\ stepped b n n' /\ node_state n' = node_state n /\
      node_revision n' = node_revision n /\ node_undo n' = take c (node_undo n) /\ node_revision n - irreversible <= Z.of_nat c
  end.
Proof.
  intros Hlog Hrev Hlib. unfold apply_in_session, apply_block.
  assert (forall f (g : unit -> NodeM (St := St) unit) (m : node St), (on_state f ≫= g) m =
    match f (node_state m) with Ok s => g tt (with_state s m) | Throw e => (Throw e, m) end) as Hon.
  { intros f g m. unfold mbind, node_bind, on_state. by destruct (f (node_state m)). }
  rewrite Hon. cbn [start_undo_session node_state]. unfold apply_pure.
  destruct (prepare_block skip b (node_state n)) as [s1 | e] eqn:Ep; cbn [mbind result_bind].
  2: { eexists _, (Nat.max (length (node_undo n)) (Z.to_nat (node_revision n - irreversible))).
       split_and!; [reflexivity | split; [done | by left] | done | cbn; lia | cbn; by rewrite take_ge by lia | lia]. }
  destruct (Hlib s1 eq_refl) as [Hlib0 Hlib1]. destruct (prepare_head _ _ _ _ Ep) as (_ & _ & Hnum).
  assert (forall (g : unit -> NodeM (St := St) unit) (m : node St), (make_irreversible skip ≫= g) m =
    match make_irreversible skip m with (Ok u, m') => g u m' | (Throw e, m') => (Throw e, m') end) as Hmk by done.
  rewrite Hmk, make_irreversible_idle by (cbn; unfold log_head_num in *; cbn; lia). unfold on_state. cbn [node_state with_fork_db with_state commit].
  set (lib := last_irreversible_block_num s1) in *. rewrite Hnum.
  assert (forall x, node_fork_db x = set_max_size (to_uint32_wrap (block_num (block_header b) - lib + 1)) (node_fork_db n) ->
    node_log x = node_log n -> stepped b n x) as Hst by (intros x E1 E2; split; [done | right; by exists lib]).
  destruct (finish_block skip b s1) as [s2 | e] eqn:Ef.
  - eexists _, (Z.to_nat (node_revision n + 1 - lib)). split_and!; [reflexivity | by apply Hst | done | done | done | lia].
  - unfold undo, commit. cbn [node_undo with_fork_db with_state start_undo_session node_revision].
    replace (Z.to_nat (node_revision n + 1 - lib)) with (S (Z.to_nat (node_revision n - lib))) by lia. cbn.
    eexists _, (Z.to_nat (node_revision n - lib)).
    split_and!; [reflexivity | by apply Hst | done | cbn; lia | done | lia].
Qed.


(** *** Blocks on a state, newest first, with the states to undo them *)

Inductive built (s0 : St) : list fork_item -> St -> list St -> Prop :=
| built_nil : built s0 [] s0 []
| built_cons i ds s s' us : built s0 ds s us -> apply_pure skip (item_data i) s = Ok s' -> built s0 (i :: ds) s' (s :: us).

Lemma built_length s0 ds s us : built s0 ds s us -> length us = length ds.
Proof. induction 1; cbn; congruence. Qed.
Lemma built_blocks s0 ds s us : built s0 ds s us -> apply_blocks skip (item_data <$> rev ds) s0 = Ok s.
Proof.
  assert (forall l i s0 s s', apply_blocks skip (item_data <$> l) s0 = Ok s -> apply_pure skip (item_data i) s = Ok s' ->
    apply_blocks skip (item_data <$> l ++ [i]) s0 = Ok s') as Hsnoc.
  { induction l as [| j l IH]; intros i t0 t t' H1 H2; cbn in *; inv_ok; [by rewrite H2|]. rewrite Hrun. cbn. by eapply IH. }
  induction 1 as [| i ds s s' us _ IH Happ]; [done|]. cbn. by eapply Hsnoc.
Qed.

(** *** The fork database from a height on *)

Record kept_from (base : Z) (f f' : fork_database) : Prop := mk_kept_from {
  kept_from_wf : fork_wf f';
  kept_from_head : fork_head f' = fork_head f;
  kept_from_index id i : base <= item_num i -> fork_index f' !! id = Some i <-> fork_index f !! id = Some i
}.
Lemma kept_from_refl base f : fork_wf f -> kept_from base f f.
Proof. by split. Qed.
Lemma kept_from_trans base f1 f2 f3 : kept_from base f1 f2 -> kept_from base f2 f3 -> kept_from base f1 f3.
Proof. intros [W1 H1 I1] [W2 H2 I2]. split; [done | congruence|]. intros id i Hi. by rewrite I2, I1. Qed.

Lemma stepped_kept base b h (n n' : node St) : fork_wf (node_fork_db n) -> stepped b n n' ->
  fork_head (node_fork_db n) = Some h -> item_num h <= block_num (block_header b) -> irreversible <= base ->
  block_num (block_header b) + 1 < 2 ^ 32 -> irreversible < block_num (block_header b) ->
  kept_from base (node_fork_db n) (node_fork_db n').
Proof.
  intros Hwf [_ [-> | (lib & Hlib & ->)]] Hh Hnum Hbase Hlt Hirr; [by apply kept_from_refl|].
  split; [by apply set_max_size_wf | apply set_max_size_head|]. intros id i Hi. unfold set_max_size. cbn. rewrite Hh. cbn.
  rewrite map_lookup_filter_Some. cbn. split; [by intros [? _]|]. intros Hid. split; [done|]. unfold recent, to_uint32_wrap.
  rewrite Z.mod_small; lia.
Qed.

(** *** The loop over the new branch *)

Section Loop.
Variables (s0 : St) (base : Z) (back : list fork_item -> exception -> NodeM (St := St) bool).
Hypothesis Hirr : irreversible <= base.

(** Where the loop stands: [ds] were applied, and [items] are to come *)
Record in_switch (n0 : node St) (h : fork_item) (ds items : list fork_item) (n : node St) : Prop := mk_in_switch {
  in_switch_built : exists us rest, built s0 ds (node_state n) us /\ node_undo n = us ++ rest;
  in_switch_revision : node_revision n = node_revision n0 + Z.of_nat (length ds);
  in_switch_log : node_log n = node_log n0;
  in_switch_fork : kept_from base (node_fork_db n0) (node_fork_db n);
  in_switch_head : fork_head (node_fork_db n0) = Some h;
  in_switch_reversible : stays_reversible skip irreversible (item_data <$> items) (node_state n)
}.

Lemma switch_to_run n0 h items n ds : irreversible <= node_revision n0 -> irreversible <= log_head_num n0 ->
  Forall (fun i => item_num h <= data_num i /\ irreversible < data_num i /\ data_num i + 1 < 2 ^ 32) items ->
  in_switch n0 h ds items n ->
  match apply_blocks skip (item_data <$> items) (node_state n) with
  | Ok s => exists n', switch_to skip back items n = (Ok true, n') /\ node_state n' = s
  | Throw e => exists ds' i rest n', rev ds' ++ i :: rest = rev ds ++ items /\ in_switch n0 h ds' [] n' /\
      switch_to skip back items n = back (i :: rest) e n'
  end.
Proof.
  intros Hrev Hlog. revert n ds. induction items as [| i l IH]; intros n ds Hall Hin; cbn; [by exists n|].
  apply Forall_cons in Hall as [(Hh & Hi & Hmax) Hall]. destruct Hin as [(us & rest & Hb & Hu) Er El Ek Eh [Hr1 Hr2]].
  pose proof (built_length _ _ _ _ Hb) as Hlen.
  assert (irreversible <= log_head_num n) as Hlog' by (unfold log_head_num in *; by rewrite El).
  pose proof (apply_in_session_reversible (item_data i) n Hlog' ltac:(lia) Hr1) as Happ.
  destruct (apply_pure skip (item_data i) (node_state n)) as [s | e] eqn:Epure; destruct Happ as (n' & c & -> & Hst & Es & Er' & Eu & Hc); cbn.
  - assert (kept_from base (node_fork_db n) (node_fork_db n')) as Hk.
    { eapply (stepped_kept base _ h); [apply Ek | done | by rewrite (kept_from_head _ _ _ Ek) | done..]. }
    subst s. apply (IH n' (i :: ds)) in Hall.
    + destruct (apply_blocks skip (item_data <$> l) (node_state n')) as [s | e]; [done|].
      destruct Hall as (ds' & i' & rest' & n3 & E & H3 & ->). exists ds', i', rest', n3. split_and!; [|done | done].
      rewrite E. cbn. by rewrite <- app_assoc.
    + split; [| cbn; lia | by rewrite (stepped_log _ _ _ Hst) | by eapply kept_from_trans | done | by apply Hr2].
      exists (node_state n :: us), (take (c - S (length us)) rest). split; [by econstructor|]. rewrite Eu, Hu.
      rewrite app_comm_cons, take_app_ge by (cbn; lia). done.
  - assert (kept_from base (node_fork_db n) (node_fork_db n')) as Hk.
    { eapply (stepped_kept base _ h); [apply Ek | done | by rewrite (kept_from_head _ _ _ Ek) | done..]. }
    exists ds, i, l, n'. split_and!; [done | | done].
    split; [| cbn; lia | by rewrite (stepped_log _ _ _ Hst) | by eapply kept_from_trans | done | done].
    exists us, (take (c - length us) rest). rewrite Es. split; [done|]. rewrite Eu, Hu, take_app_ge by lia. done.
Qed.
End Loop.


(** *** Popping what was applied *)

(** Below the head, chains do not depend on where the head is. *)
Lemma chain_set_head f h q i l c : fork_wf f -> fork_head f = Some h -> held f q -> held f i -> data_num i <= data_num h ->
  chain f i l c -> chain (set_head (Some q) f) i l c.
Proof.
  intros Hwf Hh Hq Hi Hle H. induction H as [i | i p l c Hp _ IH]; [constructor|].
  pose proof (parent_num f Hwf i p Hi Hp) as Hn. pose proof (parent_held f Hwf i p Hi Hp) as Hhp.
  eapply chain_cons; [|apply IH; [done | lia]]. unfold parent in *. destruct (item_prev i) as [a|]; [|done].
  apply lock_held in Hp as [_ Ep]; [|done]. apply lock_held; [by apply set_head_wf|]. split; [|done].
  destruct Hhp as [Hhp | Hhp]; [by left|]. rewrite Hh in Hhp. injection Hhp as ->. lia.
Qed.

Lemma pop_run s0 ds us rest base fuel h l c (n : node St) :
  built s0 ds (node_state n) us -> node_undo n = us ++ rest ->
  Forall (fun i => is_Some (fork_index (node_fork_db n) !! block_id (block_header (item_data i))) /\
                   block_id (block_header (item_data i)) <> base) ds ->
  head_block_id s0 = base -> fork_wf (node_fork_db n) -> fork_head (node_fork_db n) = Some h ->
  chain (node_fork_db n) h l c -> length l = length ds -> (length ds <= fuel)%nat ->
  exists n', pop_until fuel base n = (Ok tt, n') /\ node_state n' = s0 /\ node_undo n' = rest /\
    node_revision n' = node_revision n - Z.of_nat (length ds) /\ node_log n' = node_log n /\
    node_fork_db n' = set_head (Some c) (node_fork_db n).
Proof.
  revert us fuel h l n. induction ds as [| i ds IH]; intros us fuel h l n Hb Hu Hall Hbase Hwf Hh Hc Hl Hfuel.
  - inversion Hb; subst. exists n. destruct l; [|done]. inversion Hc; subst.
    split_and!; [| done | done | cbn; lia | done |].
    + destruct fuel; cbn; by rewrite Z.eqb_refl.
    + destruct (node_fork_db n) as [? ? ? ? ?]. cbn in *. by rewrite Hh.
  - apply Forall_cons in Hall as [[[x Hx] Hne] Hall]. inversion Hb as [| ? ? s s' us' Hb' Happ]; subst.
    destruct fuel as [| fuel]; [cbn in Hfuel; lia|]. destruct l as [| h0 l]; [done|]. inversion Hc as [| ? p ? ? Hp Hc']; subst. rename h0 into h.
    apply apply_pure_head in Happ as (_ & Hid & _). cbn [pop_until]. rewrite Hid. apply Z.eqb_neq in Hne as ->. cbn [negb].
    assert (held (node_fork_db n) h) as Hhh by (by right). pose proof (parent_held _ Hwf _ _ Hhh Hp) as Hhp.
    pose proof (parent_num _ Hwf _ _ Hhh Hp) as Hn.
    assert (pop_block n = (Ok tt, mk_node s (us' ++ rest) (node_revision n - 1) (set_head (Some p) (node_fork_db n)) (node_log n)
              (block_transactions (item_data x) ++ node_popped_tx n))) as Hpop.
    { unfold pop_block, fetch_block_by_id, fetch_block. rewrite Hid, Hx. unfold fork_pop_block. rewrite Hh. unfold parent in Hp. rewrite Hp.
      cbv zeta. unfold undo. cbn. by rewrite Hu. }
    unfold mbind, node_bind. rewrite Hpop.
    destruct (IH us' fuel p l (mk_node s (us' ++ rest) (node_revision n - 1) (set_head (Some p) (node_fork_db n)) (node_log n)
              (block_transactions (item_data x) ++ node_popped_tx n))) as (n' & -> & E1 & E2 & E3 & E4 & E5); try done.
    + by apply set_head_wf.
    + cbn. apply (chain_set_head _ h); [done | done | done | done | lia | done].
    + cbn in Hl. lia.
    + cbn in Hfuel. lia.
    + exists n'. split_and!; try done. cbn in E3. cbn [length]. lia.
Qed.

(** *** Applying the old branch again *)

Lemma apply_all_run items (n : node St) s : irreversible <= log_head_num n -> irreversible <= node_revision n ->
  stays_reversible skip irreversible (item_data <$> items) (node_state n) ->
  apply_blocks skip (item_data <$> items) (node_state n) = Ok s ->
  exists n', apply_all skip items n = (Ok tt, n') /\ node_state n' = s.
Proof.
  revert n. induction items as [| i l IH]; intros n Hlog Hrev Hst H; cbn in H; [injection H as <-; by exists n|].
  destruct Hst as [Hr1 Hr2]. inv_ok. pose proof (apply_in_session_reversible (item_data i) n Hlog Hrev Hr1) as Happ.
  rewrite Hrun in Happ. destruct Happ as (n1 & c & E & Hst & Es & Er & _ & _).
  cbn. unfold mbind, node_bind. rewrite E. subst a. apply IH; [|lia | by apply Hr2 | done].
  unfold log_head_num in *. by rewrite (stepped_log _ _ _ Hst).
Qed.


(** *** The two branches *)

Lemma chain_elem_held f i l j x : fork_wf f -> held f i -> chain f i l j -> x ∈ l -> held f x.
Proof.
  intros Hwf Hi H. revert Hi. induction H as [i | i p l j Hp _ IH]; intros Hi Hx; [by apply not_elem_of_nil in Hx|].
  apply elem_of_cons in Hx as [-> | Hx]; [done|]. apply IH; [|done]. by eapply parent_held.
Qed.
Lemma below_head f h i : fork_wf f -> fork_head f = Some h -> held f i -> data_num i < data_num h -> fork_index f !! item_id i = Some i.
Proof.
  intros Hwf Hh [[id Hid] | Hi] Hlt; [by rewrite (fork_keyed _ Hwf _ _ Hid)|]. rewrite Hh in Hi. injection Hi as ->. lia.
Qed.

Lemma chain_last f i l z j : chain f i (l ++ [z]) j -> parent f z j /\ (l = [] -> z = i).
Proof.
  revert i. induction l as [| x l IH]; intros i H; inversion H as [| ? p ? ? Hp Hc]; subst.
  - inversion Hc; subst. done.
  - split; [by eapply IH | done].
Qed.

(** The branches of a head [new] that is one block above the head [j] of the chain and not on top of it; [c] is the
    common block *)
Record forked (f : fork_database) (new j c : fork_item) (first second : list fork_item) : Prop := mk_forked {
  forked_first : exists m1 a, first = m1 ++ [a] /\ chain f new m1 a /\ previous_id a = item_id c;
  forked_second : chain f j second c;
  forked_last : exists b, last second = Some b /\ parent f b c;
  forked_length : length first = S (length second);
  forked_index : forall x, x ∈ first \/ x ∈ second \/ x = c -> fork_index f !! item_id x = Some x;
  forked_nums : forall x, x ∈ first \/ x ∈ second -> data_num c < data_num x <= data_num new;
  forked_nodup : NoDup first;
  forked_apart : forall x y, x ∈ first -> y ∈ second \/ y = c -> item_id x <> item_id y
}.

Lemma fetch_branch_forked f new hid j c first second : fork_wf f -> fork_head f = Some new ->
  fork_index f !! item_id new = Some new -> fork_index f !! hid = Some j -> data_num new = data_num j + 1 -> previous_id new <> hid ->
  fetch_branch_from (item_id new) hid f = Ok (first, second) ->
  (exists b, last second = Some b /\ parent f b c) -> forked f new j c first second.
Proof.
  intros Hwf Hh Hnew Hj Hnum Hprev Hbr (b' & Hb' & Hparent).
  destruct (fetch_branch_from_branches f Hwf _ _ _ _ Hbr) as (i & j' & m1 & m2 & a & b & Hi & Hj' & -> & -> & Hc1 & Hc2 & Hpr & Hn & Hdiff).
  rewrite last_snoc in Hb'. injection Hb' as <-. rewrite Hnew in Hi. injection Hi as <-. rewrite Hj in Hj'. injection Hj' as <-.
  assert (held f new) as Hhn by (left; eauto). assert (held f j) as Hhj by (left; eauto).
  pose proof (chain_held _ Hwf _ _ _ Hhn Hc1) as Hha. pose proof (chain_held _ Hwf _ _ _ Hhj Hc2) as Hhb.
  destruct (lock_previous f b c Hwf Hhb Hparent) as [Hhc Hidc]. pose proof (parent_num f Hwf b c Hhb Hparent) as Hnc.
  destruct (chain_nums _ Hwf _ _ _ Hhn Hc1) as [Hna Hnx]. destruct (chain_nums _ Hwf _ _ _ Hhj Hc2) as [Hnb Hny].
  assert (chain f j (m2 ++ [b]) c) as Hc2' by (eapply chain_app; [done | eapply chain_cons; [done | apply chain_nil]]).
  assert (length (m1 ++ [a]) = S (length (m2 ++ [b]))) as Hlen by (rewrite !length_app; cbn; lia).
  assert (forall x, x ∈ m1 ++ [a] -> held f x /\ data_num c < data_num x <= data_num new) as Hfirst.
  { intros x [[k Hk]%list_elem_of_lookup | ->%list_elem_of_singleton]%elem_of_app; [|split; [done | lia]].
    split; [eapply chain_elem_held; [done | exact Hhn | exact Hc1 | by eapply list_elem_of_lookup_2]|].
    pose proof (Hnx _ _ Hk). apply lookup_lt_Some in Hk. lia. }
  assert (forall x, x ∈ m2 ++ [b] -> held f x /\ data_num c < data_num x < data_num new) as Hsecond.
  { intros x [[k Hk]%list_elem_of_lookup | ->%list_elem_of_singleton]%elem_of_app; [|split; [done | lia]].
    split; [eapply chain_elem_held; [done | exact Hhj | exact Hc2 | by eapply list_elem_of_lookup_2]|].
    pose proof (Hny _ _ Hk). apply lookup_lt_Some in Hk. lia. }
  assert (forall x, held f x -> fork_index f !! item_id x = Some x) as Hindex.
  { intros x [[id Hid] | Hx]; [by rewrite (fork_keyed _ Hwf _ _ Hid)|]. rewrite Hh in Hx. by injection Hx as <-. }
  assert (a <> b) as Hab.
  { intros ->. destruct m1 as [| z m1 _] using rev_ind; [rewrite !length_app in Hlen; cbn in Hlen; lia|].
    destruct (chain_last f new m1 z b Hc1) as [Hz Hhead]. assert (held f z) as Hhz by (apply Hfirst; rewrite !elem_of_app; left; right; by apply list_elem_of_singleton).
    destruct (lock_previous f z b Hwf Hhz Hz) as [_ Ez]. pose proof (parent_num f Hwf z b Hhz Hz) as Hnz.
    destruct m2 as [| w m2 _] using rev_ind.
    - assert (m1 = []) as -> by (rewrite !length_app in Hlen; cbn in Hlen; apply nil_length_inv; lia).
      rewrite (Hhead eq_refl) in *. inversion Hc2; subst. apply Hprev. rewrite <- Ez. by apply (fork_keyed _ Hwf).
    - destruct (chain_last f j m2 w b Hc2) as [Hw _].
      assert (held f w) as Hhw by (apply Hsecond; rewrite !elem_of_app; left; right; by apply list_elem_of_singleton).
      destruct (lock_previous f w b Hwf Hhw Hw) as [_ Ew]. pose proof (parent_num f Hwf w b Hhw Hw) as Hnw.
      apply (Hdiff z w); [apply elem_of_app; right; by apply list_elem_of_singleton.. | lia | congruence]. }
  split.
  - exists m1, a. split_and!; [done | done | congruence].
  - done.
  - exists b. by rewrite last_snoc.
  - done.
  - intros x [Hx | [Hx | ->]]; apply Hindex; [by apply Hfirst | by apply Hsecond | done].
  - intros x [Hx | Hx]; [by apply Hfirst | destruct (Hsecond x Hx); lia].
  - apply NoDup_alt. intros k k' x Hk Hk'.
    assert (forall k, (m1 ++ [a]) !! k = Some x -> data_num x = data_num new - Z.of_nat k) as Hx.
    { intros q [Hq | [Hge Hq]]%lookup_app_Some; [by apply Hnx|]. apply list_lookup_singleton_Some in Hq as [Eq <-]. lia. }
    apply Hx in Hk, Hk'. lia.
  - intros x y Hx Hy E. assert (held f y) as Hhy by (destruct Hy as [Hy | ->]; [by apply Hsecond | done]).
    assert (x = y) as <- by (pose proof (Hindex x (proj1 (Hfirst x Hx))); pose proof (Hindex y Hhy); congruence).
    destruct Hy as [Hy | ->]; [|destruct (Hfirst c Hx); lia].
    apply elem_of_app in Hx as [Hx | ->%list_elem_of_singleton], Hy as [Hy | Hy%list_elem_of_singleton].
    + by apply (Hdiff x x).
    + subst x. apply list_elem_of_lookup in Hx as [k Hk]. pose proof (Hnx _ _ Hk). apply lookup_lt_Some in Hk. lia.
    + apply list_elem_of_lookup in Hy as [k Hk]. pose proof (Hny _ _ Hk). apply lookup_lt_Some in Hk. lia.
    + done.
Qed.
Lemma chain_first_elem f i l j : chain f i l j -> (0 < length l)%nat -> exists l', l = i :: l'.
Proof. destruct 1 as [| i p l j]; [cbn; lia | eauto]. Qed.
Lemma chain_take f i l j k : chain f i l j -> (k <= length l)%nat -> exists c, chain f i (take k l) c /\ (c ∈ l \/ c = j).
Proof.
  intros H. revert k. induction H as [i | i p l j Hp Hc IH]; intros k Hk; [exists i; rewrite take_nil; split; [apply chain_nil | by right]|].
  destruct k as [| k]; [exists i; split; [apply chain_nil | left; left]|]. cbn in Hk.
  destruct (IH k ltac:(lia)) as (c & Hc' & Hin). exists c. split; [by eapply chain_cons|]. destruct Hin; [left; by right | by right].
Qed.
Lemma chain_transport f f' i l c : fork_wf f -> fork_wf f' -> held f i ->
  (forall x, x ∈ l \/ x = c -> fork_index f' !! item_id x = Some x) -> chain f i l c -> chain f' i l c.
Proof.
  intros Hwf Hwf' Hi Hin H. induction H as [i | i p l c Hp Hc IH]; [apply chain_nil|].
  pose proof (parent_held f Hwf i p Hi Hp) as Hhp. apply chain_cons with p.
  - assert (fork_index f' !! item_id p = Some p) as Hp'.
    { apply Hin. destruct Hc as [|]; [by right | left; right; left]. }
    unfold parent in *. destruct (item_prev i) as [q|]; [|done]. apply lock_held in Hp as [_ Eq]; [|done]. apply lock_held; [done|].
    split; [left; eauto | done].
  - apply IH; [done|]. intros x [Hx | ->]; apply Hin; [left; by right | by right].
Qed.
Lemma remove_all_index l f id : fork_index (remove_all l f) !! id =
  if bool_decide (id ∈ (fun i => block_id (block_header (item_data i))) <$> l) then None else fork_index f !! id.
Proof.
  revert f. induction l as [| i l IH]; intros f; [cbn; by rewrite bool_decide_false by apply not_elem_of_nil|].
  cbn [remove_all fold_left]. unfold remove_all in IH. rewrite IH. cbn. case_bool_decide as H1; case_bool_decide as H2; try done.
  - exfalso. apply H2. by right.
  - apply elem_of_cons in H2 as [-> | H2]; [apply lookup_delete_eq | done].
  - rewrite lookup_delete_ne; [done|]. intros <-. apply H2. left.
Qed.
Lemma remove_all_wf l f : fork_wf f -> fork_wf (remove_all l f).
Proof. revert f. induction l as [| i l IH]; intros f Hwf; [done|]. cbn. apply IH. by apply fork_remove_wf. Qed.

Lemma built_base s0 ds s us b : built s0 ds s us -> last ds = Some b -> head_block_id s0 = previous_id b.
Proof.
  induction 1 as [| i ds s s' us Hb IH Happ]; [done|]. destruct ds as [| d ds].
  - intros [= <-]. inversion Hb; subst. by apply apply_pure_head in Happ as (-> & _).
  - rewrite last_cons_cons. exact IH.
Qed.


(** *** The way back *)

(** The blocks that are found again after the failed ones were removed *)
Lemma found_again f f3 base failed x : kept_from base f f3 -> fork_index f !! item_id x = Some x -> base <= item_num x ->
  (forall y, y ∈ failed -> item_ok y /\ item_id y <> item_id x) -> fork_index (remove_all failed f3) !! item_id x = Some x.
Proof.
  intros Hk Hx Hn Hne. rewrite remove_all_index, bool_decide_false; [by apply (kept_from_index _ _ _ Hk)|].
  intros (y & E & Hy)%list_elem_of_fmap. destruct (Hne y Hy) as [(Eid & _) Hid]. congruence.
Qed.

Lemma forked_ok f new j c first second x : fork_wf f -> forked f new j c first second ->
  x ∈ first \/ x ∈ second \/ x = c -> item_ok x.
Proof. intros Hwf Hf Hx. apply (fork_items _ Hwf). left. exists (item_id x). by apply (forked_index _ _ _ _ _ _ Hf). Qed.

Lemma forked_found_again f f1 f3 new j c first second ds failed x : fork_wf f -> forked f new j c first second ->
  fork_index f1 = fork_index f -> kept_from (data_num c) f1 f3 -> first ≡ₚ ds ++ failed ->
  x ∈ ds \/ x ∈ second \/ x = c -> fork_index (remove_all failed f3) !! item_id x = Some x.
Proof.
  intros Hwf Hf Eidx Ek Hperm Hx.
  assert (forall y, y ∈ ds \/ y ∈ failed -> y ∈ first) as Hin by (intros y Hy; by rewrite Hperm, elem_of_app).
  assert (x ∈ first \/ x ∈ second \/ x = c) as Hx' by (destruct Hx as [Hx | Hx]; [left; apply Hin; by left | by right]).
  pose proof (forked_index _ _ _ _ _ _ Hf x Hx') as Hxf.
  apply (found_again f1 _ (data_num c)); [done | by rewrite Eidx | |].
  - destruct (forked_ok _ _ _ _ _ _ x Hwf Hf Hx') as (_ & -> & _).
    destruct Hx' as [Hx' | [Hx' | ->]]; [| |lia]; pose proof (forked_nums _ _ _ _ _ _ Hf x) as Hn;
      [specialize (Hn (or_introl Hx')) | specialize (Hn (or_intror Hx'))]; lia.
  - intros y Hy. assert (y ∈ first) as Hyf by (apply Hin; by right). split; [apply (forked_ok _ _ _ _ _ _ y Hwf Hf); by left|]. intros E.
    destruct Hx as [Hx | Hx]; [|by apply (forked_apart _ _ _ _ _ _ Hf y x Hyf Hx)].
    pose proof (forked_index _ _ _ _ _ _ Hf y (or_introl Hyf)) as Hyi. rewrite E in Hyi. assert (x = y) as <- by congruence.
    pose proof (forked_nodup _ _ _ _ _ _ Hf) as Hnd. rewrite Hperm in Hnd. apply NoDup_app in Hnd as (_ & Hdisj & _). by apply (Hdisj x).
Qed.

(** The state the branches start from *)
Lemma forked_base f new j c first second s0 s us : fork_wf f -> forked f new j c first second -> held f j ->
  built s0 second s us -> head_block_id s0 = item_id c /\ branch_base second = item_id c.
Proof.
  intros Hwf Hf Hhj Hb. destruct (forked_last _ _ _ _ _ _ Hf) as (b & Hbl & Hbc).
  assert (item_id c = previous_id b) as ->.
  { eapply lock_previous; [exact Hwf | | exact Hbc].
    eapply chain_elem_held; [exact Hwf | exact Hhj | apply Hf | by eapply last_Some_elem_of]. }
  unfold branch_base. rewrite Hbl. split; [by eapply built_base | done].
Qed.
(** The lowest block of the new branch *)
Lemma forked_lowest f new j c first second a : fork_wf f -> forked f new j c first second -> a ∈ first ->
  previous_id a = item_id c -> data_num a = data_num c + 1.
Proof.
  intros Hwf Hf Ha Hpa. destruct (forked_ok _ _ _ _ _ _ a Hwf Hf ltac:(auto)) as (_ & _ & Hapos).
  pose proof (previous_num a c (forked_ok _ _ _ _ _ _ c Hwf Hf ltac:(auto)) (eq_sym Hpa)) as E. unfold to_uint32_wrap in E.
  pose proof (block_num_range (block_header (item_data c))) as Hr. fold (data_num c) in Hr.
  destruct (decide (data_num c + 1 = 2 ^ 32)) as [E32 |]; [rewrite E32, Z.mod_same in E; lia|]. rewrite Z.mod_small in E; lia.
Qed.
Lemma forked_second_found f new j c first second : fork_wf f -> forked f new j c first second ->
  Forall (fun i => is_Some (fork_index f !! block_id (block_header (item_data i))) /\
                   block_id (block_header (item_data i)) <> item_id c) second.
Proof.
  intros Hwf Hf. apply Forall_forall. intros x Hx. destruct (forked_ok _ _ _ _ _ _ x Hwf Hf ltac:(auto)) as (<- & _).
  pose proof (forked_index _ _ _ _ _ _ Hf x ltac:(auto)) as Hx1. pose proof (forked_index _ _ _ _ _ _ Hf c ltac:(auto)) as Hx2.
  split; [by eexists|]. intros E. rewrite E in Hx1. assert (x = c) as -> by congruence.
  destruct (forked_nums _ _ _ _ _ _ Hf c ltac:(auto)). lia.
Qed.

Lemma go_back_run f new j c first second s0 us2 ds i rest e (n n1 n3 : node St) :
  fork_wf f -> forked f new j c first second -> held f j -> built s0 second (node_state n) us2 ->
  irreversible <= node_revision n1 -> irreversible <= log_head_num n1 ->
  stays_reversible skip irreversible (item_data <$> rev second) s0 ->
  (exists a, node_fork_db n1 = set_head (Some a) f /\ held f a /\ in_switch s0 (data_num c) n1 a ds [] n3) ->
  rev ds ++ i :: rest = rev first ->
  exists n', go_back skip second (item_id c) (i :: rest) e n3 = (Throw e, n') /\ node_state n' = node_state n.
Proof.
  intros Hwf Hf Hhj Hb2 Hrev Hlog Hst (a & Ef1 & Hha & [(us & rest3 & Hb & Hu) Er El Ek _ _]) Efirst.
  pose proof (fun x => forked_ok _ _ _ _ _ _ x Hwf Hf) as Hok.
  assert (first ≡ₚ ds ++ i :: rest) as Hperm by (rewrite (Permutation_rev first), <- Efirst, <- (Permutation_rev ds); done).
  assert (forall x, x ∈ ds -> x ∈ first) as Hds by (intros x Hx; rewrite Hperm; apply elem_of_app; by left).
  pose proof (forked_length _ _ _ _ _ _ Hf) as Hlen. rewrite Hperm, length_app in Hlen. cbn in Hlen.
  assert (fork_index (node_fork_db n1) = fork_index f) as Eidx by (by rewrite Ef1).
  set (f4 := remove_all (i :: rest) (node_fork_db n3)).
  pose proof (fun x => forked_found_again f (node_fork_db n1) (node_fork_db n3) new j c first second ds (i :: rest) x Hwf Hf Eidx Ek Hperm) as Hagain.
  fold f4 in Hagain.
  destruct (chain_first_elem f j second c) as [second' Esec]; [apply Hf | destruct (forked_last _ _ _ _ _ _ Hf) as (b & Hb' & _); destruct second; [done | cbn; lia] |].
  assert (fork_wf (remove_all (i :: rest) (node_fork_db n3))) as Hwf4 by (by apply remove_all_wf, Ek).
  assert (held f4 j) as Hhj4 by (left; exists (item_id j); apply Hagain; rewrite Esec; right; left; left).
  destruct (chain_take f j second c (length ds) (forked_second _ _ _ _ _ _ Hf) ltac:(lia)) as (c' & Hc' & Hin').
  set (n4 := with_fork_db (set_head (hd_error second) f4) n3).
  assert (chain (node_fork_db n4) j (take (length ds) second) c') as Hc4.
  { unfold n4. rewrite Esec in *. cbn [hd_error with_fork_db node_fork_db].
    eapply chain_transport; [exact Hwf | by apply set_head_wf | exact Hhj | | exact Hc']. intros x Hx. apply Hagain. right.
    destruct Hx as [Hx | ->]; [left; by eapply elem_of_take in Hx as (? & ? & _); eapply list_elem_of_lookup_2 | done]. }
  destruct (pop_run s0 ds us rest3 (item_id c) (pop_fuel n4) j (take (length ds) second) c' n4) as (n5 & Hpop & Es & _ & Er5 & El5 & _);
    try done.
  - apply Forall_forall. intros x Hx. destruct (Hok x (or_introl (Hds x Hx))) as (<- & _). split; [eexists; apply Hagain; by left|].
    apply (forked_apart _ _ _ _ _ _ Hf x c (Hds x Hx)). by right.
  - by apply (forked_base _ _ _ _ _ _ _ _ _ Hwf Hf Hhj Hb2).
  - unfold n4. rewrite Esec. by apply set_head_wf.
  - unfold n4. by rewrite Esec.
  - rewrite length_take. lia.
  - unfold pop_fuel, n4. rewrite Esec. cbn. destruct (Hok j) as (_ & -> & _); [rewrite Esec; right; left; left|].
    destruct (chain_nums _ Hwf _ _ _ Hhj (forked_second _ _ _ _ _ _ Hf)) as [Hnc _]. destruct (Hok c) as (_ & _ & Hcpos); [auto|]. lia.
  - destruct (apply_all_run (rev second) n5 (node_state n)) as (n' & Happ & Es').
    + unfold log_head_num in *. rewrite El5. cbn. by rewrite El.
    + rewrite Er5. cbn. lia.
    + by rewrite Es.
    + rewrite Es. by eapply built_blocks.
    + exists n'. split; [|done]. unfold go_back. fold f4. fold n4. cbv zeta.
      unfold mbind, node_bind. rewrite Hpop, Happ. done.
Qed.


(** A branch one block longer than the node's own, which forks from it at the block [c]:
    [c] is not yet irreversible and still in the fork database, [s0] are the objects right
    after it, [us] the older states on the way from there to the head, and the blocks
    of the branch make nothing after [c] irreversible and nothing new go to the block
    log. *)
Record longer_branch (new j c : fork_item) (first second : list fork_item) (s0 : St) (us rest : list St) (n : node St) : Prop := {
  longer_wf : fork_wf (node_fork_db n);
  longer_head : fork_head (node_fork_db n) = Some new;
  longer_new : fork_index (node_fork_db n) !! item_id new = Some new;
  longer_old : fork_index (node_fork_db n) !! head_block_id (node_state n) = Some j;
  longer_num : data_num new = data_num j + 1;
  longer_max : data_num new + 1 < 2 ^ 32;
  longer_fork : previous_id new <> head_block_id (node_state n);
  longer_branches : fetch_branch_from (item_id new) (head_block_id (node_state n)) (node_fork_db n) = Ok (first, second);
  longer_common : exists b, last second = Some b /\ parent (node_fork_db n) b c;
  longer_built : built s0 second (node_state n) us;
  longer_undo : node_undo n = us ++ rest;
  longer_reversible : irreversible <= data_num c;
  longer_log : irreversible <= log_head_num n;
  longer_revision : irreversible + Z.of_nat (length second) <= node_revision n;
  longer_first : stays_reversible skip irreversible (item_data <$> rev first) s0
}.

Lemma switch_run new j c first second s0 us rest (n : node St) : longer_branch new j c first second s0 us rest n ->
  match apply_blocks skip (item_data <$> rev first) s0 with
  | Ok s => exists n', switch_forks skip new n = (Ok true, n') /\ node_state n' = s
  | Throw e => stays_reversible skip irreversible (item_data <$> rev second) s0 ->
      exists n', switch_forks skip new n = (Throw e, n') /\ node_state n' = node_state n
  end.
Proof.
  intros [Hwf Hh Hnew Hj Hnum Hmax Hprev Hbr Hbc Hb Hu Hirr Hlog Hrev Hst1]. set (f := node_fork_db n) in *.
  pose proof (fetch_branch_forked f new _ j c first second Hwf Hh Hnew Hj Hnum Hprev Hbr Hbc) as Hf.
  destruct (forked_first _ _ _ _ _ _ Hf) as (m1 & a & Efirst & Hc1 & Hpa).
  assert (held f new) as Hhn by (left; eauto). assert (held f j) as Hhj by (left; eauto).
  pose proof (chain_held _ Hwf _ _ _ Hhn Hc1) as Hha. pose proof (fun x => forked_ok _ _ _ _ _ _ x Hwf Hf) as Hok.
  pose proof (forked_length _ _ _ _ _ _ Hf) as Hlen. rewrite Efirst, length_app in Hlen. cbn in Hlen.
  destruct (chain_nums _ Hwf _ _ _ Hhn Hc1) as [Hna _]. destruct (Hok c) as (_ & _ & Hcpos); [auto|].
  assert (a ∈ first) as Hain by (rewrite Efirst; apply elem_of_app; right; by apply list_elem_of_singleton).
  destruct (Hok a) as (_ & Ena & Hapos); [auto|].
  pose proof (forked_lowest _ _ _ _ _ _ a Hwf Hf Hain Hpa) as Hac.
  destruct (forked_base _ _ _ _ _ _ _ _ _ Hwf Hf Hhj Hb) as [Hbase Ebase].
  destruct (pop_run s0 second us rest (item_id c) (pop_fuel n) new m1 a n) as (n1 & Hpop & Es & Eu & Er & El & Ef1); try done.
  { by apply (forked_second_found _ new j c first). }
  { lia. }
  { unfold pop_fuel. fold f. rewrite Hh. destruct (fork_items _ Hwf new Hhn) as [(_ & -> & _) _]. lia. }
  assert (switch_forks skip new n = switch_to skip (go_back skip second (item_id c)) (rev first) n1) as Esw.
  { unfold switch_forks. destruct (Hok new) as (Enew & _ & _); [left; rewrite Efirst; destruct Hc1; [left | by left]|].
    rewrite <- Enew. fold f. rewrite Hbr. cbv zeta. unfold mbind, node_bind. by rewrite Ebase, Hpop. }
  pose proof (switch_to_run s0 (data_num c) (go_back skip second (item_id c)) Hirr n1 a (rev first) n1 []) as Hrun.
  rewrite Es in Hrun. rewrite Esw. destruct (apply_blocks skip (item_data <$> rev first) s0) as [s | e].
  all: destruct Hrun as [ds Hrun]; [lia | unfold log_head_num in *; by rewrite El | | |].
  1, 4: apply Forall_forall; intros x Hx; rewrite <- Permutation_rev in Hx; pose proof (forked_nums _ _ _ _ _ _ Hf x ltac:(auto)); lia.
  1, 3: split; [exists [], rest; rewrite Es; split; [constructor | done] | cbn; lia | done | | by rewrite Ef1 | by rewrite Es];
    rewrite Ef1; apply kept_from_refl, set_head_wf; [done | done].
  - eauto.
  - intros Hst2. destruct Hrun as (i & rest' & n3 & Eds & Hin & ->).
    apply (go_back_run f new j c first second s0 us ds i rest' e n n1 n3); try done; [lia | unfold log_head_num in *; by rewrite El | by exists a].
Qed.

(** The head is lower than the longer branch. *)
Lemma longer_higher new j c first second s0 us rest (n : node St) : longer_branch new j c first second s0 us rest n ->
  head_block_num (node_state n) < data_num new.
Proof.
  intros [Hwf _ _ Hj Hnum _ _ _ (b & Hlast & _) Hb _ _ _ _ _]. inversion Hb as [E | i ds s s' us' _ Hi]; subst; [done|].
  apply apply_pure_head in Hi as (_ & Hid & Hn). assert (held (node_fork_db n) j) as Hhj by (left; eauto).
  destruct (fork_items _ Hwf j Hhj) as [(Eid & _) _]. pose proof (fork_keyed _ Hwf _ _ Hj) as Ekey. cbn in Ekey.
  assert (data_num j = head_block_num (node_state n)) as Ej; [|lia].
  unfold data_num. rewrite <- (num_from_block_id (block_header (item_data j))), <- Eid, Ekey, Hid, num_from_block_id. by rewrite Hn.
Qed.

(** A pushed block that ends a longer branch makes the node switch. *)
Lemma push_longer b new f j c first second s0 us rest (n : node St) : has_flag skip skip_fork_db = false ->
  fork_push_block b (node_fork_db n) = Ok (Some new, f) ->
  longer_branch new j c first second s0 us rest (with_fork_db f n) ->
  push_block skip b n = switch_forks skip new (with_fork_db f n).
Proof.
  intros Hskip Hf Hl. unfold push_block. rewrite Hskip, Hf. cbn [negb]. cbv zeta.
  rewrite (proj2 (Z.eqb_neq _ _) (longer_fork _ _ _ _ _ _ _ _ _ Hl)). cbn [negb].
  pose proof (longer_higher _ _ _ _ _ _ _ _ _ Hl) as Hhigh. by rewrite (proj2 (Z.gtb_lt _ _) Hhigh).
Qed.

(** C16: A pushed block that makes another branch longer moves the node to that branch.
    The conditions are those of [longer_branch], of the node with the block in its fork
    database: the branch is then one block longer than the node's own and both are linked
    there down to a common block; that block is not below the irreversible one; the block
    log reaches up to the irreversible one, and the blocks of the branch make nothing
    later irreversible; and the node has the undo sessions of its own blocks after the
    common one.  When the blocks of the branch then apply one after the other to the
    objects right after the common block, the push succeeds and the node ends with exactly
    the objects they give. *)
Theorem longer_branch_adopted b new f j c first second s0 us rest s (n : node St) :
  has_flag skip skip_fork_db = false -> fork_push_block b (node_fork_db n) = Ok (Some new, f) ->
  longer_branch new j c first second s0 us rest (with_fork_db f n) -> apply_blocks skip (item_data <$> rev first) s0 = Ok s ->
  exists n', push_block skip b n = (Ok true, n') /\ node_state n' = s.
Proof.
  intros Hskip Hf Hl E. rewrite (push_longer _ _ _ _ _ _ _ _ _ _ _ Hskip Hf Hl).
  pose proof (switch_run _ _ _ _ _ _ _ _ _ Hl) as Hrun. by rewrite E in Hrun.
Qed.

(** C17: A failed switch is undone.  Under the same conditions, and when the node's own
    blocks after the common one make nothing later irreversible either: if a block of the
    longer branch does not apply, the node returns to the blocks it had, the push throws
    the exception of that block, and the objects are exactly those before the push. *)
Theorem failed_switch_restores b new f j c first second s0 us rest e (n : node St) :
  has_flag skip skip_fork_db = false -> fork_push_block b (node_fork_db n) = Ok (Some new, f) ->
  longer_branch new j c first second s0 us rest (with_fork_db f n) ->
  stays_reversible skip irreversible (item_data <$> rev second) s0 ->
  apply_blocks skip (item_data <$> rev first) s0 = Throw e ->
  exists n', push_block skip b n = (Throw e, n') /\ node_state n' = node_state n.
Proof.
  intros Hskip Hf Hl Hst E. rewrite (push_longer _ _ _ _ _ _ _ _ _ _ _ Hskip Hf Hl).
  pose proof (switch_run _ _ _ _ _ _ _ _ _ Hl) as Hrun. rewrite E in Hrun. by apply Hrun.
Qed.
End GoBack.

(** ** A block that does not apply *)

Section Stale.
Context {St : Type} `{C : crypto_ops} `{Ops : chain_ops St} {Laws : chain_laws St}.





End Stale.

(** ** A toy chain

    States that know only the head and the last irreversible block; the
    timestamps 14 and 13 stand for blocks whose first or second part does not apply. *)
Record toy := mk_toy { toy_id : Z; toy_num : Z; toy_irreversible : Z }.
#[export] Instance toy_ops : chain_ops toy := {|
  head_block_id := toy_id;
  head_block_num := toy_num;
  last_irreversible_block_num := toy_irreversible;
  prepare_block _ b s :=
    fc_assert (toy_id s =? header_previous (block_header b)) ;;
    fc_assert (negb (header_timestamp (block_header b) =? 14)) ;;
    Ok (mk_toy (block_id (block_header b)) (block_num (block_header b)) (toy_irreversible s));
  finish_block _ b s := fc_assert (negb (header_timestamp (block_header b) =? 13)) ;; Ok s
|}.
#[export] Instance toy_laws : chain_laws toy.
Proof.
  split; intros skip b s s' H; cbn in H; inv_ok.
  - cbn. split_and!; [lia | done | done].
  - done.
Qed.

Definition toy_start : node toy := mk_node (mk_toy 0 0 0) [] 0 fork_database_init [] [].
Definition toy_pushed : node toy :=
  snd (push_block skip_block_log toy_2b (snd (push_block skip_block_log toy_2a (snd (push_block skip_block_log toy_1 toy_start))))).

Lemma toy_push_wf b (n : node toy) : fork_wf (node_fork_db n) -> 0 < block_num (block_header b) ->
  fst (push_block skip_block_log b n) = Ok false -> fork_wf (node_fork_db (snd (push_block skip_block_log b n))).
Proof.
  intros Hwf Hpos H. apply (push_block_wf skip_block_log b n false); [done | done |].
  destruct (push_block skip_block_log b n) as [r n']. cbn in *. by subst.
Qed.
Lemma toy_pushed_wf : fork_wf (node_fork_db toy_pushed).
Proof. unfold toy_pushed. do 3 (apply toy_push_wf; [| vm_compute; reflexivity | vm_compute; reflexivity]). apply wf_init. Qed.

Lemma push_block_switches_witness :
  exists new_head f first second s0 k l h,
    fork_push_block toy_3b (node_fork_db toy_pushed) = Ok (Some new_head, f) /\
    fetch_branch_from (item_id new_head) (head_block_id (node_state toy_pushed)) f = Ok (first, second) /\
    (node_state toy_pushed :: node_undo toy_pushed) !! k = Some s0 /\ head_block_id s0 = branch_base second /\
    apply_blocks skip_block_log (item_data <$> rev first) s0 = Ok (node_state (snd (push_block skip_block_log toy_3b toy_pushed))) /\
    head_block_id (node_state (snd (push_block skip_block_log toy_3b toy_pushed))) = item_id new_head /\
    head_block_num (node_state toy_pushed) < data_num new_head /\
    chain f new_head l h /\ length l = k /\
    fork_head (node_fork_db (snd (push_block skip_block_log toy_3b toy_pushed))) = Some h.
Proof.
  refine (push_block_switches skip_block_log toy_3b toy_pushed (snd (push_block skip_block_log toy_3b toy_pushed)) toy_pushed_wf _ _);
    vm_compute; reflexivity.
Defined.

(** The node with the longer branch in its fork database, just before the switch *)
Definition toy_node (b : signed_block) : node toy :=
  match fork_push_block b (node_fork_db toy_pushed) with Ok (_, f) => with_fork_db f toy_pushed | Throw _ => toy_pushed end.
Definition toy_item (n : node toy) (b : signed_block) : fork_item :=
  match fork_index (node_fork_db n) !! toy_block_id b with Some i => i | None => make_item 0 b end.

Lemma toy_reversible skip bs (s : toy) : toy_irreversible s = 0 -> stays_reversible skip 0 bs s.
Proof.
  revert s. induction bs as [| b l IH]; intros s Hs; [done|]. split.
  - intros s1 H. cbn in H. inv_ok. cbn. lia.
  - intros s1 H. apply IH. unfold apply_pure in H. cbn in H. inv_ok. done.
Qed.
Lemma toy_longer b : b ∈ [toy_3b; toy_3bad] ->
  let n := toy_node b in
  longer_branch skip_block_log 0 (toy_item n b) (toy_item n toy_2a) (toy_item n toy_1) [toy_item n b; toy_item n toy_2b] [toy_item n toy_2a]
    (mk_toy (toy_block_id toy_1) 1 0) [mk_toy (toy_block_id toy_1) 1 0] [mk_toy 0 0 0] n.
Proof.
  intros Hb. cbv zeta. rewrite !elem_of_cons, elem_of_nil in Hb. destruct Hb as [-> | [-> | []]]; split.
  all: lazymatch goal with
    | |- fork_wf _ => idtac
    | |- stays_reversible _ _ _ _ => by apply toy_reversible
    | |- built _ _ _ _ _ => eapply built_cons; [constructor | vm_compute; reflexivity]
    | |- exists _, _ => exists (toy_item (toy_node toy_3b) toy_2a); split; vm_compute; reflexivity
    | |- _ => vm_compute; first [reflexivity | discriminate]
    end.
  - eapply (fork_push_block_wf toy_3b (node_fork_db toy_pushed)); [apply toy_pushed_wf | vm_compute; reflexivity..].
  - eapply (fork_push_block_wf toy_3bad (node_fork_db toy_pushed)); [apply toy_pushed_wf | vm_compute; reflexivity..].
Qed.

Lemma toy_push b : b ∈ [toy_3b; toy_3bad] ->
  exists f, fork_push_block b (node_fork_db toy_pushed) = Ok (Some (toy_item (toy_node b) b), f) /\ with_fork_db f toy_pushed = toy_node b.
Proof.
  rewrite !elem_of_cons, elem_of_nil. intros [-> | [-> | []]]; (eexists; split; [vm_compute; reflexivity | vm_compute; reflexivity]).
Qed.
Lemma longer_branch_adopted_witness :
  exists n', push_block skip_block_log toy_3b toy_pushed = (Ok true, n') /\ node_state n' = mk_toy (toy_block_id toy_3b) 3 0.
Proof.
  destruct (toy_push toy_3b) as (f & Hf & En); [left|]. pose proof (toy_longer toy_3b ltac:(left)) as Hl. cbv zeta in Hl.
  rewrite <- En in Hl at 7.
  refine (longer_branch_adopted skip_block_log 0 toy_3b _ f _ _ _ _ _ _ _ (mk_toy (toy_block_id toy_3b) 3 0) toy_pushed eq_refl Hf Hl _).
  vm_compute. reflexivity.
Defined.
Lemma failed_switch_restores_witness :
  exists n', push_block skip_block_log toy_3bad toy_pushed = (Throw fc_assert_exception, n') /\ node_state n' = node_state toy_pushed.
Proof.
  destruct (toy_push toy_3bad) as (f & Hf & En); [right; left|]. pose proof (toy_longer toy_3bad ltac:(right; left)) as Hl. cbv zeta in Hl.
  rewrite <- En in Hl at 7.
  refine (failed_switch_restores skip_block_log 0 toy_3bad _ f _ _ _ _ _ _ _ fc_assert_exception toy_pushed eq_refl Hf Hl _ _).
  - by apply toy_reversible.
  - vm_compute. reflexivity.
Defined.

