(* ===== verification/Objects.v ===== *)
(** * Chain objects

    The objects the chain keeps in its database, from
    [libraries/chain/include/golos/chain/]: [account_object.hpp],
    [steem_objects.hpp], [global_property_object.hpp], [witness_objects.hpp],
    [transaction_object.hpp], [block_summary_object.hpp], and [hardfork.d].  A
    field [f] of an object is the projection with the object's prefix
    ([account_f], [escrow_f], [dgp_f], ...).  Object ids, versions and digests are
    numbers; [shared_authority] is [authority]. *)

From S2P Require Import Prelude Exceptions Fc Config Asset FlatMap Authority Operations.

(** [bandwidth_type] *)
Inductive bandwidth_type := post | forum | market | custom_json.
#[export] Instance bandwidth_type_eq_dec : EqDecision bandwidth_type.
Proof. solve_decision. Defined.
#[export] Instance bandwidth_type_countable : Countable bandwidth_type := inj_countable'
  (fun t => match t with post => 0 | forum => 1 | market => 2 | custom_json => 3 end)%nat
  (fun n => match n with O => post | 1 => forum | 2 => market | _ => custom_json end)%nat
  ltac:(by intros []).

(** [witness_object::witness_schedule_type] *)
Inductive witness_schedule_type := top19 | timeshare | miner | none.

(** ** [account_object.hpp] *)

(** [account_object] *)
Record account_object := mk_account_object {
  account_id : Z;
  account_name : string;
  account_memo_key : Z;
  account_proxy : string;
  account_last_account_update : Z;
  account_created : Z;
  account_mined : bool;
  account_owner_challenged : bool;
  account_active_challenged : bool;
  account_last_owner_proved : Z;
  account_last_active_proved : Z;
  account_recovery_account : string;
  account_reset_account : string;
  account_last_account_recovery : Z;
  account_comment_count : Z;
  account_lifetime_vote_count : Z;
  account_post_count : Z;
  account_can_vote : bool;
  account_voting_power : Z;
  account_posts_capacity : Z;
  account_comments_capacity : Z;
  account_voting_capacity : Z;
  account_last_vote_time : Z;
  account_balance : asset;
  account_savings_balance : asset;
  account_sbd_balance : asset;
  account_sbd_seconds : Z;
  account_sbd_seconds_last_update : Z;
  account_sbd_last_interest_payment : Z;
  account_savings_sbd_balance : asset;
  account_savings_sbd_seconds : Z;
  account_savings_sbd_seconds_last_update : Z;
  account_savings_sbd_last_interest_payment : Z;
  account_savings_withdraw_requests : Z;
  account_benefaction_rewards : Z;
  account_curation_rewards : Z;
  account_delegation_rewards : Z;
  account_posting_rewards : Z;
  account_vesting_shares : asset;
  account_delegated_vesting_shares : asset;
  account_received_vesting_shares : asset;
  account_vesting_withdraw_rate : asset;
  account_next_vesting_withdrawal : Z;
  account_withdrawn : Z;
  account_to_withdraw : Z;
  account_withdraw_routes : Z;
  account_proxied_vsf_votes : list Z;
  account_witnesses_voted_for : Z;
  account_last_post : Z;
  account_referrer_account : string;
  account_referrer_interest_rate : Z;
  account_referral_end_date : Z;
  account_referral_break_fee : asset
}.
#[export] Instance account_object_rebuild : Rebuild account_object := fun o =>
  mk_account_object (account_id o) (account_name o) (account_memo_key o) (account_proxy o) (account_last_account_update o) (account_created o) (account_mined o) (account_owner_challenged o) (account_active_challenged o) (account_last_owner_proved o) (account_last_active_proved o) (account_recovery_account o) (account_reset_account o) (account_last_account_recovery o) (account_comment_count o) (account_lifetime_vote_count o) (account_post_count o) (account_can_vote o) (account_voting_power o) (account_posts_capacity o) (account_comments_capacity o) (account_voting_capacity o) (account_last_vote_time o) (account_balance o) (account_savings_balance o) (account_sbd_balance o) (account_sbd_seconds o) (account_sbd_seconds_last_update o) (account_sbd_last_interest_payment o) (account_savings_sbd_balance o) (account_savings_sbd_seconds o) (account_savings_sbd_seconds_last_update o) (account_savings_sbd_last_interest_payment o) (account_savings_withdraw_requests o) (account_benefaction_rewards o) (account_curation_rewards o) (account_delegation_rewards o) (account_posting_rewards o) (account_vesting_shares o) (account_delegated_vesting_shares o) (account_received_vesting_shares o) (account_vesting_withdraw_rate o) (account_next_vesting_withdrawal o) (account_withdrawn o) (account_to_withdraw o) (account_withdraw_routes o) (account_proxied_vsf_votes o) (account_witnesses_voted_for o) (account_last_post o) (account_referrer_account o) (account_referrer_interest_rate o) (account_referral_end_date o) (account_referral_break_fee o).

(** [account_authority_object] *)
Record account_authority_object := mk_account_authority_object {
  auth_id : Z;
  auth_account : string;
  auth_owner : authority;
  auth_active : authority;
  auth_posting : authority;
  auth_last_owner_update : Z
}.
#[export] Instance account_authority_object_rebuild : Rebuild account_authority_object := fun o =>
  mk_account_authority_object (auth_id o) (auth_account o) (auth_owner o) (auth_active o) (auth_posting o) (auth_last_owner_update o).

(** [account_bandwidth_object] *)
Record account_bandwidth_object := mk_account_bandwidth_object {
  account_bandwidth_id : Z;
  account_bandwidth_account : string;
  account_bandwidth_type : bandwidth_type;
  account_bandwidth_average_bandwidth : Z;
  account_bandwidth_lifetime_bandwidth : Z;
  account_bandwidth_last_bandwidth_update : Z
}.
#[export] Instance account_bandwidth_object_rebuild : Rebuild account_bandwidth_object := fun o =>
  mk_account_bandwidth_object (account_bandwidth_id o) (account_bandwidth_account o) (account_bandwidth_type o) (account_bandwidth_average_bandwidth o) (account_bandwidth_lifetime_bandwidth o) (account_bandwidth_last_bandwidth_update o).

(** [account_metadata_object] *)
Record account_metadata_object := mk_account_metadata_object {
  metadata_id : Z;
  metadata_account : string;
  metadata_json_metadata : string
}.
#[export] Instance account_metadata_object_rebuild : Rebuild account_metadata_object := fun o =>
  mk_account_metadata_object (metadata_id o) (metadata_account o) (metadata_json_metadata o).

(** [vesting_delegation_object] *)
Record vesting_delegation_object := mk_vesting_delegation_object {
  delegation_id : Z;
  delegation_delegator : string;
  delegation_delegatee : string;
  delegation_vesting_shares : asset;
  delegation_interest_rate : Z;
  delegation_payout_strategy : delegator_payout_strategy;
  delegation_min_delegation_time : Z
}.
#[export] Instance vesting_delegation_object_rebuild : Rebuild vesting_delegation_object := fun o =>
  mk_vesting_delegation_object (delegation_id o) (delegation_delegator o) (delegation_delegatee o) (delegation_vesting_shares o) (delegation_interest_rate o) (delegation_payout_strategy o) (delegation_min_delegation_time o).

(** [vesting_delegation_expiration_object] *)
Record vesting_delegation_expiration_object := mk_vesting_delegation_expiration_object {
  delegation_expiration_id : Z;
  delegation_expiration_delegator : string;
  delegation_expiration_vesting_shares : asset;
  delegation_expiration_expiration : Z
}.
#[export] Instance vesting_delegation_expiration_object_rebuild : Rebuild vesting_delegation_expiration_object := fun o =>
  mk_vesting_delegation_expiration_object (delegation_expiration_id o) (delegation_expiration_delegator o) (delegation_expiration_vesting_shares o) (delegation_expiration_expiration o).

(** [owner_authority_history_object] *)
Record owner_authority_history_object := mk_owner_authority_history_object {
  owner_history_id : Z;
  owner_history_account : string;
  owner_history_previous_owner_authority : authority;
  owner_history_last_valid_time : Z
}.
#[export] Instance owner_authority_history_object_rebuild : Rebuild owner_authority_history_object := fun o =>
  mk_owner_authority_history_object (owner_history_id o) (owner_history_account o) (owner_history_previous_owner_authority o) (owner_history_last_valid_time o).

(** [account_recovery_request_object] *)
Record account_recovery_request_object := mk_account_recovery_request_object {
  recovery_request_id : Z;
  recovery_request_account_to_recover : string;
  recovery_request_new_owner_authority : authority;
  recovery_request_expires : Z
}.
#[export] Instance account_recovery_request_object_rebuild : Rebuild account_recovery_request_object := fun o =>
  mk_account_recovery_request_object (recovery_request_id o) (recovery_request_account_to_recover o) (recovery_request_new_owner_authority o) (recovery_request_expires o).

(** [change_recovery_account_request_object] *)
Record change_recovery_account_request_object := mk_change_recovery_account_request_object {
  change_recovery_id : Z;
  change_recovery_account_to_recover : string;
  change_recovery_recovery_account : string;
  change_recovery_effective_on : Z
}.
#[export] Instance change_recovery_account_request_object_rebuild : Rebuild change_recovery_account_request_object := fun o =>
  mk_change_recovery_account_request_object (change_recovery_id o) (change_recovery_account_to_recover o) (change_recovery_recovery_account o) (change_recovery_effective_on o).

(** ** [steem_objects.hpp] *)

(** [convert_request_object] *)
Record convert_request_object := mk_convert_request_object {
  convert_request_id : Z;
  convert_request_owner : string;
  convert_request_requestid : Z;
  convert_request_amount : asset;
  convert_request_conversion_date : Z
}.
#[export] Instance convert_request_object_rebuild : Rebuild convert_request_object := fun o =>
  mk_convert_request_object (convert_request_id o) (convert_request_owner o) (convert_request_requestid o) (convert_request_amount o) (convert_request_conversion_date o).

(** [escrow_object] *)
Record escrow_object := mk_escrow_object {
  escrow_id : Z;
  escrow_escrow_id : Z;
  escrow_from : string;
  escrow_to : string;
  escrow_agent : string;
  escrow_ratification_deadline : Z;
  escrow_escrow_expiration : Z;
  escrow_sbd_balance : asset;
  escrow_steem_balance : asset;
  escrow_pending_fee : asset;
  escrow_to_approved : bool;
  escrow_agent_approved : bool;
  escrow_disputed : bool
}.
#[export] Instance escrow_object_rebuild : Rebuild escrow_object := fun o =>
  mk_escrow_object (escrow_id o) (escrow_escrow_id o) (escrow_from o) (escrow_to o) (escrow_agent o) (escrow_ratification_deadline o) (escrow_escrow_expiration o) (escrow_sbd_balance o) (escrow_steem_balance o) (escrow_pending_fee o) (escrow_to_approved o) (escrow_agent_approved o) (escrow_disputed o).

(** [savings_withdraw_object] *)
Record savings_withdraw_object := mk_savings_withdraw_object {
  savings_withdraw_id : Z;
  savings_withdraw_from : string;
  savings_withdraw_to : string;
  savings_withdraw_memo : string;
  savings_withdraw_request_id : Z;
  savings_withdraw_amount : asset;
  savings_withdraw_complete : Z
}.
#[export] Instance savings_withdraw_object_rebuild : Rebuild savings_withdraw_object := fun o =>
  mk_savings_withdraw_object (savings_withdraw_id o) (savings_withdraw_from o) (savings_withdraw_to o) (savings_withdraw_memo o) (savings_withdraw_request_id o) (savings_withdraw_amount o) (savings_withdraw_complete o).

(** [liquidity_reward_balance_object] *)
Record liquidity_reward_balance_object := mk_liquidity_reward_balance_object {
  liquidity_id : Z;
  liquidity_owner : Z;
  liquidity_steem_volume : Z;
  liquidity_sbd_volume : Z;
  liquidity_weight : Z;
  liquidity_last_update : Z
}.
#[export] Instance liquidity_reward_balance_object_rebuild : Rebuild liquidity_reward_balance_object := fun o =>
  mk_liquidity_reward_balance_object (liquidity_id o) (liquidity_owner o) (liquidity_steem_volume o) (liquidity_sbd_volume o) (liquidity_weight o) (liquidity_last_update o).

(** [feed_history_object] *)
Record feed_history_object := mk_feed_history_object {
  feed_id : Z;
  feed_current_median_history : price;
  feed_price_history : list price
}.
#[export] Instance feed_history_object_rebuild : Rebuild feed_history_object := fun o =>
  mk_feed_history_object (feed_id o) (feed_current_median_history o) (feed_price_history o).

(** [limit_order_object] *)
Record limit_order_object := mk_limit_order_object {
  limit_order_id : Z;
  limit_order_created : Z;
  limit_order_expiration : Z;
  limit_order_seller : string;
  limit_order_orderid : Z;
  limit_order_for_sale : Z;
  limit_order_sell_price : price
}.
#[export] Instance limit_order_object_rebuild : Rebuild limit_order_object := fun o =>
  mk_limit_order_object (limit_order_id o) (limit_order_created o) (limit_order_expiration o) (limit_order_seller o) (limit_order_orderid o) (limit_order_for_sale o) (limit_order_sell_price o).

(** [withdraw_vesting_route_object] *)
Record withdraw_vesting_route_object := mk_withdraw_vesting_route_object {
  route_id : Z;
  route_from_account : Z;
  route_to_account : Z;
  route_percent : Z;
  route_auto_vest : bool
}.
#[export] Instance withdraw_vesting_route_object_rebuild : Rebuild withdraw_vesting_route_object := fun o =>
  mk_withdraw_vesting_route_object (route_id o) (route_from_account o) (route_to_account o) (route_percent o) (route_auto_vest o).

(** [decline_voting_rights_request_object] *)
Record decline_voting_rights_request_object := mk_decline_voting_rights_request_object {
  decline_request_id : Z;
  decline_request_account : Z;
  decline_request_effective_date : Z
}.
#[export] Instance decline_voting_rights_request_object_rebuild : Rebuild decline_voting_rights_request_object := fun o =>
  mk_decline_voting_rights_request_object (decline_request_id o) (decline_request_account o) (decline_request_effective_date o).

(** ** [global_property_object.hpp] *)

(** [dynamic_global_property_object] *)
Record dynamic_global_property_object := mk_dynamic_global_property_object {
  dgp_id : Z;
  dgp_head_block_number : Z;
  dgp_head_block_id : Z;
  dgp_time : Z;
  dgp_current_witness : string;
  dgp_total_pow : Z;
  dgp_num_pow_witnesses : Z;
  dgp_virtual_supply : asset;
  dgp_current_supply : asset;
  dgp_confidential_supply : asset;
  dgp_current_sbd_supply : asset;
  dgp_confidential_sbd_supply : asset;
  dgp_total_vesting_fund_steem : asset;
  dgp_total_vesting_shares : asset;
  dgp_total_reward_fund_steem : asset;
  dgp_total_reward_shares2 : Z;
  dgp_sbd_interest_rate : Z;
  dgp_sbd_print_rate : Z;
  dgp_is_forced_min_price : bool;
  dgp_average_block_size : Z;
  dgp_maximum_block_size : Z;
  dgp_current_aslot : Z;
  dgp_recent_slots_filled : Z;
  dgp_participation_count : Z;
  dgp_last_irreversible_block_num : Z;
  dgp_max_virtual_bandwidth : Z;
  dgp_current_reserve_ratio : Z;
  dgp_vote_regeneration_per_day : Z;
  dgp_custom_ops_bandwidth_multiplier : Z;
  dgp_transit_block_num : Z;
  dgp_transit_witnesses : list string
}.
#[export] Instance dynamic_global_property_object_rebuild : Rebuild dynamic_global_property_object := fun o =>
  mk_dynamic_global_property_object (dgp_id o) (dgp_head_block_number o) (dgp_head_block_id o) (dgp_time o) (dgp_current_witness o) (dgp_total_pow o) (dgp_num_pow_witnesses o) (dgp_virtual_supply o) (dgp_current_supply o) (dgp_confidential_supply o) (dgp_current_sbd_supply o) (dgp_confidential_sbd_supply o) (dgp_total_vesting_fund_steem o) (dgp_total_vesting_shares o) (dgp_total_reward_fund_steem o) (dgp_total_reward_shares2 o) (dgp_sbd_interest_rate o) (dgp_sbd_print_rate o) (dgp_is_forced_min_price o) (dgp_average_block_size o) (dgp_maximum_block_size o) (dgp_current_aslot o) (dgp_recent_slots_filled o) (dgp_participation_count o) (dgp_last_irreversible_block_num o) (dgp_max_virtual_bandwidth o) (dgp_current_reserve_ratio o) (dgp_vote_regeneration_per_day o) (dgp_custom_ops_bandwidth_multiplier o) (dgp_transit_block_num o) (dgp_transit_witnesses o).

(** ** [witness_objects.hpp] *)

(** [witness_object] *)
Record witness_object := mk_witness_object {
  witness_id : Z;
  witness_owner : string;
  witness_created : Z;
  witness_url : string;
  witness_total_missed : Z;
  witness_last_aslot : Z;
  witness_last_confirmed_block_num : Z;
  witness_pow_worker : Z;
  witness_signing_key : Z;
  witness_props : chain_properties_19;
  witness_sbd_exchange_rate : price;
  witness_last_sbd_exchange_update : Z;
  witness_votes : Z;
  witness_schedule : witness_schedule_type;
  witness_virtual_last_update : Z;
  witness_virtual_position : Z;
  witness_virtual_scheduled_time : Z;
  witness_last_work : Z;
  witness_running_version : Z;
  witness_hardfork_version_vote : Z;
  witness_hardfork_time_vote : Z;
  witness_transit_to_cyberway_vote : Z
}.
#[export] Instance witness_object_rebuild : Rebuild witness_object := fun o =>
  mk_witness_object (witness_id o) (witness_owner o) (witness_created o) (witness_url o) (witness_total_missed o) (witness_last_aslot o) (witness_last_confirmed_block_num o) (witness_pow_worker o) (witness_signing_key o) (witness_props o) (witness_sbd_exchange_rate o) (witness_last_sbd_exchange_update o) (witness_votes o) (witness_schedule o) (witness_virtual_last_update o) (witness_virtual_position o) (witness_virtual_scheduled_time o) (witness_last_work o) (witness_running_version o) (witness_hardfork_version_vote o) (witness_hardfork_time_vote o) (witness_transit_to_cyberway_vote o).

(** [witness_vote_object] *)
Record witness_vote_object := mk_witness_vote_object {
  witness_vote_id : Z;
  witness_vote_witness : Z;
  witness_vote_account : Z
}.
#[export] Instance witness_vote_object_rebuild : Rebuild witness_vote_object := fun o =>
  mk_witness_vote_object (witness_vote_id o) (witness_vote_witness o) (witness_vote_account o).

(** [witness_schedule_object] *)
Record witness_schedule_object := mk_witness_schedule_object {
  wso_id : Z;
  wso_current_virtual_time : Z;
  wso_next_shuffle_block_num : Z;
  wso_current_shuffled_witnesses : list string;
  wso_num_scheduled_witnesses : Z;
  wso_top19_weight : Z;
  wso_timeshare_weight : Z;
  wso_miner_weight : Z;
  wso_witness_pay_normalization_factor : Z;
  wso_median_props : chain_properties_19;
  wso_majority_version : Z
}.
#[export] Instance witness_schedule_object_rebuild : Rebuild witness_schedule_object := fun o =>
  mk_witness_schedule_object (wso_id o) (wso_current_virtual_time o) (wso_next_shuffle_block_num o) (wso_current_shuffled_witnesses o) (wso_num_scheduled_witnesses o) (wso_top19_weight o) (wso_timeshare_weight o) (wso_miner_weight o) (wso_witness_pay_normalization_factor o) (wso_median_props o) (wso_majority_version o).

(** ** [hardfork.d/0-preamble.hf] *)

(** [hardfork_property_object] *)
Record hardfork_property_object := mk_hardfork_property_object {
  hpo_id : Z;
  hpo_processed_hardforks : list Z;
  hpo_last_hardfork : Z;
  hpo_current_hardfork_version : Z;
  hpo_next_hardfork : Z;
  hpo_next_hardfork_time : Z
}.
#[export] Instance hardfork_property_object_rebuild : Rebuild hardfork_property_object := fun o =>
  mk_hardfork_property_object (hpo_id o) (hpo_processed_hardforks o) (hpo_last_hardfork o) (hpo_current_hardfork_version o) (hpo_next_hardfork o) (hpo_next_hardfork_time o).

(** ** [transaction_object.hpp], [block_summary_object.hpp] *)

(** [transaction_object]; the packed transaction is not looked at. *)
Record transaction_object := mk_transaction_object {
  transaction_id : Z;
  transaction_trx_id : Z;
  transaction_expiration : Z
}.
#[export] Instance transaction_object_rebuild : Rebuild transaction_object := fun o =>
  mk_transaction_object (transaction_id o) (transaction_trx_id o) (transaction_expiration o).

(** [block_summary_object] *)
Record block_summary_object := mk_block_summary_object {
  block_summary_id : Z;
  block_summary_block_id : Z
}.
#[export] Instance block_summary_object_rebuild : Rebuild block_summary_object := fun o =>
  mk_block_summary_object (block_summary_id o) (block_summary_block_id o).

(** ** [comment_object.hpp] *)

(** [comment_mode] *)
Inductive comment_mode := not_set | first_payout | second_payout | archived.

(** [comment_object] *)
Record comment_object := mk_comment_object {
  com_id : Z;
  com_parent_author : string;
  com_parent_permlink : string;
  com_author : string;
  com_permlink : string;
  com_created : Z;
  com_last_payout : Z;
  com_depth : Z;
  com_children : Z;
  com_children_rshares2 : Z;
  com_net_rshares : Z;
  com_abs_rshares : Z;
  com_vote_rshares : Z;
  com_children_abs_rshares : Z;
  com_cashout_time : Z;
  com_max_cashout_time : Z;
  com_reward_weight : Z;
  com_net_votes : Z;
  com_total_votes : Z;
  com_root_comment : Z;
  com_mode : comment_mode;
  com_curation_reward_curve : curation_curve;
  com_auction_window_reward_destination : auction_window_reward_destination_type;
  com_auction_window_size : Z;
  com_max_accepted_payout : asset;
  com_percent_steem_dollars : Z;
  com_allow_replies : bool;
  com_allow_votes : bool;
  com_allow_curation_rewards : bool;
  com_curation_rewards_percent : Z;
  com_beneficiaries : list beneficiary_route_type
}.
#[export] Instance comment_object_rebuild : Rebuild comment_object := fun o =>
  mk_comment_object (com_id o) (com_parent_author o) (com_parent_permlink o) (com_author o) (com_permlink o) (com_created o) (com_last_payout o) (com_depth o) (com_children o) (com_children_rshares2 o) (com_net_rshares o) (com_abs_rshares o) (com_vote_rshares o) (com_children_abs_rshares o) (com_cashout_time o) (com_max_cashout_time o) (com_reward_weight o) (com_net_votes o) (com_total_votes o) (com_root_comment o) (com_mode o) (com_curation_reward_curve o) (com_auction_window_reward_destination o) (com_auction_window_size o) (com_max_accepted_payout o) (com_percent_steem_dollars o) (com_allow_replies o) (com_allow_votes o) (com_allow_curation_rewards o) (com_curation_rewards_percent o) (com_beneficiaries o).

(** [delegator_vote_interest_rate] *)
Record delegator_vote_interest_rate := mk_delegator_vote_interest_rate {
  dvir_account : string;
  dvir_interest_rate : Z;
  dvir_payout_strategy : delegator_payout_strategy
}.
#[export] Instance delegator_vote_interest_rate_rebuild : Rebuild delegator_vote_interest_rate := fun o =>
  mk_delegator_vote_interest_rate (dvir_account o) (dvir_interest_rate o) (dvir_payout_strategy o).

(** [comment_vote_object] *)
Record comment_vote_object := mk_comment_vote_object {
  cvo_id : Z;
  cvo_voter : Z;
  cvo_comment : Z;
  cvo_orig_rshares : Z;
  cvo_rshares : Z;
  cvo_vote_percent : Z;
  cvo_auction_time : Z;
  cvo_last_update : Z;
  cvo_num_changes : Z;
  cvo_delegator_vote_interest_rates : list delegator_vote_interest_rate
}.
#[export] Instance comment_vote_object_rebuild : Rebuild comment_vote_object := fun o =>
  mk_comment_vote_object (cvo_id o) (cvo_voter o) (cvo_comment o) (cvo_orig_rshares o) (cvo_rshares o) (cvo_vote_percent o) (cvo_auction_time o) (cvo_last_update o) (cvo_num_changes o) (cvo_delegator_vote_interest_rates o).
