(* ===== verification/Database.v ===== *)
(** * The chain database

    The state [golos::chain::database] keeps, as one record: a table per object
    type and the singleton objects.  The object store (chainbase, a submodule)
    holds every object under a unique key; a table is a finite map from that key,
    with the counter that numbers new objects.  A C++ reference to an object is its
    key, so reading through a reference sees later modifications.

    Code that reads and changes the database and may throw is a function of the
    monad [M]: an exception discards the state, as the undo session of the caller
    does. *)

From S2P Require Import Prelude Exceptions Text Fc Config Asset FlatMap Authority Operations Objects.

(** ** Tables *)

Record table (K V : Type) `{Countable K} := mk_table {
  rows : gmap K V;
  next_id : Z
}.
Arguments mk_table {K V _ _} rows next_id.
Arguments rows {K V _ _} t.
Arguments next_id {K V _ _} t.

Section Table.
Context {K V : Type} `{Countable K}.
Implicit Types (t : table K V) (k : K).

(** [create]: the constructor receives the new id; a second object with the same
    key violates the uniqueness of the index. *)
Definition table_create k (init : Z -> V) t : result (table K V) :=
  match rows t !! k with
  | Some _ => Throw chainbase_logic_error
  | None => Ok (mk_table (<[k := init (next_id t)]> (rows t)) (next_id t + 1))
  end.

(** [modify]: the modifier may throw *)
Definition table_modify k (f : V -> result V) t : result (table K V) :=
  match rows t !! k with
  | Some v => v' ← f v; Ok (mk_table (<[k := v']> (rows t)) (next_id t))
  | None => Throw chainbase_out_of_range
  end.

(** [remove] *)
Definition table_remove k t : result (table K V) :=
  match rows t !! k with
  | Some _ => Ok (mk_table (delete k (rows t)) (next_id t))
  | None => Throw chainbase_out_of_range
  end.

(** The entry found by a secondary unique index. *)
Definition table_find_by (p : K -> V -> bool) t : option (K * V) :=
  head (filter (fun kv => p (fst kv) (snd kv)) (map_to_list (rows t))).

(** The first entry, in the order of an index, among those that satisfy [due].  The
    primary component of each index used here is the time that [due] tests, so the
    due entries come before the others. *)
Definition first_due (due : V -> bool) (cmp : V -> V -> comparison) t : option K :=
  fst <$> head (sort_by (fun x y => match cmp (snd x) (snd y) with Gt => false | _ => true end)
                  (filter (fun kv => due (snd kv)) (map_to_list (rows t)))).

Lemma first_due_Some due cmp t k :
  first_due due cmp t = Some k -> exists v, rows t !! k = Some v /\ due v = true.
Proof.
  unfold first_due. intros (kv & Hk & Hhead)%fmap_Some.
  assert (kv ∈ filter (fun kv => due (snd kv)) (map_to_list (rows t))) as Hin.
  { rewrite <- (sort_by_perm (fun x y => match cmp (snd x) (snd y) with Gt => false | _ => true end)).
    by apply head_Some_elem_of. }
  apply list_elem_of_filter in Hin as [Hdue Hin]. destruct kv as [k' v]. cbn in *. subst k'.
  apply elem_of_map_to_list in Hin. exists v. split; [done|]. by apply Is_true_true.
Qed.

Lemma first_due_None due cmp t :
  first_due due cmp t = None -> forall k v, rows t !! k = Some v -> due v = false.
Proof.
  unfold first_due. intros Hnone k v Hv. apply fmap_None in Hnone.
  destruct (due v) eqn:E; [|done]. exfalso.
  assert ((k, v) ∈ sort_by (fun x y => match cmp (snd x) (snd y) with Gt => false | _ => true end)
                     (filter (fun kv => due (snd kv)) (map_to_list (rows t)))) as Hin.
  { rewrite sort_by_perm. apply list_elem_of_filter. split; [by apply Is_true_true|].
    by apply elem_of_map_to_list. }
  destruct (sort_by _ _); [by apply elem_of_nil in Hin | discriminate].
Qed.

(** It is the least of them. *)
Lemma first_due_least due cmp t k v :
  (forall x y, cmp x y = Gt -> cmp y x <> Gt) ->
  (forall x y z, cmp x y <> Gt -> cmp y z <> Gt -> cmp x z <> Gt) ->
  first_due due cmp t = Some k -> rows t !! k = Some v ->
  forall k' v', rows t !! k' = Some v' -> due v' = true -> cmp v v' <> Gt.
Proof.
  intros Htot Htrans (kv & Hhead & ->)%fmap_Some Hv k' v' Hv' Hdue.
  assert (kv.2 = v) as <-.
  { assert (kv ∈ map_to_list (rows t)) as Hin.
    { apply head_Some_elem_of in Hhead. rewrite sort_by_perm in Hhead. by apply list_elem_of_filter in Hhead as [_ ?]. }
    destruct kv as [k v0]. apply elem_of_map_to_list in Hin. cbn in *. congruence. }
  pose proof (fun Ht Htr => sort_by_head _ _ _ Ht Htr Hhead (k', v')) as Hle. clear Hhead.
  cbn in Hle. enough (match cmp kv.2 v' with Gt => false | _ => true end = true) by (by destruct (cmp kv.2 v')).
  apply Hle.
  - intros x y. specialize (Htot (snd x) (snd y)). destruct (cmp x.2 y.2); [done | done|].
    intros _. specialize (Htot eq_refl). by destruct (cmp y.2 x.2).
  - intros x y z. specialize (Htrans (snd x) (snd y) (snd z)).
    destruct (cmp x.2 y.2), (cmp y.2 z.2), (cmp x.2 z.2); try done; intros _ _; exfalso; by apply Htrans.
  - apply list_elem_of_filter. split; [by apply Is_true_true|]. by apply elem_of_map_to_list.
Qed.

Lemma table_create_Ok k init t t' :
  table_create k init t = Ok t' <->
  rows t !! k = None /\ t' = mk_table (<[k := init (next_id t)]> (rows t)) (next_id t + 1).
Proof.
  unfold table_create. destruct (rows t !! k); split.
  - discriminate.
  - intros [? _]; discriminate.
  - by intros [= <-].
  - by intros [_ ->].
Qed.

Lemma table_modify_Ok k f t t' :
  table_modify k f t = Ok t' <->
  exists v v', rows t !! k = Some v /\ f v = Ok v' /\
    t' = mk_table (<[k := v']> (rows t)) (next_id t).
Proof.
  unfold table_modify. destruct (rows t !! k) as [v|].
  - rewrite bind_Ok. split.
    + intros (v' & ? & [= <-]). eauto.
    + intros (v1 & v' & [= <-] & ? & ->). eauto.
  - split; [discriminate | intros (? & ? & ? & _); discriminate].
Qed.

Lemma table_remove_Ok k t t' :
  table_remove k t = Ok t' <->
  exists v, rows t !! k = Some v /\ t' = mk_table (delete k (rows t)) (next_id t).
Proof.
  unfold table_remove. destruct (rows t !! k) as [v|]; split.
  - intros [= <-]. eauto.
  - by intros (? & _ & ->).
  - discriminate.
  - intros (? & ? & _); discriminate.
Qed.

End Table.

(** ** The database *)

(** [store_metadata_modes] *)
Inductive store_metadata_modes := store_metadata_for_all | store_metadata_for_listed | store_metadata_for_nobody.

Record database := mk_database {
  accounts : table string account_object;
  authorities : table string account_authority_object;
  escrows : table (string * Z) escrow_object;
  savings_withdraws : table (string * Z) savings_withdraw_object;
  convert_requests : table (string * Z) convert_request_object;
  limit_orders : table (string * Z) limit_order_object;
  liquidity_balances : table Z liquidity_reward_balance_object;
  vesting_routes : table (Z * Z) withdraw_vesting_route_object;
  delegations : table (string * string) vesting_delegation_object;
  delegation_expirations : table Z vesting_delegation_expiration_object;
  owner_histories : table Z owner_authority_history_object;
  recovery_requests : table string account_recovery_request_object;
  change_recovery_requests : table string change_recovery_account_request_object;
  decline_requests : table Z decline_voting_rights_request_object;
  witnesses : table string witness_object;
  account_witness_votes : table (Z * Z) witness_vote_object;
  dgp : dynamic_global_property_object;
  wso : witness_schedule_object;
  feed_history : feed_history_object;
  hardforks : hardfork_property_object;
  transactions : table Z transaction_object;
  block_summaries : table Z block_summary_object;
  account_bandwidths : table (string * bandwidth_type) account_bandwidth_object;
  account_metadatas : table string account_metadata_object;
  comments : table (string * string) comment_object;
  comment_votes : table (Z * Z) comment_vote_object;
  is_producing : bool;
  store_memo_in_savings_withdraws : bool;
  store_account_metadata : store_metadata_modes;
  accounts_to_store_metadata : list string;
  skip_virtual_ops : bool;
  fixed_irreversible_block_num : Z;
  current_virtual_op : Z;
  notifications : list (operation * Z)   (* sent to the plugins, oldest first *)
}.
#[export] Instance database_rebuild : Rebuild database := fun d =>
  mk_database (accounts d) (authorities d) (escrows d) (savings_withdraws d) (convert_requests d)
    (limit_orders d) (liquidity_balances d) (vesting_routes d) (delegations d)
    (delegation_expirations d) (owner_histories d) (recovery_requests d)
    (change_recovery_requests d) (decline_requests d) (witnesses d) (account_witness_votes d)
    (dgp d) (wso d) (feed_history d) (hardforks d) (transactions d) (block_summaries d) (account_bandwidths d) (account_metadatas d)
    (comments d) (comment_votes d)
    (is_producing d) (store_memo_in_savings_withdraws d)
    (store_account_metadata d) (accounts_to_store_metadata d) (skip_virtual_ops d) (fixed_irreversible_block_num d)
    (current_virtual_op d) (notifications d).
Definition processed_hardforks (d : database) : list Z := hpo_processed_hardforks (hardforks d).

(** ** The monad of database code *)

Definition M (A : Type) : Type := database -> result (A * database).

#[export] Instance M_ret : MRet M := fun A a db => Ok (a, db).
#[export] Instance M_bind : MBind M := fun A B f m db =>
  match m db with
  | Ok (a, db') => f a db'
  | Throw e => Throw e
  end.

Definition throw {A : Type} (e : exception) : M A := fun _ => Throw e.
Definition gets {A : Type} (f : database -> A) : M A := fun db => Ok (f db, db).
Definition lift {A : Type} (r : result A) : M A := fun db =>
  match r with
  | Ok a => Ok (a, db)
  | Throw e => Throw e
  end.
Definition when (c : bool) (m : M unit) : M unit := if c then m else mret tt.

(** GOLOS_CHECK_OP_PARAM around code that changes the database *)
Definition check_op_param {A : Type} (param : string) (m : M A) : M A := fun db =>
  match m db with
  | Ok r => Ok r
  | Throw e => if is_invalid_value e then Throw (invalid_parameter param) else Throw e
  end.

(** Loop over a list. *)
Fixpoint for_each {A : Type} (f : A -> M unit) (l : list A) : M unit :=
  match l with
  | [] => mret tt
  | x :: l' => f x ;; for_each f l'
  end.

(** ... whose body updates local variables [s]. *)
Fixpoint fold_each {A S : Type} (f : A -> S -> M S) (l : list A) (s : S) : M S :=
  match l with
  | [] => mret s
  | x :: l' => s' ← f x s; fold_each f l' s'
  end.

(** GOLOS_CHECK_LOGIC *)
Definition check_logic_m (cond : bool) (errid : logic_error) : M unit := lift (check_logic cond errid).

(** [while (entry = first due entry) body(entry)]: the loops over an index that
    restart from its beginning; [fuel] bounds the number of turns. *)
Fixpoint drain {K : Type} (fuel : nat) (next : database -> option K) (body : K -> M unit) : M unit :=
  match fuel with
  | O => mret tt
  | S n =>
      k ← gets next;
      match k with
      | None => mret tt
      | Some k => body k ;; drain n next body
      end
  end.

(** The same loop with local variables [s] that the body updates. *)
Fixpoint drain_with {K S : Type} (fuel : nat) (next : database -> option K) (body : K -> S -> M S) (s : S) : M S :=
  match fuel with
  | O => mret s
  | Datatypes.S n =>
      k ← gets next;
      match k with
      | None => mret s
      | Some k => s' ← body k s; drain_with n next body s'
      end
  end.

(** Application of a table operation to one table of the database. *)
Definition on_table {T : Type} (proj : database -> T) `{!FieldSetter proj}
    (f : T -> result T) : M unit := fun db =>
  match f (proj db) with
  | Ok t => Ok (tt, db <| proj := t |>)
  | Throw e => Throw e
  end.

Definition create {K V : Type} `{Countable K} (proj : database -> table K V) `{!FieldSetter proj}
    (k : K) (init : Z -> V) : M unit := on_table proj (table_create k init).
Definition modify {K V : Type} `{Countable K} (proj : database -> table K V) `{!FieldSetter proj}
    (k : K) (f : V -> result V) : M unit := on_table proj (table_modify k f).
Definition remove {K V : Type} `{Countable K} (proj : database -> table K V) `{!FieldSetter proj}
    (k : K) : M unit := on_table proj (table_remove k).
(** A row by its key; [kind] is the name in the exception. *)
Definition get_row {K V : Type} `{Countable K} (proj : database -> table K V) (kind : string)
    (k : K) : M V := fun db =>
  match rows (proj db) !! k with
  | Some v => Ok (v, db)
  | None => Throw (missing_object kind)
  end.
Definition find_row {K V : Type} `{Countable K} (proj : database -> table K V) (k : K) : M (option V) :=
  gets (fun db => rows (proj db) !! k).
Definition modify_dgp (f : dynamic_global_property_object -> result dynamic_global_property_object)
    : M unit := on_table dgp f.

(** [push_virtual_operation] *)
Definition push_virtual_operation (op : operation) (force : bool) : M unit := fun db =>
  if negb force && skip_virtual_ops db then Ok (tt, db)
  else if is_virtual_operation op then
    let n := to_uint32_wrap (current_virtual_op db + 1) in
    Ok (tt, db <| current_virtual_op := n |> <| notifications ::= (fun l => l ++ [(op, n)]) |>)
  else Throw fc_assert_exception.

(** ** Getters of database.cpp *)

Definition get_account (name : string) : M account_object := get_row accounts "account" name.
Definition get_authority (name : string) : M account_authority_object := get_row authorities "authority" name.
Definition get_witness (name : string) : M witness_object := get_row witnesses "witness" name.
Definition get_escrow (name : string) (escrow_id : Z) : M escrow_object :=
  get_row escrows "escrow" (name, escrow_id).
Definition get_savings_withdraw (owner : string) (request_id : Z) : M savings_withdraw_object :=
  get_row savings_withdraws "savings_withdraw" (owner, request_id).

(** [get<account_object>(id)], [get<witness_object>(id)]: the key of the object *)
Definition get_account_by_id (id : Z) : M string := fun db =>
  match table_find_by (fun _ a => account_id a =? id) (accounts db) with
  | Some (name, _) => Ok (name, db)
  | None => Throw chainbase_out_of_range
  end.
Definition get_witness_by_id (id : Z) : M string := fun db =>
  match table_find_by (fun _ w => witness_id w =? id) (witnesses db) with
  | Some (owner, _) => Ok (owner, db)
  | None => Throw chainbase_out_of_range
  end.

(** [throw_if_exists_limit_order] and the like *)
Definition throw_if_exists {K V : Type} `{Countable K} (proj : database -> table K V) (kind : string)
    (k : K) : M unit :=
  o ← find_row proj k;
  match o with Some _ => throw (object_already_exist kind) | None => mret tt end.

(** [has_hardfork] *)
Definition has_hardfork (hardfork : nat) : M bool :=
  gets (fun db => (hardfork <? length (processed_hardforks db))%nat).

(** ASSERT_REQ_HF *)
Definition assert_req_hf (hf : nat) : M unit :=
  enabled ← has_hardfork hf;
  if (enabled : bool) then mret tt else throw unsupported_operation.

(** [_db.get_account] called for its exception only *)
Definition check_account_exists (name : string) : M unit := get_account name ;; mret tt.

(** [head_block_time], [head_block_num] *)
Definition head_block_time : M Z := gets (fun db => dgp_time (dgp db)).
Definition head_block_num : M Z := gets (fun db => dgp_head_block_number (dgp db)).

(** The key of an order before and after hardfork 0.6 (issue 127) *)
Definition order_key (owner : string) (orderid : Z) : M (string * Z) :=
  hf ← has_hardfork STEEMIT_HARDFORK_0_6__127;
  mret (owner, if (hf : bool) then orderid else Z.land orderid 65535).
Definition get_limit_order (owner : string) (orderid : Z) : M limit_order_object :=
  k ← order_key owner orderid; get_row limit_orders "limit_order" k.
Definition throw_if_exists_limit_order (owner : string) (orderid : Z) : M unit :=
  k ← order_key owner orderid; throw_if_exists limit_orders "limit_order" k.

Section Database.
Context `{F : fc_ops}.

(** ** Methods of the objects *)

(** [witness_vote_weight], [proxied_vsf_votes_total] *)
Definition accumulate (l : list Z) (init : Z) : result Z :=
  fold_left (fun acc x => a ← acc; safe_add a x) l (Ok init).
Definition witness_vote_weight (a : account_object) : result Z :=
  accumulate (account_proxied_vsf_votes a) (amount (account_vesting_shares a)).
Definition proxied_vsf_votes_total (a : account_object) : result Z :=
  accumulate (account_proxied_vsf_votes a) 0.

(** [effective_vesting_shares] *)
Definition effective_vesting_shares (a : account_object) : result asset :=
  x ← asset_sub (account_vesting_shares a) (account_delegated_vesting_shares a);
  asset_add x (account_received_vesting_shares a).

(** [available_vesting_shares] *)
Definition available_vesting_shares (a : account_object) (consider_withdrawal : bool) : result asset :=
  have ← asset_sub (account_vesting_shares a) (account_delegated_vesting_shares a);
  if consider_withdrawal then
    w ← safe_sub (account_to_withdraw a) (account_withdrawn a);
    asset_sub have (mk_asset w VESTS_SYMBOL)
  else Ok have.

(** [is_approved] *)
Definition escrow_is_approved (e : escrow_object) : bool := escrow_to_approved e && escrow_agent_approved e.

(** [get_vesting_share_price] *)
Definition get_vesting_share_price (p : dynamic_global_property_object) : price :=
  if (amount (dgp_total_vesting_fund_steem p) =? 0) || (amount (dgp_total_vesting_shares p) =? 0)
  then mk_price (mk_asset 1000 STEEM_SYMBOL) (mk_asset 1000000 VESTS_SYMBOL)
  else mk_price (dgp_total_vesting_shares p) (dgp_total_vesting_fund_steem p).

(** [amount_for_sale], [amount_to_receive] *)
Definition amount_for_sale (o : limit_order_object) : asset :=
  mk_asset (limit_order_for_sale o) (symbol (base (limit_order_sell_price o))).
Definition amount_to_receive (o : limit_order_object) : result asset :=
  asset_mul_price (amount_for_sale o) (limit_order_sell_price o).

Definition median_price : M price := gets (fun db => feed_current_median_history (feed_history db)).

(** ** Balances and supply *)

(** The interest step of [adjust_sbd_balance] and [adjust_savings_balance]: the
    amount paid and its value are added to the supplies. *)
Definition pay_interest_supply (interest_paid : asset) : M unit :=
  mp ← median_price;
  modify_dgp (fun p =>
    s ← asset_add (dgp_current_sbd_supply p) interest_paid;
    value ← asset_mul_price interest_paid mp;
    v ← asset_add (dgp_virtual_supply p) value;
    Ok (p <| dgp_current_sbd_supply := s |> <| dgp_virtual_supply := v |>)).

(** The first part of [adjust_sbd_balance]: the seconds the balance was held are
    added up and, at most once a month, paid as interest. *)
Definition accrue_sbd_interest (name : string) : M unit :=
  hf19 ← has_hardfork STEEMIT_HARDFORK_0_19__952;
  p ← gets dgp;
  let is_fee_payment_enabled := (hf19 && negb (dgp_is_forced_min_price p)) || negb hf19 in
  a ← get_account name;
  let now := dgp_time p in
  let elapsed := time_diff_seconds now (account_sbd_seconds_last_update a) in
  let seconds := u128_add (account_sbd_seconds a)
    (u128_mul (u128_of_int64 (amount (account_sbd_balance a))) (u128_of_int64 elapsed)) in
  when (negb (account_sbd_seconds_last_update a =? now))
    (modify accounts name (fun acnt =>
       Ok (acnt <| account_sbd_seconds := seconds |> <| account_sbd_seconds_last_update := now |>)) ;;
     when (is_fee_payment_enabled && (seconds >? 0) &&
           (time_diff_seconds now (account_sbd_last_interest_payment a) >?
            STEEMIT_SBD_INTEREST_COMPOUND_INTERVAL_SEC))
       (interest ← lift (u128_div (u128_mul seconds (dgp_sbd_interest_rate p))
                           (STEEMIT_SECONDS_PER_YEAR * STEEMIT_100_PERCENT));
        n ← lift (u128_to_uint64 interest);
        let interest_paid := mk_asset (safe_of_uint64 n) SBD_SYMBOL in
        modify accounts name (fun acnt =>
          b ← asset_add (account_sbd_balance acnt) interest_paid;
          Ok (acnt <| account_sbd_balance := b |> <| account_sbd_seconds := 0 |>
                   <| account_sbd_last_interest_payment := now |>)) ;;
        push_virtual_operation (op_interest (mk_interest (account_name a) interest_paid)) false ;;
        pay_interest_supply interest_paid)).

(** [adjust_sbd_balance] *)
Definition adjust_sbd_balance (name : string) (delta : asset) : M unit :=
  accrue_sbd_interest name ;;
  modify accounts name (fun acnt =>
    b ← asset_add (account_sbd_balance acnt) delta;
    Ok (acnt <| account_sbd_balance := b |>)).

(** [adjust_balance] *)
Definition adjust_balance (name : string) (delta : asset) : M unit :=
  if symbol delta =? STEEM_SYMBOL then
    modify accounts name (fun acnt =>
      b ← asset_add (account_balance acnt) delta;
      Ok (acnt <| account_balance := b |>))
  else if symbol delta =? SBD_SYMBOL then adjust_sbd_balance name delta
  else throw invalid_value.

(** The interest part of [adjust_savings_balance], computed in three steps *)
Definition accrue_savings_interest (name : string) : M unit :=
  p ← gets dgp;
  a ← get_account name;
  let now := dgp_time p in
  let elapsed := time_diff_seconds now (account_savings_sbd_seconds_last_update a) in
  let seconds := u128_add (account_savings_sbd_seconds a)
    (u128_mul (u128_of_int64 (amount (account_savings_sbd_balance a))) (u128_of_int64 elapsed)) in
  when (negb (account_savings_sbd_seconds_last_update a =? now))
    (modify accounts name (fun acnt =>
       Ok (acnt <| account_savings_sbd_seconds := seconds |>
                <| account_savings_sbd_seconds_last_update := now |>)) ;;
     when ((seconds >? 0) &&
           (time_diff_seconds now (account_savings_sbd_last_interest_payment a) >?
            STEEMIT_SBD_INTEREST_COMPOUND_INTERVAL_SEC))
       (i1 ← lift (u128_div seconds STEEMIT_SECONDS_PER_YEAR);
        i2 ← lift (u128_div (u128_mul i1 (dgp_sbd_interest_rate p)) STEEMIT_100_PERCENT);
        n ← lift (u128_to_uint64 i2);
        let interest_paid := mk_asset (safe_of_uint64 n) SBD_SYMBOL in
        modify accounts name (fun acnt =>
          b ← asset_add (account_savings_sbd_balance acnt) interest_paid;
          Ok (acnt <| account_savings_sbd_balance := b |> <| account_savings_sbd_seconds := 0 |>
                   <| account_savings_sbd_last_interest_payment := now |>)) ;;
        push_virtual_operation (op_interest (mk_interest (account_name a) interest_paid)) false ;;
        pay_interest_supply interest_paid)).

(** [adjust_savings_balance] *)
Definition adjust_savings_balance (name : string) (delta : asset) : M unit :=
  if symbol delta =? STEEM_SYMBOL then
    modify accounts name (fun acnt =>
      b ← asset_add (account_savings_balance acnt) delta;
      Ok (acnt <| account_savings_balance := b |>))
  else if symbol delta =? SBD_SYMBOL then
    accrue_savings_interest name ;;
    modify accounts name (fun acnt =>
      b ← asset_add (account_savings_sbd_balance acnt) delta;
      Ok (acnt <| account_savings_sbd_balance := b |>))
  else throw invalid_value.

(** [adjust_supply] *)
Definition adjust_supply (delta : asset) (adjust_vesting : bool) : M unit :=
  num ← head_block_num;
  mp ← median_price;
  let adjust_vesting := if num <? STEEMIT_BLOCKS_PER_DAY * 7 then false else adjust_vesting in
  modify_dgp (fun p =>
    if symbol delta =? STEEM_SYMBOL then
      n ← (if adjust_vesting && (amount delta >? 0) then safe_mul (amount delta) 9 else Ok 0);
      let new_vesting := mk_asset n STEEM_SYMBOL in
      d ← asset_add delta new_vesting;
      c ← asset_add (dgp_current_supply p) d;
      v ← asset_add (dgp_virtual_supply p) d;
      f ← asset_add (dgp_total_vesting_fund_steem p) new_vesting;
      Ok (p <| dgp_current_supply := c |> <| dgp_virtual_supply := v |>
            <| dgp_total_vesting_fund_steem := f |>)
    else if symbol delta =? SBD_SYMBOL then
      s ← asset_add (dgp_current_sbd_supply p) delta;
      value ← asset_mul_price s mp;
      v ← asset_add value (dgp_current_supply p);
      Ok (p <| dgp_current_sbd_supply := s |> <| dgp_virtual_supply := v |>)
    else Throw invalid_value).

(** [get_balance(account, symbol)], [get_savings_balance] *)
Definition get_balance (a : account_object) (sym : Z) : result asset :=
  if sym =? STEEM_SYMBOL then Ok (account_balance a)
  else if sym =? SBD_SYMBOL then Ok (account_sbd_balance a)
  else Throw invalid_value.
Definition get_savings_balance (a : account_object) (sym : Z) : result asset :=
  if sym =? STEEM_SYMBOL then Ok (account_savings_balance a)
  else if sym =? SBD_SYMBOL then Ok (account_savings_sbd_balance a)
  else Throw invalid_value.

(** [pay_fee] *)
Definition pay_fee (name : string) (fee : asset) : M unit :=
  lift (fc_assert (amount fee >=? 0)) ;;
  if amount fee =? 0 then mret tt
  else
    a ← get_account name;
    enough ← lift (asset_geb (account_balance a) fee);
    lift (fc_assert enough) ;;
    neg ← lift (asset_neg fee);
    adjust_balance name neg ;;
    adjust_supply neg false.

(** ** Witness votes *)

Definition VIRTUAL_SCHEDULE_LAP_LENGTH : Z := 2 ^ 64 - 1.
Definition VIRTUAL_SCHEDULE_LAP_LENGTH2 : Z := 2 ^ 128 - 1.

(** [adjust_witness_vote] *)
Definition adjust_witness_vote (owner : string) (delta : Z) : M unit :=
  current_virtual_time ← gets (fun db => wso_current_virtual_time (wso db));
  total ← gets (fun db => amount (dgp_total_vesting_shares (dgp db)));
  hf2 ← has_hardfork STEEMIT_HARDFORK_0_2;
  hf4 ← has_hardfork STEEMIT_HARDFORK_0_4;
  modify witnesses owner (fun w =>
    let delta_pos := u128_mul (u128_of_int64 (witness_votes w))
                       (u128_sub current_virtual_time (witness_virtual_last_update w)) in
    let position := u128_add (witness_virtual_position w) delta_pos in
    votes ← safe_add (witness_votes w) delta;
    fc_assert (votes <=? total) ;;
    let lap := if (hf2 : bool) then VIRTUAL_SCHEDULE_LAP_LENGTH2 else VIRTUAL_SCHEDULE_LAP_LENGTH in
    q ← u128_div (u128_sub lap position) (u128_of_int64 (votes + 1));
    let scheduled := u128_add current_virtual_time q in
    let scheduled := if (hf4 : bool) && (scheduled <? current_virtual_time) then 2 ^ 128 - 1 else scheduled in
    Ok (w <| witness_virtual_position := position |>
          <| witness_virtual_last_update := current_virtual_time |>
          <| witness_votes := votes |>
          <| witness_virtual_scheduled_time := scheduled |>)).

(** The votes of an account in the order of index [by_account_witness] *)
Definition votes_of (account : Z) (db : database) : list witness_vote_object :=
  sort_by (fun v w => witness_vote_witness v <=? witness_vote_witness w)
    (filter (fun v => witness_vote_account v = account) (map_to_list (rows (account_witness_votes db))).*2).

(** [adjust_witness_votes] *)
Definition adjust_witness_votes (account : Z) (delta : Z) : M unit :=
  vs ← gets (votes_of account);
  for_each (fun v => owner ← get_witness_by_id (witness_vote_witness v);
                     adjust_witness_vote owner delta) vs.

(** [l[i] += x] on a checked integer; the index is in range in the sources. *)
Definition add_at (i : nat) (x : Z) (l : list Z) : result (list Z) :=
  match l !! i with
  | Some y => z ← safe_add y x; Ok (<[i := z]> l)
  | None => Throw fc_assert_exception
  end.

(** [adjust_proxied_witness_votes(a, delta, depth)] for one amount; the recursion
    is on [STEEMIT_MAX_PROXY_RECURSION_DEPTH - depth] *)
Fixpoint adjust_proxied_witness_votes_at (remaining : nat) (name : string) (delta : Z) : M unit :=
  a ← get_account name;
  if negb (String.eqb (account_proxy a) STEEMIT_PROXY_TO_SELF_ACCOUNT) then
    match remaining with
    | O => mret tt
    | S r =>
        get_account (account_proxy a) ;;
        modify accounts (account_proxy a) (fun p =>
          votes ← add_at (Z.to_nat STEEMIT_MAX_PROXY_RECURSION_DEPTH - remaining) delta
                    (account_proxied_vsf_votes p);
          Ok (p <| account_proxied_vsf_votes := votes |>)) ;;
        adjust_proxied_witness_votes_at r (account_proxy a) delta
    end
  else adjust_witness_votes (account_id a) delta.
Definition adjust_proxied_witness_votes (name : string) (delta : Z) : M unit :=
  adjust_proxied_witness_votes_at (Z.to_nat STEEMIT_MAX_PROXY_RECURSION_DEPTH) name delta.

(** ** Creation of vesting shares and of SBD *)

(** [create_vesting] *)
Definition create_vesting (to_account : string) (steem : asset) : M asset :=
  p ← gets dgp;
  new_vesting ← lift (asset_mul_price steem (get_vesting_share_price p));
  modify accounts to_account (fun a =>
    v ← asset_add (account_vesting_shares a) new_vesting;
    Ok (a <| account_vesting_shares := v |>)) ;;
  modify_dgp (fun p =>
    f ← asset_add (dgp_total_vesting_fund_steem p) steem;
    s ← asset_add (dgp_total_vesting_shares p) new_vesting;
    Ok (p <| dgp_total_vesting_fund_steem := f |> <| dgp_total_vesting_shares := s |>)) ;;
  adjust_proxied_witness_votes to_account (amount new_vesting) ;;
  mret new_vesting.

(** [create_sbd] *)
Definition create_sbd (to_account : string) (steem : asset) : M (asset * asset) :=
  if amount steem =? 0 then mret (mk_asset 0 SBD_SYMBOL, mk_asset 0 STEEM_SYMBOL)
  else
    mp ← median_price;
    if negb (price_is_null mp) then
      rate ← gets (fun db => dgp_sbd_print_rate (dgp db));
      product ← lift (safe_mul rate (amount steem));
      to_sbd ← lift (safe_div product STEEMIT_100_PERCENT);
      to_steem ← lift (safe_sub (amount steem) to_sbd);
      sbd ← lift (asset_mul_price (mk_asset to_sbd STEEM_SYMBOL) mp);
      adjust_balance to_account sbd ;;
      adjust_balance to_account (mk_asset to_steem STEEM_SYMBOL) ;;
      neg ← lift (safe_neg to_sbd);
      adjust_supply (mk_asset neg STEEM_SYMBOL) false ;;
      adjust_supply sbd false ;;
      mret (sbd, mk_asset to_steem STEEM_SYMBOL)
    else
      adjust_balance to_account steem ;;
      mret (mk_asset 0 SBD_SYMBOL, steem).

(** [to_sbd], [to_steem] *)
Definition to_sbd (steem : asset) : M asset :=
  lift (fc_assert (symbol steem =? STEEM_SYMBOL)) ;;
  mp ← median_price;
  if price_is_null mp then mret (mk_asset 0 SBD_SYMBOL) else lift (asset_mul_price steem mp).
Definition to_steem (sbd : asset) : M asset :=
  lift (fc_assert (symbol sbd =? SBD_SYMBOL)) ;;
  mp ← median_price;
  if price_is_null mp then mret (mk_asset 0 STEEM_SYMBOL) else lift (asset_mul_price sbd mp).

(** ** Balance checks of the evaluators *)

(** [balance_type] *)
Inductive balance_type := MAIN_BALANCE | SAVINGS | VESTING | EFFECTIVE_VESTING | HAVING_VESTING | AVAILABLE_VESTING.

(** [get_balance(account, type, symbol)] of steem_evaluator.cpp *)
Definition get_balance_of_type (a : account_object) (type : balance_type) (sym : Z) : result asset :=
  match type with
  | MAIN_BALANCE => get_balance a sym
  | SAVINGS => get_savings_balance a sym
  | VESTING => check_value (sym =? VESTS_SYMBOL) ;; Ok (account_vesting_shares a)
  | EFFECTIVE_VESTING => check_value (sym =? VESTS_SYMBOL) ;; effective_vesting_shares a
  | HAVING_VESTING => check_value (sym =? VESTS_SYMBOL) ;; available_vesting_shares a false
  | AVAILABLE_VESTING => check_value (sym =? VESTS_SYMBOL) ;; available_vesting_shares a true
  end.

(** GOLOS_CHECK_BALANCE *)
Definition check_balance (name : string) (type : balance_type) (required : asset) : M unit :=
  a ← get_account name;
  lift (exist ← get_balance_of_type a type (symbol required);
        less ← asset_ltb exist required;
        if (less : bool) then Throw insufficient_funds else Ok tt).

End Database.
