(* ===== verification/Conservation.v ===== *)
(** * Conservation of the supply

    [database::validate_invariants] checks, between blocks, that the supplies
    recorded in the global properties equal what the objects hold.  Here the two
    sides are functions of the database and of a symbol: [supply] is what the
    properties record, [holdings] what accounts, escrows, orders, conversion
    requests, savings withdrawals and the funds hold, and [gap] their difference.
    For every primitive that moves value this file says by how much it changes the
    gap; an operation that conserves value leaves it unchanged. *)

From S2P Require Import Prelude Exceptions Text Fc Config Asset FlatMap Authority Operations Objects Database.

(** ** Running database code *)

Lemma bind_run {A B : Type} (m : M A) (f : A -> M B) db b db' :
  (m ≫= f) db = Ok (b, db') <-> exists a db1, m db = Ok (a, db1) /\ f a db1 = Ok (b, db').
Proof.
  change ((m ≫= f) db) with (match m db with Ok (a, db1) => f a db1 | Throw e => Throw e end).
  destruct (m db) as [[a db1] | e]; split.
  - eauto.
  - by intros (? & ? & [= <- <-] & ?).
  - discriminate.
  - intros (? & ? & ? & _). discriminate.
Qed.

Lemma bind_eq {A B : Type} (m : M A) (f : A -> M B) db a db1 :
  m db = Ok (a, db1) -> (m ≫= f) db = f a db1.
Proof.
  intros Hm. change ((m ≫= f) db) with (match m db with Ok (a, db1) => f a db1 | Throw e => Throw e end).
  by rewrite Hm.
Qed.

Lemma bind_throws {A B : Type} (m : M A) (f : A -> M B) db e : m db = Throw e -> (m ≫= f) db = Throw e.
Proof.
  intros Hm. change ((m ≫= f) db) with (match m db with Ok (a, db1) => f a db1 | Throw e => Throw e end).
  by rewrite Hm.
Qed.

Lemma get_row_eq {K V : Type} `{Countable K} (proj : database -> table K V) kind k v db :
  rows (proj db) !! k = Some v -> get_row proj kind k db = Ok (v, db).
Proof. intros Hv. unfold get_row. by rewrite Hv. Qed.

Lemma gets_run {A : Type} (f : database -> A) db a db' :
  gets f db = Ok (a, db') <-> a = f db /\ db' = db.
Proof. unfold gets. split; [by intros [= <- <-] | by intros [-> ->]]. Qed.

Lemma lift_run {A : Type} (r : result A) db a db' :
  lift r db = Ok (a, db') <-> r = Ok a /\ db' = db.
Proof.
  unfold lift. destruct r; split; try discriminate.
  - by intros [= <- <-].
  - by intros [[= <-] ->].
  - by intros [? _].
Qed.

Lemma mret_run {A : Type} (x : A) db a db' :
  (mret x : M A) db = Ok (a, db') <-> a = x /\ db' = db.
Proof.
  change ((mret x : M A) db) with (Ok (x, db)). split; [by intros [= <- <-] | by intros [-> ->]].
Qed.

Lemma throw_run {A : Type} e db (a : A) db' : throw e db = Ok (a, db') <-> False.
Proof. unfold throw. split; [discriminate | done]. Qed.

Lemma get_row_run {K V : Type} `{Countable K} (proj : database -> table K V) kind k db v db' :
  get_row proj kind k db = Ok (v, db') <-> rows (proj db) !! k = Some v /\ db' = db.
Proof.
  unfold get_row. destruct (rows (proj db) !! k); split; try discriminate.
  - by intros [= <- <-].
  - by intros [[= <-] ->].
  - by intros [? _].
Qed.

Lemma check_op_param_run {A : Type} p (m : M A) db a db' :
  check_op_param p m db = Ok (a, db') <-> m db = Ok (a, db').
Proof. unfold check_op_param. destruct (m db); [done|]. by destruct (is_invalid_value e). Qed.

(** Decomposes hypotheses [code db = Ok (a, db')] along binds and primitives. *)
Ltac inv_run_step :=
  match goal with
  | H : (_ ≫= _) _ = Ok (_, _) |- _ =>
      apply bind_run in H; let a := fresh "x" in let d := fresh "db" in let H1 := fresh "Hrun" in
      destruct H as (a & d & H1 & H)
  | H : gets _ _ = Ok (_, _) |- _ =>
      apply gets_run in H; let E := fresh "E" in destruct H as [E H]; subst
  | H : lift _ _ = Ok (_, _) |- _ =>
      apply lift_run in H; let E := fresh "E" in destruct H as [E H]; subst
  | H : mret _ _ = Ok (_, _) |- _ =>
      apply mret_run in H; let E := fresh "E" in destruct H as [E H]; subst
  | H : throw _ _ = Ok (_, _) |- _ => apply throw_run in H; destruct H
  | H : get_row _ _ _ _ = Ok (_, _) |- _ =>
      apply get_row_run in H; let E := fresh "E" in destruct H as [E H]; subst
  | H : find_row _ _ _ = Ok (_, _) |- _ => unfold find_row in H
  | H : get_account _ _ = Ok (_, _) |- _ => unfold get_account in H
  | H : check_logic_m _ _ _ = Ok (_, _) |- _ => unfold check_logic_m in H
  | H : get_authority _ _ = Ok (_, _) |- _ => unfold get_authority in H
  | H : get_witness _ _ = Ok (_, _) |- _ => unfold get_witness in H
  | H : get_savings_withdraw _ _ _ = Ok (_, _) |- _ => unfold get_savings_withdraw in H
  | H : get_escrow _ _ _ = Ok (_, _) |- _ => unfold get_escrow in H
  | H : has_hardfork _ _ = Ok (_, _) |- _ => unfold has_hardfork in H
  | H : head_block_time _ = Ok (_, _) |- _ => unfold head_block_time in H
  | H : head_block_num _ = Ok (_, _) |- _ => unfold head_block_num in H
  | H : median_price _ = Ok (_, _) |- _ => unfold median_price in H
  | H : check_op_param _ _ _ = Ok (_, _) |- _ => apply check_op_param_run in H
  | H : check_account_exists _ _ = Ok (_, _) |- _ => unfold check_account_exists in H
  | H : assert_req_hf _ _ = Ok (_, _) |- _ => unfold assert_req_hf in H
  | H : throw_if_exists _ _ _ _ = Ok (_, _) |- _ => unfold throw_if_exists in H
  | H : check_balance _ _ _ _ = Ok (_, _) |- _ => unfold check_balance in H
  | H : (match ?o with Some _ => _ | None => _ end) _ = Ok (_, _) |- _ => destruct o eqn:?
  | H : when ?c _ _ = Ok (_, _) |- _ => unfold when in H
  | H : (if ?c then _ else _) _ = Ok (_, _) |- _ => destruct c eqn:?
  | u : unit |- _ => destruct u
  end.
Ltac inv_run := repeat inv_run_step.

(** ** The two sides of the invariant *)

Section Conservation.
Context `{F : fc_ops} {L : fc_laws F}.
Variable sym : Z.

Definition account_holdings (a : account_object) : Z :=
  amount_in sym (account_balance a) + amount_in sym (account_savings_balance a) +
  amount_in sym (account_sbd_balance a) + amount_in sym (account_savings_sbd_balance a) +
  amount_in sym (account_vesting_shares a).

Definition escrow_holdings (e : escrow_object) : Z :=
  amount_in sym (escrow_steem_balance e) + amount_in sym (escrow_sbd_balance e) +
  amount_in sym (escrow_pending_fee e).

Definition order_holdings (o : limit_order_object) : Z := amount_in sym (amount_for_sale o).
Definition convert_holdings (c : convert_request_object) : Z := amount_in sym (convert_request_amount c).
Definition savings_holdings (s : savings_withdraw_object) : Z := amount_in sym (savings_withdraw_amount s).

Definition fund_holdings (p : dynamic_global_property_object) : Z :=
  amount_in sym (dgp_total_vesting_fund_steem p) + amount_in sym (dgp_total_reward_fund_steem p).

(** What the objects of the database hold in [sym]. *)
Definition holdings (db : database) : Z :=
  msum account_holdings (rows (accounts db)) +
  msum escrow_holdings (rows (escrows db)) +
  msum order_holdings (rows (limit_orders db)) +
  msum convert_holdings (rows (convert_requests db)) +
  msum savings_holdings (rows (savings_withdraws db)) +
  fund_holdings (dgp db).

(** What the global properties record as issued in [sym]. *)
Definition supply_of (p : dynamic_global_property_object) : Z :=
  amount_in sym (dgp_current_supply p) + amount_in sym (dgp_current_sbd_supply p) +
  amount_in sym (dgp_total_vesting_shares p).

Definition gap (db : database) : Z := supply_of (dgp db) - holdings db.

(** ** Changes of the gap *)

Lemma on_table_run {T : Type} (proj : database -> T) `{!FieldSetter proj} f db u db' :
  on_table proj f db = Ok (u, db') <->
  exists t, f (proj db) = Ok t /\ db' = db <| proj := t |>.
Proof.
  destruct u. unfold on_table. destruct (f (proj db)) as [t|e]; split; try discriminate.
  - intros [= <-]. eauto.
  - by intros (? & [= <-] & ->).
  - by intros (? & ? & _).
Qed.

Lemma modify_run {K V : Type} `{Countable K} (proj : database -> table K V) `{!FieldSetter proj}
    k f db u db' :
  modify proj k f db = Ok (u, db') <->
  exists v v', rows (proj db) !! k = Some v /\ f v = Ok v' /\
    db' = db <| proj := mk_table (<[k := v']> (rows (proj db))) (next_id (proj db)) |>.
Proof.
  unfold modify. rewrite on_table_run. setoid_rewrite table_modify_Ok. split.
  - intros (t & (v & v' & Hv & Hf & ->) & ->). eauto.
  - intros (v & v' & Hv & Hf & ->). eauto 10.
Qed.

Lemma create_run {K V : Type} `{Countable K} (proj : database -> table K V) `{!FieldSetter proj}
    k init db u db' :
  create proj k init db = Ok (u, db') <->
  rows (proj db) !! k = None /\
  db' = db <| proj := mk_table (<[k := init (next_id (proj db))]> (rows (proj db)))
                        (next_id (proj db) + 1) |>.
Proof.
  unfold create. rewrite on_table_run. setoid_rewrite table_create_Ok. split.
  - by intros (t & (Hv & ->) & ->).
  - intros (Hv & ->). eauto 10.
Qed.

Lemma remove_run {K V : Type} `{Countable K} (proj : database -> table K V) `{!FieldSetter proj}
    k db u db' :
  remove proj k db = Ok (u, db') <->
  exists v, rows (proj db) !! k = Some v /\
    db' = db <| proj := mk_table (delete k (rows (proj db))) (next_id (proj db)) |>.
Proof.
  unfold remove. rewrite on_table_run. setoid_rewrite table_remove_Ok. split.
  - intros (t & (v & Hv & ->) & ->). eauto.
  - intros (v & Hv & ->). eauto 10.
Qed.

Lemma modify_accounts_gap k f db u db' :
  modify accounts k f db = Ok (u, db') ->
  exists v v', rows (accounts db) !! k = Some v /\ f v = Ok v' /\
    dgp db' = dgp db /\ feed_history db' = feed_history db /\
    gap db' = gap db - (account_holdings v' - account_holdings v).
Proof.
  intros H. apply on_table_run in H as (t & Ht & ->). apply table_modify_Ok in Ht as (v & v' & Hv & Hf & ->).
  exists v, v'. split_and!; [done | done | done | done |].
  unfold gap, holdings. cbn. rewrite (msum_insert _ _ _ _ v) by done. lia.
Qed.

Lemma modify_dgp_gap f db u db' :
  modify_dgp f db = Ok (u, db') ->
  exists p, f (dgp db) = Ok p /\ dgp db' = p /\ accounts db' = accounts db /\
    gap db' = gap db + (supply_of p - supply_of (dgp db)) - (fund_holdings p - fund_holdings (dgp db)).
Proof.
  intros H. apply on_table_run in H as (p & Hp & ->). exists p. split_and!; [done | done | done |].
  unfold gap, holdings. cbn. lia.
Qed.

Lemma create_escrow_gap k init db u db' :
  create escrows k init db = Ok (u, db') ->
  exists id, gap db' = gap db - escrow_holdings (init id).
Proof.
  intros H. apply on_table_run in H as (t & Ht & ->). apply table_create_Ok in Ht as (Hk & ->).
  exists (next_id (escrows db)). unfold gap, holdings. cbn. rewrite msum_insert_fresh by done. lia.
Qed.

Lemma modify_escrow_gap k f db u db' :
  modify escrows k f db = Ok (u, db') ->
  exists v v', rows (escrows db) !! k = Some v /\ f v = Ok v' /\
    rows (escrows db') !! k = Some v' /\
    gap db' = gap db - (escrow_holdings v' - escrow_holdings v).
Proof.
  intros H. apply on_table_run in H as (t & Ht & ->). apply table_modify_Ok in Ht as (v & v' & Hv & Hf & ->).
  exists v, v'. split_and!; [done | done | cbn; apply lookup_insert_eq |].
  unfold gap, holdings. cbn. rewrite (msum_insert _ _ _ _ v) by done. lia.
Qed.

Lemma remove_escrow_gap k db u db' :
  remove escrows k db = Ok (u, db') ->
  exists v, rows (escrows db) !! k = Some v /\ gap db' = gap db + escrow_holdings v.
Proof.
  intros H. apply on_table_run in H as (t & Ht & ->). apply table_remove_Ok in Ht as (v & Hv & ->).
  exists v. split; [done|]. unfold gap, holdings. cbn. rewrite (msum_delete _ _ _ v) by done. lia.
Qed.

Lemma create_order_gap k init db u db' :
  create limit_orders k init db = Ok (u, db') ->
  exists id, gap db' = gap db - order_holdings (init id).
Proof.
  intros H. apply on_table_run in H as (t & Ht & ->). apply table_create_Ok in Ht as (Hk & ->).
  exists (next_id (limit_orders db)). unfold gap, holdings. cbn. rewrite msum_insert_fresh by done. lia.
Qed.

Lemma modify_order_gap k f db u db' :
  modify limit_orders k f db = Ok (u, db') ->
  exists v v', rows (limit_orders db) !! k = Some v /\ f v = Ok v' /\
    rows (limit_orders db') !! k = Some v' /\
    gap db' = gap db - (order_holdings v' - order_holdings v).
Proof.
  intros H. apply on_table_run in H as (t & Ht & ->). apply table_modify_Ok in Ht as (v & v' & Hv & Hf & ->).
  exists v, v'. split_and!; [done | done | cbn; apply lookup_insert_eq |].
  unfold gap, holdings. cbn. rewrite (msum_insert _ _ _ _ v) by done. lia.
Qed.

Lemma remove_order_gap k db u db' :
  remove limit_orders k db = Ok (u, db') ->
  exists v, rows (limit_orders db) !! k = Some v /\ gap db' = gap db + order_holdings v.
Proof.
  intros H. apply on_table_run in H as (t & Ht & ->). apply table_remove_Ok in Ht as (v & Hv & ->).
  exists v. split; [done|]. unfold gap, holdings. cbn. rewrite (msum_delete _ _ _ v) by done. lia.
Qed.

Lemma create_convert_gap k init db u db' :
  create convert_requests k init db = Ok (u, db') ->
  exists id, gap db' = gap db - convert_holdings (init id).
Proof.
  intros H. apply on_table_run in H as (t & Ht & ->). apply table_create_Ok in Ht as (Hk & ->).
  exists (next_id (convert_requests db)). unfold gap, holdings. cbn. rewrite msum_insert_fresh by done. lia.
Qed.

Lemma remove_convert_gap k db u db' :
  remove convert_requests k db = Ok (u, db') ->
  exists v, rows (convert_requests db) !! k = Some v /\ gap db' = gap db + convert_holdings v.
Proof.
  intros H. apply on_table_run in H as (t & Ht & ->). apply table_remove_Ok in Ht as (v & Hv & ->).
  exists v. split; [done|]. unfold gap, holdings. cbn. rewrite (msum_delete _ _ _ v) by done. lia.
Qed.

Lemma create_savings_gap k init db u db' :
  create savings_withdraws k init db = Ok (u, db') ->
  exists id, gap db' = gap db - savings_holdings (init id).
Proof.
  intros H. apply on_table_run in H as (t & Ht & ->). apply table_create_Ok in Ht as (Hk & ->).
  exists (next_id (savings_withdraws db)). unfold gap, holdings. cbn. rewrite msum_insert_fresh by done. lia.
Qed.

Lemma remove_savings_gap k db u db' :
  remove savings_withdraws k db = Ok (u, db') ->
  exists v, rows (savings_withdraws db) !! k = Some v /\ gap db' = gap db + savings_holdings v.
Proof.
  intros H. apply on_table_run in H as (t & Ht & ->). apply table_remove_Ok in Ht as (v & Hv & ->).
  exists v. split; [done|]. unfold gap, holdings. cbn. rewrite (msum_delete _ _ _ v) by done. lia.
Qed.

(** Tables that hold no value. *)
Lemma push_virtual_operation_run op force db u db' :
  push_virtual_operation op force db = Ok (u, db') ->
  exists n l, db' = db <| current_virtual_op := n |> <| notifications := l |>.
Proof.
  unfold push_virtual_operation. intros H.
  destruct (negb force && skip_virtual_ops db).
  - injection H as _ <-. exists (current_virtual_op db), (notifications db). by destruct db.
  - destruct (is_virtual_operation op); [|discriminate]. injection H as _ <-. eexists _, _. reflexivity.
Qed.

Lemma push_virtual_operation_gap op force db u db' :
  push_virtual_operation op force db = Ok (u, db') ->
  gap db' = gap db /\ dgp db' = dgp db /\ feed_history db' = feed_history db.
Proof. by intros (n & l & ->)%push_virtual_operation_run. Qed.

Lemma modify_witness_gap k f db u db' :
  modify witnesses k f db = Ok (u, db') -> gap db' = gap db /\ dgp db' = dgp db.
Proof. intros H. apply on_table_run in H as (t & Ht & ->). done. Qed.

End Conservation.

(** Rewrites the amounts in [sym] of sums, differences and negations of assets. *)
Ltac amounts sym :=
  repeat match goal with
  | H : asset_add ?a ?b = Ok ?c |- _ => apply (amount_in_add sym) in H
  | H : asset_sub ?a ?b = Ok ?c |- _ => apply (amount_in_sub sym) in H
  | H : asset_neg ?a = Ok ?c |- _ => apply (amount_in_neg sym) in H
  end.

(** Replaces the runs of the primitives above by what they do to the gap. *)
Ltac gap_primitive sym :=
  match goal with
  | H : modify accounts _ _ _ = Ok _ |- _ =>
      apply (modify_accounts_gap sym) in H; destruct H as (? & ? & ? & H & ? & ? & ?)
  | H : modify_dgp _ _ = Ok _ |- _ =>
      apply (modify_dgp_gap sym) in H; destruct H as (? & H & ? & ? & ?)
  | H : push_virtual_operation _ _ _ = Ok _ |- _ =>
      apply (push_virtual_operation_gap sym) in H; destruct H as (H & ? & ?)
  | H : create escrows _ _ _ = Ok _ |- _ =>
      apply (create_escrow_gap sym) in H; destruct H as (? & H)
  | H : modify escrows _ _ _ = Ok _ |- _ =>
      apply (modify_escrow_gap sym) in H; destruct H as (? & ? & ? & H & ? & ?)
  | H : remove escrows _ _ = Ok _ |- _ =>
      apply (remove_escrow_gap sym) in H; destruct H as (? & ? & H)
  | H : create limit_orders _ _ _ = Ok _ |- _ =>
      apply (create_order_gap sym) in H; destruct H as (? & H)
  | H : modify limit_orders _ _ _ = Ok _ |- _ =>
      apply (modify_order_gap sym) in H; destruct H as (? & ? & ? & H & ? & ?)
  | H : remove limit_orders _ _ = Ok _ |- _ =>
      apply (remove_order_gap sym) in H; destruct H as (? & ? & H)
  | H : create convert_requests _ _ _ = Ok _ |- _ =>
      apply (create_convert_gap sym) in H; destruct H as (? & H)
  | H : remove convert_requests _ _ = Ok _ |- _ =>
      apply (remove_convert_gap sym) in H; destruct H as (? & ? & H)
  | H : create savings_withdraws _ _ _ = Ok _ |- _ =>
      apply (create_savings_gap sym) in H; destruct H as (? & H)
  | H : remove savings_withdraws _ _ = Ok _ |- _ =>
      apply (remove_savings_gap sym) in H; destruct H as (? & ? & H)
  end.

(** The facts about composed functions are added to [gap_composed] as they are proved. *)
Ltac gap_composed sym := fail.
Ltac gap_arith sym :=
  unfold account_holdings, escrow_holdings, order_holdings, convert_holdings, savings_holdings,
    supply_of, fund_holdings, amount_for_sale in *; cbn in *; amounts sym;
  rewrite ?amount_in_zero in *; lia.
Ltac gap_solve sym :=
  inv_run; repeat (first [gap_composed sym | gap_primitive sym]); inv_ok; try gap_arith sym.

Section Composed.
Context `{F : fc_ops} {L : fc_laws F}.
Variable sym : Z.
#[local] Abbreviation gap := (gap sym).

(** ** Balances *)

Lemma pay_interest_supply_gap paid db u db' :
  pay_interest_supply paid db = Ok (u, db') ->
  gap db' = gap db + amount_in sym paid.
Proof. unfold pay_interest_supply. intros H. gap_solve sym. Qed.

Lemma accrue_sbd_interest_gap name db u db' :
  accrue_sbd_interest name db = Ok (u, db') -> gap db' = gap db.
Proof.
  unfold accrue_sbd_interest. intros H. inv_run; [| gap_solve sym | done].
  apply pay_interest_supply_gap in H. gap_solve sym.
Qed.

Lemma accrue_savings_interest_gap name db u db' :
  accrue_savings_interest name db = Ok (u, db') -> gap db' = gap db.
Proof.
  unfold accrue_savings_interest. intros H. inv_run; [| gap_solve sym | done].
  apply pay_interest_supply_gap in H. gap_solve sym.
Qed.

(** A balance grows by the amount, so the gap shrinks by it. *)
Lemma adjust_balance_gap name delta db u db' :
  adjust_balance name delta db = Ok (u, db') -> gap db' = gap db - amount_in sym delta.
Proof.
  unfold adjust_balance. intros H. inv_run; [gap_solve sym|].
  unfold adjust_sbd_balance in H. inv_run. apply accrue_sbd_interest_gap in Hrun. gap_solve sym.
Qed.

Lemma adjust_savings_balance_gap name delta db u db' :
  adjust_savings_balance name delta db = Ok (u, db') -> gap db' = gap db - amount_in sym delta.
Proof.
  unfold adjust_savings_balance. intros H. inv_run; [gap_solve sym|].
  apply accrue_savings_interest_gap in Hrun. gap_solve sym.
Qed.

(** The supply grows by the amount; what goes to the vesting fund is counted on both
    sides. *)
Lemma adjust_supply_gap delta v db u db' :
  adjust_supply delta v db = Ok (u, db') -> gap db' = gap db + amount_in sym delta.
Proof.
  unfold adjust_supply. intros H. inv_run. gap_primitive sym.
  destruct (symbol delta =? STEEM_SYMBOL); [gap_solve sym|].
  destruct (symbol delta =? SBD_SYMBOL); [gap_solve sym | done].
Qed.

(** ** Votes move no value *)

Lemma for_each_gap {A : Type} (f : A -> M unit) l db u db' :
  (forall x db1 u1 db2, f x db1 = Ok (u1, db2) -> gap db2 = gap db1) ->
  for_each f l db = Ok (u, db') -> gap db' = gap db.
Proof.
  intros Hf. revert db. induction l as [| x l IH]; intros db H; cbn in H; inv_run; [done|].
  apply Hf in Hrun. apply IH in H. congruence.
Qed.

Lemma adjust_witness_votes_gap account delta db u db' :
  adjust_witness_votes account delta db = Ok (u, db') -> gap db' = gap db.
Proof.
  unfold adjust_witness_votes. intros H. inv_run. revert H. apply for_each_gap.
  intros v db1 u1 db2 H. inv_run. unfold get_witness_by_id in Hrun.
  destruct (table_find_by _ _) as [[k w]|]; [|done]. injection Hrun as <- <-.
  unfold adjust_witness_vote in H. inv_run. by apply (modify_witness_gap sym) in H as [-> _].
Qed.

Lemma adjust_proxied_witness_votes_gap n name delta db u db' :
  adjust_proxied_witness_votes_at n name delta db = Ok (u, db') -> gap db' = gap db.
Proof.
  revert name db. induction n as [| n IH]; intros name db H; cbn in H; inv_run;
    try (by eapply adjust_witness_votes_gap); try done.
  apply IH in H. gap_solve sym.
Qed.

(** New vesting shares are issued and held; the paid amount enters the fund. *)
Lemma create_vesting_gap to steem db r db' :
  create_vesting to steem db = Ok (r, db') -> gap db' = gap db - amount_in sym steem.
Proof.
  unfold create_vesting, adjust_proxied_witness_votes. intros H. inv_run.
  match goal with H : adjust_proxied_witness_votes_at _ _ _ _ = Ok _ |- _ =>
    apply adjust_proxied_witness_votes_gap in H end. gap_solve sym.
Qed.

End Composed.

(** A draining loop conserves what its body conserves, and with enough fuel it stops
    because nothing is due any more. *)
Lemma drain_gap `{F : fc_ops} sym {K : Type} fuel next (body : K -> M unit) db u db' :
  (forall k db1 u1 db2, next db1 = Some k -> body k db1 = Ok (u1, db2) -> gap sym db2 = gap sym db1) ->
  drain fuel next body db = Ok (u, db') -> gap sym db' = gap sym db.
Proof.
  intros Hbody. revert db. induction fuel as [| n IH]; intros db H; cbn in H; inv_run; [done | | done].
  apply IH in H. apply Hbody in Hrun; [congruence | done].
Qed.

Lemma drain_done {K : Type} (measure : database -> nat) fuel next (body : K -> M unit) db u db' :
  (forall k db1 u1 db2, next db1 = Some k -> body k db1 = Ok (u1, db2) ->
    (measure db2 < measure db1)%nat) ->
  (measure db < fuel)%nat -> drain fuel next body db = Ok (u, db') -> next db' = None.
Proof.
  intros Hbody. revert db. induction fuel as [| n IH]; intros db Hfuel H; [lia|].
  cbn in H. inv_run; [|done].
  apply IH in H; [done|]. apply Hbody in Hrun; [lia | done].
Qed.

(** An invariant of the body is an invariant of the loop. *)
Lemma drain_invariant {K : Type} (P : database -> Prop) fuel next (body : K -> M unit) db u db' :
  (forall k db1 u1 db2, next db1 = Some k -> P db1 -> body k db1 = Ok (u1, db2) -> P db2) ->
  P db -> drain fuel next body db = Ok (u, db') -> P db'.
Proof.
  intros Hbody. revert db. induction fuel as [| n IH]; intros db HP H; cbn in H; inv_run; [done | | done].
  apply (IH db0); [|done]. by eapply Hbody.
Qed.

(** ... and with enough fuel the loop stops because nothing is due any more. *)
Lemma drain_settles {K : Type} (P : database -> Prop) (measure : database -> nat) fuel next (body : K -> M unit) db u db' :
  (forall k db1 u1 db2, next db1 = Some k -> P db1 -> body k db1 = Ok (u1, db2) -> P db2 /\ (measure db2 < measure db1)%nat) ->
  P db -> (measure db < fuel)%nat -> drain fuel next body db = Ok (u, db') -> P db' /\ next db' = None.
Proof.
  intros Hbody. revert db. induction fuel as [| n IH]; intros db HP Hfuel H; [lia|].
  cbn in H. inv_run; [|done]. destruct (Hbody _ _ _ _ Heqo HP Hrun) as [HP' Hlt]. apply (IH db0); [done | lia | done].
Qed.

(** ** What balance changes leave alone

    Changing balances, supplies and witness votes touches the accounts, the
    witnesses, the amounts in the global properties and the notifications; every
    other table, the clock and the set of accounts stay. *)

Record frame (db db' : database) : Prop := mk_frame {
  frame_authorities : authorities db' = authorities db;
  frame_escrows : escrows db' = escrows db;
  frame_savings_withdraws : savings_withdraws db' = savings_withdraws db;
  frame_convert_requests : convert_requests db' = convert_requests db;
  frame_limit_orders : limit_orders db' = limit_orders db;
  frame_vesting_routes : vesting_routes db' = vesting_routes db;
  frame_delegations : delegations db' = delegations db;
  frame_delegation_expirations : delegation_expirations db' = delegation_expirations db;
  frame_feed_history : feed_history db' = feed_history db;
  frame_processed_hardforks : processed_hardforks db' = processed_hardforks db;
  frame_time : dgp_time (dgp db') = dgp_time (dgp db);
  frame_head_block_number : dgp_head_block_number (dgp db') = dgp_head_block_number (dgp db);
  frame_accounts : forall k, is_Some (rows (accounts db') !! k) <-> is_Some (rows (accounts db) !! k)
}.

#[export] Instance frame_preorder : PreOrder frame.
Proof.
  split; [done|]. intros x y z Hxy Hyz. destruct Hxy, Hyz.
  split; try congruence. intros k. by rewrite frame_accounts1, frame_accounts0.
Qed.

(** Solves [frame] goals: the runs in the context lead from the first database to
    the last; the framing facts of composed functions are added to [frame_composed]. *)
Ltac frame_composed := fail.
Ltac frame_chain :=
  match goal with
  | |- frame ?db ?db => reflexivity
  | H : frame ?db ?db1 |- frame ?db _ => transitivity db1; [exact H | clear H; frame_chain]
  end.

Lemma modify_accounts_frame k f db u db' : modify accounts k f db = Ok (u, db') -> frame db db'.
Proof.
  intros H. apply on_table_run in H as (t & Ht & ->). apply table_modify_Ok in Ht as (v & v' & Hv & _ & ->).
  split; try done. cbn. intros k'. destruct (decide (k' = k)) as [-> | Hne].
  - rewrite lookup_insert_eq, Hv. by split.
  - by rewrite lookup_insert_ne by congruence.
Qed.

Lemma modify_witnesses_frame k f db u db' : modify witnesses k f db = Ok (u, db') -> frame db db'.
Proof. by intros (t & Ht & ->)%on_table_run. Qed.

Lemma modify_dgp_frame f db u db' :
  (forall p p', f p = Ok p' -> dgp_time p' = dgp_time p /\ dgp_head_block_number p' = dgp_head_block_number p) ->
  modify_dgp f db = Ok (u, db') -> frame db db'.
Proof. intros Hf (p & [Ht Hn]%Hf & ->)%on_table_run. by split. Qed.

Lemma push_virtual_operation_frame op force db u db' :
  push_virtual_operation op force db = Ok (u, db') -> frame db db'.
Proof. by intros (n & l & ->)%push_virtual_operation_run. Qed.

Ltac frame_primitive :=
  match goal with
  | H : modify accounts _ _ _ = Ok _ |- _ => apply modify_accounts_frame in H
  | H : modify witnesses _ _ _ = Ok _ |- _ => apply modify_witnesses_frame in H
  | H : push_virtual_operation _ _ _ = Ok _ |- _ => apply push_virtual_operation_frame in H
  | H : modify_dgp _ _ = Ok _ |- _ =>
      apply modify_dgp_frame in H;
      [| let p := fresh "p" in let p' := fresh "p'" in let Hp := fresh "Hp" in
         intros p p' Hp;
         repeat match type of Hp with (if ?c then _ else _) = Ok _ => destruct c end;
         inv_ok; done]
  end.
Ltac frame_solve := inv_run; repeat (first [frame_composed | frame_primitive]); frame_chain.

Section Frames.
Context `{F : fc_ops}.

Lemma pay_interest_supply_frame paid db u db' : pay_interest_supply paid db = Ok (u, db') -> frame db db'.
Proof. unfold pay_interest_supply. intros H. frame_solve. Qed.

Lemma accrue_sbd_interest_frame name db u db' : accrue_sbd_interest name db = Ok (u, db') -> frame db db'.
Proof.
  unfold accrue_sbd_interest. intros H. inv_run; try apply pay_interest_supply_frame in H; frame_solve.
Qed.

Lemma accrue_savings_interest_frame name db u db' :
  accrue_savings_interest name db = Ok (u, db') -> frame db db'.
Proof.
  unfold accrue_savings_interest. intros H. inv_run; try apply pay_interest_supply_frame in H; frame_solve.
Qed.

Lemma adjust_balance_frame name delta db u db' : adjust_balance name delta db = Ok (u, db') -> frame db db'.
Proof.
  unfold adjust_balance, adjust_sbd_balance. intros H. inv_run;
    try apply accrue_sbd_interest_frame in Hrun; frame_solve.
Qed.

Lemma adjust_savings_balance_frame name delta db u db' :
  adjust_savings_balance name delta db = Ok (u, db') -> frame db db'.
Proof.
  unfold adjust_savings_balance. intros H. inv_run;
    try apply accrue_savings_interest_frame in Hrun; frame_solve.
Qed.

Lemma adjust_supply_frame delta v db u db' : adjust_supply delta v db = Ok (u, db') -> frame db db'.
Proof. unfold adjust_supply. intros H. frame_solve. Qed.

Lemma for_each_frame {A : Type} (f : A -> M unit) l db u db' :
  (forall x db1 u1 db2, f x db1 = Ok (u1, db2) -> frame db1 db2) ->
  for_each f l db = Ok (u, db') -> frame db db'.
Proof.
  intros Hf. revert db. induction l as [| x l IH]; intros db H; cbn in H; inv_run; [done|].
  apply Hf in Hrun. apply IH in H. by etrans.
Qed.

Lemma adjust_witness_votes_frame account delta db u db' :
  adjust_witness_votes account delta db = Ok (u, db') -> frame db db'.
Proof.
  unfold adjust_witness_votes. intros H. inv_run. revert H. apply for_each_frame.
  intros v db1 u1 db2 H. inv_run. unfold get_witness_by_id in Hrun.
  destruct (table_find_by _ _) as [[k w]|]; [|done]. injection Hrun as <- <-.
  unfold adjust_witness_vote in H. frame_solve.
Qed.

Lemma adjust_proxied_witness_votes_frame n name delta db u db' :
  adjust_proxied_witness_votes_at n name delta db = Ok (u, db') -> frame db db'.
Proof.
  revert name db. induction n as [| n IH]; intros name db H; cbn in H; inv_run;
    try (by eapply adjust_witness_votes_frame); try done.
  apply IH in H. frame_solve.
Qed.

Lemma create_vesting_frame to steem db r db' : create_vesting to steem db = Ok (r, db') -> frame db db'.
Proof.
  unfold create_vesting, adjust_proxied_witness_votes. intros H. inv_run.
  match goal with H : adjust_proxied_witness_votes_at _ _ _ _ = Ok _ |- _ =>
    apply adjust_proxied_witness_votes_frame in H end. frame_solve.
Qed.

End Frames.

Ltac frame_composed ::=
  match goal with
  | H : adjust_balance _ _ _ = Ok _ |- _ => apply adjust_balance_frame in H
  | H : adjust_savings_balance _ _ _ = Ok _ |- _ => apply adjust_savings_balance_frame in H
  | H : adjust_supply _ _ _ = Ok _ |- _ => apply adjust_supply_frame in H
  | H : create_vesting _ _ _ = Ok _ |- _ => apply create_vesting_frame in H
  | H : adjust_witness_votes _ _ _ = Ok _ |- _ => apply adjust_witness_votes_frame in H
  | H : adjust_proxied_witness_votes_at _ _ _ _ = Ok _ |- _ =>
      apply adjust_proxied_witness_votes_frame in H
  end.

(** Reads a row of an untouched table in the first database of a chain of frames. *)
Ltac frame_lookups :=
  repeat match goal with
  | Hf : frame ?db ?db', H : context [escrows ?db'] |- _ => rewrite (frame_escrows db db' Hf) in H
  | Hf : frame ?db ?db', H : context [savings_withdraws ?db'] |- _ =>
      rewrite (frame_savings_withdraws db db' Hf) in H
  | Hf : frame ?db ?db', H : context [convert_requests ?db'] |- _ =>
      rewrite (frame_convert_requests db db' Hf) in H
  | Hf : frame ?db ?db', H : context [limit_orders ?db'] |- _ =>
      rewrite (frame_limit_orders db db' Hf) in H
  | Hf : frame ?db ?db', H : context [delegations ?db'] |- _ =>
      rewrite (frame_delegations db db' Hf) in H
  end; simplify_eq.

(** The composed functions: what they do to the gap, and their frame. *)
Ltac keep_frame H lemma := let Hf := fresh "Hframe" in pose proof H as Hf; apply lemma in Hf.
Ltac gap_composed sym ::=
  match goal with
  | H : adjust_balance _ _ _ = Ok _ |- _ =>
      keep_frame H adjust_balance_frame; apply (adjust_balance_gap sym) in H
  | H : adjust_savings_balance _ _ _ = Ok _ |- _ =>
      keep_frame H adjust_savings_balance_frame; apply (adjust_savings_balance_gap sym) in H
  | H : adjust_supply _ _ _ = Ok _ |- _ =>
      keep_frame H adjust_supply_frame; apply (adjust_supply_gap sym) in H
  | H : create_vesting _ _ _ = Ok _ |- _ =>
      keep_frame H create_vesting_frame; apply (create_vesting_gap sym) in H
  | H : adjust_witness_votes _ _ _ = Ok _ |- _ =>
      keep_frame H adjust_witness_votes_frame; apply (adjust_witness_votes_gap sym) in H
  | H : adjust_proxied_witness_votes_at _ _ _ _ = Ok _ |- _ =>
      keep_frame H adjust_proxied_witness_votes_frame;
      apply (adjust_proxied_witness_votes_gap sym) in H
  | H : push_virtual_operation _ _ _ = Ok _ |- _ =>
      keep_frame H push_virtual_operation_frame;
      apply (push_virtual_operation_gap sym) in H; destruct H as (H & _ & _)
  | H : modify accounts _ _ _ = Ok _ |- _ =>
      keep_frame H modify_accounts_frame;
      apply (modify_accounts_gap sym) in H; destruct H as (? & ? & ? & H & _ & _ & ?)
  end.

Ltac gap_solve sym ::=
  inv_run; repeat (first [gap_composed sym | gap_primitive sym]); inv_ok; frame_lookups;
  try gap_arith sym.

Section Payments.
Context `{F : fc_ops} {L : fc_laws F}.

(** A fee is burned: it leaves the account and the supply. *)
Lemma pay_fee_gap sym name fee db u db' : pay_fee name fee db = Ok (u, db') -> gap sym db' = gap sym db.
Proof. unfold pay_fee. intros H. gap_solve sym; try done. Qed.

Lemma safe_sub_Ok a b c : safe_sub a b = Ok c -> c = a - b.
Proof. rewrite safe_sub_law. destruct (is_int64 (a - b)); [by intros [= <-] | done]. Qed.
Lemma safe_neg_Ok a c : safe_neg a = Ok c -> c = - a.
Proof. rewrite safe_neg_law. destruct (is_int64 (- a)); [by intros [= <-] | done]. Qed.
Lemma safe_add_Ok a b c : safe_add a b = Ok c -> c = a + b.
Proof. rewrite safe_add_law. destruct (is_int64 (a + b)); [by intros [= <-] | done]. Qed.

Lemma amount_in_mk sym n s : amount_in sym (mk_asset n s) = if s =? sym then n else 0.
Proof. reflexivity. Qed.

(** Part of the payment is printed as SBD at the median price, the rest is paid as
    it is. *)
Lemma create_sbd_gap sym to steem db r db' :
  symbol steem = STEEM_SYMBOL ->
  create_sbd to steem db = Ok (r, db') -> gap sym db' = gap sym db - amount_in sym steem.
Proof.
  unfold create_sbd. intros Hs H. inv_run; bool_to_prop.
  - destruct steem as [n s]. cbn in *. subst n. rewrite amount_in_zero. lia.
  - gap_solve sym.
    repeat match goal with
    | H : safe_sub _ _ = Ok _ |- _ => apply safe_sub_Ok in H
    | H : safe_neg _ = Ok _ |- _ => apply safe_neg_Ok in H
    end.
    rewrite amount_in_mk in *. unfold amount_in at 1. rewrite Hs. destruct (STEEM_SYMBOL =? sym); lia.
  - gap_solve sym.
Qed.

Lemma pay_fee_frame name fee db u db' : pay_fee name fee db = Ok (u, db') -> frame db db'.
Proof. unfold pay_fee. intros H. frame_solve. Qed.

Lemma create_sbd_frame to steem db r db' : create_sbd to steem db = Ok (r, db') -> frame db db'.
Proof. unfold create_sbd. intros H. frame_solve. Qed.

End Payments.

(** A loop keeps the frame its body keeps. *)
Lemma drain_frame {K : Type} fuel next (body : K -> M unit) db u db' :
  (forall k db1 u1 db2, body k db1 = Ok (u1, db2) -> frame db1 db2) ->
  drain fuel next body db = Ok (u, db') -> frame db db'.
Proof. intros Hb. apply drain_invariant; [|done]. intros k d1 u1 d2 _ Hd H. etrans; [done | by eapply Hb]. Qed.

(** A loop over the due entries of a table whose body removes the entry it handles
    removes exactly the due entries; the number of entries is enough fuel. *)
Section DrainTable.
Context {K V St : Type} `{Countable K} (proj : database -> table K V).
Variables (due : Z -> V -> bool) (cmp : V -> V -> comparison) (body : K -> St -> M St).
Let next (db : database) : option K := first_due (due (dgp_time (dgp db))) cmp (proj db).
Hypothesis body_removes : forall k s db1 s' db2, body k s db1 = Ok (s', db2) ->
  rows (proj db2) = delete k (rows (proj db1)) /\ dgp_time (dgp db2) = dgp_time (dgp db1).

Lemma drain_with_table_spec n s db s' db' :
  (size (rows (proj db)) < n)%nat -> drain_with n next body s db = Ok (s', db') ->
  rows (proj db') = filter (fun kv => due (dgp_time (dgp db)) (snd kv) = false) (rows (proj db)) /\
  dgp_time (dgp db') = dgp_time (dgp db).
Proof.
  revert s db. induction n as [| n IH]; intros s db Hn Hd; [lia|]. cbn in Hd. inv_run.
  - destruct (first_due_Some _ _ _ _ Heqo) as (v & Hv & Hdue).
    apply body_removes in Hrun as [Hrows Htime]. apply IH in Hd as [Hd Htime'].
    + rewrite Htime in *. split; [|congruence]. rewrite Hd, Hrows.
      rewrite map_filter_delete_not; [done|]. intros y Hy. cbn. congruence.
    + rewrite Hrows, map_size_delete, Hv. cbn.
      assert (size (rows (proj db)) <> 0%nat) by (apply (map_size_ne_0_lookup_2 _ k); eauto). lia.
  - split; [|done]. pose proof (first_due_None _ _ _ Heqo) as Hnone. symmetry.
    apply map_filter_id. intros k v Hv. by apply (Hnone k).
Qed.

(** What holds of the locals and the database after every turn holds at the end. *)
Lemma drain_with_invariant (P : St -> database -> Prop) n s db s' db' :
  (forall k s1 db1 s2 db2, P s1 db1 -> body k s1 db1 = Ok (s2, db2) -> P s2 db2) ->
  P s db -> drain_with n next body s db = Ok (s', db') -> P s' db'.
Proof.
  intros Hbody. revert s db. induction n as [| n IH]; intros s db HP Hd; cbn in Hd; inv_run; try done.
  eapply IH; [|done]. by eapply Hbody.
Qed.
End DrainTable.

Lemma drain_as_with {K : Type} n next (body : K -> M unit) db :
  drain n next body db = drain_with n next (fun k _ => body k) tt db.
Proof.
  revert db. induction n as [| n IH]; intros db; [done|]. cbn [drain drain_with].
  rewrite !(bind_eq _ _ _ (next db) db) by done. destruct (next db) as [k|]; [|done].
  destruct (body k db) as [[[] db1] | e] eqn:E.
  - rewrite !(bind_eq _ _ _ _ _ E). apply IH.
  - by rewrite !(bind_throws _ _ _ _ E).
Qed.

Lemma drain_table_spec {K V : Type} `{Countable K} (proj : database -> table K V) due cmp body n db u db' :
  (forall k db1 u1 db2, body k db1 = Ok (u1, db2) ->
     rows (proj db2) = delete k (rows (proj db1)) /\ dgp_time (dgp db2) = dgp_time (dgp db1)) ->
  (size (rows (proj db)) < n)%nat ->
  drain n (fun db => first_due (due (dgp_time (dgp db))) cmp (proj db)) body db = Ok (u, db') ->
  rows (proj db') = filter (fun kv => due (dgp_time (dgp db)) (snd kv) = false) (rows (proj db)) /\
  dgp_time (dgp db') = dgp_time (dgp db).
Proof.
  intros Hbody Hn. rewrite drain_as_with. apply drain_with_table_spec; [|done].
  intros k s db1 s' db2. apply Hbody.
Qed.

(** ** What happens to each account

    [accounts_rel P db db']: the same accounts exist, and each is related by [P] to
    what became of it. *)

Definition accounts_rel (P : account_object -> account_object -> Prop) (db db' : database) : Prop :=
  forall k, option_Forall2 P (rows (accounts db) !! k) (rows (accounts db') !! k).

Section AccountsRel.
Context `{F : fc_ops} (P : account_object -> account_object -> Prop) `{!PreOrder P}.

#[export] Instance accounts_rel_preorder : PreOrder (accounts_rel P).
Proof.
  split.
  - intros db k. by destruct (rows (accounts db) !! k); constructor.
  - intros x y z Hxy Hyz k. specialize (Hxy k). specialize (Hyz k).
    inversion Hxy as [a b Hab E1 E2 | E1 E2]; rewrite <- E2 in Hyz; inversion Hyz; constructor.
    by etrans.
Qed.

Lemma accounts_rel_same db db' : accounts db' = accounts db -> accounts_rel P db db'.
Proof. intros E k. rewrite E. by destruct (rows (accounts db) !! k); constructor. Qed.

Lemma modify_accounts_rel k f db u db' :
  (forall a a', f a = Ok a' -> P a a') -> modify accounts k f db = Ok (u, db') -> accounts_rel P db db'.
Proof.
  intros Hf (v & v' & Hv & Hfv & ->)%modify_run k'. cbn. destruct (decide (k' = k)) as [-> | Hne].
  - rewrite lookup_insert_eq, Hv. constructor. by apply Hf.
  - rewrite lookup_insert_ne by done. by destruct (rows (accounts db) !! k'); constructor.
Qed.

(** A function that changes the votes proxied to accounts and witness votes only. *)
Lemma adjust_witness_votes_accounts account delta db u db' :
  adjust_witness_votes account delta db = Ok (u, db') -> accounts db' = accounts db /\ dgp db' = dgp db.
Proof.
  unfold adjust_witness_votes. intros H. inv_run. revert H. generalize (votes_of account db) as l.
  intros l. revert db. induction l as [| v l IH]; intros db1 H; cbn in H; inv_run; [done|].
  apply IH in H as [-> ->].
  unfold get_witness_by_id in Hrun0. destruct (table_find_by _ _) as [[k w]|]; [|done].
  injection Hrun0 as <- <-. unfold adjust_witness_vote in Hrun. inv_run.
  by apply modify_run in Hrun as (? & ? & _ & _ & ->).
Qed.

Lemma adjust_proxied_witness_votes_rel n name delta db u db' :
  (forall a v, P a (a <| account_proxied_vsf_votes := v |>)) ->
  adjust_proxied_witness_votes_at n name delta db = Ok (u, db') -> accounts_rel P db db'.
Proof.
  intros HP. revert name db. induction n as [| n IH]; intros name db H; cbn in H; inv_run;
    try (by apply accounts_rel_same; eapply adjust_witness_votes_accounts); try done.
  apply IH in H. etrans; [|done]. eapply modify_accounts_rel; [|done].
  intros a a' Ha. cbn beta in Ha. inv_ok. apply HP.
Qed.

Lemma adjust_proxied_witness_votes_dgp n name delta db u db' :
  adjust_proxied_witness_votes_at n name delta db = Ok (u, db') -> dgp db' = dgp db.
Proof.
  revert name db. induction n as [| n IH]; intros name db H; cbn in H; inv_run;
    try (by eapply adjust_witness_votes_accounts); try done.
  apply IH in H. rewrite H. by apply modify_run in Hrun0 as (? & ? & _ & _ & ->).
Qed.

End AccountsRel.
