(* ===== verification/Sample.v ===== *)
(** * A small chain state

    Concrete objects on which the theorems are exercised: an empty database at a
    given time, and one with a few funded accounts whose holdings add up to the
    recorded supplies. *)

From S2P Require Import Prelude Exceptions Text Fc Config Asset FlatMap Authority Operations Objects Database.

(** Objects as their constructors leave them; all hardforks are applied. *)
Definition blank_account_object : account_object := {|
  account_id := 0;
  account_name := "";
  account_memo_key := 0;
  account_proxy := "";
  account_last_account_update := 0;
  account_created := 0;
  account_mined := false;
  account_owner_challenged := false;
  account_active_challenged := false;
  account_last_owner_proved := 0;
  account_last_active_proved := 0;
  account_recovery_account := "";
  account_reset_account := "";
  account_last_account_recovery := 0;
  account_comment_count := 0;
  account_lifetime_vote_count := 0;
  account_post_count := 0;
  account_can_vote := true;
  account_voting_power := STEEMIT_100_PERCENT;
  account_posts_capacity := 0;
  account_comments_capacity := 0;
  account_voting_capacity := 0;
  account_last_vote_time := 0;
  account_balance := (mk_asset 0 STEEM_SYMBOL);
  account_savings_balance := (mk_asset 0 STEEM_SYMBOL);
  account_sbd_balance := (mk_asset 0 SBD_SYMBOL);
  account_sbd_seconds := 0;
  account_sbd_seconds_last_update := 0;
  account_sbd_last_interest_payment := 0;
  account_savings_sbd_balance := (mk_asset 0 SBD_SYMBOL);
  account_savings_sbd_seconds := 0;
  account_savings_sbd_seconds_last_update := 0;
  account_savings_sbd_last_interest_payment := 0;
  account_savings_withdraw_requests := 0;
  account_benefaction_rewards := 0;
  account_curation_rewards := 0;
  account_delegation_rewards := 0;
  account_posting_rewards := 0;
  account_vesting_shares := (mk_asset 0 VESTS_SYMBOL);
  account_delegated_vesting_shares := (mk_asset 0 VESTS_SYMBOL);
  account_received_vesting_shares := (mk_asset 0 VESTS_SYMBOL);
  account_vesting_withdraw_rate := (mk_asset 0 VESTS_SYMBOL);
  account_next_vesting_withdrawal := 0;
  account_withdrawn := 0;
  account_to_withdraw := 0;
  account_withdraw_routes := 0;
  account_proxied_vsf_votes := [0; 0; 0; 0];
  account_witnesses_voted_for := 0;
  account_last_post := 0;
  account_referrer_account := "";
  account_referrer_interest_rate := 0;
  account_referral_end_date := 0;
  account_referral_break_fee := (mk_asset 0 STEEM_SYMBOL) |}.
Definition blank_dynamic_global_property_object : dynamic_global_property_object := {|
  dgp_id := 0;
  dgp_head_block_number := 0;
  dgp_head_block_id := 0;
  dgp_time := 0;
  dgp_current_witness := "";
  dgp_total_pow := 0;
  dgp_num_pow_witnesses := 0;
  dgp_virtual_supply := (mk_asset 0 STEEM_SYMBOL);
  dgp_current_supply := (mk_asset 0 STEEM_SYMBOL);
  dgp_confidential_supply := (mk_asset 0 STEEM_SYMBOL);
  dgp_current_sbd_supply := (mk_asset 0 SBD_SYMBOL);
  dgp_confidential_sbd_supply := (mk_asset 0 SBD_SYMBOL);
  dgp_total_vesting_fund_steem := (mk_asset 0 STEEM_SYMBOL);
  dgp_total_vesting_shares := (mk_asset 0 VESTS_SYMBOL);
  dgp_total_reward_fund_steem := (mk_asset 0 STEEM_SYMBOL);
  dgp_total_reward_shares2 := 0;
  dgp_sbd_interest_rate := STEEMIT_DEFAULT_SBD_INTEREST_RATE;
  dgp_sbd_print_rate := STEEMIT_100_PERCENT;
  dgp_is_forced_min_price := false;
  dgp_average_block_size := 0;
  dgp_maximum_block_size := 0;
  dgp_current_aslot := 0;
  dgp_recent_slots_filled := 0;
  dgp_participation_count := 0;
  dgp_last_irreversible_block_num := 0;
  dgp_max_virtual_bandwidth := 0;
  dgp_current_reserve_ratio := 0;
  dgp_vote_regeneration_per_day := 0;
  dgp_custom_ops_bandwidth_multiplier := 0;
  dgp_transit_block_num := 0;
  dgp_transit_witnesses := [] |}.
Definition blank_witness_schedule_object : witness_schedule_object := {|
  wso_id := 0;
  wso_current_virtual_time := 0;
  wso_next_shuffle_block_num := 0;
  wso_current_shuffled_witnesses := [];
  wso_num_scheduled_witnesses := 0;
  wso_top19_weight := 0;
  wso_timeshare_weight := 0;
  wso_miner_weight := 0;
  wso_witness_pay_normalization_factor := 0;
  wso_median_props := chain_properties_19_default;
  wso_majority_version := 0 |}.
Definition sample_feed_history : feed_history_object := {|
  feed_id := 0;
  feed_current_median_history := mk_price (mk_asset 1000 SBD_SYMBOL) (mk_asset 2000 STEEM_SYMBOL);
  feed_price_history := [] |}.

Definition no_rows {K V : Type} `{Countable K} : table K V := mk_table ∅ 0.

Definition blank_database : database := {|
  accounts := no_rows; authorities := no_rows; escrows := no_rows; savings_withdraws := no_rows;
  convert_requests := no_rows; limit_orders := no_rows; liquidity_balances := no_rows;
  vesting_routes := no_rows; delegations := no_rows; delegation_expirations := no_rows;
  owner_histories := no_rows; recovery_requests := no_rows; change_recovery_requests := no_rows;
  decline_requests := no_rows; witnesses := no_rows; account_witness_votes := no_rows;
  dgp := blank_dynamic_global_property_object; wso := blank_witness_schedule_object;
  feed_history := sample_feed_history; hardforks := mk_hardfork_property_object 0 (seqZ 0 20) 19 0 0 0;
  transactions := no_rows; block_summaries := no_rows; account_bandwidths := no_rows; account_metadatas := no_rows; comments := no_rows; comment_votes := no_rows; is_producing := false;
  store_memo_in_savings_withdraws := true; store_account_metadata := store_metadata_for_all;
  accounts_to_store_metadata := []; skip_virtual_ops := false; fixed_irreversible_block_num := 2 ^ 32 - 1;
  current_virtual_op := 0;
  notifications := [] |}.

Definition sample_time : Z := 1500000000.
Definition sample_account (id : Z) (name : string) (golos gbg vests savings : Z) : account_object :=
  blank_account_object <| account_id := id |> <| account_name := name |>
    <| account_balance := mk_asset golos STEEM_SYMBOL |>
    <| account_sbd_balance := mk_asset gbg SBD_SYMBOL |>
    <| account_vesting_shares := mk_asset vests VESTS_SYMBOL |>
    <| account_savings_balance := mk_asset savings STEEM_SYMBOL |>
    <| account_sbd_seconds_last_update := sample_time |>
    <| account_sbd_last_interest_payment := sample_time |>
    <| account_savings_sbd_seconds_last_update := sample_time |>
    <| account_savings_sbd_last_interest_payment := sample_time |>.

(** alice and bob hold GOLOS and GBG, carol vests, null nothing. *)
Definition sample_database : database :=
  blank_database
    <| accounts := mk_table
        (<["null" := sample_account 0 "null" 0 0 0 0]>
        (<["alice" := sample_account 1 "alice" 100000 50000 0 20000]>
        (<["bob" := sample_account 2 "bob" 5000 30000 0 0]>
        (<["carol" := sample_account 3 "carol" 0 0 1000000000 0]> ∅)))) 4 |>
    <| dgp := blank_dynamic_global_property_object
        <| dgp_time := sample_time |> <| dgp_head_block_number := 1000 |>
        <| dgp_current_supply := mk_asset 1125000 STEEM_SYMBOL |>
        <| dgp_current_sbd_supply := mk_asset 80000 SBD_SYMBOL |>
        <| dgp_virtual_supply := mk_asset 1285000 STEEM_SYMBOL |>
        <| dgp_total_vesting_fund_steem := mk_asset 1000000 STEEM_SYMBOL |>
        <| dgp_total_vesting_shares := mk_asset 1000000000 VESTS_SYMBOL |> |>.

(** The state a successful run leaves, and the value it returns. *)
Definition run_state {A : Type} (m : M A) (db : database) : database :=
  match m db with Ok (_, db') => db' | Throw _ => db end.
Definition outcome {A : Type} (m : M A) (db : database) : option A :=
  match m db with Ok (a, _) => Some a | Throw _ => None end.

Lemma run_state_Ok {A : Type} (m : M A) db a : outcome m db = Some a -> m db = Ok (a, run_state m db).
Proof. unfold outcome, run_state. destruct (m db) as [[x db'] | e]; [by intros [= ->] | done]. Qed.

(** Discharges [m db = Ok (a, run_state m db)] by evaluating what [m] returns. *)
Ltac run_now :=
  match goal with
  | |- ?m ?db = Ok (?a, _) =>
      let H := fresh in
      assert (H : outcome m db = Some a) by (vm_compute; reflexivity); exact (run_state_Ok m db a H)
  end.
