(* ===== verification/Transfers.v ===== *)
(** * Transfers and savings

    The evaluators of [steem_evaluator.cpp] that move liquid and savings balances,
    and the block step of [database.cpp] that pays out matured savings withdrawals.
    A [do_apply] is a function of the monad [M] named after the operation. *)

From S2P Require Import Prelude Exceptions Text Fc Config Asset FlatMap Authority Operations Objects Database Conservation Sample.

(** ** Evaluators *)

Section Evaluators.
Context `{F : fc_ops}.

(** [transfer_evaluator::do_apply] *)
Definition transfer_evaluator (o : transfer_operation) : M unit :=
  from ← get_account (transfer_from o);
  check_account_exists (transfer_to o) ;;
  when (account_active_challenged from)
    (now ← head_block_time;
     modify accounts (transfer_from o) (fun a =>
       Ok (a <| account_active_challenged := false |> <| account_last_active_proved := now |>))) ;;
  check_op_param "amount"
    (check_balance (transfer_from o) MAIN_BALANCE (transfer_amount o) ;;
     neg ← lift (asset_neg (transfer_amount o));
     adjust_balance (transfer_from o) neg ;;
     adjust_balance (transfer_to o) (transfer_amount o)).

(** [transfer_to_vesting_evaluator::do_apply] *)
Definition transfer_to_vesting_evaluator (o : transfer_to_vesting_operation) : M unit :=
  check_account_exists (transfer_to_vesting_from o) ;;
  let to_account := if String.eqb (transfer_to_vesting_to o) "" then transfer_to_vesting_from o
                    else transfer_to_vesting_to o in
  check_account_exists to_account ;;
  check_op_param "amount"
    (check_balance (transfer_to_vesting_from o) MAIN_BALANCE (transfer_to_vesting_amount o) ;;
     neg ← lift (asset_neg (transfer_to_vesting_amount o));
     adjust_balance (transfer_to_vesting_from o) neg ;;
     create_vesting to_account (transfer_to_vesting_amount o) ;;
     mret tt).

(** [transfer_to_savings_evaluator::do_apply] *)
Definition transfer_to_savings_evaluator (op : transfer_to_savings_operation) : M unit :=
  check_account_exists (transfer_to_savings_from op) ;;
  check_account_exists (transfer_to_savings_to op) ;;
  check_balance (transfer_to_savings_from op) MAIN_BALANCE (transfer_to_savings_amount op) ;;
  neg ← lift (asset_neg (transfer_to_savings_amount op));
  adjust_balance (transfer_to_savings_from op) neg ;;
  adjust_savings_balance (transfer_to_savings_to op) (transfer_to_savings_amount op).

(** [savings_withdraw_requests] is a [uint8_t]. *)
Definition add_withdraw_requests (n : Z) (a : account_object) : result account_object :=
  Ok (a <| account_savings_withdraw_requests ::= (fun c => to_uint8_wrap (c + n)) |>).

(** [transfer_from_savings_evaluator::do_apply] *)
Definition transfer_from_savings_evaluator (op : transfer_from_savings_operation) : M unit :=
  let from := transfer_from_savings_from op in
  let request_id := transfer_from_savings_request_id op in
  from_account ← get_account from;
  check_account_exists (transfer_from_savings_to op) ;;
  check_logic_m (account_savings_withdraw_requests from_account <? STEEMIT_SAVINGS_WITHDRAW_REQUEST_LIMIT)
    reached_limit_for_pending_withdraw_requests ;;
  check_balance from SAVINGS (transfer_from_savings_amount op) ;;
  neg ← lift (asset_neg (transfer_from_savings_amount op));
  adjust_savings_balance from neg ;;
  throw_if_exists savings_withdraws "savings_withdraw" (from, request_id) ;;
  store_memo ← gets store_memo_in_savings_withdraws;
  now ← head_block_time;
  create savings_withdraws (from, request_id) (fun id => {|
    savings_withdraw_id := id;
    savings_withdraw_from := from;
    savings_withdraw_to := transfer_from_savings_to op;
    savings_withdraw_amount := transfer_from_savings_amount op;
    savings_withdraw_memo := if (store_memo : bool) then transfer_from_savings_memo op else "";
    savings_withdraw_request_id := request_id;
    savings_withdraw_complete := time_add now STEEMIT_SAVINGS_WITHDRAW_TIME |}) ;;
  modify accounts from (add_withdraw_requests 1).

(** [cancel_transfer_from_savings_evaluator::do_apply] *)
Definition cancel_transfer_from_savings_evaluator (op : cancel_transfer_from_savings_operation) : M unit :=
  let name := cancel_transfer_from_savings_from op in
  let request_id := cancel_transfer_from_savings_request_id op in
  check_account_exists name ;;
  swo ← get_savings_withdraw name request_id;
  adjust_savings_balance name (savings_withdraw_amount swo) ;;
  remove savings_withdraws (name, request_id) ;;
  modify accounts name (add_withdraw_requests (-1)).

(** [break_free_referral_evaluator::do_apply] *)
Definition break_free_referral_evaluator (op : break_free_referral_operation) : M unit :=
  let name := break_free_referral_referral op in
  assert_req_hf STEEMIT_HARDFORK_0_19__295 ;;
  referral ← get_account name;
  let referrer := account_referrer_account referral in
  let fee := account_referral_break_fee referral in
  check_account_exists referrer ;;
  check_logic_m (negb (amount fee =? 0)) no_right_to_break_referral ;;
  check_balance name MAIN_BALANCE fee ;;
  neg ← lift (asset_neg fee);
  adjust_balance name neg ;;
  adjust_balance referrer fee ;;
  modify accounts name (fun a =>
    Ok (a <| account_referrer_account := "" |> <| account_referrer_interest_rate := 0 |>
          <| account_referral_end_date := 0 |>
          <| account_referral_break_fee ::= (fun f => mk_asset 0 (symbol f)) |>)).

(** ** Block steps *)

(** Index [by_complete_from_rid] of the withdrawals *)
Definition by_complete_from_rid (s t : savings_withdraw_object) : comparison :=
  cmp_then (Z.compare (savings_withdraw_complete s) (savings_withdraw_complete t))
    (cmp_then (key_compare (savings_withdraw_from s) (savings_withdraw_from t))
       (Z.compare (savings_withdraw_request_id s) (savings_withdraw_request_id t))).

Definition savings_withdraw_due (now : Z) (s : savings_withdraw_object) : bool :=
  negb (savings_withdraw_complete s >? now).
Definition next_savings_withdraw (db : database) : option (string * Z) :=
  first_due (savings_withdraw_due (dgp_time (dgp db))) by_complete_from_rid (savings_withdraws db).

(** One turn of the loop of [process_savings_withdraws] *)
Definition complete_savings_withdraw (k : string * Z) : M unit :=
  s ← get_row savings_withdraws "savings_withdraw" k;
  check_account_exists (savings_withdraw_to s) ;;
  adjust_balance (savings_withdraw_to s) (savings_withdraw_amount s) ;;
  check_account_exists (savings_withdraw_from s) ;;
  modify accounts (savings_withdraw_from s) (add_withdraw_requests (-1)) ;;
  push_virtual_operation (op_fill_transfer_from_savings
    (mk_fill_transfer_from_savings (savings_withdraw_from s) (savings_withdraw_to s)
       (savings_withdraw_amount s) (savings_withdraw_request_id s) (savings_withdraw_memo s))) false ;;
  remove savings_withdraws k.

(** [process_savings_withdraws]; each turn removes a withdrawal, so their number
    bounds the turns. *)
Definition process_savings_withdraws : M unit :=
  fuel ← gets (fun db => S (size (rows (savings_withdraws db))));
  drain fuel next_savings_withdraw complete_savings_withdraw.

(** One branch of [clear_null_account_balance]: empties a balance into a total *)
Definition clear_null_balance (get : account_object -> asset) (adjust : string -> asset -> M unit)
    (total : asset) : M asset :=
  a ← get_account STEEMIT_NULL_ACCOUNT;
  if amount (get a) >? 0 then
    total' ← lift (asset_add total (get a));
    neg ← lift (asset_neg (get a));
    adjust STEEMIT_NULL_ACCOUNT neg ;;
    mret total'
  else mret total.

(** The last branch: the vesting shares leave the supply, their value the fund *)
Definition clear_null_vesting (total : asset) : M asset :=
  a ← get_account STEEMIT_NULL_ACCOUNT;
  if amount (account_vesting_shares a) >? 0 then
    p ← gets dgp;
    converted ← lift (asset_mul_price (account_vesting_shares a) (get_vesting_share_price p));
    modify_dgp (fun g =>
      s ← asset_sub (dgp_total_vesting_shares g) (account_vesting_shares a);
      f ← asset_sub (dgp_total_vesting_fund_steem g) converted;
      Ok (g <| dgp_total_vesting_shares := s |> <| dgp_total_vesting_fund_steem := f |>)) ;;
    modify accounts STEEMIT_NULL_ACCOUNT (fun a =>
      Ok (a <| account_vesting_shares ::= (fun v => mk_asset 0 (symbol v)) |>)) ;;
    lift (asset_add total converted)
  else mret total.

Definition burn (total : asset) : M unit :=
  when (amount total >? 0) (neg ← lift (asset_neg total); adjust_supply neg false).

(** [clear_null_account_balance] *)
Definition clear_null_account_balance : M unit :=
  hf ← has_hardfork STEEMIT_HARDFORK_0_14__327;
  when hf
    (check_account_exists STEEMIT_NULL_ACCOUNT ;;
     steem ← clear_null_balance account_balance adjust_balance (mk_asset 0 STEEM_SYMBOL);
     steem ← clear_null_balance account_savings_balance adjust_savings_balance steem;
     sbd ← clear_null_balance account_sbd_balance adjust_balance (mk_asset 0 SBD_SYMBOL);
     sbd ← clear_null_balance account_savings_sbd_balance adjust_savings_balance sbd;
     steem ← clear_null_vesting steem;
     burn steem ;;
     burn sbd).

End Evaluators.

(** ** Conservation *)

Section Conserved.
Context `{F : fc_ops} {L : fc_laws F}.
Variable sym : Z.
#[local] Abbreviation gap := (gap sym).

Lemma transfer_gap o db u db' : transfer_evaluator o db = Ok (u, db') -> gap db' = gap db.
Proof. unfold transfer_evaluator. intros H. gap_solve sym. Qed.

Lemma transfer_to_vesting_gap o db u db' :
  transfer_to_vesting_evaluator o db = Ok (u, db') -> gap db' = gap db.
Proof. unfold transfer_to_vesting_evaluator. intros H. gap_solve sym. Qed.

Lemma transfer_to_savings_gap o db u db' :
  transfer_to_savings_evaluator o db = Ok (u, db') -> gap db' = gap db.
Proof. unfold transfer_to_savings_evaluator. intros H. gap_solve sym. Qed.

Lemma transfer_from_savings_gap o db u db' :
  transfer_from_savings_evaluator o db = Ok (u, db') -> gap db' = gap db.
Proof. unfold transfer_from_savings_evaluator, add_withdraw_requests. intros H. gap_solve sym. Qed.

Lemma cancel_transfer_from_savings_gap o db u db' :
  cancel_transfer_from_savings_evaluator o db = Ok (u, db') -> gap db' = gap db.
Proof. unfold cancel_transfer_from_savings_evaluator, add_withdraw_requests. intros H. gap_solve sym. Qed.

Lemma break_free_referral_gap o db u db' :
  break_free_referral_evaluator o db = Ok (u, db') -> gap db' = gap db.
Proof. unfold break_free_referral_evaluator. intros H. gap_solve sym. Qed.

Lemma process_savings_withdraws_gap db u db' :
  process_savings_withdraws db = Ok (u, db') -> gap db' = gap db.
Proof.
  unfold process_savings_withdraws. intros H. inv_run. revert H. apply drain_gap.
  unfold complete_savings_withdraw, add_withdraw_requests. intros k db1 u1 db2 _ H. gap_solve sym.
Qed.
End Conserved.

(** ** What a transfer does *)

(** The balance in GOLOS of an account, changed by [n]. *)
Definition credit_steem (n : Z) (a : account_object) : account_object :=
  a <| account_balance := mk_asset (amount (account_balance a) + n) STEEM_SYMBOL |>.
(** A challenge of the active authority is met by signing a transfer. *)
Definition prove_active (now : Z) (a : account_object) : account_object :=
  if account_active_challenged a
  then a <| account_active_challenged := false |> <| account_last_active_proved := now |>
  else a.

Section TransferSpec.
Context `{F : fc_ops} {L : fc_laws F}.

(** An account whose GOLOS balance is denominated in GOLOS and non-negative. *)
Definition steem_account (a : account_object) : Prop :=
  symbol (account_balance a) = STEEM_SYMBOL /\ 0 <= amount (account_balance a) < 2 ^ 63.

Lemma asset_add_steem a n :
  symbol a = STEEM_SYMBOL -> - 2 ^ 63 <= amount a + n < 2 ^ 63 ->
  asset_add a (mk_asset n STEEM_SYMBOL) = Ok (mk_asset (amount a + n) STEEM_SYMBOL).
Proof. intros Hs Hn. apply asset_add_Ok. cbn. rewrite is_int64_spec, Hs. done. Qed.

Lemma alter_as_insert {K V : Type} `{Countable K} (g : V -> V) k v (m : gmap K V) :
  m !! k = Some v -> alter g k m = <[k := g v]> m.
Proof.
  intros Hv. apply map_eq. intros k'. destruct (decide (k = k')) as [<- | Hne].
  - by rewrite lookup_alter_eq, lookup_insert_eq, Hv.
  - by rewrite lookup_alter_ne, lookup_insert_ne.
Qed.

(** The database with account [k] changed by [g]. *)
Definition with_account (k : string) (g : account_object -> account_object) (db : database) : database :=
  db <| accounts ::= (fun t => mk_table (alter g k (rows t)) (next_id t)) |>.

Lemma modify_account_pure k f g db a :
  rows (accounts db) !! k = Some a -> f a = Ok (g a) ->
  modify accounts k f db = Ok (tt, with_account k g db).
Proof.
  intros Ha Hf. unfold modify, on_table, table_modify, with_account. rewrite Ha, Hf. cbn [mbind result_bind].
  unfold set_field. by rewrite (alter_as_insert g k a).
Qed.

Lemma adjust_balance_steem name n db a :
  rows (accounts db) !! name = Some a -> symbol (account_balance a) = STEEM_SYMBOL ->
  - 2 ^ 63 <= amount (account_balance a) + n < 2 ^ 63 ->
  adjust_balance name (mk_asset n STEEM_SYMBOL) db = Ok (tt, with_account name (credit_steem n) db).
Proof.
  intros Ha Hs Hn. unfold adjust_balance. cbn [symbol]. rewrite Z.eqb_refl.
  apply (modify_account_pure _ _ _ _ a); [done|]. by rewrite asset_add_steem.
Qed.

Lemma check_account_exists_eq name a db :
  rows (accounts db) !! name = Some a -> check_account_exists name db = Ok (tt, db).
Proof. intros Ha. unfold check_account_exists. by rewrite (bind_eq _ _ _ a db) by by apply get_row_eq. Qed.

Lemma with_account_id k g db a :
  rows (accounts db) !! k = Some a -> g a = a -> with_account k g db = db.
Proof.
  intros Ha Hg. unfold with_account, set_field. rewrite (alter_as_insert g k a), Hg, insert_id by done.
  by destruct db as [[] ? ? ? ? ? ? ? ? ? ? ? ? ? ? ? ? ? ? ? ? ? ? ? ?].
Qed.

Lemma lookup_with_account k g db k' :
  rows (accounts (with_account k g db)) !! k' =
    if bool_decide (k = k') then g <$> rows (accounts db) !! k' else rows (accounts db) !! k'.
Proof. cbn. case_bool_decide as E; [subst; apply lookup_alter_eq | by apply lookup_alter_ne]. Qed.

Lemma check_balance_steem name n db a :
  rows (accounts db) !! name = Some a -> symbol (account_balance a) = STEEM_SYMBOL ->
  check_balance name MAIN_BALANCE (mk_asset n STEEM_SYMBOL) db =
  if amount (account_balance a) <? n then Throw insufficient_funds else Ok (tt, db).
Proof.
  intros Ha Hs. unfold check_balance, get_account. rewrite (bind_eq _ _ _ a db) by by apply get_row_eq.
  unfold lift. cbn [get_balance_of_type symbol]. unfold get_balance. rewrite Z.eqb_refl.
  cbn [mbind result_bind]. unfold asset_ltb. cbn [amount symbol].
  rewrite Hs, Z.eqb_refl. cbn [fc_assert mbind result_bind]. by destruct (_ <? n).
Qed.

Lemma answer_challenge_eq from f db :
  rows (accounts db) !! from = Some f ->
  when (account_active_challenged f)
    (now ← head_block_time; modify accounts from (fun a =>
      Ok (a <| account_active_challenged := false |> <| account_last_active_proved := now |>))) db =
  Ok (tt, with_account from (prove_active (dgp_time (dgp db))) db).
Proof.
  intros Hf. unfold when. destruct (account_active_challenged f) eqn:E.
  - rewrite (bind_eq _ _ _ (dgp_time (dgp db)) db) by done.
    apply (modify_account_pure _ _ _ _ f); [done|]. unfold prove_active. by rewrite E.
  - rewrite (with_account_id _ _ _ f); [done | done |]. unfold prove_active. by rewrite E.
Qed.

Lemma prove_active_balance now a : account_balance (prove_active now a) = account_balance a.
Proof. unfold prove_active. by destruct (account_active_challenged a). Qed.

(** a transfer of GOLOS between existing accounts fails with insufficient_funds
    exactly when the sender holds less than the amount, and otherwise changes the
    database only by taking the amount from the sender, whose active challenge it
    also answers, and giving it to the receiver. *)
Theorem transfer_steem_spec from to n memo db f t :
  let o := mk_transfer from to (mk_asset n STEEM_SYMBOL) memo in
  rows (accounts db) !! from = Some f -> rows (accounts db) !! to = Some t ->
  steem_account f -> steem_account t ->
  0 < n < 2 ^ 63 -> amount (account_balance f) + amount (account_balance t) < 2 ^ 63 ->
  transfer_evaluator o db =
    (if amount (account_balance f) <? n then Throw insufficient_funds
     else Ok (tt, with_account to (credit_steem n)
                    (with_account from (credit_steem (- n))
                       (with_account from (prove_active (dgp_time (dgp db))) db)))).
Proof.
  intros o Hf Ht [Sf Bf] [St Bt] Hn Hsum. unfold transfer_evaluator. cbn [transfer_from transfer_to transfer_amount o].
  rewrite (bind_eq _ _ _ f db) by by apply get_row_eq.
  rewrite (bind_eq _ _ _ tt db) by (by apply (check_account_exists_eq _ t)).
  rewrite (bind_eq _ _ _ _ _ (answer_challenge_eq from f db Hf)).
  set (p := prove_active _). set (db1 := with_account from p db).
  assert (Hf1 : rows (accounts db1) !! from = Some (p f))
    by (unfold db1; by rewrite lookup_with_account, bool_decide_true, Hf).
  unfold check_op_param. pose proof (check_balance_steem from n db1 (p f) Hf1) as Hcheck.
  unfold p in Hcheck. rewrite prove_active_balance in Hcheck. fold p in Hcheck. specialize (Hcheck Sf).
  destruct (Z.ltb_spec (amount (account_balance f)) n) as [Hlt | Hge].
  { by rewrite (bind_throws _ _ _ _ Hcheck). }
  rewrite (bind_eq _ _ _ _ _ Hcheck).
  rewrite (bind_eq _ _ _ (mk_asset (- n) STEEM_SYMBOL) db1).
  2: { unfold lift. rewrite (proj2 (asset_neg_Ok _ (mk_asset (- n) STEEM_SYMBOL))); [done|].
       cbn [amount symbol]. rewrite is_int64_spec. split; [lia | done]. }
  assert (Hpf : account_balance (p f) = account_balance f) by apply prove_active_balance.
  rewrite (bind_eq _ _ _ tt (with_account from (credit_steem (- n)) db1))
    by (apply (adjust_balance_steem _ _ _ (p f)); rewrite ?Hpf; [done | done | lia]).
  assert (exists t2, rows (accounts (with_account from (credit_steem (- n)) db1)) !! to = Some t2 /\
            symbol (account_balance t2) = STEEM_SYMBOL /\
            - 2 ^ 63 <= amount (account_balance t2) + n < 2 ^ 63) as (t2 & Ht2 & Hs2 & Hb2).
  { rewrite lookup_with_account. case_bool_decide as E.
    - subst to. rewrite Hf1. eexists. split; [done|]. cbn. rewrite Hpf. split; [done | lia].
    - unfold db1. rewrite lookup_with_account, bool_decide_false, Ht by done.
      eexists. split_and!; [done | done | lia | lia]. }
  by rewrite (adjust_balance_steem to n _ t2).
Qed.
End TransferSpec.

Lemma transfer_steem_spec_witness :
  let o := mk_transfer "alice" "bob" (mk_asset 40000 STEEM_SYMBOL) "" in
  match transfer_evaluator (F := fc_ref) o sample_database with
  | Ok (_, db') => (account_balance <$> rows (accounts db') !! "alice") = Some (mk_asset 60000 STEEM_SYMBOL) /\
                   (account_balance <$> rows (accounts db') !! "bob") = Some (mk_asset 45000 STEEM_SYMBOL)
  | Throw _ => False
  end.
Proof.
  cbv zeta. rewrite (transfer_steem_spec "alice" "bob" 40000 "" sample_database
    (sample_account 1 "alice" 100000 50000 0 20000) (sample_account 2 "bob" 5000 30000 0 0));
    try (vm_compute; repeat split; congruence).
Defined.

(** ** Savings *)

Section SavingsSpec.
Context `{F : fc_ops} {L : fc_laws F}.

Lemma complete_savings_withdraw_removes k db u db' :
  complete_savings_withdraw k db = Ok (u, db') ->
  rows (savings_withdraws db') = delete k (rows (savings_withdraws db)) /\
  dgp_time (dgp db') = dgp_time (dgp db).
Proof.
  unfold complete_savings_withdraw. intros H. inv_run.
  match goal with Hr : remove savings_withdraws _ ?d = Ok _ |- _ =>
    assert (Hf : frame db d) by frame_solve;
    apply on_table_run in Hr as (t & Ht & ->) end.
  apply table_remove_Ok in Ht as (v & _ & ->). cbn.
  by rewrite (frame_savings_withdraws _ _ Hf), (frame_time _ _ Hf).
Qed.

(** when the block step [process_savings_withdraws] returns, exactly the
    withdrawals whose time has come are gone and every other one is untouched: the
    loop runs until none is due, and the number of withdrawals bounds its turns. *)
Theorem process_savings_withdraws_spec db u db' :
  process_savings_withdraws db = Ok (u, db') ->
  rows (savings_withdraws db') =
    filter (fun kv => dgp_time (dgp db) < savings_withdraw_complete (snd kv)) (rows (savings_withdraws db)).
Proof.
  unfold process_savings_withdraws. intros H. inv_run.
  apply (drain_table_spec savings_withdraws savings_withdraw_due by_complete_from_rid
           complete_savings_withdraw) in H as [-> _]; [|apply complete_savings_withdraw_removes | lia].
  apply map_filter_ext. intros k v _. cbn. unfold savings_withdraw_due.
  rewrite negb_false_iff, Z.gtb_ltb, Z.ltb_lt. done.
Qed.

Lemma adjust_savings_balance_steem name n db a :
  rows (accounts db) !! name = Some a -> symbol (account_savings_balance a) = STEEM_SYMBOL ->
  - 2 ^ 63 <= amount (account_savings_balance a) + n < 2 ^ 63 ->
  adjust_savings_balance name (mk_asset n STEEM_SYMBOL) db =
  Ok (tt, with_account name (fun a => a <| account_savings_balance :=
            mk_asset (amount (account_savings_balance a) + n) STEEM_SYMBOL |>) db).
Proof.
  intros Ha Hs Hn. unfold adjust_savings_balance. cbn [symbol]. rewrite Z.eqb_refl.
  apply (modify_account_pure _ _ _ _ a); [done|]. by rewrite asset_add_steem.
Qed.
End SavingsSpec.

(** alice asked for 1.000 GOLOS that is due and 2.000 GOLOS that is not *)
Definition sample_withdrawal (id amount complete : Z) : savings_withdraw_object := {|
  savings_withdraw_id := id; savings_withdraw_from := "alice"; savings_withdraw_to := "bob";
  savings_withdraw_memo := ""; savings_withdraw_request_id := id;
  savings_withdraw_amount := mk_asset amount STEEM_SYMBOL; savings_withdraw_complete := complete |}.
Definition sample_savings_database : database :=
  sample_database <| savings_withdraws := mk_table
    (<[("alice", 1) := sample_withdrawal 1 1000 sample_time]>
    (<[("alice", 2) := sample_withdrawal 2 2000 (sample_time + 1)]> ∅)) 3 |>.

Lemma process_savings_withdraws_spec_witness :
  let db' := run_state (process_savings_withdraws (F := fc_ref)) sample_savings_database in
  rows (savings_withdraws db') !! ("alice", 1) = None /\
  rows (savings_withdraws db') !! ("alice", 2) = Some (sample_withdrawal 2 2000 (sample_time + 1)).
Proof.
  intros db'. rewrite (process_savings_withdraws_spec sample_savings_database tt db') by run_now.
  split; vm_compute; reflexivity.
Defined.

(** ** Cancelling a withdrawal *)

Section SavingsRoundTrip.
Context `{F : fc_ops} {L : fc_laws F}.

(** The savings balance changed by [n] and the counter of requests by [c] *)
Definition request_change (n c : Z) (a : account_object) : account_object :=
  a <| account_savings_balance := mk_asset (amount (account_savings_balance a) + n) STEEM_SYMBOL |>
    <| account_savings_withdraw_requests ::= (fun r => to_uint8_wrap (r + c)) |>.

Lemma adjust_savings_balance_run name n db u db' :
  adjust_savings_balance name (mk_asset n STEEM_SYMBOL) db = Ok (u, db') ->
  exists a, rows (accounts db) !! name = Some a /\ symbol (account_savings_balance a) = STEEM_SYMBOL /\
    db' = db <| accounts := mk_table (<[name := a <| account_savings_balance :=
                  mk_asset (amount (account_savings_balance a) + n) STEEM_SYMBOL |>]> (rows (accounts db)))
                (next_id (accounts db)) |>.
Proof.
  unfold adjust_savings_balance. cbn [symbol]. rewrite Z.eqb_refl.
  intros (a & a' & Ha & Hf & ->)%modify_run. inv_ok.
  apply asset_add_Ok in Hrun as (Hs & _ & ->). cbn in *. rewrite Hs. eauto.
Qed.

Lemma transfer_from_savings_steem from to n memo rid db u db1 :
  transfer_from_savings_evaluator (mk_transfer_from_savings from rid to (mk_asset n STEEM_SYMBOL) memo) db
    = Ok (u, db1) ->
  exists a w, rows (accounts db) !! from = Some a /\ symbol (account_savings_balance a) = STEEM_SYMBOL /\
    n <= amount (account_savings_balance a) /\
    account_savings_withdraw_requests a < STEEMIT_SAVINGS_WITHDRAW_REQUEST_LIMIT /\
    rows (savings_withdraws db) !! (from, rid) = None /\
    savings_withdraw_amount w = mk_asset n STEEM_SYMBOL /\
    rows (savings_withdraws db1) = <[(from, rid) := w]> (rows (savings_withdraws db)) /\
    rows (accounts db1) = <[from := request_change (- n) 1 a]> (rows (accounts db)).
Proof.
  unfold transfer_from_savings_evaluator. intros H1. cbn in H1. inv_run. inv_ok. cbn in *.
  apply asset_neg_Ok in E as (_ & ->). inv_ok. bool_to_prop.
  apply adjust_savings_balance_run in Hrun4 as (b & Hb & Hs & ->).
  apply on_table_run in Hrun8 as (t & Ht & ->). apply table_create_Ok in Ht as (Hnone & ->).
  apply modify_run in H1 as (v & v' & Hv & Hf & ->). cbn in *.
  rewrite lookup_insert_eq in Hv. unfold add_withdraw_requests in Hf. inv_ok.
  unfold get_savings_balance in Hrun. rewrite Z.eqb_refl in Hrun. injection Hrun as <-.
  apply asset_ltb_Ok in Hrun0 as [_ Hle]. symmetry in Hle. apply Z.ltb_ge in Hle. cbn in Hle.
  eexists x, _. split_and!; try done; [done | by rewrite insert_insert_eq].
Qed.

Lemma cancel_transfer_from_savings_steem from n rid db w u db1 :
  rows (savings_withdraws db) !! (from, rid) = Some w -> savings_withdraw_amount w = mk_asset n STEEM_SYMBOL ->
  cancel_transfer_from_savings_evaluator (mk_cancel_transfer_from_savings from rid) db = Ok (u, db1) ->
  exists a, rows (accounts db) !! from = Some a /\
    rows (savings_withdraws db1) = delete (from, rid) (rows (savings_withdraws db)) /\
    rows (accounts db1) = <[from := request_change n (-1) a]> (rows (accounts db)).
Proof.
  intros Hw Hn. unfold cancel_transfer_from_savings_evaluator. intros H. cbn in H. inv_run. simplify_eq.
  match goal with H : adjust_savings_balance _ _ _ = Ok _ |- _ =>
    rewrite Hn in H; apply adjust_savings_balance_run in H as (b & Hb & Hs & ->) end.
  match goal with H : remove _ _ _ = Ok _ |- _ => apply on_table_run in H as (t & Ht & ->) end.
  apply table_remove_Ok in Ht as (v & Hv & ->). cbn in *.
  apply modify_run in H as (c & c' & Hc & Hf & ->). cbn in *.
  rewrite lookup_insert_eq in Hc. unfold add_withdraw_requests in Hf. inv_ok.
  eexists. split_and!; [done | done |]. by rewrite insert_insert_eq.
Qed.

(** a request to withdraw GOLOS from savings, cancelled afterwards, leaves every
    account exactly as it was and no trace among the pending withdrawals. *)
Theorem savings_withdraw_cancel_roundtrip from to n memo rid db a db1 db2 :
  rows (accounts db) !! from = Some a -> 0 <= account_savings_withdraw_requests a ->
  transfer_from_savings_evaluator (mk_transfer_from_savings from rid to (mk_asset n STEEM_SYMBOL) memo) db
    = Ok (tt, db1) ->
  cancel_transfer_from_savings_evaluator (mk_cancel_transfer_from_savings from rid) db1 = Ok (tt, db2) ->
  rows (accounts db2) = rows (accounts db) /\ rows (savings_withdraws db2) = rows (savings_withdraws db).
Proof.
  intros Ha Hc H1 H2.
  apply transfer_from_savings_steem in H1 as (a' & w & Ha' & Hs & _ & Hlim & Hnone & Hw & Hws & Haccs).
  simplify_eq. apply (cancel_transfer_from_savings_steem _ n _ _ w) in H2 as (b & Hb & Hws2 & Haccs2).
  2: by rewrite Hws, lookup_insert_eq. 2: done.
  rewrite Hws2, Hws, delete_insert_id by done. split; [|done].
  rewrite Haccs, lookup_insert_eq in Hb. injection Hb as <-. rewrite Haccs2, Haccs, insert_insert_eq.
  apply insert_id. rewrite Ha. f_equal. unfold STEEMIT_SAVINGS_WITHDRAW_REQUEST_LIMIT, to_uint8_wrap in *.
  destruct a as [????????????????????????[x s]]. cbn in Hs, Hc, Hlim. subst s.
  cbv -[Z.add Z.opp Z.modulo STEEM_SYMBOL Z.pow]. f_equal; [f_equal; lia|]. rewrite (Z.mod_small (_ + 1)) by lia.
  rewrite Z.mod_small; lia.
Qed.
End SavingsRoundTrip.

Lemma savings_withdraw_cancel_roundtrip_witness :
  let request := transfer_from_savings_evaluator (F := fc_ref)
    (mk_transfer_from_savings "alice" 7 "bob" (mk_asset 1500 STEEM_SYMBOL) "rent") in
  let cancel := cancel_transfer_from_savings_evaluator (F := fc_ref) (mk_cancel_transfer_from_savings "alice" 7) in
  let db1 := run_state request sample_database in
  rows (accounts (run_state cancel db1)) = rows (accounts sample_database) /\
  rows (savings_withdraws (run_state cancel db1)) = rows (savings_withdraws sample_database).
Proof.
  intros request cancel db1.
  apply (savings_withdraw_cancel_roundtrip "alice" "bob" 1500 "rent" 7 sample_database
    (sample_account 1 "alice" 100000 50000 0 20000) db1);
    [vm_compute; reflexivity | discriminate | run_now | run_now].
Defined.
