(* ===== verification/Escrow.v ===== *)
(** * Escrow

    The four escrow evaluators of [steem_evaluator.cpp] and the block step of
    [database.cpp] that returns escrows nobody ratified in time. *)

From S2P Require Import Prelude Exceptions Text Fc Config Asset FlatMap Authority Operations Crypto Validate Objects Database Conservation Sample.

(** ** Evaluators *)

Section Evaluators.
Context `{F : fc_ops}.

(** [escrow_transfer_evaluator::do_apply] *)
Definition escrow_transfer_evaluator (o : escrow_transfer_operation) : M unit :=
  let from := escrow_transfer_from o in
  let fee := escrow_transfer_fee o in
  check_account_exists from ;;
  check_account_exists (escrow_transfer_to o) ;;
  check_account_exists (escrow_transfer_agent o) ;;
  now ← head_block_time;
  check_logic_m (escrow_transfer_ratification_deadline o >? now) escrow_time_in_past ;;
  check_logic_m (escrow_transfer_escrow_expiration o >? now) escrow_time_in_past ;;
  steem_spent ← lift (if symbol fee =? STEEM_SYMBOL then asset_add (escrow_transfer_steem_amount o) fee
                      else Ok (escrow_transfer_steem_amount o));
  sbd_spent ← lift (if symbol fee =? STEEM_SYMBOL then Ok (escrow_transfer_sbd_amount o)
                    else asset_add (escrow_transfer_sbd_amount o) fee);
  check_balance from MAIN_BALANCE steem_spent ;;
  check_balance from MAIN_BALANCE sbd_spent ;;
  neg_steem ← lift (asset_neg steem_spent);
  adjust_balance from neg_steem ;;
  neg_sbd ← lift (asset_neg sbd_spent);
  adjust_balance from neg_sbd ;;
  create escrows (from, escrow_transfer_escrow_id o) (fun id => {|
    escrow_id := id;
    escrow_escrow_id := escrow_transfer_escrow_id o;
    escrow_from := from;
    escrow_to := escrow_transfer_to o;
    escrow_agent := escrow_transfer_agent o;
    escrow_ratification_deadline := escrow_transfer_ratification_deadline o;
    escrow_escrow_expiration := escrow_transfer_escrow_expiration o;
    escrow_sbd_balance := escrow_transfer_sbd_amount o;
    escrow_steem_balance := escrow_transfer_steem_amount o;
    escrow_pending_fee := fee;
    escrow_to_approved := false;
    escrow_agent_approved := false;
    escrow_disputed := false |}).

(** The balances and the fee go back to the sender and the escrow is removed. *)
Definition return_escrow (from : string) (k : string * Z) : M unit :=
  check_account_exists from ;;
  e ← get_row escrows "escrow" k;
  adjust_balance from (escrow_steem_balance e) ;;
  adjust_balance from (escrow_sbd_balance e) ;;
  adjust_balance from (escrow_pending_fee e) ;;
  remove escrows k.

(** The part of [escrow_approve_evaluator] for one party, who must not have approved
    before; [mark] sets the party's flag. *)
Definition mark_approval (is_party already approve : bool) (k : string * Z)
    (mark : escrow_object -> escrow_object) : M unit :=
  when is_party
    (check_logic_m (negb already) account_already_approved_escrow ;;
     when approve (modify escrows k (fun e => Ok (mark e)))).

(** [escrow_approve_evaluator::do_apply] *)
Definition escrow_approve_evaluator (o : escrow_approve_operation) : M unit :=
  let k := (escrow_approve_from o, escrow_approve_escrow_id o) in
  let who := escrow_approve_who o in
  let approve := escrow_approve_approve o in
  escrow ← get_escrow (escrow_approve_from o) (escrow_approve_escrow_id o);
  check_logic_m (String.eqb (escrow_to escrow) (escrow_approve_to o)) escrow_bad_to ;;
  check_logic_m (String.eqb (escrow_agent escrow) (escrow_approve_agent o)) escrow_bad_agent ;;
  now ← head_block_time;
  check_logic_m (escrow_ratification_deadline escrow >=? now) ratification_deadline_passed ;;
  mark_approval (String.eqb who (escrow_approve_to o)) (escrow_to_approved escrow) approve k
    (fun e => e <| escrow_to_approved := true |>) ;;
  escrow ← get_row escrows "escrow" k;
  mark_approval (String.eqb who (escrow_approve_agent o)) (escrow_agent_approved escrow) approve k
    (fun e => e <| escrow_agent_approved := true |>) ;;
  escrow ← get_row escrows "escrow" k;
  if negb approve then return_escrow (escrow_approve_from o) k
  else when (escrow_to_approved escrow && escrow_agent_approved escrow)
    (check_account_exists (escrow_approve_agent o) ;;
     adjust_balance (escrow_approve_agent o) (escrow_pending_fee escrow) ;;
     modify escrows k (fun e => Ok (e <| escrow_pending_fee ::= (fun f => mk_asset 0 (symbol f)) |>))).

(** [escrow_dispute_evaluator::do_apply] *)
Definition escrow_dispute_evaluator (o : escrow_dispute_operation) : M unit :=
  check_account_exists (escrow_dispute_from o) ;;
  e ← get_escrow (escrow_dispute_from o) (escrow_dispute_escrow_id o);
  now ← head_block_time;
  check_logic_m (now <? escrow_escrow_expiration e) cannot_dispute_expired_escrow ;;
  check_logic_m (escrow_to_approved e && escrow_agent_approved e) escrow_must_be_approved_first ;;
  check_logic_m (negb (escrow_disputed e)) escrow_already_disputed ;;
  check_logic_m (String.eqb (escrow_to e) (escrow_dispute_to o)) escrow_bad_to ;;
  check_logic_m (String.eqb (escrow_agent e) (escrow_dispute_agent o)) escrow_bad_agent ;;
  modify escrows (escrow_dispute_from o, escrow_dispute_escrow_id o) (fun e =>
    Ok (e <| escrow_disputed := true |>)).

(** Who may release to whom: the checks of [escrow_release_evaluator] between the
    approval check and the payment *)
Definition check_release_parties (e : escrow_object) (who receiver : string) (now : Z) : result unit :=
  if escrow_disputed e then
    check_logic (String.eqb who (escrow_agent e)) only_agent_can_release_disputed
  else
    check_logic (String.eqb who (escrow_from e) || String.eqb who (escrow_to e))
      only_from_to_can_release_non_disputed ;;
    if escrow_escrow_expiration e >? now then
      if String.eqb who (escrow_from e) then
        check_logic (String.eqb receiver (escrow_to e)) from_can_release_only_to_to
      else if String.eqb who (escrow_to e) then
        check_logic (String.eqb receiver (escrow_from e)) to_can_release_only_to_from
      else Ok tt
    else Ok tt.

(** [escrow_release_evaluator::do_apply] *)
Definition escrow_release_evaluator (o : escrow_release_operation) : M unit :=
  let k := (escrow_release_from o, escrow_release_escrow_id o) in
  let receiver := escrow_release_receiver o in
  check_account_exists (escrow_release_from o) ;;
  check_account_exists receiver ;;
  e ← get_escrow (escrow_release_from o) (escrow_release_escrow_id o);
  steem_ok ← lift (asset_geb (escrow_steem_balance e) (escrow_release_steem_amount o));
  check_logic_m steem_ok release_amount_exceeds_escrow_balance ;;
  sbd_ok ← lift (asset_geb (escrow_sbd_balance e) (escrow_release_sbd_amount o));
  check_logic_m sbd_ok release_amount_exceeds_escrow_balance ;;
  check_logic_m (String.eqb (escrow_to e) (escrow_release_to o)) escrow_bad_to ;;
  check_logic_m (String.eqb (escrow_agent e) (escrow_release_agent o)) escrow_bad_agent ;;
  check_logic_m (String.eqb receiver (escrow_from e) || String.eqb receiver (escrow_to e)) escrow_bad_receiver ;;
  check_logic_m (escrow_to_approved e && escrow_agent_approved e) escrow_must_be_approved_first ;;
  now ← head_block_time;
  lift (check_release_parties e (escrow_release_who o) receiver now) ;;
  adjust_balance receiver (escrow_release_steem_amount o) ;;
  adjust_balance receiver (escrow_release_sbd_amount o) ;;
  modify escrows k (fun e =>
    s ← asset_sub (escrow_steem_balance e) (escrow_release_steem_amount o);
    d ← asset_sub (escrow_sbd_balance e) (escrow_release_sbd_amount o);
    Ok (e <| escrow_steem_balance := s |> <| escrow_sbd_balance := d |>)) ;;
  e ← get_row escrows "escrow" k;
  when ((amount (escrow_steem_balance e) =? 0) && (amount (escrow_sbd_balance e) =? 0))
    (remove escrows k).

(** ** Expiration *)

(** Index [by_ratification_deadline] among the escrows that are not approved *)
Definition by_ratification_deadline (x y : escrow_object) : comparison :=
  cmp_then (Z.compare (escrow_ratification_deadline x) (escrow_ratification_deadline y))
    (Z.compare (escrow_id x) (escrow_id y)).
Definition ratification_expired (now : Z) (e : escrow_object) : bool :=
  negb (escrow_is_approved e) && (escrow_ratification_deadline e <=? now).

(** One turn of the loop of [expire_escrow_ratification] *)
Definition expire_escrow (k : string * Z) : M unit :=
  e ← get_row escrows "escrow" k; return_escrow (escrow_from e) k.

(** [expire_escrow_ratification]; each turn removes an escrow. *)
Definition expire_escrow_ratification : M unit :=
  fuel ← gets (fun db => S (size (rows (escrows db))));
  drain fuel (fun db => first_due (ratification_expired (dgp_time (dgp db))) by_ratification_deadline (escrows db))
    expire_escrow.

End Evaluators.

(** ** Conservation *)

(** What is true of every escrow: it is filed under its sender and id, the fee is
    gone once both parties approved, and only approved escrows are disputed. *)
Definition escrow_wf (k : string * Z) (e : escrow_object) : Prop :=
  k = (escrow_from e, escrow_escrow_id e) /\
  (escrow_is_approved e = true -> amount (escrow_pending_fee e) = 0) /\
  (escrow_disputed e = true -> escrow_is_approved e = true) /\
  symbol (escrow_steem_balance e) = STEEM_SYMBOL /\ symbol (escrow_sbd_balance e) = SBD_SYMBOL /\
  0 <= amount (escrow_steem_balance e) /\ 0 <= amount (escrow_sbd_balance e).

Definition escrows_wf (db : database) : Prop := map_Forall escrow_wf (rows (escrows db)).

Section Conserved.
Context `{F : fc_ops} {L : fc_laws F}.
Variable sym : Z.
#[local] Abbreviation gap := (gap sym).

Lemma return_escrow_gap from k db u db' : return_escrow from k db = Ok (u, db') -> gap db' = gap db.
Proof. unfold return_escrow. intros H. gap_solve sym. Qed.

Lemma escrow_transfer_gap o db u db' : escrow_transfer_evaluator o db = Ok (u, db') -> gap db' = gap db.
Proof.
  unfold escrow_transfer_evaluator. intros H. destruct (symbol (escrow_transfer_fee o) =? STEEM_SYMBOL);
    gap_solve sym.
Qed.

Lemma mark_approval_gap c already approve k g db u db1 :
  (forall e, escrow_holdings sym (g e) = escrow_holdings sym e) ->
  mark_approval c already approve k g db = Ok (u, db1) -> gap db1 = gap db.
Proof.
  unfold mark_approval. intros Hg H. gap_solve sym; try done.
  match goal with H : context [escrow_holdings sym (g _)] |- _ => rewrite Hg in H; lia end.
Qed.

Lemma escrow_approve_gap o db u db' : escrow_approve_evaluator o db = Ok (u, db') -> gap db' = gap db.
Proof.
  unfold escrow_approve_evaluator. intros H. inv_run;
    repeat (match goal with
    | H : mark_approval _ _ _ _ _ _ = Ok _ |- _ => apply mark_approval_gap in H; [|done]
    | H : return_escrow _ _ _ = Ok _ |- _ => apply return_escrow_gap in H end);
   gap_solve sym.
Qed.

Lemma escrow_dispute_gap o db u db' : escrow_dispute_evaluator o db = Ok (u, db') -> gap db' = gap db.
Proof. unfold escrow_dispute_evaluator. intros H. gap_solve sym. Qed.
End Conserved.

(** ** The invariant of escrows *)

(** Follows the rows of table [escrows] through a run. *)
Ltac escrow_rows :=
  repeat match goal with
  | H : modify escrows _ _ _ = Ok _ |- _ => apply modify_run in H; destruct H as (? & ? & ? & H & ->)
  | H : create escrows _ _ _ = Ok _ |- _ => apply create_run in H; destruct H as (? & ->)
  | H : remove escrows _ _ = Ok _ |- _ => apply remove_run in H; destruct H as (? & ? & ->)
  | H : adjust_balance _ _ _ = Ok _ |- _ => apply adjust_balance_frame, frame_escrows in H
  end; inv_ok; cbn [escrows rows set_field] in *;
  repeat match goal with E : escrows ?d = _ |- _ => is_var d; rewrite ?E in *; clear E end;
  cbn [escrows rows set_field] in *; rewrite ?lookup_insert_eq in *; simplify_eq.

Section Invariant.
Context `{F : fc_ops} {L : fc_laws F}.

Lemma return_escrow_rows from k db u db' :
  return_escrow from k db = Ok (u, db') -> rows (escrows db') = delete k (rows (escrows db)).
Proof. unfold return_escrow. intros H. inv_run. by escrow_rows. Qed.

Lemma check_asset_ge0_Ok a sym u : check_asset_ge0 a sym = Ok u -> 0 <= amount a /\ symbol a = sym.
Proof. unfold check_asset_ge0, check_asset_ge. intros H. inv_ok. bool_to_prop. lia. Qed.

Lemma escrow_transfer_wf o db u db' :
  escrow_transfer_operation_validate o = Ok tt ->
  escrow_transfer_evaluator o db = Ok (u, db') -> escrows_wf db -> escrows_wf db'.
Proof.
  intros Hv H Hwf. unfold escrow_transfer_operation_validate in Hv.
  unfold escrow_transfer_evaluator in H. inv_run. escrow_rows. unfold escrows_wf. cbn.
  apply map_Forall_insert_2; [|done].
  repeat match goal with H : check_asset_ge0 _ _ = Ok _ |- _ => apply check_asset_ge0_Ok in H as [? ?] end.
  unfold escrow_wf, escrow_is_approved. cbn. split_and!; done.
Qed.

(** What an approval makes of an escrow: the mark of the party, and no fee once both
    parties have approved. *)
Definition approved_by (who to agent : string) (e : escrow_object) : escrow_object :=
  let e := if String.eqb who to then e <| escrow_to_approved := true |> else e in
  let e := if String.eqb who agent then e <| escrow_agent_approved := true |> else e in
  if escrow_is_approved e then e <| escrow_pending_fee ::= (fun f => mk_asset 0 (symbol f)) |> else e.

Lemma mark_approval_rows c already approve k g db u db1 e :
  rows (escrows db) !! k = Some e -> mark_approval c already approve k g db = Ok (u, db1) ->
  rows (escrows db1) = <[k := if c && approve then g e else e]> (rows (escrows db)).
Proof.
  unfold mark_approval, when. intros He H. destruct c, approve; inv_run; escrow_rows; cbn; try done;
    by rewrite insert_id.
Qed.

Lemma escrow_approve_rows o db u db' :
  escrow_approve_evaluator o db = Ok (u, db') ->
  let k := (escrow_approve_from o, escrow_approve_escrow_id o) in
  exists e, rows (escrows db) !! k = Some e /\
    rows (escrows db') =
      if escrow_approve_approve o
      then <[k := approved_by (escrow_approve_who o) (escrow_approve_to o) (escrow_approve_agent o) e]>
             (rows (escrows db))
      else delete k (rows (escrows db)).
Proof.
  intros H k. unfold escrow_approve_evaluator in H. cbv zeta in H. fold k in H.
  inv_run;
    repeat (match goal with
    | H : mark_approval _ _ _ _ _ _ = Ok _ |- _ => eapply mark_approval_rows in H; [|done]
    | H : return_escrow _ _ _ = Ok _ |- _ => apply return_escrow_rows in H end); escrow_rows;
    exists x; (split; [done|]);
    rewrite Hrun4, lookup_insert_eq in E0; injection E0 as <-;
    rewrite Hrun6, lookup_insert_eq in E; injection E as <-; rewrite Hrun4 in Hrun6.
  - bool_to_prop. by rewrite H, Hrun6, Heqb, insert_insert_eq, delete_insert_eq.
  - apply negb_false_iff in Heqb. rewrite Hrun6, Heqb, !andb_true_r in *. rewrite !insert_insert_eq.
    unfold approved_by, escrow_is_approved. by rewrite Heqb0.
  - apply negb_false_iff in Heqb. rewrite Hrun6, Heqb, !andb_true_r in *. rewrite !insert_insert_eq.
    unfold approved_by, escrow_is_approved. by rewrite Heqb0.
Qed.

Lemma approved_by_wf who to agent k e : escrow_wf k e -> escrow_wf k (approved_by who to agent e).
Proof.
  unfold escrow_wf, approved_by, escrow_is_approved. destruct e as [? ? ? ? ? ? ? ? ? ? ta aa d].
  cbn. intros (? & Hfee & Hd & ? & ? & ? & ?).
  destruct (String.eqb who to), (String.eqb who agent), ta, aa; cbn in *; split_and!; try done; intros; auto;
    try discriminate.
Qed.

Lemma escrow_approve_wf o db u db' :
  escrow_approve_evaluator o db = Ok (u, db') -> escrows_wf db -> escrows_wf db'.
Proof.
  intros (e & He & Hrows)%escrow_approve_rows Hwf. unfold escrows_wf. rewrite Hrows.
  destruct (escrow_approve_approve o).
  - apply map_Forall_insert_2; [|done]. apply approved_by_wf. by apply Hwf.
  - by apply map_Forall_delete.
Qed.

Lemma escrow_dispute_wf o db u db' :
  escrow_dispute_evaluator o db = Ok (u, db') -> escrows_wf db -> escrows_wf db'.
Proof.
  intros H Hwf. unfold escrow_dispute_evaluator in H. inv_run. escrow_rows.
  unfold escrows_wf. cbn. apply map_Forall_insert_2; [|done].
  destruct (Hwf _ _ E4) as (? & ? & ? & ? & ? & ? & ?). unfold escrow_wf, escrow_is_approved in *.
  cbn. split_and!; auto.
Qed.

(** What a release leaves of the escrow. *)
Definition released (steem sbd : Z) (e : escrow_object) : escrow_object :=
  e <| escrow_steem_balance := mk_asset (amount (escrow_steem_balance e) - steem) (symbol (escrow_steem_balance e)) |>
    <| escrow_sbd_balance := mk_asset (amount (escrow_sbd_balance e) - sbd) (symbol (escrow_sbd_balance e)) |>.

Lemma escrow_release_rows o db u db' :
  escrow_release_evaluator o db = Ok (u, db') ->
  let k := (escrow_release_from o, escrow_release_escrow_id o) in
  let steem := amount (escrow_release_steem_amount o) in
  let sbd := amount (escrow_release_sbd_amount o) in
  exists e, rows (escrows db) !! k = Some e /\
    steem <= amount (escrow_steem_balance e) /\ sbd <= amount (escrow_sbd_balance e) /\
    escrow_is_approved e = true /\
    check_release_parties e (escrow_release_who o) (escrow_release_receiver o) (dgp_time (dgp db)) = Ok tt /\
    (escrow_release_receiver o = escrow_from e \/ escrow_release_receiver o = escrow_to e) /\
    rows (escrows db') =
      if (amount (escrow_steem_balance e) - steem =? 0) && (amount (escrow_sbd_balance e) - sbd =? 0)
      then delete k (rows (escrows db))
      else <[k := released steem sbd e]> (rows (escrows db)).
Proof.
  intros H k steem sbd. unfold escrow_release_evaluator in H. cbv zeta in H. fold k in H.
  inv_run; escrow_rows; fold k in E9; simplify_eq;
    apply asset_geb_Ok in E1 as [_ E1]; apply asset_geb_Ok in E0 as [_ E0];
    symmetry in E0, E1; apply asset_sub_Ok in Hrun as (_ & _ & ->);
    apply asset_sub_Ok in Hrun0 as (_ & _ & ->); bool_to_prop;
    cbn [escrow_steem_balance escrow_sbd_balance amount set_field] in *;
    eexists; (split_and!; [done | done | done | by apply andb_true_iff | done | |]).
  1, 3: apply orb_true_iff in E4 as [?%String.eqb_eq | ?%String.eqb_eq]; auto.
  - subst steem sbd. rewrite delete_insert_eq. by rewrite H, H0.
  - subst steem sbd. by rewrite Heqb.
Qed.

Lemma escrow_release_wf o db u db' :
  escrow_release_operation_validate o = Ok tt ->
  escrow_release_evaluator o db = Ok (u, db') -> escrows_wf db -> escrows_wf db'.
Proof.
  intros Hv (e & He & Hle1 & Hle2 & _ & _ & _ & Hrows)%escrow_release_rows Hwf.
  unfold escrows_wf. rewrite Hrows. case_match; [by apply map_Forall_delete|].
  apply map_Forall_insert_2; [|done]. destruct (Hwf _ _ He) as (? & ? & ? & ? & ? & ? & ?).
  unfold escrow_wf, escrow_is_approved in *. cbn. split_and!; auto; lia.
Qed.

Lemma expire_escrow_rows k db u db' :
  expire_escrow k db = Ok (u, db') ->
  rows (escrows db') = delete k (rows (escrows db)) /\ dgp_time (dgp db') = dgp_time (dgp db).
Proof.
  unfold expire_escrow. intros H. inv_run. split; [by eapply return_escrow_rows|].
  unfold return_escrow in H. inv_run.
  match goal with H : remove escrows _ ?d = Ok _ |- _ =>
    assert (frame db d) as Hf by frame_solve; apply remove_run in H as (? & ? & ->) end.
  apply (frame_time _ _ Hf).
Qed.

Lemma expire_escrow_ratification_rows db u db' :
  expire_escrow_ratification db = Ok (u, db') ->
  rows (escrows db') =
    filter (fun ke => ratification_expired (dgp_time (dgp db)) (snd ke) = false) (rows (escrows db)).
Proof.
  unfold expire_escrow_ratification. intros H. inv_run.
  apply (drain_table_spec escrows ratification_expired by_ratification_deadline expire_escrow)
    in H as [-> _]; [done | apply expire_escrow_rows | lia].
Qed.

Lemma expire_escrow_ratification_wf db u db' :
  expire_escrow_ratification db = Ok (u, db') -> escrows_wf db -> escrows_wf db'.
Proof.
  intros Hrows%expire_escrow_ratification_rows Hwf. unfold escrows_wf. rewrite Hrows.
  intros k e [He _]%map_lookup_filter_Some. by apply Hwf.
Qed.

Lemma expire_escrow_ratification_gap sym db u db' :
  expire_escrow_ratification db = Ok (u, db') -> gap sym db' = gap sym db.
Proof.
  unfold expire_escrow_ratification. intros H. inv_run. revert H. apply drain_gap.
  unfold expire_escrow. intros k db1 u1 db2 _ H. inv_run. by eapply return_escrow_gap.
Qed.

(** A release may remove the escrow, so it needs the fee to be gone. *)
Lemma escrow_release_gap sym o db u db' :
  escrows_wf db -> escrow_release_evaluator o db = Ok (u, db') -> gap sym db' = gap sym db.
Proof.
  intros Hwf H. unfold escrow_release_evaluator in H. inv_run.
  2: gap_solve sym.
  match goal with He : rows (escrows db) !! _ = Some ?e |- _ => destruct (Hwf _ _ He) as (_ & Hfee & _) end.
  gap_solve sym. apply Hfee, (amount_in_null sym) in E3.
  cbn [escrow_steem_balance escrow_sbd_balance set_field] in Heqb. bool_to_prop.
  match goal with Ha : amount a = 0, Hb : amount a0 = 0 |- _ =>
    apply (amount_in_null sym) in Ha, Hb end.
  gap_arith sym.
Qed.
End Invariant.

(** ** The life of escrows *)

Section Steps.
Context `{F : fc_ops} {L : fc_laws F}.

(** The steps that touch escrows: a valid escrow operation, or the expiration step
    of a block. *)
Inductive escrow_step (db : database) : database -> Prop :=
| step_transfer o db' : escrow_transfer_operation_validate o = Ok tt ->
    escrow_transfer_evaluator o db = Ok (tt, db') -> escrow_step db db'
| step_approve o db' : escrow_approve_operation_validate o = Ok tt ->
    escrow_approve_evaluator o db = Ok (tt, db') -> escrow_step db db'
| step_dispute o db' : escrow_dispute_operation_validate o = Ok tt ->
    escrow_dispute_evaluator o db = Ok (tt, db') -> escrow_step db db'
| step_release o db' : escrow_release_operation_validate o = Ok tt ->
    escrow_release_evaluator o db = Ok (tt, db') -> escrow_step db db'
| step_expire db' : expire_escrow_ratification db = Ok (tt, db') -> escrow_step db db'.

Lemma escrow_step_ok db db' :
  escrow_step db db' -> escrows_wf db -> escrows_wf db' /\ forall sym, gap sym db' = gap sym db.
Proof.
  intros Hstep Hwf. destruct Hstep as [o db' Hv H | o db' Hv H | o db' Hv H | o db' Hv H | db' H].
  - split; [by eapply escrow_transfer_wf | intros; by eapply escrow_transfer_gap].
  - split; [by eapply escrow_approve_wf | intros; by eapply escrow_approve_gap].
  - split; [by eapply escrow_dispute_wf | intros; by eapply escrow_dispute_gap].
  - split; [by eapply escrow_release_wf | intros; by eapply escrow_release_gap].
  - split; [by eapply expire_escrow_ratification_wf | intros; by eapply expire_escrow_ratification_gap].
Qed.

(** along any sequence of escrow operations and expirations, starting from a
    database whose escrows are well formed, they stay well formed (an approved
    escrow holds no fee, a disputed one is approved, balances are not negative)
    and in every symbol the difference between the recorded supply and what the
    objects hold does not change. *)
Theorem escrow_life_conserves db db' :
  rtc escrow_step db db' -> escrows_wf db ->
  escrows_wf db' /\ forall sym, gap sym db' = gap sym db.
Proof.
  induction 1 as [db | db1 db2 db3 Hstep _ IH]; intros Hwf; [done|].
  destruct (escrow_step_ok _ _ Hstep Hwf) as [Hwf2 Hgap2].
  destruct (IH Hwf2) as [Hwf3 Hgap3]. split; [done|]. intros sym. by rewrite Hgap3, Hgap2.
Qed.

Lemma check_release_parties_Ok e who receiver now :
  check_release_parties e who receiver now = Ok tt ->
  (escrow_disputed e = true -> who = escrow_agent e) /\
  (escrow_disputed e = false -> who = escrow_from e \/ who = escrow_to e) /\
  (escrow_disputed e = false -> now < escrow_escrow_expiration e ->
     who = escrow_from e -> receiver = escrow_to e) /\
  (escrow_disputed e = false -> now < escrow_escrow_expiration e ->
     who <> escrow_from e -> receiver = escrow_from e).
Proof.
  unfold check_release_parties. destruct (escrow_disputed e).
  - intros H. inv_ok. bool_to_prop. split_and!; [done | done | done | done].
  - intros H. inv_ok. apply orb_true_iff in Hrun. rewrite !String.eqb_eq in Hrun.
    split_and!; [done | done | |]; intros _ Ht%Z.gtb_lt Hwho; rewrite Ht in H.
    + subst who. rewrite String.eqb_refl in H. inv_ok. by bool_to_prop.
    + destruct Hrun as [? | ->]; [done|].
      rewrite (proj2 (String.eqb_neq _ _) Hwho), String.eqb_refl in H. inv_ok. by bool_to_prop.
Qed.

(** a release succeeds only on an escrow both parties approved; the funds go to
    the sender or the receiver; in a dispute only the agent releases, otherwise only
    sender and receiver do, and before the expiration only to each other; no more than
    the escrow holds is released, the rest stays, and the emptied escrow is removed. *)
Theorem escrow_release_spec o db db' :
  escrow_release_evaluator o db = Ok (tt, db') ->
  let k := (escrow_release_from o, escrow_release_escrow_id o) in
  let who := escrow_release_who o in
  let receiver := escrow_release_receiver o in
  let steem := amount (escrow_release_steem_amount o) in
  let sbd := amount (escrow_release_sbd_amount o) in
  exists e, rows (escrows db) !! k = Some e /\
    escrow_to_approved e = true /\ escrow_agent_approved e = true /\
    (receiver = escrow_from e \/ receiver = escrow_to e) /\
    (escrow_disputed e = true -> who = escrow_agent e) /\
    (escrow_disputed e = false -> who = escrow_from e \/ who = escrow_to e) /\
    (escrow_disputed e = false -> dgp_time (dgp db) < escrow_escrow_expiration e ->
       who = escrow_from e -> receiver = escrow_to e) /\
    (escrow_disputed e = false -> dgp_time (dgp db) < escrow_escrow_expiration e ->
       who <> escrow_from e -> receiver = escrow_from e) /\
    steem <= amount (escrow_steem_balance e) /\ sbd <= amount (escrow_sbd_balance e) /\
    rows (escrows db') !! k =
      (if (amount (escrow_steem_balance e) =? steem) && (amount (escrow_sbd_balance e) =? sbd)
       then None else Some (released steem sbd e)).
Proof.
  intros (e & He & Hs & Hd & Happ & Hparties & Hrecv & Hrows)%escrow_release_rows k who receiver steem sbd.
  fold k in He, Hrows. fold steem in Hs, Hrows. fold sbd in Hd, Hrows. fold receiver in Hrecv, Hparties.
  fold who in Hparties. exists e. apply check_release_parties_Ok in Hparties as (Hp1 & Hp2 & Hp3 & Hp4).
  unfold escrow_is_approved in Happ. bool_to_prop. split_and!; try done. rewrite Hrows.
  replace (amount (escrow_steem_balance e) - steem =? 0) with (amount (escrow_steem_balance e) =? steem) by lia.
  replace (amount (escrow_sbd_balance e) - sbd =? 0) with (amount (escrow_sbd_balance e) =? sbd) by lia.
  destruct ((amount (escrow_steem_balance e) =? steem) && _); [apply lookup_delete_eq | apply lookup_insert_eq].
Qed.

(** when the block step [expire_escrow_ratification] returns, exactly the
    escrows that were not approved by both parties when their ratification deadline
    came are gone; their number is enough turns for the loop. *)
Theorem expire_escrow_ratification_spec db db' :
  expire_escrow_ratification db = Ok (tt, db') ->
  forall k e, rows (escrows db') !! k = Some e <->
    rows (escrows db) !! k = Some e /\
    (escrow_is_approved e = true \/ dgp_time (dgp db) < escrow_ratification_deadline e).
Proof.
  intros Hrows%expire_escrow_ratification_rows k e. rewrite Hrows, map_lookup_filter_Some.
  cbn. unfold ratification_expired. rewrite andb_false_iff, negb_false_iff, Z.leb_gt. done.
Qed.
End Steps.

(** Witnesses: alice pays bob through carol *)
Definition sample_escrow : escrow_transfer_operation :=
  mk_escrow_transfer "alice" "bob" "carol" 1 (mk_asset 0 SBD_SYMBOL) (mk_asset 9000 STEEM_SYMBOL)
    (mk_asset 100 STEEM_SYMBOL) (sample_time + 100) (sample_time + 1000) "".
Definition sample_escrow_database : database :=
  run_state (escrow_approve_evaluator (F := fc_ref) (mk_escrow_approve "alice" "bob" "carol" "carol" 1 true))
    (run_state (escrow_approve_evaluator (F := fc_ref) (mk_escrow_approve "alice" "bob" "carol" "bob" 1 true))
      (run_state (escrow_transfer_evaluator (F := fc_ref) sample_escrow) sample_database)).

Lemma escrow_life_conserves_witness :
  let db' := run_state (escrow_transfer_evaluator (F := fc_ref) sample_escrow) sample_database in
  escrows_wf db' /\ forall sym, gap sym db' = gap sym sample_database.
Proof.
  intros db'. apply (escrow_life_conserves (F := fc_ref) sample_database db').
  - apply rtc_once, (step_transfer _ sample_escrow); [vm_compute; reflexivity | run_now].
  - apply map_Forall_empty.
Defined.

Lemma escrow_release_spec_witness :
  let o := mk_escrow_release "alice" "bob" "carol" "alice" "bob" 1 (mk_asset 0 SBD_SYMBOL) (mk_asset 4000 STEEM_SYMBOL) in
  let db' := run_state (escrow_release_evaluator (F := fc_ref) o) sample_escrow_database in
  exists e, rows (escrows sample_escrow_database) !! ("alice", 1) = Some e /\
    rows (escrows db') !! ("alice", 1) = Some (released 4000 0 e).
Proof.
  intros o db'.
  destruct (escrow_release_spec (F := fc_ref) o sample_escrow_database db' ltac:(run_now))
    as (e & He & _ & _ & _ & _ & _ & _ & _ & _ & _ & Hrest).
  exists e. split; [exact He|]. vm_compute in He. injection He as <-. exact Hrest.
Defined.

Lemma expire_escrow_ratification_spec_witness :
  let db := (run_state (escrow_transfer_evaluator (F := fc_ref) sample_escrow) sample_database)
              <| dgp ::= (fun p => p <| dgp_time := sample_time + 100 |>) |> in
  let db' := run_state (expire_escrow_ratification (F := fc_ref)) db in
  rows (escrows db') !! ("alice", 1) = None.
Proof.
  intros db db'. destruct (rows (escrows db') !! ("alice", 1)) as [e|] eqn:E; [|reflexivity].
  apply (expire_escrow_ratification_spec (F := fc_ref) db db' ltac:(run_now)) in E as [He [Ha | Ht]].
  - vm_compute in He. injection He as <-. discriminate Ha.
  - vm_compute in He. injection He as <-. vm_compute in Ht. discriminate Ht.
Defined.
