(* ===== verification/Market.v ===== *)
(** * The internal market

    Limit orders: matching of a new order against the book, partial fills,
    cancellation and expiration ([database.cpp]), and the evaluators that create
    and cancel orders ([steem_evaluator.cpp]).  The C [assert]s of [match] are
    compiled out of the node; what they state is proved here instead. *)

From S2P Require Import Prelude Exceptions Text Fc Config Asset AssetProps FlatMap Authority Operations Crypto Validate Objects Database Conservation Sample.

Section Market.
Context `{F : fc_ops}.

(** ** Liquidity rewards of the first hardforks *)

(** [liquidity_reward_balance_object]: [is_positive], [volume_weight],
    [min_volume_weight], [update_weight]; products of [int64_t] wrap around. *)
Definition liquidity_is_positive (r : liquidity_reward_balance_object) : Z :=
  if (liquidity_steem_volume r >? 0) && (liquidity_sbd_volume r >? 0) then 1 else 0.
Definition volume_weight (r : liquidity_reward_balance_object) : Z :=
  u128_of_int64 (to_int64_wrap (to_int64_wrap (liquidity_steem_volume r * liquidity_sbd_volume r) *
                                liquidity_is_positive r)).
Definition min_volume_weight (r : liquidity_reward_balance_object) : Z :=
  u128_of_int64 (Z.min (liquidity_steem_volume r) (liquidity_sbd_volume r) * liquidity_is_positive r).
Definition update_weight (hf9 : bool) (r : liquidity_reward_balance_object) : liquidity_reward_balance_object :=
  r <| liquidity_weight := if hf9 then min_volume_weight r else volume_weight r |>.

(** [adjust_liquidity_reward] *)
Definition adjust_liquidity_reward (owner : string) (volume : asset) (is_sbd : bool) : M unit :=
  a ← get_account owner;
  let id := account_id a in
  now ← head_block_time;
  itr ← find_row liquidity_balances id;
  match itr with
  | Some _ =>
      hf10 ← has_hardfork STEEMIT_HARDFORK_0_10__141;
      modify liquidity_balances id (fun r =>
        let r := if time_diff_seconds now (liquidity_last_update r) >=? STEEMIT_LIQUIDITY_TIMEOUT_SEC
                 then r <| liquidity_sbd_volume := 0 |> <| liquidity_steem_volume := 0 |> <| liquidity_weight := 0 |>
                 else r in
        let r := if is_sbd
                 then r <| liquidity_sbd_volume ::= (fun v => to_int64_wrap (v + amount volume)) |>
                 else r <| liquidity_steem_volume ::= (fun v => to_int64_wrap (v + amount volume)) |> in
        Ok ((update_weight hf10 r) <| liquidity_last_update := now |>))
  | None =>
      hf9 ← has_hardfork STEEMIT_HARDFORK_0_9__141;
      create liquidity_balances id (fun rid =>
        (update_weight hf9 {|
          liquidity_id := rid;
          liquidity_owner := id;
          liquidity_steem_volume := if is_sbd then 0 else amount volume;
          liquidity_sbd_volume := if is_sbd then amount volume else 0;
          liquidity_weight := 0;
          liquidity_last_update := 0 |}) <| liquidity_last_update := now |>)
  end.

(** ** Orders *)

(** A reference to an order is its key in index [by_account] *)
Definition get_order (k : string * Z) : M limit_order_object := get_row limit_orders "limit_order" k.

(** [cancel_order] *)
Definition cancel_order (k : string * Z) : M unit :=
  o ← get_order k;
  check_account_exists (limit_order_seller o) ;;
  adjust_balance (limit_order_seller o) (amount_for_sale o) ;;
  remove limit_orders k.

(** [fill_order]: true when the order is gone *)
Definition fill_order (k : string * Z) (pays receives : asset) : M bool :=
  o ← get_order k;
  lift (fc_assert (symbol (amount_for_sale o) =? symbol pays)) ;;
  lift (fc_assert (negb (symbol pays =? symbol receives))) ;;
  check_account_exists (limit_order_seller o) ;;
  adjust_balance (limit_order_seller o) receives ;;
  all ← lift (asset_eqb pays (amount_for_sale o));
  if (all : bool) then remove limit_orders k ;; mret true
  else
    modify limit_orders k (fun b =>
      left ← safe_sub (limit_order_for_sale b) (amount pays);
      Ok (b <| limit_order_for_sale := left |>)) ;;
    o ← get_order k;
    receive ← lift (amount_to_receive o);
    if amount receive =? 0 then cancel_order k ;; mret true
    else mret false.

(** The amounts of a trade, computed in [match]: what the new order pays and
    receives. *)
Definition match_amounts (new_for_sale old_for_sale : asset) (match_price : price) : result (asset * asset) :=
  old_value ← asset_mul_price old_for_sale match_price;
  small ← asset_leb new_for_sale old_value;
  if (small : bool) then
    receives ← asset_mul_price new_for_sale match_price;
    Ok (new_for_sale, receives)
  else Ok (old_value, old_for_sale).

(** The liquidity rewards in [match], before hardfork 0.12 *)
Definition reward_liquidity (new_seller old_seller : string) (created : Z)
    (new_receives old_receives : asset) : M unit :=
  now ← head_block_time;
  hf12 ← has_hardfork STEEMIT_HARDFORK_0_12__178;
  hf10 ← has_hardfork STEEMIT_HARDFORK_0_10__149;
  let age := time_diff_seconds now created in
  when (negb hf12 &&
        (((age >=? STEEMIT_MIN_LIQUIDITY_REWARD_PERIOD_SEC) && negb hf10) ||
         ((age >=? STEEMIT_MIN_LIQUIDITY_REWARD_PERIOD_SEC_HF10) && hf10)))
    (let is_sbd := negb (symbol old_receives =? STEEM_SYMBOL) in
     let volume := if is_sbd then new_receives else old_receives in
     check_account_exists old_seller ;;
     adjust_liquidity_reward old_seller volume is_sbd ;;
     check_account_exists new_seller ;;
     neg ← lift (asset_neg volume);
     adjust_liquidity_reward new_seller neg is_sbd).

(** [match]: bit 0 of the result says that the new order is gone, bit 1 that the old
    one is; here the pair of them *)
Definition match_orders (new_k old_k : string * Z) : M (bool * bool) :=
  new_order ← get_order new_k;
  old_order ← get_order old_k;
  trade ← lift (match_amounts (amount_for_sale new_order) (amount_for_sale old_order)
                  (limit_order_sell_price old_order));
  let '(new_order_pays, new_order_receives) := (trade : asset * asset) in
  let old_order_pays := new_order_receives in
  let old_order_receives := new_order_pays in
  reward_liquidity (limit_order_seller new_order) (limit_order_seller old_order)
    (limit_order_created old_order) new_order_receives old_order_receives ;;
  push_virtual_operation (op_fill_order
    (mk_fill_order (limit_order_seller new_order) (limit_order_orderid new_order) new_order_pays
       (limit_order_seller old_order) (limit_order_orderid old_order) old_order_pays)) false ;;
  new_filled ← fill_order new_k new_order_pays new_order_receives;
  old_filled ← fill_order old_k old_order_pays old_order_receives;
  mret (new_filled, old_filled).

(** Index [by_price]: by decreasing price, then by id *)
Definition by_price (x y : limit_order_object) : bool :=
  if price_gtb (limit_order_sell_price x) (limit_order_sell_price y) then true
  else if price_gtb (limit_order_sell_price y) (limit_order_sell_price x) then false
  else limit_order_id x <=? limit_order_id y.

(** The range from [lower_bound(max)] to [upper_bound(min)] of that index *)
Definition in_price_range (max min : price) (o : limit_order_object) : bool :=
  negb (price_gtb (limit_order_sell_price o) max) && negb (price_gtb min (limit_order_sell_price o)).
Definition price_range (max min : price) (db : database) : list (string * Z) :=
  (sort_by (fun x y => by_price (snd x) (snd y))
     (filter (fun kv => in_price_range max min (snd kv)) (map_to_list (rows (limit_orders db))))).*1.

(** The loop of [apply_order]: match until the new order is gone *)
Fixpoint match_all (new_k : string * Z) (old : list (string * Z)) : M unit :=
  match old with
  | [] => mret tt
  | k :: old' =>
      filled ← match_orders new_k k;
      if fst (filled : bool * bool) then mret tt else match_all new_k old'
  end.

(** [apply_order]: true when the new order is gone *)
Definition apply_order (new_k : string * Z) : M bool :=
  new_order ← get_order new_k;
  let max_price := price_invert (limit_order_sell_price new_order) in
  max ← lift (price_max (symbol (base max_price)) (symbol (quote max_price)));
  range ← gets (price_range max max_price);
  match_all new_k range ;;
  gone ← find_row limit_orders new_k;
  mret (match gone with None => true | Some _ => false end).

(** ** Evaluators *)

(** The common part of the two evaluators that create an order *)
Definition place_order (owner : string) (orderid : Z) (amount_to_sell : asset) (sell_price : result price)
    (fill_or_kill : bool) (expiration : Z) : M unit :=
  now ← head_block_time;
  check_op_param "expiration" (lift (check_value (expiration >? now))) ;;
  check_account_exists owner ;;
  check_balance owner MAIN_BALANCE amount_to_sell ;;
  neg ← lift (asset_neg amount_to_sell);
  adjust_balance owner neg ;;
  throw_if_exists_limit_order owner orderid ;;
  p ← lift sell_price;
  create limit_orders (owner, orderid) (fun id => {|
    limit_order_id := id;
    limit_order_created := now;
    limit_order_expiration := expiration;
    limit_order_seller := owner;
    limit_order_orderid := orderid;
    limit_order_for_sale := amount amount_to_sell;
    limit_order_sell_price := p |}) ;;
  filled ← apply_order (owner, orderid);
  when fill_or_kill (check_logic_m filled cancelling_not_filled_order).

(** [limit_order_create_evaluator::do_apply] *)
Definition limit_order_create_evaluator (o : limit_order_create_operation) : M unit :=
  place_order (limit_order_create_owner o) (limit_order_create_orderid o) (limit_order_create_amount_to_sell o)
    (asset_div (limit_order_create_amount_to_sell o) (limit_order_create_min_to_receive o))
    (limit_order_create_fill_or_kill o) (limit_order_create_expiration o).

(** [limit_order_create2_evaluator::do_apply] *)
Definition limit_order_create2_evaluator (o : limit_order_create2_operation) : M unit :=
  place_order (limit_order_create2_owner o) (limit_order_create2_orderid o) (limit_order_create2_amount_to_sell o)
    (Ok (limit_order_create2_exchange_rate o))
    (limit_order_create2_fill_or_kill o) (limit_order_create2_expiration o).

(** [limit_order_cancel_evaluator::do_apply] *)
Definition limit_order_cancel_evaluator (o : limit_order_cancel_operation) : M unit :=
  k ← order_key (limit_order_cancel_owner o) (limit_order_cancel_orderid o);
  get_limit_order (limit_order_cancel_owner o) (limit_order_cancel_orderid o) ;;
  cancel_order k.

(** ** Expiration *)

(** Index [by_expiration]; orders of the same time in order of creation *)
Definition by_expiration (x y : limit_order_object) : comparison :=
  cmp_then (Z.compare (limit_order_expiration x) (limit_order_expiration y))
    (Z.compare (limit_order_id x) (limit_order_id y)).
Definition order_expired (now : Z) (o : limit_order_object) : bool := limit_order_expiration o <? now.

(** [clear_expired_orders]; each turn removes an order. *)
Definition clear_expired_orders : M unit :=
  fuel ← gets (fun db => S (size (rows (limit_orders db))));
  drain fuel (fun db => first_due (order_expired (dgp_time (dgp db))) by_expiration (limit_orders db))
    cancel_order.

End Market.

(** ** Conservation *)

Section Conserved.
Context `{F : fc_ops} {L : fc_laws F}.
Variable sym : Z.
#[local] Abbreviation gap := (gap sym).

Lemma adjust_liquidity_reward_run owner volume is_sbd db u db' :
  adjust_liquidity_reward owner volume is_sbd db = Ok (u, db') ->
  exists t, db' = db <| liquidity_balances := t |>.
Proof.
  unfold adjust_liquidity_reward. intros H. inv_run.
  - apply modify_run in H as (? & ? & _ & _ & ->). eauto.
  - apply create_run in H as (_ & ->). eauto.
Qed.

Lemma reward_liquidity_run n o c x y db u db' :
  reward_liquidity n o c x y db = Ok (u, db') -> exists t, db' = db <| liquidity_balances := t |>.
Proof.
  unfold reward_liquidity. intros H. inv_run.
  - repeat match goal with H : adjust_liquidity_reward _ _ _ _ = Ok _ |- _ =>
      apply adjust_liquidity_reward_run in H as (? & ->) end. eexists. reflexivity.
  - exists (liquidity_balances db). by destruct db.
Qed.

Lemma reward_liquidity_gap n o c x y db u db' :
  reward_liquidity n o c x y db = Ok (u, db') -> gap db' = gap db /\ limit_orders db' = limit_orders db.
Proof. by intros (t & ->)%reward_liquidity_run. Qed.

Lemma cancel_order_gap k db u db' : cancel_order k db = Ok (u, db') -> gap db' = gap db.
Proof. unfold cancel_order, get_order. intros H. gap_solve sym. Qed.

(** A fill takes what the order pays out of the book and credits what it receives. *)
Lemma fill_order_gap k pays receives db r db' :
  fill_order k pays receives db = Ok (r, db') ->
  gap db' = gap db + amount_in sym pays - amount_in sym receives.
Proof.
  unfold fill_order, get_order. intros H.
  inv_run; try (match goal with H : cancel_order _ _ = Ok _ |- _ => apply cancel_order_gap in H end); gap_solve sym;
    unfold order_holdings, amount_for_sale, amount_in in *; cbn in *; bool_to_prop.
  - apply asset_eqb_Ok in E as [_ E]. symmetry in E. bool_to_prop. cbn in E.
    rewrite E1, E in *. destruct (symbol pays =? sym); lia.
  - apply safe_sub_Ok in Hrun1. rewrite E1 in *. destruct (symbol pays =? sym); lia.
  - match goal with H : safe_sub _ _ = Ok _ |- _ => apply safe_sub_Ok in H end.
    rewrite E1 in *. destruct (symbol pays =? sym); lia.
Qed.

Lemma match_orders_gap n o db r db' : match_orders n o db = Ok (r, db') -> gap db' = gap db.
Proof.
  unfold match_orders, get_order. intros H. inv_run.
  destruct x1 as [pays receives]. inv_run.
  repeat match goal with
  | H : fill_order _ _ _ _ = Ok _ |- _ => apply fill_order_gap in H
  | H : reward_liquidity _ _ _ _ _ _ = Ok _ |- _ => apply reward_liquidity_gap in H as [H _]
  end. gap_solve sym.
Qed.

Lemma match_all_gap n old db u db' : match_all n old db = Ok (u, db') -> gap db' = gap db.
Proof.
  revert db. induction old as [| k old IH]; intros db H; cbn in H; inv_run; try done.
  - by eapply match_orders_gap.
  - apply IH in H. apply match_orders_gap in Hrun. lia.
Qed.

Lemma apply_order_gap n db r db' : apply_order n db = Ok (r, db') -> gap db' = gap db.
Proof. unfold apply_order, get_order. intros H. inv_run. by eapply match_all_gap. Qed.

Lemma place_order_gap owner id sell p kill expires db u db' :
  (forall pr, p = Ok pr -> symbol (base pr) = symbol sell) ->
  place_order owner id sell p kill expires db = Ok (u, db') -> gap db' = gap db.
Proof.
  intros Hp H. unfold place_order, throw_if_exists_limit_order, order_key in H.
  inv_run; match goal with H : apply_order _ _ = Ok _ |- _ => apply apply_order_gap in H end;
  gap_solve sym; specialize (Hp _ eq_refl); amounts sym;
  unfold order_holdings, amount_for_sale, amount_in in *; cbn in *; rewrite Hp in *;
  destruct (symbol sell =? sym); lia.
Qed.

Lemma limit_order_create_gap o db u db' :
  limit_order_create_evaluator o db = Ok (u, db') -> gap db' = gap db.
Proof.
  unfold limit_order_create_evaluator. apply place_order_gap. unfold asset_div. intros pr H. by inv_ok.
Qed.

Lemma limit_order_create2_gap o db u db' :
  limit_order_create2_operation_validate o = Ok tt ->
  limit_order_create2_evaluator o db = Ok (u, db') -> gap db' = gap db.
Proof.
  intros Hv. unfold limit_order_create2_evaluator. apply place_order_gap. intros pr [= <-].
  unfold limit_order_create2_operation_validate in Hv. inv_ok. bool_to_prop. congruence.
Qed.

Lemma limit_order_cancel_gap o db u db' :
  limit_order_cancel_evaluator o db = Ok (u, db') -> gap db' = gap db.
Proof.
  unfold limit_order_cancel_evaluator, order_key, get_limit_order. intros H.
  inv_run; unfold order_key in *; inv_run; by eapply cancel_order_gap.
Qed.

Lemma clear_expired_orders_gap db u db' : clear_expired_orders db = Ok (u, db') -> gap db' = gap db.
Proof.
  unfold clear_expired_orders. intros H. inv_run. revert H. apply drain_gap.
  intros k db1 u1 db2 _. apply cancel_order_gap.
Qed.
End Conserved.

(** ** The book *)

Section Book.
Context `{F : fc_ops} {L : fc_laws F}.

(** The order after it paid [n]. *)
Definition paid (n : Z) (o : limit_order_object) : limit_order_object :=
  o <| limit_order_for_sale := limit_order_for_sale o - n |>.

Lemma cancel_order_rows k db u db' :
  cancel_order k db = Ok (u, db') -> rows (limit_orders db') = delete k (rows (limit_orders db)) /\
  dgp_time (dgp db') = dgp_time (dgp db).
Proof.
  unfold cancel_order, get_order. intros H. inv_run. apply adjust_balance_frame in Hrun1.
  apply remove_run in H as (? & _ & ->). cbn.
  by rewrite (frame_limit_orders _ _ Hrun1), (frame_time _ _ Hrun1).
Qed.

(** A filled order is gone; the other keeps what it did not pay.  An order that pays
    all it has for sale is filled. *)
Lemma fill_order_rows k pays receives db r db' :
  fill_order k pays receives db = Ok (r, db') ->
  exists o, rows (limit_orders db) !! k = Some o /\
    rows (limit_orders db') =
      (if r then delete k (rows (limit_orders db))
       else <[k := paid (amount pays) o]> (rows (limit_orders db))) /\
    (amount pays = limit_order_for_sale o -> r = true).
Proof.
  unfold fill_order, get_order. intros H. inv_run; exists x; split; try done;
    match goal with H : adjust_balance _ _ _ = Ok _ |- _ => apply adjust_balance_frame, frame_limit_orders in H end;
    match goal with H : asset_eqb _ _ = Ok _ |- _ => apply asset_eqb_Ok in H as [_ Hall] end; symmetry in Hall; cbn in Hall.
  - apply remove_run in Hrun as (? & _ & ->). cbn. by rewrite Hrun3.
  - match goal with H : cancel_order _ _ = Ok _ |- _ => apply cancel_order_rows in H as [Hc _] end.
    split; [|done]. apply modify_run in Hrun as (v & v' & Hv & Hf & ->). cbn in Hc.
    by rewrite Hc, delete_insert_eq, Hrun3.
  - bool_to_prop. split; [|done]. apply modify_run in Hrun as (v & v' & Hv & Hf & ->). inv_ok.
    rewrite Hrun3 in Hv. simplify_eq. cbn. rewrite Hrun3. f_equal.
    match goal with H : safe_sub _ _ = Ok _ |- _ => apply safe_sub_Ok in H end. by subst.
Qed.

Lemma match_amounts_Ok new_for_sale old_for_sale p pays receives :
  match_amounts new_for_sale old_for_sale p = Ok (pays, receives) ->
  exists old_value, asset_mul_price old_for_sale p = Ok old_value /\ symbol new_for_sale = symbol old_value /\
    ((pays = new_for_sale /\ amount new_for_sale <= amount old_value /\
      asset_mul_price new_for_sale p = Ok receives) \/
     (receives = old_for_sale /\ pays = old_value /\ amount old_value < amount new_for_sale)).
Proof.
  unfold match_amounts. intros H. inv_ok. exists a.
  apply asset_leb_Ok in Hrun0 as [Hs ->]. split_and!; [done | done |].
  destruct (Z.leb_spec (amount new_for_sale) (amount a)); inv_ok; auto.
Qed.

(** One of the two orders of a match is gone afterwards (the [assert]s at the end of
    [match]), and no other order is touched. *)
Lemma match_orders_rows n k db a b db' :
  n <> k -> match_orders n k db = Ok ((a, b), db') ->
  (a || b)%bool = true /\
  (rows (limit_orders db') !! n = None <-> a = true) /\
  (rows (limit_orders db') !! k = None <-> b = true) /\
  forall k', k' <> n -> k' <> k -> rows (limit_orders db') !! k' = rows (limit_orders db) !! k'.
Proof.
  intros Hnk H. unfold match_orders, get_order in H. inv_run.
  destruct x1 as [pays receives]. inv_run. simplify_eq.
  match goal with H : reward_liquidity _ _ _ _ _ _ = Ok _ |- _ => apply reward_liquidity_run in H as (t & ->) end.
  match goal with H : push_virtual_operation _ _ _ = Ok _ |- _ => apply push_virtual_operation_frame, frame_limit_orders in H as Hv end.
  cbn in Hv.
  match goal with H : fill_order n _ _ _ = Ok _ |- _ => apply fill_order_rows in H as (on & Hon & Hrn & Hfn) end.
  match goal with H : fill_order k _ _ _ = Ok _ |- _ => apply fill_order_rows in H as (ok & Hok & Hrk & Hfk) end.
  rewrite Hv in *. simplify_eq.
  assert (ok = x0) as -> by (rewrite Hrn in Hok; destruct x3;
    rewrite ?lookup_delete_ne, ?lookup_insert_ne in Hok by done; congruence).
  split_and!.
  - apply match_amounts_Ok in E as (v & _ & _ & [(-> & _ & _) | (-> & _ & _)]); cbn in *.
    + by rewrite Hfn.
    + rewrite Hfk by done. apply orb_true_r.
  - rewrite Hrk. destruct x4; rewrite ?lookup_delete_ne, ?lookup_insert_ne by done; rewrite Hrn;
      destruct x3; rewrite ?lookup_delete_eq, ?lookup_insert_eq; split; done.
  - rewrite Hrk. destruct x4; rewrite ?lookup_delete_eq, ?lookup_insert_eq; split; done.
  - intros k' Hn Hk. rewrite Hrk. destruct x4; rewrite ?lookup_delete_ne, ?lookup_insert_ne by done;
      rewrite Hrn; destruct x3; rewrite ?lookup_delete_ne, ?lookup_insert_ne by done; done.
Qed.

(** Orders leave the book and are not replaced while matching; when the new order is
    still there at the end, all it was matched with are gone. *)
Lemma match_all_rows n old db u db' :
  n ∉ old -> match_all n old db = Ok (u, db') ->
  (forall k, k <> n -> k ∉ old -> rows (limit_orders db') !! k = rows (limit_orders db) !! k) /\
  (is_Some (rows (limit_orders db') !! n) -> forall k, k ∈ old -> rows (limit_orders db') !! k = None).
Proof.
  revert db. induction old as [| k old IH]; intros db Hn H; cbn in H.
  - inv_run. split; [done|]. intros _ k Hk. by apply elem_of_nil in Hk.
  - apply not_elem_of_cons in Hn as [Hnk Hn]. inv_run; destruct x as [a b].
    + apply match_orders_rows in Hrun as (_ & Ha & _ & Hother); [|done]. cbn in *. split.
      * intros k' Hk' [Hne _]%not_elem_of_cons. by apply Hother.
      * intros [o Ho]. rewrite (proj2 Ha) in Ho by done. discriminate.
    + apply match_orders_rows in Hrun as (Hab & _ & Hb & Hother); [|done]. cbn in *. subst a.
      apply IH in H as [Hrest Hgone]; [|done]. split.
      * intros k' Hk' [Hne Hin]%not_elem_of_cons. rewrite Hrest by done. by apply Hother.
      * intros Hsome k' Hk'. destruct (decide (k' ∈ old)) as [Hin | Hnin]; [by apply Hgone|].
        apply elem_of_cons in Hk' as [-> | Hk']; [|done].
        rewrite Hrest by (done || congruence). by apply Hb.
Qed.

Lemma elem_of_price_range max min db k :
  k ∈ price_range max min db <->
  exists o, rows (limit_orders db) !! k = Some o /\ in_price_range max min o = true.
Proof.
  unfold price_range. rewrite list_elem_of_fmap. split.
  - intros ([k' o] & -> & Hin). rewrite sort_by_perm, list_elem_of_filter, elem_of_map_to_list in Hin.
    destruct Hin as [Hr%Is_true_true Ho]. cbn in *. eauto.
  - intros (o & Ho & Hr). exists (k, o). split; [done|].
    rewrite sort_by_perm, list_elem_of_filter, elem_of_map_to_list. split; [by apply Is_true_true | done].
Qed.

(** The owner of an order with price [p] gives [base p] for [quote p].  Two orders
    cross when each sells what the other wants and what the second asks for a unit is
    no more than what the first offers for it. *)
Definition crosses (p q : price) : Prop :=
  symbol (base q) = symbol (quote p) /\ symbol (quote q) = symbol (base p) /\
  amount (quote p) * amount (quote q) <= amount (base p) * amount (base q).

(** A price as the evaluators accept it. *)
Definition order_price (p : price) : Prop :=
  positive_price p /\ amount (base p) <= STEEMIT_MAX_SHARE_SUPPLY.

Lemma price_leb_key p q :
  positive_price p -> positive_price q ->
  price_leb p q = true <->
  price_key_lt p q \/ symbol (base p) = symbol (base q) /\ symbol (quote p) = symbol (quote q) /\
    amount (base p) * amount (quote q) = amount (base q) * amount (quote p).
Proof.
  intros Hp Hq. unfold price_leb. rewrite orb_true_iff, price_eqb_key, price_ltb_key by done. tauto.
Qed.

Lemma in_price_range_crosses p max o :
  order_price p -> order_price (limit_order_sell_price o) ->
  price_max (symbol (base (price_invert p))) (symbol (quote (price_invert p))) = Ok max ->
  in_price_range max (price_invert p) o = true <-> crosses p (limit_order_sell_price o).
Proof.
  intros [Hp Hpm] [Hq Hqm] Hmax. unfold price_max, asset_div in Hmax. inv_ok.
  set (q := limit_order_sell_price o) in *. unfold in_price_range. fold q.
  unfold price_gtb. rewrite !negb_involutive, andb_true_iff, !price_leb_key.
  2, 3, 4, 5: unfold positive_price in *; cbn; try lia; unfold STEEMIT_MAX_SHARE_SUPPLY; lia.
  unfold price_key_lt, crosses, positive_price, STEEMIT_MAX_SHARE_SUPPLY in *. cbn. nia.
Qed.

(** C23: after a new order was applied, it is reported as filled exactly when it left
    the book; if it stayed, every order that is left was there before, unchanged, and
    none of them crosses it: the matching loop has gone through all that do. *)
Theorem apply_order_uncrosses n new filled db db' :
  map_Forall (fun _ o => order_price (limit_order_sell_price o)) (rows (limit_orders db)) ->
  rows (limit_orders db) !! n = Some new ->
  apply_order n db = Ok (filled, db') ->
  (filled = true <-> rows (limit_orders db') !! n = None) /\
  (filled = false -> forall k o, k <> n -> rows (limit_orders db') !! k = Some o ->
     rows (limit_orders db) !! k = Some o /\
     ~ crosses (limit_order_sell_price new) (limit_order_sell_price o)).
Proof.
  intros Hprices Hnew H. unfold apply_order, get_order in H. inv_run. simplify_eq.
  assert (Hrange : forall k o, rows (limit_orders db) !! k = Some o ->
    k ∈ price_range x0 (price_invert (limit_order_sell_price new)) db <->
    crosses (limit_order_sell_price new) (limit_order_sell_price o)).
  { intros k o Ho. rewrite elem_of_price_range. rewrite <- (in_price_range_crosses _ x0); [| | |done].
    - split; [intros (o' & Ho' & Hr); by simplify_eq | eauto].
    - by apply (Hprices n).
    - by apply (Hprices k). }
  assert (Hself : n ∉ price_range x0 (price_invert (limit_order_sell_price new)) db).
  { rewrite (Hrange n new) by done. intros (Hs & _). unfold price_max, asset_div in E. inv_ok.
    apply negb_true_iff, String.eqb_neq in Hrun1. apply Hrun1.
    unfold symbol_name in *. cbn in *. congruence. }
  match goal with H : match_all _ _ _ = Ok _ |- _ => apply match_all_rows in H as [Hrest Hgone]; [|done] end.
  destruct (rows (limit_orders db3) !! n) as [left|] eqn:El; (split; [by split |]); [|done].
  intros _ k o Hk Ho.
  assert (Hout : k ∉ price_range x0 (price_invert (limit_order_sell_price new)) db).
  { intros Hin. rewrite (Hgone ltac:(eauto) k Hin) in Ho. discriminate. }
  rewrite Hrest in Ho by done. split; [done|]. by rewrite <- (Hrange k o).
Qed.

(** The result of a product with the price at which an order sells. *)
Lemma mul_div_value (a num den sym : Z) r :
  0 <= a < 2 ^ 63 -> 0 < num < 2 ^ 63 -> 0 < den < 2 ^ 63 -> a * num / den < 2 ^ 63 ->
  mul_div a num den sym = Ok r -> amount r = a * num / den.
Proof.
  intros Ha Hn Hd Hfit. rewrite mul_div_spec by lia. replace (_ <? 2 ^ 64) with true by lia.
  intros [= <-]. cbn. apply safe_of_uint64_law, is_int64_spec.
  split; [|done]. transitivity 0; [lia|]. apply Z.div_pos; nia.
Qed.

(** C33: in a trade at the price of the order in the book neither order pays more than
    it has for sale, the two payments agree with that price up to one unit lost to
    rounding, and the rounding is always in favour of the party that is not filled
    completely: with [base p] the asset of the old order and [quote p] that of the
    new one. *)
Theorem match_amounts_fair new_for_sale old_for_sale p pays receives bn qn :
  valid_price p bn qn ->
  symbol_name old_for_sale = Ok bn -> symbol_name new_for_sale = Ok qn ->
  0 <= amount new_for_sale < 2 ^ 63 -> 0 <= amount old_for_sale < 2 ^ 63 ->
  amount old_for_sale * amount (quote p) / amount (base p) < 2 ^ 63 ->
  match_amounts new_for_sale old_for_sale p = Ok (pays, receives) ->
  0 <= amount pays <= amount new_for_sale /\ 0 <= amount receives <= amount old_for_sale /\
  ((amount pays = amount new_for_sale /\
    amount receives * amount (quote p) <= amount pays * amount (base p) <
      (amount receives + 1) * amount (quote p)) \/
   (amount receives = amount old_for_sale /\
    amount pays * amount (base p) <= amount receives * amount (quote p) <
      (amount pays + 1) * amount (base p))).
Proof.
  intros (Hb & Hq & Ebn & Eqn & Hne) En Eo Bn Bo Hfit H.
  apply match_amounts_Ok in H as (v & Hv & _ & Hcase).
  rewrite (asset_mul_price_base old_for_sale p bn) in Hv by done.
  apply mul_div_value in Hv; [|lia..].
  pose proof (Z.div_mod (amount old_for_sale * amount (quote p)) (amount (base p)) ltac:(lia)) as E1.
  pose proof (Z.mod_pos_bound (amount old_for_sale * amount (quote p)) (amount (base p)) ltac:(lia)) as B1.
  rewrite <- Hv in E1. clear Hfit.
  destruct Hcase as [(-> & Hle & Hr) | (-> & -> & Hlt)].
  - rewrite (asset_mul_price_quote new_for_sale p qn bn) in Hr by congruence.
    assert (Hr' : amount new_for_sale * amount (base p) / amount (quote p) <= amount old_for_sale)
      by (apply Z.div_le_upper_bound; nia).
    apply mul_div_value in Hr; [|lia..].
    pose proof (Z.div_mod (amount new_for_sale * amount (base p)) (amount (quote p)) ltac:(lia)) as E2.
    pose proof (Z.mod_pos_bound (amount new_for_sale * amount (base p)) (amount (quote p)) ltac:(lia)) as B2.
    rewrite <- Hr in *. split; [lia|]. split; [nia|]. left. split; [done | nia].
  - split; [nia|]. split; [lia|]. right. split; [done | nia].
Qed.

(** when the block step [clear_expired_orders] returns, exactly the orders whose
    expiration lies before the time of the block are gone. *)
Theorem clear_expired_orders_spec db db' :
  clear_expired_orders db = Ok (tt, db') ->
  rows (limit_orders db') =
    filter (fun ko => dgp_time (dgp db) <= limit_order_expiration (snd ko)) (rows (limit_orders db)).
Proof.
  unfold clear_expired_orders. intros H. inv_run.
  apply (drain_table_spec limit_orders order_expired by_expiration cancel_order) in H as [-> _];
    [|apply cancel_order_rows | lia].
  apply map_filter_ext. intros k o _. cbn. unfold order_expired. by rewrite Z.ltb_ge.
Qed.
End Book.

(** Witnesses: bob bids 30.000 GBG for 60.000 GOLOS, alice sells 80.000 GOLOS at half
    a GBG each; her order takes all of his and keeps 20.000 GOLOS. *)
Definition sample_bid : limit_order_object := {|
  limit_order_id := 1; limit_order_created := sample_time; limit_order_expiration := sample_time + 10;
  limit_order_seller := "bob"; limit_order_orderid := 1; limit_order_for_sale := 30000;
  limit_order_sell_price := mk_price (mk_asset 30000 SBD_SYMBOL) (mk_asset 60000 STEEM_SYMBOL) |}.
Definition sample_ask : limit_order_object := {|
  limit_order_id := 2; limit_order_created := sample_time; limit_order_expiration := sample_time + 20;
  limit_order_seller := "alice"; limit_order_orderid := 5; limit_order_for_sale := 80000;
  limit_order_sell_price := mk_price (mk_asset 80000 STEEM_SYMBOL) (mk_asset 40000 SBD_SYMBOL) |}.
Definition sample_book : database :=
  sample_database <| limit_orders := mk_table
    (<[("alice", 5) := sample_ask]> (<[("bob", 1) := sample_bid]> ∅)) 3 |>.

Lemma apply_order_uncrosses_witness :
  let db' := run_state (apply_order (F := fc_ref) ("alice", 5)) sample_book in
  rows (limit_orders db') !! ("bob", 1) = None.
Proof.
  intros db'. destruct (rows (limit_orders db') !! ("bob", 1)) as [o|] eqn:E; [|reflexivity].
  assert (Hprices : map_Forall (fun _ o => order_price (limit_order_sell_price o)) (rows (limit_orders sample_book))).
  { repeat apply map_Forall_insert_2; [..|apply map_Forall_empty];
      vm_compute; repeat split; congruence. }
  destruct (apply_order_uncrosses (F := fc_ref) ("alice", 5) sample_ask false sample_book db' Hprices)
    as [_ Hleft]; [vm_compute; reflexivity | run_now |].
  destruct (Hleft eq_refl ("bob", 1) o ltac:(discriminate) E) as [Ho Hcross].
  vm_compute in Ho. injection Ho as <-. destruct Hcross. vm_compute. repeat split; congruence.
Defined.

Lemma match_amounts_fair_witness :
  exists pays receives,
    match_amounts (F := fc_ref) (mk_asset 10 STEEM_SYMBOL) (mk_asset 30000 SBD_SYMBOL)
      (mk_price (mk_asset 3 SBD_SYMBOL) (mk_asset 7 STEEM_SYMBOL)) = Ok (pays, receives) /\
    amount receives * 7 <= amount pays * 3 < (amount receives + 1) * 7.
Proof.
  exists (mk_asset 10 STEEM_SYMBOL), (mk_asset 4 SBD_SYMBOL). split; [vm_compute; reflexivity|].
  destruct (match_amounts_fair (F := fc_ref) (mk_asset 10 STEEM_SYMBOL) (mk_asset 30000 SBD_SYMBOL)
    (mk_price (mk_asset 3 SBD_SYMBOL) (mk_asset 7 STEEM_SYMBOL)) (mk_asset 10 STEEM_SYMBOL)
    (mk_asset 4 SBD_SYMBOL) "GBG" "GOLOS") as (_ & _ & [[_ H] | [H _]]);
    [vm_compute; repeat split; congruence.. | exact H | discriminate H].
Defined.

Lemma clear_expired_orders_spec_witness :
  let db := sample_book <| dgp ::= (fun p => p <| dgp_time := sample_time + 15 |>) |> in
  let db' := run_state (clear_expired_orders (F := fc_ref)) db in
  rows (limit_orders db') !! ("bob", 1) = None /\ rows (limit_orders db') !! ("alice", 5) = Some sample_ask.
Proof.
  intros db db'. rewrite (clear_expired_orders_spec (F := fc_ref) db db') by run_now.
  split; vm_compute; reflexivity.
Defined.
