(* ===== verification/Conversion.v ===== *)
(** * Conversion of GBG to GOLOS

    The evaluator of [convert_operation] and the block step [process_conversions]
    that pays the requests whose delay is over at the median price. *)

From S2P Require Import Prelude Exceptions Text Fc Config Asset FlatMap Authority Operations Objects Database Conservation Sample.

Section Conversion.
Context `{F : fc_ops}.

(** [feed_publish_evaluator::do_apply] *)
Definition feed_publish_evaluator (o : feed_publish_operation) : M unit :=
  get_witness (feed_publish_publisher o) ;;
  now ← head_block_time;
  modify witnesses (feed_publish_publisher o) (fun w =>
    Ok (w <| witness_sbd_exchange_rate := feed_publish_exchange_rate o |>
          <| witness_last_sbd_exchange_update := now |>)).

(** [convert_evaluator::do_apply] *)
Definition convert_evaluator (o : convert_operation) : M unit :=
  let owner := convert_owner o in
  check_account_exists owner ;;
  check_balance owner MAIN_BALANCE (convert_amount o) ;;
  neg ← lift (asset_neg (convert_amount o));
  adjust_balance owner neg ;;
  mp ← median_price;
  check_logic_m (negb (price_is_null mp)) no_price_feed_yet ;;
  hf16 ← has_hardfork STEEMIT_HARDFORK_0_16__551;
  throw_if_exists convert_requests "convert_request" (owner, convert_requestid o) ;;
  now ← head_block_time;
  create convert_requests (owner, convert_requestid o) (fun id => {|
    convert_request_id := id;
    convert_request_owner := owner;
    convert_request_requestid := convert_requestid o;
    convert_request_amount := convert_amount o;
    convert_request_conversion_date :=
      time_add now (if (hf16 : bool) then STEEMIT_CONVERSION_DELAY else STEEMIT_CONVERSION_DELAY_PRE_HF_16) |}).

(** Index [by_conversion_date] *)
Definition by_conversion_date (x y : convert_request_object) : comparison :=
  cmp_then (Z.compare (convert_request_conversion_date x) (convert_request_conversion_date y))
    (Z.compare (convert_request_id x) (convert_request_id y)).
Definition conversion_due (now : Z) (r : convert_request_object) : bool :=
  convert_request_conversion_date r <=? now.

(** One turn of the loop of [process_conversions]; the locals are [net_sbd] and
    [net_steem]. *)
Definition convert_request (k : string * Z) (net : asset * asset) : M (asset * asset) :=
  r ← get_row convert_requests "convert_request" k;
  user ← get_account (convert_request_owner r);
  mp ← median_price;
  amount_to_issue ← lift (asset_mul_price (convert_request_amount r) mp);
  adjust_balance (convert_request_owner r) amount_to_issue ;;
  net_sbd ← lift (asset_add (fst net) (convert_request_amount r));
  net_steem ← lift (asset_add (snd net) amount_to_issue);
  push_virtual_operation (op_fill_convert_request
    (mk_fill_convert_request (account_name user) (convert_request_requestid r)
       (convert_request_amount r) amount_to_issue)) false ;;
  remove convert_requests k ;;
  mret (net_sbd, net_steem).

(** [process_conversions]; each turn removes a request. *)
Definition process_conversions : M unit :=
  mp ← median_price;
  if price_is_null mp then mret tt
  else
    fuel ← gets (fun db => S (size (rows (convert_requests db))));
    net ← drain_with fuel
      (fun db => first_due (conversion_due (dgp_time (dgp db))) by_conversion_date (convert_requests db))
      convert_request (mk_asset 0 SBD_SYMBOL, mk_asset 0 STEEM_SYMBOL);
    let '(net_sbd, net_steem) := (net : asset * asset) in
    mp ← median_price;
    modify_dgp (fun p =>
      c ← asset_add (dgp_current_supply p) net_steem;
      s ← asset_sub (dgp_current_sbd_supply p) net_sbd;
      v ← asset_add (dgp_virtual_supply p) net_steem;
      value ← asset_mul_price net_sbd mp;
      v ← asset_sub v value;
      Ok (p <| dgp_current_supply := c |> <| dgp_current_sbd_supply := s |> <| dgp_virtual_supply := v |>)).

End Conversion.

Section Facts.
Context `{F : fc_ops} {L : fc_laws F}.

Lemma convert_gap sym o db u db' : convert_evaluator o db = Ok (u, db') -> gap sym db' = gap sym db.
Proof. unfold convert_evaluator. intros H. gap_solve sym. Qed.

(** A turn keeps the gap, corrected by what the locals say is still to be booked. *)
Lemma convert_request_gap sym k net db net' db' :
  convert_request k net db = Ok (net', db') ->
  gap sym db' - amount_in sym (fst net') + amount_in sym (snd net') =
  gap sym db - amount_in sym (fst net) + amount_in sym (snd net).
Proof. unfold convert_request. intros H. gap_solve sym. Qed.

Lemma convert_request_rows k net db net' db' :
  convert_request k net db = Ok (net', db') ->
  rows (convert_requests db') = delete k (rows (convert_requests db)) /\
  dgp_time (dgp db') = dgp_time (dgp db).
Proof.
  unfold convert_request. intros H. inv_run.
  match goal with H : remove convert_requests _ ?d = Ok _ |- _ =>
    assert (frame db d) as Hf by frame_solve; apply remove_run in H as (? & ? & ->) end.
  cbn. by rewrite (frame_convert_requests _ _ Hf), (frame_time _ _ Hf).
Qed.

Lemma process_conversions_gap sym db u db' : process_conversions db = Ok (u, db') -> gap sym db' = gap sym db.
Proof.
  intros H. unfold process_conversions in H. inv_run; [done|].
  match goal with H : drain_with _ _ _ _ _ = Ok (?n, _) |- _ =>
    destruct n as [net_sbd net_steem]; rename H into Hloop end.
  inv_run. apply (drain_with_invariant _ _ _ _ (fun net d =>
    gap sym d - amount_in sym (fst net) + amount_in sym (snd net) = gap sym db)) in Hloop.
  - gap_solve sym.
  - intros k s1 d1 s2 d2 HP Hb. apply (convert_request_gap sym) in Hb. lia.
  - cbn. rewrite !amount_in_zero. lia.
Qed.

(** when there is a median price and the block step [process_conversions]
    returns, exactly the requests whose conversion date has come are gone, and in every
    symbol the difference between supply and holdings is unchanged: what the loop paid
    out and took in is what is booked in the supplies afterwards. *)
Theorem process_conversions_spec db db' :
  price_is_null (feed_current_median_history (feed_history db)) = false ->
  process_conversions db = Ok (tt, db') ->
  rows (convert_requests db') =
    filter (fun kr => dgp_time (dgp db) < convert_request_conversion_date (snd kr)) (rows (convert_requests db)) /\
  forall sym, gap sym db' = gap sym db.
Proof.
  intros Hprice H. split; [|intros sym; by eapply process_conversions_gap].
  unfold process_conversions in H. inv_run; [congruence|].
  match goal with H : drain_with _ _ _ _ _ = Ok (?n, _) |- _ =>
    destruct n as [net_sbd net_steem]; rename H into Hloop end.
  inv_run. apply drain_with_table_spec in Hloop as [Hrows _]; [|apply convert_request_rows | lia].
  apply on_table_run in H as (p & _ & ->). cbn. rewrite Hrows.
  apply map_filter_ext. intros k r _. cbn. unfold conversion_due. by rewrite Z.leb_gt.
Qed.
End Facts.

Definition sample_conversion (id date : Z) : convert_request_object := {|
  convert_request_id := id; convert_request_owner := "bob"; convert_request_requestid := id;
  convert_request_amount := mk_asset 10000 SBD_SYMBOL; convert_request_conversion_date := date |}.
Definition sample_conversion_database : database :=
  sample_database <| convert_requests := mk_table
    (<[("bob", 1) := sample_conversion 1 sample_time]>
    (<[("bob", 2) := sample_conversion 2 (sample_time + 5)]> ∅)) 3 |>.

Lemma process_conversions_spec_witness :
  let db' := run_state (process_conversions (F := fc_ref)) sample_conversion_database in
  rows (convert_requests db') !! ("bob", 1) = None /\
  rows (convert_requests db') !! ("bob", 2) = Some (sample_conversion 2 (sample_time + 5)).
Proof.
  intros db'.
  destruct (process_conversions_spec (F := fc_ref) sample_conversion_database db') as [Hrows _];
    [vm_compute; reflexivity | run_now |].
  rewrite Hrows. split; vm_compute; reflexivity.
Defined.
