(* ===== verification/Preserve.v ===== *)
(** * Relations that database code preserves

    [preserves R m]: whenever [m] returns, the database it leaves is related by [R] to
    the database it started from.  For a preorder [R] this is compositional; the tactic
    [preserve] takes code apart and leaves the changes of tables, for which each
    relation has its own lemmas in the hint database [preserves]. *)

From S2P Require Import Prelude Exceptions Text Fc Config Asset FlatMap Authority Operations Objects Database Conservation.

Definition preserves {A : Type} (R : database -> database -> Prop) (m : M A) : Prop :=
  forall db a db', m db = Ok (a, db') -> R db db'.

Create HintDb preserves.

Section Preserves.
Context (R : database -> database -> Prop) `{!PreOrder R}.

Lemma preserves_bind {A B : Type} (m : M A) (f : A -> M B) :
  preserves R m -> (forall a, preserves R (f a)) -> preserves R (m ≫= f).
Proof. intros Hm Hf db b db' (a & db1 & H1 & H2)%bind_run. etrans; [by eapply Hm | by eapply Hf]. Qed.
Lemma preserves_mret {A : Type} (a : A) : preserves R (mret a : M A).
Proof. by intros db a' db' [_ ->]%mret_run. Qed.
Lemma preserves_lift {A : Type} (r : result A) : preserves R (lift r).
Proof. by intros db a' db' [_ ->]%lift_run. Qed.
Lemma preserves_gets {A : Type} (f : database -> A) : preserves R (gets f).
Proof. by intros db a' db' [_ ->]%gets_run. Qed.
Lemma preserves_throw {A : Type} e : preserves R (throw e : M A).
Proof. by intros db a' db' []%throw_run. Qed.
Lemma preserves_get_row {K V : Type} `{Countable K} (proj : database -> table K V) kind k :
  preserves R (get_row proj kind k).
Proof. by intros db a' db' [_ ->]%get_row_run. Qed.
Lemma preserves_account_by_id id : preserves R (get_account_by_id id).
Proof. intros db a' db'. unfold get_account_by_id. destruct (table_find_by _ _) as [[? ?]|]; [by intros [= _ <-] | done]. Qed.
Lemma preserves_witness_by_id id : preserves R (get_witness_by_id id).
Proof. intros db a' db'. unfold get_witness_by_id. destruct (table_find_by _ _) as [[? ?]|]; [by intros [= _ <-] | done]. Qed.
Lemma preserves_op_param {A : Type} p (m : M A) : preserves R m -> preserves R (check_op_param p m).
Proof. intros Hm db a' db' H%check_op_param_run. by eapply Hm. Qed.

Lemma preserves_for_each {A : Type} (f : A -> M unit) l : (forall x, preserves R (f x)) -> preserves R (for_each f l).
Proof. intros Hf. induction l as [| x l IH]; cbn; [apply preserves_mret | by apply preserves_bind]. Qed.
Lemma preserves_fold_each {A S : Type} (f : A -> S -> M S) l s :
  (forall x s, preserves R (f x s)) -> preserves R (fold_each f l s).
Proof. intros Hf. revert s. induction l as [| x l IH]; intros s; cbn; [apply preserves_mret | by apply preserves_bind]. Qed.
Lemma preserves_drain {K : Type} n next (body : K -> M unit) :
  (forall k, preserves R (body k)) -> preserves R (drain n next body).
Proof.
  intros Hf. induction n as [| n IH]; cbn; [apply preserves_mret|].
  apply preserves_bind; [apply preserves_gets|]. intros [k|]; [by apply preserves_bind | apply preserves_mret].
Qed.
Lemma preserves_drain_with {K S : Type} n next (body : K -> S -> M S) s :
  (forall k s, preserves R (body k s)) -> preserves R (drain_with n next body s).
Proof.
  intros Hf. revert s. induction n as [| n IH]; intros s; cbn; [apply preserves_mret|].
  apply preserves_bind; [apply preserves_gets|]. intros [k|]; [by apply preserves_bind | apply preserves_mret].
Qed.
End Preserves.

(** A rule of composition, for the preorder at hand *)
Ltac compose rule := apply rule; lazymatch goal with |- PreOrder _ => apply _ | _ => idtac end.

(** Takes code apart; what is left are changes of tables and composed functions that
    [preserves] has no lemma for. *)
Ltac preserve_step :=
  match goal with
  | |- preserves _ (@mbind _ _ _ _ _ _) => compose preserves_bind; intros
  | |- preserves _ (@mret _ _ _ _) => compose preserves_mret
  | |- preserves _ (lift _) => compose preserves_lift
  | |- preserves _ (gets _) => compose preserves_gets
  | |- preserves _ (throw _) => compose preserves_throw
  | |- preserves _ (get_row _ _ _) => compose preserves_get_row
  | |- preserves _ (get_account_by_id _) => compose preserves_account_by_id
  | |- preserves _ (get_witness_by_id _) => compose preserves_witness_by_id
  | |- preserves _ (check_op_param _ _) => compose preserves_op_param
  | |- preserves _ (for_each _ _) => compose preserves_for_each; intros
  | |- preserves _ (fold_each _ _ _) => compose preserves_fold_each; intros
  | |- preserves _ (drain _ _ _) => compose preserves_drain; intros
  | |- preserves _ (drain_with _ _ _ _) => compose preserves_drain_with; intros
  | |- preserves _ (when ?c _) => unfold when
  | |- preserves _ (if ?c then _ else _) => destruct c
  | |- preserves _ (match ?o with _ => _ end) => destruct o
  | |- preserves _ (let _ := _ in _) => intros ?; cbv zeta
  | |- preserves _ (get_account _) => unfold get_account
  | |- preserves _ (get_witness _) => unfold get_witness
  | |- preserves _ (get_authority _) => unfold get_authority
  | |- preserves _ (get_escrow _ _) => unfold get_escrow
  | |- preserves _ (get_savings_withdraw _ _) => unfold get_savings_withdraw
  | |- preserves _ (find_row _ _) => unfold find_row
  | |- preserves _ (check_logic_m _ _) => unfold check_logic_m
  | |- preserves _ (has_hardfork _) => unfold has_hardfork
  | |- preserves _ (head_block_time) => unfold head_block_time
  | |- preserves _ (head_block_num) => unfold head_block_num
  | |- preserves _ (median_price) => unfold median_price
  | |- preserves _ (check_account_exists _) => unfold check_account_exists
  | |- preserves _ (assert_req_hf _) => unfold assert_req_hf
  | |- preserves _ (throw_if_exists _ _ _) => unfold throw_if_exists
  | |- preserves _ (check_balance _ _ _) => unfold check_balance
  | |- preserves _ (order_key _ _) => unfold order_key
  end.
Ltac preserve := repeat first [solve [auto with preserves] | preserve_step]; try solve [auto with preserves].
