(* ===== verification/Vesting.v ===== *)
(** * Withdrawal of vesting shares

    Starting and stopping a withdrawal, the routes a withdrawal is divided by
    ([steem_evaluator.cpp]) and the block step that pays the weekly instalments
    ([database::process_vesting_withdrawals]). *)

From S2P Require Import Prelude Exceptions Text Fc Config Asset FlatMap Authority Operations Validate Objects Database Conservation Sample Preserve.

Section Vesting.
Context `{F : fc_ops}.

(** An asset with another amount. *)
Definition with_amount (n : Z) (a : asset) : asset := mk_asset n (symbol a).
(** [a.vesting_shares.amount += delta] *)
Definition add_vests (delta : Z) (a : account_object) : result account_object :=
  n ← safe_add (amount (account_vesting_shares a)) delta;
  Ok (a <| account_vesting_shares ::= with_amount n |>).

(** ** Evaluators *)

(** [withdraw_vesting_evaluator::do_apply] *)
Definition withdraw_vesting_evaluator (o : withdraw_vesting_operation) : M unit :=
  let name := withdraw_vesting_account o in
  let shares := withdraw_vesting_vesting_shares o in
  account ← get_account name;
  check_balance name VESTING (mk_asset 0 VESTS_SYMBOL) ;;
  check_balance name HAVING_VESTING shares ;;
  hf1 ← has_hardfork STEEMIT_HARDFORK_0_1;
  when (negb (account_mined account) && hf1)
    (props ← gets dgp;
     fee ← gets (fun db => account_creation_fee (base_17 (base_18 (wso_median_props (wso db)))));
     min_vests ← lift (asset_mul_price fee (get_vesting_share_price props));
     hf16 ← has_hardfork STEEMIT_HARDFORK_0_16__562;
     check_logic_m ((amount (account_vesting_shares account) >? to_int64_wrap (amount min_vests * 10)) ||
                    (hf16 && (amount shares =? 0)))
       insufficient_fee_for_powerdown_registered_account) ;;
  producing ← gets is_producing;
  hf5 ← has_hardfork STEEMIT_HARDFORK_0_5__57;
  if amount shares =? 0 then
    when (producing || hf5)
      (check_logic_m (negb (amount (account_vesting_withdraw_rate account) =? 0))
         operation_would_not_change_vesting_withdraw_rate) ;;
    modify accounts name (fun a =>
      Ok (a <| account_vesting_withdraw_rate := mk_asset 0 VESTS_SYMBOL |>
            <| account_next_vesting_withdrawal := time_point_sec_maximum |>
            <| account_to_withdraw := 0 |> <| account_withdrawn := 0 |>))
  else
    hf16 ← has_hardfork STEEMIT_HARDFORK_0_16__551;
    now ← head_block_time;
    let intervals := if (hf16 : bool) then STEEMIT_VESTING_WITHDRAW_INTERVALS
                     else STEEMIT_VESTING_WITHDRAW_INTERVALS_PRE_HF_16 in
    modify accounts name (fun a =>
      q ← safe_div (amount shares) intervals;
      let rate := mk_asset (if q =? 0 then 1 else q) VESTS_SYMBOL in
      (if (producing : bool) || hf5 then
         changes ← asset_neb (account_vesting_withdraw_rate a) rate;
         check_logic changes operation_would_not_change_vesting_withdraw_rate
       else Ok tt) ;;
      Ok (a <| account_vesting_withdraw_rate := rate |>
            <| account_next_vesting_withdrawal := time_add now STEEMIT_VESTING_WITHDRAW_INTERVAL_SECONDS |>
            <| account_to_withdraw := amount shares |> <| account_withdrawn := 0 |>)).

(** The routes from [upper_bound((from, account_id_type()))] of index
    [by_withdraw_route] on, as long as they are routes of [from]: a route to the
    account with id 0 is not among them. *)
Definition routes_of (from : Z) (db : database) : list withdraw_vesting_route_object :=
  sort_by (fun r r' => route_to_account r <=? route_to_account r')
    (filter (fun r => route_from_account r = from /\ 0 < route_to_account r)
       (map_to_list (rows (vesting_routes db))).*2).
Definition total_percent (routes : list withdraw_vesting_route_object) : Z :=
  foldr (fun r acc => route_percent r + acc) 0 routes.

(** [withdraw_routes] is a [uint16_t]. *)
Definition add_withdraw_routes (n : Z) (a : account_object) : result account_object :=
  Ok (a <| account_withdraw_routes ::= (fun c => to_uint16_wrap (c + n)) |>).

(** [set_withdraw_vesting_route_evaluator::do_apply] *)
Definition set_withdraw_vesting_route_evaluator (o : set_withdraw_vesting_route_operation) : M unit :=
  let from := set_withdraw_vesting_route_from_account o in
  let percent := set_withdraw_vesting_route_percent o in
  let auto_vest := set_withdraw_vesting_route_auto_vest o in
  from_account ← get_account from;
  to_account ← get_account (set_withdraw_vesting_route_to_account o);
  let k := (account_id from_account, account_id to_account) in
  itr ← find_row vesting_routes k;
  match itr with
  | None =>
      check_logic_m (negb (percent =? 0)) cannot_create_zero_percent_destination ;;
      check_logic_m (account_withdraw_routes from_account <? STEEMIT_MAX_WITHDRAW_ROUTES)
        reached_maxumum_number_of_routes ;;
      create vesting_routes k (fun id => {|
        route_id := id;
        route_from_account := account_id from_account;
        route_to_account := account_id to_account;
        route_percent := percent;
        route_auto_vest := auto_vest |}) ;;
      modify accounts from (add_withdraw_routes 1)
  | Some _ =>
      if percent =? 0 then
        remove vesting_routes k ;;
        modify accounts from (add_withdraw_routes (-1))
      else
        modify vesting_routes k (fun r =>
          Ok (r <| route_from_account := account_id from_account |>
                <| route_to_account := account_id to_account |>
                <| route_percent := percent |> <| route_auto_vest := auto_vest |>))
  end ;;
  routes ← gets (routes_of (account_id from_account));
  check_logic_m (total_percent routes <=? STEEMIT_100_PERCENT) more_100percent_allocated_to_destinations.

(** ** Reset, for account recovery *)

(** [stop_withdraw] *)
Definition stop_withdraw (name : string) : M unit :=
  modify accounts name (fun a =>
    Ok (a <| account_vesting_withdraw_rate ::= with_amount 0 |>
          <| account_next_vesting_withdrawal := time_point_sec_maximum |>
          <| account_withdrawn := 0 |> <| account_to_withdraw := 0 |>)).

(** The routes from [upper_bound(from)] on: the key is the prefix [from], so its upper
    bound lies behind all routes of [from]. *)
Definition routes_after (from : Z) (db : database) : list ((Z * Z) * withdraw_vesting_route_object) :=
  sort_by (fun r r' =>
      match cmp_then (Z.compare (route_from_account (snd r)) (route_from_account (snd r')))
              (Z.compare (route_to_account (snd r)) (route_to_account (snd r'))) with
      | Gt => false | _ => true end)
    (filter (fun r => from < route_from_account (snd r)) (map_to_list (rows (vesting_routes db)))).
Fixpoint remove_routes_while (from : Z) (l : list ((Z * Z) * withdraw_vesting_route_object)) : M unit :=
  match l with
  | [] => mret tt
  | (k, r) :: l' =>
      if route_from_account r =? from then remove vesting_routes k ;; remove_routes_while from l'
      else mret tt
  end.

(** [remove_vesting_routes] *)
Definition remove_vesting_routes (name : string) : M unit :=
  a ← get_account name;
  l ← gets (routes_after (account_id a));
  remove_routes_while (account_id a) l.

(** [reset_vesting_withdraw] *)
Definition reset_vesting_withdraw (name : string) : M unit :=
  stop_withdraw name ;; remove_vesting_routes name.

(** ** The weekly instalments *)

(** The number of shares to withdraw now *)
Definition withdrawal_amount (a : account_object) : result Z :=
  let rate := amount (account_vesting_withdraw_rate a) in
  remaining ← safe_sub (account_to_withdraw a) (account_withdrawn a);
  w ← (if remaining <? rate then
         r ← safe_mod (account_to_withdraw a) rate;
         Ok (Z.min (amount (account_vesting_shares a)) r)
       else Ok (Z.min (amount (account_vesting_shares a)) rate));
  Ok (if w <? 0 then 0 else w).

(** The share of a route *)
Definition route_deposit (to_withdraw : Z) (r : withdraw_vesting_route_object) : result Z :=
  q ← u128_div (u128_mul (u128_of_int64 to_withdraw) (route_percent r)) STEEMIT_100_PERCENT;
  n ← u128_to_uint64 q;
  Ok (safe_of_uint64 n).

Definition push_fill_vesting_withdraw (from to : string) (withdrawn deposited : asset) : M unit :=
  push_virtual_operation (op_fill_vesting_withdraw (mk_fill_vesting_withdraw from to withdrawn deposited)) false.

(** First pass: the routes that deposit vesting shares; the local is
    [vests_deposited_as_vests] *)
Definition deposit_as_vests (from : string) (to_withdraw : Z) (r : withdraw_vesting_route_object)
    (deposited : Z) : M Z :=
  if route_auto_vest r then
    to_deposit ← lift (route_deposit to_withdraw r);
    deposited' ← lift (safe_add deposited to_deposit);
    when (to_deposit >? 0)
      (to ← get_account_by_id (route_to_account r);
       modify accounts to (add_vests to_deposit) ;;
       adjust_proxied_witness_votes to to_deposit ;;
       push_fill_vesting_withdraw from to (mk_asset to_deposit VESTS_SYMBOL) (mk_asset to_deposit VESTS_SYMBOL)) ;;
    mret deposited'
  else mret deposited.

(** Second pass: the routes that deposit GOLOS; the locals are
    [vests_deposited_as_steem] and [total_steem_converted] *)
Definition deposit_as_steem (from : string) (to_withdraw : Z) (r : withdraw_vesting_route_object)
    (deposited : Z * asset) : M (Z * asset) :=
  if negb (route_auto_vest r) then
    to ← get_account_by_id (route_to_account r);
    to_deposit ← lift (route_deposit to_withdraw r);
    vests ← lift (safe_add (fst deposited) to_deposit);
    props ← gets dgp;
    converted ← lift (asset_mul_price (mk_asset to_deposit VESTS_SYMBOL) (get_vesting_share_price props));
    total ← lift (asset_add (snd deposited) converted);
    when (to_deposit >? 0)
      (modify accounts to (fun a =>
         b ← asset_add (account_balance a) converted; Ok (a <| account_balance := b |>)) ;;
       modify_dgp (fun p =>
         f ← asset_sub (dgp_total_vesting_fund_steem p) converted;
         s ← safe_sub (amount (dgp_total_vesting_shares p)) to_deposit;
         Ok (p <| dgp_total_vesting_fund_steem := f |> <| dgp_total_vesting_shares ::= with_amount s |>)) ;;
       push_fill_vesting_withdraw from to (mk_asset to_deposit VESTS_SYMBOL) converted) ;;
    mret (vests, total)
  else mret deposited.

(** What the instalment does to the account that withdraws *)
Definition settle_withdrawal (hf19 : bool) (to_withdraw : Z) (converted : asset) (a : account_object)
    : result account_object :=
  v ← safe_sub (amount (account_vesting_shares a)) to_withdraw;
  b ← asset_add (account_balance a) converted;
  w ← safe_add (account_withdrawn a) to_withdraw;
  let a := a <| account_vesting_shares ::= with_amount v |> <| account_balance := b |>
             <| account_withdrawn := w |> in
  Ok (if (w >=? account_to_withdraw a) || (v =? 0) then
        let a := a <| account_vesting_withdraw_rate ::= with_amount 0 |>
                   <| account_next_vesting_withdrawal := time_point_sec_maximum |> in
        if hf19 then a <| account_withdrawn := 0 |> <| account_to_withdraw := 0 |> else a
      else a <| account_next_vesting_withdrawal ::=
                  (fun t => time_add t STEEMIT_VESTING_WITHDRAW_INTERVAL_SECONDS) |>).

(** One turn of the loop of [process_vesting_withdrawals] *)
Definition process_withdrawal (from : string) : M unit :=
  a ← get_account from;
  to_withdraw ← lift (withdrawal_amount a);
  routes ← gets (routes_of (account_id a));
  as_vests ← fold_each (deposit_as_vests (account_name a) to_withdraw) routes 0;
  as_steem ← fold_each (deposit_as_steem (account_name a) to_withdraw) routes (0, mk_asset 0 STEEM_SYMBOL);
  rest ← lift (safe_sub to_withdraw (fst (as_steem : Z * asset)));
  rest ← lift (safe_sub rest as_vests);
  let to_convert := if rest <? 0 then 0 else rest in
  props ← gets dgp;
  converted ← lift (asset_mul_price (mk_asset to_convert VESTS_SYMBOL) (get_vesting_share_price props));
  hf19 ← has_hardfork STEEMIT_HARDFORK_0_19__971;
  modify accounts from (settle_withdrawal hf19 to_withdraw converted) ;;
  modify_dgp (fun p =>
    f ← asset_sub (dgp_total_vesting_fund_steem p) converted;
    s ← safe_sub (amount (dgp_total_vesting_shares p)) to_convert;
    Ok (p <| dgp_total_vesting_fund_steem := f |> <| dgp_total_vesting_shares ::= with_amount s |>)) ;;
  when (to_withdraw >? 0)
    (neg ← lift (safe_neg to_withdraw);
     adjust_proxied_witness_votes from neg ;;
     push_fill_vesting_withdraw (account_name a) (account_name a) (mk_asset to_withdraw VESTS_SYMBOL) converted).

(** Index [by_next_vesting_withdrawal] *)
Definition by_next_vesting_withdrawal (x y : account_object) : comparison :=
  cmp_then (Z.compare (account_next_vesting_withdrawal x) (account_next_vesting_withdrawal y))
    (Z.compare (account_id x) (account_id y)).
Definition first_account (db : database) : option string :=
  first_due (fun _ => true) by_next_vesting_withdrawal (accounts db).
Definition next_account (a : account_object) (db : database) : option string :=
  first_due (fun b => match by_next_vesting_withdrawal a b with Lt => true | _ => false end)
    by_next_vesting_withdrawal (accounts db).

(** The loop: the iterator is advanced before the account is handled, so an account
    that is due again is met again only if the iterator has not passed its new place *)
Fixpoint withdrawal_loop (fuel : nat) (current : option string) : M unit :=
  match fuel, current with
  | S n, Some name =>
      a ← get_account name;
      now ← head_block_time;
      if account_next_vesting_withdrawal a <=? now then
        next ← gets (next_account a);
        process_withdrawal name ;;
        withdrawal_loop n next
      else mret tt
  | _, _ => mret tt
  end.

(** The number of instalments that are due: an upper bound of the turns *)
Definition instalments_due (now : Z) (a : account_object) : Z :=
  if account_next_vesting_withdrawal a <=? now
  then (now - account_next_vesting_withdrawal a) / STEEMIT_VESTING_WITHDRAW_INTERVAL_SECONDS + 1 else 0.

(** [process_vesting_withdrawals] *)
Definition process_vesting_withdrawals : M unit :=
  fuel ← gets (fun db => S (Z.to_nat (msum (instalments_due (dgp_time (dgp db))) (rows (accounts db)))));
  current ← gets first_account;
  withdrawal_loop fuel current.

End Vesting.

(** ** Conservation *)

(** The vesting shares of an account keep their symbol and stay in 64 bits. *)
Definition keeps_vests (a a' : account_object) : Prop :=
  symbol (account_vesting_shares a') = symbol (account_vesting_shares a) /\
  (is_int64 (amount (account_vesting_shares a)) = true -> is_int64 (amount (account_vesting_shares a')) = true).
#[export] Instance keeps_vests_preorder : PreOrder keeps_vests.
Proof. split; [done|]. unfold keeps_vests. intros x y z [E1 H1] [E2 H2]. split; [congruence | auto]. Qed.

Definition vests_ok (a : account_object) : Prop :=
  symbol (account_vesting_shares a) = VESTS_SYMBOL /\ is_int64 (amount (account_vesting_shares a)) = true.

#[export] Instance vests_ok_dec a : Decision (vests_ok a).
Proof. unfold vests_ok. apply _. Defined.

(** What the withdrawals rely on: vesting shares are counted in GESTS, and no account
    has routed more than all of its withdrawals. *)
Definition vests_wf (db : database) : Prop :=
  map_Forall (fun _ a => vests_ok a) (rows (accounts db)) /\ symbol (dgp_total_vesting_shares (dgp db)) = VESTS_SYMBOL.
Definition routes_ok (routes : list withdraw_vesting_route_object) : Prop :=
  Forall (fun r => 0 <= route_percent r <= STEEMIT_100_PERCENT) routes /\ total_percent routes <= STEEMIT_100_PERCENT.
Definition routes_wf (db : database) : Prop := forall from, routes_ok (routes_of from db).

Lemma vests_wf_rel db db' :
  accounts_rel keeps_vests db db' ->
  symbol (dgp_total_vesting_shares (dgp db')) = symbol (dgp_total_vesting_shares (dgp db)) ->
  vests_wf db -> vests_wf db'.
Proof.
  intros Hrel Hs [Hacc Htot]. split; [|congruence]. intros k a' Ha'. specialize (Hrel k). rewrite Ha' in Hrel.
  inversion Hrel as [a ? [E H] Ea |]; subst. symmetry in Ea. destruct (Hacc k a Ea) as [? ?]. split; [congruence | auto].
Qed.

Section Conserved.
Context `{F : fc_ops} {L : fc_laws F}.
Variable sym : Z.
#[local] Abbreviation gap := (gap sym).
#[local] Abbreviation vests n := (amount_in sym (mk_asset n VESTS_SYMBOL)).

(** The share of a route, rounded down. *)
Definition share (w : Z) (r : withdraw_vesting_route_object) : Z := w * route_percent r / STEEMIT_100_PERCENT.
Definition shares (w : Z) (routes : list withdraw_vesting_route_object) : Z :=
  foldr (fun r acc => share w r + acc) 0 routes.

Lemma route_deposit_Ok w r :
  0 <= w < 2 ^ 63 -> 0 <= route_percent r <= STEEMIT_100_PERCENT -> route_deposit w r = Ok (share w r).
Proof.
  unfold STEEMIT_100_PERCENT, share. intros Hw Hp. unfold route_deposit, STEEMIT_100_PERCENT.
  rewrite u128_of_int64_law, (Z.mod_small w) by lia. rewrite u128_mul_law, Z.mod_small by nia.
  rewrite u128_div_law by nia. cbn [mbind result_bind].
  assert (0 <= w * route_percent r / 10000 <= w).
  { split; [apply Z.div_pos; nia | apply Z.div_le_upper_bound; nia]. }
  rewrite u128_to_uint64_law by lia. replace (_ <? 2 ^ 64) with true by lia. cbn [mbind result_bind].
  rewrite safe_of_uint64_law; [done|]. rewrite is_int64_spec. lia.
Qed.

(** The shares of routes for at most 100% add up to at most the whole. *)
Lemma shares_bound w routes : 0 <= w -> routes_ok routes -> 0 <= shares w routes <= w.
Proof.
  intros Hw [Hrange Htot]. unfold STEEMIT_100_PERCENT in *.
  assert (0 <= shares w routes /\ 10000 * shares w routes <= w * total_percent routes) as [H1 H2].
  { clear Htot. induction Hrange as [| r l Hr Hl [IH1 IH2]]; cbn [shares foldr total_percent]; [lia|].
    change (foldr (fun r acc => share w r + acc) 0 l) with (shares w l).
    change (foldr (fun r acc => route_percent r + acc) 0 l) with (total_percent l).
    unfold share, STEEMIT_100_PERCENT in *.
    pose proof (Z.div_pos (w * route_percent r) 10000 ltac:(nia) ltac:(lia)).
    pose proof (Z.mul_div_le (w * route_percent r) 10000 ltac:(lia)). lia. }
  nia.
Qed.

Lemma withdrawal_amount_range a w :
  is_int64 (amount (account_vesting_shares a)) = true -> withdrawal_amount a = Ok w -> 0 <= w < 2 ^ 63.
Proof.
  rewrite is_int64_spec. unfold withdrawal_amount. intros Hv H. inv_ok.
  assert (a1 <= amount (account_vesting_shares a)) by (destruct (_ <? amount _); inv_ok; lia).
  destruct (Z.ltb_spec a1 0); lia.
Qed.

Lemma vests_add x y : vests (x + y) = vests x + vests y.
Proof. unfold amount_in. cbn. destruct (_ =? sym); lia. Qed.
Lemma vests_sub x y : vests (x - y) = vests x - vests y.
Proof. unfold amount_in. cbn. destruct (_ =? sym); lia. Qed.

Lemma add_vests_Ok n a a' :
  add_vests n a = Ok a' ->
  is_int64 (amount (account_vesting_shares a) + n) = true /\
  a' = a <| account_vesting_shares := mk_asset (amount (account_vesting_shares a) + n) (symbol (account_vesting_shares a)) |>.
Proof.
  unfold add_vests. rewrite safe_add_law. intros H. by inv_ok.
Qed.

Lemma get_account_by_id_run id db name db' :
  get_account_by_id id db = Ok (name, db') -> db' = db.
Proof. unfold get_account_by_id. destruct (table_find_by _ _) as [[k a]|]; [by intros [= <- <-] | done]. Qed.

(** A pass over a route changes the accounts and the gap by its share. *)
Record pass_ok (n : Z) (db db' : database) : Prop := mk_pass_ok {
  pass_gap : gap db' = gap db - vests n;
  pass_rel : accounts_rel keeps_vests db db';
  pass_total : symbol (dgp_total_vesting_shares (dgp db')) = symbol (dgp_total_vesting_shares (dgp db));
  pass_frame : frame db db'
}.

Lemma pass_ok_refl db : pass_ok 0 db db.
Proof. split; try done. rewrite amount_in_zero. lia. Qed.
Lemma pass_ok_trans n m db1 db2 db3 : pass_ok n db1 db2 -> pass_ok m db2 db3 -> pass_ok (n + m) db1 db3.
Proof.
  intros [G1 R1 T1 F1] [G2 R2 T2 F2]. split; [rewrite vests_add; lia | by etrans | congruence | by etrans].
Qed.

Lemma add_vests_pass k n db u db' :
  vests_wf db -> modify accounts k (add_vests n) db = Ok (u, db') -> pass_ok n db db'.
Proof.
  intros [Hwf _] H. pose proof H as Hfr. apply modify_accounts_frame in Hfr.
  pose proof H as Hrel. apply (modify_accounts_rel keeps_vests) in Hrel.
  2: { intros a a' [Hn ->]%add_vests_Ok. by split. }
  apply (modify_accounts_gap sym) in H as (v & v' & Hv & Hf & Hdgp & _ & Hgap).
  split; [|done | by rewrite Hdgp | done]. apply add_vests_Ok in Hf as [_ ->].
  destruct (Hwf k v Hv) as [Hs _]. rewrite Hgap. unfold account_holdings, amount_in. cbn. rewrite Hs.
  destruct (VESTS_SYMBOL =? sym); lia.
Qed.

Lemma adjust_proxied_pass k name n db u db' :
  adjust_proxied_witness_votes_at k name n db = Ok (u, db') -> pass_ok 0 db db'.
Proof.
  intros H. split.
  - rewrite amount_in_zero. apply (adjust_proxied_witness_votes_gap sym) in H. lia.
  - eapply (adjust_proxied_witness_votes_rel keeps_vests); [|exact H]. by split.
  - by rewrite (adjust_proxied_witness_votes_dgp _ _ _ _ _ _ H).
  - by eapply adjust_proxied_witness_votes_frame.
Qed.

Lemma push_pass op force db u db' : push_virtual_operation op force db = Ok (u, db') -> pass_ok 0 db db'.
Proof.
  intros (n & l & ->)%push_virtual_operation_run. split; try done.
  - rewrite amount_in_zero. change (gap db = gap db - 0). lia.
  - apply (accounts_rel_same keeps_vests). reflexivity.
Qed.

Lemma deposit_as_vests_ok from w r n db n' db' :
  0 <= w < 2 ^ 63 -> 0 <= route_percent r <= STEEMIT_100_PERCENT -> vests_wf db ->
  deposit_as_vests from w r n db = Ok (n', db') ->
  n' = n + (if route_auto_vest r then share w r else 0) /\ pass_ok (n' - n) db db'.
Proof.
  intros Hw Hp Hwf H. unfold deposit_as_vests, push_fill_vesting_withdraw, adjust_proxied_witness_votes in H.
  rewrite route_deposit_Ok in H by done. inv_run; inv_ok.
  all: repeat match goal with H : safe_add _ _ = Ok _ |- _ => apply safe_add_Ok in H; subst end.
  - split; [done|]. apply get_account_by_id_run in Hrun as ->.
    apply add_vests_pass in Hrun0; [|done]. apply push_pass in Hrun1. apply adjust_proxied_pass in Hrun2.
    replace (n + share w r - n) with (share w r + 0 + 0) by lia. eauto using pass_ok_trans.
  - split; [done|]. assert (share w r = 0) as ->.
    { bool_to_prop. unfold share in *.
      pose proof (Z.div_pos (w * route_percent r) STEEMIT_100_PERCENT ltac:(nia) ltac:(done)). lia. }
    replace (n + 0 - n) with 0 by lia. apply pass_ok_refl.
  - split; [lia|]. replace (n - n) with 0 by lia. apply pass_ok_refl.
Qed.

(** The fund pays [converted] for [n] vesting shares that leave the total. *)
Lemma fund_pays converted n db u db' :
  symbol (dgp_total_vesting_shares (dgp db)) = VESTS_SYMBOL ->
  modify_dgp (fun p =>
    f ← asset_sub (dgp_total_vesting_fund_steem p) converted;
    s ← safe_sub (amount (dgp_total_vesting_shares p)) n;
    Ok (p <| dgp_total_vesting_fund_steem := f |> <| dgp_total_vesting_shares ::= with_amount s |>)) db = Ok (u, db') ->
  gap db' = gap db + amount_in sym converted - vests n /\ accounts db' = accounts db /\
  symbol (dgp_total_vesting_shares (dgp db')) = symbol (dgp_total_vesting_shares (dgp db)) /\ frame db db'.
Proof.
  intros Hs H. assert (Hf : frame db db') by frame_solve.
  apply (modify_dgp_gap sym) in H as (p & Hp & <- & Hacc & Hgap). inv_ok.
  split_and!; [|done | by rewrite <- Hp | done].
  apply (amount_in_sub sym) in Hrun. apply safe_sub_Ok in Hrun0.
  rewrite Hgap. unfold supply_of, fund_holdings. rewrite <- Hp. cbn. rewrite Hrun.
  unfold with_amount, amount_in. cbn. rewrite Hs. destruct (VESTS_SYMBOL =? sym); lia.
Qed.

(** A credit to the balance *)
Lemma credit_balance converted k db u db' :
  modify accounts k (fun a => b ← asset_add (account_balance a) converted; Ok (a <| account_balance := b |>)) db
    = Ok (u, db') ->
  gap db' = gap db - amount_in sym converted /\ accounts_rel keeps_vests db db' /\ dgp db' = dgp db /\ frame db db'.
Proof.
  intros H. assert (Hf : frame db db') by (by eapply modify_accounts_frame).
  assert (Hrel : accounts_rel keeps_vests db db').
  { apply (modify_accounts_rel keeps_vests) in H; [exact H|]. intros a a' Ha. cbn beta in Ha. inv_ok. by split. }
  apply (modify_accounts_gap sym) in H as (v & v' & _ & Hv' & Hdgp & _ & Hgap). inv_ok.
  split_and!; [gap_arith sym | done | done | done].
Qed.

Lemma deposit_as_steem_ok from w r d db d' db' :
  0 <= w < 2 ^ 63 -> 0 <= route_percent r <= STEEMIT_100_PERCENT -> vests_wf db ->
  deposit_as_steem from w r d db = Ok (d', db') ->
  fst d' = fst d + (if route_auto_vest r then 0 else share w r) /\ pass_ok (fst d' - fst d) db db'.
Proof.
  intros Hw Hp Hwf H. unfold deposit_as_steem, push_fill_vesting_withdraw in H.
  rewrite route_deposit_Ok in H by done. inv_run; inv_ok.
  all: repeat match goal with H : safe_add _ _ = Ok _ |- _ => apply safe_add_Ok in H; subst end.
  all: try (apply get_account_by_id_run in Hrun as ->); bool_to_prop; cbn [fst].
  - rewrite Heqb. split; [done|]. replace (d.1 + share w r - d.1) with (share w r + 0) by lia.
    apply credit_balance in Hrun0 as (G0 & R0 & D0 & F0).
    apply fund_pays in Hrun1 as (G1 & A1 & T1 & F1); [|rewrite D0; apply Hwf].
    apply push_pass in Hrun5. refine (pass_ok_trans _ _ _ _ _ _ Hrun5). split; [lia | | congruence | by etrans].
    etrans; [exact R0 | by apply (accounts_rel_same keeps_vests)].
  - rewrite Heqb. split; [done|]. assert (share w r = 0) as ->.
    { unfold share in *.
      pose proof (Z.div_pos (w * route_percent r) STEEMIT_100_PERCENT ltac:(nia) ltac:(done)). lia. }
    replace (d.1 + 0 - d.1) with 0 by lia. apply pass_ok_refl.
  - rewrite Heqb. split; [lia|]. replace (d.1 - d.1) with 0 by lia. apply pass_ok_refl.
Qed.

(** A whole pass over the routes *)
Lemma fold_pass {St : Type} (f : withdraw_vesting_route_object -> St -> M St) (deposited : St -> Z)
    (sh : withdraw_vesting_route_object -> Z) routes s db s' db' :
  (forall r s1 db1 s2 db2, 0 <= route_percent r <= STEEMIT_100_PERCENT -> vests_wf db1 ->
     f r s1 db1 = Ok (s2, db2) -> deposited s2 = deposited s1 + sh r /\ pass_ok (deposited s2 - deposited s1) db1 db2) ->
  Forall (fun r => 0 <= route_percent r <= STEEMIT_100_PERCENT) routes -> vests_wf db ->
  fold_each f routes s db = Ok (s', db') ->
  deposited s' = deposited s + foldr (fun r acc => sh r + acc) 0 routes /\
  pass_ok (deposited s' - deposited s) db db'.
Proof.
  intros Hf. revert s db. induction routes as [| r l IH]; intros s db Hr Hwf H; cbn in H; inv_run.
  - split; [cbn; lia|]. replace (deposited s - deposited s) with 0 by lia. apply pass_ok_refl.
  - apply Forall_cons in Hr as [Hr Hl]. apply Hf in Hrun as [Hd1 P1]; [|done|done].
    apply IH in H as [Hd2 P2]; [|done|]. 2: { destruct P1 as [_ Hrel Ht _]. by eapply vests_wf_rel. }
    split; [cbn; lia|]. replace (deposited s' - deposited s) with
      (deposited x - deposited s + (deposited s' - deposited x)) by lia. by eapply pass_ok_trans.
Qed.

(** The instalment of [w] vesting shares leaves the account. *)
Lemma settle_withdrawal_gap hf19 w converted k db u db' :
  vests_wf db -> modify accounts k (settle_withdrawal hf19 w converted) db = Ok (u, db') ->
  gap db' = gap db + vests w - amount_in sym converted /\ accounts_rel keeps_vests db db' /\
  dgp db' = dgp db /\ frame db db'.
Proof.
  intros [Hwf _] H. assert (Hf : frame db db') by (by eapply modify_accounts_frame).
  assert (Hrel : accounts_rel keeps_vests db db').
  { apply (modify_accounts_rel keeps_vests) in H; [exact H|]. unfold settle_withdrawal.
    intros a a' Ha. inv_ok. rewrite safe_sub_law in Hrun. inv_ok.
    destruct (_ || _), hf19; by split. }
  apply (modify_accounts_gap sym) in H as (v & v' & Hv & Hv' & Hdgp & _ & Hgap).
  split_and!; [|done | done | done]. destruct (Hwf k v Hv) as [Hs _]. unfold settle_withdrawal in Hv'. inv_ok.
  apply safe_sub_Ok in Hrun. apply (amount_in_add sym) in Hrun0. subst. rewrite Hgap. clear Hgap.
  destruct (_ || _), hf19; unfold account_holdings, with_amount; cbn; rewrite Hrun0, Hs;
    unfold amount_in; cbn; rewrite ?Hs; destruct (VESTS_SYMBOL =? sym); lia.
Qed.

(** The routes are settled for their shares, and the shares are all there is. *)
Lemma shares_split w routes :
  foldr (fun r acc => (if route_auto_vest r then share w r else 0) + acc) 0 routes +
  foldr (fun r acc => (if route_auto_vest r then 0 else share w r) + acc) 0 routes = shares w routes.
Proof.
  induction routes as [| r l IH]; cbn; [done|]. change (foldr (fun r acc => share w r + acc) 0 l) with (shares w l).
  destruct (route_auto_vest r); lia.
Qed.

(** Between the routes and the votes: the account is settled and the fund pays the rest. *)
Lemma settle_and_pay_pass hf19 w n converted k db u1 db1 u2 db2 :
  vests_wf db -> modify accounts k (settle_withdrawal hf19 w converted) db = Ok (u1, db1) ->
  modify_dgp (fun p =>
    f ← asset_sub (dgp_total_vesting_fund_steem p) converted;
    s ← safe_sub (amount (dgp_total_vesting_shares p)) n;
    Ok (p <| dgp_total_vesting_fund_steem := f |> <| dgp_total_vesting_shares ::= with_amount s |>)) db1 = Ok (u2, db2) ->
  pass_ok (n - w) db db2.
Proof.
  intros Hwf H1 H2. apply settle_withdrawal_gap in H1 as (G1 & R1 & D1 & F1); [|done].
  apply fund_pays in H2 as (G2 & A2 & T2 & F2); [|rewrite D1; apply Hwf].
  split; [rewrite vests_sub; lia | | congruence | by etrans].
  etrans; [exact R1 | by apply (accounts_rel_same keeps_vests)].
Qed.

Lemma pass_ok_wf n db db' : pass_ok n db db' -> vests_wf db -> vests_wf db'.
Proof. intros [_ Hrel Ht _]. by apply vests_wf_rel. Qed.

(** One instalment: what the routes and the account receive is what leaves the
    account, and what is paid in GOLOS comes out of the vesting fund. *)
Lemma process_withdrawal_pass from db u db' :
  vests_wf db -> routes_wf db -> process_withdrawal from db = Ok (u, db') -> pass_ok 0 db db'.
Proof.
  intros Hwf Hroutes H. unfold process_withdrawal, push_fill_vesting_withdraw, adjust_proxied_witness_votes in H.
  inv_run.
  all: match goal with H : withdrawal_amount _ = Ok _ |- _ => apply withdrawal_amount_range in H; [|by eapply Hwf] end.
  all: destruct (Hroutes (account_id x)) as [Hrange Htot].
  all: pose proof (shares_bound x0 _ ltac:(lia) (conj Hrange Htot)) as Hle.
  all: eapply (fold_pass _ id) in Hrun2 as [Hd1 P1]; [|intros *; by apply deposit_as_vests_ok | done | done].
  all: eapply (fold_pass _ fst) in Hrun3 as [Hd2 P2];
    [|intros *; by apply deposit_as_steem_ok | done | by eapply pass_ok_wf].
  all: rewrite <- shares_split in Hle; cbn [id fst] in Hd1, Hd2, P1, P2.
  all: repeat match goal with H : safe_sub _ _ = Ok _ |- _ => apply safe_sub_Ok in H; subst end.
  all: eapply settle_and_pay_pass in Hrun9; [| |exact Hrun10]; [|by eapply pass_ok_wf; [|eapply pass_ok_wf]].
  all: pose proof (pass_ok_trans _ _ _ _ _ P1 (pass_ok_trans _ _ _ _ _ P2 Hrun9)) as P.
  all: match type of P with pass_ok ?n _ _ => replace n with 0 in P by (unfold id in *; destruct (_ <? 0) eqn:?; lia) end.
  - apply push_pass in H. apply adjust_proxied_pass in Hrun0.
    exact (pass_ok_trans _ _ _ _ _ P (pass_ok_trans _ _ _ _ _ Hrun0 H)).
  - exact P.
Qed.
End Conserved.

(** ** The schedule of withdrawals *)

Section Schedule.
Context `{F : fc_ops} {L : fc_laws F}.

#[local] Abbreviation WEEK := STEEMIT_VESTING_WITHDRAW_INTERVAL_SECONDS.

Definition keeps_schedule (a a' : account_object) : Prop :=
  account_id a' = account_id a /\ account_next_vesting_withdrawal a' = account_next_vesting_withdrawal a.
#[export] Instance keeps_schedule_preorder : PreOrder keeps_schedule.
Proof. split; [done|]. unfold keeps_schedule. intros x y z [? ?] [? ?]. split; congruence. Qed.

(** An instalment ends the withdrawal or puts the next one off by a week. *)
Definition rescheduled (a a' : account_object) : Prop :=
  account_id a' = account_id a /\
  (account_next_vesting_withdrawal a' = time_point_sec_maximum \/
   account_next_vesting_withdrawal a' = time_add (account_next_vesting_withdrawal a) WEEK).

Lemma push_accounts op force db u db' : push_virtual_operation op force db = Ok (u, db') -> accounts db' = accounts db.
Proof. by intros (n & l & ->)%push_virtual_operation_run. Qed.
Lemma modify_dgp_accounts f db u db' : modify_dgp f db = Ok (u, db') -> accounts db' = accounts db.
Proof. by intros (p & _ & _ & Hacc & _)%(modify_dgp_gap 0). Qed.

Lemma adjust_proxied_schedule n name delta db u db' :
  adjust_proxied_witness_votes_at n name delta db = Ok (u, db') -> accounts_rel keeps_schedule db db'.
Proof. by apply (adjust_proxied_witness_votes_rel keeps_schedule). Qed.

Ltac schedule_chain :=
  match goal with
  | |- accounts_rel keeps_schedule ?d ?d => reflexivity
  | H : push_virtual_operation _ _ ?d = Ok (_, _) |- accounts_rel keeps_schedule ?d _ =>
      apply push_accounts in H; etrans; [exact (accounts_rel_same keeps_schedule _ _ H)|]; schedule_chain
  | H : modify_dgp _ ?d = Ok (_, _) |- accounts_rel keeps_schedule ?d _ =>
      apply modify_dgp_accounts in H; etrans; [exact (accounts_rel_same keeps_schedule _ _ H)|]; schedule_chain
  | H : adjust_proxied_witness_votes_at _ _ _ ?d = Ok (_, _) |- accounts_rel keeps_schedule ?d _ =>
      apply adjust_proxied_schedule in H; etrans; [exact H|]; schedule_chain
  | H : get_account_by_id _ ?d = Ok (_, _) |- accounts_rel keeps_schedule ?d _ =>
      apply get_account_by_id_run in H; subst; schedule_chain
  | H : modify accounts _ _ ?d = Ok (_, _) |- accounts_rel keeps_schedule ?d _ =>
      apply (modify_accounts_rel keeps_schedule) in H;
      [etrans; [exact H|]; schedule_chain
      | let Ha := fresh "Ha" in intros ?a ?a' Ha; unfold add_vests in Ha; inv_ok; by split]
  end.

Lemma deposit_as_vests_schedule from w r n db n' db' :
  deposit_as_vests from w r n db = Ok (n', db') -> accounts_rel keeps_schedule db db'.
Proof.
  unfold deposit_as_vests, push_fill_vesting_withdraw, adjust_proxied_witness_votes. intros H.
  inv_run; schedule_chain.
Qed.
Lemma deposit_as_steem_schedule from w r d db d' db' :
  deposit_as_steem from w r d db = Ok (d', db') -> accounts_rel keeps_schedule db db'.
Proof.
  unfold deposit_as_steem, push_fill_vesting_withdraw. intros H. inv_run; schedule_chain.
Qed.

Lemma fold_each_rel {A St : Type} (R : database -> database -> Prop) `{!PreOrder R} (f : A -> St -> M St) l s db s' db' :
  (forall x s1 db1 s2 db2, f x s1 db1 = Ok (s2, db2) -> R db1 db2) ->
  fold_each f l s db = Ok (s', db') -> R db db'.
Proof.
  intros Hf. revert s db. induction l as [| x l IH]; intros s db H; cbn in H; inv_run; [done|].
  etrans; eauto.
Qed.

Lemma deposit_as_vests_frame from w r n db n' db' :
  deposit_as_vests from w r n db = Ok (n', db') -> frame db db'.
Proof.
  unfold deposit_as_vests, push_fill_vesting_withdraw, adjust_proxied_witness_votes. intros H.
  inv_run; try apply get_account_by_id_run in Hrun as ->; frame_solve.
Qed.
Lemma deposit_as_steem_frame from w r d db d' db' :
  deposit_as_steem from w r d db = Ok (d', db') -> frame db db'.
Proof.
  unfold deposit_as_steem, push_fill_vesting_withdraw. intros H.
  inv_run; try apply get_account_by_id_run in Hrun as ->; frame_solve.
Qed.

Lemma settle_withdrawal_rescheduled hf19 w converted a a' :
  settle_withdrawal hf19 w converted a = Ok a' -> rescheduled a a'.
Proof.
  unfold settle_withdrawal. intros H. inv_ok. destruct (_ || _).
  - destruct hf19; split; auto.
  - split; auto.
Qed.

Lemma modify_reschedules f k db1 db2 u db3 db4 :
  (forall a a', f a = Ok a' -> rescheduled a a') -> accounts_rel keeps_schedule db1 db2 ->
  modify accounts k f db2 = Ok (u, db3) -> accounts_rel keeps_schedule db3 db4 ->
  exists a a', rows (accounts db1) !! k = Some a /\ rescheduled a a' /\
    forall k', option_Forall2 keeps_schedule (<[k := a']> (rows (accounts db1)) !! k') (rows (accounts db4) !! k').
Proof.
  intros Hf R12 (v & v' & Hv & Hv' & ->)%modify_run R34. apply Hf in Hv' as [Hid Hnext].
  pose proof (R12 k) as Hk. rewrite Hv in Hk. inversion Hk as [a ? [Eid Enext] Ea |]; subst. exists a, v'.
  split; [done|]. split; [split; [congruence | by rewrite <- Enext]|].
  intros k'. specialize (R34 k'). cbn in R34. destruct (decide (k' = k)) as [-> | Hne].
  - by rewrite lookup_insert_eq in *.
  - rewrite lookup_insert_ne in * by done. specialize (R12 k').
    inversion R12 as [x y Hxy E1 E2 | E1 E2]; rewrite <- E2 in R34; inversion R34; constructor. by etrans.
Qed.

Lemma process_withdrawal_schedule from db u db' :
  process_withdrawal from db = Ok (u, db') ->
  frame db db' /\ exists a a', rows (accounts db) !! from = Some a /\ rescheduled a a' /\
    forall k, option_Forall2 keeps_schedule (<[from := a']> (rows (accounts db)) !! k) (rows (accounts db') !! k).
Proof.
  unfold process_withdrawal, push_fill_vesting_withdraw, adjust_proxied_witness_votes. intros H. inv_run.
  all: pose proof Hrun2 as Hf1; apply (fold_each_rel frame) in Hf1; [|intros *; apply deposit_as_vests_frame].
  all: pose proof Hrun3 as Hf2; apply (fold_each_rel frame) in Hf2; [|intros *; apply deposit_as_steem_frame].
  all: apply (fold_each_rel (accounts_rel keeps_schedule)) in Hrun2; [|intros *; apply deposit_as_vests_schedule].
  all: apply (fold_each_rel (accounts_rel keeps_schedule)) in Hrun3; [|intros *; apply deposit_as_steem_schedule].
  all: split; [clear Hrun2 Hrun3; frame_solve|].
  all: refine (modify_reschedules _ _ _ db4 _ db10 _ _ _ Hrun9 _);
    [intros *; apply settle_withdrawal_rescheduled | by etrans | clear Hrun2 Hrun3 Hrun9; schedule_chain].
Qed.

(** Times are unsigned, and a week from now can still be represented. *)
Definition times_wf (db : database) : Prop :=
  map_Forall (fun _ a => 0 <= account_next_vesting_withdrawal a) (rows (accounts db)) /\
  dgp_time (dgp db) + WEEK < 2 ^ 32.

Lemma rescheduled_later now a a' :
  now + WEEK < 2 ^ 32 -> 0 <= account_next_vesting_withdrawal a <= now -> rescheduled a a' ->
  account_next_vesting_withdrawal a + WEEK <= account_next_vesting_withdrawal a'.
Proof.
  intros Hnow Ha [_ [-> | ->]].
  - rewrite time_point_sec_maximum_law. lia.
  - rewrite time_add_law; [lia|]. unfold WEEK in *. lia.
Qed.

Lemma instalments_due_nonneg now a : 0 <= instalments_due now a.
Proof.
  unfold instalments_due. destruct (Z.leb_spec (account_next_vesting_withdrawal a) now); [|done].
  pose proof (Z.div_pos (now - account_next_vesting_withdrawal a) WEEK ltac:(lia) ltac:(done)). lia.
Qed.

(** An instalment leaves one less to do. *)
Lemma rescheduled_due now a a' :
  now + WEEK < 2 ^ 32 -> 0 <= account_next_vesting_withdrawal a <= now -> rescheduled a a' ->
  instalments_due now a' < instalments_due now a.
Proof.
  intros Hnow Ha Hre. pose proof (rescheduled_later now a a' Hnow Ha Hre) as Hlater. unfold instalments_due.
  replace (account_next_vesting_withdrawal a <=? now) with true by lia.
  pose proof (Z.div_pos (now - account_next_vesting_withdrawal a) WEEK ltac:(lia) ltac:(done)).
  destruct (Z.leb_spec (account_next_vesting_withdrawal a') now); [|lia].
  assert ((now - account_next_vesting_withdrawal a') / WEEK + 1 <= (now - account_next_vesting_withdrawal a) / WEEK); [|lia].
  rewrite <- (Z.div_add _ 1) by done. apply Z.div_le_mono; [done|]. lia.
Qed.

Definition turns_left (db : database) : Z :=
  msum (instalments_due (dgp_time (dgp db))) (rows (accounts db)).

Lemma turns_left_nonneg db : 0 <= turns_left db.
Proof. apply msum_nonneg. intros. apply instalments_due_nonneg. Qed.

Lemma withdrawal_turn name a db u db' :
  times_wf db -> rows (accounts db) !! name = Some a -> account_next_vesting_withdrawal a <= dgp_time (dgp db) ->
  process_withdrawal name db = Ok (u, db') -> turns_left db' < turns_left db /\ times_wf db'.
Proof.
  intros [Hpos Hnow] Ha Hdue (Hfr & a0 & a' & Ha0 & Hre & Hrel)%process_withdrawal_schedule. simplify_eq.
  assert (0 <= account_next_vesting_withdrawal a) by exact (Hpos _ _ Ha). split; [|split].
  - unfold turns_left. rewrite (frame_time _ _ Hfr).
    rewrite (msum_rel _ keeps_schedule (<[name := a']> (rows (accounts db)))); [| |done].
    + rewrite (msum_insert _ _ _ _ a) by done.
      pose proof (rescheduled_due (dgp_time (dgp db)) a a' Hnow ltac:(lia) Hre). lia.
    + intros v v' [_ E]. unfold instalments_due. by rewrite E.
  - intros k b Hb. specialize (Hrel k). rewrite Hb in Hrel. inversion Hrel as [v ? [_ E] Ev |]; subst. rewrite E.
    symmetry in Ev. apply lookup_insert_Some in Ev as [[<- <-] | [_ Ev]]; [|by apply (Hpos k)].
    pose proof (rescheduled_later (dgp_time (dgp db)) a a' Hnow ltac:(lia) Hre). unfold WEEK in *. lia.
  - by rewrite (frame_time _ _ Hfr).
Qed.

(** More fuel than instalments that are due changes nothing. *)
Lemma withdrawal_loop_fuel n m current db :
  times_wf db -> turns_left db < Z.of_nat n -> (n <= m)%nat ->
  withdrawal_loop m current db = withdrawal_loop n current db.
Proof.
  revert m current db. induction n as [| n IH]; intros m current db Hwf Hn Hm.
  { pose proof (turns_left_nonneg db). lia. }
  destruct m as [| m]; [lia|]. destruct current as [name|]; [|done]. cbn [withdrawal_loop].
  destruct (rows (accounts db) !! name) as [a|] eqn:Ha.
  2: { assert (exists e, get_account name db = Throw e) as [e He]
         by (unfold get_account, get_row; rewrite Ha; eauto).
       by rewrite !(bind_throws _ _ _ _ He). }
  rewrite !(bind_eq (get_account name) _ db a db (get_row_eq accounts _ _ _ _ Ha)).
  rewrite !(bind_eq head_block_time _ db (dgp_time (dgp db)) db) by done.
  destruct (Z.leb_spec (account_next_vesting_withdrawal a) (dgp_time (dgp db))); [|done].
  rewrite !(bind_eq (gets (next_account a)) _ db (next_account a db) db) by done.
  destruct (process_withdrawal name db) as [[u db'] | e] eqn:Hp; [|by rewrite !(bind_throws _ _ _ _ Hp)].
  rewrite !(bind_eq _ _ _ _ _ Hp). apply (withdrawal_turn _ a) in Hp as [Hlt Hwf']; [|done..].
  apply IH; [done | lia | lia].
Qed.

(** The index orders the accounts totally. *)
Lemma by_next_Gt x y : by_next_vesting_withdrawal x y = Gt -> by_next_vesting_withdrawal y x <> Gt.
Proof.
  unfold by_next_vesting_withdrawal, cmp_then.
  repeat match goal with |- context [Z.compare ?a ?b] => destruct (Z.compare_spec a b) end; try done; lia.
Qed.
Lemma by_next_trans x y z :
  by_next_vesting_withdrawal x y <> Gt -> by_next_vesting_withdrawal y z <> Gt -> by_next_vesting_withdrawal x z <> Gt.
Proof.
  unfold by_next_vesting_withdrawal, cmp_then.
  repeat match goal with |- context [Z.compare ?a ?b] => destruct (Z.compare_spec a b) end; try done; lia.
Qed.
Lemma by_next_schedule x x' y y' :
  keeps_schedule x x' -> keeps_schedule y y' -> by_next_vesting_withdrawal x' y' = by_next_vesting_withdrawal x y.
Proof. unfold by_next_vesting_withdrawal. by intros [-> ->] [-> ->]. Qed.
Lemma by_next_Eq x y : by_next_vesting_withdrawal x y = Eq -> account_id x = account_id y.
Proof.
  unfold by_next_vesting_withdrawal, cmp_then.
  repeat match goal with |- context [Z.compare ?a ?b] => destruct (Z.compare_spec a b) end; done.
Qed.
Lemma by_next_refl x : by_next_vesting_withdrawal x x = Eq.
Proof. unfold by_next_vesting_withdrawal. by rewrite !Z.compare_refl. Qed.

(** Ids are unique, and no withdrawal is overdue by a week. *)
Record schedule_wf (db : database) : Prop := {
  schedule_times : times_wf db;
  schedule_ids : forall k1 k2 a1 a2, rows (accounts db) !! k1 = Some a1 -> rows (accounts db) !! k2 = Some a2 ->
    account_id a1 = account_id a2 -> k1 = k2;
  schedule_timely : forall k a, rows (accounts db) !! k = Some a ->
    dgp_time (dgp db) < account_next_vesting_withdrawal a + WEEK
}.

(** The iterator stands before all accounts that are due. *)
Definition at_front (current : option string) (db : database) : Prop :=
  forall k b, rows (accounts db) !! k = Some b -> account_next_vesting_withdrawal b <= dgp_time (dgp db) ->
  exists name c, current = Some name /\ rows (accounts db) !! name = Some c /\ by_next_vesting_withdrawal c b <> Gt.

Lemma first_account_at_front db : at_front (first_account db) db.
Proof.
  intros k b Hb _. destruct (first_account db) as [name|] eqn:E.
  - destruct (first_due_Some _ _ _ _ E) as (c & Hc & _). exists name, c. split_and!; [done | done|].
    by eapply (first_due_least _ _ _ _ _ by_next_Gt by_next_trans E Hc).
  - by pose proof (first_due_None _ _ _ E k b Hb).
Qed.

(** What is left of an account after a turn for [name] *)
Lemma rescheduled_origin name a' db db' k b :
  (forall k, option_Forall2 keeps_schedule (<[name := a']> (rows (accounts db)) !! k) (rows (accounts db') !! k)) ->
  rows (accounts db') !! k = Some b ->
  (k = name /\ keeps_schedule a' b) \/ (k <> name /\ exists b0, rows (accounts db) !! k = Some b0 /\ keeps_schedule b0 b).
Proof.
  intros Hrel Hb. specialize (Hrel k). rewrite Hb in Hrel. inversion Hrel as [v ? Hk Ev |]; subst.
  symmetry in Ev. apply lookup_insert_Some in Ev as [[<- <-] | [Hne Ev]]; [by left | right]. split; [done|]. eauto.
Qed.

Lemma schedule_wf_turn name a db u db' :
  schedule_wf db -> rows (accounts db) !! name = Some a -> account_next_vesting_withdrawal a <= dgp_time (dgp db) ->
  at_front (Some name) db -> process_withdrawal name db = Ok (u, db') ->
  schedule_wf db' /\ at_front (next_account a db) db'.
Proof.
  intros [Htimes Hids Htimely] Ha Hdue Hfront Hp. pose proof (withdrawal_turn _ a _ _ _ Htimes Ha Hdue Hp) as [_ Ht'].
  apply process_withdrawal_schedule in Hp as (Hfr & a0 & a' & Ha0 & Hre & Hrel). simplify_eq.
  pose proof (proj1 Htimes _ _ Ha) as Hpos. cbn beta in Hpos. pose proof (Htimely _ _ Ha) as Hta.
  pose proof (rescheduled_later _ a a' (proj2 Htimes) (conj Hpos Hdue) Hre) as Hlater.
  pose proof (fun k b => rescheduled_origin name a' db db' k b Hrel) as Horigin.
  assert (Hsame : forall k b, rows (accounts db') !! k = Some b -> exists b0, rows (accounts db) !! k = Some b0 /\
    account_id b = account_id b0 /\ account_next_vesting_withdrawal b0 <= account_next_vesting_withdrawal b).
  { intros k b Hb. destruct (Horigin k b Hb) as [[-> [Hi Hn]] | [_ (b0 & Hb0 & Hi & Hn)]].
    - exists a. split; [done|]. rewrite Hi, Hn. split; [apply Hre | unfold WEEK in *; lia].
    - exists b0. rewrite Hi, Hn. done. }
  split; [split; [done | |]|].
  - intros k1 k2 b1 b2 (c1 & Hc1 & -> & _)%Hsame (c2 & Hc2 & -> & _)%Hsame. by apply Hids.
  - intros k b (c & Hc & _ & Hle)%Hsame. rewrite (frame_time _ _ Hfr). pose proof (Htimely k c Hc). lia.
  - intros k b Hb Hdb. rewrite (frame_time _ _ Hfr) in Hdb.
    destruct (Horigin k b Hb) as [[-> [_ Hn]] | [Hne (b0 & Hb0 & Hk)]]; [unfold WEEK in *; lia|].
    pose proof Hk as [_ Hn]. rewrite Hn in Hdb.
    assert (Hlt : by_next_vesting_withdrawal a b0 = Lt).
    { destruct (Hfront k b0 Hb0 Hdb) as (n0 & c & [= <-] & Hc & Hle). simplify_eq.
      destruct (by_next_vesting_withdrawal _ b0) eqn:E; [|done | done].
      apply by_next_Eq in E. exfalso. eauto. }
    destruct (next_account a db) as [name2|] eqn:E.
    2: { pose proof (first_due_None _ _ _ E k b0 Hb0) as Hnone. cbn in Hnone. by rewrite Hlt in Hnone. }
    destruct (first_due_Some _ _ _ _ E) as (c & Hc & Hac). exists name2.
    assert (name2 <> name). { intros ->. simplify_eq. by rewrite by_next_refl in Hac. }
    pose proof (Hrel name2) as Hc'. rewrite lookup_insert_ne, Hc in Hc' by done.
    inversion Hc' as [? c' Hcc' E1 E2 |]; subst. exists c'. split_and!; [done | done|].
    rewrite (by_next_schedule _ _ _ _ Hcc' Hk).
    eapply (first_due_least _ _ _ _ _ by_next_Gt by_next_trans E Hc k b0 Hb0). by rewrite Hlt.
Qed.

Lemma routes_wf_frame db db' : frame db db' -> routes_wf db -> routes_wf db'.
Proof. intros Hfr H from. unfold routes_of. rewrite (frame_vesting_routes _ _ Hfr). apply H. Qed.

(** What the step relies on *)
Record withdrawals_wf (db : database) : Prop := {
  withdrawals_vests : vests_wf db;
  withdrawals_routes : routes_wf db;
  withdrawals_schedule : schedule_wf db
}.

Lemma withdrawal_loop_spec n current db u db' :
  withdrawals_wf db -> at_front current db -> turns_left db < Z.of_nat n ->
  withdrawal_loop n current db = Ok (u, db') ->
  (forall sym, gap sym db' = gap sym db) /\ frame db db' /\
  forall k b, rows (accounts db') !! k = Some b -> dgp_time (dgp db) < account_next_vesting_withdrawal b.
Proof.
  revert current db. induction n as [| n IH]; intros current db [Hv Hr Hs] Hfront Hn H.
  { pose proof (turns_left_nonneg db). lia. }
  destruct current as [name|]; cbn in H.
  2: { inv_run. split_and!; [done | done|]. intros k b Hb.
       apply Z.nle_gt. intros Hle. by destruct (Hfront k b Hb Hle) as (? & ? & ? & _). }
  inv_run.
  - bool_to_prop. pose proof (withdrawal_turn _ _ _ _ _ (schedule_times _ Hs) E Heqb Hrun0) as [Hlt _].
    pose proof (schedule_wf_turn _ _ _ _ _ Hs E Heqb Hfront Hrun0) as [Hs' Hfront'].
    pose proof (fun sym => process_withdrawal_pass sym _ _ _ _ Hv Hr Hrun0) as P.
    pose proof (pass_frame _ _ _ _ (P 0)) as Hfr.
    apply IH in H as (Hg & Hfr2 & Hnone); [| split; [by apply (pass_ok_wf 0 0 db) | by eapply routes_wf_frame | done] | done | lia].
    rewrite (frame_time _ _ Hfr) in Hnone. split_and!; [|by etrans | done].
    intros sym. rewrite Hg, (pass_gap _ _ _ _ (P sym)), amount_in_zero. lia.
  - split_and!; [done | done|]. intros k b Hb. bool_to_prop.
    apply Z.nle_gt. intros Hle. destruct (Hfront k b Hb Hle) as (? & c & [= <-] & Hc & Hcb). simplify_eq.
    unfold by_next_vesting_withdrawal, cmp_then in Hcb.
    match type of Hcb with context [?x ?= ?y] => destruct (Z.compare_spec x y) end; try done; lia.
Qed.

(** Conservation alone needs no assumption on the schedule. *)
Lemma withdrawal_loop_pass sym n current db u db' :
  vests_wf db -> routes_wf db -> withdrawal_loop n current db = Ok (u, db') -> pass_ok sym 0 db db'.
Proof.
  revert current db. induction n as [| n IH]; intros [name|] db Hv Hr H; cbn in H; inv_run; try apply pass_ok_refl.
  apply (process_withdrawal_pass sym) in Hrun0 as P1; [|done..].
  apply IH in H as P2; [|by eapply pass_ok_wf | eapply routes_wf_frame; [apply P1 | done]].
  exact (pass_ok_trans sym 0 0 _ _ _ P1 P2).
Qed.
Lemma process_vesting_withdrawals_pass sym db u db' :
  vests_wf db -> routes_wf db -> process_vesting_withdrawals db = Ok (u, db') -> pass_ok sym 0 db db'.
Proof. unfold process_vesting_withdrawals. intros Hv Hr H. inv_run. by eapply withdrawal_loop_pass. Qed.

(** *** What the step leaves alone

    All tables but those of accounts and witnesses stay as they are; of an account only what
    it withdraws, receives and records for its proxies changes, of a witness only its votes
    and its place in virtual time, and of the global properties only the vesting fund and
    the total of shares. *)
Definition besides_withdrawals (db : database) : database :=
  db <| accounts ::= (fun t => mk_table ∅ (next_id t)) |> <| witnesses ::= (fun t => mk_table ∅ (next_id t)) |>
     <| dgp ::= (fun p => p <| dgp_total_vesting_fund_steem := mk_asset 0 0 |> <| dgp_total_vesting_shares := mk_asset 0 0 |>) |>
     <| current_virtual_op := 0 |> <| notifications := [] |>.
Definition account_besides_withdrawals (a : account_object) : account_object :=
  a <| account_balance := mk_asset 0 0 |> <| account_vesting_shares := mk_asset 0 0 |> <| account_vesting_withdraw_rate := mk_asset 0 0 |>
    <| account_next_vesting_withdrawal := 0 |> <| account_withdrawn := 0 |> <| account_to_withdraw := 0 |> <| account_proxied_vsf_votes := [] |>.
Definition witness_besides_votes (w : witness_object) : witness_object :=
  w <| witness_votes := 0 |> <| witness_virtual_position := 0 |> <| witness_virtual_last_update := 0 |> <| witness_virtual_scheduled_time := 0 |>.
Record only_withdraws (db db' : database) : Prop := mk_only_withdraws {
  withdraws_rest : besides_withdrawals db' = besides_withdrawals db;
  withdraws_accounts : account_besides_withdrawals <$> rows (accounts db') = account_besides_withdrawals <$> rows (accounts db);
  withdraws_witnesses : witness_besides_votes <$> rows (witnesses db') = witness_besides_votes <$> rows (witnesses db)
}.
#[export] Instance only_withdraws_preorder : PreOrder only_withdraws.
Proof. split; [by split|]. intros x y z [] []. split; congruence. Qed.

Lemma fmap_same_row {V W : Type} (f : V -> W) (m : gmap string V) k v v' : m !! k = Some v -> f v' = f v -> f <$> <[k := v']> m = f <$> m.
Proof. intros Hk E. rewrite fmap_insert, E. apply insert_id. by rewrite lookup_fmap, Hk. Qed.
Lemma withdraws_modify_account k f : (forall a a', f a = Ok a' -> account_besides_withdrawals a' = account_besides_withdrawals a) ->
  preserves only_withdraws (modify accounts k f).
Proof. intros Hf db u db' (a & a' & Ha & Hfa & ->)%modify_run. split; [done | | done]. cbn. eapply fmap_same_row; eauto. Qed.
Lemma withdraws_modify_dgp f :
  (forall p p', f p = Ok p' -> exists v s, p' = p <| dgp_total_vesting_fund_steem := v |> <| dgp_total_vesting_shares := s |>) ->
  preserves only_withdraws (modify_dgp f).
Proof. intros Hf db u db' (p & (v & s & ->)%Hf & ->)%on_table_run. by split. Qed.
Lemma withdraws_push op force : preserves only_withdraws (push_virtual_operation op force).
Proof. by intros db u db' (n & l & ->)%push_virtual_operation_run. Qed.
Lemma withdraws_vote owner delta : preserves only_withdraws (adjust_witness_vote owner delta).
Proof.
  unfold adjust_witness_vote. preserve. intros db u db' (w & w' & Hw & Hfw & ->)%modify_run. split; [done | done |]. cbn in *. inv_ok. by eapply fmap_same_row.
Qed.
#[local] Hint Resolve withdraws_push withdraws_vote : preserves.
Ltac withdraws_rows :=
  match goal with
  | |- preserves _ (modify accounts _ _) =>
      apply withdraws_modify_account; let a := fresh "a" in let a' := fresh "a'" in let Ha := fresh "Ha" in
      intros a a' Ha; unfold add_vests, settle_withdrawal in Ha; cbv zeta in Ha; inv_ok; repeat case_match; reflexivity
  | |- preserves _ (modify_dgp _) => apply withdraws_modify_dgp; intros; inv_ok; by do 2 eexists
  end.
Ltac withdraws_solve := repeat (preserve; try withdraws_rows).
Lemma withdraws_proxied r name delta : preserves only_withdraws (adjust_proxied_witness_votes_at r name delta).
Proof.
  revert name. induction r as [| r IH]; intros name; cbn [adjust_proxied_witness_votes_at]; unfold adjust_witness_votes; withdraws_solve.
Qed.
#[local] Hint Resolve withdraws_proxied : preserves.
Lemma process_withdrawal_only from : preserves only_withdraws (process_withdrawal from).
Proof. unfold process_withdrawal, deposit_as_vests, deposit_as_steem, push_fill_vesting_withdraw, adjust_proxied_witness_votes. withdraws_solve. Qed.
#[local] Hint Resolve process_withdrawal_only : preserves.
Lemma withdrawal_loop_only n current : preserves only_withdraws (withdrawal_loop n current).
Proof. revert current. induction n as [| n IH]; intros [k|]; cbn [withdrawal_loop]; withdraws_solve. Qed.

(** C22: The step that pays the weekly instalments of vesting withdrawals leaves supply
    and holdings of every symbol in balance, for every set of routes an account can
    have, pays every account that is due (afterwards no withdrawal is due), and changes
    nothing but this: the balance, the shares, the withdrawal and the proxied votes of
    accounts, the votes and the virtual time of witnesses, the vesting fund and the total of
    shares, and what it notifies; provided that vesting shares are counted in GESTS, no
    account routes more than 100%, account ids are unique, no withdrawal is a week overdue
    and the clock does not run out. *)
Theorem process_vesting_withdrawals_spec db u db' :
  withdrawals_wf db -> process_vesting_withdrawals db = Ok (u, db') ->
  (forall sym, gap sym db' = gap sym db) /\ frame db db' /\ only_withdraws db db' /\
  forall k b, rows (accounts db') !! k = Some b -> dgp_time (dgp db') < account_next_vesting_withdrawal b.
Proof.
  unfold process_vesting_withdrawals. intros Hwf H. inv_run. pose proof (turns_left_nonneg db).
  pose proof (withdrawal_loop_only _ _ _ _ _ H) as Honly.
  apply withdrawal_loop_spec in H as (Hg & Hfr & Hnone); [|done | apply first_account_at_front | unfold turns_left in *; lia].
  by rewrite (frame_time _ _ Hfr).
Qed.

(** The loop over the accounts that withdraw terminates: it makes at most one turn
    for each instalment that is due, even where an account is weeks behind, so that
    any larger bound on the number of turns gives the same result. *)
Theorem process_vesting_withdrawals_terminates n db :
  times_wf db -> turns_left db < Z.of_nat n ->
  withdrawal_loop n (first_account db) db = process_vesting_withdrawals db.
Proof.
  intros Hwf Hn. pose proof (turns_left_nonneg db). apply withdrawal_loop_fuel; unfold turns_left in *; [done | lia | lia].
Qed.
End Schedule.

(** ** The routes *)

Section Routes.
Context `{F : fc_ops}.

#[local] Abbreviation table_of_routes := (gmap (Z * Z) withdraw_vesting_route_object).

(** The index is keyed by the two accounts of a route. *)
Definition routes_keyed (m : table_of_routes) : Prop :=
  map_Forall (fun k r => k = (route_from_account r, route_to_account r)) m.
#[export] Instance routes_keyed_dec m : Decision (routes_keyed m).
Proof. unfold routes_keyed. apply _. Defined.

Definition route_list (from : Z) (m : table_of_routes) : list withdraw_vesting_route_object :=
  filter (fun r => route_from_account r = from /\ 0 < route_to_account r) (map_to_list m).*2.
Lemma routes_of_list from db : routes_of from db ≡ₚ route_list from (rows (vesting_routes db)).
Proof. apply sort_by_perm. Qed.

Lemma route_list_insert (from : Z) (k : Z * Z) (r : withdraw_vesting_route_object) (m : table_of_routes) :
  m !! k = None -> route_from_account r <> from -> route_list from (<[k := r]> m) ≡ₚ route_list from m.
Proof.
  intros Hk Hr. unfold route_list. rewrite map_to_list_insert by done.
  rewrite fmap_cons, filter_cons_False; [done|]. by intros [? _].
Qed.
Lemma route_list_delete (from : Z) (k : Z * Z) (r : withdraw_vesting_route_object) (m : table_of_routes) :
  m !! k = Some r -> route_from_account r <> from -> route_list from (delete k m) ≡ₚ route_list from m.
Proof.
  intros Hk Hr. rewrite <- (insert_delete_id m k r Hk) at 2.
  by rewrite (route_list_insert from k r) by (done || apply lookup_delete_eq).
Qed.
Lemma route_list_replace (from : Z) (k : Z * Z) (r r' : withdraw_vesting_route_object) (m : table_of_routes) :
  m !! k = Some r -> route_from_account r <> from -> route_from_account r' <> from ->
  route_list from (<[k := r']> m) ≡ₚ route_list from m.
Proof.
  intros Hk Hr Hr'. rewrite <- insert_delete_eq, (route_list_insert from k r') by (done || apply lookup_delete_eq).
  by eapply route_list_delete.
Qed.

#[export] Instance total_percent_perm : Proper ((≡ₚ) ==> (=)) total_percent.
Proof. intros l l' Hl. unfold total_percent. induction Hl; cbn; lia. Qed.
#[export] Instance routes_ok_perm : Proper ((≡ₚ) ==> iff) routes_ok.
Proof. intros l l' Hl. unfold routes_ok. by rewrite Hl. Qed.

Definition percents_ok (m : table_of_routes) : Prop :=
  map_Forall (fun _ r => 0 <= route_percent r <= STEEMIT_100_PERCENT) m.
#[export] Instance percents_ok_dec m : Decision (percents_ok m).
Proof. unfold percents_ok. apply _. Defined.
Lemma route_list_percents from m :
  percents_ok m -> Forall (fun r => 0 <= route_percent r <= STEEMIT_100_PERCENT) (route_list from m).
Proof.
  intros Hm. apply Forall_forall. intros r Hin. unfold route_list in Hin.
  apply list_elem_of_filter in Hin as [_ (kr & -> & Hkr)%list_elem_of_fmap]. destruct kr as [k r].
  apply elem_of_map_to_list in Hkr. by apply (Hm k).
Qed.

(** The invariant of the routes *)
Record routes_inv (db : database) : Prop := {
  inv_keyed : routes_keyed (rows (vesting_routes db));
  inv_percents : percents_ok (rows (vesting_routes db));
  inv_total : routes_wf db
}.

(** It is enough to look at the account whose routes were changed. *)
Lemma routes_inv_step from db db' :
  routes_wf db -> routes_keyed (rows (vesting_routes db')) -> percents_ok (rows (vesting_routes db')) ->
  (forall f, f <> from -> route_list f (rows (vesting_routes db')) ≡ₚ route_list f (rows (vesting_routes db))) ->
  total_percent (routes_of from db') <= STEEMIT_100_PERCENT -> routes_inv db'.
Proof.
  intros Hwf Hk Hp Hother Htot. split; [done | done|]. intros f. destruct (decide (f = from)) as [-> | Hne].
  - split; [|done]. rewrite routes_of_list. by apply route_list_percents.
  - rewrite routes_of_list, Hother by done. rewrite <- routes_of_list. apply Hwf.
Qed.

Lemma set_route_keeps o db u db' :
  set_withdraw_vesting_route_operation_validate o = Ok tt -> routes_inv db ->
  set_withdraw_vesting_route_evaluator o db = Ok (u, db') -> routes_inv db'.
Proof.
  intros Hval [Hkeyed Hpct Hwf] H.
  assert (0 <= set_withdraw_vesting_route_percent o <= STEEMIT_100_PERCENT) as Hp.
  { unfold set_withdraw_vesting_route_operation_validate, check_value_lege in Hval. inv_ok. bool_to_prop. lia. }
  clear Hval. unfold set_withdraw_vesting_route_evaluator in H. inv_run.
  all: match goal with H : check_logic (total_percent _ <=? _) _ = Ok _ |- _ =>
         apply check_logic_Ok in H; bool_to_prop; apply (routes_inv_step (account_id x) db); try done end.
  all: repeat match goal with
    | H : modify _ _ _ _ = Ok _ |- _ => apply modify_run in H as (? & ? & ? & ? & ->)
    | H : create _ _ _ _ = Ok _ |- _ => apply create_run in H as (? & ->)
    | H : remove _ _ _ = Ok _ |- _ => apply remove_run in H as (? & ? & ->)
    end; cbn in *; simplify_eq.
  all: try (by apply map_Forall_delete); try (by apply map_Forall_insert_2).
  - intros f Hf. eapply route_list_delete; [done|]. pose proof (Hkeyed _ _ Heqo0) as [= <- _]. congruence.
  - intros f Hf. eapply route_list_replace; [done | | done]. pose proof (Hkeyed _ _ Heqo0) as [= <- _]. congruence.
  - intros f Hf. by apply route_list_insert.
Qed.

(** Setting a route keeps the routes consistent: whatever it creates, changes or
    removes, every route still has a percentage between 0 and 100, and no account,
    neither the one that sets the route nor another, routes more than 100% of its
    withdrawals. *)
Theorem set_withdraw_vesting_route_keeps_routes o db u db' :
  set_withdraw_vesting_route_operation_validate o = Ok tt -> routes_inv db ->
  set_withdraw_vesting_route_evaluator o db = Ok (u, db') -> routes_inv db'.
Proof. exact (set_route_keeps o db u db'). Qed.

Lemma remove_routes_none from l db :
  Forall (fun kr => from < route_from_account (snd kr)) l -> remove_routes_while from l db = Ok (tt, db).
Proof.
  destruct 1 as [| [k r] l Hr _]; [done|]. cbn in *. by replace (route_from_account r =? from) with false by lia.
Qed.

Lemma remove_vesting_routes_none name db u db' : remove_vesting_routes name db = Ok (u, db') -> db' = db.
Proof.
  unfold remove_vesting_routes. intros H. inv_run. rewrite remove_routes_none in H; [by injection H as <-|].
  apply Forall_forall. intros kr Hkr. unfold routes_after in Hkr. rewrite sort_by_perm in Hkr.
  by apply list_elem_of_filter in Hkr as [? _].
Qed.

(** The reset of a withdrawal on account recovery stops the instalments but removes
    none of the account's routes: [remove_vesting_routes] starts behind the last of them. *)
Theorem reset_vesting_withdraw_keeps_routes name db u db' :
  reset_vesting_withdraw name db = Ok (u, db') ->
  vesting_routes db' = vesting_routes db /\
  exists a, rows (accounts db') !! name = Some a /\ amount (account_vesting_withdraw_rate a) = 0 /\
    account_next_vesting_withdrawal a = time_point_sec_maximum /\ account_to_withdraw a = 0 /\ account_withdrawn a = 0.
Proof.
  unfold reset_vesting_withdraw, stop_withdraw. intros H. inv_run.
  apply modify_run in Hrun as (v & v' & Hv & Hv' & ->). apply remove_vesting_routes_none in H as ->.
  split; [done|]. cbn. rewrite lookup_insert_eq. exists v'. inv_ok. done.
Qed.
End Routes.

(** ** Concrete runs *)

(** carol withdraws in thirteen instalments, a quarter to alice as vesting shares and
    half to bob in GOLOS; nobody else withdraws. *)
Definition sample_route (to percent : Z) (auto_vest : bool) : withdraw_vesting_route_object := {|
  route_id := to; route_from_account := 3; route_to_account := to; route_percent := percent;
  route_auto_vest := auto_vest |}.
Definition sample_vesting_database : database :=
  sample_database
    <| accounts ::= (fun t =>
        let idle : gmap string account_object := (fun a => a <| account_next_vesting_withdrawal := 2 ^ 32 - 1 |>) <$> rows t in
        mk_table (<["carol" := (sample_account 3 "carol" 0 0 1000000000 0)
                      <| account_vesting_withdraw_rate := mk_asset 1000000 VESTS_SYMBOL |>
                      <| account_to_withdraw := 13000000 |>
                      <| account_next_vesting_withdrawal := sample_time |>]> idle) (next_id t)) |>
    <| vesting_routes := mk_table (<[(3, 1) := sample_route 1 2500 true]>
                                  (<[(3, 2) := sample_route 2 5000 false]> ∅)) 2 |>.

Definition sample_set_route : set_withdraw_vesting_route_operation := {|
  set_withdraw_vesting_route_from_account := "carol";
  set_withdraw_vesting_route_to_account := "bob";
  set_withdraw_vesting_route_percent := 7500;
  set_withdraw_vesting_route_auto_vest := true |}.

Lemma ids_unique (m : gmap string account_object) :
  NoDup (account_id <$> (map_to_list m).*2) ->
  forall k1 k2 a1 a2, m !! k1 = Some a1 -> m !! k2 = Some a2 -> account_id a1 = account_id a2 -> k1 = k2.
Proof.
  intros Hnd k1 k2 a1 a2 H1 H2 Hid. rewrite <- list_fmap_compose in Hnd.
  apply elem_of_map_to_list in H1, H2.
  apply list_elem_of_lookup in H1 as [i Hi], H2 as [j Hj].
  assert (i = j) as ->; [|congruence]. eapply NoDup_lookup; [exact Hnd | |]; rewrite list_lookup_fmap.
  - rewrite Hi. reflexivity.
  - rewrite Hj. cbn. by rewrite Hid.
Qed.

Lemma sample_routes_inv : routes_inv sample_vesting_database.
Proof.
  assert (Hk : routes_keyed (rows (vesting_routes sample_vesting_database))).
  { refine (bool_decide_unpack _ _). by vm_compute. }
  assert (Hp : percents_ok (rows (vesting_routes sample_vesting_database))).
  { refine (bool_decide_unpack _ _). by vm_compute. }
  apply (routes_inv_step 3 (sample_vesting_database <| vesting_routes := no_rows |>)); [|done | done | |].
  - intros f. by split.
  - intros f Hf. cbn. rewrite !route_list_insert; [done | done.. ].
  - by vm_compute.
Qed.

Lemma sample_withdrawals_wf : withdrawals_wf sample_vesting_database.
Proof.
  split.
  - split; [|done]. refine (bool_decide_unpack _ _). by vm_compute.
  - apply sample_routes_inv.
  - split.
    + split; [|done]. refine (bool_decide_unpack _ _). by vm_compute.
    + apply ids_unique. refine (bool_decide_unpack _ _). by vm_compute.
    + enough (map_Forall (fun _ a => sample_time < account_next_vesting_withdrawal a + STEEMIT_VESTING_WITHDRAW_INTERVAL_SECONDS)
        (rows (accounts sample_vesting_database))) as H by exact H.
      refine (bool_decide_unpack _ _). by vm_compute.
Qed.

Lemma process_vesting_withdrawals_spec_witness :
  let db' := run_state (process_vesting_withdrawals (F := fc_ref)) sample_vesting_database in
  (forall sym, gap sym db' = gap sym sample_vesting_database) /\
  option_map account_vesting_shares (rows (accounts db') !! "alice") = Some (mk_asset 250000 VESTS_SYMBOL) /\
  option_map account_balance (rows (accounts db') !! "bob") = Some (mk_asset 5500 STEEM_SYMBOL) /\
  option_map account_vesting_shares (rows (accounts db') !! "carol") = Some (mk_asset 999000000 VESTS_SYMBOL) /\
  option_map account_balance (rows (accounts db') !! "carol") = Some (mk_asset 250 STEEM_SYMBOL).
Proof.
  intros db'. split.
  - apply (process_vesting_withdrawals_spec (F := fc_ref) sample_vesting_database tt db');
      [apply sample_withdrawals_wf | run_now].
  - split_and!; vm_compute; reflexivity.
Defined.

Lemma process_vesting_withdrawals_terminates_witness :
  withdrawal_loop (F := fc_ref) 2 (first_account sample_vesting_database) sample_vesting_database =
  process_vesting_withdrawals (F := fc_ref) sample_vesting_database.
Proof.
  apply (process_vesting_withdrawals_terminates (F := fc_ref) 2 sample_vesting_database);
    [apply sample_withdrawals_wf | vm_compute; reflexivity].
Defined.

Lemma set_withdraw_vesting_route_keeps_routes_witness :
  routes_inv (run_state (set_withdraw_vesting_route_evaluator sample_set_route) sample_vesting_database).
Proof.
  apply (set_withdraw_vesting_route_keeps_routes sample_set_route sample_vesting_database tt);
    [vm_compute; reflexivity | apply sample_routes_inv | run_now].
Defined.

Lemma reset_vesting_withdraw_keeps_routes_witness :
  vesting_routes (run_state (reset_vesting_withdraw (F := fc_ref) "carol") sample_vesting_database) =
  vesting_routes sample_vesting_database.
Proof.
  apply (reset_vesting_withdraw_keeps_routes (F := fc_ref) "carol" sample_vesting_database tt). run_now.
Defined.
