(* ===== verification/Production.v ===== *)
(** * Production of blocks

    The part of [_apply_block] that concerns the block and its producer: time slots and the
    witness scheduled for one, the checks of the header, the bookkeeping of the head block
    and of missed slots, and the number of the last irreversible block. *)

From S2P Require Import Prelude Exceptions Fc Config Asset Operations FlatMap Authority Crypto SignState Transaction BlockId ForkDatabase Objects Database Conservation Sample Preserve.

Section Production.
Context `{F : fc_ops} `{C : crypto_ops}.

(** [fc::raw::pack_size] of a block: the serialisation of [fc] *)
Variable block_pack_size : signed_block -> Z.
(** [public_key_type()] *)

(** ** Slots *)

(** [head_block_id] *)
Definition head_block_id : M Z := gets (fun db => dgp_head_block_id (dgp db)).

(** [get_scheduled_witness]; the array has a name for each scheduled witness *)
Definition get_scheduled_witness (slot_num : Z) : M string :=
  aslot ← gets (fun db => dgp_current_aslot (dgp db));
  o ← gets wso;
  let current_aslot := to_uint64_wrap (aslot + slot_num) in
  match wso_current_shuffled_witnesses o !! Z.to_nat (current_aslot mod wso_num_scheduled_witnesses o) with
  | Some w => mret w
  | None => throw fc_assert_exception
  end.

(** [get_slot_time] *)
Definition get_slot_time (slot_num : Z) : M Z :=
  if slot_num =? 0 then mret 0
  else
    let interval := STEEMIT_BLOCK_INTERVAL in
    num ← head_block_num;
    time ← head_block_time;
    if num =? 0 then mret (time_add time (to_uint32_wrap (slot_num * interval)))
    else
      let head_block_abs_slot := time / interval in
      let head_slot_time := to_uint32_wrap (head_block_abs_slot * interval) in
      mret (time_add head_slot_time (to_uint32_wrap (slot_num * interval))).

(** [get_slot_at_time] *)
Definition get_slot_at_time (when_ : Z) : M Z :=
  first_slot_time ← get_slot_time 1;
  if when_ <? first_slot_time then mret 0
  else mret (to_uint32_wrap (Z.quot (time_diff_seconds when_ first_slot_time) STEEMIT_BLOCK_INTERVAL + 1)).

(** [witness_participation_rate] *)
Definition witness_participation_rate : M Z :=
  slots ← gets (fun db => dgp_recent_slots_filled (dgp db));
  mret (to_uint32_wrap (STEEMIT_100_PERCENT * u128_popcount slots / 128)).

(** ** The header *)

(** [validate_block_header]; returns the key of the witness *)
Definition validate_block_header (skip : Z) (next_block : signed_block) : M string :=
  let h := block_header next_block in
  id ← head_block_id;
  lift (fc_assert (id =? header_previous h)) ;;
  time ← head_block_time;
  lift (fc_assert (time <? header_timestamp h)) ;;
  witness ← get_witness (header_witness h);
  when (negb (has_flag skip skip_witness_signature))
    (valid ← lift (validate_signee h (witness_signing_key witness)); lift (fc_assert valid)) ;;
  when (negb (has_flag skip skip_witness_schedule_check))
    (slot_num ← get_slot_at_time (header_timestamp h);
     lift (fc_assert (slot_num >? 0)) ;;
     scheduled_witness ← get_scheduled_witness slot_num;
     lift (fc_assert (bool_decide (witness_owner witness = scheduled_witness)))) ;;
  mret (header_witness h).

(** [process_header_extensions] *)
Definition process_header_extensions (next_block : signed_block) : M unit :=
  let h := block_header next_block in
  for_each (fun e =>
    match e with
    | extension_void => mret tt
    | extension_version reported_version =>
        signing_witness ← get_witness (header_witness h);
        when (negb (reported_version =? witness_running_version signing_witness))
          (modify witnesses (header_witness h) (fun wo => Ok (wo <| witness_running_version := reported_version |>)))
    | extension_hardfork_version_vote hf_version hf_time =>
        signing_witness ← get_witness (header_witness h);
        when (negb (hf_version =? witness_hardfork_version_vote signing_witness) ||
              negb (hf_time =? witness_hardfork_time_vote signing_witness))
          (modify witnesses (header_witness h) (fun wo =>
             Ok (wo <| witness_hardfork_version_vote := hf_version |> <| witness_hardfork_time_vote := hf_time |>)))
    end) (header_extensions h).

(** ** The head block *)

(** The loop over the missed slots *)
Definition miss_slot (producer : string) (i : Z) : M unit :=
  name ← get_scheduled_witness (to_uint32_wrap (i + 1));
  witness_missed ← get_witness name;
  when (negb (bool_decide (witness_owner witness_missed = producer)))
    (num ← head_block_num;
     hf ← has_hardfork STEEMIT_HARDFORK_0_14__278;
     let idle := to_uint64_wrap (num - witness_last_confirmed_block_num witness_missed) >? STEEMIT_BLOCKS_PER_DAY in
     modify witnesses name (fun w =>
       Ok (if (hf : bool) && idle
           then w <| witness_total_missed ::= (fun n => to_uint32_wrap (n + 1)) |> <| witness_signing_key := no_key |>
           else w <| witness_total_missed ::= (fun n => to_uint32_wrap (n + 1)) |>)) ;;
     when ((hf : bool) && idle)
       (push_virtual_operation (op_shutdown_witness (mk_shutdown_witness (witness_owner witness_missed))) false)).

(** One turn of the loop over the slots since the last block; the first stands for the
    block itself. *)
Definition fill_slot (first : bool) (dgp : dynamic_global_property_object) : dynamic_global_property_object :=
  let bit := if first then 1 else 0 in
  dgp <| dgp_participation_count ::= (fun c => to_uint8_wrap (c -
           (if negb (Z.land (u128_hi (dgp_recent_slots_filled dgp)) (2 ^ 63) =? 0) then 1 else 0))) |>
      <| dgp_recent_slots_filled ::= (fun s => u128_add (u128_shiftl s 1) bit) |>
      <| dgp_participation_count ::= (fun c => to_uint8_wrap (c + bit)) |>.
Fixpoint fill_missed (n : nat) (dgp : dynamic_global_property_object) : dynamic_global_property_object :=
  match n with O => dgp | S k => fill_missed k (fill_slot false dgp) end.

(** The reserve ratio, once in twenty blocks *)
Definition adjust_reserve_ratio (hf2 hf12 : bool) (dgp : dynamic_global_property_object) : dynamic_global_property_object :=
  if dgp_head_block_number dgp mod 20 =? 0 then
    let ratio :=
      if (negb hf12 && (dgp_average_block_size dgp >? dgp_maximum_block_size dgp / 2)) ||
         (hf12 && (dgp_average_block_size dgp >? dgp_maximum_block_size dgp / 4))
      then dgp_current_reserve_ratio dgp / 2
      else to_uint64_wrap (dgp_current_reserve_ratio dgp + 1) in
    dgp <| dgp_current_reserve_ratio :=
             if hf2 && (ratio >? STEEMIT_MAX_RESERVE_RATIO) then STEEMIT_MAX_RESERVE_RATIO else ratio |>
  else dgp.

(** The new properties, as the second [modify] leaves them *)
Definition advance_head (b : signed_block) (missed_blocks : Z) (hf2 hf12 : bool)
    (dgp : dynamic_global_property_object) : dynamic_global_property_object :=
  let h := block_header b in
  (* the bound of the loop and the step of the slot are [missed_blocks + 1], in 32 bits *)
  let turns := to_uint32_wrap (missed_blocks + 1) in
  let dgp := if turns =? 0 then dgp else fill_missed (Z.to_nat (turns - 1)) (fill_slot true dgp) in
  let dgp := dgp <| dgp_head_block_number := block_num h |> <| dgp_head_block_id := block_id h |>
                 <| dgp_time := header_timestamp h |>
                 <| dgp_current_aslot ::= (fun a => to_uint64_wrap (a + turns)) |>
                 <| dgp_average_block_size ::= (fun a => to_uint32_wrap ((to_uint32_wrap (99 * a) + block_pack_size b) / 100)) |> in
  let dgp := adjust_reserve_ratio hf2 hf12 dgp in
  dgp <| dgp_max_virtual_bandwidth :=
           to_uint64_wrap (dgp_maximum_block_size dgp * dgp_current_reserve_ratio dgp * STEEMIT_BANDWIDTH_PRECISION *
             STEEMIT_BANDWIDTH_AVERAGE_WINDOW_SECONDS) / STEEMIT_BLOCK_INTERVAL |>.

(** [update_global_dynamic_data] *)
Definition update_global_dynamic_data (b : signed_block) (skip : Z) : M unit :=
  let h := block_header b in
  time ← head_block_time;
  missed_blocks ←
    (if negb (time =? 0) then
       slot ← get_slot_at_time (header_timestamp h);
       let missed_blocks := to_uint32_wrap (slot - 1) in
       for_each (miss_slot (header_witness h)) (seqZ 0 missed_blocks) ;;
       mret missed_blocks
     else mret 0);
  hf2 ← has_hardfork STEEMIT_HARDFORK_0_2;
  hf12 ← has_hardfork STEEMIT_HARDFORK_0_12__179;
  modify_dgp (fun dgp => Ok (advance_head b missed_blocks hf2 hf12 dgp)) ;;
  when (negb (has_flag skip skip_undo_history_check))
    (p ← gets dgp;
     lift (if to_uint32_wrap (dgp_head_block_number p - dgp_last_irreversible_block_num p) <? STEEMIT_MAX_UNDO_HISTORY
           then Ok tt else Throw undo_database_exception)).

(** [update_signing_witness] *)
Definition update_signing_witness (signing_witness : string) (new_block : signed_block) : M unit :=
  aslot ← gets (fun db => dgp_current_aslot (dgp db));
  slot ← get_slot_at_time (header_timestamp (block_header new_block));
  let new_block_aslot := to_uint64_wrap (aslot + slot) in
  modify witnesses signing_witness (fun w =>
    Ok (w <| witness_last_aslot := new_block_aslot |>
          <| witness_last_confirmed_block_num := block_num (block_header new_block) |>)).

(** ** The last irreversible block *)

(** [is_transit_enabled] *)
Definition is_transit_enabled : M bool :=
  hf ← has_hardfork STEEMIT_HARDFORK_0_21__1348;
  num ← gets (fun db => dgp_transit_block_num (dgp db));
  mret ((hf : bool) && negb (num =? 2 ^ 32 - 1)).

(** The witnesses of the current round *)
Definition push_scheduled (o : witness_schedule_object) (i : Z) (l : list witness_object) : M (list witness_object) :=
  match wso_current_shuffled_witnesses o !! Z.to_nat i with
  | Some name => w ← get_witness name; mret (l ++ [w])
  | None => throw fc_assert_exception
  end.
Definition scheduled_witnesses : M (list witness_object) :=
  o ← gets wso; fold_each (push_scheduled o) (seqZ 0 (wso_num_scheduled_witnesses o)) [].

(** [process_transit_to_cyberway], less the notification of the plugins and the revision
    of the storage *)
Definition votes_for_transit (w : witness_object) : bool :=
  match witness_schedule w with top19 => true | _ => false end && negb (witness_transit_to_cyberway_vote w =? STEEMIT_GENESIS_TIME).
Definition process_transit_to_cyberway (b : signed_block) : M unit :=
  hf ← has_hardfork STEEMIT_HARDFORK_0_21__1348;
  enabled ← is_transit_enabled;
  when ((hf : bool) && negb enabled)
    (ws ← scheduled_witnesses;
     let transit_witnesses := witness_owner <$> filter votes_for_transit ws in
     when (Z.of_nat (length transit_witnesses) >=? STEEMIT_TRANSIT_REQUIRED_WITNESSES)
       (modify_dgp (fun o => Ok (o <| dgp_transit_block_num := block_num (block_header b) |>
          <| dgp_transit_witnesses ::= (fun l => transit_witnesses ++ drop (length transit_witnesses) l) |>)))).

(** [nth_element] by the last confirmed block: the value at [offset] in the sorted order *)
Definition nth_confirmed (offset : Z) (l : list witness_object) : option Z :=
  sort_by Z.leb (witness_last_confirmed_block_num <$> l) !! Z.to_nat offset.

(** [update_last_irreversible_block] up to [commit] *)
Definition update_last_irreversible_block_num : M unit :=
  num ← head_block_num;
  if num <? STEEMIT_START_MINER_VOTING_BLOCK then
    modify_dgp (fun dpo => Ok (
      if num >? STEEMIT_MAX_WITNESSES
      then dpo <| dgp_last_irreversible_block_num := num - STEEMIT_MAX_WITNESSES |> else dpo))
  else
    wit_objs ← scheduled_witnesses;
    let offset := (STEEMIT_100_PERCENT - STEEMIT_IRREVERSIBLE_THRESHOLD) * Z.of_nat (length wit_objs) / STEEMIT_100_PERCENT in
    match nth_confirmed offset wit_objs with
    | None => throw fc_assert_exception
    | Some confirmed =>
        fixed ← gets fixed_irreversible_block_num;
        let new_num := Z.min (to_uint32_wrap confirmed) fixed in
        p ← gets dgp;
        transit ← is_transit_enabled;
        when (new_num >? dgp_last_irreversible_block_num p)
          (modify_dgp (fun dpo => Ok (dpo <| dgp_last_irreversible_block_num :=
             if (transit : bool) && (dgp_transit_block_num p >? dgp_last_irreversible_block_num p) &&
                (dgp_transit_block_num p <=? new_num)
             then dgp_transit_block_num p else new_num |>)))
    end.
End Production.

(** ** Slots and times *)

#[local] Ltac Zify.zify_post_hook ::= Z.to_euclidean_division_equations.

Section Slots.
Context `{F : fc_ops} `{L : !fc_laws F} `{C : crypto_ops}.

(** The start of slot 0 *)
Definition slot_base (db : database) : Z :=
  let p := dgp db in
  if dgp_head_block_number p =? 0 then dgp_time p else dgp_time p / STEEMIT_BLOCK_INTERVAL * STEEMIT_BLOCK_INTERVAL.

Lemma slot_base_bounds db : slot_base db <= dgp_time (dgp db) < slot_base db + STEEMIT_BLOCK_INTERVAL.
Proof. unfold slot_base, STEEMIT_BLOCK_INTERVAL. destruct (_ =? 0); lia. Qed.

Lemma get_slot_time_run n db : 0 < n -> 0 <= dgp_time (dgp db) -> slot_base db + n * STEEMIT_BLOCK_INTERVAL < 2 ^ 32 ->
  get_slot_time n db = Ok (slot_base db + n * STEEMIT_BLOCK_INTERVAL, db).
Proof.
  intros Hn Ht Hmax. pose proof (slot_base_bounds db) as Hb. unfold STEEMIT_BLOCK_INTERVAL in *.
  assert (0 <= slot_base db) as Hb0 by (unfold slot_base, STEEMIT_BLOCK_INTERVAL; destruct (_ =? 0); lia).
  unfold get_slot_time. rewrite (proj2 (Z.eqb_neq n 0)) by lia. unfold mbind, M_bind, head_block_num, head_block_time, gets. cbv zeta.
  revert Hb Hb0 Hmax. unfold slot_base, STEEMIT_BLOCK_INTERVAL, to_uint32_wrap. destruct (_ =? 0); intros.
  - rewrite (Z.mod_small (n * 3)) by lia. by rewrite time_add_law by lia.
  - rewrite (Z.mod_small (n * 3)), (Z.mod_small (dgp_time (dgp db) / 3 * 3)) by lia. by rewrite time_add_law by lia.
Qed.
Lemma get_slot_at_time_run t db : 0 <= dgp_time (dgp db) -> slot_base db + STEEMIT_BLOCK_INTERVAL < 2 ^ 32 -> t < 2 ^ 32 ->
  get_slot_at_time t db =
    Ok (if t <? slot_base db + STEEMIT_BLOCK_INTERVAL then 0 else (t - slot_base db) / STEEMIT_BLOCK_INTERVAL, db).
Proof.
  intros Ht Hmax Htmax. unfold get_slot_at_time, mbind, M_bind. rewrite get_slot_time_run by lia. rewrite Z.mul_1_l.
  pose proof (slot_base_bounds db) as Hb. unfold STEEMIT_BLOCK_INTERVAL in *.
  destruct (Z.ltb_spec t (slot_base db + 3)); [done|]. unfold mret, M_ret. do 2 f_equal. rewrite time_diff_seconds_law.
  rewrite Z.quot_div_nonneg by lia. unfold to_uint32_wrap. rewrite Z.mod_small by lia. lia.
Qed.

(** Slots and times.  For every slot after the head block, at any time from the start of
    the slot until the start of the next one, and only then, [get_slot_at_time] gives the
    number of the slot back. *)
Theorem slot_round_trip n t db :
  0 <= dgp_time (dgp db) -> 0 < n -> slot_base db + (n + 1) * STEEMIT_BLOCK_INTERVAL < 2 ^ 32 -> 0 <= t < 2 ^ 32 ->
  exists start, get_slot_time n db = Ok (start, db) /\
    (get_slot_at_time t db = Ok (n, db) <-> start <= t < start + STEEMIT_BLOCK_INTERVAL).
Proof.
  intros Ht Hn Hmax Hr. exists (slot_base db + n * STEEMIT_BLOCK_INTERVAL). unfold STEEMIT_BLOCK_INTERVAL in *.
  rewrite get_slot_time_run by (unfold STEEMIT_BLOCK_INTERVAL in *; lia). split; [done|].
  rewrite get_slot_at_time_run by (unfold STEEMIT_BLOCK_INTERVAL; lia). unfold STEEMIT_BLOCK_INTERVAL.
  destruct (Z.ltb_spec t (slot_base db + 3)); split; intros H1; simplify_eq; try lia. do 2 f_equal. lia.
Qed.

(** C20: Who may produce a block.  A header that passes all checks builds on the head block, is
    later than it, is signed with the key of its witness, and that witness is the one
    scheduled for the slot in which the time of the block lies. *)
Theorem header_of_scheduled_witness b w db db' :
  0 <= dgp_time (dgp db) -> header_timestamp (block_header b) + STEEMIT_BLOCK_INTERVAL < 2 ^ 32 ->
  validate_block_header skip_nothing b db = Ok (w, db') ->
  let h := block_header b in
  db' = db /\ w = header_witness h /\ header_previous h = dgp_head_block_id (dgp db) /\ dgp_time (dgp db) < header_timestamp h /\
  exists wit slot start, rows (witnesses db) !! header_witness h = Some wit /\ signee h = Ok (witness_signing_key wit) /\
    0 < slot /\ get_slot_time slot db = Ok (start, db) /\ start <= header_timestamp h < start + STEEMIT_BLOCK_INTERVAL /\
    get_scheduled_witness slot db = Ok (witness_owner wit, db).
Proof.
  intros Ht Hmax H h. unfold validate_block_header, head_block_id, when in H. fold h in H.
  change (negb (has_flag skip_nothing skip_witness_signature)) with true in H.
  change (negb (has_flag skip_nothing skip_witness_schedule_check)) with true in H. cbv iota in H. inv_run.
  pose proof (slot_base_bounds db) as Hb. unfold validate_signee in E2. inv_ok.
  rewrite get_slot_at_time_run in Hrun6 by (fold h in Hmax; unfold STEEMIT_BLOCK_INTERVAL in *; lia). injection Hrun6 as Hslot <-.
  assert (preserves eq (get_scheduled_witness x6)) as Hsame by (unfold get_scheduled_witness; preserve).
  pose proof (Hsame _ _ _ Hrun8) as <-. split_and!; [done | done | lia | lia |].
  destruct (Z.ltb_spec (header_timestamp h) (slot_base db + STEEMIT_BLOCK_INTERVAL)) as [| Hge]; [lia|].
  exists x3, x6, (slot_base db + x6 * STEEMIT_BLOCK_INTERVAL). fold h in Hmax.
  assert (slot_base db + x6 * STEEMIT_BLOCK_INTERVAL <= header_timestamp h < slot_base db + x6 * STEEMIT_BLOCK_INTERVAL + STEEMIT_BLOCK_INTERVAL)
    as Hin by (unfold STEEMIT_BLOCK_INTERVAL in *; lia).
  split_and!; [done | | lia | apply get_slot_time_run; lia | lia | lia | ].
  - apply Z.eqb_eq in E1. congruence.
  - apply bool_decide_eq_true in E. congruence.
Qed.
End Slots.

(** ** The bookkeeping of slots *)

Section Bookkeeping.
Context `{F : fc_ops} `{L : !fc_laws F} `{C : crypto_ops}.
Variables (block_pack_size : signed_block -> Z).

(** [recent_slots_filled] has a bit for each of the last 128 slots and
    [participation_count] the number of bits set; [current_aslot] counts the slots since
    [genesis]. *)
Record slots_counted (genesis : Z) (p : dynamic_global_property_object) : Prop := {
  counted_filled : 0 <= dgp_recent_slots_filled p < 2 ^ 128;
  counted_participation : dgp_participation_count p = bits_set (dgp_recent_slots_filled p);
  counted_start : dgp_head_block_number p = 0 -> dgp_time p mod STEEMIT_BLOCK_INTERVAL = 0;
  counted_time : 0 < dgp_time p < 2 ^ 32;
  counted_aslot : dgp_current_aslot p = dgp_time p / STEEMIT_BLOCK_INTERVAL - genesis / STEEMIT_BLOCK_INTERVAL
}.

(** The top bit *)
Lemma top_bit x : 0 <= x < 2 ^ 128 -> negb (Z.land (u128_hi x) (2 ^ 63) =? 0) = Z.testbit x 127.
Proof.
  intros Hx. rewrite u128_hi_law by done. rewrite <- Z.shiftr_div_pow2 by lia.
  replace (Z.testbit x 127) with (Z.testbit (Z.shiftr x 64) 63) by (by rewrite Z.shiftr_spec by lia).
  set (y := Z.shiftr x 64). assert (Z.land y (2 ^ 63) = if Z.testbit y 63 then 2 ^ 63 else 0) as ->.
  { apply Z.bits_inj'. intros i Hi. rewrite Z.land_spec, Z.pow2_bits_eqb by lia.
    destruct (Z.eqb_spec 63 i) as [<- | Hne].
    - rewrite andb_true_r. by destruct (Z.testbit y 63).
    - rewrite andb_false_r. destruct (Z.testbit y 63); [|by rewrite Z.bits_0]. by rewrite Z.pow2_bits_false by lia. }
  by destruct (Z.testbit y 63).
Qed.

(** The part of the properties that [fill_slot] changes *)
Definition filled (p : dynamic_global_property_object) : Prop :=
  0 <= dgp_recent_slots_filled p < 2 ^ 128 /\ dgp_participation_count p = bits_set (dgp_recent_slots_filled p).
Lemma fill_slot_filled first p : filled p -> filled (fill_slot first p).
Proof.
  intros [Hr Hc]. unfold filled, fill_slot. cbn. rewrite top_bit by done. rewrite u128_add_law, u128_shiftl_law by lia.
  split; [apply Z.mod_pos_bound; lia|]. rewrite Zplus_mod_idemp_l.
  replace (if first then 1 else 0) with (Z.b2z first) by (by destruct first).
  replace (if Z.testbit (dgp_recent_slots_filled p) 127 then 1 else 0) with (Z.b2z (Z.testbit (dgp_recent_slots_filled p) 127))
    by (by destruct (Z.testbit _ _)).
  change (2 ^ 1) with 2. pose proof (bits_set_shift (dgp_recent_slots_filled p) first ltac:(lia)) as Hs.
  pose proof (bits_set_bounds ((dgp_recent_slots_filled p * 2 + Z.b2z first) mod 2 ^ 128)) as Hb.
  rewrite Hc. unfold to_uint8_wrap. rewrite Zplus_mod_idemp_l. rewrite Z.mod_small; [by rewrite Hs | lia].
Qed.
Lemma fill_missed_filled n p : filled p -> filled (fill_missed n p).
Proof. revert p. induction n as [| n IH]; intros p Hp; [done|]. by apply IH, fill_slot_filled. Qed.
Lemma fill_missed_kept n p : dgp_current_aslot (fill_missed n p) = dgp_current_aslot p.
Proof. revert p. induction n as [| n IH]; intros p; [done|]. cbn. by rewrite IH. Qed.

Lemma advance_head_head b missed hf2 hf12 p :
  let p' := advance_head block_pack_size b missed hf2 hf12 p in
  dgp_head_block_number p' = block_num (block_header b) /\ dgp_head_block_id p' = block_id (block_header b) /\
  dgp_time p' = header_timestamp (block_header b) /\ dgp_last_irreversible_block_num p' = dgp_last_irreversible_block_num p.
Proof.
  assert (forall n q, dgp_last_irreversible_block_num (fill_missed n q) = dgp_last_irreversible_block_num q) as Hlib.
  { intros n. induction n as [| n IH]; intros q; [done|]. cbn. by rewrite IH. }
  cbv zeta. unfold advance_head, adjust_reserve_ratio. cbv zeta.
  set (q := if to_uint32_wrap (missed + 1) =? 0 then _ else _).
  assert (dgp_last_irreversible_block_num q = dgp_last_irreversible_block_num p) as <- by (unfold q; destruct (_ =? 0); [done | by rewrite Hlib]).
  destruct (_ mod 20 =? 0); by split_and!.
Qed.
Lemma advance_head_fields b missed hf2 hf12 p : 0 <= missed -> missed + 1 < 2 ^ 32 ->
  let p' := advance_head block_pack_size b missed hf2 hf12 p in
  (filled p -> filled p') /\ dgp_head_block_number p' = block_num (block_header b) /\
  dgp_head_block_id p' = block_id (block_header b) /\ dgp_time p' = header_timestamp (block_header b) /\
  dgp_current_aslot p' = to_uint64_wrap (dgp_current_aslot p + (missed + 1)).
Proof.
  intros Hm Hmax. cbv zeta. unfold advance_head. cbv zeta.
  assert (to_uint32_wrap (missed + 1) = missed + 1) as -> by (unfold to_uint32_wrap; apply Z.mod_small; lia).
  rewrite (proj2 (Z.eqb_neq (missed + 1) 0)) by lia. unfold adjust_reserve_ratio. cbn.
  set (q := fill_missed _ _). assert (filled p -> filled q) as Hq by (intros; by apply fill_missed_filled, fill_slot_filled).
  assert (dgp_current_aslot q = dgp_current_aslot p) as <- by (unfold q; by rewrite fill_missed_kept).
  destruct (_ mod 20 =? 0); cbn; by split_and!.
Qed.
(** What the production of a block leaves alone: everything but the witnesses and the
    notifications *)
Definition same_round (db db' : database) : Prop :=
  dgp db' = dgp db /\ wso db' = wso db /\ hardforks db' = hardforks db /\ fixed_irreversible_block_num db' = fixed_irreversible_block_num db.
#[local] Instance same_round_preorder : PreOrder same_round.
Proof. split; [done|]. intros x y z (? & ? & ? & ?) (? & ? & ? & ?). unfold same_round. split_and!; congruence. Qed.
Lemma modify_witness_round k f : preserves same_round (modify witnesses k f).
Proof. intros db u db' (v & v' & _ & _ & ->)%modify_run. done. Qed.
Lemma push_round op force : preserves same_round (push_virtual_operation op force).
Proof. intros db u db'. unfold push_virtual_operation. repeat case_match; by intros [= _ <-]. Qed.
#[local] Hint Resolve modify_witness_round push_round : preserves.
Lemma miss_slot_round producer i : preserves same_round (miss_slot producer i).
Proof. unfold miss_slot, get_scheduled_witness. preserve. Qed.

Lemma get_slot_at_time_round t : preserves same_round (get_slot_at_time t).
Proof. unfold get_slot_at_time, get_slot_time. preserve. Qed.
Lemma head_update_missed b skip db db' :
  update_global_dynamic_data block_pack_size b skip db = Ok (tt, db') ->
  exists missed hf2 hf12, dgp db' = advance_head block_pack_size b missed hf2 hf12 (dgp db) /\
    (dgp_time (dgp db) <> 0 -> exists slot db0, get_slot_at_time (header_timestamp (block_header b)) db = Ok (slot, db0) /\
       missed = to_uint32_wrap (slot - 1)).
Proof.
  intros H. unfold update_global_dynamic_data in H.
  apply bind_run in H as (t & db1 & H0 & H). unfold head_block_time in H0. apply gets_run in H0 as [-> ->].
  apply bind_run in H as (missed & db1 & H0 & H). exists missed.
  assert (dgp db1 = dgp db /\ (dgp_time (dgp db) <> 0 -> exists slot db0,
    get_slot_at_time (header_timestamp (block_header b)) db = Ok (slot, db0) /\ missed = to_uint32_wrap (slot - 1))) as [Ed Hslot].
  { clear H. destruct (Z.eqb_spec (dgp_time (dgp db)) 0) as [| Hne]; cbn [negb] in H0; inv_run; [done|].
    match goal with
    | Hs : get_slot_at_time _ _ = _, Hm : for_each _ _ _ = _ |- _ =>
        destruct (get_slot_at_time_round _ _ _ _ Hs) as (Es & _);
        destruct (preserves_for_each same_round _ _ (miss_slot_round _) _ _ _ Hm) as (Em & _)
    end. split; [congruence | eauto]. }
  clear H0. inv_run; unfold modify_dgp in *; match goal with H : on_table dgp _ _ = _ |- _ => apply on_table_run in H as (q & [= <-] & ->) end.
  all: do 2 eexists; split; [cbn; by rewrite Ed | done].
Qed.
Lemma head_update_run b skip db db' : dgp_time (dgp db) <> 0 ->
  update_global_dynamic_data block_pack_size b skip db = Ok (tt, db') ->
  exists slot db0 hf2 hf12, get_slot_at_time (header_timestamp (block_header b)) db = Ok (slot, db0) /\
    dgp db' = advance_head block_pack_size b (to_uint32_wrap (slot - 1)) hf2 hf12 (dgp db).
Proof.
  intros Ht (missed & hf2 & hf12 & E & Hslot)%head_update_missed. destruct (Hslot Ht) as (slot & db0 & Es & ->). eauto 8.
Qed.

(** The slots are counted.  Applying a block on time keeps [current_aslot] the number of
    slots since genesis and [participation_count] the number of the last 128 slots that are
    marked in [recent_slots_filled], so that the participation rate is that count; the
    block is the head block and its time the time of the chain. *)
Theorem head_update_counts_slots genesis b skip db db' :
  slots_counted genesis (dgp db) -> 0 < block_num (block_header b) ->
  slot_base db + STEEMIT_BLOCK_INTERVAL <= header_timestamp (block_header b) < 2 ^ 32 ->
  0 <= genesis <= dgp_time (dgp db) ->
  update_global_dynamic_data block_pack_size b skip db = Ok (tt, db') ->
  slots_counted genesis (dgp db') /\ dgp_head_block_number (dgp db') = block_num (block_header b) /\
  dgp_head_block_id (dgp db') = block_id (block_header b) /\ dgp_time (dgp db') = header_timestamp (block_header b) /\
  witness_participation_rate db' = Ok (STEEMIT_100_PERCENT * dgp_participation_count (dgp db') / 128, db').
Proof.
  intros [Hf Hc Hs Ht Ha] Hpos Htime Hgen H.
  assert (slot_base db = dgp_time (dgp db) / STEEMIT_BLOCK_INTERVAL * STEEMIT_BLOCK_INTERVAL) as Hbase.
  { unfold slot_base. destruct (Z.eqb_spec (dgp_head_block_number (dgp db)) 0) as [E | E]; [|done].
    specialize (Hs E). unfold STEEMIT_BLOCK_INTERVAL in *. lia. }
  apply head_update_run in H as (slot & db0 & hf2 & hf12 & Hslot & E); [|lia].
  rewrite get_slot_at_time_run in Hslot by lia. rewrite (proj2 (Z.ltb_ge _ _)) in Hslot by lia. injection Hslot as Eslot _.
  assert (slot = header_timestamp (block_header b) / STEEMIT_BLOCK_INTERVAL - dgp_time (dgp db) / STEEMIT_BLOCK_INTERVAL) as Hslot.
  { rewrite <- Eslot, Hbase. unfold STEEMIT_BLOCK_INTERVAL in *. lia. }
  assert (0 < slot < 2 ^ 32 /\ 0 < header_timestamp (block_header b) < 2 ^ 32) as [Hr Hts] by (unfold STEEMIT_BLOCK_INTERVAL in *; lia).
  assert (to_uint32_wrap (slot - 1) = slot - 1) as Ew by (unfold to_uint32_wrap; apply Z.mod_small; lia). rewrite Ew in E.
  destruct (advance_head_fields b (slot - 1) hf2 hf12 (dgp db)) as (Hfill & Hnum & Hid & Hti & Has); [lia | lia|].
  rewrite <- E in *. destruct Hfill as [Hf' Hc']; [done|]. split_and!; try done.
  - split; [done | done | rewrite Hnum; clear -Hpos; lia | by rewrite Hti |]. rewrite Has, Hti. clear -Ha Hslot Hr Hgen Hts.
    unfold to_uint64_wrap. rewrite Z.mod_small; unfold STEEMIT_BLOCK_INTERVAL in *; lia.
  - unfold witness_participation_rate, mbind, M_bind, gets, mret, M_ret. rewrite u128_popcount_law, <- Hc' by done.
    pose proof (bits_set_bounds (dgp_recent_slots_filled (dgp db'))) as Hb. rewrite <- Hc' in Hb. do 2 f_equal.
    unfold to_uint32_wrap, STEEMIT_100_PERCENT. apply Z.mod_small. clear -Hb. lia.
Qed.
End Bookkeeping.

(** ** The last irreversible block *)

Section Irreversible.
Context `{F : fc_ops} `{L : !fc_laws F} `{C : crypto_ops}.

Lemma scheduled_witnesses_same : preserves eq scheduled_witnesses.
Proof. unfold scheduled_witnesses, push_scheduled. preserve. Qed.

Lemma scheduled_witnesses_rows db ws db' : scheduled_witnesses db = Ok (ws, db') ->
  Forall (fun w => exists name, rows (witnesses db) !! name = Some w) ws.
Proof.
  unfold scheduled_witnesses. intros H. inv_run.
  assert (Forall (fun w => exists name, rows (witnesses db) !! name = Some w) []) as Hnil by constructor.
  revert Hnil H. generalize (@nil witness_object) as l. induction (seqZ 0 _) as [| i l0 IH]; intros l Hl H; cbn in H; inv_run; [done|].
  unfold push_scheduled in Hrun. inv_run. eapply IH; [|exact H]. apply Forall_app. split; [done|]. constructor; [eauto | constructor].
Qed.

(** Three quarters of the witnesses, rounded up, have a last confirmed block not below the
    entry that is looked at. *)
Lemma nth_confirmed_quorum ws confirmed :
  nth_confirmed ((STEEMIT_100_PERCENT - STEEMIT_IRREVERSIBLE_THRESHOLD) * Z.of_nat (length ws) / STEEMIT_100_PERCENT) ws = Some confirmed ->
  3 * Z.of_nat (length ws) <= 4 * Z.of_nat (length (filter (fun w => confirmed <= witness_last_confirmed_block_num w) ws)).
Proof.
  unfold nth_confirmed. intros H. apply sorted_above in H; [|apply sort_by_sorted; lia].
  rewrite sort_by_perm, length_fmap in H.
  rewrite (filter_fmap_length _ (fun w => confirmed <= witness_last_confirmed_block_num w)) in H by done.
  unfold STEEMIT_100_PERCENT, STEEMIT_IRREVERSIBLE_THRESHOLD, STEEMIT_1_PERCENT, STEEMIT_100_PERCENT in H.
  change ((10000 - 75 * (10000 / 100)) * Z.of_nat (length ws) / 10000) with (2500 * Z.of_nat (length ws) / 10000) in H.
  lia.
Qed.

(** C19: What becomes irreversible.  Once witnesses are voted for, the number of the last
    irreversible block never goes down, nothing else of the database changes, and a new
    number is confirmed by at least three quarters of the scheduled witnesses, is not
    above the number the node was told to stop at, and does not pass the block at which
    the transit was enabled. *)
Theorem irreversible_is_confirmed db db' :
  STEEMIT_START_MINER_VOTING_BLOCK <= dgp_head_block_number (dgp db) ->
  map_Forall (fun _ w => 0 <= witness_last_confirmed_block_num w) (rows (witnesses db)) ->
  update_last_irreversible_block_num db = Ok (tt, db') ->
  let old := dgp_last_irreversible_block_num (dgp db) in
  let new := dgp_last_irreversible_block_num (dgp db') in
  db' = db <| dgp := (dgp db) <| dgp_last_irreversible_block_num := new |> |> /\ old <= new /\
  (old < new -> new <= fixed_irreversible_block_num db /\
     (is_transit_enabled db = Ok (true, db) -> old < dgp_transit_block_num (dgp db) -> new <= dgp_transit_block_num (dgp db)) /\
     exists ws, scheduled_witnesses db = Ok (ws, db) /\
       3 * Z.of_nat (length ws) <= 4 * Z.of_nat (length (filter (fun w => new <= witness_last_confirmed_block_num w) ws))).
Proof.
  intros Hnum Hpos H old new. unfold update_last_irreversible_block_num in H. inv_run; [lia| |].
  all: pose proof (scheduled_witnesses_rows _ _ _ Hrun) as Hrows; apply scheduled_witnesses_same in Hrun as Esame; subst db0.
  all: assert (preserves eq is_transit_enabled) as Ht by (unfold is_transit_enabled; preserve).
  all: pose proof (Ht _ _ _ Hrun2) as Et; subst db3.
  2: { subst old new. split_and!; [by destruct db as [] ; destruct dgp | lia | lia]. }
  unfold modify_dgp in H. apply on_table_run in H as (q & [= <-] & ->). subst old new. cbn -[nth_confirmed scheduled_witnesses].
  set (lib := if x2 && _ && _ then _ else _). set (old := dgp_last_irreversible_block_num (dgp db)) in *.
  assert (old < lib /\ lib <= Z.min (to_uint32_wrap z) (fixed_irreversible_block_num db) /\
    (x2 = true -> old < dgp_transit_block_num (dgp db) -> lib <= dgp_transit_block_num (dgp db))) as (Hold & Hlib & Htr).
  { subst lib. destruct x2; cbn; [destruct (Z.gtb_spec (dgp_transit_block_num (dgp db)) old); cbn|]; [|lia..].
    destruct (Z.leb_spec (dgp_transit_block_num (dgp db)) (Z.min (to_uint32_wrap z) (fixed_irreversible_block_num db))); lia. }
  assert (0 <= z) as Hz.
  { unfold nth_confirmed in Heqo. apply list_elem_of_lookup_2 in Heqo. rewrite sort_by_perm in Heqo.
    apply list_elem_of_fmap in Heqo as (w & -> & Hw). rewrite Forall_forall in Hrows. destruct (Hrows w Hw) as [k Hk]. by apply (Hpos k). }
  split_and!; [done | lia |]. intros _. split_and!.
  - lia.
  - intros E. apply Htr. congruence.
  - exists x. split; [done|]. apply nth_confirmed_quorum in Heqo. etrans; [done|]. apply Zmult_le_compat_l; [|lia].
    apply inj_le, filter_length_mono. intros w Hw. assert (to_uint32_wrap z <= z) by (unfold to_uint32_wrap; apply Z.mod_le; lia). lia.
Qed.
End Irreversible.

(** ** A sample round

    Four witnesses; the last blocks they confirmed are 1000, 998, 999 and 990. *)
Definition round_witness (id : Z) (owner : string) (confirmed : Z) : witness_object := {|
  witness_id := id; witness_owner := owner; witness_created := 0; witness_url := ""; witness_total_missed := 0;
  witness_last_aslot := 0; witness_last_confirmed_block_num := confirmed; witness_pow_worker := 0; witness_signing_key := 7 + id;
  witness_props := chain_properties_19_default;
  witness_sbd_exchange_rate := mk_price (mk_asset 0 SBD_SYMBOL) (mk_asset 0 STEEM_SYMBOL);
  witness_last_sbd_exchange_update := 0; witness_votes := 0; witness_schedule := top19;
  witness_virtual_last_update := 0; witness_virtual_position := 0; witness_virtual_scheduled_time := 0;
  witness_last_work := 0; witness_running_version := 0; witness_hardfork_version_vote := 0;
  witness_hardfork_time_vote := 0; witness_transit_to_cyberway_vote := 0 |}.
Definition sample_round : database :=
  blank_database
    <| witnesses := mk_table
        (<["ann" := round_witness 0 "ann" 1000]> (<["ben" := round_witness 1 "ben" 998]>
        (<["cyd" := round_witness 2 "cyd" 999]> (<["don" := round_witness 3 "don" 990]> ∅)))) 4 |>
    <| wso := blank_witness_schedule_object <| wso_current_shuffled_witnesses := ["ann"; "ben"; "cyd"; "don"] |>
                <| wso_num_scheduled_witnesses := 4 |> |>
    <| dgp := blank_dynamic_global_property_object
        <| dgp_head_block_number := 1000 |> <| dgp_head_block_id := endian_reverse_u32 1000 |> <| dgp_time := sample_time |>
        <| dgp_current_aslot := (sample_time - STEEMIT_GENESIS_TIME) / STEEMIT_BLOCK_INTERVAL |>
        <| dgp_recent_slots_filled := 2 ^ 127 + 5 |> <| dgp_participation_count := 3 |>
        <| dgp_maximum_block_size := 65536 |> <| dgp_last_irreversible_block_num := 985 |> |>.
(** The witness of the third slot after the head block, and a block for it *)
Definition sample_producer : string := match get_scheduled_witness 3 sample_round with Ok (w, _) => w | Throw _ => "" end.
Definition sample_block : signed_block :=
  let h := mk_signed_block_header (endian_reverse_u32 1000) (sample_time + 10) sample_producer 0 [] 0 in
  let key := match rows (witnesses sample_round) !! sample_producer with Some w => witness_signing_key w | None => 0 end in
  mk_signed_block (match sign_header key h with Ok h' => h' | Throw _ => h end) [].

Lemma slot_round_trip_witness :
  exists start, get_slot_time 3 sample_round = Ok (start, sample_round) /\
    (get_slot_at_time (sample_time + 10) sample_round = Ok (3, sample_round) <->
     start <= sample_time + 10 < start + STEEMIT_BLOCK_INTERVAL).
Proof.
  refine (slot_round_trip 3 (sample_time + 10) sample_round _ _ _ _);
    vm_compute; first [reflexivity | discriminate | split; [discriminate | reflexivity]].
Defined.

Lemma header_of_scheduled_witness_witness :
  let h := block_header sample_block in
  sample_round = sample_round /\ header_witness h = header_witness h /\ header_previous h = dgp_head_block_id (dgp sample_round) /\
  dgp_time (dgp sample_round) < header_timestamp h /\
  exists wit slot start, rows (witnesses sample_round) !! header_witness h = Some wit /\ signee h = Ok (witness_signing_key wit) /\
    0 < slot /\ get_slot_time slot sample_round = Ok (start, sample_round) /\
    start <= header_timestamp h < start + STEEMIT_BLOCK_INTERVAL /\
    get_scheduled_witness slot sample_round = Ok (witness_owner wit, sample_round).
Proof.
  refine (header_of_scheduled_witness sample_block (header_witness (block_header sample_block)) sample_round sample_round _ _ _);
    vm_compute; first [reflexivity | discriminate].
Defined.

Definition sample_update : M unit := update_global_dynamic_data (fun _ => 200) sample_block skip_nothing.
Lemma sample_round_counted : slots_counted STEEMIT_GENESIS_TIME (dgp sample_round).
Proof. split; vm_compute; first [reflexivity | discriminate | split; [first [discriminate | reflexivity] | reflexivity]]. Qed.
Lemma head_update_counts_slots_witness :
  let db' := run_state sample_update sample_round in
  slots_counted STEEMIT_GENESIS_TIME (dgp db') /\ dgp_head_block_number (dgp db') = block_num (block_header sample_block) /\
  dgp_head_block_id (dgp db') = block_id (block_header sample_block) /\ dgp_time (dgp db') = header_timestamp (block_header sample_block) /\
  witness_participation_rate db' = Ok (STEEMIT_100_PERCENT * dgp_participation_count (dgp db') / 128, db').
Proof.
  refine (head_update_counts_slots (fun _ => 200) STEEMIT_GENESIS_TIME sample_block skip_nothing sample_round _ sample_round_counted _ _ _ _).
  4: run_now.
  all: vm_compute; first [reflexivity | split; first [reflexivity | discriminate]].
Defined.

(** The witnesses "ben", "cyd" and "ann" have confirmed block 998. *)
Lemma irreversible_is_confirmed_witness :
  dgp_last_irreversible_block_num (dgp (run_state update_last_irreversible_block_num sample_round)) = 998 /\
  let db' := run_state update_last_irreversible_block_num sample_round in
  let old := dgp_last_irreversible_block_num (dgp sample_round) in
  let new := dgp_last_irreversible_block_num (dgp db') in
  db' = sample_round <| dgp := (dgp sample_round) <| dgp_last_irreversible_block_num := new |> |> /\ old <= new /\
  (old < new -> new <= fixed_irreversible_block_num sample_round /\
     (is_transit_enabled sample_round = Ok (true, sample_round) -> old < dgp_transit_block_num (dgp sample_round) ->
      new <= dgp_transit_block_num (dgp sample_round)) /\
     exists ws, scheduled_witnesses sample_round = Ok (ws, sample_round) /\
       3 * Z.of_nat (length ws) <= 4 * Z.of_nat (length (filter (fun w => new <= witness_last_confirmed_block_num w) ws))).
Proof.
  split; [vm_compute; reflexivity|].
  refine (irreversible_is_confirmed sample_round (run_state update_last_irreversible_block_num sample_round) _ _ _).
  - vm_compute. discriminate.
  - apply map_Forall_to_list. vm_compute. repeat constructor; discriminate.
  - run_now.
Defined.
