(* ===== verification/Schedule.v ===== *)
(** * The witness schedule

    Once per round of 21 blocks [database::update_witness_schedule] selects who produces the
    next round: the witnesses with the most votes, a miner, and the next one in the queue of
    virtual time; it shuffles them, counts their votes for hardforks and takes the median of
    the properties they propose. *)

From S2P Require Import Prelude Exceptions Text Fc Config Asset AssetProps FlatMap Authority Operations Crypto SignState Transaction BlockId ForkDatabase Objects Database Conservation Sample Preserve Production.

(** The indices of witnesses: [by_vote_name], [by_pow], [by_schedule_time] *)
Definition by_vote_name (x y : witness_object) : bool :=
  if witness_votes y <? witness_votes x then true
  else if witness_votes x <? witness_votes y then false
  else match key_compare (witness_owner x) (witness_owner y) with Gt => false | _ => true end.
Definition by_pow (x y : witness_object) : bool := witness_pow_worker x <=? witness_pow_worker y.
Definition by_schedule_time (x y : witness_object) : bool :=
  if witness_virtual_scheduled_time x <? witness_virtual_scheduled_time y then true
  else if witness_virtual_scheduled_time y <? witness_virtual_scheduled_time x then false
  else witness_id x <=? witness_id y.
Definition witnesses_by (leb : witness_object -> witness_object -> bool) (db : database) : list (string * witness_object) :=
  sort_by (fun x y => leb (snd x) (snd y)) (map_to_list (rows (witnesses db))).

(** ** Selection (hardfork 0.4) *)

Section Selection.
Context `{F : fc_ops}.

(** A witness may be skipped for want of a key since hardfork 0.14. *)
Definition has_key (hf14 : bool) (w : witness_object) : bool := negb (hf14 && (witness_signing_key w =? no_key)).

Definition set_schedule (schedule : witness_schedule_type) (k : string) : M unit :=
  modify witnesses k (fun wo => Ok (wo <| witness_schedule := schedule |>)).

(** The highest voted witnesses *)
Definition select_voted (hf14 : bool) (l : list (string * witness_object)) : list (string * witness_object) :=
  take (Z.to_nat STEEMIT_MAX_VOTED_WITNESSES) (filter (fun kw => has_key hf14 (snd kw)) l).

(** Miners from the top of the mining queue; a processed miner leaves the queue. *)
Fixpoint select_miners (hf14 : bool) (voted : list Z) (queue : list (string * witness_object))
    (selected : list (string * witness_object)) : M (list (string * witness_object)) :=
  match queue with
  | [] => mret selected
  | (k, w) :: queue' =>
      if Z.of_nat (length selected) <? STEEMIT_MAX_MINER_WITNESSES then
        let chosen := negb (bool_decide (witness_id w ∈ voted)) && has_key hf14 w in
        when chosen (set_schedule miner k) ;;
        modify witnesses k (fun wit => Ok (wit <| witness_pow_worker := 0 |>)) ;;
        modify_dgp (fun obj => Ok (obj <| dgp_num_pow_witnesses ::= (fun n => to_uint32_wrap (n - 1)) |>)) ;;
        select_miners hf14 voted queue' (if chosen then selected ++ [(k, w)] else selected)
      else mret selected
  end.

(** The witnesses in the lead of virtual time: the last time seen, all that were looked at and
    those selected; [count] is the number of selected witnesses so far *)
Record runners := mk_runners { runners_time : Z; runners_processed : list string; runners_selected : list string }.
Fixpoint select_runners (hf14 : bool) (others : list Z) (l : list (string * witness_object)) (count : Z) (r : runners) : runners :=
  match l with
  | [] => r
  | (k, w) :: l' =>
      if count <? STEEMIT_MAX_WITNESSES then
        let r := mk_runners (witness_virtual_scheduled_time w) (runners_processed r ++ [k]) (runners_selected r) in
        if has_key hf14 w && negb (bool_decide (witness_id w ∈ others)) then
          select_runners hf14 others l' (count + 1)
            (mk_runners (runners_time r) (runners_processed r) (runners_selected r ++ [k]))
        else select_runners hf14 others l' count r
      else r
  end.

(** The processed witnesses queue up again; true on overflow *)
Fixpoint advance_runners (new_virtual_time : Z) (l : list string) : M bool :=
  match l with
  | [] => mret false
  | k :: l' =>
      w ← get_witness k;
      lap ← lift (u128_div VIRTUAL_SCHEDULE_LAP_LENGTH2 (u128_of_int64 (witness_votes w + 1)));
      let scheduled := u128_add new_virtual_time lap in
      if scheduled <? new_virtual_time then mret true
      else
        modify witnesses k (fun wo => Ok (wo <| witness_virtual_position := 0 |>
          <| witness_virtual_last_update := new_virtual_time |> <| witness_virtual_scheduled_time := scheduled |>)) ;;
        advance_runners new_virtual_time l'
  end.

(** [reset_virtual_schedule_time] *)
Definition reset_virtual_schedule_time : M unit :=
  on_table wso (fun o => Ok (o <| wso_current_virtual_time := 0 |>)) ;;
  all ← gets (witnesses_by (fun x y => witness_id x <=? witness_id y));
  for_each (fun kw => modify witnesses (fst kw) (fun wobj =>
    lap ← u128_div VIRTUAL_SCHEDULE_LAP_LENGTH2 (u128_of_int64 (witness_votes wobj + 1));
    Ok (wobj <| witness_virtual_position := 0 |> <| witness_virtual_last_update := 0 |>
             <| witness_virtual_scheduled_time := lap |>))) all.

(** Who is selected: the names with the numbers of each kind, and the new virtual time *)
Record selection := mk_selection {
  active_witnesses : list string;
  num_elected : Z;
  num_miners : Z;
  num_timeshare : Z;
  new_virtual_time : Z
}.
Definition select_witnesses : M selection :=
  hf14 ← has_hardfork STEEMIT_HARDFORK_0_14__278;
  voted ← gets (fun db => select_voted hf14 (witnesses_by by_vote_name db));
  for_each (set_schedule top19) voted.*1 ;;
  let voted_ids := (fun kw => witness_id (snd kw)) <$> voted in
  queue ← gets (fun db => filter (fun kw => witness_pow_worker (snd kw) > 0) (witnesses_by by_pow db));
  miners ← select_miners hf14 voted_ids queue [];
  let miner_ids := (fun kw => witness_id (snd kw)) <$> miners in
  now ← gets (fun db => wso_current_virtual_time (wso db));
  r ← gets (fun db => select_runners hf14 (voted_ids ++ miner_ids) (witnesses_by by_schedule_time db)
                        (Z.of_nat (length voted) + Z.of_nat (length miners)) (mk_runners now [] []));
  for_each (set_schedule timeshare) (runners_selected r) ;;
  overflow ← advance_runners (runners_time r) (runners_processed r);
  when overflow reset_virtual_schedule_time ;;
  mret (mk_selection (voted.*1 ++ miners.*1 ++ runners_selected r)
          (Z.of_nat (length voted)) (Z.of_nat (length miners)) (Z.of_nat (length (runners_selected r)))
          (if (overflow : bool) then 0 else runners_time r)).

(** The number of selected witnesses is checked after the first days. *)
Definition check_selection (active : list string) : M unit :=
  num ← head_block_num;
  all ← gets (fun db => Z.of_nat (size (rows (witnesses db))));
  when (num >? 14400) (lift (fc_assert (Z.of_nat (length active) =? Z.min STEEMIT_MAX_WITNESSES all))).

(** ** Votes for hardforks *)

(** [flat_map<K, uint32_t>]: counting a key; [before] is the order of the map *)
Fixpoint count_key {K : Type} `{EqDecision K} (before : K -> K -> bool) (k : K) (m : list (K * Z)) : list (K * Z) :=
  match m with
  | [] => [(k, 1)]
  | (k', n) :: m' =>
      if decide (k = k') then (k', to_uint32_wrap (n + 1)) :: m'
      else if before k k' then (k, 1) :: m
      else (k', n) :: count_key before k m'
  end.
Definition count_keys {K : Type} `{EqDecision K} (before : K -> K -> bool) (l : list K) : list (K * Z) :=
  fold_left (fun m k => count_key before k m) l [].

Definition hardfork_vote_before (x y : Z * Z) : bool :=
  (fst x <? fst y) || ((fst x =? fst y) && (snd x <? snd y)).

(** The highest version that a majority runs at least *)
Fixpoint majority_of (on_version : Z) (m : list (Z * Z)) : option Z :=
  match m with
  | [] => None
  | (v, n) :: m' =>
      if on_version + n >=? STEEMIT_HARDFORK_REQUIRED_WITNESSES then Some v else majority_of (on_version + n) m'
  end.
(** The first vote with a majority *)
Definition elected_hardfork (m : list ((Z * Z) * Z)) : option (Z * Z) :=
  fst <$> head (filter (fun vn => snd vn >= STEEMIT_HARDFORK_REQUIRED_WITNESSES) m).

Definition count_hardfork_votes : M Z :=
  majority ← gets (fun db => wso_majority_version (wso db));
  hf5 ← has_hardfork STEEMIT_HARDFORK_0_5__54;
  if (hf5 : bool) then
    wits ← scheduled_witnesses;
    let versions := count_keys (fun x y => y <? x) (witness_running_version <$> wits) in
    let votes := count_keys hardfork_vote_before
      ((fun w => (witness_hardfork_version_vote w, witness_hardfork_time_vote w)) <$> wits) in
    match elected_hardfork votes with
    | Some (version, time) =>
        on_table hardforks (fun hpo => Ok (hpo <| hpo_next_hardfork := version |> <| hpo_next_hardfork_time := time |>))
    | None =>
        on_table hardforks (fun hpo => Ok (hpo <| hpo_next_hardfork := hpo_current_hardfork_version hpo |>))
    end ;;
    mret (default majority (majority_of 0 versions))
  else mret majority.
End Selection.

(** ** Writing the schedule *)

Section Writing.
Context `{F : fc_ops}.

(** The pseudo random number of position [i], in 64 bits *)
Definition xorshift_factor : Z := 2685821657736338717.
Definition shuffle_random (now_hi i : Z) : Z :=
  let k := to_uint64_wrap (now_hi + to_uint64_wrap (i * xorshift_factor)) in
  let k := Z.lxor k (Z.shiftr k 12) in
  let k := Z.lxor k (to_uint64_wrap (Z.shiftl k 25)) in
  let k := Z.lxor k (Z.shiftr k 27) in
  to_uint64_wrap (k * xorshift_factor).

(** [std::swap] of two places of the array *)
Definition swap {A : Type} (i j : nat) (l : list A) : list A :=
  match l !! i, l !! j with
  | Some x, Some y => <[j := x]> (<[i := y]> l)
  | _, _ => l
  end.
Definition shuffle_index (now_hi num i : Z) : Z := to_uint32_wrap (i + shuffle_random now_hi i mod (num - i)).
Definition shuffle (now num : Z) (l : list string) : list string :=
  let now_hi := to_uint64_wrap (Z.shiftl now 32) in
  fold_left (fun l i => swap (Z.to_nat i) (Z.to_nat (shuffle_index now_hi num i)) l) (seqZ 0 num) l.

(** The array of names, filled up with empty names; the number is at least 1 *)
Definition fill_schedule (active : list string) : list string :=
  active ++ replicate (Z.to_nat STEEMIT_MAX_WITNESSES - length active) "".
Definition scheduled_number (active : list string) : Z := Z.max (to_uint8_wrap (Z.of_nat (length active))) 1.

Definition write_schedule (s : selection) (majority_version : Z) : M unit :=
  now ← head_block_time;
  num ← head_block_num;
  let n := scheduled_number (active_witnesses s) in
  on_table wso (fun o => Ok (o
    <| wso_current_shuffled_witnesses := shuffle now n (fill_schedule (active_witnesses s)) |>
    <| wso_num_scheduled_witnesses := n |>
    <| wso_witness_pay_normalization_factor := to_uint32_wrap (wso_top19_weight o * num_elected s +
         wso_miner_weight o * num_miners s + wso_timeshare_weight o * num_timeshare s) |>
    <| wso_current_virtual_time := new_virtual_time s |>
    <| wso_next_shuffle_block_num := to_uint32_wrap (num + n) |>
    <| wso_majority_version := majority_version |>)).

(** ** The median of the proposed properties

    [nth_element] puts a middle one of the witnesses in place; which one, when several
    compare equal, is left to the library, and the model takes the first of them.  Assets are
    compared only with assets of the same symbol. *)
Definition median_by (before : chain_properties_19 -> chain_properties_19 -> bool) (l : list chain_properties_19) : result chain_properties_19 :=
  match sort_by (fun a b => negb (before b a)) l !! (length l / 2)%nat with
  | Some p => Ok p
  | None => Throw fc_assert_exception
  end.
Definition calc_median (param : chain_properties_19 -> Z) (l : list chain_properties_19) : result Z :=
  p ← median_by (fun a b => param a <? param b) l; Ok (param p).
Definition calc_median_asset (param : chain_properties_19 -> asset) (l : list chain_properties_19) : result asset :=
  match l with p :: l' => fc_assert (forallb (fun q => symbol (param q) =? symbol (param p)) l') | [] => Ok tt end ;;
  p ← median_by (fun a b => amount (param a) <? amount (param b)) l; Ok (param p).
Definition consumption (window items : chain_properties_19 -> Z) (p : chain_properties_19) : Z := window p / items p.
Definition calc_median_battery (window items : chain_properties_19 -> Z) (l : list chain_properties_19) : result (Z * Z) :=
  p ← median_by (fun a b =>
        (consumption window items a <? consumption window items b) ||
        ((consumption window items a =? consumption window items b) && (items a <? items b))) l;
  Ok (window p, items p).
Definition calc_median_min_max (min max : chain_properties_19 -> Z) (l : list chain_properties_19) : result (Z * Z) :=
  p ← median_by (fun a b => (min a <? min b) || ((min a =? min b) && (max a <? max b))) l;
  Ok (min p, max p).

Definition curve_number (c : curation_curve) : Z :=
  match c with bounded => 0 | linear => 1 | square_root => 2 | detect => 100 | curve_other v => v end.
Definition calc_median_curve (l : list chain_properties_19) : result curation_curve :=
  p ← median_by (fun a b => curve_number (curation_reward_curve a) <? curve_number (curation_reward_curve b)) l;
  Ok (curation_reward_curve p).
Definition calc_median_bool (param : chain_properties_19 -> bool) (l : list chain_properties_19) : result bool :=
  p ← median_by (fun a b => negb (param a) && param b) l; Ok (param p).

Definition median_properties (l : list chain_properties_19) : result chain_properties_19 :=
  creation_fee ← calc_median_asset (fun p => account_creation_fee (base_17 (base_18 p))) l;
  block_size ← calc_median (fun p => maximum_block_size (base_17 (base_18 p))) l;
  interest ← calc_median (fun p => sbd_interest_rate (base_17 (base_18 p))) l;
  golos_fee ← calc_median_asset (fun p => create_account_min_golos_fee (base_18 p)) l;
  account_delegation ← calc_median_asset (fun p => create_account_min_delegation (base_18 p)) l;
  delegation_time ← calc_median (fun p => create_account_delegation_time (base_18 p)) l;
  delegation ← calc_median_asset (fun p => min_delegation (base_18 p)) l;
  auction ← calc_median auction_window_size l;
  referral_rate ← calc_median max_referral_interest_rate l;
  referral_term ← calc_median max_referral_term_sec l;
  min_fee ← calc_median_asset min_referral_break_fee l;
  max_fee ← calc_median_asset max_referral_break_fee l;
  posts ← calc_median_battery posts_window posts_per_window l;
  comments ← calc_median_battery comments_window comments_per_window l;
  votes ← calc_median_battery votes_window votes_per_window l;
  delegated_rate ← calc_median max_delegated_vesting_interest_rate l;
  multiplier ← calc_median custom_ops_bandwidth_multiplier l;
  curation ← calc_median_min_max min_curation_percent max_curation_percent l;
  curve ← calc_median_curve l;
  distribute ← calc_median_bool allow_distribute_auction_reward l;
  return_to_fund ← calc_median_bool allow_return_auction_reward_to_fund l;
  Ok (mk_chain_properties_19
        (mk_chain_properties_18 (mk_chain_properties_17 creation_fee block_size interest)
           golos_fee account_delegation delegation_time delegation)
        referral_rate referral_term min_fee max_fee (fst posts) (snd posts) (fst comments) (snd comments)
        (fst votes) (snd votes) auction delegated_rate multiplier (fst curation) (snd curation) curve
        return_to_fund distribute).

(** [update_median_witness_props] *)
Definition update_median_witness_props : M unit :=
  active ← scheduled_witnesses;
  median ← lift (median_properties (witness_props <$> active));
  on_table wso (fun o => Ok (o <| wso_median_props := median |>)) ;;
  modify_dgp (fun o => Ok (o <| dgp_maximum_block_size := maximum_block_size (base_17 (base_18 median)) |>
    <| dgp_sbd_interest_rate := sbd_interest_rate (base_17 (base_18 median)) |>
    <| dgp_custom_ops_bandwidth_multiplier := custom_ops_bandwidth_multiplier median |>)).

(** [update_witness_schedule4] *)
Definition update_witness_schedule4 : M unit :=
  s ← select_witnesses;
  check_selection (active_witnesses s) ;;
  majority ← count_hardfork_votes;
  write_schedule s majority ;;
  update_median_witness_props.

(** ** The schedule before hardfork 0.4 *)

(** Votes: witnesses outside the mining queue, and the next one in virtual time; the new
    virtual time *)
Definition select_first : M (list string * Z) :=
  voted ← gets (fun db => take (Z.to_nat (STEEMIT_MAX_WITNESSES - 2))
                            (filter (fun kw => witness_pow_worker (snd kw) = 0) (witnesses_by by_vote_name db)).*1);
  for_each (fun k => modify witnesses k (fun wo => Ok (wo <| witness_virtual_scheduled_time := 2 ^ 128 - 1 |>))) voted ;;
  next ← gets (fun db => head (filter (fun kw => witness_pow_worker (snd kw) = 0) (witnesses_by by_schedule_time db)));
  match next with
  | None => mret (voted, 0)
  | Some (k, w) =>
      let time := witness_virtual_scheduled_time w in
      hf2 ← has_hardfork STEEMIT_HARDFORK_0_2;
      modify witnesses k (fun wo =>
        lap ← u128_div (if (hf2 : bool) then VIRTUAL_SCHEDULE_LAP_LENGTH2 else VIRTUAL_SCHEDULE_LAP_LENGTH)
                (u128_of_int64 (witness_votes wo + 1));
        Ok (wo <| witness_virtual_position := 0 |>
               <| witness_virtual_scheduled_time := u128_add (witness_virtual_scheduled_time wo) lap |>)) ;;
      mret (voted ++ [k], if time =? 2 ^ 128 - 1 then 0 else time)
  end.

(** The mining queue *)
Definition pow_queue (db : database) : list string :=
  (filter (fun kw => witness_pow_worker (snd kw) > 0) (witnesses_by by_pow db)).*1.
Definition pop_pow_witness : M unit :=
  n ← gets (fun db => dgp_num_pow_witnesses (dgp db));
  queue ← gets pow_queue;
  when (n >? STEEMIT_MAX_WITNESSES)
    match queue with
    | [] => mret tt
    | k :: _ =>
        modify witnesses k (fun wit => Ok (wit <| witness_pow_worker := 0 |>)) ;;
        modify_dgp (fun obj => Ok (obj <| dgp_num_pow_witnesses ::= (fun n => to_uint32_wrap (n - 1)) |>))
    end.
Fixpoint add_pow_witnesses (head_block_num : Z) (queue active : list string) : list string :=
  match queue with
  | [] => active
  | k :: queue' =>
      let active := active ++ [k] in
      if (head_block_num >? STEEMIT_START_MINER_VOTING_BLOCK) || (Z.of_nat (length active) >=? STEEMIT_MAX_WITNESSES) then active
      else add_pow_witnesses head_block_num queue' active
  end.

Definition update_witness_schedule_first : M unit :=
  now ← head_block_time;
  num ← head_block_num;
  pows ← gets (fun db => dgp_num_pow_witnesses (dgp db));
  first ← (if (pows =? 0) || (num >? STEEMIT_START_MINER_VOTING_BLOCK) then select_first else mret ([], 0));
  pop_pow_witness ;;
  queue ← gets pow_queue;
  let active := add_pow_witnesses num queue (fst first) in
  pows ← gets (fun db => dgp_num_pow_witnesses (dgp db));
  let n := scheduled_number active in
  on_table wso (fun o => Ok (o
    <| wso_current_shuffled_witnesses := shuffle now n (fill_schedule active) |>
    <| wso_num_scheduled_witnesses := n |>
    <| wso_current_virtual_time ::= (fun t => if (pows =? 0) || (num >? STEEMIT_START_MINER_VOTING_BLOCK) then snd first else t) |>
    <| wso_next_shuffle_block_num := to_uint32_wrap (num + n) |>)) ;;
  update_median_witness_props.

(** [update_witness_schedule] *)
Definition update_witness_schedule : M unit :=
  num ← head_block_num;
  hf4 ← has_hardfork STEEMIT_HARDFORK_0_4;
  when (num mod STEEMIT_MAX_WITNESSES =? 0)
    (if (hf4 : bool) then update_witness_schedule4 else update_witness_schedule_first).
End Writing.

(** ** The shuffle is a permutation *)

Lemma swap_perm {A : Type} i j (l : list A) : swap i j l ≡ₚ l.
Proof.
  unfold swap. destruct (l !! i) as [x|] eqn:Ei, (l !! j) as [y|] eqn:Ej; try done.
  destruct (decide (i = j)) as [-> | Hne].
  - simplify_eq. by rewrite list_insert_insert_eq, list_insert_id.
  - apply Permutation_inj. split; [by rewrite !length_insert|].
    exists (fun k => if decide (k = i) then j else if decide (k = j) then i else k). split.
    + intros k k'. repeat case_decide; congruence.
    + intros k. assert (i < length l /\ j < length l)%nat as [Hi Hj] by (split; by eapply lookup_lt_Some).
      case_decide; [subst; rewrite list_lookup_insert_ne, list_lookup_insert_eq by done; done|].
      case_decide; [subst; rewrite list_lookup_insert_eq by (by rewrite length_insert); done|].
      by rewrite !list_lookup_insert_ne.
Qed.
Lemma length_swap {A : Type} i j (l : list A) : length (swap i j l) = length l.
Proof. by rewrite swap_perm. Qed.
Lemma take_swap {A : Type} i j n (l : list A) : (i < n)%nat -> (j < n)%nat -> take n (swap i j l) = swap i j (take n l).
Proof.
  intros Hi Hj. unfold swap. rewrite !lookup_take. rewrite !decide_True by done.
  destruct (l !! i), (l !! j); try done. by rewrite !take_insert_lt.
Qed.

Lemma shuffle_perm now n l : 0 <= n < 2 ^ 32 -> take (Z.to_nat n) (shuffle now n l) ≡ₚ take (Z.to_nat n) l.
Proof.
  intros Hn. unfold shuffle. set (hi := to_uint64_wrap _). clearbody hi.
  assert (forall i, i ∈ seqZ 0 n -> 0 <= i < n) as Hin by (intros i; rewrite elem_of_seqZ; lia).
  revert l Hin. generalize (seqZ 0 n) as is_. intros is_. induction is_ as [| i is_ IH]; intros l Hin; [done|]. cbn.
  rewrite IH by (intros; apply Hin; by right). assert (0 <= i < n) as Hi by (apply Hin; left).
  assert (0 <= shuffle_index hi n i < n) as Hj.
  { unfold shuffle_index, to_uint32_wrap. pose proof (Z.mod_pos_bound (shuffle_random hi i) (n - i) ltac:(lia)).
    rewrite Z.mod_small; lia. }
  rewrite take_swap by lia. apply swap_perm.
Qed.
Lemma length_shuffle now n l : length (shuffle now n l) = length l.
Proof.
  unfold shuffle. generalize (seqZ 0 n) as is_. intros is_. revert l. induction is_ as [| i is_ IH]; intros l; [done|].
  cbn. by rewrite IH, length_swap.
Qed.

(** ** Who is selected *)

(** What the selection reads of a witness and never changes *)
Definition candidate (w : witness_object) : Z * string * Z * Z :=
  (witness_id w, witness_owner w, witness_votes w, witness_signing_key w).
Record same_candidates (db db' : database) : Prop := mk_same_candidates {
  candidates_rows : forall k, candidate <$> rows (witnesses db') !! k = candidate <$> rows (witnesses db) !! k;
  candidates_hardforks : processed_hardforks db' = processed_hardforks db;
  candidates_head : dgp_head_block_number (dgp db') = dgp_head_block_number (dgp db);
  candidates_time : dgp_time (dgp db') = dgp_time (dgp db)
}.
#[export] Instance same_candidates_preorder : PreOrder same_candidates.
Proof. split; [by split|]. intros x y z [R1 H1 N1 T1] [R2 H2 N2 T2]. split; [intros k; by rewrite R2, R1 | congruence ..]. Qed.

Lemma candidates_modify k f : (forall w w', f w = Ok w' -> candidate w' = candidate w) -> preserves same_candidates (modify witnesses k f).
Proof.
  intros Hf db u db' (w & w' & Hw & Hw' & ->)%modify_run. split; [|done..]. intros k'. cbn. destruct (decide (k' = k)) as [-> | Hne].
  - rewrite lookup_insert_eq, Hw. cbn. f_equal. by apply Hf.
  - by rewrite lookup_insert_ne.
Qed.
Lemma candidates_on_table {T : Type} (proj : database -> T) `{!FieldSetter proj} f :
  (forall db t, f (proj db) = Ok t -> same_candidates db (db <| proj := t |>)) -> preserves same_candidates (on_table proj f).
Proof. intros Hp db u db' (t & Ht & ->)%on_table_run. by apply Hp. Qed.

Ltac candidates_rows :=
  match goal with
  | |- preserves _ (modify witnesses _ _) =>
      apply candidates_modify; let w := fresh "w" in let w' := fresh "w'" in let Hw := fresh "Hw" in intros w w' Hw; inv_ok; by inv_ok
  | |- preserves _ (modify_dgp _) => apply candidates_on_table; intros ? ? [= <-]; by split
  | |- preserves _ (on_table _ _) => apply candidates_on_table; intros ? ? [= <-]; by split
  end.
Ltac candidates_solve := repeat (preserve; try candidates_rows).

Section Chosen.
Context `{F : fc_ops}.

Lemma set_schedule_candidates s k : preserves same_candidates (set_schedule s k).
Proof. unfold set_schedule. candidates_solve. Qed.
Hint Resolve set_schedule_candidates : preserves.
Lemma select_miners_candidates hf voted queue l : preserves same_candidates (select_miners hf voted queue l).
Proof. revert l. induction queue as [| [k w] queue IH]; intros l; cbn [select_miners]; cbv zeta; candidates_solve. Qed.
Lemma advance_runners_candidates t l : preserves same_candidates (advance_runners t l).
Proof. induction l as [| k l IH]; cbn [advance_runners]; cbv zeta; candidates_solve. Qed.
Lemma reset_virtual_candidates : preserves same_candidates reset_virtual_schedule_time.
Proof. unfold reset_virtual_schedule_time. candidates_solve. Qed.
Hint Resolve select_miners_candidates advance_runners_candidates reset_virtual_candidates : preserves.
Lemma select_witnesses_candidates : preserves same_candidates (select_witnesses).
Proof. unfold select_witnesses. cbv zeta. candidates_solve. Qed.

(** The key identifies a witness in both ways. *)
Record witnesses_keyed (db : database) : Prop := mk_witnesses_keyed {
  keyed_owner : forall k w, rows (witnesses db) !! k = Some w -> witness_owner w = k;
  keyed_id : forall k k' w w', rows (witnesses db) !! k = Some w -> rows (witnesses db) !! k' = Some w' -> witness_id w = witness_id w' -> k = k'
}.

Lemma witnesses_by_elem leb db k w : (k, w) ∈ witnesses_by leb db <-> rows (witnesses db) !! k = Some w.
Proof. unfold witnesses_by. rewrite sort_by_perm. apply elem_of_map_to_list. Qed.
Lemma witnesses_by_NoDup leb db : NoDup (witnesses_by leb db).*1.
Proof. unfold witnesses_by. rewrite sort_by_perm. apply NoDup_fst_map_to_list. Qed.

(** Entries of a snapshot, looked up in another *)
Lemma candidate_lookup db db' k w : same_candidates db db' -> rows (witnesses db') !! k = Some w ->
  exists w0, rows (witnesses db) !! k = Some w0 /\ candidate w0 = candidate w.
Proof.
  intros Hs Hw. pose proof (candidates_rows _ _ Hs k) as E. rewrite Hw in E. cbn in E.
  destruct (rows (witnesses db) !! k) as [w0|]; [|done]. exists w0. split; [done|]. cbn in E. congruence.
Qed.

(** A list of keys that are witnesses with a key to sign blocks, none twice *)
Definition eligible (hf14 : bool) (db : database) (k : string) : Prop :=
  exists w, rows (witnesses db) !! k = Some w /\ has_key hf14 w = true.
Definition ids_in (db : database) (ids : list Z) (k : string) : Prop :=
  exists w, rows (witnesses db) !! k = Some w /\ witness_id w ∈ ids.

Lemma select_voted_elem hf14 db k w : (k, w) ∈ select_voted hf14 (witnesses_by by_vote_name db) ->
  rows (witnesses db) !! k = Some w /\ has_key hf14 w = true.
Proof.
  unfold select_voted. rewrite elem_of_take. intros (i & Hi & _).
  apply list_elem_of_lookup_2, list_elem_of_filter in Hi as [Hk Hi%witnesses_by_elem]. split; [done|]. by apply Is_true_true.
Qed.
Lemma select_voted_NoDup hf14 db : NoDup (select_voted hf14 (witnesses_by by_vote_name db)).*1.
Proof.
  unfold select_voted. rewrite fmap_take. eapply sublist_NoDup; [|apply sublist_take].
  eapply sublist_NoDup; [apply (witnesses_by_NoDup by_vote_name db)|]. apply fmap_sublist, sublist_filter.
Qed.

(** Later choices come from a list, have a key and were not chosen before. *)
Definition fresh_choice (hf14 : bool) (before : list Z) (kw : string * witness_object) : Prop :=
  (witness_id (snd kw) ∉ before) /\ has_key hf14 (snd kw) = true.

Lemma select_miners_spec hf14 voted queue sel db m db' : select_miners hf14 voted queue sel db = Ok (m, db') ->
  exists new, m = sel ++ new /\ sublist new queue /\ Forall (fresh_choice hf14 voted) new.
Proof.
  revert sel db. induction queue as [| [k w] queue IH]; intros sel db H; cbn [select_miners] in H; cbv zeta in H.
  { inv_run. exists []. by rewrite app_nil_r. }
  destruct (_ <? _); [|inv_run; exists []; split_and!; [by rewrite app_nil_r | apply sublist_nil_l | done]].
  destruct (negb _ && _) eqn:Ec.
  - apply andb_true_iff in Ec as [Hid Hkey]. apply negb_true_iff, bool_decide_eq_false in Hid.
    inv_run. apply IH in H as (new & -> & Hsub & Hnew). exists ((k, w) :: new).
    split_and!; [by rewrite <- app_assoc | by apply sublist_skip | by constructor].
  - inv_run. apply IH in H as (new & -> & Hsub & Hnew). exists new. split_and!; [done | by apply sublist_cons | done].
Qed.

Lemma select_runners_spec hf14 others l count r : exists new,
  runners_selected (select_runners hf14 others l count r) = runners_selected r ++ new.*1 /\
  sublist new l /\ Forall (fresh_choice hf14 others) new /\
  (count <= STEEMIT_MAX_WITNESSES -> count + Z.of_nat (length new) <= STEEMIT_MAX_WITNESSES).
Proof.
  revert count r. induction l as [| [k w] l IH]; intros count r; cbn [select_runners].
  { exists []. split_and!; [by rewrite app_nil_r | done | done | cbn; lia]. }
  destruct (Z.ltb_spec count STEEMIT_MAX_WITNESSES) as [Hlt | Hge].
  2: { exists []. split_and!; [by rewrite app_nil_r | apply sublist_nil_l | done | cbn; lia]. }
  destruct (has_key hf14 w && _) eqn:Ec.
  - apply andb_true_iff in Ec as [Hkey Hid]. apply negb_true_iff, bool_decide_eq_false in Hid.
    edestruct IH as (new & -> & Hsub & Hnew & Hc). exists ((k, w) :: new). cbn.
    split_and!; [by rewrite <- app_assoc | by apply sublist_skip | by constructor | lia].
  - edestruct IH as (new & -> & Hsub & Hnew & Hc). exists new. split_and!; [done | by apply sublist_cons | done | done].
Qed.

(** Two lists of witnesses of which the second avoids the ids of the first have no key in
    common. *)
Lemma fresh_disjoint db db1 db2 (l1 l2 : list (string * witness_object)) hf14 before :
  witnesses_keyed db -> same_candidates db db1 -> same_candidates db db2 ->
  (forall k w, (k, w) ∈ l1 -> rows (witnesses db1) !! k = Some w /\ witness_id w ∈ before) ->
  (forall k w, (k, w) ∈ l2 -> rows (witnesses db2) !! k = Some w) -> Forall (fresh_choice hf14 before) l2 ->
  forall k, k ∈ l1.*1 -> k ∉ l2.*1.
Proof.
  intros Hk H1 H2 Hl1 Hl2 Hfresh k Hin1 Hin2.
  apply list_elem_of_fmap in Hin1 as ([k1 w1] & -> & Hin1), Hin2 as ([k2 w2] & E & Hin2). cbn in E. subst k2.
  apply Hl1 in Hin1 as [Hr1 Hid]. rewrite Forall_forall in Hfresh. destruct (Hfresh _ Hin2) as [Hnot _]. apply Hl2 in Hin2 as Hr2.
  apply (candidate_lookup _ _ _ _ H1) in Hr1 as (v1 & Ev1 & C1). apply (candidate_lookup _ _ _ _ H2) in Hr2 as (v2 & Ev2 & C2).
  apply Hnot. cbn in *. unfold candidate in *. congruence.
Qed.

Lemma eligible_of hf14 db db1 (l : list (string * witness_object)) : same_candidates db db1 ->
  (forall k w, (k, w) ∈ l -> rows (witnesses db1) !! k = Some w /\ has_key hf14 w = true) -> Forall (eligible hf14 db) l.*1.
Proof.
  intros Hs Hl. apply Forall_forall. intros k ([k1 w] & -> & Hin)%list_elem_of_fmap. apply Hl in Hin as [Hr Hk].
  apply (candidate_lookup _ _ _ _ Hs) in Hr as (w0 & Hw0 & E). exists w0. split; [done|].
  unfold has_key, candidate in *. congruence.
Qed.

Lemma queue_elem (P : string * witness_object -> Prop) `{!forall x, Decision (P x)} leb db new k w :
  sublist new (filter P (witnesses_by leb db)) -> (k, w) ∈ new -> rows (witnesses db) !! k = Some w.
Proof. intros Hsub Hin. pose proof (elem_of_sublist _ _ _ Hin Hsub) as Hk. by apply list_elem_of_filter in Hk as [_ ?%witnesses_by_elem]. Qed.
Lemma queue_NoDup (P : string * witness_object -> Prop) `{!forall x, Decision (P x)} leb db new :
  sublist new (filter P (witnesses_by leb db)) -> NoDup new.*1.
Proof.
  intros Hsub. eapply sublist_NoDup; [apply (witnesses_by_NoDup leb db)|]. apply fmap_sublist. etrans; [done|]. apply sublist_filter.
Qed.

Lemma for_each_candidates {A : Type} (f : A -> M unit) l : (forall x, preserves same_candidates (f x)) -> preserves same_candidates (for_each f l).
Proof. intros Hf. compose preserves_for_each. done. Qed.

Definition voted_now (db : database) : list (string * witness_object) :=
  select_voted (STEEMIT_HARDFORK_0_14__278 <? length (processed_hardforks db))%nat (witnesses_by by_vote_name db).

Definition witness_ids (l : list (string * witness_object)) : list Z := (fun kw => witness_id (snd kw)) <$> l.
Definition hf14_now (db : database) : bool := (STEEMIT_HARDFORK_0_14__278 <? length (processed_hardforks db))%nat.

Lemma choices_distinct db db2 db4 queue miners new : witnesses_keyed db -> same_candidates db db2 -> same_candidates db db4 ->
  sublist miners (filter (fun kw => witness_pow_worker (snd kw) > 0) (witnesses_by queue db2)) ->
  Forall (fresh_choice (hf14_now db) (witness_ids (voted_now db))) miners ->
  sublist new (witnesses_by by_schedule_time db4) ->
  Forall (fresh_choice (hf14_now db) (witness_ids (voted_now db) ++ witness_ids miners)) new ->
  NoDup ((voted_now db).*1 ++ miners.*1 ++ new.*1) /\ Forall (eligible (hf14_now db) db) ((voted_now db).*1 ++ miners.*1 ++ new.*1).
Proof.
  intros Hkeyed H2 H4 Hm Hmf Hn Hnf.
  assert (sublist new (filter (fun _ => True) (witnesses_by by_schedule_time db4))) as Hn'.
  { rewrite filter_all; [done|]. by apply Forall_true. }
  pose proof (fun k w => queue_elem _ _ _ _ k w Hm) as Em. pose proof (fun k w => queue_elem _ _ _ _ k w Hn') as En.
  pose proof (select_voted_elem (hf14_now db) db) as Ev.
  assert (forall l k w, (k, w) ∈ l -> witness_id w ∈ witness_ids l) as Hid.
  { intros l k w Hin. unfold witness_ids. apply list_elem_of_fmap. by exists (k, w). }
  split.
  - apply NoDup_app. split_and!; [apply select_voted_NoDup | |].
    + intros k Hk Hin. apply elem_of_app in Hin as [Hin | Hin]; revert Hin.
      * eapply (fresh_disjoint db db db2); [done | done | done | | exact Em | exact Hmf | exact Hk].
        intros k' w' Hin. split; [by eapply Ev | by eapply Hid].
      * eapply (fresh_disjoint db db db4); [done | done | done | | exact En | exact Hnf | exact Hk].
        intros k' w' Hin. split; [by eapply Ev | apply elem_of_app; left; by eapply Hid].
    + apply NoDup_app. split_and!; [by eapply queue_NoDup | | by eapply queue_NoDup].
      intros k Hk. eapply (fresh_disjoint db db2 db4); [done | done | done | | exact En | exact Hnf | exact Hk].
      intros k' w' Hin. split; [by apply Em | apply elem_of_app; right; by eapply Hid].
  - rewrite !Forall_app. split_and!.
    + apply (eligible_of _ db db); [done|]. intros. by apply Ev.
    + apply (eligible_of _ db db2); [done|]. intros k w Hin. split; [by apply Em|]. rewrite Forall_forall in Hmf. by apply Hmf in Hin as [_ ?].
    + apply (eligible_of _ db db4); [done|]. intros k w Hin. split; [by apply En|]. rewrite Forall_forall in Hnf. by apply Hnf in Hin as [_ ?].
Qed.

(** The selected witnesses are different and have keys; the highest voted are among them. *)
Lemma select_witnesses_spec db s db' : witnesses_keyed db -> select_witnesses db = Ok (s, db') ->
  NoDup (active_witnesses s) /\ Forall (eligible (hf14_now db) db) (active_witnesses s) /\
  (exists rest, active_witnesses s = (voted_now db).*1 ++ rest).
Proof.
  intros Hkeyed H. unfold select_witnesses in H. inv_run.
  all: fold (hf14_now db) in *; fold (voted_now db) in *.
  all: pose proof (for_each_candidates _ _ (set_schedule_candidates _) _ _ _ Hrun1) as H2.
  all: pose proof (select_miners_candidates _ _ _ _ _ _ _ Hrun3) as H4; pose proof (select_miners_spec _ _ _ _ _ _ _ Hrun3) as (m & -> & Hm & Hmf).
  all: cbn [app active_witnesses]; edestruct (select_runners_spec (hf14_now db)) as (new & -> & Hn & Hnf & _); cbn [app runners_selected].
  all: destruct (choices_distinct db db2 db4 by_pow m new) as [Hd He]; [done | done | by etrans | done | done | done | exact Hnf |]; eauto.
Qed.

(** The highest voted have at least as many votes as anyone left out. *)
Lemma by_vote_name_total x y : by_vote_name x y = false -> by_vote_name y x = true.
Proof.
  unfold by_vote_name. destruct (Z.ltb_spec (witness_votes y) (witness_votes x)); [done|].
  destruct (Z.ltb_spec (witness_votes x) (witness_votes y)); [done|]. cbn.
  rewrite (String.compare_antisym (witness_owner y)). by destruct (String.compare _ _).
Qed.
Lemma by_vote_name_trans x y z : by_vote_name x y = true -> by_vote_name y z = true -> by_vote_name x z = true.
Proof.
  unfold by_vote_name.
  destruct (Z.ltb_spec (witness_votes y) (witness_votes x)), (Z.ltb_spec (witness_votes x) (witness_votes y)), (Z.ltb_spec (witness_votes z) (witness_votes y)),
    (Z.ltb_spec (witness_votes y) (witness_votes z)), (Z.ltb_spec (witness_votes z) (witness_votes x)), (Z.ltb_spec (witness_votes x) (witness_votes z)); try done; try lia.
  cbn. destruct (String.compare (witness_owner x) (witness_owner y)) eqn:E1, (String.compare (witness_owner y) (witness_owner z)) eqn:E2; try done; intros _ _.
  - apply string_compare_eq in E1, E2. by rewrite E1, E2, (proj2 (string_compare_eq _ _)).
  - apply string_compare_eq in E1. by rewrite E1, E2.
  - apply string_compare_eq in E2. by rewrite <- E2, E1.
  - by rewrite (string_compare_trans _ _ _ E1 E2).
Qed.
Lemma voted_highest db k w k' w' : (k, w) ∈ voted_now db -> rows (witnesses db) !! k' = Some w' ->
  has_key (hf14_now db) w' = true -> (k', w') ∉ voted_now db -> witness_votes w' <= witness_votes w.
Proof.
  intros Hin Hw' Hkey Hnot. unfold voted_now, select_voted in *. fold (hf14_now db) in *.
  set (l := filter _ (witnesses_by by_vote_name db)) in *.
  assert (StronglySorted (fun x y => by_vote_name (snd x) (snd y) = true) l) as Hs.
  { unfold l. apply (StronglySorted_sublist _ _ (witnesses_by by_vote_name db)); [apply sublist_filter|].
    apply (sort_by_sorted (fun x y => by_vote_name (snd x) (snd y))); intros *; [apply by_vote_name_total | apply by_vote_name_trans]. }
  rewrite <- (take_drop (Z.to_nat STEEMIT_MAX_VOTED_WITNESSES) l) in Hs.
  assert ((k', w') ∈ drop (Z.to_nat STEEMIT_MAX_VOTED_WITNESSES) l) as Hin'.
  { assert ((k', w') ∈ l) as Hl by (apply list_elem_of_filter; split; [by apply Is_true_true | by apply witnesses_by_elem]).
    rewrite <- (take_drop (Z.to_nat STEEMIT_MAX_VOTED_WITNESSES) l) in Hl. by apply elem_of_app in Hl as [? | ?]. }
  pose proof (StronglySorted_app_1_elem_of _ _ _ _ _ Hs Hin Hin') as Hle. cbn in Hle. unfold by_vote_name in Hle.
  destruct (Z.ltb_spec (witness_votes w') (witness_votes w)); [lia|]. destruct (Z.ltb_spec (witness_votes w) (witness_votes w')); [done | lia].
Qed.

Lemma candidates_size db db' : same_candidates db db' -> size (rows (witnesses db')) = size (rows (witnesses db)).
Proof.
  intros Hs. rewrite <- (map_size_fmap candidate (rows (witnesses db'))), <- (map_size_fmap candidate (rows (witnesses db))).
  f_equal. apply map_eq. intros k. rewrite !lookup_fmap. apply Hs.
Qed.

Lemma check_selection_Ok active db u db' : check_selection active db = Ok (u, db') ->
  db' = db /\ (14400 < dgp_head_block_number (dgp db) -> Z.of_nat (length active) = Z.min STEEMIT_MAX_WITNESSES (Z.of_nat (size (rows (witnesses db))))).
Proof. unfold check_selection. intros H. inv_run; split; try done; intros; try lia. apply fc_assert_Ok in E. lia. Qed.
Lemma count_hardfork_votes_run db v db' : count_hardfork_votes db = Ok (v, db') -> exists h, db' = db <| hardforks := h |>.
Proof.
  unfold count_hardfork_votes. intros H. inv_run.
  all: try match goal with Hs : scheduled_witnesses _ = Ok _, Ht : on_table _ _ _ = Ok _ |- _ =>
    apply scheduled_witnesses_same in Hs; subst; apply on_table_run in Ht as (t & _ & ->); by eexists end.
  - destruct p. apply scheduled_witnesses_same in Hrun as <-. apply on_table_run in Hrun0 as (t & _ & ->). by eexists.
  - exists (hardforks db). by destruct db.
Qed.
Lemma median_props_run db u db' : update_median_witness_props db = Ok (u, db') ->
  exists ws m, scheduled_witnesses db = Ok (ws, db) /\ median_properties (witness_props <$> ws) = Ok m /\
    witnesses db' = witnesses db /\ wso db' = (wso db) <| wso_median_props := m |> /\
    dgp db' = (dgp db) <| dgp_maximum_block_size := maximum_block_size (base_17 (base_18 m)) |>
      <| dgp_sbd_interest_rate := sbd_interest_rate (base_17 (base_18 m)) |>
      <| dgp_custom_ops_bandwidth_multiplier := custom_ops_bandwidth_multiplier m |>.
Proof.
  unfold update_median_witness_props. intros H. inv_run. pose proof (scheduled_witnesses_same _ _ _ Hrun) as <-.
  apply on_table_run in Hrun1 as (t & [= <-] & ->). apply on_table_run in H as (p & [= <-] & ->). eexists _, _. by split_and!.
Qed.

(** C11: Who produces the next round.  After the first days, when the schedule was updated,
    the round has 21 places (or one for each witness, if there are fewer): its names, in
    shuffled order, belong to different witnesses, each with a key to sign blocks; the
    (up to 19) highest voted witnesses with keys are among them, and no witness with a key
    that is not one of these has more votes than they. *)
Theorem schedule_of_round db db' :
  witnesses_keyed db -> 14400 < dgp_head_block_number (dgp db) -> (0 < size (rows (witnesses db)))%nat ->
  update_witness_schedule4 db = Ok (tt, db') ->
  let n := Z.min 21 (Z.of_nat (size (rows (witnesses db)))) in
  wso_num_scheduled_witnesses (wso db') = n /\
  exists active,
    take (Z.to_nat n) (wso_current_shuffled_witnesses (wso db')) ≡ₚ active /\ NoDup active /\ Z.of_nat (length active) = n /\
    Forall (eligible (hf14_now db) db) active /\ (forall k w, (k, w) ∈ voted_now db -> k ∈ active) /\
    (forall k w k' w', (k, w) ∈ voted_now db -> rows (witnesses db) !! k' = Some w' -> has_key (hf14_now db) w' = true ->
       (k', w') ∉ voted_now db -> witness_votes w' <= witness_votes w).
Proof.
  intros Hkeyed Hnum Hsize H n. unfold update_witness_schedule4 in H. inv_run.
  destruct (select_witnesses_spec _ _ _ Hkeyed Hrun) as (Hd & He & rest & Hrest).
  pose proof (select_witnesses_candidates _ _ _ Hrun) as Hc.
  apply check_selection_Ok in Hrun0 as [-> Hlen]. rewrite (candidates_head _ _ Hc), (candidates_size _ _ Hc) in Hlen. specialize (Hlen Hnum).
  change STEEMIT_MAX_WITNESSES with 21 in Hlen. fold n in Hlen. assert (1 <= n <= 21) as Hn by lia.
  apply count_hardfork_votes_run in Hrun1 as (h & ->). apply median_props_run in H as (ws & m & _ & _ & _ & -> & _).
  unfold write_schedule in Hrun2. inv_run. apply on_table_run in Hrun2 as (o & [= <-] & ->). cbn -[shuffle fill_schedule].
  assert (scheduled_number (active_witnesses x) = n) as ->.
  { unfold scheduled_number, to_uint8_wrap. rewrite Hlen, Z.mod_small by lia. lia. }
  split; [done|]. exists (active_witnesses x). split_and!; [| done | done | done | |].
  - rewrite shuffle_perm by lia. unfold fill_schedule. by rewrite take_app_length' by lia.
  - intros k w Hin. rewrite Hrest. apply elem_of_app. left. apply list_elem_of_fmap. by exists (k, w).
  - apply voted_highest.
Qed.

(** C32: Witnesses without keys can stop the chain.  Since hardfork 0.14 a witness without a
    key is not selected, but the number of selected witnesses is still compared with the
    number of all witnesses: when fewer than 21 witnesses have keys and there is one without,
    the update of the schedule fails, and with it the application of the block at every end
    of a round. *)
Theorem keyless_witnesses_stop_chain db :
  witnesses_keyed db -> 14400 < dgp_head_block_number (dgp db) -> hf14_now db = true ->
  let keyed := filter (fun kw => has_key true (snd kw) = true) (map_to_list (rows (witnesses db))) in
  Z.of_nat (length keyed) < Z.min 21 (Z.of_nat (size (rows (witnesses db)))) ->
  exists e, update_witness_schedule4 db = Throw e.
Proof.
  intros Hkeyed Hnum Hhf keyed Hfew. destruct (update_witness_schedule4 db) as [[[] db'] | e] eqn:H; [exfalso | by exists e].
  unfold update_witness_schedule4 in H. inv_run. destruct (select_witnesses_spec _ _ _ Hkeyed Hrun) as (Hd & He & _).
  pose proof (select_witnesses_candidates _ _ _ Hrun) as Hc.
  apply check_selection_Ok in Hrun0 as [-> Hlen]. rewrite (candidates_head _ _ Hc), (candidates_size _ _ Hc) in Hlen. specialize (Hlen Hnum).
  change STEEMIT_MAX_WITNESSES with 21 in Hlen. rewrite Hhf in He.
  enough (length (active_witnesses x) <= length keyed)%nat by lia. rewrite <- (length_fmap fst keyed). apply NoDup_incl_length; [by apply NoDup_ListNoDup|].
  intros k Hk%list_elem_of_In. apply list_elem_of_In. rewrite Forall_forall in He. destruct (He k Hk) as (w & Hw & Hkey).
  apply list_elem_of_fmap. exists (k, w). split; [done|]. apply list_elem_of_filter. split; [done|]. by apply elem_of_map_to_list.
Qed.
End Chosen.

(** ** The queue of virtual time *)

Section VirtualTime.
Context `{F : fc_ops} {L : fc_laws F}.

(** Nobody is due before [t], votes and times fit. *)
Definition queued (t : Z) (w : witness_object) : Prop :=
  0 <= t <= witness_virtual_scheduled_time w /\ witness_virtual_scheduled_time w < 2 ^ 128 /\ 0 <= witness_votes w < 2 ^ 63 - 1.
Definition queue_from (t : Z) (db : database) : Prop := map_Forall (fun _ w => queued t w) (rows (witnesses db)).
Definition virtual_time_ok (db : database) : Prop := queue_from (wso_current_virtual_time (wso db)) db.

(** What other steps leave alone *)
Definition place (w : witness_object) : Z * Z := (witness_virtual_scheduled_time w, witness_votes w).
Definition same_queue (db db' : database) : Prop :=
  wso_current_virtual_time (wso db') = wso_current_virtual_time (wso db) /\
  forall k, place <$> rows (witnesses db') !! k = place <$> rows (witnesses db) !! k.
#[local] Instance same_queue_preorder : PreOrder same_queue.
Proof. split; [by split|]. intros x y z [E1 H1] [E2 H2]. split; [congruence | intros k; by rewrite H2, H1]. Qed.
Lemma same_queue_lookup db db' k w' : same_queue db db' -> rows (witnesses db') !! k = Some w' ->
  exists w, rows (witnesses db) !! k = Some w /\ forall t, queued t w -> queued t w'.
Proof.
  intros [_ Hs] Hw. specialize (Hs k). rewrite Hw in Hs. destruct (rows (witnesses db) !! k) as [w|]; [|done].
  exists w. split; [done|]. cbn in Hs. unfold place, queued in *. injection Hs as -> ->. done.
Qed.
Lemma same_queue_from t db db' : same_queue db db' -> queue_from t db -> queue_from t db'.
Proof. intros Hs Hq k w' Hw'. destruct (same_queue_lookup _ _ _ _ Hs Hw') as (w & Hw & H). by eapply H, Hq. Qed.
Lemma queue_modify k f : (forall w w', f w = Ok w' -> place w' = place w) -> preserves same_queue (modify witnesses k f).
Proof.
  intros Hf db u db' (w & w' & Hw & Hw' & ->)%modify_run. split; [done|]. intros k'. cbn. destruct (decide (k' = k)) as [-> | Hne].
  - rewrite lookup_insert_eq, Hw. cbn. f_equal. by apply Hf.
  - by rewrite lookup_insert_ne.
Qed.
Lemma queue_on_table {T : Type} (proj : database -> T) `{!FieldSetter proj} f :
  (forall db t, f (proj db) = Ok t -> same_queue db (db <| proj := t |>)) -> preserves same_queue (on_table proj f).
Proof. intros Hp db u db' (t & Ht & ->)%on_table_run. by apply Hp. Qed.
Lemma set_schedule_queue s k : preserves same_queue (set_schedule s k).
Proof. unfold set_schedule. apply queue_modify. by intros w w' [= <-]. Qed.
Hint Resolve set_schedule_queue : preserves.
Lemma select_miners_queue hf voted queue l : preserves same_queue (select_miners hf voted queue l).
Proof.
  revert l. induction queue as [| [k w] queue IH]; intros l; cbn [select_miners]; cbv zeta; preserve.
  - apply queue_modify. by intros x x' [= <-].
  - apply queue_on_table. by intros db t [= <-].
Qed.

(** A lap takes a witness past the time it starts from, unless the sum overflows. *)
Lemma lap_range w lap : 0 <= witness_votes w < 2 ^ 63 - 1 ->
  u128_div VIRTUAL_SCHEDULE_LAP_LENGTH2 (u128_of_int64 (witness_votes w + 1)) = Ok lap -> 0 <= lap < 2 ^ 128.
Proof.
  intros Hw. unfold VIRTUAL_SCHEDULE_LAP_LENGTH2. rewrite u128_of_int64_law, Z.mod_small by lia. rewrite u128_div_law by lia. intros [= <-].
  split; [apply Z.div_pos; lia|]. apply Z.div_lt_upper_bound; nia.
Qed.

(** After [advance_runners] without overflow everybody is due later. *)
Lemma advance_runners_queue t l db b db' : 0 <= t -> advance_runners t l db = Ok (b, db') -> queue_from 0 db ->
  (forall k w, rows (witnesses db) !! k = Some w -> k ∉ l -> queued t w) ->
  queue_from 0 db' /\ (b = false -> queue_from t db').
Proof.
  intros Ht. revert db. induction l as [| k l IH]; intros db H H0 Hl; cbn [advance_runners] in H.
  { inv_run. split; [done|]. intros _ k w Hw. apply (Hl k w Hw), not_elem_of_nil. }
  cbv zeta in H. inv_run.
  - done.
  - match goal with Hm : modify witnesses _ _ _ = Ok _ |- _ => apply modify_run in Hm as (y & y' & Hy & [= <-] & ->) end. rewrite E0 in Hy. injection Hy as <-.
    pose proof (H0 k x E0) as (_ & _ & Hv). pose proof (lap_range x _ Hv E) as Hlap. apply Z.ltb_ge in Heqb0.
    assert (0 <= u128_add t x0 < 2 ^ 128) as Hs by (rewrite u128_add_law; apply Z.mod_pos_bound; lia).
    apply IH in H; [done | |].
    + apply map_Forall_insert_2; [|done]. unfold queued. cbn -[Z.pow]. lia.
    + intros k' w Hw Hnot. cbn in Hw. destruct (decide (k' = k)) as [-> | Hne].
      * rewrite lookup_insert_eq in Hw. injection Hw as <-. unfold queued. cbn -[Z.pow]. lia.
      * rewrite lookup_insert_ne in Hw by done. apply (Hl k' w Hw). by apply not_elem_of_cons.
Qed.

Lemma reset_virtual_queue db u db' : reset_virtual_schedule_time db = Ok (u, db') -> queue_from 0 db -> queue_from 0 db'.
Proof.
  unfold reset_virtual_schedule_time. intros H H0. inv_run. apply on_table_run in Hrun as (o & [= <-] & ->).
  revert H. generalize (witnesses_by (fun x y => witness_id x <=? witness_id y) (db <| wso := (wso db) <| wso_current_virtual_time := 0 |> |>)) as l.
  assert (queue_from 0 (db <| wso := (wso db) <| wso_current_virtual_time := 0 |> |>)) as H1 by exact H0. revert H1.
  generalize (db <| wso := (wso db) <| wso_current_virtual_time := 0 |> |>) as db1. clear db H0. intros db1 H1 l. revert db1 H1.
  induction l as [| kw l IH]; intros db1 H1 H; cbn in H; inv_run; [done|]. eapply IH, H.
  apply modify_run in Hrun as (w & w' & Hw & Hw' & ->). inv_ok. pose proof (H1 _ _ Hw) as (_ & _ & Hv).
  pose proof (lap_range w _ Hv Hrun) as Hlap. apply map_Forall_insert_2; [|done]. unfold queued. cbn -[Z.pow]. lia.
Qed.

(** The runners are a first part of the queue; the rest is due at the time reached or later. *)
Lemma by_schedule_time_total x y : by_schedule_time x y = false -> by_schedule_time y x = true.
Proof. unfold by_schedule_time. repeat case_match; try done; lia. Qed.
Lemma by_schedule_time_trans x y z : by_schedule_time x y = true -> by_schedule_time y z = true -> by_schedule_time x z = true.
Proof. unfold by_schedule_time. repeat case_match; try done; lia. Qed.
Lemma select_runners_time hf14 others l count r : 
  StronglySorted (fun x y => by_schedule_time (snd x) (snd y) = true) l -> Forall (fun kw => queued (runners_time r) (snd kw)) l -> 0 <= runners_time r ->
  let r' := select_runners hf14 others l count r in
  0 <= runners_time r' /\ (forall k w, (k, w) ∈ l -> k ∉ runners_processed r' -> queued (runners_time r') w) /\
  runners_processed r `prefix_of` runners_processed r'.
Proof.
  intros Hs. revert count r. induction Hs as [| [k w] l Hs IH Hall]; intros count r Hq Ht; cbn [select_runners]; cbv zeta.
  { split_and!; [done | | done]. intros k w []%elem_of_nil. }
  apply Forall_cons in Hq as [Hw Hq]. destruct (count <? STEEMIT_MAX_WITNESSES).
  2: { split_and!; [done | | done]. intros k' w' [[= -> ->] | Hin]%elem_of_cons _; [done|]. rewrite Forall_forall in Hq. by apply (Hq _ Hin). }
  assert (0 <= witness_virtual_scheduled_time w) as Hw0 by (destruct Hw; cbn in *; lia).
  assert (Forall (fun kw => queued (witness_virtual_scheduled_time w) (snd kw)) l) as Hq'.
  { rewrite Forall_forall in *. intros kw Hin. specialize (Hall _ Hin). destruct (Hq _ Hin) as (_ & ? & ?).
    unfold by_schedule_time in Hall. cbn in Hall. split; [|done]. repeat case_match; try done; lia. }
  assert (forall c r', runners_time r' = witness_virtual_scheduled_time w -> runners_processed r' = runners_processed r ++ [k] ->
    let r'' := select_runners hf14 others l c r' in
    0 <= runners_time r'' /\ (forall k0 w0, (k0, w0) ∈ (k, w) :: l -> k0 ∉ runners_processed r'' -> queued (runners_time r'') w0) /\
    runners_processed r `prefix_of` runners_processed r'') as Hgo.
  { intros c r' Et Ep r''. destruct (IH c r') as (H1 & H2 & H3); [by rewrite Et | by rewrite Et|]. fold r'' in H1, H2, H3.
    rewrite Ep in H3. split_and!; [done | | etrans; [|exact H3]; by apply prefix_app_r].
    intros k0 w0 [[= -> ->] | Hin]%elem_of_cons Hnot; [|by apply (H2 k0 w0)].
    destruct Hnot. destruct H3 as [m ->]. apply elem_of_app. left. apply elem_of_app. right. by left. }
  destruct (has_key _ _ && _); by apply Hgo.
Qed.

(** The selection leaves nobody due before the new virtual time. *)
Lemma runners_queue db4 db7 r b db8 : virtual_time_ok db4 -> 0 <= wso_current_virtual_time (wso db4) -> same_queue db4 db7 ->
  (exists hf14 others count, r = select_runners hf14 others (witnesses_by by_schedule_time db4) count
                                   (mk_runners (wso_current_virtual_time (wso db4)) [] [])) ->
  advance_runners (runners_time r) (runners_processed r) db7 = Ok (b, db8) ->
  queue_from 0 db8 /\ (b = false -> queue_from (runners_time r) db8).
Proof.
  intros Hq Ht Hs (hf14 & others & count & ->) H.
  destruct (select_runners_time hf14 others (witnesses_by by_schedule_time db4) count (mk_runners (wso_current_virtual_time (wso db4)) [] []))
    as (H1 & H2 & _).
  - apply (sort_by_sorted (fun x y => by_schedule_time (snd x) (snd y))); intros *; [apply by_schedule_time_total | apply by_schedule_time_trans].
  - apply Forall_forall. intros [k w] Hin%witnesses_by_elem. by apply (Hq k w).
  - done.
  - eapply advance_runners_queue; [exact H1 | exact H | |].
    + eapply same_queue_from; [done|]. intros k w Hw. destruct (Hq k w Hw) as (? & ? & ?). unfold queued. lia.
    + intros k w Hw Hnot. destruct (same_queue_lookup _ _ _ _ Hs Hw) as (w4 & Hw4 & Himp). apply Himp, (H2 k w4); [by apply witnesses_by_elem | done].
Qed.

Lemma select_witnesses_queue db s db' : select_witnesses db = Ok (s, db') -> 0 <= wso_current_virtual_time (wso db) ->
  virtual_time_ok db -> queue_from (new_virtual_time s) db'.
Proof.
  intros H Ht Hq. unfold select_witnesses in H. inv_run.
  all: pose proof (preserves_for_each same_queue _ _ (set_schedule_queue _) _ _ _ Hrun1) as Hs2.
  all: pose proof (select_miners_queue _ _ _ _ _ _ _ Hrun3) as Hs4.
  all: pose proof (preserves_for_each same_queue _ _ (set_schedule_queue _) _ _ _ Hrun6) as Hs7.
  all: assert (same_queue db db4) as Hs by (by etrans).
  all: edestruct (runners_queue db4 db7) as [H0 Hf]; [.. | eauto | exact Hrun7 |];
    [unfold virtual_time_ok; rewrite (proj1 Hs); by eapply same_queue_from | by rewrite (proj1 Hs) | done | ].
  - cbn. by eapply reset_virtual_queue.
  - cbn. by apply Hf.
Qed.

(** C30: Nobody is overtaken in the queue of virtual time.  Whenever the schedule is updated
    or the votes of a witness change (since hardfork 0.4), no witness is due before the
    current virtual time afterwards, if none was before: the time only moves on to those
    that come next, those that were looked at queue up behind it, and when the 128-bit
    time would overflow the whole queue starts again from zero. *)
Theorem virtual_time_invariant db db' :
  virtual_time_ok db -> 0 <= wso_current_virtual_time (wso db) < 2 ^ 128 ->
  (STEEMIT_HARDFORK_0_4 < length (processed_hardforks db))%nat ->
  (update_witness_schedule4 db = Ok (tt, db') \/
   exists owner delta w, rows (witnesses db) !! owner = Some w /\ 0 <= witness_votes w + delta < 2 ^ 63 - 1 /\
     adjust_witness_vote owner delta db = Ok (tt, db')) ->
  virtual_time_ok db'.
Proof.
  intros Hq Ht Hhf [H | (owner & delta & w & Hw & Hv & H)].
  - unfold update_witness_schedule4 in H. inv_run. apply select_witnesses_queue in Hrun; [| lia | done].
    apply check_selection_Ok in Hrun0 as [-> _]. apply count_hardfork_votes_run in Hrun1 as (h & ->).
    apply median_props_run in H as (ws & m & _ & _ & Ew & Eo & _). unfold write_schedule in Hrun2. inv_run.
    apply on_table_run in Hrun2 as (o & [= <-] & ->). unfold virtual_time_ok, queue_from. rewrite Ew, Eo. exact Hrun.
  - unfold adjust_witness_vote in H. inv_run. apply Nat.ltb_lt in Hhf. rewrite Hhf in H.
    apply modify_run in H as (v & v' & Hv1 & Hv' & ->). rewrite Hw in Hv1. injection Hv1 as <-. cbv zeta in Hv'. inv_ok.
    apply map_Forall_insert_2; [|exact Hq]. apply safe_add_Ok in Hrun as ->. unfold queued. cbn -[Z.pow].
    assert (0 <= u128_add (wso_current_virtual_time (wso db)) a1 < 2 ^ 128) as Hr by (rewrite u128_add_law; apply Z.mod_pos_bound; lia).
    destruct (Z.ltb_spec (u128_add (wso_current_virtual_time (wso db)) a1) (wso_current_virtual_time (wso db))); lia.
Qed.
End VirtualTime.

(** ** The medians *)

Section Medians.
Context `{F : fc_ops}.

(** [m] is a value of the list; at least half of the values are not less and more than
    half are not greater. *)
Definition median_value (l : list Z) (m : Z) : Prop :=
  m ∈ l /\ (length l <= 2 * length (filter (fun x => (m <= x)%Z) l))%nat /\ (length l < 2 * length (filter (fun x => (x <= m)%Z) l))%nat.

Lemma median_by_value (param : chain_properties_19 -> Z) l p :
  median_by (fun a b => param a <? param b) l = Ok p -> median_value (param <$> l) (param p).
Proof.
  unfold median_by. destruct (_ !! _) as [q|] eqn:E; [|done]. intros [= ->].
  set (leb := fun a b => negb (param b <? param a)) in *. pose proof (sort_by_perm leb l) as Hp.
  destruct (sorted_rank leb (sort_by leb l) (length l / 2) p) as [H1 H2]; [| | done |].
  - intros x _. unfold leb. by rewrite Z.ltb_irrefl.
  - apply sort_by_sorted; unfold leb; intros *; rewrite ?negb_true_iff, ?negb_false_iff, ?Z.ltb_lt, ?Z.ltb_ge; lia.
  - rewrite Hp in H1, H2. split_and!.
    + apply list_elem_of_fmap. exists p. split; [done|]. rewrite <- Hp. by eapply list_elem_of_lookup_2.
    + rewrite length_fmap, (filter_fmap_length (fun x => param p <= x) (fun x => leb p x = true)).
      * pose proof (Nat.div_mod_eq (length l) 2); pose proof (Nat.mod_upper_bound (length l) 2); lia.
      * intros x. unfold leb. rewrite negb_true_iff, Z.ltb_ge. done.
    + rewrite length_fmap, (filter_fmap_length (fun x => x <= param p) (fun x => leb x p = true)).
      * pose proof (Nat.div_mod_eq (length l) 2); pose proof (Nat.mod_upper_bound (length l) 2); lia.
      * intros x. unfold leb. rewrite negb_true_iff, Z.ltb_ge. done.
Qed.

(** The numbers among the properties; the amounts of the assets are numbers too. *)
Definition numeric_properties : list (chain_properties_19 -> Z) :=
  [ (fun p => amount (account_creation_fee (base_17 (base_18 p)))); (fun p => maximum_block_size (base_17 (base_18 p)));
    (fun p => sbd_interest_rate (base_17 (base_18 p))); (fun p => amount (create_account_min_golos_fee (base_18 p)));
    (fun p => amount (create_account_min_delegation (base_18 p))); (fun p => create_account_delegation_time (base_18 p));
    (fun p => amount (min_delegation (base_18 p))); auction_window_size; max_referral_interest_rate; max_referral_term_sec;
    (fun p => amount (min_referral_break_fee p)); (fun p => amount (max_referral_break_fee p));
    max_delegated_vesting_interest_rate; custom_ops_bandwidth_multiplier ].

Lemma calc_median_value param l m : calc_median param l = Ok m -> median_value (param <$> l) m.
Proof. unfold calc_median. intros H. inv_ok. by apply median_by_value. Qed.
Lemma calc_median_asset_value param l m : calc_median_asset param l = Ok m -> median_value ((fun p => amount (param p)) <$> l) (amount m).
Proof. unfold calc_median_asset. intros H. inv_ok. by apply (median_by_value (fun p => amount (param p))). Qed.

Lemma median_properties_values l m : median_properties l = Ok m -> Forall (fun param => median_value (param <$> l) (param m)) numeric_properties.
Proof.
  unfold median_properties. intros H. inv_ok. repeat constructor; cbn;
    first [by apply calc_median_value | by apply calc_median_asset_value].
Qed.

(** The window and the number of a pair of properties, or the bounds, come from one witness. *)
Lemma median_by_elem before l p : median_by before l = Ok p -> p ∈ l.
Proof.
  unfold median_by. destruct (_ !! _) as [q|] eqn:E; [|done]. intros [= ->].
  rewrite <- (sort_by_perm (fun a b => negb (before b a)) l). by eapply list_elem_of_lookup_2.
Qed.

(** The chain runs on medians.  Each number among the properties that the chain uses -
    fees, block size, interest rates, windows - is the median of what the scheduled
    witnesses propose: one of them proposes it, at least half of them propose no less and
    more than half of them no more.  The least and the greatest share of curators are
    those of one witness.  Block size, interest rate and bandwidth multiplier are copied to
    the global properties. *)
Theorem median_props_are_medians db db' :
  update_median_witness_props db = Ok (tt, db') ->
  exists ws, scheduled_witnesses db = Ok (ws, db) /\
    let proposed := witness_props <$> ws in
    let median := wso_median_props (wso db') in
    Forall (fun param => median_value (param <$> proposed) (param median)) numeric_properties /\
    (exists p, p ∈ proposed /\ min_curation_percent median = min_curation_percent p /\ max_curation_percent median = max_curation_percent p) /\
    dgp_maximum_block_size (dgp db') = maximum_block_size (base_17 (base_18 median)) /\
    dgp_sbd_interest_rate (dgp db') = sbd_interest_rate (base_17 (base_18 median)) /\
    dgp_custom_ops_bandwidth_multiplier (dgp db') = custom_ops_bandwidth_multiplier median.
Proof.
  intros H. apply median_props_run in H as (ws & m & Hws & Hm & _ & -> & ->). exists ws. split; [done|]. cbn.
  split_and!; [by apply median_properties_values | | done..].
  unfold median_properties, calc_median_min_max in Hm. inv_ok. cbn. eexists. split; [by eapply median_by_elem | done].
Qed.
End Medians.

(** ** A sample update

    Five witnesses, of whom eve is in the mining queue *)
Definition schedule_owners : list (string * Z) := [("ann", 500); ("ben", 300); ("cyd", 300); ("don", 10); ("eve", 0)].
Definition schedule_witness (i : nat) (p : string * Z) : string * witness_object :=
  (fst p, (round_witness (Z.of_nat i) (fst p) 0) <| witness_votes := snd p |> <| witness_virtual_scheduled_time := 100 + Z.of_nat i |>
            <| witness_pow_worker := if String.eqb (fst p) "eve" then 3 else 0 |>).
Definition schedule_database : database :=
  blank_database
    <| witnesses := mk_table (list_to_map (imap schedule_witness schedule_owners)) 5 |>
    <| wso := blank_witness_schedule_object <| wso_current_shuffled_witnesses := schedule_owners.*1 |>
         <| wso_num_scheduled_witnesses := 5 |> <| wso_current_virtual_time := 50 |> |>
    <| dgp := blank_dynamic_global_property_object
         <| dgp_head_block_number := 14700 |> <| dgp_time := sample_time |> <| dgp_num_pow_witnesses := 1 |>
         <| dgp_total_vesting_shares := mk_asset 100000 VESTS_SYMBOL |> |>.

Ltac keyed_now := split;
  [ intros k w; rewrite <- elem_of_map_to_list; vm_compute; intros Hin;
    repeat (apply elem_of_cons in Hin as [[= -> ->] | Hin]; [reflexivity|]); by apply elem_of_nil in Hin
  | intros k k' w w'; rewrite <- !elem_of_map_to_list; vm_compute; intros Hin Hin';
    repeat (apply elem_of_cons in Hin as [[= -> ->] | Hin]);
      repeat (apply elem_of_cons in Hin' as [[= -> ->] | Hin']); by first [apply elem_of_nil in Hin | apply elem_of_nil in Hin' | idtac] ].

Lemma schedule_of_round_witness :
  let db' := run_state (update_witness_schedule4 (F := fc_ref)) schedule_database in
  wso_num_scheduled_witnesses (wso db') = 5 /\
  exists active, take 5 (wso_current_shuffled_witnesses (wso db')) ≡ₚ active /\ NoDup active.
Proof.
  intros db'.
  destruct (schedule_of_round (F := fc_ref) schedule_database db') as (H1 & active & H2 & H3 & _).
  - keyed_now.
  - vm_compute. reflexivity.
  - vm_compute. lia.
  - unfold db'. run_now.
  - split; [exact H1 | exists active; split; [exact H2 | exact H3]].
Defined.

Lemma sample_virtual_time : virtual_time_ok schedule_database.
Proof. unfold virtual_time_ok, queue_from, queued. apply (bool_decide_unpack _). vm_compute. exact I. Qed.
Lemma virtual_time_invariant_witness :
  virtual_time_ok (run_state (update_witness_schedule4 (F := fc_ref)) schedule_database) /\
  virtual_time_ok (run_state (adjust_witness_vote (F := fc_ref) "don" 25) schedule_database).
Proof.
  split.
  - refine (virtual_time_invariant (F := fc_ref) schedule_database _ sample_virtual_time _ _ _);
      [vm_compute; split; [discriminate | reflexivity] | vm_compute; lia |]. left. run_now.
  - refine (virtual_time_invariant (F := fc_ref) schedule_database _ sample_virtual_time _ _ _);
      [vm_compute; split; [discriminate | reflexivity] | vm_compute; lia |]. right.
    exists "don", 25, (snd (schedule_witness 3 ("don", 10))). split_and!; [vm_compute; reflexivity | vm_compute; discriminate | vm_compute; reflexivity | run_now].
Defined.

Lemma median_props_are_medians_witness :
  let db' := run_state update_median_witness_props schedule_database in
  exists ws, scheduled_witnesses schedule_database = Ok (ws, schedule_database) /\
    median_value ((fun p => maximum_block_size (base_17 (base_18 p))) <$> (witness_props <$> ws)) (dgp_maximum_block_size (dgp db')).
Proof.
  intros db'. destruct (median_props_are_medians schedule_database db') as (ws & Hws & Hall & _ & E & _).
  - unfold db'. run_now.
  - exists ws. split; [exact Hws|]. rewrite E. rewrite Forall_forall in Hall. apply (Hall (fun p => maximum_block_size (base_17 (base_18 p)))).
    right. left.
Defined.

(** With a sixth witness that has no key *)
Definition keyless_database : database :=
  schedule_database <| witnesses := mk_table
    (<["fay" := (round_witness 5 "fay" 0) <| witness_signing_key := 0 |>]> (rows (witnesses schedule_database))) 6 |>.
Lemma keyless_witnesses_stop_chain_witness : exists e, update_witness_schedule4 (F := fc_ref) keyless_database = Throw e.
Proof.
  apply (keyless_witnesses_stop_chain (F := fc_ref) keyless_database).
  - keyed_now.
  - vm_compute. reflexivity.
  - vm_compute. reflexivity.
  - vm_compute. reflexivity.
Defined.
