(* ===== verification/Bookkeeping.v ===== *)
(** * Bookkeeping

    What a block and its transactions write down besides moving value and votes: the
    bandwidth an account uses, the known transactions, the summaries of blocks, the head
    block, the witnesses' record and the schedule of the next round.  None of it touches
    what the objects hold or how anyone votes: [bookkept] says what stays, and every part of
    the bookkeeping of [_apply_block] keeps it. *)

From S2P Require Import Prelude Exceptions Text Fc Config Asset AssetProps FlatMap Authority Operations Crypto SignState Transaction BlockId ForkDatabase Objects Database Conservation Sample Preserve Production Schedule.

Section Recording.
Context `{F : fc_ops} `{C : crypto_ops}.
Variable trx_pack_size : signed_transaction -> Z.

(** [create_block_summary] *)
Definition create_block_summary (next_block : signed_block) : M unit :=
  modify block_summaries (Z.land (block_num (block_header next_block)) 65535) (fun p =>
    Ok (p <| block_summary_block_id := block_id (block_header next_block) |>)).

(** [update_account_bandwidth] *)
Definition decayed_bandwidth (now : Z) (b : account_bandwidth_object) : result Z :=
  let delta_time := time_diff_seconds now (account_bandwidth_last_bandwidth_update b) in
  if delta_time >? STEEMIT_BANDWIDTH_AVERAGE_WINDOW_SECONDS then Ok 0
  else
    q ← u128_div (u128_mul (u128_of_int64 (STEEMIT_BANDWIDTH_AVERAGE_WINDOW_SECONDS - delta_time))
                    (u128_of_int64 (account_bandwidth_average_bandwidth b)))
          (u128_of_int64 STEEMIT_BANDWIDTH_AVERAGE_WINDOW_SECONDS);
    n ← u128_to_uint64 q; Ok (safe_of_uint64 n).
Definition update_account_bandwidth (name : string) (trx_size : Z) (type : bandwidth_type) : M bool :=
  p ← gets dgp;
  if amount (dgp_total_vesting_shares p) >? 0 then
    a ← get_account name;
    now ← head_block_time;
    found ← find_row account_bandwidths (name, type);
    match found with
    | Some _ => mret tt
    | None => create account_bandwidths (name, type) (fun id => mk_account_bandwidth_object id name type 0 0 0)
    end ;;
    let trx_bandwidth := trx_size * STEEMIT_BANDWIDTH_PRECISION in
    modify account_bandwidths (name, type) (fun b =>
      decayed ← decayed_bandwidth now b;
      new_bandwidth ← safe_add decayed trx_bandwidth;
      lifetime ← safe_add (account_bandwidth_lifetime_bandwidth b) trx_bandwidth;
      Ok (b <| account_bandwidth_average_bandwidth := new_bandwidth |> <| account_bandwidth_lifetime_bandwidth := lifetime |>
            <| account_bandwidth_last_bandwidth_update := now |>)) ;;
    band ← get_row account_bandwidths "account_bandwidth" (name, type);
    vests ← lift (effective_vesting_shares a);
    let has_bandwidth :=
      u128_mul (u128_of_int64 (amount vests)) (dgp_max_virtual_bandwidth p) >?
      u128_mul (u128_of_int64 (account_bandwidth_average_bandwidth band)) (u128_of_int64 (amount (dgp_total_vesting_shares p))) in
    producing ← gets is_producing;
    when (producing : bool) (check_logic_m has_bandwidth account_exceeded_bandwidth_per_vestring_share) ;;
    mret has_bandwidth
  else mret true.

(** The loop over the operations that charges for the first of a special kind *)
Fixpoint charge_special (hf19 : bool) (multiplier trx_size : Z) (name : string) (ops : list operation) : M unit :=
  match ops with
  | [] => mret tt
  | op :: l =>
      if is_market_operation op then
        update_account_bandwidth name (to_uint32_wrap (trx_size * 10)) market ;; mret tt
      else if hf19 && is_custom_json_operation op then
        update_account_bandwidth name (to_uint32_wrap (trx_size * multiplier)) custom_json ;; mret tt
      else charge_special hf19 multiplier trx_size name l
  end.
Definition charge_bandwidth (trx : signed_transaction) : M unit :=
  let r := get_required_authorities (operations trx) in
  let required := fs_insert_all (required_posting r) (fs_insert_all (required_owner r) (required_active r)) in
  let trx_size := trx_pack_size trx in
  hf19 ← has_hardfork STEEMIT_HARDFORK_0_19__924;
  multiplier ← gets (fun db => dgp_custom_ops_bandwidth_multiplier (dgp db));
  for_each (fun name =>
    check_account_exists name ;;
    update_account_bandwidth name (to_uint32_wrap trx_size) forum ;;
    charge_special (hf19 : bool) multiplier trx_size name (operations trx)) required.

(** [clear_expired_transactions]; each turn removes one. *)
Definition by_trx_expiration (x y : transaction_object) : comparison :=
  cmp_then (Z.compare (transaction_expiration x) (transaction_expiration y)) (Z.compare (transaction_id x) (transaction_id y)).
Definition trx_expired (now : Z) (t : transaction_object) : bool := transaction_expiration t <? now.
Definition clear_expired_transactions : M unit :=
  fuel ← gets (fun db => S (size (rows (transactions db))));
  drain fuel (fun db => first_due (trx_expired (dgp_time (dgp db))) by_trx_expiration (transactions db)) (remove transactions).
End Recording.

(** ** What bookkeeping leaves alone *)

(** The global properties without those that describe the head block, the round and the
    bounds voted for by the witnesses *)
Definition blank_properties (p : dynamic_global_property_object) : dynamic_global_property_object :=
  p <| dgp_head_block_number := 0 |> <| dgp_head_block_id := 0 |> <| dgp_time := 0 |> <| dgp_current_witness := "" |>
    <| dgp_num_pow_witnesses := 0 |> <| dgp_sbd_interest_rate := 0 |> <| dgp_average_block_size := 0 |>
    <| dgp_maximum_block_size := 0 |> <| dgp_current_aslot := 0 |> <| dgp_recent_slots_filled := 0 |>
    <| dgp_participation_count := 0 |> <| dgp_last_irreversible_block_num := 0 |> <| dgp_max_virtual_bandwidth := 0 |>
    <| dgp_current_reserve_ratio := 0 |> <| dgp_custom_ops_bandwidth_multiplier := 0 |> <| dgp_transit_block_num := 0 |>
    <| dgp_transit_witnesses := [] |>.
(** A witness as the votes see it *)
Definition same_seat (w w' : witness_object) : Prop :=
  witness_id w' = witness_id w /\ witness_owner w' = witness_owner w /\ witness_votes w' = witness_votes w.

(** ... and the time, unless the head block [moves] *)
Record bookkept (moves : bool) (db db' : database) : Prop := mk_bookkept {
  kept_accounts : accounts db' = accounts db;
  kept_authorities : authorities db' = authorities db;
  kept_escrows : escrows db' = escrows db;
  kept_savings : savings_withdraws db' = savings_withdraws db;
  kept_requests : convert_requests db' = convert_requests db;
  kept_orders : limit_orders db' = limit_orders db;
  kept_routes : vesting_routes db' = vesting_routes db;
  kept_delegations : delegations db' = delegations db;
  kept_expirations : delegation_expirations db' = delegation_expirations db;
  kept_histories : owner_histories db' = owner_histories db;
  kept_recoveries : recovery_requests db' = recovery_requests db;
  kept_partners : change_recovery_requests db' = change_recovery_requests db;
  kept_witness_votes : account_witness_votes db' = account_witness_votes db;
  kept_comments : comments db' = comments db;
  kept_comment_votes : comment_votes db' = comment_votes db;
  kept_hardforks : processed_hardforks db' = processed_hardforks db;
  kept_witness_counter : next_id (witnesses db') = next_id (witnesses db);
  kept_seats : forall o, option_Forall2 same_seat (rows (witnesses db) !! o) (rows (witnesses db') !! o);
  kept_properties : blank_properties (dgp db') = blank_properties (dgp db);
  kept_time : moves = false -> dgp_time (dgp db') = dgp_time (dgp db)
}.
#[export] Instance same_seat_preorder : PreOrder same_seat.
Proof. split; [by intros w|]. unfold same_seat. intros x y z (? & ? & ?) (? & ? & ?). split_and!; congruence. Qed.
#[export] Instance bookkept_preorder moves : PreOrder (bookkept moves).
Proof.
  split.
  - intros db. by split.
  - intros x y z H1 H2. split; intros; try (etrans; [apply H2 | apply H1]; done).
    etrans; [apply H1 | apply H2].
Qed.

Section Rows.
Variable moves : bool.

Lemma bookkept_on_table {T : Type} (proj : database -> T) `{!FieldSetter proj} f :
  (forall db t, f (proj db) = Ok t -> bookkept moves db (db <| proj := t |>)) -> preserves (bookkept moves) (on_table proj f).
Proof. intros Hp db u db' (t & Ht & ->)%on_table_run. by apply Hp. Qed.
Lemma bookkept_witness k f : (forall w w', f w = Ok w' -> same_seat w w') -> preserves (bookkept moves) (modify witnesses k f).
Proof.
  intros Hf db u db' (w & w' & Hw & Hw'%Hf & ->)%modify_run. split; try done. intros o. cbn.
  destruct (decide (o = k)) as [-> | Hne]; [rewrite Hw, lookup_insert_eq; by constructor | by rewrite lookup_insert_ne].
Qed.
Lemma bookkept_dgp f : (forall p p', f p = Ok p' -> blank_properties p' = blank_properties p /\ (moves = false -> dgp_time p' = dgp_time p)) -> preserves (bookkept moves) (modify_dgp f).
Proof. intros Hf. apply bookkept_on_table. intros db t [Hb Ht]%Hf. by split. Qed.
Lemma bookkept_push op force : preserves (bookkept moves) (push_virtual_operation op force).
Proof. by intros db u db' (n & l & ->)%push_virtual_operation_run. Qed.
End Rows.
#[export] Hint Resolve bookkept_push : preserves.

Ltac bookkept_rows :=
  match goal with
  | |- preserves _ (modify witnesses _ _) =>
      apply bookkept_witness; let w := fresh "w" in let w' := fresh "w'" in let Hw := fresh "Hw" in
      intros w w' Hw; cbv zeta in Hw; inv_ok; repeat case_match; by split_and!
  | |- preserves _ (modify_dgp _) =>
      apply bookkept_dgp; let p := fresh "p" in let p' := fresh "p'" in let Hp := fresh "Hp" in
      intros p p' Hp; cbv zeta in Hp; inv_ok; repeat case_match; by split
  | |- preserves _ (modify _ _ _) => unfold modify at 1
  | |- preserves _ (create _ _ _) => unfold create at 1
  | |- preserves _ (remove _ _) => unfold remove at 1
  | |- preserves _ (on_table hardforks _) => apply bookkept_on_table; intros ? ? [= <-]; by split
  | |- preserves _ (on_table _ _) => apply bookkept_on_table; intros ? ? _; by split
  end.
Ltac bookkept_solve := repeat (preserve; try bookkept_rows).

Section Bookkept.
Context `{F : fc_ops} `{C : crypto_ops}.
Variable block_pack_size : signed_block -> Z.

Lemma update_account_bandwidth_bookkept name n t : preserves (bookkept false) (update_account_bandwidth name n t).
Proof. unfold update_account_bandwidth. cbv zeta. bookkept_solve. Qed.
Hint Resolve update_account_bandwidth_bookkept : preserves.
Lemma charge_special_bookkept hf m n name ops : preserves (bookkept false) (charge_special hf m n name ops).
Proof. induction ops as [| op l IH]; cbn [charge_special]; bookkept_solve. Qed.
Hint Resolve charge_special_bookkept : preserves.
Lemma charge_bandwidth_bookkept size trx : preserves (bookkept false) (charge_bandwidth size trx).
Proof. unfold charge_bandwidth. cbv zeta. bookkept_solve. Qed.

Lemma select_miners_bookkept hf voted queue l : preserves (bookkept false) (select_miners hf voted queue l).
Proof. revert l. induction queue as [| [k w] queue IH]; intros l; cbn [select_miners]; unfold set_schedule; cbv zeta; bookkept_solve. Qed.
Lemma advance_runners_bookkept t l : preserves (bookkept false) (advance_runners t l).
Proof. induction l as [| k l IH]; cbn [advance_runners]; cbv zeta; bookkept_solve. Qed.
Hint Resolve select_miners_bookkept advance_runners_bookkept : preserves.
Lemma select_witnesses_bookkept : preserves (bookkept false) select_witnesses.
Proof. unfold select_witnesses, set_schedule, reset_virtual_schedule_time. cbv zeta. bookkept_solve. Qed.
Lemma schedule_bookkept : preserves (bookkept false) update_witness_schedule.
Proof.
  pose proof select_witnesses_bookkept. unfold update_witness_schedule, update_witness_schedule4, update_witness_schedule_first, check_selection,
    count_hardfork_votes, write_schedule, update_median_witness_props, select_first, pop_pow_witness, scheduled_witnesses, push_scheduled.
  cbv zeta. bookkept_solve.
Qed.
Lemma irreversible_bookkept : preserves (bookkept false) update_last_irreversible_block_num.
Proof. unfold update_last_irreversible_block_num, scheduled_witnesses, push_scheduled, is_transit_enabled. cbv zeta. bookkept_solve. Qed.
Lemma transit_bookkept b : preserves (bookkept false) (process_transit_to_cyberway b).
Proof. unfold process_transit_to_cyberway, is_transit_enabled, scheduled_witnesses, push_scheduled. cbv zeta. bookkept_solve. Qed.
Lemma header_extensions_bookkept b : preserves (bookkept false) (process_header_extensions b).
Proof. unfold process_header_extensions. cbv zeta. bookkept_solve. Qed.
Lemma signing_witness_bookkept w b : preserves (bookkept false) (update_signing_witness w b).
Proof. unfold update_signing_witness, get_slot_at_time, get_slot_time. cbv zeta. bookkept_solve. Qed.

(** The head block moves *)
Lemma fill_missed_blank n p : blank_properties (fill_missed n p) = blank_properties p.
Proof. revert p. induction n as [| n IH]; intros p; [done|]. cbn [fill_missed]. by rewrite IH. Qed.
Lemma advance_head_blank b missed hf2 hf12 p : blank_properties (advance_head block_pack_size b missed hf2 hf12 p) = blank_properties p.
Proof.
  unfold advance_head, adjust_reserve_ratio. cbv zeta. set (q := if to_uint32_wrap (missed + 1) =? 0 then _ else _).
  assert (blank_properties q = blank_properties p) as <- by (unfold q; destruct (_ =? 0); [done | by rewrite fill_missed_blank]).
  by destruct (_ mod 20 =? 0).
Qed.
Lemma head_update_bookkept b skip : preserves (bookkept true) (update_global_dynamic_data block_pack_size b skip).
Proof.
  unfold update_global_dynamic_data, get_slot_at_time, get_slot_time, miss_slot, get_scheduled_witness. cbv zeta. bookkept_solve.
  all: match goal with |- preserves _ (modify_dgp _) => apply bookkept_dgp; intros ? ? [= <-]; split; [apply advance_head_blank | done] end.
Qed.

(** The bookkeeping of a block and of its transactions, but for the head block *)
Inductive bookkeeping : M unit -> Prop :=
| keep_virtual_op n : bookkeeping (on_table current_virtual_op (fun _ => Ok n))
| keep_bandwidth size trx : bookkeeping (charge_bandwidth size trx)
| keep_transaction id trx : bookkeeping (create transactions id (fun n => mk_transaction_object n id (expiration trx)))
| keep_current_witness name : bookkeeping (modify_dgp (fun p => Ok (p <| dgp_current_witness := name |>)))
| keep_header_extensions b : bookkeeping (process_header_extensions b)
| keep_signing_witness name b : bookkeeping (update_signing_witness name b)
| keep_irreversible : bookkeeping update_last_irreversible_block_num
| keep_summary b : bookkeeping (create_block_summary b)
| keep_expired_transactions : bookkeeping clear_expired_transactions
| keep_schedule : bookkeeping update_witness_schedule
| keep_transit b : bookkeeping (process_transit_to_cyberway b).

Lemma bookkeeping_bookkept m : bookkeeping m -> preserves (bookkept false) m.
Proof.
  intros []; [by bookkept_solve | apply charge_bandwidth_bookkept | by bookkept_solve | by bookkept_solve | apply header_extensions_bookkept
    | apply signing_witness_bookkept | apply irreversible_bookkept | unfold create_block_summary; by bookkept_solve
    | unfold clear_expired_transactions; by bookkept_solve | apply schedule_bookkept | apply transit_bookkept].
Qed.
End Bookkept.
