(* ===== verification/Burning.v ===== *)
(** * What the account "null" owns is burned

    Once per block [clear_null_account_balance] takes all that "null" holds out of the
    supplies.  The books keep balancing when the value of its vesting shares is an amount,
    that is no 64-bit number read as negative; it is one whenever the shares are at most
    all shares there are. *)

From S2P Require Import Prelude Exceptions Text Fc Config Asset AssetProps FlatMap Authority Operations Objects Database Conservation Sample Transfers Preserve.

(** The value that [clear_null_vesting] takes from the fund is an amount. *)
Definition burnable `{F : fc_ops} (db : database) : Prop :=
  forall a v, rows (accounts db) !! STEEMIT_NULL_ACCOUNT = Some a ->
    asset_mul_price (account_vesting_shares a) (get_vesting_share_price (dgp db)) = Ok v -> 0 <= amount v.

(** ** What emptying a balance leaves alone *)

Definition same_shares_held (a a' : account_object) : Prop := account_vesting_shares a' = account_vesting_shares a.
#[export] Instance same_shares_held_preorder : PreOrder same_shares_held.
Proof. split; [done|]. unfold same_shares_held. intros x y z. congruence. Qed.
Record same_stake (db db' : database) : Prop := mk_same_stake {
  stake_accounts : accounts_rel same_shares_held db db';
  stake_fund : dgp_total_vesting_fund_steem (dgp db') = dgp_total_vesting_fund_steem (dgp db);
  stake_total : dgp_total_vesting_shares (dgp db') = dgp_total_vesting_shares (dgp db)
}.
#[export] Instance same_stake_preorder : PreOrder same_stake.
Proof.
  split; [intros db; split; [by apply (accounts_rel_same same_shares_held) | done..]|].
  intros x y z [] []. split; [by etrans | congruence | congruence].
Qed.
Lemma stake_modify_account k f : (forall a a', f a = Ok a' -> same_shares_held a a') -> preserves same_stake (modify accounts k f).
Proof.
  intros Hf db u db' H. pose proof (modify_accounts_rel same_shares_held _ _ _ _ _ Hf H). by apply modify_run in H as (? & ? & _ & _ & ->).
Qed.
Lemma stake_modify_dgp f :
  (forall p p', f p = Ok p' -> dgp_total_vesting_fund_steem p' = dgp_total_vesting_fund_steem p /\
     dgp_total_vesting_shares p' = dgp_total_vesting_shares p) -> preserves same_stake (modify_dgp f).
Proof.
  intros Hf db u db' (p & [E1 E2]%Hf & ->)%on_table_run. split; [by apply (accounts_rel_same same_shares_held) | done | done].
Qed.
Lemma stake_push op force : preserves same_stake (push_virtual_operation op force).
Proof.
  intros db u db' (n & l & ->)%push_virtual_operation_run. split; [by apply (accounts_rel_same same_shares_held) | done | done].
Qed.
#[local] Hint Resolve stake_push : preserves.
Ltac stake_rows :=
  match goal with
  | |- preserves _ (modify accounts _ _) =>
      apply stake_modify_account; let a := fresh "a" in let a' := fresh "a'" in let Ha := fresh "Ha" in
      intros a a' Ha; cbv zeta in Ha; inv_ok; reflexivity
  | |- preserves _ (modify_dgp _) =>
      apply stake_modify_dgp; let p := fresh "p" in let p' := fresh "p'" in let Hp := fresh "Hp" in
      intros p p' Hp; inv_ok; split; reflexivity
  end.
Ltac stake_solve := repeat (preserve; try stake_rows).

Section Burning.
Context `{F : fc_ops} {L : fc_laws F}.

Lemma adjust_balance_stake name delta : preserves same_stake (adjust_balance name delta).
Proof. unfold adjust_balance, adjust_sbd_balance, accrue_sbd_interest, pay_interest_supply. cbv zeta. stake_solve. Qed.
Lemma adjust_savings_balance_stake name delta : preserves same_stake (adjust_savings_balance name delta).
Proof. unfold adjust_savings_balance, accrue_savings_interest, pay_interest_supply. cbv zeta. stake_solve. Qed.
Hint Resolve adjust_balance_stake adjust_savings_balance_stake : preserves.
Lemma clear_null_balance_stake get adjust total : (forall name delta, preserves same_stake (adjust name delta)) ->
  preserves same_stake (clear_null_balance get adjust total).
Proof. intros Ha. unfold clear_null_balance. stake_solve. Qed.

Lemma price_same_stake db db' : same_stake db db' -> get_vesting_share_price (dgp db') = get_vesting_share_price (dgp db).
Proof. intros [_ Ef Et]. unfold get_vesting_share_price. by rewrite Ef, Et. Qed.
Lemma burnable_same_stake db db' : same_stake db db' -> burnable db -> burnable db'.
Proof.
  intros Hs Hb a' v Ha' Hv. pose proof (stake_accounts _ _ Hs STEEMIT_NULL_ACCOUNT) as Hrel. rewrite Ha' in Hrel.
  inversion Hrel as [a ? Hsame Ea |]; subst. rewrite Hsame, (price_same_stake _ _ Hs) in Hv. by eapply Hb.
Qed.

(** ** The books *)

Variable sym : Z.

Lemma clear_null_balance_gap get adjust total db total' db' :
  (forall name delta db u db', adjust name delta db = Ok (u, db') -> gap sym db' = gap sym db - amount_in sym delta) ->
  0 <= amount total -> clear_null_balance get adjust total db = Ok (total', db') ->
  0 <= amount total' /\ gap sym db' - amount_in sym total' = gap sym db - amount_in sym total.
Proof.
  intros Hadj Ht H. unfold clear_null_balance in H. inv_run; [|done].
  match goal with H : adjust _ _ _ = _ |- _ => apply Hadj in H end.
  match goal with H : asset_add _ _ = _ |- _ => pose proof (proj1 (asset_add_Ok _ _ _) H) as (_ & _ & Esum) end.
  split; [rewrite Esum; cbn; lia|]. gap_solve sym.
Qed.
Lemma clear_null_vesting_gap total db total' db' : burnable db -> 0 <= amount total ->
  clear_null_vesting total db = Ok (total', db') ->
  0 <= amount total' /\ gap sym db' - amount_in sym total' = gap sym db - amount_in sym total.
Proof.
  intros Hb Ht H. unfold clear_null_vesting in H. inv_run; [|done].
  match goal with H : asset_mul_price _ _ = _ |- _ => pose proof (Hb _ _ ltac:(eassumption) H) as Hv end.
  match goal with H : asset_add total _ = _ |- _ => pose proof (proj1 (asset_add_Ok _ _ _) H) as (_ & _ & Esum) end.
  split; [rewrite Esum; cbn; lia|]. clear Esum. gap_primitive sym. gap_primitive sym. inv_ok.
  match goal with Ea : accounts ?d = accounts db, Hx : rows (accounts ?d) !! _ = Some _, Hy : rows (accounts db) !! _ = Some _ |- _ =>
    rewrite Ea, Hy in Hx; injection Hx as <- end.
  gap_arith sym.
Qed.
Lemma burn_gap total db u db' : 0 <= amount total -> burn total db = Ok (u, db') -> gap sym db' = gap sym db - amount_in sym total.
Proof.
  intros Ht H. unfold burn, when in H. destruct (Z.gtb_spec (amount total) 0) as [Hp | Hp].
  - inv_run. apply (adjust_supply_gap sym) in H. amounts sym. lia.
  - apply mret_run in H as [_ ->]. unfold amount_in. case_match; lia.
Qed.

(** The balances of "null", its shares and what they are worth leave it and the supplies
    together. *)
Lemma clear_null_account_gap db u db' : burnable db -> clear_null_account_balance db = Ok (u, db') -> gap sym db' = gap sym db.
Proof.
  intros Hb H. unfold clear_null_account_balance in H. apply bind_run in H as (hf & db0 & [-> ->]%gets_run & H).
  unfold when in H. case_match; [|by apply mret_run in H as [_ ->]].
  apply bind_run in H as (u0 & db0 & Hex & H). assert (preserves eq (check_account_exists STEEMIT_NULL_ACCOUNT)) as Hsame by preserve.
  apply Hsame in Hex as <-.
  apply bind_run in H as (t1 & db1 & H1 & H). apply bind_run in H as (t2 & db2 & H2 & H).
  apply bind_run in H as (t3 & db3 & H3 & H). apply bind_run in H as (t4 & db4 & H4 & H).
  apply bind_run in H as (t5 & db5 & H5 & H). apply bind_run in H as (u6 & db6 & H6 & H7).
  assert (burnable db4) as Hb4.
  { apply (burnable_same_stake db); [|exact Hb]. etrans; [|exact (clear_null_balance_stake _ _ _ adjust_savings_balance_stake _ _ _ H4)].
    etrans; [|exact (clear_null_balance_stake _ _ _ adjust_balance_stake _ _ _ H3)].
    etrans; [|exact (clear_null_balance_stake _ _ _ adjust_savings_balance_stake _ _ _ H2)].
    exact (clear_null_balance_stake _ _ _ adjust_balance_stake _ _ _ H1). }
  destruct (clear_null_balance_gap _ _ (mk_asset 0 STEEM_SYMBOL) _ _ _ (adjust_balance_gap sym) (Z.le_refl 0) H1) as [P1 G1].
  destruct (clear_null_balance_gap _ _ _ _ _ _ (adjust_savings_balance_gap sym) P1 H2) as [P2 G2].
  destruct (clear_null_balance_gap _ _ (mk_asset 0 SBD_SYMBOL) _ _ _ (adjust_balance_gap sym) (Z.le_refl 0) H3) as [P3 G3].
  destruct (clear_null_balance_gap _ _ _ _ _ _ (adjust_savings_balance_gap sym) P3 H4) as [P4 G4].
  destruct (clear_null_vesting_gap _ _ _ _ Hb4 P2 H5) as [P5 G5].
  apply (burn_gap _ _ _ _ P5) in H6. apply (burn_gap _ _ _ _ P4) in H7.
  rewrite !amount_in_zero in *. lia.
Qed.
End Burning.

(** "null" has no more shares than there are, and the amounts are 64-bit numbers. *)
Lemma burnable_covered `{F : fc_ops} {L : fc_laws F} db :
  (forall a, rows (accounts db) !! STEEMIT_NULL_ACCOUNT = Some a ->
     symbol (account_vesting_shares a) = VESTS_SYMBOL /\
     0 <= amount (account_vesting_shares a) <= amount (dgp_total_vesting_shares (dgp db))) ->
  amount (dgp_total_vesting_shares (dgp db)) < 2 ^ 63 -> symbol (dgp_total_vesting_shares (dgp db)) = VESTS_SYMBOL ->
  0 <= amount (dgp_total_vesting_fund_steem (dgp db)) < 2 ^ 63 -> burnable db.
Proof.
  intros Ha Ht Es Hf a v Hnull Hv. destruct (Ha a Hnull) as [Ea Hle]. unfold get_vesting_share_price in Hv.
  destruct ((amount (dgp_total_vesting_fund_steem (dgp db)) =? 0) || (amount (dgp_total_vesting_shares (dgp db)) =? 0)) eqn:E.
  - rewrite (asset_mul_price_quote _ _ "GESTS" "GOLOS") in Hv by (unfold symbol_name; cbn [base quote symbol]; rewrite ?Ea; done).
    cbn [amount base quote symbol] in Hv. rewrite mul_div_spec in Hv by lia. destruct (_ <? 2 ^ 64); [|done]. injection Hv as <-. cbn.
    assert (0 <= amount (account_vesting_shares a) * 1000 / 1000000 < 2 ^ 63) as Hq.
    { split; [apply Z.div_pos; lia | apply Z.div_lt_upper_bound; lia]. }
    rewrite safe_of_uint64_law by (apply is_int64_spec; lia). apply Hq.
  - apply orb_false_iff in E as [E1 E2]. bool_to_prop. rewrite (asset_mul_price_base _ _ "GESTS") in Hv by (unfold symbol_name; cbn [base quote symbol]; rewrite ?Ea, ?Es; done).
    cbn [amount base quote symbol] in Hv. rewrite mul_div_spec in Hv by lia. destruct (_ <? 2 ^ 64); [|done]. injection Hv as <-. cbn.
    assert (0 <= amount (account_vesting_shares a) * amount (dgp_total_vesting_fund_steem (dgp db)) / amount (dgp_total_vesting_shares (dgp db)) < 2 ^ 63) as Hq.
    { split; [apply Z.div_pos; nia | apply Z.div_lt_upper_bound; nia]. }
    rewrite safe_of_uint64_law by (apply is_int64_spec; lia). apply Hq.
Qed.
