(* ===== verification/Funds.v ===== *)
(** * Inflation, rewards and the price feed

    The block steps of [database.cpp] that create GOLOS and value GBG: [process_funds] with
    the rewards of the first hardforks ([compound.hpp]), [pay_liquidity_reward],
    [update_median_feed] and [update_virtual_supply]. *)

From S2P Require Import Prelude Exceptions Text Fc Config Asset AssetProps FlatMap Authority Operations Crypto SignState Transaction BlockId ForkDatabase Objects Database Conservation Sample Market Preserve Production.

Section Funds.
Context `{F : fc_ops}.

(** ** Rewards of the first hardforks *)

(** [calc_percent_reward]: a share of the supply in fixed point, rounded to the nearest *)
Definition calc_percent_reward (percent multiply_constant shift_constant current_supply : Z) : result Z :=
  let half := u128_shiftl 1 (shift_constant - 1) in
  let reward := u128_mul (u128_of_int64 current_supply) (percent * multiply_constant) in
  n ← u128_to_uint64 (u128_shiftr (u128_add reward half) shift_constant);
  Ok (safe_of_uint64 n).
Definition calc_percent_reward_per_hour (percent current_supply : Z) : result Z :=
  calc_percent_reward percent STEEMIT_APR_PERCENT_MULTIPLY_PER_HOUR STEEMIT_APR_PERCENT_SHIFT_PER_HOUR current_supply.
Definition calc_percent_reward_per_block (percent current_supply : Z) : result Z :=
  calc_percent_reward percent STEEMIT_APR_PERCENT_MULTIPLY_PER_BLOCK STEEMIT_APR_PERCENT_SHIFT_PER_BLOCK current_supply.
Definition calc_percent_reward_per_round (percent current_supply : Z) : result Z :=
  calc_percent_reward percent STEEMIT_APR_PERCENT_MULTIPLY_PER_ROUND STEEMIT_APR_PERCENT_SHIFT_PER_ROUND current_supply.

(** [std::max] on assets *)
Definition asset_max (a b : asset) : result asset := less ← asset_ltb a b; Ok (if (less : bool) then b else a).
Definition at_least (percent : Z) (minimum : Z) : result asset :=
  asset_max (mk_asset percent STEEM_SYMBOL) (mk_asset minimum STEEM_SYMBOL).

(** [get_liquidity_reward], [get_content_reward], [get_curation_reward],
    [get_producer_reward], [get_pow_reward] *)
Definition get_liquidity_reward : M asset :=
  hf12 ← has_hardfork STEEMIT_HARDFORK_0_12__178;
  if (hf12 : bool) then mret (mk_asset 0 STEEM_SYMBOL)
  else
    p ← gets dgp;
    percent ← lift (calc_percent_reward_per_hour STEEMIT_LIQUIDITY_APR_PERCENT (amount (dgp_virtual_supply p)));
    lift (at_least percent STEEMIT_MIN_LIQUIDITY_REWARD).
Definition get_content_reward : M asset :=
  p ← gets dgp;
  if dgp_head_block_number p >? STEEMIT_START_VESTING_BLOCK then
    percent ← lift (calc_percent_reward_per_block STEEMIT_CONTENT_APR_PERCENT (amount (dgp_virtual_supply p)));
    lift (at_least percent STEEMIT_MIN_CONTENT_REWARD)
  else mret (mk_asset 255 STEEM_SYMBOL).
Definition get_curation_reward : M asset :=
  p ← gets dgp;
  if dgp_head_block_number p >? STEEMIT_START_VESTING_BLOCK then
    percent ← lift (calc_percent_reward_per_block STEEMIT_CURATE_APR_PERCENT (amount (dgp_virtual_supply p)));
    lift (at_least percent STEEMIT_MIN_CURATE_REWARD)
  else mret (mk_asset 85 STEEM_SYMBOL).
Definition get_producer_reward : M asset :=
  p ← gets dgp;
  percent ← lift (calc_percent_reward_per_block STEEMIT_PRODUCER_APR_PERCENT (amount (dgp_virtual_supply p)));
  hf16 ← has_hardfork STEEMIT_HARDFORK_0_16;
  lift (at_least percent (if (hf16 : bool) then STEEMIT_MIN_PRODUCER_REWARD else STEEMIT_MIN_PRODUCER_REWARD_PRE_HF_16)).
Definition get_pow_reward : M asset :=
  p ← gets dgp;
  if (dgp_num_pow_witnesses p <? STEEMIT_MAX_WITNESSES) && (dgp_head_block_number p <? STEEMIT_START_VESTING_BLOCK)
  then mret (mk_asset 0 STEEM_SYMBOL)
  else
    percent ← lift (calc_percent_reward_per_round STEEMIT_POW_APR_PERCENT (amount (dgp_virtual_supply p)));
    hf16 ← has_hardfork STEEMIT_HARDFORK_0_16;
    lift (at_least percent (if (hf16 : bool) then STEEMIT_MIN_POW_REWARD else STEEMIT_MIN_POW_REWARD_PRE_HF_16)).

(** ** [process_funds] *)

(** The yearly rate at a block, in hundredths of a percent *)
Definition current_inflation_rate (head_block_num : Z) : Z :=
  Z.max (STEEMIT_INFLATION_RATE_START_PERCENT - head_block_num / STEEMIT_INFLATION_NARROWING_PERIOD)
        STEEMIT_INFLATION_RATE_STOP_PERCENT.

(** What one block adds, divided into the parts of content, vesting fund and witness *)
Definition split_inflation (virtual_supply rate : Z) : result (Z * Z * Z) :=
  product ← safe_mul virtual_supply rate;
  new_steem ← safe_div product (STEEMIT_100_PERCENT * STEEMIT_BLOCKS_PER_YEAR);
  c ← safe_mul new_steem STEEMIT_CONTENT_REWARD_PERCENT;
  content_reward ← safe_div c STEEMIT_100_PERCENT;
  v ← safe_mul new_steem STEEMIT_VESTING_FUND_PERCENT;
  vesting_reward ← safe_div v STEEMIT_100_PERCENT;
  rest ← safe_sub new_steem content_reward;
  witness_reward ← safe_sub rest vesting_reward;
  Ok (content_reward, vesting_reward, witness_reward).

(** The witness is paid by the weight of its place in the schedule. *)
Definition weigh_witness_reward (wso : witness_schedule_object) (schedule : witness_schedule_type) (reward : Z) : result Z :=
  r ← safe_mul reward STEEMIT_MAX_WITNESSES;
  w ← match schedule with
      | timeshare => safe_mul r (wso_timeshare_weight wso)
      | miner => safe_mul r (wso_miner_weight wso)
      | top19 => safe_mul r (wso_top19_weight wso)
      | none => Ok r
      end;
  safe_div w (wso_witness_pay_normalization_factor wso).

(** New GOLOS is recorded in the supplies and the funds. *)
Definition add_funds (vesting_reward content_reward new_steem : asset) : M unit :=
  modify_dgp (fun p =>
    f ← asset_add (dgp_total_vesting_fund_steem p) vesting_reward;
    r ← asset_add (dgp_total_reward_fund_steem p) content_reward;
    c ← asset_add (dgp_current_supply p) new_steem;
    v ← asset_add (dgp_virtual_supply p) new_steem;
    Ok (p <| dgp_total_vesting_fund_steem := f |> <| dgp_total_reward_fund_steem := r |>
          <| dgp_current_supply := c |> <| dgp_virtual_supply := v |>)).

(** The branch from hardfork 0.16 on: the shares of the producer *)
Definition pay_inflation (cwit : witness_object) (producer : string) : M asset :=
  wso ← gets wso;
  props ← gets dgp;
  parts ← lift (split_inflation (amount (dgp_virtual_supply props)) (current_inflation_rate (dgp_head_block_number props)));
  witness_reward ← lift (weigh_witness_reward wso (witness_schedule cwit) (snd parts));
  let content_reward := fst (fst parts) in
  let vesting_reward := snd (fst parts) in
  cv ← lift (safe_add content_reward vesting_reward);
  new_steem ← lift (safe_add cv witness_reward);
  add_funds (mk_asset vesting_reward STEEM_SYMBOL) (mk_asset content_reward STEEM_SYMBOL) (mk_asset new_steem STEEM_SYMBOL) ;;
  create_vesting producer (mk_asset witness_reward STEEM_SYMBOL).

(** The branch before it *)
Definition pay_witness (wacc : account_object) (witness_pay : asset) : M (option asset) :=
  num ← head_block_num;
  if (num >=? STEEMIT_START_MINER_VOTING_BLOCK) || (amount (account_vesting_shares wacc) =? 0) then
    shares ← create_vesting (account_name wacc) witness_pay; mret (Some shares)
  else
    modify accounts (account_name wacc) (fun a =>
      b ← asset_add (account_balance a) witness_pay; Ok (a <| account_balance := b |>)) ;;
    mret None.
Definition pay_first_rewards (wacc : account_object) : M (option asset) :=
  witness_pay ← get_producer_reward;
  paid ← pay_witness wacc witness_pay;
  content ← get_content_reward;
  curate_reward ← get_curation_reward;
  content_reward ← lift (asset_add content curate_reward);
  v ← lift (asset_add content_reward witness_pay);
  num ← head_block_num;
  let vesting_reward := mk_asset (if num <? STEEMIT_START_VESTING_BLOCK then 0 else to_int64_wrap (amount v * 9)) (symbol v) in
  cw ← lift (asset_add content_reward witness_pay);
  total ← lift (asset_add cw vesting_reward);
  add_funds vesting_reward content_reward total ;;
  mret paid.

Definition process_funds : M unit :=
  props ← gets dgp;
  cwit ← get_witness (dgp_current_witness props);
  wacc ← get_account (witness_owner cwit);
  hf16 ← has_hardfork STEEMIT_HARDFORK_0_16__551;
  producer_reward ← (if (hf16 : bool) then shares ← pay_inflation cwit (account_name wacc); mret (Some shares)
                     else pay_first_rewards wacc);
  match producer_reward with
  | Some shares => push_virtual_operation (op_producer_reward (mk_producer_reward (account_name wacc) shares)) false
  | None => mret tt
  end.

(** ** [pay_liquidity_reward] *)

(** The order of index [by_volume_weight] *)
Definition by_volume_weight (x y : liquidity_reward_balance_object) : comparison :=
  match liquidity_weight y ?= liquidity_weight x with
  | Eq => liquidity_owner x ?= liquidity_owner y
  | c => c
  end.
Definition pay_liquidity_reward : M unit :=
  num ← head_block_num;
  when (num mod STEEMIT_LIQUIDITY_REWARD_BLOCKS =? 0)
    (reward ← get_liquidity_reward;
     when (negb (amount reward =? 0))
       (first ← gets (fun db => first_due (fun _ => true) by_volume_weight (liquidity_balances db));
        match first with
        | None => mret tt
        | Some k =>
            itr ← get_row liquidity_balances "liquidity_reward_balance" k;
            when (volume_weight itr >? 0)
              (adjust_supply reward true ;;
               name ← get_account_by_id (liquidity_owner itr);
               adjust_balance name reward ;;
               now ← head_block_time;
               modify liquidity_balances k (fun o => Ok (o
                 <| liquidity_steem_volume := 0 |> <| liquidity_sbd_volume := 0 |>
                 <| liquidity_last_update := now |> <| liquidity_weight := 0 |>)) ;;
               owner ← get_account name;
               push_virtual_operation (op_liquidity_reward (mk_liquidity_reward (account_name owner) reward)) false)
        end)).

(** ** The price feed *)

(** A witness whose feed counts *)
Definition feed_counts (hf18 : bool) (now : Z) (wit : witness_object) : bool :=
  (if hf18 then now <? time_add (witness_last_sbd_exchange_update wit) STEEMIT_MAX_FEED_AGE
   else witness_last_sbd_exchange_update wit <? time_add now STEEMIT_MAX_FEED_AGE) &&
  negb (price_is_null (witness_sbd_exchange_rate wit)).

(** [std::sort] by [operator<] and the entry in the middle *)
Definition price_not_gt (a b : price) : bool := negb (price_ltb b a).
Definition middle_price (l : list price) : option price := sort_by price_not_gt l !! (length l / 2)%nat.

(** The least price: GBG is at most a tenth of the whole. *)
Definition min_price (p : dynamic_global_property_object) : result price :=
  n ← safe_mul 9 (amount (dgp_current_sbd_supply p));
  Ok (mk_price (mk_asset n SBD_SYMBOL) (dgp_current_supply p)).

(** The modification of the history: a new median enters, the oldest leaves. *)
Definition push_feed (window : nat) (median_feed : price) (history : list price) : list price :=
  let h := history ++ [median_feed] in
  if (window <? length h)%nat then tail h else h.

(** The history and its median are updated. *)
Definition record_median (median_feed : price) : M unit :=
  gpo ← gets dgp;
  hf16 ← has_hardfork STEEMIT_HARDFORK_0_16__551;
  hf14 ← has_hardfork STEEMIT_HARDFORK_0_14__230;
  fho ← gets feed_history;
  let window := Z.to_nat (if (hf16 : bool) then STEEMIT_FEED_HISTORY_WINDOW else STEEMIT_FEED_HISTORY_WINDOW_PRE_HF_16) in
  let history := push_feed window median_feed (feed_price_history fho) in
  match middle_price history with
  | None => on_table feed_history (fun f => Ok (f <| feed_price_history := history |>))
  | Some median =>
      minimum ← lift (if (hf14 : bool) then min_price gpo else Ok median);
      let forced := (hf14 : bool) && price_gtb minimum median in
      on_table feed_history (fun f => Ok (f <| feed_price_history := history |>
        <| feed_current_median_history := if forced then minimum else median |>)) ;;
      when forced (modify_dgp (fun p => Ok (p <| dgp_is_forced_min_price := true |>)))
  end.

Definition update_median_feed : M unit :=
  num ← head_block_num;
  when (num mod STEEMIT_FEED_INTERVAL_BLOCKS =? 0)
    (now ← head_block_time;
     wits ← scheduled_witnesses;
     hf18 ← has_hardfork STEEMIT_HARDFORK_0_18__220;
     let feeds := witness_sbd_exchange_rate <$> filter (fun w => feed_counts hf18 now w) wits in
     when (Z.of_nat (length feeds) >=? STEEMIT_MIN_FEEDS)
       match middle_price feeds with
       | None => throw fc_assert_exception
       | Some median_feed => record_median median_feed
       end).

(** [update_virtual_supply] *)
Definition print_rate (percent_sbd : Z) : Z :=
  if percent_sbd <=? STEEMIT_SBD_START_PERCENT then STEEMIT_100_PERCENT
  else if percent_sbd >=? STEEMIT_SBD_STOP_PERCENT then 0
  else (STEEMIT_SBD_STOP_PERCENT - percent_sbd) * STEEMIT_100_PERCENT / (STEEMIT_SBD_STOP_PERCENT - STEEMIT_SBD_START_PERCENT).
Definition update_virtual_supply : M unit :=
  median ← median_price;
  hf14 ← has_hardfork STEEMIT_HARDFORK_0_14__230;
  modify_dgp (fun dgp =>
    value ← (if price_is_null median then Ok (mk_asset 0 STEEM_SYMBOL) else asset_mul_price (dgp_current_sbd_supply dgp) median);
    v ← asset_add (dgp_current_supply dgp) value;
    if negb (price_is_null median) && hf14 then
      sbd ← asset_mul_price (dgp_current_sbd_supply dgp) median;
      q ← u128_div (u128_mul (u128_of_int64 (amount sbd)) STEEMIT_100_PERCENT) (u128_of_int64 (amount v));
      n ← u128_to_uint64 q;
      Ok (dgp <| dgp_virtual_supply := v |> <| dgp_sbd_print_rate := print_rate (to_uint16_wrap n) |>)
    else Ok (dgp <| dgp_virtual_supply := v |>)).
End Funds.

(** ** The new GOLOS is accounted for *)

Section FundsGap.
Context `{F : fc_ops} {L : fc_laws F}.

Lemma reward_same : preserves eq get_content_reward /\ preserves eq get_curation_reward /\ preserves eq get_producer_reward /\
  preserves eq get_liquidity_reward.
Proof.
  split_and!; unfold get_content_reward, get_curation_reward, get_producer_reward, get_liquidity_reward; preserve.
Qed.

Lemma add_funds_gap sym vesting content total db u db' : add_funds vesting content total db = Ok (u, db') ->
  gap sym db' = gap sym db + amount_in sym total - amount_in sym vesting - amount_in sym content.
Proof. unfold add_funds. intros H. gap_solve sym. Qed.

Lemma split_inflation_Ok supply rate c v w : 0 <= supply -> 0 <= rate -> split_inflation supply rate = Ok (c, v, w) ->
  let n := supply * rate / (STEEMIT_100_PERCENT * STEEMIT_BLOCKS_PER_YEAR) in
  c = n * STEEMIT_CONTENT_REWARD_PERCENT / STEEMIT_100_PERCENT /\
  v = n * STEEMIT_VESTING_FUND_PERCENT / STEEMIT_100_PERCENT /\ w = n - c - v.
Proof.
  unfold split_inflation. intros Hs Hr H. inv_ok. rewrite !safe_sub_law, !safe_mul_law, !safe_div_law in * by done.
  repeat case_match; simplify_eq.
  assert (0 <= supply * rate) by lia.
  set (d := STEEMIT_100_PERCENT * STEEMIT_BLOCKS_PER_YEAR) in *. assert (0 < d) by done.
  rewrite (Z.quot_div_nonneg (supply * rate) d) in * by done.
  assert (0 <= supply * rate / d) by (by apply Z.div_pos).
  rewrite !Z.quot_div_nonneg by (done || (apply Z.mul_nonneg_nonneg; [done | by compute])). done.
Qed.

Lemma amount_in_parts sym a b : amount_in sym (mk_asset (a + b) STEEM_SYMBOL) =
  amount_in sym (mk_asset a STEEM_SYMBOL) + amount_in sym (mk_asset b STEEM_SYMBOL).
Proof. unfold amount_in. cbn. case_match; lia. Qed.

Lemma pay_inflation_gap sym cwit producer db r db' : pay_inflation cwit producer db = Ok (r, db') -> gap sym db' = gap sym db.
Proof.
  unfold pay_inflation. intros H. inv_run. apply (create_vesting_gap sym) in H.
  match goal with Ha : add_funds _ _ _ _ = Ok _ |- _ => apply (add_funds_gap sym) in Ha end.
  match goal with E1 : safe_add _ _ = Ok ?x, E2 : safe_add ?x _ = Ok _ |- _ => apply safe_add_Ok in E1, E2; subst end.
  rewrite !amount_in_parts in *. lia.
Qed.
Lemma pay_witness_gap sym wacc pay db r db' : pay_witness wacc pay db = Ok (r, db') -> gap sym db' = gap sym db - amount_in sym pay.
Proof. unfold pay_witness. intros H. inv_run; gap_solve sym. Qed.
Lemma pay_first_rewards_gap sym wacc db r db' : pay_first_rewards wacc db = Ok (r, db') -> gap sym db' = gap sym db.
Proof.
  unfold pay_first_rewards. intros H. inv_run. destruct reward_same as (Hc & Hu & Hp & _).
  match goal with Ha : add_funds _ _ _ _ = Ok _ |- _ => apply (add_funds_gap sym) in Ha end.
  match goal with Ha : pay_witness _ _ _ = Ok _ |- _ => apply (pay_witness_gap sym) in Ha end.
  match goal with Ha : get_producer_reward _ = Ok _ |- _ => apply Hp in Ha; subst end.
  match goal with Ha : get_content_reward _ = Ok _ |- _ => apply Hc in Ha; subst end.
  match goal with Ha : get_curation_reward _ = Ok _ |- _ => apply Hu in Ha; subst end.
  amounts sym. lia.
Qed.
Lemma process_funds_gap sym db u db' : process_funds db = Ok (u, db') -> gap sym db' = gap sym db.
Proof.
  unfold process_funds. intros H. inv_run.
  all: repeat match goal with
    | Ha : pay_inflation _ _ _ = Ok _ |- _ => apply (pay_inflation_gap sym) in Ha
    | Ha : pay_first_rewards _ _ = Ok _ |- _ => apply (pay_first_rewards_gap sym) in Ha
    end; gap_solve sym.
Qed.
Lemma pay_liquidity_reward_gap sym db u db' : pay_liquidity_reward db = Ok (u, db') -> gap sym db' = gap sym db.
Proof.
  unfold pay_liquidity_reward. intros H. inv_run. all: try done.
  all: match goal with Ha : get_liquidity_reward _ = Ok _ |- _ => apply reward_same in Ha; subst end; try done.
  match goal with Ha : get_account_by_id _ _ = Ok _ |- _ => apply (preserves_account_by_id eq) in Ha; subst end.
  match goal with Ha : modify liquidity_balances _ _ _ = Ok _ |- _ => apply modify_run in Ha as (? & ? & ? & ? & ->) end.
  gap_solve sym. subst. etrans; [exact H|]. change (gap sym db3 = gap sym db0). lia.
Qed.

Lemma record_median_gap sym m db u db' : record_median m db = Ok (u, db') -> gap sym db' = gap sym db.
Proof.
  unfold record_median. intros H. inv_run.
  all: match goal with Ha : on_table feed_history _ _ = Ok _ |- _ => apply on_table_run in Ha as (? & ? & ->) end; try done.
  apply on_table_run in H as (? & [= <-] & ->). by inv_ok.
Qed.
Lemma update_median_feed_gap sym db u db' : update_median_feed db = Ok (u, db') -> gap sym db' = gap sym db.
Proof.
  unfold update_median_feed. intros H. inv_run.
  all: try match goal with Ha : scheduled_witnesses _ = Ok _ |- _ => apply scheduled_witnesses_same in Ha; subst end; try done.
  by eapply record_median_gap.
Qed.
Lemma update_virtual_supply_gap sym db u db' : update_virtual_supply db = Ok (u, db') -> gap sym db' = gap sym db.
Proof.
  unfold update_virtual_supply. intros H. inv_run. gap_primitive sym. cbv zeta in *. destruct (negb _ && _); gap_solve sym.
Qed.
End FundsGap.

(** ** What a block issues *)

Section Inflation.
Context `{F : fc_ops} {L : fc_laws F}.

Definition weight_of (wso : witness_schedule_object) (schedule : witness_schedule_type) : Z :=
  match schedule with
  | timeshare => wso_timeshare_weight wso
  | miner => wso_miner_weight wso
  | top19 => wso_top19_weight wso
  | none => 1
  end.
Lemma weigh_witness_reward_Ok wso schedule reward r : 0 <= reward -> 0 <= weight_of wso schedule ->
  0 < wso_witness_pay_normalization_factor wso -> weigh_witness_reward wso schedule reward = Ok r ->
  r = reward * STEEMIT_MAX_WITNESSES * weight_of wso schedule / wso_witness_pay_normalization_factor wso.
Proof.
  intros Hr Hw Hn. unfold weigh_witness_reward. intros H. inv_ok. rewrite safe_mul_law in Hrun.
  destruct (is_int64 (reward * _)); [injection Hrun as <- | done].
  assert (0 <= reward * STEEMIT_MAX_WITNESSES) by (apply Z.mul_nonneg_nonneg; [done | by compute]).
  assert (a0 = reward * STEEMIT_MAX_WITNESSES * weight_of wso schedule) as ->.
  { destruct schedule; cbn [weight_of] in *; rewrite ?safe_mul_law in *; repeat case_match; simplify_eq; lia. }
  clear Hrun0. rewrite safe_div_law in H by lia. destruct (is_int64 _); [injection H as <- | done]. apply Z.quot_div_nonneg; [by apply Z.mul_nonneg_nonneg | done].
Qed.

(** An account as the counting of witness votes leaves it *)
Definition same_but_votes (a a' : account_object) : Prop :=
  a' <| account_proxied_vsf_votes := [] |> = a <| account_proxied_vsf_votes := [] |>.
#[local] Instance same_but_votes_preorder : PreOrder same_but_votes.
Proof. split; [done|]. unfold same_but_votes. intros x y z. congruence. Qed.
Definition plus_amount (n : Z) (v : asset) : asset := mk_asset (amount v + n) (symbol v).
(** The account [name] has more shares; no other account has, and nothing else of it changes. *)
Definition credited (name : string) (shares : Z) (db db' : database) : Prop :=
  forall k, option_Forall2 (fun a a' =>
    same_but_votes (if bool_decide (k = name) then a <| account_vesting_shares ::= plus_amount shares |> else a) a')
    (rows (accounts db) !! k) (rows (accounts db') !! k).

Lemma create_vesting_run to steem db r db' : create_vesting to steem db = Ok (r, db') ->
  exists f s, asset_add (dgp_total_vesting_fund_steem (dgp db)) steem = Ok f /\
    asset_add (dgp_total_vesting_shares (dgp db)) r = Ok s /\
    asset_mul_price steem (get_vesting_share_price (dgp db)) = Ok r /\
    dgp db' = (dgp db) <| dgp_total_vesting_fund_steem := f |> <| dgp_total_vesting_shares := s |> /\
    credited to (amount r) db db'.
Proof.
  unfold create_vesting, adjust_proxied_witness_votes. intros H. inv_run.
  match goal with Ha : adjust_proxied_witness_votes_at _ _ _ _ = Ok _ |- _ =>
    pose proof (adjust_proxied_witness_votes_rel same_but_votes _ _ _ _ _ _ (fun _ _ => eq_refl) Ha) as Hrel;
    apply adjust_proxied_witness_votes_dgp in Ha as -> end.
  match goal with Ha : modify_dgp _ _ = Ok _ |- _ => apply on_table_run in Ha as (p & Hp & ->) end.
  match goal with Ha : modify accounts _ _ _ = Ok _ |- _ => apply modify_run in Ha as (v & v' & Hv & Hv' & ->) end.
  cbn in Hp, Hrel. inv_ok. do 2 eexists. split_and!; [done.. |]. intros k. specialize (Hrel k). cbn in Hrel.
  match goal with Ha : asset_add (account_vesting_shares _) _ = Ok _ |- _ => apply asset_add_Ok in Ha as (_ & _ & ->) end.
  destruct (decide (k = to)) as [-> | Hne].
  - rewrite bool_decide_eq_true_2 by done. rewrite lookup_insert_eq in Hrel. rewrite Hv. inversion Hrel; subst. by constructor.
  - rewrite bool_decide_eq_false_2 by done. by rewrite lookup_insert_ne in Hrel.
Qed.

Lemma current_inflation_rate_range n : 0 <= n -> STEEMIT_INFLATION_RATE_STOP_PERCENT <= current_inflation_rate n <= STEEMIT_INFLATION_RATE_START_PERCENT.
Proof.
  intros Hn. unfold current_inflation_rate. assert (0 <= n / STEEMIT_INFLATION_NARROWING_PERIOD) by (by apply Z.div_pos).
  unfold STEEMIT_INFLATION_RATE_STOP_PERCENT, STEEMIT_INFLATION_RATE_START_PERCENT. lia.
Qed.

Lemma pay_inflation_run cwit producer db r db' : pay_inflation cwit producer db = Ok (r, db') ->
  exists c v b w,
    split_inflation (amount (dgp_virtual_supply (dgp db))) (current_inflation_rate (dgp_head_block_number (dgp db))) = Ok (c, v, b) /\
    weigh_witness_reward (wso db) (witness_schedule cwit) b = Ok w /\
    amount (dgp_current_supply (dgp db')) = amount (dgp_current_supply (dgp db)) + c + v + w /\
    amount (dgp_total_reward_fund_steem (dgp db')) = amount (dgp_total_reward_fund_steem (dgp db)) + c /\
    amount (dgp_total_vesting_fund_steem (dgp db')) = amount (dgp_total_vesting_fund_steem (dgp db)) + v + w /\
    asset_mul_price (mk_asset w STEEM_SYMBOL) (get_vesting_share_price ((dgp db) <| dgp_total_vesting_fund_steem ::= plus_amount v |>)) = Ok r /\
    dgp_total_vesting_shares (dgp db') = plus_amount (amount r) (dgp_total_vesting_shares (dgp db)) /\
    credited producer (amount r) db db'.
Proof.
  unfold pay_inflation. intros H. inv_run. apply create_vesting_run in H as (f & s & Hf & Hs & Hr & Ed & Hcredit).
  match goal with Ha : add_funds _ _ _ _ = Ok _ |- _ => unfold add_funds, modify_dgp in Ha; apply on_table_run in Ha as (p & Hp & ->) end.
  match goal with Ha : split_inflation _ _ = Ok ?x |- _ => destruct x as [[c v] b] end. cbn in *. inv_ok.
  repeat match goal with
    | Ha : asset_add _ _ = Ok _ |- _ => apply asset_add_Ok in Ha as (_ & ? & ?)
    | Ha : safe_add _ _ = Ok _ |- _ => apply safe_add_Ok in Ha
    end; subst.
  eexists _, _, _, _. split_and!; [done | done | ..]; rewrite ?Ed; cbn in *; try done; lia.
Qed.

(** C14: What a block issues.  Since hardfork 0.16 a block issues the inflation of one block at
    a yearly rate that falls with the block number from 15.15% to 0.95%: two thirds go to
    the content rewards, 26.67% to the vesting fund, and the rest, weighted by the place of
    the witness in the schedule, is paid to the producer as vesting shares: the owner of
    the current witness, and no other account, is credited with the shares that this part
    buys at the price after the vesting fund has its part, and the total of shares grows
    by as many.  The supply grows by exactly these three amounts, and the funds by what
    they are given. *)
Theorem process_funds_issues wit a db db' :
  (STEEMIT_HARDFORK_0_16__551 < length (processed_hardforks db))%nat ->
  rows (witnesses db) !! dgp_current_witness (dgp db) = Some wit ->
  rows (accounts db) !! witness_owner wit = Some a -> account_name a = witness_owner wit ->
  0 <= amount (dgp_virtual_supply (dgp db)) -> 0 <= dgp_head_block_number (dgp db) -> 0 <= weight_of (wso db) (witness_schedule wit) ->
  0 < wso_witness_pay_normalization_factor (wso db) ->
  process_funds db = Ok (tt, db') ->
  let rate := current_inflation_rate (dgp_head_block_number (dgp db)) in
  let n := amount (dgp_virtual_supply (dgp db)) * rate / (STEEMIT_100_PERCENT * STEEMIT_BLOCKS_PER_YEAR) in
  let content := n * 6667 / 10000 in
  let vesting := n * 2667 / 10000 in
  let witness := (n - content - vesting) * STEEMIT_MAX_WITNESSES * weight_of (wso db) (witness_schedule wit) /
                 wso_witness_pay_normalization_factor (wso db) in
  95 <= rate <= 1515 /\
  amount (dgp_current_supply (dgp db')) = amount (dgp_current_supply (dgp db)) + content + vesting + witness /\
  amount (dgp_total_reward_fund_steem (dgp db')) = amount (dgp_total_reward_fund_steem (dgp db)) + content /\
  amount (dgp_total_vesting_fund_steem (dgp db')) = amount (dgp_total_vesting_fund_steem (dgp db)) + vesting + witness /\
  exists shares,
    asset_mul_price (mk_asset witness STEEM_SYMBOL)
      (get_vesting_share_price ((dgp db) <| dgp_total_vesting_fund_steem ::= plus_amount vesting |>)) = Ok shares /\
    dgp_total_vesting_shares (dgp db') = plus_amount (amount shares) (dgp_total_vesting_shares (dgp db)) /\
    credited (witness_owner wit) (amount shares) db db'.
Proof.
  intros Hhf Hwit Ha Hname Hsupply Hnum Hw Hn H. apply Nat.ltb_lt in Hhf. unfold process_funds in H. inv_run; try congruence.
  all: simplify_eq; match goal with Hp : pay_inflation _ _ _ = Ok _ |- _ =>
    apply pay_inflation_run in Hp as (c & v & b & w & Hsplit & Hweigh & E1 & E2 & E3 & Hr & E4 & Hcredit) end.
  apply push_virtual_operation_run in H as (k & l & ->).
  intros rate n content vesting witness.
  pose proof (current_inflation_rate_range _ Hnum) as Hrate. fold rate in Hsplit, Hrate.
  apply split_inflation_Ok in Hsplit as (-> & -> & ->); [| done | by etrans; [|apply Hrate]].
  fold n in Hweigh, E1, E2, E3, Hr.
  change (n * STEEMIT_CONTENT_REWARD_PERCENT / STEEMIT_100_PERCENT) with content in Hweigh, E1, E2, E3.
  change (n * STEEMIT_VESTING_FUND_PERCENT / STEEMIT_100_PERCENT) with vesting in Hweigh, E1, E2, E3, Hr.
  assert (0 <= n) as Hpos by (apply Z.div_pos; [apply Z.mul_nonneg_nonneg; [done | by etrans; [|apply Hrate]] | done]).
  apply weigh_witness_reward_Ok in Hweigh as ->; [| | done | done].
  - rewrite Hname in Hcredit. split_and!; try apply Hrate; try done. by eexists.
  - clear -Hpos. subst content vesting. clearbody n. Z.div_mod_to_equations. lia.
Qed.
End Inflation.

(** ** The median price *)

Section Median.
Context `{F : fc_ops} {L : fc_laws F}.

Lemma price_not_gt_total p q : positive_price p -> positive_price q -> price_not_gt p q = false -> price_not_gt q p = true.
Proof.
  intros Hp Hq. unfold price_not_gt. rewrite negb_false_iff, negb_true_iff. intros H%price_ltb_key; [|done|done].
  apply not_true_iff_false. rewrite price_ltb_key by done. unfold price_key_lt in *. lia.
Qed.
Lemma price_not_gt_trans p q r : positive_price p -> positive_price q -> positive_price r ->
  price_not_gt p q = true -> price_not_gt q r = true -> price_not_gt p r = true.
Proof.
  intros Hp Hq Hr. unfold price_not_gt. rewrite !negb_true_iff, <- !not_true_iff_false, !price_ltb_key by done.
  destruct Hp as [? ?], Hq as [? ?], Hr as [? ?]. unfold price_key_lt. intros Hpq Hqr Hrp.
  destruct Hrp as [Hrp | (Eb & [Hrp | (Eq & Hrp)])]; [lia | lia|].
  assert (amount (base p) * amount (quote q) <= amount (base q) * amount (quote p)) by lia.
  assert (amount (base q) * amount (quote r) <= amount (base r) * amount (quote q)) by lia. nia.
Qed.

(** At least half of the prices are not less, and more than half are not greater. *)
Definition is_median (m : price) (l : list price) : Prop :=
  m ∈ l /\ (length l <= 2 * length (filter (fun x => price_not_gt m x = true) l))%nat /\
  (length l < 2 * length (filter (fun x => price_not_gt x m = true) l))%nat.

Lemma middle_price_median l m : Forall positive_price l -> middle_price l = Some m -> is_median m l.
Proof.
  intros Hl Hm. unfold middle_price in Hm. pose proof (sort_by_perm price_not_gt l) as Hp.
  assert (Forall positive_price (sort_by price_not_gt l)) as Hl' by (by rewrite Hp).
  destruct (sorted_rank price_not_gt (sort_by price_not_gt l) (length l / 2) m) as [H1 H2]; [| | done |].
  - intros x Hx. rewrite Forall_forall in Hl'. specialize (Hl' x Hx).
    destruct (price_not_gt x x) eqn:E; [done|]. pose proof (price_not_gt_total x x Hl' Hl' E). congruence.
  - apply (sort_by_sorted_on positive_price); eauto using price_not_gt_total, price_not_gt_trans.
  - rewrite Hp in H1, H2. split_and!; [rewrite <- Hp; by eapply list_elem_of_lookup_2 | ..];
      pose proof (Nat.div_mod_eq (length l) 2); pose proof (Nat.mod_upper_bound (length l) 2); lia.
Qed.

(** The feeds that count at a block *)
Definition feeds_of (db : database) (wits : list witness_object) : list price :=
  witness_sbd_exchange_rate <$>
    filter (fun w => feed_counts (STEEMIT_HARDFORK_0_18__220 <? length (processed_hardforks db))%nat (dgp_time (dgp db)) w) wits.
Definition feed_window (db : database) : nat :=
  Z.to_nat (if (STEEMIT_HARDFORK_0_16__551 <? length (processed_hardforks db))%nat
            then STEEMIT_FEED_HISTORY_WINDOW else STEEMIT_FEED_HISTORY_WINDOW_PRE_HF_16).

Lemma feed_window_cases db : feed_window db = 84%nat \/ feed_window db = 168%nat.
Proof. unfold feed_window. destruct (STEEMIT_HARDFORK_0_16__551 <? _)%nat; [by left | by right]. Qed.

Lemma push_feed_length n m h : (length h <= n)%nat -> (length (push_feed n m h) <= n)%nat \/ (n = 0)%nat.
Proof.
  intros Hn. unfold push_feed. destruct (Nat.ltb_spec n (length (h ++ [m]))) as [Hlt | Hge]; [|by left].
  rewrite length_app in Hlt. cbn in Hlt. destruct h as [| x h]; cbn in *; [right; lia|]. left. rewrite length_app. cbn. lia.
Qed.
Lemma push_feed_last n m h : push_feed n m h <> [] -> last (push_feed n m h) = Some m.
Proof.
  unfold push_feed. destruct (_ <? _)%nat; [|by rewrite last_snoc]. destruct h as [| x h]; [done|]. cbn. by rewrite last_snoc.
Qed.
Lemma push_feed_positive n m h : positive_price m -> Forall positive_price h -> Forall positive_price (push_feed n m h).
Proof.
  intros Hm Hh. assert (Forall positive_price (h ++ [m])) as H by (apply Forall_app; by split; [|constructor]).
  unfold push_feed. destruct (_ <? _)%nat; [|done]. destruct (h ++ [m]); [done|]. by apply Forall_cons in H as [_ ?].
Qed.

Lemma middle_price_None l : middle_price l = None -> l = [].
Proof.
  unfold middle_price. rewrite lookup_ge_None, sort_by_perm. destruct l as [| x l]; [done|]. intros H. exfalso.
  pose proof (Nat.div_lt (length (x :: l)) 2 ltac:(cbn; lia) ltac:(lia)). lia.
Qed.
Lemma push_feed_nonempty n m h : (0 < n)%nat -> push_feed n m h <> [].
Proof.
  intros Hn. unfold push_feed. destruct (Nat.ltb_spec n (length (h ++ [m]))) as [Hlt | _]; [|by destruct h].
  rewrite length_app in Hlt. cbn in Hlt. destruct h as [| x h]; cbn in *; [lia|]. by destruct h.
Qed.
Lemma record_median_spec m db db' : positive_price m -> Forall positive_price (feed_price_history (feed_history db)) ->
  (STEEMIT_HARDFORK_0_14__230 <? length (processed_hardforks db))%nat = true -> record_median m db = Ok (tt, db') ->
  exists median least,
    feed_price_history (feed_history db') = push_feed (feed_window db) m (feed_price_history (feed_history db)) /\
    is_median median (feed_price_history (feed_history db')) /\ min_price (dgp db) = Ok least /\
    feed_current_median_history (feed_history db') = if price_gtb least median then least else median.
Proof.
  intros Hm Hh Hhf H. unfold record_median in H. inv_run.
  all: fold (feed_window db) in *; rewrite ?Hhf in *; cbn [andb] in *.
  all: match goal with Ha : on_table feed_history _ _ = Ok _ |- _ => apply on_table_run in Ha as (? & [= <-] & ->) end.
  3: { exfalso. apply middle_price_None in Heqo. revert Heqo. apply push_feed_nonempty.
       destruct (feed_window_cases db); lia. }
  1: apply on_table_run in H as (? & [= <-] & ->).
  all: exists p, x; split_and!; [done | | done | by cbn; rewrite Heqb]; cbn; apply middle_price_median; [by apply push_feed_positive | done].
Qed.

(** C31: The price is a median of medians.  Every hour, when at least a third of the scheduled
    witnesses published a price that counts, the middle one of their prices enters the
    history of the last days, the oldest one leaves when the window is full, and the price
    the chain uses is the middle one of the history - unless that would value all GBG at
    more than a tenth of the whole, in which case it is the least price that does not. *)
Theorem median_feed_is_median wits db db' :
  dgp_head_block_number (dgp db) mod STEEMIT_FEED_INTERVAL_BLOCKS = 0 ->
  scheduled_witnesses db = Ok (wits, db) ->
  STEEMIT_MIN_FEEDS <= Z.of_nat (length (feeds_of db wits)) ->
  Forall positive_price (feeds_of db wits) -> Forall positive_price (feed_price_history (feed_history db)) ->
  (length (feed_price_history (feed_history db)) <= feed_window db)%nat ->
  (STEEMIT_HARDFORK_0_14__230 < length (processed_hardforks db))%nat ->
  update_median_feed db = Ok (tt, db') ->
  exists m median least,
    is_median m (feeds_of db wits) /\
    feed_price_history (feed_history db') = push_feed (feed_window db) m (feed_price_history (feed_history db)) /\
    (length (feed_price_history (feed_history db')) <= feed_window db)%nat /\
    is_median median (feed_price_history (feed_history db')) /\
    min_price (dgp db) = Ok least /\
    feed_current_median_history (feed_history db') = if price_gtb least median then least else median.
Proof.
  intros Hnum Hw Hmin Hpos Hhist Hlen Hhf H. unfold update_median_feed in H. apply Nat.ltb_lt in Hhf. inv_run; [| | lia].
  all: rewrite Hw in Hrun0; injection Hrun0 as <- <-; fold (feeds_of db wits) in *. 2: lia.
  pose proof (middle_price_median _ _ Hpos Heqo) as Hm.
  apply record_median_spec in H as (median & least & E & Hmed & Hleast & Hcur); [| | done | done].
  - exists p, median, least. split_and!; try done. rewrite E. destruct (push_feed_length (feed_window db) p _ Hlen) as [? | Hz]; [done|].
    destruct (feed_window_cases db); lia.
  - rewrite Forall_forall in Hpos. apply Hpos, Hm.
Qed.
End Median.

(** ** The virtual supply *)

Section VirtualSupply.
Context `{F : fc_ops} {L : fc_laws F}.

Lemma print_rate_range p : 0 <= print_rate p <= STEEMIT_100_PERCENT.
Proof.
  unfold print_rate, STEEMIT_SBD_START_PERCENT, STEEMIT_SBD_STOP_PERCENT, STEEMIT_100_PERCENT. change (STEEMIT_1_PERCENT) with 100.
  destruct (Z.leb_spec p (2 * 100)); [lia|]. destruct (Z.geb_spec p (5 * 100)); [lia|]. Z.div_mod_to_equations. lia.
Qed.
Lemma print_rate_antitone p q : p <= q -> print_rate q <= print_rate p.
Proof.
  unfold print_rate, STEEMIT_SBD_START_PERCENT, STEEMIT_SBD_STOP_PERCENT, STEEMIT_100_PERCENT. change (STEEMIT_1_PERCENT) with 100. intros H.
  destruct (Z.leb_spec p (2 * 100)), (Z.leb_spec q (2 * 100)), (Z.geb_spec p (5 * 100)), (Z.geb_spec q (5 * 100));
    Z.div_mod_to_equations; lia.
Qed.

(** The virtual supply and the rate of new GBG.  The virtual supply is the supply of
    GOLOS plus the value of all GBG at the median price; since hardfork 0.14 the share of
    rewards paid in GBG is set from the share of the debt in it: in full up to 2%, not at
    all from 5% on, and in between it falls as the debt grows.  No step of the
    computation loses digits: the debt in hundredths of a percent fits. *)
Theorem virtual_supply_spec value db db' :
  price_is_null (feed_current_median_history (feed_history db)) = false ->
  (STEEMIT_HARDFORK_0_14__230 < length (processed_hardforks db))%nat ->
  asset_mul_price (dgp_current_sbd_supply (dgp db)) (feed_current_median_history (feed_history db)) = Ok value ->
  0 <= amount value -> 0 < amount (dgp_current_supply (dgp db)) ->
  update_virtual_supply db = Ok (tt, db') ->
  let virtual := amount (dgp_current_supply (dgp db)) + amount value in
  let percent := amount value * 10000 / virtual in
  amount (dgp_virtual_supply (dgp db')) = virtual /\
  dgp_sbd_print_rate (dgp db') = print_rate percent /\ 0 <= percent < 10000 /\
  0 <= print_rate percent <= 10000 /\
  (percent <= 200 -> print_rate percent = 10000) /\ (500 <= percent -> print_rate percent = 0) /\
  (forall debt, debt <= percent -> print_rate percent <= print_rate debt).
Proof.
  intros Hnull Hhf Hvalue Hv Hs H virtual percent. apply Nat.ltb_lt in Hhf. unfold update_virtual_supply in H. inv_run.
  unfold modify_dgp in H. apply on_table_run in H as (p & Hp & ->). rewrite Hnull, Hhf, Hvalue in Hp. cbn in Hp. inv_ok.
  apply asset_add_Ok in Hrun as (_ & Hr & ->). cbn in *. fold virtual in Hr, Hrun0. apply is_int64_spec in Hr.
  assert (0 <= percent < 10000) as Hp.
  { subst percent virtual. split; [apply Z.div_pos; lia | apply Z.div_lt_upper_bound; lia]. }
  assert (0 <= amount value < virtual) as Hlt by (subst virtual; lia). change STEEMIT_100_PERCENT with 10000 in Hrun0.
  rewrite !u128_of_int64_law, u128_mul_law, (Z.mod_small (amount value)), (Z.mod_small virtual), Z.mod_small in Hrun0 by lia.
  rewrite u128_div_law in Hrun0 by lia. injection Hrun0 as <-. fold percent in Hrun1.
  rewrite u128_to_uint64_law in Hrun1 by lia. destruct (percent <? 2 ^ 64); [injection Hrun1 as <- | done].
  assert (to_uint16_wrap percent = percent) as -> by (apply Z.mod_small; lia).
  split_and!; [done | done | lia | lia | apply print_rate_range | apply print_rate_range | | | by intros; apply print_rate_antitone].
  - intros Hle. unfold print_rate. by rewrite (proj2 (Z.leb_le percent STEEMIT_SBD_START_PERCENT)).
  - intros Hge. unfold print_rate. rewrite (proj2 (Z.leb_gt percent STEEMIT_SBD_START_PERCENT)) by (by eapply Z.lt_le_trans; [|done]).
    by rewrite (proj2 (Z.geb_le percent STEEMIT_SBD_STOP_PERCENT)).
Qed.
End VirtualSupply.

(** ** A sample block

    Seven witnesses with fresh feeds; ann produced the block. *)
Definition feed_witness (id : Z) (owner : string) (gbg : Z) : witness_object :=
  (round_witness id owner 0) <| witness_sbd_exchange_rate := mk_price (mk_asset gbg SBD_SYMBOL) (mk_asset 1000 STEEM_SYMBOL) |>
    <| witness_last_sbd_exchange_update := sample_time |>.
Definition feed_owners : list (string * Z) :=
  [("ann", 120); ("ben", 90); ("cyd", 110); ("don", 100); ("eve", 150); ("fay", 105); ("gus", 80)].
Definition funds_database : database :=
  blank_database
    <| accounts := mk_table {["ann" := sample_account 0 "ann" 0 0 5000000 0]} 1 |>
    <| witnesses := mk_table (list_to_map (imap (fun i p => (p.1, feed_witness (Z.of_nat i) p.1 p.2)) feed_owners)) 7 |>
    <| wso := blank_witness_schedule_object <| wso_current_shuffled_witnesses := feed_owners.*1 |>
         <| wso_num_scheduled_witnesses := 7 |> <| wso_top19_weight := 1 |> <| wso_timeshare_weight := 5 |> <| wso_miner_weight := 1 |>
         <| wso_witness_pay_normalization_factor := 25 |> |>
    <| dgp := blank_dynamic_global_property_object
         <| dgp_head_block_number := 12000000 |> <| dgp_time := sample_time |> <| dgp_current_witness := "ann" |>
         <| dgp_current_supply := mk_asset 100000000000 STEEM_SYMBOL |> <| dgp_virtual_supply := mk_asset 110000000000 STEEM_SYMBOL |>
         <| dgp_current_sbd_supply := mk_asset 300000000 SBD_SYMBOL |>
         <| dgp_total_vesting_fund_steem := mk_asset 50000000000 STEEM_SYMBOL |>
         <| dgp_total_vesting_shares := mk_asset 90000000000000 VESTS_SYMBOL |> |>.

Lemma process_funds_issues_witness :
  let db' := run_state (process_funds (F := fc_ref)) funds_database in
  amount (dgp_current_supply (dgp db')) = amount (dgp_current_supply (dgp funds_database)) + 1023 + 409 + 86 /\
  exists shares, credited "ann" shares funds_database db' /\ shares > 0.
Proof.
  intros db'.
  refine (_ (process_funds_issues (F := fc_ref) (feed_witness 0 "ann" 120) (sample_account 0 "ann" 0 0 5000000 0) funds_database db' _ _ _ _ _ _ _ _ _)).
  2-10: first [ vm_compute; reflexivity | vm_compute; discriminate | vm_compute; lia | unfold db'; run_now].
  intros (_ & Hc & _ & _ & shares & Hs & _ & Hcredit). split; [exact Hc|]. exists (amount shares). split; [exact Hcredit|].
  vm_compute in Hs. injection Hs as <-. reflexivity.
Defined.

Definition feed_sample_witnesses : list witness_object := imap (fun i p => feed_witness (Z.of_nat i) p.1 p.2) feed_owners.
Lemma median_feed_is_median_witness :
  let db' := run_state (update_median_feed (F := fc_ref)) funds_database in
  exists m median least,
    is_median (F := fc_ref) m (feeds_of funds_database feed_sample_witnesses) /\
    feed_price_history (feed_history db') = push_feed 84 m [] /\
    (length (feed_price_history (feed_history db')) <= 84)%nat /\
    is_median (F := fc_ref) median (feed_price_history (feed_history db')) /\
    min_price (F := fc_ref) (dgp funds_database) = Ok least /\
    feed_current_median_history (feed_history db') = if price_gtb least median then least else median.
Proof.
  intros db'.
  refine (median_feed_is_median (F := fc_ref) feed_sample_witnesses funds_database db' _ _ _ _ _ _ _ _).
  - vm_compute. reflexivity.
  - vm_compute. reflexivity.
  - vm_compute. discriminate.
  - assert (feeds_of funds_database feed_sample_witnesses =
      (fun p => mk_price (mk_asset (snd p) SBD_SYMBOL) (mk_asset 1000 STEEM_SYMBOL)) <$> feed_owners) as -> by (vm_compute; reflexivity).
    repeat constructor; cbn; lia.
  - constructor.
  - vm_compute. lia.
  - vm_compute. lia.
  - unfold db'. run_now.
Defined.

Lemma virtual_supply_spec_witness :
  let db' := run_state (update_virtual_supply (F := fc_ref)) funds_database in
  amount (dgp_virtual_supply (dgp db')) = 100600000000 /\ dgp_sbd_print_rate (dgp db') = 10000.
Proof.
  intros db'.
  destruct (virtual_supply_spec (F := fc_ref) (mk_asset 600000000 STEEM_SYMBOL) funds_database db') as (H1 & H2 & _).
  1-5: vm_compute; first [reflexivity | discriminate | lia].
  - unfold db'. run_now.
  - split; [exact H1 | rewrite H2; vm_compute; reflexivity].
Defined.
