(* ===== verification/Delegation.v ===== *)
(** * Delegation of vesting shares

    The delegation evaluators ([steem_evaluator.cpp]) and the block step that returns
    expired delegations ([database::clear_expired_delegations]), with the proof that
    what accounts record as delegated and received is what the delegations and the
    delegations on their way back say. *)

From S2P Require Import Prelude Exceptions Text Fc Config Asset FlatMap Authority Operations Crypto Validate Objects Database Conservation Preserve Sample.

Section Delegation.
Context `{F : fc_ops}.

(** ** Evaluators *)

(** The shares an account may delegate in all, by its voting power *)
Definition max_delegated (now : Z) (a : account_object) : result Z :=
  let elapsed_seconds := time_diff_seconds now (account_last_vote_time a) in
  let regenerated_power :=
    Z.quot (to_int64_wrap (STEEMIT_100_PERCENT * elapsed_seconds)) STEEMIT_VOTE_REGENERATION_SECONDS in
  let current_power := Z.min (to_int64_wrap (account_voting_power a + regenerated_power)) STEEMIT_100_PERCENT in
  q ← u128_div (u128_mul (u128_of_int64 (amount (account_vesting_shares a))) (u128_of_int64 current_power))
        STEEMIT_100_PERCENT;
  n ← u128_to_uint64 q;
  Ok (safe_of_uint64 n).

(** [std::max(now + STEEMIT_CASHOUT_WINDOW_SECONDS, min_delegation_time)] *)
Definition return_time (now : Z) (d : vesting_delegation_object) : Z :=
  Z.max (time_add now STEEMIT_CASHOUT_WINDOW_SECONDS) (delegation_min_delegation_time d).

Definition create_expiration (delegator : string) (shares : asset) (expiration : Z) : M unit :=
  id ← gets (fun db => next_id (delegation_expirations db));
  create delegation_expirations id (fun id => {|
    delegation_expiration_id := id;
    delegation_expiration_delegator := delegator;
    delegation_expiration_vesting_shares := shares;
    delegation_expiration_expiration := expiration |}).

Definition add_delegated (delta : asset) (a : account_object) : result account_object :=
  v ← asset_add (account_delegated_vesting_shares a) delta; Ok (a <| account_delegated_vesting_shares := v |>).
Definition add_received (delta : asset) (a : account_object) : result account_object :=
  v ← asset_add (account_received_vesting_shares a) delta; Ok (a <| account_received_vesting_shares := v |>).

(** The function template [delegate_vesting_shares]; [create_vdo] and
    [validate_with_vdo] are its function arguments.  Where the source follows the null
    pointer of a delegation that does not exist, the model fails. *)
Definition delegate_vesting_shares (median_props : chain_properties_18) (delegator delegatee : string) (shares : asset)
    (create_vdo : vesting_delegation_object -> vesting_delegation_object)
    (validate_with_vdo : vesting_delegation_object -> result unit) : M unit :=
  let k := (delegator, delegatee) in
  delegator_account ← get_account delegator;
  check_account_exists delegatee ;;
  delegation ← find_row delegations k;
  lift (match delegation with Some d => validate_with_vdo d | None => Ok tt end) ;;
  v_share_price ← gets (fun db => get_vesting_share_price (dgp db));
  min_delegation ← lift (asset_mul_price (min_delegation median_props) v_share_price);
  min_update ← lift (asset_mul_price (create_account_min_golos_fee median_props) v_share_price);
  now ← head_block_time;
  delta ← lift (match delegation with
                | Some d => asset_sub shares (delegation_vesting_shares d)
                | None => Ok shares
                end);
  let increasing := amount delta >? 0 in
  check_op_param "vesting_shares"
    (size ← lift (if increasing then Ok delta else asset_neg delta);
     enough ← lift (asset_geb size min_update);
     check_logic_m enough delegation_difference_too_low) ;;
  (if increasing then
     check_balance delegator AVAILABLE_VESTING delta ;;
     max_allowed ← lift (max_delegated now delegator_account);
     total ← lift (asset_add (account_delegated_vesting_shares delegator_account) delta);
     allowed ← lift (asset_leb total (mk_asset max_allowed VESTS_SYMBOL));
     check_logic_m allowed delegation_limited_by_voting_power ;;
     match delegation with
     | None =>
         check_op_param "vesting_shares"
           (enough ← lift (asset_geb shares min_delegation); check_logic_m enough cannot_delegate_below_minimum) ;;
         create delegations k (fun id => create_vdo {|
           delegation_id := id;
           delegation_delegator := delegator;
           delegation_delegatee := delegatee;
           delegation_vesting_shares := shares;
           delegation_interest_rate := 0;
           delegation_payout_strategy := to_delegator;
           delegation_min_delegation_time := now |})
     | Some _ => mret tt
     end ;;
     modify accounts delegator (add_delegated delta)
   else
     check_op_param "vesting_shares"
       (ok ← lift (if amount shares =? 0 then Ok true else asset_geb shares min_delegation);
        check_logic_m ok cannot_delegate_below_minimum) ;;
     match delegation with
     | Some d => back ← lift (asset_neg delta); create_expiration delegator back (return_time now d)
     | None => throw fc_assert_exception
     end) ;;
  modify accounts delegatee (add_received delta) ;;
  match delegation with
  | Some _ =>
      if amount shares >? 0
      then modify delegations k (fun d => Ok (d <| delegation_vesting_shares := shares |>))
      else remove delegations k
  | None => mret tt
  end.

Definition median_props : M chain_properties_19 := gets (fun db => wso_median_props (wso db)).

(** [delegate_vesting_shares_evaluator::do_apply] *)
Definition delegate_vesting_shares_evaluator (op : delegate_vesting_shares_operation) : M unit :=
  props ← median_props;
  delegate_vesting_shares (base_18 props) (delegate_vesting_shares_delegator op) (delegate_vesting_shares_delegatee op)
    (delegate_vesting_shares_vesting_shares op) (fun d => d) (fun _ => Ok tt).

(** [delegate_vesting_shares_with_interest_evaluator::do_apply] *)
Definition delegate_vesting_shares_with_interest_evaluator
    (op : delegate_vesting_shares_with_interest_operation) : M unit :=
  let rate := delegate_vesting_shares_with_interest_interest_rate op in
  let strategy := delegate_vesting_shares_with_interest_payout_strategy op in
  assert_req_hf STEEMIT_HARDFORK_0_19__756 ;;
  props ← median_props;
  lift (check_param "op.interest_rate" (check_limit rate (max_delegated_vesting_interest_rate props))) ;;
  delegate_vesting_shares (base_18 props) (delegate_vesting_shares_with_interest_delegator op)
    (delegate_vesting_shares_with_interest_delegatee op) (delegate_vesting_shares_with_interest_vesting_shares op)
    (fun d => d <| delegation_interest_rate := rate |> <| delegation_payout_strategy := strategy |>)
    (fun d => check_logic (delegation_interest_rate d =? rate) cannot_change_delegator_interest_rate ;;
              check_logic (bool_decide (delegation_payout_strategy d = strategy)) cannot_change_delegator_payout_strategy).

(** [reject_vesting_shares_delegation_evaluator::do_apply] *)
Definition reject_vesting_shares_delegation_evaluator (op : reject_vesting_shares_delegation_operation) : M unit :=
  let k := (reject_vesting_shares_delegation_delegator op, reject_vesting_shares_delegation_delegatee op) in
  assert_req_hf STEEMIT_HARDFORK_0_19__756 ;;
  check_account_exists (snd k) ;;
  d ← get_row delegations "vesting_delegation_object" k;
  now ← head_block_time;
  modify accounts (snd k) (fun a =>
    v ← asset_sub (account_received_vesting_shares a) (delegation_vesting_shares d);
    Ok (a <| account_received_vesting_shares := v |>)) ;;
  create_expiration (fst k) (delegation_vesting_shares d) (return_time now d) ;;
  remove delegations k.

(** ** Expiration *)

(** Index [by_expiration] *)
Definition by_delegation_expiration (x y : vesting_delegation_expiration_object) : comparison :=
  cmp_then (Z.compare (delegation_expiration_expiration x) (delegation_expiration_expiration y))
    (Z.compare (delegation_expiration_id x) (delegation_expiration_id y)).
Definition delegation_expired (now : Z) (d : vesting_delegation_expiration_object) : bool :=
  delegation_expiration_expiration d <? now.

(** One turn of the loop of [clear_expired_delegations] *)
Definition return_delegation (id : Z) : M unit :=
  d ← get_row delegation_expirations "vesting_delegation_expiration" id;
  let delegator := delegation_expiration_delegator d in
  modify accounts delegator (fun a =>
    v ← asset_sub (account_delegated_vesting_shares a) (delegation_expiration_vesting_shares d);
    Ok (a <| account_delegated_vesting_shares := v |>)) ;;
  push_virtual_operation (op_return_vesting_delegation
    (mk_return_vesting_delegation delegator (delegation_expiration_vesting_shares d))) false ;;
  remove delegation_expirations id.

(** [clear_expired_delegations]; each turn removes an entry. *)
Definition clear_expired_delegations : M unit :=
  fuel ← gets (fun db => S (size (rows (delegation_expirations db))));
  drain fuel (fun db => first_due (delegation_expired (dgp_time (dgp db))) by_delegation_expiration
                          (delegation_expirations db)) return_delegation.
End Delegation.

(** ** What is delegated is accounted for *)

(** The shares a delegation takes from [name] or gives to it *)
Definition delegated_by (name : string) (d : vesting_delegation_object) : Z :=
  if String.eqb (delegation_delegator d) name then amount (delegation_vesting_shares d) else 0.
Definition received_by (name : string) (d : vesting_delegation_object) : Z :=
  if String.eqb (delegation_delegatee d) name then amount (delegation_vesting_shares d) else 0.
(** ... and those on their way back to it *)
Definition returning_to (name : string) (d : vesting_delegation_expiration_object) : Z :=
  if String.eqb (delegation_expiration_delegator d) name then amount (delegation_expiration_vesting_shares d) else 0.

Definition outgoing (name : string) (db : database) : Z :=
  msum (delegated_by name) (rows (delegations db)) + msum (returning_to name) (rows (delegation_expirations db)).
Definition incoming (name : string) (db : database) : Z := msum (received_by name) (rows (delegations db)).

Definition delegations_keyed (m : gmap (string * string) vesting_delegation_object) : Prop :=
  map_Forall (fun k d => k = (delegation_delegator d, delegation_delegatee d)) m.

(** Every account records what the delegations say, and the index is keyed by the
    parties. *)
Record delegations_balanced (db : database) : Prop := {
  balanced_accounts : forall name a, rows (accounts db) !! name = Some a ->
    amount (account_delegated_vesting_shares a) = outgoing name db /\
    amount (account_received_vesting_shares a) = incoming name db;
  balanced_keyed : delegations_keyed (rows (delegations db))
}.

Section Balanced.
Context `{F : fc_ops} {L : fc_laws F}.

(** The change of both records of every account *)
Definition account_change (dd rr : string -> Z) (db db' : database) : Prop :=
  forall k, option_Forall2 (fun a a' =>
    amount (account_delegated_vesting_shares a') = amount (account_delegated_vesting_shares a) + dd k /\
    amount (account_received_vesting_shares a') = amount (account_received_vesting_shares a) + rr k)
    (rows (accounts db) !! k) (rows (accounts db') !! k).
Definition only (name : string) (n : Z) (k : string) : Z := if String.eqb name k then n else 0.

Lemma account_change_same db db' : accounts db' = accounts db -> account_change (fun _ => 0) (fun _ => 0) db db'.
Proof. intros E k. rewrite E. destruct (rows (accounts db) !! k); constructor. lia. Qed.
Lemma account_change_trans d1 r1 d2 r2 db1 db2 db3 :
  account_change d1 r1 db1 db2 -> account_change d2 r2 db2 db3 ->
  account_change (fun k => d1 k + d2 k) (fun k => r1 k + r2 k) db1 db3.
Proof.
  intros H1 H2 k. specialize (H1 k). specialize (H2 k).
  inversion H1 as [a b Hab E1 E2 | E1 E2]; rewrite <- E2 in H2; inversion H2; constructor. lia.
Qed.
Lemma modify_account_change name f dd rr db u db' :
  (forall a a', f a = Ok a' ->
     amount (account_delegated_vesting_shares a') = amount (account_delegated_vesting_shares a) + dd /\
     amount (account_received_vesting_shares a') = amount (account_received_vesting_shares a) + rr) ->
  modify accounts name f db = Ok (u, db') -> account_change (only name dd) (only name rr) db db'.
Proof.
  intros Hf (v & v' & Hv & Hv' & ->)%modify_run k. cbn. unfold only.
  destruct (String.eqb_spec name k) as [-> | Hne].
  - rewrite lookup_insert_eq, Hv. constructor. by apply Hf.
  - rewrite lookup_insert_ne by done. destruct (rows (accounts db) !! k); constructor. lia.
Qed.

Lemma asset_add_amount a b c : asset_add a b = Ok c -> amount c = amount a + amount b.
Proof. rewrite asset_add_Ok. by intros (_ & _ & ->). Qed.
Lemma asset_sub_amount a b c : asset_sub a b = Ok c -> amount c = amount a - amount b.
Proof. rewrite asset_sub_Ok. by intros (_ & _ & ->). Qed.
Lemma asset_neg_amount a b : asset_neg a = Ok b -> amount b = - amount a.
Proof. rewrite asset_neg_Ok. by intros (_ & ->). Qed.

(** What a step does to the records of the accounts ([dd], [rr]) and to what the
    delegations say ([out], [inc]) *)
Record effect (dd rr out inc : string -> Z) (db db' : database) : Prop := mk_effect {
  effect_accounts : account_change dd rr db db';
  effect_outgoing : forall name, outgoing name db' = outgoing name db + out name;
  effect_incoming : forall name, incoming name db' = incoming name db + inc name;
  effect_keyed : delegations_keyed (rows (delegations db)) -> delegations_keyed (rows (delegations db'))
}.

Lemma effect_trans d1 r1 o1 i1 d2 r2 o2 i2 db1 db2 db3 :
  effect d1 r1 o1 i1 db1 db2 -> effect d2 r2 o2 i2 db2 db3 ->
  effect (fun k => d1 k + d2 k) (fun k => r1 k + r2 k) (fun k => o1 k + o2 k) (fun k => i1 k + i2 k) db1 db3.
Proof.
  intros [A1 O1 I1 K1] [A2 O2 I2 K2].
  split; [by eapply account_change_trans | intros; rewrite O2, O1; lia | intros; rewrite I2, I1; lia | auto].
Qed.

(** A step that changes both sides alike keeps the balance. *)
Lemma effect_balanced dd rr out inc db db' :
  effect dd rr out inc db db' -> (forall name, dd name = out name /\ rr name = inc name) ->
  delegations_balanced db -> delegations_balanced db'.
Proof.
  intros [Hacc Hout Hin Hkeyed] Heq [Hb Hk]. split; [|by apply Hkeyed]. intros name a' Ha'.
  specialize (Hacc name). rewrite Ha' in Hacc. inversion Hacc as [a ? [E1 E2] Ea |]; subst. symmetry in Ea.
  destruct (Hb name a Ea), (Heq name). rewrite Hout, Hin. lia.
Qed.

#[local] Abbreviation nothing := (fun _ : string => 0).

Lemma modify_account_effect name f dd rr db u db' :
  (forall a a', f a = Ok a' ->
     amount (account_delegated_vesting_shares a') = amount (account_delegated_vesting_shares a) + dd /\
     amount (account_received_vesting_shares a') = amount (account_received_vesting_shares a) + rr) ->
  modify accounts name f db = Ok (u, db') -> effect (only name dd) (only name rr) nothing nothing db db'.
Proof.
  intros Hf H. pose proof (modify_account_change _ _ _ _ _ _ _ Hf H) as Hacc.
  apply modify_run in H as (? & ? & _ & _ & ->).
  split; [done | intros; change (outgoing name0 db = outgoing name0 db + 0); lia
    | intros; change (incoming name0 db = incoming name0 db + 0); lia | done].
Qed.
Lemma add_delegated_effect name delta db u db' :
  modify accounts name (add_delegated delta) db = Ok (u, db') ->
  effect (only name (amount delta)) (only name 0) nothing nothing db db'.
Proof.
  apply modify_account_effect. unfold add_delegated. intros a a' Ha. inv_ok. apply asset_add_amount in Hrun. cbn. lia.
Qed.
Lemma add_received_effect name delta db u db' :
  modify accounts name (add_received delta) db = Ok (u, db') ->
  effect (only name 0) (only name (amount delta)) nothing nothing db db'.
Proof.
  apply modify_account_effect. unfold add_received. intros a a' Ha. inv_ok. apply asset_add_amount in Hrun. cbn. lia.
Qed.

Lemma push_effect op force db u db' :
  push_virtual_operation op force db = Ok (u, db') -> effect nothing nothing nothing nothing db db'.
Proof.
  intros (n & l & ->)%push_virtual_operation_run. split; [by apply account_change_same | | | done].
  - intros name. change (outgoing name db = outgoing name db + 0). lia.
  - intros name. change (incoming name db = incoming name db + 0). lia.
Qed.

Lemma create_expiration_effect delegator shares t db u db' :
  create_expiration delegator shares t db = Ok (u, db') ->
  effect nothing nothing (only delegator (amount shares)) nothing db db'.
Proof.
  unfold create_expiration. intros H. inv_run. apply create_run in H as (Hnew & ->).
  split; [by apply account_change_same | | intros name; change (incoming name db = incoming name db + 0); lia | done].
  intros name. unfold outgoing. cbn. rewrite msum_insert_fresh by done. unfold returning_to at 1, only. cbn. lia.
Qed.
Lemma remove_expiration_effect id d db u db' :
  rows (delegation_expirations db) !! id = Some d -> remove delegation_expirations id db = Ok (u, db') ->
  effect nothing nothing
    (only (delegation_expiration_delegator d) (- amount (delegation_expiration_vesting_shares d))) nothing db db'.
Proof.
  intros Hd (v & _ & ->)%remove_run.
  split; [by apply account_change_same | | intros name; change (incoming name db = incoming name db + 0); lia | done].
  intros name. unfold outgoing. cbn. rewrite (msum_delete _ _ _ d) by done. unfold returning_to at 2, only.
  destruct (String.eqb _ name); lia.
Qed.

(** The row of a delegation between [dr] and [de] is set, removed or created. *)
Lemma set_delegation_effect dr de d n db u db' :
  delegations_keyed (rows (delegations db)) -> rows (delegations db) !! (dr, de) = Some d ->
  modify delegations (dr, de) (fun d => Ok (d <| delegation_vesting_shares := n |>)) db = Ok (u, db') ->
  let c := amount n - amount (delegation_vesting_shares d) in effect nothing nothing (only dr c) (only de c) db db'.
Proof.
  intros Hkeyed Hd (v & v' & Hv & Hv' & ->)%modify_run. pose proof (Hkeyed _ _ Hd) as [= -> ->]. simplify_eq.
  split; [by apply account_change_same | | |]; cbn.
  - intros name. unfold outgoing. cbn. erewrite msum_insert by done. unfold delegated_by at 2 3, only. cbn.
    destruct (String.eqb _ name); lia.
  - intros name. unfold incoming. cbn. erewrite msum_insert by done. unfold received_by at 2 3, only. cbn.
    destruct (String.eqb _ name); lia.
  - intros _. by apply map_Forall_insert_2.
Qed.
Lemma remove_delegation_effect dr de d db u db' :
  delegations_keyed (rows (delegations db)) -> rows (delegations db) !! (dr, de) = Some d ->
  remove delegations (dr, de) db = Ok (u, db') ->
  let c := - amount (delegation_vesting_shares d) in effect nothing nothing (only dr c) (only de c) db db'.
Proof.
  intros Hkeyed Hd (v & Hv & ->)%remove_run. pose proof (Hkeyed _ _ Hd) as [= -> ->]. simplify_eq.
  split; [by apply account_change_same | | |]; cbn.
  - intros name. unfold outgoing. cbn. erewrite msum_delete by done. unfold delegated_by at 2, only.
    destruct (String.eqb _ name); lia.
  - intros name. unfold incoming. cbn. erewrite msum_delete by done. unfold received_by at 2, only.
    destruct (String.eqb _ name); lia.
  - intros _. by apply map_Forall_delete.
Qed.
Lemma create_delegation_effect dr de init n db u db' :
  (forall id, delegation_delegator (init id) = dr /\ delegation_delegatee (init id) = de /\
     delegation_vesting_shares (init id) = n) ->
  create delegations (dr, de) init db = Ok (u, db') ->
  effect nothing nothing (only dr (amount n)) (only de (amount n)) db db'.
Proof.
  intros Hinit (Hnew & ->)%create_run. destruct (Hinit (next_id (delegations db))) as (E1 & E2 & E3).
  split; [by apply account_change_same | | |]; cbn.
  - intros name. unfold outgoing. cbn. rewrite msum_insert_fresh by done. unfold delegated_by at 1, only. rewrite E1, E3. lia.
  - intros name. unfold incoming. cbn. rewrite msum_insert_fresh by done. unfold received_by at 1, only. rewrite E2, E3. lia.
  - intros Hk. apply map_Forall_insert_2; [|done]. by rewrite E1, E2.
Qed.

(** Closes a run of steps with effects: chains them and compares both sides. *)
Ltac effects :=
  lazymatch goal with
  | H1 : effect _ _ _ _ ?d1 ?d2, H2 : effect _ _ _ _ ?d2 ?d3 |- _ =>
      pose proof (effect_trans _ _ _ _ _ _ _ _ _ _ _ H1 H2); clear H1 H2; effects
  | H : effect _ _ _ _ ?d1 ?d2 |- delegations_balanced ?d2 =>
      refine (effect_balanced _ _ _ _ _ _ H _ _); [|done]; intros name; unfold only;
      repeat match goal with |- context [String.eqb ?a name] => destruct (String.eqb a name) end; lia
  end.

Lemma reject_balanced op db u db' :
  reject_vesting_shares_delegation_evaluator op db = Ok (u, db') -> delegations_balanced db -> delegations_balanced db'.
Proof.
  intros H Hb. unfold reject_vesting_shares_delegation_evaluator in H. cbv zeta in H. cbn [fst snd] in H. inv_run.
  apply (modify_account_effect _ _ 0 (- amount (delegation_vesting_shares x1))) in Hrun3 as H1.
  2: { intros a a' Ha. inv_ok. apply asset_sub_amount in Hrun. cbn. lia. }
  apply create_expiration_effect in Hrun4 as H2. apply (remove_delegation_effect _ _ x1) in H.
  - effects.
  - apply H2, H1, Hb.
  - unfold create_expiration in Hrun4. inv_run. apply create_run in Hrun4 as (_ & ->).
    by apply modify_run in Hrun3 as (? & ? & _ & _ & ->).
Qed.

Lemma return_delegation_balanced id db u db' :
  return_delegation id db = Ok (u, db') -> delegations_balanced db -> delegations_balanced db'.
Proof.
  intros H Hb. unfold return_delegation in H. cbv zeta in H. inv_run.
  apply (modify_account_effect _ _ (- amount (delegation_expiration_vesting_shares x)) 0) in Hrun0 as H1.
  2: { intros a a' Ha. inv_ok. apply asset_sub_amount in Hrun. cbn. lia. }
  apply push_effect in Hrun1 as H2. apply (remove_expiration_effect _ x) in H; [effects|].
  apply push_virtual_operation_run in Hrun1 as (n & l & ->). by apply modify_run in Hrun0 as (? & ? & _ & _ & ->).
Qed.

Lemma delegate_balanced props dr de shares cv vv db u db' :
  0 <= amount shares ->
  (forall d, delegation_delegator (cv d) = delegation_delegator d /\ delegation_delegatee (cv d) = delegation_delegatee d /\
     delegation_vesting_shares (cv d) = delegation_vesting_shares d) ->
  delegate_vesting_shares props dr de shares cv vv db = Ok (u, db') -> delegations_balanced db -> delegations_balanced db'.
Proof.
  intros Hshares Hcv H Hb. unfold delegate_vesting_shares in H. cbv zeta in H. inv_run.
  all: apply add_received_effect in Hrun10 as H2.
  all: assert (Hrows : delegations db11 = delegations db10) by (by apply modify_run in Hrun10 as (? & ? & _ & _ & ->)).
  all: try (apply asset_sub_amount in E; bool_to_prop).
  1-4: match goal with
    | Hr : create_expiration _ _ _ _ = Ok _ |- _ => apply create_expiration_effect in Hr as H1;
        apply asset_neg_amount in E8; assert (Hrows1 : delegations db10 = delegations db)
          by (unfold create_expiration in Hr; inv_run; by apply create_run in Hr as (_ & ->))
    | Hr : modify accounts _ (add_delegated _) _ = Ok _ |- _ => apply add_delegated_effect in Hr as H1;
        assert (Hrows1 : delegations db10 = delegations db) by (by apply modify_run in Hr as (? & ? & _ & _ & ->))
    end; rewrite <- Hrows1, <- Hrows in Heqo;
    first [eapply set_delegation_effect in H; [|by apply H2, H1, Hb | exact Heqo]
          | eapply remove_delegation_effect in H; [|by apply H2, H1, Hb | exact Heqo]];
    cbv zeta in H; effects.
  injection E as <-. apply (create_delegation_effect _ _ _ shares) in Hrun4 as H0; [|intros id; apply Hcv].
  apply add_delegated_effect in Hrun9 as H1. effects.
Qed.

(** ** Any sequence of delegation steps *)

Inductive delegation_step (db : database) : database -> Prop :=
| step_delegate op db' : delegate_vesting_shares_operation_validate op = Ok tt ->
    delegate_vesting_shares_evaluator op db = Ok (tt, db') -> delegation_step db db'
| step_delegate_with_interest op db' : delegate_vesting_shares_with_interest_operation_validate op = Ok tt ->
    delegate_vesting_shares_with_interest_evaluator op db = Ok (tt, db') -> delegation_step db db'
| step_reject op db' : reject_vesting_shares_delegation_operation_validate op = Ok tt ->
    reject_vesting_shares_delegation_evaluator op db = Ok (tt, db') -> delegation_step db db'
| step_return db' : clear_expired_delegations db = Ok (tt, db') -> delegation_step db db'.

Lemma clear_expired_delegations_balanced db u db' :
  clear_expired_delegations db = Ok (u, db') -> delegations_balanced db -> delegations_balanced db'.
Proof.
  unfold clear_expired_delegations. intros H Hb. inv_run. revert H.
  generalize (S (size (rows (delegation_expirations db)))) as n. intros n. revert db Hb.
  induction n as [| n IH]; intros db Hb H; cbn in H; inv_run; [done | | done].
  apply return_delegation_balanced in Hrun; [|done]. by eapply IH.
Qed.

Lemma delegation_step_balanced db db' :
  delegation_step db db' -> delegations_balanced db -> delegations_balanced db'.
Proof.
  intros [op d Hv H | op d Hv H | op d Hv H | d H] Hb.
  - unfold delegate_vesting_shares_operation_validate, check_asset_ge0, check_asset_ge in Hv. inv_ok. bool_to_prop.
    unfold delegate_vesting_shares_evaluator, median_props in H. inv_run.
    refine (delegate_balanced _ _ _ _ _ _ _ _ _ _ _ H Hb); [lia | done].
  - unfold delegate_vesting_shares_with_interest_operation_validate, check_asset_ge0, check_asset_ge in Hv. inv_ok. bool_to_prop.
    unfold delegate_vesting_shares_with_interest_evaluator, median_props in H. cbv zeta in H. inv_run.
    refine (delegate_balanced _ _ _ _ _ _ _ _ _ _ _ H Hb); [lia | done].
  - by eapply reject_balanced.
  - by eapply clear_expired_delegations_balanced.
Qed.

(** C36: What is delegated stays accounted for: through every sequence of validated
    delegations, changes and refusals of delegations and returns of expired ones, each
    account records as delegated exactly the sum of its delegations and of the shares
    still on their way back, and as received exactly the sum of the delegations to it. *)
Theorem delegations_stay_balanced db db' :
  delegations_balanced db -> rtc delegation_step db db' -> delegations_balanced db'.
Proof. intros Hb Hsteps. induction Hsteps; eauto using delegation_step_balanced. Qed.

(** [clear_expired_delegations] ends with exactly the entries whose time has not
    passed, whatever their number. *)
Theorem clear_expired_delegations_spec db u db' :
  clear_expired_delegations db = Ok (u, db') ->
  rows (delegation_expirations db') =
    filter (fun kd => dgp_time (dgp db) <= delegation_expiration_expiration (snd kd)) (rows (delegation_expirations db)).
Proof.
  unfold clear_expired_delegations. intros H. inv_run. apply drain_table_spec in H as [-> _]; [| |lia].
  - apply map_filter_ext. intros k d _. cbn. unfold delegation_expired. by rewrite Z.ltb_ge.
  - intros id db1 u1 db2 H1. unfold return_delegation in H1. cbv zeta in H1. inv_run.
    apply modify_run in Hrun0 as (? & ? & _ & _ & ->). apply push_virtual_operation_run in Hrun1 as (n & l & ->).
    by apply remove_run in H1 as (v & Hv & ->).
Qed.

(** Delegation changes no other field of an account. *)
Lemma add_delegated_fields delta a a' : add_delegated delta a = Ok a' ->
  account_vesting_shares a' = account_vesting_shares a /\ account_to_withdraw a' = account_to_withdraw a /\
  account_withdrawn a' = account_withdrawn a /\
  amount (account_delegated_vesting_shares a') = amount (account_delegated_vesting_shares a) + amount delta.
Proof. unfold add_delegated. intros H. inv_ok. by apply asset_add_amount in Hrun. Qed.

Lemma available_covers a delta u :
  (exist ← get_balance_of_type a AVAILABLE_VESTING (symbol delta);
   less ← asset_ltb exist delta;
   if (less : bool) then Throw insufficient_funds else Ok tt) = Ok u ->
  amount (account_delegated_vesting_shares a) + amount delta + (account_to_withdraw a - account_withdrawn a) <=
  amount (account_vesting_shares a).
Proof.
  unfold get_balance_of_type, available_vesting_shares. intros H. inv_ok.
  match goal with H : asset_ltb _ _ = Ok _ |- _ => apply asset_ltb_Ok in H as [_ Hlt] end.
  symmetry in Hlt. bool_to_prop. apply asset_sub_amount in Hrun, Hrun2. apply safe_sub_Ok in Hrun3. cbn in *. lia.
Qed.

(** Nobody delegates what he does not have: if a delegation increases what an
    account has delegated, the account's vesting shares still cover all that it has
    delegated together with what it is withdrawing, and the total stays within the
    limit set by its voting power; a delegation that is reduced gives nothing back
    before its return time. *)
Theorem delegate_within_means props dr de shares cv vv db u db' a a' :
  dr <> de -> delegate_vesting_shares props dr de shares cv vv db = Ok (u, db') ->
  rows (accounts db) !! dr = Some a -> rows (accounts db') !! dr = Some a' ->
  a' = a \/
  (amount (account_delegated_vesting_shares a) < amount (account_delegated_vesting_shares a') /\
   amount (account_delegated_vesting_shares a') + (account_to_withdraw a' - account_withdrawn a') <=
     amount (account_vesting_shares a') /\
   exists max_allowed, max_delegated (dgp_time (dgp db)) a = Ok max_allowed /\
     amount (account_delegated_vesting_shares a') <= max_allowed).
Proof.
  intros Hne H Ha Ha'. unfold delegate_vesting_shares in H. cbv zeta in H. inv_run.
  all: apply modify_run in Hrun10 as (? & ? & _ & _ & ->).
  1-2: apply modify_run in H as (? & ? & _ & _ & ->). 3-4: apply remove_run in H as (? & _ & ->).
  all: cbn in Ha'; rewrite lookup_insert_ne in Ha' by done.
  all: try (apply create_run in Hrun4 as (_ & ->)).
  2, 4: unfold create_expiration in Hrun9; inv_run; apply create_run in Hrun9 as (_ & ->); cbn in Ha'; simplify_eq; by left.
  all: apply modify_run in Hrun9 as (w & w' & Hw & Hw' & ->); cbn in *; rewrite lookup_insert_eq in Ha'; simplify_eq.
  all: right; apply add_delegated_fields in Hw' as (-> & -> & -> & ->); bool_to_prop.
  all: match goal with H : _ ≫= _ = Ok _ |- _ => apply available_covers in H end.
  all: match goal with H : asset_leb _ _ = Ok ?b |- _ => apply asset_leb_Ok in H as [_ Hle] end.
  all: match goal with H : asset_add (account_delegated_vesting_shares _) _ = Ok _ |- _ => apply asset_add_amount in H end.
  all: split; [lia | split; [lia|]]; eexists; split; [done|]; cbn in Hle; subst; inv_ok; bool_to_prop; lia.
Qed.
End Balanced.

(** ** Concrete runs *)

Definition sample_delegate : delegate_vesting_shares_operation :=
  mk_delegate_vesting_shares "carol" "bob" (mk_asset 400000000 VESTS_SYMBOL).
Definition sample_reject : reject_vesting_shares_delegation_operation :=
  mk_reject_vesting_shares_delegation "carol" "bob" [].

Lemma sample_balanced : delegations_balanced sample_database.
Proof.
  assert (H : map_Forall (fun _ a => amount (account_delegated_vesting_shares a) = 0 /\
                amount (account_received_vesting_shares a) = 0) (rows (accounts sample_database))).
  { refine (bool_decide_unpack _ _). by vm_compute. }
  split; [|apply map_Forall_empty]. intros name a Ha. apply (H _ _ Ha).
Qed.

(** carol delegates to bob, who rejects it. *)
Lemma delegations_stay_balanced_witness :
  let db1 := run_state (delegate_vesting_shares_evaluator (F := fc_ref) sample_delegate) sample_database in
  let db2 := run_state (reject_vesting_shares_delegation_evaluator (F := fc_ref) sample_reject) db1 in
  delegations_balanced db2 /\
  option_map (fun a => amount (account_delegated_vesting_shares a)) (rows (accounts db2) !! "carol") = Some 400000000.
Proof.
  intros db1 db2. split; [|vm_compute; reflexivity].
  apply (delegations_stay_balanced (F := fc_ref) sample_database db2 sample_balanced).
  apply (rtc_l _ _ db1); [|apply rtc_once].
  - apply (step_delegate _ sample_delegate); [vm_compute; reflexivity | unfold db1; run_now].
  - apply (step_reject _ sample_reject); [vm_compute; reflexivity | unfold db2; run_now].
Defined.

Definition sample_expiration (id t : Z) : vesting_delegation_expiration_object := {|
  delegation_expiration_id := id; delegation_expiration_delegator := "carol";
  delegation_expiration_vesting_shares := mk_asset 0 VESTS_SYMBOL; delegation_expiration_expiration := t |}.
Definition sample_expirations_database : database :=
  sample_database <| delegation_expirations := mk_table
    (<[1 := sample_expiration 1 (sample_time - 1)]> (<[2 := sample_expiration 2 (sample_time + 1)]> ∅)) 3 |>.

Lemma clear_expired_delegations_spec_witness :
  let db' := run_state (clear_expired_delegations (F := fc_ref)) sample_expirations_database in
  rows (delegation_expirations db') !! 1 = None /\
  rows (delegation_expirations db') !! 2 = Some (sample_expiration 2 (sample_time + 1)).
Proof.
  intros db'. rewrite (clear_expired_delegations_spec (F := fc_ref) sample_expirations_database tt db') by run_now.
  split; vm_compute; reflexivity.
Defined.

Lemma option_map_Some {A B : Type} (f : A -> B) (o : option A) b :
  option_map f o = Some b -> exists a, o = Some a /\ f a = b.
Proof. destruct o as [a|]; [|done]. intros [= <-]. eauto. Qed.

Lemma delegate_within_means_witness :
  let m := delegate_vesting_shares (F := fc_ref) (base_18 (wso_median_props (wso sample_database))) "carol" "bob"
    (mk_asset 400000000 VESTS_SYMBOL) (fun d => d) (fun _ => Ok tt) in
  exists a', rows (accounts (run_state m sample_database)) !! "carol" = Some a' /\
    amount (account_delegated_vesting_shares a') + (account_to_withdraw a' - account_withdrawn a') <=
      amount (account_vesting_shares a').
Proof.
  intros m.
  assert (Hc : option_map (fun a => amount (account_delegated_vesting_shares a))
    (rows (accounts (run_state m sample_database)) !! "carol") = Some 400000000) by (vm_compute; reflexivity).
  apply option_map_Some in Hc as (a' & Ha' & Hd). exists a'. split; [exact Ha'|].
  assert (Hm : m sample_database = Ok (tt, run_state m sample_database)) by (unfold m; run_now).
  assert (Hcarol : rows (accounts sample_database) !! "carol" = Some (sample_account 3 "carol" 0 0 1000000000 0))
    by (vm_compute; reflexivity).
  destruct (delegate_within_means (F := fc_ref) (base_18 (wso_median_props (wso sample_database))) "carol" "bob"
    (mk_asset 400000000 VESTS_SYMBOL) (fun d => d) (fun _ => Ok tt) sample_database tt (run_state m sample_database)
    (sample_account 3 "carol" 0 0 1000000000 0) a' ltac:(done) Hm Hcarol Ha')
    as [E | (_ & H & _)]; [rewrite E; vm_compute; discriminate | exact H].
Defined.
