(* ===== verification/Accounts.v ===== *)
(** * Accounts, their authorities and witnesses

    Creation and update of accounts, proof and recovery of authorities
    ([steem_evaluator.cpp]), the owner authority history ([database::
    update_owner_authority], [database::account_recovery_processing]), and the updates of
    witnesses ([chain_properties_evaluators.cpp]). *)

From S2P Require Import Prelude Exceptions Text Fc Config Asset FlatMap Authority Operations Crypto Validate SignState BlockId ForkDatabase Objects Database Conservation Sample Transfers Vesting Preserve Production Schedule Delegation.

Section Accounts.
Context `{F : fc_ops}.

(** ** Helpers *)

(** GOLOS_CHECK_BANDWIDTH *)
Definition check_bandwidth (now next : Z) (type : bandwidth_types) : result unit :=
  if now >? next then Ok tt else Throw (bandwidth_exception type).

(** The accounts an authority names exist. *)
Definition check_authority_accounts (a : authority) : M unit :=
  for_each (fun e => check_account_exists (fst e)) (account_auths a).

Definition check_authority_exists (name : string) : M unit := get_authority name ;; mret tt.

(** [store_metadata_for_account] *)
Definition store_metadata_for_account (name : string) : M bool :=
  gets (fun db =>
    match store_account_metadata db with
    | store_metadata_for_all => true
    | store_metadata_for_nobody => false
    | store_metadata_for_listed => bool_decide (name ∈ accounts_to_store_metadata db)
    end).

(** [store_account_json_metadata] *)
Definition store_account_json_metadata (account json_metadata : string) (skip_empty : bool) : M unit :=
  store ← store_metadata_for_account account;
  meta ← find_row account_metadatas account;
  if negb store then
    match meta with Some _ => remove account_metadatas account | None => mret tt end
  else if skip_empty && (size_of json_metadata =? 0) then mret tt
  else
    match meta with
    | Some _ => modify account_metadatas account (fun a => Ok (a <| metadata_json_metadata := json_metadata |>))
    | None => create account_metadatas account (fun id => mk_account_metadata_object id account json_metadata)
    end.

(** The member initialisers of [account_object] *)
Definition new_account_object (id : Z) (name : string) : account_object := {|
  account_id := id; account_name := name; account_memo_key := no_key; account_proxy := "";
  account_last_account_update := 0; account_created := 0; account_mined := true;
  account_owner_challenged := false; account_active_challenged := false;
  account_last_owner_proved := 0; account_last_active_proved := 0;
  account_recovery_account := ""; account_reset_account := STEEMIT_NULL_ACCOUNT; account_last_account_recovery := 0;
  account_comment_count := 0; account_lifetime_vote_count := 0; account_post_count := 0;
  account_can_vote := true; account_voting_power := STEEMIT_100_PERCENT;
  account_posts_capacity := STEEMIT_POSTS_WINDOW; account_comments_capacity := STEEMIT_COMMENTS_WINDOW;
  account_voting_capacity := STEEMIT_VOTES_WINDOW; account_last_vote_time := 0;
  account_balance := mk_asset 0 STEEM_SYMBOL; account_savings_balance := mk_asset 0 STEEM_SYMBOL;
  account_sbd_balance := mk_asset 0 SBD_SYMBOL; account_sbd_seconds := 0;
  account_sbd_seconds_last_update := 0; account_sbd_last_interest_payment := 0;
  account_savings_sbd_balance := mk_asset 0 SBD_SYMBOL; account_savings_sbd_seconds := 0;
  account_savings_sbd_seconds_last_update := 0; account_savings_sbd_last_interest_payment := 0;
  account_savings_withdraw_requests := 0;
  account_benefaction_rewards := 0; account_curation_rewards := 0;
  account_delegation_rewards := 0; account_posting_rewards := 0;
  account_vesting_shares := mk_asset 0 VESTS_SYMBOL; account_delegated_vesting_shares := mk_asset 0 VESTS_SYMBOL;
  account_received_vesting_shares := mk_asset 0 VESTS_SYMBOL; account_vesting_withdraw_rate := mk_asset 0 VESTS_SYMBOL;
  account_next_vesting_withdrawal := time_point_sec_maximum; account_withdrawn := 0; account_to_withdraw := 0;
  account_withdraw_routes := 0; account_proxied_vsf_votes := replicate (Z.to_nat STEEMIT_MAX_PROXY_RECURSION_DEPTH) 0;
  account_witnesses_voted_for := 0; account_last_post := 0;
  account_referrer_account := ""; account_referrer_interest_rate := 0; account_referral_end_date := 0;
  account_referral_break_fee := mk_asset 0 STEEM_SYMBOL |}.

(** ** Creation *)

(** [c.balance -= o.fee] *)
Definition take_fee (fee : asset) (a : account_object) : result account_object :=
  b ← asset_sub (account_balance a) fee; Ok (a <| account_balance := b |>).
Definition create_authority (name : string) (owner active posting : authority) : M unit :=
  create authorities name (fun id => mk_account_authority_object id name owner active posting 0).

(** [account_create_evaluator::do_apply] *)
Definition account_create_evaluator (o : account_create_operation) : M unit :=
  let name := account_create_new_account_name o in
  let fee := account_create_fee o in
  check_account_exists (account_create_creator o) ;;
  check_balance (account_create_creator o) MAIN_BALANCE fee ;;
  hf1 ← has_hardfork STEEMIT_HARDFORK_0_1;
  props ← median_props;
  when hf1 (check_op_param "fee"
    (enough ← lift (asset_geb fee (account_creation_fee (base_17 (base_18 props)))); lift (check_value enough))) ;;
  producing ← gets is_producing;
  hf15 ← has_hardfork STEEMIT_HARDFORK_0_15__465;
  when (producing || hf15)
    (check_authority_accounts (account_create_owner o) ;;
     check_authority_accounts (account_create_active o) ;;
     check_authority_accounts (account_create_posting o)) ;;
  modify accounts (account_create_creator o) (take_fee fee) ;;
  throw_if_exists accounts "account" name ;;
  now ← head_block_time;
  hf11 ← has_hardfork STEEMIT_HARDFORK_0_11__169;
  create accounts name (fun id => (new_account_object id name)
    <| account_memo_key := account_create_memo_key o |> <| account_created := now |> <| account_last_vote_time := now |>
    <| account_mined := false |>
    <| account_recovery_account := if (hf11 : bool) then account_create_creator o else STEEMIT_INIT_MINER_NAME |>) ;;
  store_account_json_metadata name (account_create_json_metadata o) false ;;
  create_authority name (account_create_owner o) (account_create_active o) (account_create_posting o) ;;
  when (amount fee >? 0) (create_vesting name fee ;; mret tt).

(** [account_create_with_delegation_extension_visitor] *)
Definition apply_referral_options (name : string) (aro : account_referral_options) : M unit :=
  assert_req_hf STEEMIT_HARDFORK_0_19__295 ;;
  check_account_exists (account_referral_options_referrer aro) ;;
  props ← median_props;
  now ← head_block_time;
  lift (check_param "aro.interest_rate" (check_limit (account_referral_options_interest_rate aro) (max_referral_interest_rate props))) ;;
  lift (check_param "aro.end_date" (check_value (account_referral_options_end_date aro >=? now))) ;;
  lift (check_param "aro.end_date" (check_limit (account_referral_options_end_date aro) (time_add now (max_referral_term_sec props)))) ;;
  lift (check_param "aro.break_fee"
    (within ← asset_leb (account_referral_options_break_fee aro) (max_referral_break_fee props);
     if (within : bool) then Ok tt else Throw limit_too_large)) ;;
  modify accounts name (fun a => Ok (a
    <| account_referrer_account := account_referral_options_referrer aro |>
    <| account_referrer_interest_rate := account_referral_options_interest_rate aro |>
    <| account_referral_end_date := account_referral_options_end_date aro |>
    <| account_referral_break_fee := account_referral_options_break_fee aro |>)).
Definition apply_create_extension (name : string) (e : account_create_with_delegation_extension) : M unit :=
  match e with ext_account_referral_options aro => apply_referral_options name aro end.

(** The delegation that the fee and the delegated shares amount to *)
Definition create_delegation_enough (props : chain_properties_18) (price : price) (fee delegation : asset) : result bool :=
  target ← asset_add (create_account_min_golos_fee props) (create_account_min_delegation props);
  target_delegation ← asset_mul_price target price;
  scaled ← asset_mul_int fee (amount target);
  part ← asset_div_int scaled (amount (account_creation_fee (base_17 props)));
  shares ← asset_mul_price part price;
  current_delegation ← asset_add shares delegation;
  asset_geb current_delegation target_delegation.

(** [account_create_with_delegation_evaluator::do_apply] *)
Definition account_create_with_delegation_evaluator (o : account_create_with_delegation_operation) : M unit :=
  let name := account_create_with_delegation_new_account_name o in
  let creator := account_create_with_delegation_creator o in
  let fee := account_create_with_delegation_fee o in
  let delegation := account_create_with_delegation_delegation o in
  check_account_exists creator ;;
  check_balance creator MAIN_BALANCE fee ;;
  check_balance creator AVAILABLE_VESTING delegation ;;
  v_share_price ← gets (fun db => get_vesting_share_price (dgp db));
  props ← median_props;
  enough ← lift (create_delegation_enough (base_18 props) v_share_price fee delegation);
  check_logic_m enough not_enough_delegation ;;
  check_op_param "fee"
    (enough ← lift (asset_geb fee (create_account_min_golos_fee (base_18 props))); lift (check_value enough)) ;;
  check_authority_accounts (account_create_with_delegation_owner o) ;;
  check_authority_accounts (account_create_with_delegation_active o) ;;
  check_authority_accounts (account_create_with_delegation_posting o) ;;
  now ← head_block_time;
  modify accounts creator (fun c => c' ← take_fee fee c; add_delegated delegation c') ;;
  create accounts name (fun id => (new_account_object id name)
    <| account_memo_key := account_create_with_delegation_memo_key o |> <| account_created := now |>
    <| account_last_vote_time := now |> <| account_mined := false |> <| account_recovery_account := creator |>
    <| account_received_vesting_shares := delegation |>) ;;
  store_account_json_metadata name (account_create_with_delegation_json_metadata o) false ;;
  create_authority name (account_create_with_delegation_owner o) (account_create_with_delegation_active o)
    (account_create_with_delegation_posting o) ;;
  when (amount delegation >? 0)
    (create delegations (creator, name) (fun id => {|
       delegation_id := id; delegation_delegator := creator; delegation_delegatee := name;
       delegation_vesting_shares := delegation; delegation_interest_rate := 0; delegation_payout_strategy := to_delegator;
       delegation_min_delegation_time := time_add now (create_account_delegation_time (base_18 props)) |})) ;;
  when (amount fee >? 0) (create_vesting name fee ;; mret tt) ;;
  for_each (apply_create_extension name) (account_create_with_delegation_extensions o).

(** ** Update *)

(** [update_owner_authority] *)
Definition update_owner_authority (name : string) (owner_authority : authority) : M unit :=
  num ← head_block_num;
  now ← head_block_time;
  when (num >=? STEEMIT_OWNER_AUTH_HISTORY_TRACKING_START_BLOCK_NUM)
    (auth ← get_authority name;
     id ← gets (fun db => next_id (owner_histories db));
     create owner_histories id (fun id => mk_owner_authority_history_object id name (auth_owner auth) now)) ;;
  check_authority_exists name ;;
  modify authorities name (fun auth => Ok (auth <| auth_owner := owner_authority |> <| auth_last_owner_update := now |>)).

(** [account_update_evaluator::do_apply] *)
Definition account_update_evaluator (o : account_update_operation) : M unit :=
  let name := account_update_account o in
  hf1 ← has_hardfork STEEMIT_HARDFORK_0_1;
  when hf1 (lift (check_param "account" (check_value (negb (String.eqb name STEEMIT_TEMP_ACCOUNT))))) ;;
  hf15 ← has_hardfork STEEMIT_HARDFORK_0_15__465;
  producing ← gets is_producing;
  let strict := hf15 || producing in
  lift (match account_update_posting o with Some p => if strict then authority_validate p else Ok tt | None => Ok tt end) ;;
  check_account_exists name ;;
  account_auth ← get_authority name;
  now ← head_block_time;
  hf11 ← has_hardfork STEEMIT_HARDFORK_0_11;
  match account_update_owner o with
  | Some owner =>
      when hf11 (lift (check_bandwidth now (time_add (auth_last_owner_update account_auth) STEEMIT_OWNER_UPDATE_LIMIT)
                         change_owner_authority_bandwidth)) ;;
      when strict (check_authority_accounts owner) ;;
      update_owner_authority name owner
  | None => mret tt
  end ;;
  match account_update_active o with Some a => when strict (check_authority_accounts a) | None => mret tt end ;;
  match account_update_posting o with Some a => when strict (check_authority_accounts a) | None => mret tt end ;;
  modify accounts name (fun acc =>
    let acc := if account_update_memo_key o =? no_key then acc else acc <| account_memo_key := account_update_memo_key o |> in
    let proved := (bool_decide (is_Some (account_update_active o)) || bool_decide (is_Some (account_update_owner o))) &&
                  account_active_challenged acc in
    let acc := if (proved : bool) then acc <| account_active_challenged := false |> <| account_last_active_proved := now |> else acc in
    Ok (acc <| account_last_account_update := now |>)) ;;
  store_account_json_metadata name (account_update_json_metadata o) true ;;
  when (bool_decide (is_Some (account_update_active o)) || bool_decide (is_Some (account_update_posting o)))
    (modify authorities name (fun auth => Ok (auth
      <| auth_active := default (auth_active auth) (account_update_active o) |>
      <| auth_posting := default (auth_posting auth) (account_update_posting o) |>))).

(** [account_metadata_evaluator::do_apply] *)
Definition account_metadata_evaluator (o : account_metadata_operation) : M unit :=
  check_account_exists (account_metadata_account o) ;;
  now ← head_block_time;
  modify accounts (account_metadata_account o) (fun a => Ok (a <| account_last_account_update := now |>)) ;;
  store_account_json_metadata (account_metadata_account o) (account_metadata_json_metadata o) false.

(** ** Challenge and proof of authorities *)

Definition STEEMIT_ACTIVE_CHALLENGE_FEE : asset := mk_asset 2000 STEEM_SYMBOL.
Definition STEEMIT_OWNER_CHALLENGE_FEE : asset := mk_asset 30000 STEEM_SYMBOL.

(** The fee of a challenge goes to the challenged account as vesting shares. *)
Definition pay_challenge (challenger challenged : string) (fee : asset) : M unit :=
  neg ← lift (asset_neg fee);
  adjust_balance challenger neg ;;
  check_account_exists challenged ;;
  create_vesting challenged fee ;;
  mret tt.

(** [challenge_authority_evaluator::do_apply] *)
Definition challenge_authority_evaluator (o : challenge_authority_operation) : M unit :=
  hf14 ← has_hardfork STEEMIT_HARDFORK_0_14__307;
  when hf14 (throw unsupported_operation) ;;
  let name := challenge_authority_challenged o in
  challenged ← get_account name;
  challenger ← get_account (challenge_authority_challenger o);
  now ← head_block_time;
  if challenge_authority_require_owner o then
    lift (fc_assert (String.eqb (account_reset_account challenged) (challenge_authority_challenger o))) ;;
    enough ← lift (asset_geb (account_balance challenger) STEEMIT_OWNER_CHALLENGE_FEE);
    lift (fc_assert enough) ;;
    lift (fc_assert (negb (account_owner_challenged challenged))) ;;
    lift (fc_assert (time_diff_seconds now (account_last_owner_proved challenged) >? STEEMIT_OWNER_CHALLENGE_COOLDOWN)) ;;
    pay_challenge (challenge_authority_challenger o) name STEEMIT_OWNER_CHALLENGE_FEE ;;
    modify accounts name (fun a => Ok (a <| account_owner_challenged := true |>))
  else
    enough ← lift (asset_geb (account_balance challenger) STEEMIT_ACTIVE_CHALLENGE_FEE);
    lift (fc_assert enough) ;;
    lift (fc_assert (negb (account_owner_challenged challenged || account_active_challenged challenged))) ;;
    lift (fc_assert (time_diff_seconds now (account_last_active_proved challenged) >? STEEMIT_ACTIVE_CHALLENGE_COOLDOWN)) ;;
    pay_challenge (challenge_authority_challenger o) name STEEMIT_ACTIVE_CHALLENGE_FEE ;;
    modify accounts name (fun a => Ok (a <| account_active_challenged := true |>)).

(** [prove_authority_evaluator::do_apply] *)
Definition prove_authority_evaluator (o : prove_authority_operation) : M unit :=
  challenged ← get_account (prove_authority_challenged o);
  check_logic_m (account_owner_challenged challenged || account_active_challenged challenged) account_is_not_challeneged ;;
  now ← head_block_time;
  modify accounts (prove_authority_challenged o) (fun a =>
    let a := a <| account_active_challenged := false |> <| account_last_active_proved := now |> in
    Ok (if prove_authority_require_owner o
        then a <| account_owner_challenged := false |> <| account_last_owner_proved := now |> else a)).

(** ** Recovery *)

(** [request_account_recovery_evaluator::do_apply]; the index of witnesses is taken to be
    non-empty by the source, the model fails where it is not. *)
Definition request_account_recovery_evaluator (o : request_account_recovery_operation) : M unit :=
  let name := request_account_recovery_account_to_recover o in
  let new_owner := request_account_recovery_new_owner_authority o in
  account_to_recover ← get_account name;
  (if negb (size_of (account_recovery_account account_to_recover) =? 0) then
     check_logic_m (String.eqb (account_recovery_account account_to_recover) (request_account_recovery_recovery_account o))
       cannot_recover_if_not_partner
   else
     top ← gets (fun db => head (witnesses_by by_vote_name db));
     match top with
     | Some (_, w) => check_logic_m (String.eqb (witness_owner w) (request_account_recovery_recovery_account o))
                        must_be_recovered_by_top_witness
     | None => throw fc_assert_exception
     end) ;;
  request ← find_row recovery_requests name;
  hf15 ← has_hardfork STEEMIT_HARDFORK_0_15__465;
  now ← head_block_time;
  let expires := time_add now STEEMIT_ACCOUNT_RECOVERY_REQUEST_EXPIRATION_PERIOD in
  match request with
  | None =>
      lift (check_param "new_owner_authority"
        (check_value (negb (is_impossible new_owner)) ;; check_value (negb (weight_threshold new_owner =? 0)))) ;;
      when hf15 (check_authority_accounts new_owner) ;;
      create recovery_requests name (fun id => mk_account_recovery_request_object id name new_owner expires)
  | Some _ =>
      if weight_threshold new_owner =? 0 then remove recovery_requests name
      else
        lift (check_param "new_owner_authority" (check_value (negb (is_impossible new_owner)))) ;;
        when hf15 (check_authority_accounts new_owner) ;;
        modify recovery_requests name (fun req => Ok (req
          <| recovery_request_new_owner_authority := new_owner |> <| recovery_request_expires := expires |>))
  end.

(** A former owner authority of the account *)
Definition in_history (name : string) (a : authority) (db : database) : bool :=
  existsb (fun h => String.eqb (owner_history_account (snd h)) name && authority_eqb (owner_history_previous_owner_authority (snd h)) a)
    (map_to_list (rows (owner_histories db))).

(** [recover_account_evaluator::do_apply] *)
Definition recover_account_evaluator (o : recover_account_operation) : M unit :=
  let name := recover_account_account_to_recover o in
  account ← get_account name;
  now ← head_block_time;
  hf12 ← has_hardfork STEEMIT_HARDFORK_0_12;
  when hf12 (lift (check_bandwidth now (time_add (account_last_account_recovery account) STEEMIT_OWNER_UPDATE_LIMIT)
                     change_owner_authority_bandwidth)) ;;
  request ← find_row recovery_requests name;
  match request with
  | None => throw (logic_exception no_active_recovery_request)
  | Some r =>
      check_logic_m (authority_eqb (recovery_request_new_owner_authority r) (recover_account_new_owner_authority o))
        authority_does_not_match_request
  end ;;
  found ← gets (in_history name (recover_account_recent_owner_authority o));
  check_logic_m found no_recent_authority_in_history ;;
  remove recovery_requests name ;;
  update_owner_authority name (recover_account_new_owner_authority o) ;;
  modify accounts name (fun a => Ok (a <| account_last_account_recovery := now |>)) ;;
  hf19 ← has_hardfork STEEMIT_HARDFORK_0_19__971;
  when hf19 (reset_vesting_withdraw name).

(** [change_recovery_account_evaluator::do_apply] *)
Definition change_recovery_account_evaluator (o : change_recovery_account_operation) : M unit :=
  let name := change_recovery_account_account_to_recover o in
  let new := change_recovery_account_new_recovery_account o in
  check_account_exists new ;;
  account_to_recover ← get_account name;
  request ← find_row change_recovery_requests name;
  now ← head_block_time;
  let effective := time_add now STEEMIT_OWNER_AUTH_RECOVERY_PERIOD in
  match request with
  | None => create change_recovery_requests name (fun id => mk_change_recovery_account_request_object id name new effective)
  | Some _ =>
      if negb (String.eqb (account_recovery_account account_to_recover) new) then
        modify change_recovery_requests name (fun req => Ok (req
          <| change_recovery_recovery_account := new |> <| change_recovery_effective_on := effective |>))
      else remove change_recovery_requests name
  end.

(** The three loops of [account_recovery_processing] *)
Definition by_request_expiration (x y : account_recovery_request_object) : comparison :=
  cmp_then (Z.compare (recovery_request_expires x) (recovery_request_expires y))
    (Z.compare (recovery_request_id x) (recovery_request_id y)).
Definition request_expired (now : Z) (r : account_recovery_request_object) : bool := recovery_request_expires r <=? now.
Definition clear_recovery_requests : M unit :=
  fuel ← gets (fun db => S (size (rows (recovery_requests db))));
  drain fuel (fun db => first_due (request_expired (dgp_time (dgp db))) by_request_expiration (recovery_requests db))
    (remove recovery_requests).

Definition history_invalid (now : Z) (h : owner_authority_history_object) : bool :=
  time_add (owner_history_last_valid_time h) STEEMIT_OWNER_AUTH_RECOVERY_PERIOD <? now.
(** The loop stops at the oldest entry that is still valid. *)
Definition oldest_history (db : database) : option (Z * owner_authority_history_object) :=
  head (sort_by (fun x y => fst x <=? fst y) (map_to_list (rows (owner_histories db)))).
Definition next_history (db : database) : option Z :=
  match oldest_history db with
  | Some (k, h) => if history_invalid (dgp_time (dgp db)) h then Some k else None
  | None => None
  end.
Definition clear_owner_histories : M unit :=
  fuel ← gets (fun db => S (size (rows (owner_histories db))));
  drain fuel next_history (remove owner_histories).

Definition by_change_effective_date (x y : change_recovery_account_request_object) : comparison :=
  cmp_then (Z.compare (change_recovery_effective_on x) (change_recovery_effective_on y))
    (Z.compare (change_recovery_id x) (change_recovery_id y)).
Definition change_effective (now : Z) (r : change_recovery_account_request_object) : bool := change_recovery_effective_on r <=? now.
Definition apply_recovery_change (k : string) : M unit :=
  r ← get_row change_recovery_requests "change_recovery_account_request" k;
  check_account_exists (change_recovery_account_to_recover r) ;;
  modify accounts (change_recovery_account_to_recover r) (fun a =>
    Ok (a <| account_recovery_account := change_recovery_recovery_account r |>)) ;;
  remove change_recovery_requests k.
Definition apply_recovery_changes : M unit :=
  fuel ← gets (fun db => S (size (rows (change_recovery_requests db))));
  drain fuel (fun db => first_due (change_effective (dgp_time (dgp db))) by_change_effective_date (change_recovery_requests db))
    apply_recovery_change.

(** [account_recovery_processing] *)
Definition account_recovery_processing : M unit :=
  clear_recovery_requests ;; clear_owner_histories ;; apply_recovery_changes.

(** [reset_account_evaluator::do_apply], [set_reset_account_evaluator::do_apply]: disabled *)
Definition reset_account_evaluator (o : reset_account_operation) : M unit := throw unsupported_operation.
Definition set_reset_account_evaluator (o : set_reset_account_operation) : M unit := throw unsupported_operation.

(** [report_over_production_evaluator::do_apply] *)
Definition report_over_production_evaluator (o : report_over_production_operation) : M unit :=
  hf4 ← has_hardfork STEEMIT_HARDFORK_0_4;
  when hf4 (throw unsupported_operation).

(** ** Witnesses *)

(** The member initialisers of [witness_object] *)
Definition new_witness_object (id : Z) (owner : string) (created : Z) : witness_object := {|
  witness_id := id; witness_owner := owner; witness_created := created; witness_url := ""; witness_total_missed := 0;
  witness_last_aslot := 0; witness_last_confirmed_block_num := 0; witness_pow_worker := 0; witness_signing_key := no_key;
  witness_props := chain_properties_19_default; witness_sbd_exchange_rate := mk_price (mk_asset 0 STEEM_SYMBOL) (mk_asset 0 STEEM_SYMBOL);
  witness_last_sbd_exchange_update := 0; witness_votes := 0; witness_schedule := none;
  witness_virtual_last_update := 0; witness_virtual_position := 0; witness_virtual_scheduled_time := 2 ^ 128 - 1;
  witness_last_work := 0; witness_running_version := 0; witness_hardfork_version_vote := 0;
  witness_hardfork_time_vote := STEEMIT_GENESIS_TIME; witness_transit_to_cyberway_vote := STEEMIT_GENESIS_TIME |}.

(** Updates the witness of an owner, or registers one *)
Definition update_witness (owner : string) (f : witness_object -> witness_object) : M unit :=
  now ← head_block_time;
  itr ← find_row witnesses owner;
  match itr with
  | Some _ => modify witnesses owner (fun w => Ok (f w))
  | None => create witnesses owner (fun id => f (new_witness_object id owner now))
  end.

(** [operator=] from earlier versions: the fields they do not have stay. *)
Definition assign_props_17 (p : chain_properties_17) (props : chain_properties_19) : chain_properties_19 :=
  props <| base_18 ::= (fun b => b <| base_17 := p |>) |>.
Definition assign_props_18 (p : chain_properties_18) (props : chain_properties_19) : chain_properties_19 := props <| base_18 := p |>.

(** [witness_update_evaluator::do_apply] *)
Definition witness_update_evaluator (o : witness_update_operation) : M unit :=
  check_account_exists (witness_update_owner o) ;;
  hf1 ← has_hardfork STEEMIT_HARDFORK_0_1;
  when hf1 (lift (check_param "url" (check_value_max_size (witness_update_url o) STEEMIT_MAX_WITNESS_URL_LENGTH))) ;;
  hf18 ← has_hardfork STEEMIT_HARDFORK_0_18__673;
  update_witness (witness_update_owner o) (fun w =>
    let w := w <| witness_url := witness_update_url o |> <| witness_signing_key := witness_update_block_signing_key o |> in
    if (hf18 : bool) then w else w <| witness_props ::= assign_props_17 (witness_update_props o) |>).

(** [chain_properties_update_evaluator::do_apply] *)
Definition chain_properties_update_evaluator (o : chain_properties_update_operation) : M unit :=
  check_account_exists (chain_properties_update_owner o) ;;
  match chain_properties_update_props o with props_19 _ => assert_req_hf STEEMIT_HARDFORK_0_19__295 | _ => mret tt end ;;
  update_witness (chain_properties_update_owner o) (fun w => w <| witness_props ::=
    match chain_properties_update_props o with
    | props_17 p => assign_props_17 p
    | props_18 p => assign_props_18 p
    | props_19 p => fun _ => p
    end |>).

(** [transit_to_cyberway_evaluator::do_apply] *)
Definition transit_to_cyberway_evaluator (o : transit_to_cyberway_operation) : M unit :=
  let owner := transit_to_cyberway_owner o in
  assert_req_hf STEEMIT_HARDFORK_0_21__1348 ;;
  check_account_exists owner ;;
  witness ← get_witness owner;
  lift (check_param "vote_to_transit" (check_value (xorb (transit_to_cyberway_vote_to_transit o)
    (negb (witness_transit_to_cyberway_vote witness =? STEEMIT_GENESIS_TIME))))) ;;
  now ← head_block_time;
  modify witnesses owner (fun w => Ok (w <| witness_transit_to_cyberway_vote :=
    if transit_to_cyberway_vote_to_transit o then now else STEEMIT_GENESIS_TIME |>)).
End Accounts.

(** ** Conservation *)

Definition keeps_gap (sym : Z) (db db' : database) : Prop := gap sym db' = gap sym db.
#[export] Instance keeps_gap_preorder sym : PreOrder (keeps_gap sym).
Proof. split; [done|]. unfold keeps_gap. intros x y z. congruence. Qed.

(** What the invariant counts *)
Definition gap_fields (db : database) :=
  (accounts db, escrows db, limit_orders db, convert_requests db, savings_withdraws db, dgp db).
Lemma gap_counted sym db db' : gap_fields db' = gap_fields db -> gap sym db' = gap sym db.
Proof. unfold gap_fields. intros [= E1 E2 E3 E4 E5 E6]. unfold gap, holdings. by rewrite E1, E2, E3, E4, E5, E6. Qed.
Lemma keeps_gap_on_table sym {T : Type} (proj : database -> T) `{!FieldSetter proj} f :
  (forall db t, gap_fields (db <| proj := t |>) = gap_fields db) -> preserves (keeps_gap sym) (on_table proj f).
Proof. intros Hp db u db' (t & _ & ->)%on_table_run. apply gap_counted, Hp. Qed.
Lemma keeps_gap_modify_accounts sym k f : (forall a a', f a = Ok a' -> account_holdings sym a' = account_holdings sym a) ->
  preserves (keeps_gap sym) (modify accounts k f).
Proof.
  intros Hf db u db' H. apply (modify_accounts_gap sym) in H as (v & v' & _ & Hv & _ & _ & Hg).
  apply Hf in Hv. unfold keeps_gap. lia.
Qed.
Lemma create_account_gap sym k init db u db' : create accounts k init db = Ok (u, db') ->
  gap sym db' = gap sym db - account_holdings sym (init (next_id (accounts db))).
Proof. intros (Hk & ->)%create_run. unfold gap, holdings. cbn. rewrite msum_insert_fresh by done. lia. Qed.

Ltac keeps_gap_rows :=
  match goal with
  | |- preserves _ (modify accounts _ _) =>
      apply keeps_gap_modify_accounts; let a := fresh "a" in let a' := fresh "a'" in let Ha := fresh "Ha" in
      intros a a' Ha; cbv zeta in Ha; inv_ok; repeat case_match; reflexivity
  | |- preserves _ (modify _ _ _) => unfold modify at 1
  | |- preserves _ (create _ _ _) => unfold create at 1
  | |- preserves _ (remove _ _) => unfold remove at 1
  | |- preserves _ (on_table _ _) => apply keeps_gap_on_table; intros ? ?; reflexivity
  end.
Ltac keeps_gap_solve := repeat (preserve; try keeps_gap_rows).

Section AccountsGap.
Context `{F : fc_ops} {L : fc_laws F}.
Variable sym : Z.
#[local] Abbreviation keeps_gap := (keeps_gap sym).

Lemma metadata_gap a j s : preserves keeps_gap (store_account_json_metadata a j s).
Proof. unfold store_account_json_metadata, store_metadata_for_account. keeps_gap_solve. Qed.
Lemma check_authority_accounts_gap a : preserves keeps_gap (check_authority_accounts a).
Proof. unfold check_authority_accounts. keeps_gap_solve. Qed.
Lemma update_owner_authority_gap name a : preserves keeps_gap (update_owner_authority name a).
Proof. unfold update_owner_authority, check_authority_exists. keeps_gap_solve. Qed.
Lemma apply_create_extension_gap name e : preserves keeps_gap (apply_create_extension name e).
Proof. destruct e. unfold apply_create_extension, apply_referral_options, median_props. keeps_gap_solve. Qed.
Lemma remove_routes_while_gap from l : preserves keeps_gap (remove_routes_while from l).
Proof. induction l as [| x l IH]; cbn [remove_routes_while]; cbv zeta; keeps_gap_solve. Qed.
Hint Resolve metadata_gap check_authority_accounts_gap update_owner_authority_gap apply_create_extension_gap remove_routes_while_gap : preserves.

Lemma account_update_gap o : preserves keeps_gap (account_update_evaluator o).
Proof. unfold account_update_evaluator. cbv zeta. keeps_gap_solve. Qed.
Lemma account_metadata_gap o : preserves keeps_gap (account_metadata_evaluator o).
Proof. unfold account_metadata_evaluator. keeps_gap_solve. Qed.
Lemma prove_authority_gap o : preserves keeps_gap (prove_authority_evaluator o).
Proof. unfold prove_authority_evaluator. cbv zeta. keeps_gap_solve. Qed.
Lemma request_account_recovery_gap o : preserves keeps_gap (request_account_recovery_evaluator o).
Proof. unfold request_account_recovery_evaluator. cbv zeta. keeps_gap_solve. Qed.
Lemma recover_account_gap o : preserves keeps_gap (recover_account_evaluator o).
Proof.
  unfold recover_account_evaluator, reset_vesting_withdraw, stop_withdraw, remove_vesting_routes. cbv zeta. keeps_gap_solve.
Qed.
Lemma change_recovery_account_gap o : preserves keeps_gap (change_recovery_account_evaluator o).
Proof. unfold change_recovery_account_evaluator. cbv zeta. keeps_gap_solve. Qed.
Lemma account_recovery_processing_gap : preserves keeps_gap account_recovery_processing.
Proof.
  unfold account_recovery_processing, clear_recovery_requests, clear_owner_histories, apply_recovery_changes, apply_recovery_change.
  keeps_gap_solve.
Qed.
Lemma report_over_production_gap o : preserves keeps_gap (report_over_production_evaluator o).
Proof. unfold report_over_production_evaluator. keeps_gap_solve. Qed.
Lemma witness_update_gap o : preserves keeps_gap (witness_update_evaluator o).
Proof. unfold witness_update_evaluator, update_witness. cbv zeta. keeps_gap_solve. Qed.
Lemma chain_properties_update_gap o : preserves keeps_gap (chain_properties_update_evaluator o).
Proof. unfold chain_properties_update_evaluator, update_witness. cbv zeta. keeps_gap_solve. Qed.
Lemma transit_to_cyberway_gap o : preserves keeps_gap (transit_to_cyberway_evaluator o).
Proof. unfold transit_to_cyberway_evaluator. cbv zeta. keeps_gap_solve. Qed.

(** The fee of a challenge moves from one account to the vesting fund. *)
Lemma pay_challenge_gap a b fee : preserves keeps_gap (pay_challenge a b fee).
Proof. unfold pay_challenge. intros db u db' H. unfold keeps_gap. gap_solve sym. Qed.
Hint Resolve pay_challenge_gap : preserves.
Lemma challenge_authority_gap o : preserves keeps_gap (challenge_authority_evaluator o).
Proof. unfold challenge_authority_evaluator. cbv zeta. keeps_gap_solve. Qed.

(** Code that moves the gap by [n] *)
Definition shifts {A : Type} (n : Z) (m : M A) : Prop := forall db a db', m db = Ok (a, db') -> gap sym db' = gap sym db + n.
Lemma shifts_bind {A B : Type} n k (m : M A) (f : A -> M B) : shifts n m -> (forall a, shifts k (f a)) -> shifts (n + k) (m ≫= f).
Proof. intros Hm Hf db b db' (a & db1 & H1%Hm & H2%Hf)%bind_run. lia. Qed.
Lemma shifts_same {A : Type} (m : M A) : preserves keeps_gap m -> shifts 0 m.
Proof. intros Hm db a db' H%Hm. unfold Accounts.keeps_gap in H. lia. Qed.
Lemma shifts_skip {A B : Type} n (m : M A) (f : A -> M B) : preserves keeps_gap m -> (forall a, shifts n (f a)) -> shifts n (m ≫= f).
Proof. intros Hm Hf. apply (shifts_bind 0 n); [by apply shifts_same | done]. Qed.
Lemma shifts_cancel {A B : Type} n (m : M A) (f : A -> M B) : shifts n m -> (forall a, shifts (- n) (f a)) -> shifts 0 (m ≫= f).
Proof. intros Hm Hf. rewrite <- (Z.add_opp_diag_r n). by apply shifts_bind. Qed.
Lemma shifts_last {A B : Type} n (m : M A) (f : A -> M B) : shifts n m -> (forall a, preserves keeps_gap (f a)) -> shifts n (m ≫= f).
Proof. intros Hm Hf. rewrite <- (Z.add_0_r n). apply shifts_bind; [done|]. intros. by apply shifts_same. Qed.

Lemma take_fee_shifts k fee : shifts (amount_in sym fee) (modify accounts k (take_fee fee)).
Proof. unfold take_fee. intros db u db' H. gap_solve sym. Qed.
Lemma take_fee_delegated_shifts k fee d : shifts (amount_in sym fee) (modify accounts k (fun c => c' ← take_fee fee c; add_delegated d c')).
Proof. unfold take_fee, add_delegated. intros db u db' H. gap_solve sym. Qed.
Lemma vest_fee_shifts name fee : 0 <= amount fee -> shifts (- amount_in sym fee) (when (amount fee >? 0) (create_vesting name fee ;; mret tt)).
Proof.
  unfold when. intros Hf db u db' H. destruct (Z.gtb_spec (amount fee) 0); [gap_solve sym|]. apply mret_run in H as [_ ->].
  unfold amount_in. destruct (symbol fee =? sym); lia.
Qed.
Lemma create_account_shifts k init : (forall id, account_holdings sym (init id) = 0) -> preserves keeps_gap (create accounts k init).
Proof. intros Hi db u db' H. apply (create_account_gap sym) in H. rewrite Hi in H. unfold Accounts.keeps_gap. lia. Qed.
Lemma new_account_holdings id name : account_holdings sym (new_account_object id name) = 0.
Proof. unfold account_holdings, new_account_object. cbn. by rewrite !amount_in_zero. Qed.

Ltac shifts_steps :=
  repeat match goal with
  | |- shifts _ (create accounts _ _ ≫= _) => apply shifts_skip; [apply create_account_shifts; intros; by rewrite <- (new_account_holdings 0 "") |]; intros
  | |- shifts _ (modify accounts _ _ ≫= _) => fail 1
  | |- shifts _ (when (_ >? 0) (create_vesting _ _ ≫= _) ≫= _) => fail 1
  | |- shifts _ (_ ≫= _) => apply shifts_skip; [keeps_gap_solve|]; intros
  end.

(** Creation: the fee of the creator becomes vesting shares of the new account. *)
Lemma account_create_gap o db u db' : account_create_operation_validate o = Ok tt ->
  account_create_evaluator o db = Ok (u, db') -> gap sym db' = gap sym db.
Proof.
  intros Hval H. enough (shifts 0 (account_create_evaluator o)) as Hs by (apply Hs in H; lia). clear H db db'.
  assert (0 <= amount (account_create_fee o)) as Hf by (unfold account_create_operation_validate, asset_geb, asset_ltb in Hval; inv_ok; cbn in *; lia).
  unfold account_create_evaluator, median_props, create_authority. cbv zeta. shifts_steps.
  apply (shifts_cancel (amount_in sym (account_create_fee o))); [apply take_fee_shifts|]; intros. shifts_steps. by apply vest_fee_shifts.
Qed.
Lemma account_create_with_delegation_gap o db u db' : account_create_with_delegation_operation_validate o = Ok tt ->
  account_create_with_delegation_evaluator o db = Ok (u, db') -> gap sym db' = gap sym db.
Proof.
  intros Hval H. enough (shifts 0 (account_create_with_delegation_evaluator o)) as Hs by (apply Hs in H; lia). clear H db db'.
  assert (0 <= amount (account_create_with_delegation_fee o)) as Hf
    by (unfold account_create_with_delegation_operation_validate, check_asset_ge0, check_asset_ge, asset_geb, asset_ltb in Hval; inv_ok; cbn in *; lia).
  unfold account_create_with_delegation_evaluator, median_props, create_authority. cbv zeta. shifts_steps.
  apply (shifts_cancel (amount_in sym (account_create_with_delegation_fee o))); [apply take_fee_delegated_shifts|]; intros. shifts_steps.
  apply shifts_last; [by apply vest_fee_shifts|]. intros. keeps_gap_solve.
Qed.
End AccountsGap.
