(* ===== verification/Curation.v ===== *)
(** * Curation weights

    [chain/curation_info.cpp]: the weight of each vote on a comment by the curation curve of
    the comment, the part of it that the auction window takes, and the totals by which the
    curation reward is divided.  Proved are that the curves grow with the votes, so that no
    weight wraps, how close the approximate square root is, and how the total divides. *)

From S2P Require Import Prelude Exceptions Text Fc Config Asset FlatMap Authority Operations Objects Database Conservation.

Section Curation.
Context `{F : fc_ops}.

(** [get_content_constant_s] *)
Definition get_content_constant_s : Z := 2000000000000.

(** [calculate_vshares] *)
Definition calculate_vshares_quadratic (rshares s : Z) : Z :=
  u128_sub (u128_mul (u128_add rshares s) (u128_add rshares s)) (u128_mul s s).
Definition vshares (hf17 : bool) (rshares : Z) : Z :=
  if hf17 then rshares else calculate_vshares_quadratic rshares get_content_constant_s.
Definition calculate_vshares (rshares : Z) : M Z :=
  hf17 ← has_hardfork STEEMIT_HARDFORK_0_17__433; mret (vshares hf17 rshares).

(** ** [calculate_weight_helper] *)

Record weight_helper := mk_weight_helper {
  wh_vote_rshares : Z;
  wh_old_vote_weight : Z;
  wh_total_vote_weight : Z;
  wh_auction_window_weight : Z;
  wh_votes_in_auction_window_weight : Z
}.
#[export] Instance weight_helper_rebuild : Rebuild weight_helper := fun h =>
  mk_weight_helper (wh_vote_rshares h) (wh_old_vote_weight h) (wh_total_vote_weight h)
    (wh_auction_window_weight h) (wh_votes_in_auction_window_weight h).

(** [find_msb], [approx_sqrt] *)
Definition u128_lo (u : Z) : Z := to_uint64_wrap u.
Definition find_msb (u : Z) : Z :=
  let x := if u128_lo u =? 0 then 1 else u128_lo u in
  let places := if u128_hi u =? 0 then 0 else 64 in
  let x := if u128_hi u =? 0 then x else u128_hi u in
  find_msb_uint64 x + places.
Definition approx_sqrt (x : Z) : Z :=
  if (u128_lo x =? 0) && (u128_hi x =? 0) then 0
  else
    let msb_x := find_msb x in
    let msb_z := Z.shiftr msb_x 1 in
    let msb_x_bit := u128_shiftl 1 msb_x in
    let msb_z_bit := to_uint64_wrap (Z.shiftl 1 msb_z) in
    let mantissa_mask := u128_sub msb_x_bit 1 in
    let mantissa_x := Z.land x mantissa_mask in
    let mantissa_z_hi := if Z.land msb_x 1 =? 0 then 0 else msb_z_bit in
    let mantissa_z_lo := u128_lo (u128_shiftr mantissa_x (msb_x - msb_z)) in
    let mantissa_z := Z.shiftr (Z.lor mantissa_z_hi mantissa_z_lo) 1 in
    Z.lor msb_z_bit mantissa_z.

(** [calculate_bounded], [calculate_square_root]: the weight is the growth of the curve. *)
Definition bounded_curve (vote_rshares : Z) : result Z :=
  let constant_alfa := u128_mul 2 get_content_constant_s in
  let rshares := u128_of_int64 vote_rshares in
  q ← u128_div (u128_mul rshares (2 ^ 64 - 1)) (u128_add constant_alfa rshares);
  u128_to_uint64 q.
Definition square_root_curve (vote_rshares : Z) : Z := approx_sqrt (u128_of_int64 vote_rshares).

(** [calculate_curve] *)
Definition calculate_curve (curve : curation_curve) (vote : comment_vote_object) (h : weight_helper) : result (Z * weight_helper) :=
  let grown new_weight :=
    (to_uint64_wrap (new_weight - wh_old_vote_weight h), h <| wh_old_vote_weight := new_weight |>) in
  match curve with
  | bounded => new_weight ← bounded_curve (wh_vote_rshares h); Ok (grown new_weight)
  | linear => Ok (to_uint64_wrap (cvo_rshares vote), h)
  | square_root => Ok (grown (square_root_curve (wh_vote_rshares h)))
  | _ => Throw fc_assert_exception
  end.

(** The part of the weight of a vote in the auction window that the voter keeps *)
Definition window_part (weight auction_time auction_window_size : Z) : result Z :=
  q ← u128_div (u128_mul weight auction_time) auction_window_size; u128_to_uint64 q.

Definition was_changed (vote : comment_vote_object) : bool :=
  negb (cvo_num_changes vote =? 0) && negb (cvo_num_changes vote =? -1).

(** [calculate_weight] *)
Definition calculate_weight (curve : curation_curve) (window : Z) (vote : comment_vote_object) (h : weight_helper)
    : result (Z * weight_helper) :=
  if cvo_orig_rshares vote <=? 0 then Ok (0, h)
  else
    vote_rshares ← safe_add (wh_vote_rshares h) (cvo_orig_rshares vote);
    wh ← calculate_curve curve vote (h <| wh_vote_rshares := vote_rshares |>);
    let weight := fst wh in
    let h := snd wh in
    r ← (if (weight >? 0) && negb (cvo_auction_time vote =? window) then
           new_weight ← window_part weight (cvo_auction_time vote) window;
           let auction_weight := to_uint64_wrap (weight - new_weight) in
           Ok (new_weight,
               h <| wh_total_vote_weight ::= (fun t => to_uint64_wrap (t + auction_weight)) |>
                 <| wh_auction_window_weight ::= (fun t => to_uint64_wrap (t + auction_weight)) |>
                 <| wh_votes_in_auction_window_weight ::= (fun t =>
                      if was_changed vote then t else to_uint64_wrap (t + new_weight)) |>)
         else Ok (weight, h));
    if was_changed vote then Ok (0, snd r)
    else Ok (fst r, (snd r) <| wh_total_vote_weight ::= (fun t => to_uint64_wrap (t + fst r)) |>).

(** [detect_curation_curve] *)
Definition detect_curation_curve (comment : comment_object) : M curation_curve :=
  hf19 ← has_hardfork STEEMIT_HARDFORK_0_19__677;
  props ← gets (fun db => wso_median_props (wso db));
  mret match com_curation_reward_curve comment with
       | detect => if (hf19 : bool) then curation_reward_curve props else bounded
       | c => c
       end.

(** ** [comment_curation_info] *)

Record comment_vote_info := mk_comment_vote_info { cvi_vote : comment_vote_object; cvi_weight : Z }.
Record comment_curation_info := mk_comment_curation_info {
  cci_vote_list : list comment_vote_info;
  cci_total_vote_weight : Z;
  cci_auction_window_weight : Z;
  cci_votes_in_auction_window_weight : Z;
  cci_votes_after_auction_window_weight : Z;
  cci_curve : curation_curve
}.

(** The votes on a comment in the order of index [by_comment_vote_order] *)
Definition by_comment_vote_order (comment : Z) (db : database) : list comment_vote_object :=
  sort_by (fun v w => cvo_id v <=? cvo_id w)
    (filter (fun v => cvo_comment v = comment) (map_to_list (rows (comment_votes db))).*2).

(** The loop over the votes *)
Fixpoint weigh_votes (curve : curation_curve) (window : Z) (full_list : bool) (votes : list comment_vote_object)
    (h : weight_helper) : result (list comment_vote_info * weight_helper) :=
  match votes with
  | [] => Ok ([], h)
  | v :: votes' =>
      wh ← calculate_weight curve window v h;
      rest ← weigh_votes curve window full_list votes' (snd wh);
      Ok (if (fst wh >? 0) || full_list then mk_comment_vote_info v (fst wh) :: fst rest else fst rest, snd rest)
  end.

Definition weight_helper_start : weight_helper := mk_weight_helper 0 0 0 0 0.
Definition heavier (r l : comment_vote_info) : bool :=
  if cvi_weight r =? cvi_weight l then cvo_voter (cvi_vote r) <=? cvo_voter (cvi_vote l)
  else cvi_weight r >? cvi_weight l.

(** The constructor *)
Definition curation_info (comment : comment_object) (full_list : bool) : M comment_curation_info :=
  curve ← detect_curation_curve comment;
  if negb (com_last_payout comment =? 0) && negb full_list then
    mret (mk_comment_curation_info [] 0 0 0 0 curve)
  else
    votes ← gets (by_comment_vote_order (com_id comment));
    lh ← lift (weigh_votes curve (com_auction_window_size comment) full_list votes weight_helper_start);
    let h := snd lh in
    mret (mk_comment_curation_info (sort_by heavier (fst lh)) (wh_total_vote_weight h) (wh_auction_window_weight h)
            (wh_votes_in_auction_window_weight h)
            (to_uint64_wrap (wh_total_vote_weight h - wh_votes_in_auction_window_weight h - wh_auction_window_weight h)) curve).
End Curation.

Section CurationProps.
Context `{F : fc_ops} {L : fc_laws F}.

(** ** The approximate square root *)

Lemma to_uint64_wrap_small z : 0 <= z < 2 ^ 64 -> to_uint64_wrap z = z.
Proof. intros H. unfold to_uint64_wrap. by apply Z.mod_small. Qed.
Lemma land_power k b : 0 <= k -> 0 <= b < 2 ^ k -> Z.land (2 ^ k) b = 0.
Proof.
  intros Hk Hb. apply Z.bits_inj'. intros n Hn. rewrite Z.land_spec, Z.bits_0, Z.pow2_bits_eqb by done.
  destruct (Z.eqb_spec k n) as [<- |]; [|done]. rewrite <- (Z.mod_small b (2 ^ k)) by lia. by rewrite Z.mod_pow2_bits_high by lia.
Qed.
Lemma lor_power k b : 0 <= k -> 0 <= b < 2 ^ k -> Z.lor (2 ^ k) b = 2 ^ k + b.
Proof.
  intros Hk Hb. pose proof (Z.add_lor_land (2 ^ k) b) as H. rewrite land_power in H by done. lia.
Qed.

Lemma find_msb_log2 x : 0 < x < 2 ^ 128 -> find_msb x = Z.log2 x.
Proof.
  intros Hx. unfold find_msb, u128_lo, to_uint64_wrap. rewrite u128_hi_law by lia.
  destruct (Z.eqb_spec (x / 2 ^ 64) 0) as [E | E].
  - apply Z.div_small_iff in E as [E | E]; [|lia..]. rewrite (Z.mod_small x) by lia.
    destruct (Z.eqb_spec x 0); [lia|]. rewrite find_msb_uint64_law by lia. lia.
  - assert (0 < x / 2 ^ 64 < 2 ^ 64) as Hh.
    { split; [|apply Z.div_lt_upper_bound; lia]. pose proof (Z.div_pos x (2 ^ 64) ltac:(lia) ltac:(lia)). lia. }
    rewrite find_msb_uint64_law by done. symmetry. apply Z.log2_unique; [pose proof (Z.log2_nonneg (x / 2 ^ 64)); lia|].
    pose proof (Z.log2_spec (x / 2 ^ 64) ltac:(lia)) as [H1 H2]. pose proof (Z.log2_nonneg (x / 2 ^ 64)).
    replace (Z.succ (Z.log2 (x / 2 ^ 64) + 64)) with (Z.succ (Z.log2 (x / 2 ^ 64)) + 64) by lia.
    rewrite !Z.pow_add_r by lia. pose proof (Z.div_mod x (2 ^ 64) ltac:(lia)). pose proof (Z.mod_pos_bound x (2 ^ 64) ltac:(lia)). nia.
Qed.

(** The root of a number with highest bit [m] by its other bits *)
Definition root_of (m mantissa : Z) : Z :=
  let k := m / 2 in
  2 ^ k + (if Z.even m then mantissa / 2 ^ k else 2 ^ k + mantissa / 2 ^ (k + 1)) / 2.

Lemma approx_sqrt_root x : 0 < x < 2 ^ 128 -> approx_sqrt x = root_of (Z.log2 x) (x - 2 ^ Z.log2 x).
Proof.
  intros Hx. unfold approx_sqrt. rewrite find_msb_log2 by done.
  replace ((u128_lo x =? 0) && (u128_hi x =? 0)) with false.
  2: { symmetry. apply not_true_is_false. intros [E1%Z.eqb_eq E2%Z.eqb_eq]%andb_true_iff.
       unfold u128_lo, to_uint64_wrap in E1. rewrite u128_hi_law in E2 by lia. pose proof (Z.div_mod x (2 ^ 64) ltac:(lia)). lia. }
  pose proof (Z.log2_spec x ltac:(lia)) as [H1 H2]. pose proof (Z.log2_nonneg x) as Hm0.
  assert (Z.log2 x < 128) as Hm by (apply Z.log2_lt_pow2; lia). set (m := Z.log2 x) in *.
  assert (2 ^ m < 2 ^ 128) by (apply Z.pow_lt_mono_r; lia). pose proof (Z.pow_pos_nonneg 2 m ltac:(lia) ltac:(lia)).
  rewrite Z.pow_succ_r in H2 by lia.
  rewrite u128_shiftl_law, Z.mul_1_l, (Z.mod_small (2 ^ m)) by lia.
  rewrite u128_sub_law, (Z.mod_small (2 ^ m - 1)) by lia.
  replace (2 ^ m - 1) with (Z.ones m) by (rewrite Z.ones_equiv; lia).
  rewrite Z.land_ones by done. assert (x mod 2 ^ m = x - 2 ^ m) as ->.
  { symmetry. apply (Z.mod_unique x (2 ^ m) 1); lia. }
  rewrite Z.shiftr_div_pow2, Z.pow_1_r by lia. set (k := m / 2) in *.
  assert (0 <= k < 64) as Hk by (unfold k; split; [apply Z.div_pos; lia | apply Z.div_lt_upper_bound; lia]).
  assert (2 ^ k < 2 ^ 64) by (apply Z.pow_lt_mono_r; lia). pose proof (Z.pow_pos_nonneg 2 k ltac:(lia) ltac:(lia)).
  rewrite Z.shiftl_mul_pow2, Z.mul_1_l by lia. rewrite (to_uint64_wrap_small (2 ^ k)) by lia.
  assert (m = 2 * k + m mod 2) as Em by (unfold k; apply Z.div_mod; lia). pose proof (Z.mod_pos_bound m 2 ltac:(lia)).
  rewrite u128_shiftr_law by lia.
  change 1 with (Z.ones 1) at 1. rewrite Z.land_ones, Z.pow_1_r by lia.
  unfold root_of. fold k. unfold u128_lo, to_uint64_wrap. set (y := x - 2 ^ m) in *.
  assert (0 <= y < 2 ^ m) as Hy by lia.
  rewrite (Zmod_even m) in Em |- *. destruct (Z.even m) eqn:Ev; cbn match.
  - assert (m = k + k) as E2 by lia. assert (m - k = k) as -> by lia.
    assert (0 <= y / 2 ^ k < 2 ^ k) as Hq.
    { split; [apply Z.div_pos; lia|]. apply Z.div_lt_upper_bound; [lia|]. rewrite <- Z.pow_add_r by lia. rewrite <- E2. lia. }
    rewrite (Z.mod_small (y / 2 ^ k)) by lia. rewrite Z.lor_0_l, Z.shiftr_div_pow2, Z.pow_1_r by lia.
    rewrite lor_power; [done | lia|]. split; [apply Z.div_pos; lia|]. apply Z.div_lt_upper_bound; lia.
  - assert (m = k + (k + 1)) as E2 by lia. replace (m - k) with (k + 1) by lia.
    pose proof (Z.pow_pos_nonneg 2 (k + 1) ltac:(lia) ltac:(lia)).
    assert (0 <= y / 2 ^ (k + 1) < 2 ^ k) as Hq.
    { split; [apply Z.div_pos; lia|]. apply Z.div_lt_upper_bound; [lia|]. rewrite <- Z.pow_add_r by lia.
      replace (k + 1 + k) with m by lia. lia. }
    change (1 =? 0) with false. cbv match. rewrite (Z.mod_small (y / 2 ^ (k + 1))) by lia. rewrite (lor_power k (y / 2 ^ (k + 1))) by lia. rewrite Z.shiftr_div_pow2, Z.pow_1_r by lia.
    rewrite lor_power; [done | lia|]. split; [apply Z.div_pos; lia|]. apply Z.div_lt_upper_bound; lia.
Qed.

Lemma root_of_near m y : 0 <= m -> 0 <= y < 2 ^ m ->
  let z := root_of m y in
  2 ^ (m / 2) <= z < 2 ^ (m / 2 + 1) /\ 2 ^ m + y < (z + 1) * (z + 1) /\ 8 * (z * z) <= 9 * (2 ^ m + y).
Proof.
  intros Hm Hy. unfold root_of. set (k := m / 2). assert (0 <= k) as Hk by (apply Z.div_pos; lia).
  pose proof (Z.pow_pos_nonneg 2 k ltac:(lia) Hk) as Ha. rewrite !Z.pow_add_r, Z.pow_1_r by lia. set (a := 2 ^ k) in *.
  assert (m = 2 * k + m mod 2) as Em by (unfold k; apply Z.div_mod; lia). rewrite Zmod_even in Em.
  pose proof (Z.div_mod y (a * 2) ltac:(lia)) as Eq. pose proof (Z.mod_pos_bound y (a * 2) ltac:(lia)) as Hr.
  set (q := y / (a * 2)) in *. destruct (Z.even m); cbn match.
  - assert (2 ^ m = a * a) as E2 by (unfold a; rewrite <- Z.pow_add_r by lia; f_equal; lia). rewrite E2 in *.
    rewrite Z.div_div by lia. fold q. assert (0 <= q) by (apply Z.div_pos; lia). assert (2 * q < a) by nia. nia.
  - assert (2 ^ m = a * (a * 2)) as E2.
    { unfold a. rewrite Em at 1. rewrite Z.pow_add_r, Z.pow_1_r by lia. replace (2 * k) with (k + k) by lia.
      rewrite Z.pow_add_r by lia. ring. }
    rewrite E2 in *. assert (0 <= q) by (apply Z.div_pos; lia). assert (q < a) by nia.
    pose proof (Z.div_mod (a + q) 2 ltac:(lia)) as Eh. pose proof (Z.mod_pos_bound (a + q) 2 ltac:(lia)).
    set (p := (a + q) / 2) in *. nia.
Qed.

Lemma root_of_mono m y y' : 0 <= m -> 0 <= y <= y' -> root_of m y <= root_of m y'.
Proof.
  intros Hm Hy. unfold root_of. set (k := m / 2). assert (0 <= k) as Hk by (apply Z.div_pos; lia).
  pose proof (Z.pow_pos_nonneg 2 k ltac:(lia) Hk). pose proof (Z.pow_pos_nonneg 2 (k + 1) ltac:(lia) ltac:(lia)).
  apply Z.add_le_mono_l, Z.div_le_mono; [lia|]. destruct (Z.even m); cbn match.
  - apply Z.div_le_mono; lia.
  - apply Z.add_le_mono_l, Z.div_le_mono; lia.
Qed.
Lemma root_of_jump m m' y y' : 0 <= m < m' -> 0 <= y < 2 ^ m -> 0 <= y' < 2 ^ m' -> root_of m y <= root_of m' y'.
Proof.
  intros Hm Hy Hy'. pose proof (root_of_near m y ltac:(lia) Hy) as [[_ H] _].
  pose proof (root_of_near m' y' ltac:(lia) Hy') as [[H' _] _]. assert (m / 2 <= m' / 2) as Hk by (apply Z.div_le_mono; lia).
  destruct (decide (m / 2 = m' / 2)) as [E | E].
  2: { assert (2 ^ (m / 2 + 1) <= 2 ^ (m' / 2)) by (apply Z.pow_le_mono_r; lia). lia. }
  clear H H' Hk. pose proof (Z.div_mod m 2 ltac:(lia)) as E1. pose proof (Z.div_mod m' 2 ltac:(lia)) as E2.
  rewrite Zmod_even in E1, E2. unfold root_of. rewrite E in *. set (k := m' / 2) in *.
  destruct (Z.even m) eqn:Ev, (Z.even m') eqn:Ev'; [lia| |lia..]. cbn match.
  assert (0 <= k) as Hk by (apply Z.div_pos; lia). pose proof (Z.pow_pos_nonneg 2 k ltac:(lia) Hk).
  pose proof (Z.pow_pos_nonneg 2 (k + 1) ltac:(lia) ltac:(lia)).
  apply Z.add_le_mono_l, Z.div_le_mono; [lia|]. assert (0 <= y' / 2 ^ (k + 1)) by (apply Z.div_pos; lia).
  assert (y / 2 ^ k < 2 ^ k); [|lia]. apply Z.div_lt_upper_bound; [lia|]. rewrite <- Z.pow_add_r by lia. replace (k + k) with m; lia.
Qed.

Definition root_fits (x : Z) : Prop := 0 <= x < 2 ^ 128.
Lemma approx_sqrt_near x : root_fits x ->
  0 <= approx_sqrt x < 2 ^ 64 /\ x < (approx_sqrt x + 1) * (approx_sqrt x + 1) /\ 8 * (approx_sqrt x * approx_sqrt x) <= 9 * x.
Proof.
  unfold root_fits. intros Hx. destruct (decide (x = 0)) as [-> | Hx0].
  { assert (approx_sqrt 0 = 0) as -> by (unfold approx_sqrt; by rewrite u128_hi_law by lia). lia. }
  rewrite approx_sqrt_root by lia. pose proof (Z.log2_spec x ltac:(lia)) as [H1 H2]. pose proof (Z.log2_nonneg x) as Hm.
  rewrite Z.pow_succ_r in H2 by done. assert (Z.log2 x < 128) by (apply Z.log2_lt_pow2; lia).
  pose proof (root_of_near (Z.log2 x) (x - 2 ^ Z.log2 x) Hm ltac:(lia)) as [[Hz1 Hz2] Hz]. cbn zeta in *.
  replace (2 ^ Z.log2 x + (x - 2 ^ Z.log2 x)) with x in Hz by lia. split; [|done].
  assert (2 ^ (Z.log2 x / 2 + 1) <= 2 ^ 64).
  { apply Z.pow_le_mono_r; [lia|]. assert (Z.log2 x / 2 < 64) by (apply Z.div_lt_upper_bound; lia). lia. }
  pose proof (Z.pow_pos_nonneg 2 (Z.log2 x / 2) ltac:(lia) ltac:(apply Z.div_pos; lia)). lia.
Qed.
Lemma approx_sqrt_mono x x' : 0 <= x <= x' -> root_fits x' -> approx_sqrt x <= approx_sqrt x'.
Proof.
  unfold root_fits. intros Hx Hx'. destruct (decide (x = 0)) as [-> | Hx0].
  { pose proof (approx_sqrt_near 0 ltac:(unfold root_fits; lia)). pose proof (approx_sqrt_near x' Hx'). nia. }
  rewrite !approx_sqrt_root by lia. pose proof (Z.log2_spec x ltac:(lia)) as [H1 H2]. pose proof (Z.log2_spec x' ltac:(lia)) as [H1' H2'].
  pose proof (Z.log2_nonneg x). pose proof (Z.log2_nonneg x'). rewrite Z.pow_succ_r in H2, H2' by done.
  destruct (decide (Z.log2 x = Z.log2 x')) as [E | E].
  - rewrite E in *. apply root_of_mono; lia.
  - pose proof (Z.log2_le_mono x x' ltac:(lia)). apply root_of_jump; lia.
Qed.
End CurationProps.

Section CurationWeights.
Context `{F : fc_ops} {L : fc_laws F}.

(** ** The curves *)

(** The weight of the first [rshares] shares on a comment *)
Definition curve_value (curve : curation_curve) (rshares : Z) : Z :=
  match curve with
  | bounded => rshares * (2 ^ 64 - 1) / (2 * get_content_constant_s + rshares)
  | _ => approx_sqrt rshares
  end.
Definition grows (curve : curation_curve) : bool := match curve with bounded | square_root => true | _ => false end.

Lemma bounded_curve_value r : 0 <= r < 2 ^ 63 -> bounded_curve r = Ok (curve_value bounded r).
Proof.
  intros Hr. unfold bounded_curve, curve_value, get_content_constant_s. rewrite !u128_of_int64_law, !u128_mul_law, u128_add_law.
  rewrite (Z.mod_small r) by lia. rewrite (Z.mod_small (r * _)) by lia. rewrite (Z.mod_small (2 * _)) by lia.
  rewrite (Z.mod_small (_ + r)) by lia. rewrite u128_div_law by lia. cbn [mbind result_bind].
  assert (0 <= r * (2 ^ 64 - 1) / (2 * 2000000000000 + r) < 2 ^ 64) as H.
  { split; [apply Z.div_pos; lia|]. apply Z.div_lt_upper_bound; lia. }
  rewrite u128_to_uint64_law by lia. destruct (Z.ltb_spec (r * (2 ^ 64 - 1) / (2 * 2000000000000 + r)) (2 ^ 64)); [done | lia].
Qed.
Lemma curve_value_range curve r : 0 <= r < 2 ^ 63 -> 0 <= curve_value curve r < 2 ^ 64.
Proof.
  intros Hr. destruct curve; cbn [curve_value]; try apply approx_sqrt_near; try (unfold root_fits; lia).
  unfold get_content_constant_s. split; [apply Z.div_pos; lia|]. apply Z.div_lt_upper_bound; lia.
Qed.
Lemma curve_value_mono curve r r' : 0 <= r <= r' -> r' < 2 ^ 63 -> curve_value curve r <= curve_value curve r'.
Proof.
  intros Hr Hr'. destruct curve; cbn [curve_value]; try (apply approx_sqrt_mono; [lia | unfold root_fits; lia]).
  unfold get_content_constant_s. apply Z.div_le_lower_bound; [lia|].
  pose proof (Z.mul_div_le (r * (2 ^ 64 - 1)) (2 * 2000000000000 + r) ltac:(lia)) as H.
  assert (r * (2 ^ 64 - 1) / (2 * 2000000000000 + r) < 2 ^ 64) by (apply Z.div_lt_upper_bound; lia).
  set (q := r * (2 ^ 64 - 1) / (2 * 2000000000000 + r)) in *. nia.
Qed.

(** ** The weights of votes *)

(** Votes in the auction window were cast before its end. *)
Definition vote_timed (window : Z) (v : comment_vote_object) : Prop := 0 <= cvo_auction_time v <= window.
Definition curated (v : comment_vote_object) : Prop := 0 < cvo_orig_rshares v.
#[export] Instance curated_dec v : Decision (curated v) := _.

(** With the linear curve the shares of the votes must be positive and few. *)
Definition linear_sum (l : list comment_vote_object) : Z :=
  foldr (fun v s => (if decide (curated v) then cvo_rshares v else 0) + s) 0 l.
Definition curve_fair (curve : curation_curve) (l : list comment_vote_object) : Prop :=
  curve = linear -> Forall (fun v => curated v -> 0 <= cvo_rshares v) l /\ linear_sum l < 2 ^ 64.

(** What the totals count, and that none of them has wrapped *)
Definition room (curve : curation_curve) (rest : list comment_vote_object) (h : weight_helper) : Prop :=
  match curve with
  | linear => Forall (fun v => curated v -> 0 <= cvo_rshares v) rest /\ wh_total_vote_weight h + linear_sum rest < 2 ^ 64
  | _ => 0 <= wh_vote_rshares h < 2 ^ 63 /\ wh_old_vote_weight h = curve_value curve (wh_vote_rshares h) /\
         wh_total_vote_weight h <= wh_old_vote_weight h
  end.
Definition counted_well (h : weight_helper) : Prop :=
  0 <= wh_auction_window_weight h /\ 0 <= wh_votes_in_auction_window_weight h /\
  wh_auction_window_weight h + wh_votes_in_auction_window_weight h <= wh_total_vote_weight h < 2 ^ 64.
(** A vote of weight [w] was counted *)
Definition counts_vote (window : Z) (v : comment_vote_object) (w : Z) (h h' : weight_helper) : Prop :=
  0 <= w /\ wh_total_vote_weight h' - wh_auction_window_weight h' = wh_total_vote_weight h - wh_auction_window_weight h + w /\
  wh_votes_in_auction_window_weight h' = wh_votes_in_auction_window_weight h +
    (if cvo_auction_time v =? window then 0 else w).

Lemma linear_sum_cons v l : linear_sum (v :: l) = (if decide (curated v) then cvo_rshares v else 0) + linear_sum l.
Proof. done. Qed.
Lemma linear_sum_nonneg l : Forall (fun v => curated v -> 0 <= cvo_rshares v) l -> 0 <= linear_sum l.
Proof. induction 1 as [|v l Hv _ IH]; [done|]. rewrite linear_sum_cons. destruct (decide (curated v)) as [c |]; [specialize (Hv c)|]; lia. Qed.

(** One turn of [calculate_curve]: the raw weight [g] fits. *)
Lemma calculate_curve_room curve v rest h g h' : curated v -> counted_well h -> room curve (v :: rest) h ->
  is_int64 (wh_vote_rshares h + cvo_orig_rshares v) = true ->
  calculate_curve curve v (h <| wh_vote_rshares := wh_vote_rshares h + cvo_orig_rshares v |>) = Ok (g, h') ->
  0 <= g /\ counted_well h' /\ wh_total_vote_weight h' = wh_total_vote_weight h /\
  wh_auction_window_weight h' = wh_auction_window_weight h /\
  wh_votes_in_auction_window_weight h' = wh_votes_in_auction_window_weight h /\
  (forall h2, wh_total_vote_weight h2 <= wh_total_vote_weight h + g -> wh_vote_rshares h2 = wh_vote_rshares h' ->
     wh_old_vote_weight h2 = wh_old_vote_weight h' -> room curve rest h2) /\
  wh_total_vote_weight h + g < 2 ^ 64.
Proof.
  intros Hv Hw Hr Hi Hc. unfold curated in Hv. apply is_int64_spec in Hi.
  assert (forall c, grows c = true -> curve = c -> 0 <= wh_vote_rshares h /\ wh_old_vote_weight h = curve_value c (wh_vote_rshares h) /\
            wh_total_vote_weight h <= wh_old_vote_weight h) as Hg.
  { intros c Hgc ->. destruct c; try done; unfold room in Hr; naive_solver. }
  assert (forall c, grows c = true -> curve = c ->
    let new := curve_value c (wh_vote_rshares h + cvo_orig_rshares v) in
    to_uint64_wrap (new - wh_old_vote_weight h) = new - wh_old_vote_weight h /\ wh_old_vote_weight h <= new < 2 ^ 64) as Hn.
  { intros c Hgc E. destruct (Hg c Hgc E) as (H1 & H2 & H3). cbn zeta.
    pose proof (curve_value_range c (wh_vote_rshares h + cvo_orig_rshares v) ltac:(lia)).
    pose proof (curve_value_range c (wh_vote_rshares h) ltac:(lia)).
    pose proof (curve_value_mono c (wh_vote_rshares h) (wh_vote_rshares h + cvo_orig_rshares v) ltac:(lia) ltac:(lia)).
    split; [|lia]. apply to_uint64_wrap_small. lia. }
  destruct curve; cbn in Hc; try done.
  - destruct (Hg bounded eq_refl eq_refl) as (H1 & H2 & H3). destruct (Hn bounded eq_refl eq_refl) as (H4 & H5).
    rewrite bounded_curve_value in Hc by lia. cbn in Hc. injection Hc as <- <-. cbn. unfold counted_well in *. cbn in *.
    rewrite H4. split_and!; try lia; try done.
    all: intros; cbn in *; repeat split; try congruence; try lia.
  - destruct Hr as [Hf Hs]. inversion Hf as [| ? ? Hv0 Hf']; subst. specialize (Hv0 Hv). injection Hc as <- <-.
    rewrite linear_sum_cons, decide_True in Hs by done. pose proof (linear_sum_nonneg _ Hf').
    destruct Hw as (? & ? & ?). rewrite to_uint64_wrap_small by lia.
    repeat split; cbn; try lia; try done.
  - destruct (Hg square_root eq_refl eq_refl) as (H1 & H2 & H3). destruct (Hn square_root eq_refl eq_refl) as (H4 & H5).
    unfold square_root_curve in Hc. rewrite u128_of_int64_law, Z.mod_small in Hc by lia. injection Hc as <- <-.
    unfold counted_well in *. cbn in *. rewrite H4. split_and!; try lia; try done.
    all: intros; cbn in *; repeat split; try congruence; try lia.
Qed.

Lemma window_part_le g t window : 0 <= g < 2 ^ 64 -> 0 <= t < window -> window < 2 ^ 16 ->
  exists n, window_part g t window = Ok n /\ 0 <= n <= g.
Proof.
  intros Hg Ht Hw. unfold window_part. rewrite u128_mul_law, Z.mod_small by nia. rewrite u128_div_law by nia.
  cbn [mbind result_bind]. exists (g * t / window). assert (0 <= g * t / window <= g) as H.
  { split; [apply Z.div_pos; nia|]. apply Z.div_le_upper_bound; nia. }
  rewrite u128_to_uint64_law by lia. destruct (Z.ltb_spec (g * t / window) (2 ^ 64)); [done | lia].
Qed.

Lemma calculate_weight_counts curve window v rest h w h' : counted_well h -> room curve (v :: rest) h ->
  vote_timed window v -> window < 2 ^ 16 ->
  calculate_weight curve window v h = Ok (w, h') ->
  counted_well h' /\ room curve rest h' /\ counts_vote window v w h h'.
Proof.
  intros Hw Hr Ht Hwin. unfold calculate_weight, vote_timed in *. destruct (Z.leb_spec (cvo_orig_rshares v) 0) as [Ho | Ho].
  { intros [= <- <-]. split_and!; [done | |].
    - destruct curve; try done. destruct Hr as [Hf Hs]. inversion Hf; subst.
      rewrite linear_sum_cons, decide_False in Hs by (unfold curated; lia). split; [done | lia].
    - unfold counts_vote. destruct (cvo_auction_time v =? window); lia. }
  intros H. inv_ok. destruct (is_int64 (wh_vote_rshares h + cvo_orig_rshares v)) eqn:Hi.
  2: { rewrite safe_add_law, Hi in *. done. }
  rewrite safe_add_law, Hi in *. inv_ok.
  destruct a0 as [g h1]. cbn [fst snd] in *.
  destruct (calculate_curve_room curve v rest h g h1 Ho Hw Hr Hi Hrun0) as (Hg & Hw1 & E1 & E2 & E3 & Hroom & Hsum).
  unfold counted_well in Hw1. rewrite E1, E2, E3 in Hw1. destruct Hw1 as (Ha & Hv & Hle & _).
  assert (exists n au, 0 <= n /\ 0 <= au /\ n + au = g /\ (cvo_auction_time v = window -> au = 0) /\
    a1 = (n, h1 <| wh_total_vote_weight ::= (fun t => t + au) |> <| wh_auction_window_weight ::= (fun t => t + au) |>
              <| wh_votes_in_auction_window_weight ::=
                   (fun t => t + (if was_changed v || (cvo_auction_time v =? window) then 0 else n)) |>)) as (n & au & Hn & Hau & Hna & Hend & ->).
  { destruct ((g >? 0) && negb (cvo_auction_time v =? window)) eqn:Ew.
    - apply andb_true_iff in Ew as [Eg Ew]. apply negb_true_iff in Ew. pose proof Ew as Et%Z.eqb_neq.
      destruct (window_part_le g (cvo_auction_time v) window ltac:(lia) ltac:(lia) Hwin) as (n & En & Hn).
      rewrite En in Hrun1. injection Hrun1 as <-. exists n, (g - n). rewrite Ew, orb_false_r. split_and!; try lia.
      f_equal. destruct h1; cbn in *; subst. rewrite !to_uint64_wrap_small by (rewrite ?to_uint64_wrap_small by lia; lia).
      unfold set_field; cbn. f_equal; destruct (was_changed v); cbn; rewrite ?to_uint64_wrap_small; lia.
    - injection Hrun1 as <-. exists g, 0. split_and!; try lia. f_equal. destruct h1; cbn in *; subst. unfold set_field; cbn.
      apply andb_false_iff in Ew as [Ew | Ew]; [|apply negb_false_iff in Ew; rewrite Ew, orb_true_r; f_equal; lia].
      rewrite Z.gtb_ltb in Ew. apply Z.ltb_ge in Ew. assert (g = 0) as -> by lia. f_equal; [lia | lia |]. destruct (was_changed v || (cvo_auction_time v =? window)); lia. }
  clear Hrun1. unfold counted_well, counts_vote. destruct h1; cbn in *; subst.
  destruct (was_changed v) eqn:Ech; cbn in H; injection H as <- <-; cbn.
  - split_and!; try lia; [apply Hroom; cbn; try done; lia | destruct (cvo_auction_time v =? window); lia].
  - rewrite to_uint64_wrap_small by lia.
    split_and!; try lia; try (destruct (cvo_auction_time v =? window); lia).
    apply Hroom; cbn; try done; rewrite to_uint64_wrap_small; lia.
Qed.

(** ** The totals *)

Definition weights (p : comment_vote_info -> bool) (l : list comment_vote_info) : Z :=
  foldr (fun v s => (if p v then cvi_weight v else 0) + s) 0 l.
Definition in_window (window : Z) (v : comment_vote_info) : bool := negb (cvo_auction_time (cvi_vote v) =? window).
Definition at_end (window : Z) (v : comment_vote_info) : bool := cvo_auction_time (cvi_vote v) =? window.
Definition any_vote (v : comment_vote_info) : bool := true.

(** The weights of the votes and of the auction window make up the total. *)
Record fair (window : Z) (c : comment_curation_info) : Prop := {
  fair_total : cci_total_vote_weight c < 2 ^ 64;
  fair_window : 0 <= cci_auction_window_weight c;
  fair_weights : Forall (fun v => 0 <= cvi_weight v) (cci_vote_list c);
  fair_sum : weights any_vote (cci_vote_list c) + cci_auction_window_weight c = cci_total_vote_weight c;
  fair_after : weights (at_end window) (cci_vote_list c) = cci_votes_after_auction_window_weight c
}.

Lemma weights_cons p v l : weights p (v :: l) = (if p v then cvi_weight v else 0) + weights p l.
Proof. done. Qed.
Lemma weights_perm p l l' : l ≡ₚ l' -> weights p l = weights p l'.
Proof. apply (sum_perm (fun v => if p v then cvi_weight v else 0)). Qed.
Lemma weights_split window l : weights any_vote l = weights (in_window window) l + weights (at_end window) l.
Proof.
  induction l as [|v l IH]; [done|]. rewrite !weights_cons, IH. unfold in_window, at_end. cbn.
  destruct (cvo_auction_time (cvi_vote v) =? window); cbn; lia.
Qed.
Lemma vote_weights_nonneg p l : Forall (fun v => 0 <= cvi_weight v) l -> 0 <= weights p l.
Proof. induction 1; [done|]. rewrite weights_cons. destruct (p x); lia. Qed.

Lemma weigh_votes_counts curve window full votes h l h' : counted_well h -> room curve votes h ->
  Forall (vote_timed window) votes -> window < 2 ^ 16 ->
  weigh_votes curve window full votes h = Ok (l, h') ->
  counted_well h' /\ Forall (fun v => 0 <= cvi_weight v) l /\
  wh_total_vote_weight h' - wh_auction_window_weight h' = wh_total_vote_weight h - wh_auction_window_weight h + weights any_vote l /\
  wh_votes_in_auction_window_weight h' = wh_votes_in_auction_window_weight h + weights (in_window window) l.
Proof.
  intros Hw Hr Ht Hwin. revert h l Hw Hr. induction Ht as [|v votes Hv _ IH]; intros h l Hw Hr; cbn [weigh_votes].
  { intros [= <- <-]. cbn. split_and!; try done; lia. }
  intros H. inv_ok. destruct a as [w h1], a0 as [l1 h2]. cbn [fst snd] in *.
  destruct (calculate_weight_counts _ _ _ _ _ _ _ Hw Hr Hv Hwin Hrun) as (Hw1 & Hr1 & Hpos & Hc1 & Hc2).
  destruct (IH h1 l1 Hw1 Hr1 Hrun0) as (Hw2 & Hl & Hs1 & Hs2). cbn [fst snd] in *.
  destruct ((w >? 0) || full) eqn:Ew.
  - rewrite !weights_cons. unfold in_window at 1, any_vote at 1. cbn [cvi_vote cvi_weight].
    split_and!; [done | by constructor | lia|]. destruct (cvo_auction_time v =? window); cbn; lia.
  - apply orb_false_iff in Ew as [Ew _]. assert (w = 0) by lia. subst w.
    split_and!; [done | done | lia|]. destruct (cvo_auction_time v =? window); lia.
Qed.

(** Votes that the curve weighs without wrapping *)
Definition votes_fair (curve : curation_curve) (window : Z) (votes : list comment_vote_object) : Prop :=
  Forall (vote_timed window) votes /\ curve_fair curve votes.

Lemma room_start curve votes : curve_fair curve votes -> room curve votes weight_helper_start.
Proof.
  intros Hf. assert (approx_sqrt 0 = 0) as E by (unfold approx_sqrt; by rewrite u128_hi_law by lia).
  destruct curve; try exact (Hf eq_refl); cbn [room curve_value weight_helper_start wh_vote_rshares wh_old_vote_weight wh_total_vote_weight];
    rewrite ?E; split_and!; done || lia.
Qed.

Lemma weigh_votes_from curve window full votes h l h' : weigh_votes curve window full votes h = Ok (l, h') ->
  Forall (fun v => cvi_vote v ∈ votes) l.
Proof.
  revert h l. induction votes as [|v votes IH]; intros h l; cbn [weigh_votes]; [by intros [= <- _]|]. intros H. inv_ok.
  destruct a as [w h1], a0 as [l1 h2]. apply IH in Hrun0. cbn [fst snd].
  assert (Forall (fun v0 => cvi_vote v0 ∈ v :: votes) l1) as Hl by (eapply Forall_impl; [exact Hrun0 | intros; by right]).
  destruct (_ || _); [|done]. constructor; [left | done].
Qed.

(** The constructor reads the database only; its votes are votes on the comment, and when
    these are fair, its totals are. *)
Lemma curation_info_run comment full info db db' : 0 <= com_auction_window_size comment < 2 ^ 16 ->
  curation_info comment full db = Ok (info, db') ->
  db' = db /\ detect_curation_curve comment db = Ok (cci_curve info, db) /\
  Forall (fun v => cvi_vote v ∈ by_comment_vote_order (com_id comment) db) (cci_vote_list info) /\
  (votes_fair (cci_curve info) (com_auction_window_size comment) (by_comment_vote_order (com_id comment) db) ->
   fair (com_auction_window_size comment) info).
Proof.
  intros Hwin H. unfold curation_info in H. apply bind_run in H as (curve & db1 & Hc & H).
  assert (db1 = db) as -> by (unfold detect_curation_curve in Hc; by inv_run).
  inv_run; (split; [done|]); cbn [cci_curve cci_vote_list]; (split; [done|]).
  - split; [constructor|]. intros _. split; cbn; done || lia.
  - destruct x0 as [l h]. cbn [fst snd] in *. split.
    { rewrite sort_by_perm. by eapply weigh_votes_from. }
    intros [Ht Hf].
    destruct (weigh_votes_counts curve (com_auction_window_size comment) full (by_comment_vote_order (com_id comment) db) weight_helper_start l h) as ((Ha & Hi & Hle & Hlt) & Hl & Hs1 & Hs2);
      [unfold counted_well; cbn; lia | by apply room_start | done | lia | done |].
    pose proof (weights_split (com_auction_window_size comment) l) as Hsp. pose proof (vote_weights_nonneg (at_end (com_auction_window_size comment)) l Hl).
    cbn [wh_total_vote_weight wh_auction_window_weight wh_votes_in_auction_window_weight weight_helper_start] in *.
    split; cbn [cci_vote_list cci_total_vote_weight cci_auction_window_weight cci_votes_after_auction_window_weight]; try lia.
    + by rewrite sort_by_perm.
    + rewrite (weights_perm _ _ _ (sort_by_perm heavier l)). lia.
    + rewrite (weights_perm _ _ _ (sort_by_perm heavier l)), to_uint64_wrap_small; lia.
Qed.
End CurationWeights.
