(* ===== verification/Comments.v ===== *)
(** * Comments and votes on them

    The [comment], [delete_comment], [comment_options] and [vote] evaluators of
    [chain/steem_evaluator.cpp], with [calculate_discussion_payout_time] and
    [adjust_rshares2] of [chain/database.cpp].  A comment is known by its author and
    permlink; the loops that walk from a comment up to the root of its discussion are
    bounded by the depth of the comment. *)

From S2P Require Import Prelude Exceptions Text Fc Config Asset FlatMap Authority Operations Objects Database Conservation Preserve Delegation Accounts Curation.

Section Comments.
Context `{F : fc_ops}.

(** ** Lookup *)

Definition comment_key (author permlink : string) : string * string := (author, c_str permlink).
Definition key_of (c : comment_object) : string * string := comment_key (com_author c) (com_permlink c).
Definition parent_key (c : comment_object) : string * string := comment_key (com_parent_author c) (com_parent_permlink c).
Definition is_root_post (c : comment_object) : bool := String.eqb (com_parent_author c) STEEMIT_ROOT_POST_PARENT.

(** [get_comment(author, permlink)], [get_comment(id)], [get<comment_object>(id)]: the key of
    the comment *)
Definition get_comment (k : string * string) : M comment_object := get_row comments "comment" k.
Definition comment_with_id (id : Z) (db : database) : option ((string * string) * comment_object) :=
  table_find_by (fun _ c => com_id c =? id) (comments db).
Definition get_comment_by_id (id : Z) : M comment_object := fun db =>
  match comment_with_id id db with Some (_, c) => Ok (c, db) | None => Throw (missing_object "comment") end.
Definition comment_of_id (id : Z) : M (string * string) := fun db =>
  match comment_with_id id db with Some (k, _) => Ok (k, db) | None => Throw chainbase_out_of_range end.

(** [calculate_discussion_payout_time] *)
Definition calculate_discussion_payout_time (comment : comment_object) : M Z :=
  hf17 ← has_hardfork STEEMIT_HARDFORK_0_17__431;
  if (hf17 : bool) || is_root_post comment then mret (com_cashout_time comment)
  else root ← get_comment_by_id (com_root_comment comment); mret (com_cashout_time root).

(** ** Walking up to the root *)

(** [adjust_rshares2]; [remaining] bounds the steps to the root. *)
Definition replace_rshares2 (old_rshares2 new_rshares2 : Z) (comment : comment_object) : comment_object :=
  comment <| com_children_rshares2 ::= (fun r => u128_add (u128_sub r old_rshares2) new_rshares2) |>.
Fixpoint adjust_rshares2_at (remaining : nat) (k : string * string) (old_rshares2 new_rshares2 : Z) : M unit :=
  modify comments k (fun comment => Ok (replace_rshares2 old_rshares2 new_rshares2 comment)) ;;
  c ← get_comment k;
  if negb (com_depth c =? 0) then
    match remaining with
    | O => throw fc_assert_exception
    | S r => get_comment (parent_key c) ;; adjust_rshares2_at r (parent_key c) old_rshares2 new_rshares2
    end
  else
    modify_dgp (fun p => Ok (p <| dgp_total_reward_shares2 ::= (fun t => u128_add (u128_sub t old_rshares2) new_rshares2) |>)).
Definition adjust_rshares2 (k : string * string) (old_rshares2 new_rshares2 : Z) : M unit :=
  c ← get_comment k;
  adjust_rshares2_at (Z.to_nat (com_depth c)) k old_rshares2 new_rshares2.

(** [while (parent)]: the loops over a comment's ancestors *)
Fixpoint for_ancestors (remaining : nat) (f : comment_object -> comment_object) (k : string * string) : M unit :=
  modify comments k (fun p => Ok (f p)) ;;
  p ← get_comment k;
  if is_root_post p then mret tt
  else
    match remaining with
    | O => throw fc_assert_exception
    | S r => get_comment (parent_key p) ;; for_ancestors r f (parent_key p)
    end.
Definition add_children (n : Z) (p : comment_object) : comment_object :=
  p <| com_children ::= (fun c => to_uint32_wrap (c + n)) |>.
Definition count_at_ancestors (n : Z) (parent : string * string) : M unit :=
  p ← get_comment parent; for_ancestors (Z.to_nat (com_depth p)) (add_children n) parent.

(** ** Capacities and bandwidth

    Posts, comments and votes are limited by a capacity that regenerates with time: a 16-bit
    sum, cut at the window. *)
Definition regenerated (capacity window elapsed : Z) : Z :=
  Z.min (to_uint16_wrap (capacity + Z.min window (to_uint32_wrap elapsed))) window.

(** [comment_bandwidth::hf19], [hf12], [hf6], [hf0] *)
Definition comment_bandwidth_hf19 (root_post : bool) (author : string) : M unit :=
  now ← head_block_time;
  props ← median_props;
  auth ← get_account author;
  let elapsed := time_diff_seconds now (account_last_post auth) in
  if root_post then
    let consumption := posts_window props / posts_per_window props in
    let current := regenerated (account_posts_capacity auth) (posts_window props) elapsed in
    lift (check_bandwidth (current + 1) consumption post_bandwidth) ;;
    modify accounts author (fun a => Ok (a <| account_posts_capacity := to_uint16_wrap (current - consumption) |>))
  else
    let consumption := comments_window props / comments_per_window props in
    let current := regenerated (account_comments_capacity auth) (comments_window props) elapsed in
    lift (check_bandwidth (current + 1) consumption comment_bandwidth) ;;
    modify accounts author (fun a => Ok (a <| account_comments_capacity := to_uint16_wrap (current - consumption) |>)).
Definition comment_bandwidth_hf12 (root_post : bool) (last_post last_update now : Z) : result unit :=
  if root_post then check_bandwidth now (time_add last_update STEEMIT_MIN_ROOT_COMMENT_INTERVAL) post_bandwidth
  else check_bandwidth now (time_add last_post STEEMIT_MIN_REPLY_INTERVAL) comment_bandwidth.
Definition comment_bandwidth_hf6 (root_post : bool) (last_post now : Z) : result unit :=
  if root_post then check_bandwidth now (time_add last_post STEEMIT_MIN_ROOT_COMMENT_INTERVAL) post_bandwidth
  else check_bandwidth now (time_add last_post STEEMIT_MIN_REPLY_INTERVAL) comment_bandwidth.
Definition comment_bandwidth_hf0 (last_post now : Z) : result unit :=
  check_bandwidth now (time_add last_post 60) post_bandwidth.

(** [comment_bandwidth::calculate]: posts close together weigh less. *)
Definition post_bandwidth_after (average last_update now : Z) : result Z :=
  let post_delta_time := Z.min (to_uint32_wrap (now - last_update)) STEEMIT_POST_AVERAGE_WINDOW in
  p ← safe_mul average (STEEMIT_POST_AVERAGE_WINDOW - post_delta_time);
  old_weight ← safe_div p STEEMIT_POST_AVERAGE_WINDOW;
  safe_add old_weight STEEMIT_100_PERCENT.
Definition post_reward_weight (pb : Z) : Z :=
  to_uint16_wrap (Z.min (STEEMIT_POST_WEIGHT_CONSTANT * STEEMIT_100_PERCENT / to_uint64_wrap (pb * pb)) STEEMIT_100_PERCENT).
Definition calculate_reward_weight (root_post : bool) (author : string) : M Z :=
  if root_post then
    now ← head_block_time;
    hf12 ← has_hardfork STEEMIT_HARDFORK_0_12__176;
    band ← get_row account_bandwidths "account_bandwidth" (author, post);
    pb ← lift (if (hf12 : bool) then post_bandwidth_after (account_bandwidth_average_bandwidth band) (account_bandwidth_last_bandwidth_update band) now
               else Ok (account_bandwidth_average_bandwidth band));
    modify account_bandwidths (author, post) (fun b => Ok (b
      <| account_bandwidth_last_bandwidth_update := now |> <| account_bandwidth_average_bandwidth := pb |>)) ;;
    mret (if (hf12 : bool) then post_reward_weight pb else STEEMIT_100_PERCENT)
  else mret STEEMIT_100_PERCENT.

(** [comment_bandwidth::calc_reward_weight] *)
Definition calc_reward_weight (root_post : bool) (author : string) : M Z :=
  found ← find_row account_bandwidths (author, post);
  match found with
  | Some _ => mret tt
  | None => create account_bandwidths (author, post) (fun id => mk_account_bandwidth_object id author post 0 0 0)
  end ;;
  now ← head_block_time;
  auth ← get_account author;
  band ← get_row account_bandwidths "account_bandwidth" (author, post);
  hf19 ← has_hardfork STEEMIT_HARDFORK_0_19__533_1002;
  hf12 ← has_hardfork STEEMIT_HARDFORK_0_12__176;
  hf6 ← has_hardfork STEEMIT_HARDFORK_0_6__113;
  let last_post := account_last_post auth in
  (if (hf19 : bool) then comment_bandwidth_hf19 root_post author
   else if (hf12 : bool) then lift (comment_bandwidth_hf12 root_post last_post (account_bandwidth_last_bandwidth_update band) now)
   else if (hf6 : bool) then lift (comment_bandwidth_hf6 root_post last_post now)
   else lift (comment_bandwidth_hf0 last_post now)) ;;
  calculate_reward_weight root_post author.

(** ** Posting *)

(** [validate_permlink_0_1] *)
Definition permlink_char (c : ascii) : bool :=
  let n := N_of_ascii c in ((97 <=? n) && (n <=? 122) || (48 <=? n) && (n <=? 57) || (n =? 45))%N.
Definition validate_permlink_0_1 (permlink : string) : result unit :=
  check_value ((size_of permlink >? STEEMIT_MIN_PERMLINK_LENGTH) && (size_of permlink <? STEEMIT_MAX_PERMLINK_LENGTH)) ;;
  check_value (all_chars permlink_char permlink).

(** [strcmp_equal]: equal sizes are enough. *)
Definition strcmp_equal (a b : string) : bool := (size_of a =? size_of b) || String.eqb (c_str a) (c_str b).

Definition check_not_challenged (auth : account_object) : M unit :=
  check_logic_m (negb (account_owner_challenged auth || account_active_challenged auth)) account_is_currently_challenged.

(** The member initialisers of [comment_object] *)
Definition new_comment_object (id : Z) : comment_object := {|
  com_id := id; com_parent_author := ""; com_parent_permlink := ""; com_author := ""; com_permlink := "";
  com_created := 0; com_last_payout := 0; com_depth := 0; com_children := 0; com_children_rshares2 := 0;
  com_net_rshares := 0; com_abs_rshares := 0; com_vote_rshares := 0; com_children_abs_rshares := 0;
  com_cashout_time := 0; com_max_cashout_time := 0; com_reward_weight := 0; com_net_votes := 0; com_total_votes := 0;
  com_root_comment := 0; com_mode := first_payout; com_curation_reward_curve := detect;
  com_auction_window_reward_destination := to_author; com_auction_window_size := STEEMIT_REVERSE_AUCTION_WINDOW_SECONDS;
  com_max_accepted_payout := mk_asset 1000000000 SBD_SYMBOL; com_percent_steem_dollars := STEEMIT_100_PERCENT;
  com_allow_replies := true; com_allow_votes := true; com_allow_curation_rewards := true;
  com_curation_rewards_percent := STEEMIT_MIN_CURATION_PERCENT; com_beneficiaries := [] |}.

(** The settings a new comment takes from the witnesses *)
Definition comment_settings (hf19 : bool) (props : chain_properties_19) (com : comment_object) : comment_object :=
  if hf19 then
    com <| com_auction_window_reward_destination := if allow_distribute_auction_reward props then to_curators else to_reward_fund |>
        <| com_auction_window_size := auction_window_size props |>
        <| com_curation_rewards_percent := min_curation_percent props |>
  else com <| com_curation_rewards_percent := STEEMIT_MIN_CURATION_PERCENT |>.

(** Its place in the discussion and its time of payout *)
Definition comment_place (hf12 hf17 : bool) (now : Z) (o : comment_operation) (parent : option comment_object)
    (com : comment_object) : comment_object :=
  let com :=
    match parent with
    | None =>
        com <| com_parent_author := "" |> <| com_parent_permlink := comment_parent_permlink o |>
            <| com_root_comment := com_id com |>
            <| com_cashout_time := if hf12 then time_add now STEEMIT_CASHOUT_WINDOW_SECONDS_PRE_HF17 else time_point_sec_maximum |>
    | Some p =>
        com <| com_parent_author := com_author p |> <| com_parent_permlink := com_permlink p |>
            <| com_depth := to_uint16_wrap (com_depth p + 1) |> <| com_root_comment := com_root_comment p |>
            <| com_cashout_time := time_point_sec_maximum |>
    end in
  if hf17 then com <| com_cashout_time := time_add (com_created com) STEEMIT_CASHOUT_WINDOW_SECONDS |> else com.

(** The first beneficiary is the referrer of the author. *)
Definition referrer_share (now : Z) (auth : account_object) : list beneficiary_route_type :=
  if negb (String.eqb (account_referrer_account auth) "") && (now <? account_referral_end_date auth)
  then [mk_beneficiary_route_type (account_referrer_account auth) (account_referrer_interest_rate auth)] else [].
Definition referrer_to_delete (now : Z) (auth : account_object) : bool :=
  negb (String.eqb (account_referrer_account auth) "") && negb (now <? account_referral_end_date auth).

(** The parent of a new comment, and how deep it may be *)
Definition max_comment_depth : M Z :=
  hf17 ← has_hardfork STEEMIT_HARDFORK_0_17__430;
  producing ← gets is_producing;
  mret (if negb (hf17 : bool) then STEEMIT_MAX_COMMENT_DEPTH_PRE_HF17
        else if (producing : bool) then STEEMIT_SOFT_MAX_COMMENT_DEPTH else STEEMIT_MAX_COMMENT_DEPTH).
Definition parent_of_new (o : comment_operation) : M (option comment_object) :=
  if String.eqb (comment_parent_author o) STEEMIT_ROOT_POST_PARENT then mret None
  else
    parent ← get_comment (comment_key (comment_parent_author o) (comment_parent_permlink o));
    max_depth ← max_comment_depth;
    check_logic_m (com_depth parent <? max_depth) reached_comment_max_depth ;;
    mret (Some parent).

(** A new comment *)
Definition create_comment (o : comment_operation) (parent : option comment_object) : M unit :=
  let author := comment_author o in
  let root_post := bool_decide (parent = None) in
  match parent with
  | Some p =>
      root ← comment_of_id (com_root_comment p);
      root ← get_comment root;
      check_logic_m (com_allow_replies root) replies_are_not_allowed
  | None => mret tt
  end ;;
  props ← median_props;
  now ← head_block_time;
  reward_weight ← calc_reward_weight root_post author;
  modify accounts author (fun a =>
    let a := a <| account_last_post := now |> in
    Ok (if root_post then a <| account_post_count ::= (fun n => to_uint32_wrap (n + 1)) |>
        else a <| account_comment_count ::= (fun n => to_uint32_wrap (n + 1)) |>)) ;;
  hf1 ← has_hardfork STEEMIT_HARDFORK_0_1;
  when hf1
    (lift (check_param "parent_permlink" (validate_permlink_0_1 (comment_parent_permlink o))) ;;
     lift (check_param "permlink" (validate_permlink_0_1 (comment_permlink o)))) ;;
  hf19 ← has_hardfork STEEMIT_HARDFORK_0_19__898;
  hf12 ← has_hardfork STEEMIT_HARDFORK_0_12__177;
  hf17 ← has_hardfork STEEMIT_HARDFORK_0_17__431;
  auth ← get_account author;
  create comments (comment_key author (comment_permlink o)) (fun id =>
    let com := comment_settings hf19 props (new_comment_object id) in
    let com := com <| com_author := author |> <| com_permlink := comment_permlink o |> <| com_created := now |>
                   <| com_last_payout := 0 |> <| com_max_cashout_time := time_point_sec_maximum |>
                   <| com_reward_weight := reward_weight |> in
    comment_place hf12 hf17 now o parent com <| com_beneficiaries := referrer_share now auth |>) ;;
  when (referrer_to_delete now auth)
    (modify accounts author (fun a => Ok (a <| account_referrer_account := "" |> <| account_referrer_interest_rate := 0 |>
       <| account_referral_end_date := 0 |>
       <| account_referral_break_fee ::= (fun f => mk_asset 0 (symbol f)) |>))) ;;
  match parent with
  | Some p => count_at_ancestors 1 (key_of p)
  | None => mret tt
  end.

(** [comment_evaluator::do_apply]; texts are not stored by the chain, so an edit is only
    checked. *)
Definition comment_evaluator (o : comment_operation) : M unit :=
  producing ← gets is_producing;
  hf5 ← has_hardfork STEEMIT_HARDFORK_0_5__55;
  when ((producing : bool) || hf5)
    (check_logic_m (negb (size_of (comment_title o) + size_of (comment_body o) + size_of (comment_json_metadata o) =? 0))
       cannot_update_comment_because_nothing_changed) ;;
  found ← find_row comments (comment_key (comment_author o) (comment_permlink o));
  auth ← get_account (comment_author o);
  hf10 ← has_hardfork STEEMIT_HARDFORK_0_10;
  when hf10 (check_not_challenged auth) ;;
  parent ← parent_of_new o;
  match found with
  | None => create_comment o parent
  | Some com =>
      check_logic_m (String.eqb (com_parent_author com) (match parent with Some _ => comment_parent_author o | None => "" end))
        parent_of_comment_cannot_change ;;
      check_logic_m (strcmp_equal (com_parent_permlink com) (comment_parent_permlink o)) parent_perlink_of_comment_cannot_change
  end.

(** ** Deletion *)

(** The votes on a comment in the order of index [by_comment_voter] *)
Definition votes_on (comment : Z) (db : database) : list comment_vote_object :=
  sort_by (fun v w => cvo_voter v <=? cvo_voter w)
    (filter (fun v => cvo_comment v = comment) (map_to_list (rows (comment_votes db))).*2).
Definition vote_key (v : comment_vote_object) : Z * Z := (cvo_comment v, cvo_voter v).

(** [delete_comment_evaluator::do_apply] *)
Definition delete_comment_evaluator (o : delete_comment_operation) : M unit :=
  hf10 ← has_hardfork STEEMIT_HARDFORK_0_10;
  when hf10 (auth ← get_account (delete_comment_author o); check_not_challenged auth) ;;
  let k := comment_key (delete_comment_author o) (delete_comment_permlink o) in
  comment ← get_comment k;
  check_logic_m (com_children comment =? 0) cannot_delete_comment_with_replies ;;
  producing ← gets is_producing;
  when producing (check_logic_m (com_net_rshares comment <=? 0) cannot_delete_comment_with_positive_votes) ;;
  if com_net_rshares comment >? 0 then mret tt
  else
    votes ← gets (votes_on (com_id comment));
    for_each (fun v => remove comment_votes (vote_key v)) votes ;;
    hf6 ← has_hardfork STEEMIT_HARDFORK_0_6__80;
    when ((hf6 : bool) && negb (is_root_post comment)) (count_at_ancestors (-1) (parent_key comment)) ;;
    remove comments k.

(** ** Options *)

(** [comment_options_extension_visitor] on beneficiaries: the referrer may be among them
    already. *)
Definition add_weights (l : list beneficiary_route_type) (start : Z) : Z :=
  fold_left (fun total b => to_uint16_wrap (total + beneficiary_weight b)) l start.
Definition only_referrer (com : comment_object) (referrer : string) : bool :=
  match com_beneficiaries com with
  | [b] => String.eqb (beneficiary_account b) referrer
  | _ => false
  end.
Definition set_beneficiaries (k : string * string) (beneficiaries : list beneficiary_route_type) : M unit :=
  com ← get_comment k;
  author ← get_account (com_author com);
  producing ← gets is_producing;
  when producing
    (check_logic_m (Z.of_nat (length beneficiaries) <=? STEEMIT_MAX_COMMENT_BENEFICIARIES) cannot_specify_more_beneficiaries) ;;
  let referrer := account_referrer_account author in
  (if only_referrer com referrer then
     check_logic_m (negb (existsb (fun b => String.eqb (beneficiary_account b) referrer) beneficiaries)) beneficiaries_should_be_unique
   else check_logic_m (match com_beneficiaries com with [] => true | _ => false end) comment_already_has_beneficiaries) ;;
  check_logic_m (com_abs_rshares com =? 0) comment_must_not_have_been_voted ;;
  for_each (fun b => check_account_exists (beneficiary_account b)) beneficiaries ;;
  modify comments k (fun c => Ok (c <| com_beneficiaries ::= (fun l => l ++ beneficiaries) |>)) ;;
  let total_weight := add_weights beneficiaries (if only_referrer com referrer then add_weights (com_beneficiaries com) 0 else 0) in
  lift (check_param "beneficiaries" (check_value (total_weight <=? STEEMIT_100_PERCENT))).

(** ... on the destination of the auction window reward *)
Definition set_auction_destination (k : string * string) (destination : auction_window_reward_destination_type) : M unit :=
  assert_req_hf STEEMIT_HARDFORK_0_19__898 ;;
  props ← median_props;
  hf20 ← has_hardfork STEEMIT_HARDFORK_0_20__1075;
  com ← get_comment k;
  when hf20 (check_logic_m (com_abs_rshares com =? 0) comment_must_not_have_been_voted) ;;
  lift (check_param "cawrd.destination"
    (check_value (negb (bool_decide (destination = to_reward_fund)) || allow_return_auction_reward_to_fund props))) ;;
  lift (check_param "cawrd.destination"
    (check_value (negb (bool_decide (destination = to_curators)) || allow_distribute_auction_reward props))) ;;
  modify comments k (fun c => Ok (c <| com_auction_window_reward_destination := destination |>)).

(** ... on the share of the curators *)
Definition set_curation_percent (k : string * string) (percent : Z) : M unit :=
  assert_req_hf STEEMIT_HARDFORK_0_19__324 ;;
  props ← median_props;
  hf20 ← has_hardfork STEEMIT_HARDFORK_0_20__1075;
  com ← get_comment k;
  when hf20 (check_logic_m (com_abs_rshares com =? 0) comment_must_not_have_been_voted) ;;
  lift (check_param "percent"
    (check_value ((min_curation_percent props <=? percent) && (percent <=? max_curation_percent props)))) ;;
  modify comments k (fun c => Ok (c <| com_curation_rewards_percent := percent |>)).

Definition apply_options_extension (k : string * string) (e : comment_options_extension) : M unit :=
  com ← get_comment k;
  check_account_exists (com_author com) ;;
  match e with
  | ext_comment_payout_beneficiaries cpb => set_beneficiaries k (comment_payout_beneficiaries_beneficiaries cpb)
  | ext_comment_auction_window_reward_destination cawrd =>
      set_auction_destination k (comment_auction_window_reward_destination_destination cawrd)
  | ext_comment_curation_rewards_percent ccrp => set_curation_percent k (comment_curation_rewards_percent_percent ccrp)
  end.

(** [comment_options_evaluator::do_apply] *)
Definition comment_options_evaluator (o : comment_options_operation) : M unit :=
  hf10 ← has_hardfork STEEMIT_HARDFORK_0_10;
  when hf10 (auth ← get_account (comment_options_author o); check_not_challenged auth) ;;
  let k := comment_key (comment_options_author o) (comment_options_permlink o) in
  comment ← get_comment k;
  let curation := comment_options_allow_curation_rewards o in
  let votes := comment_options_allow_votes o in
  lowered ← (if negb curation || negb votes then mret true
             else lift (asset_ltb (comment_options_max_accepted_payout o) (com_max_accepted_payout comment)));
  when lowered (check_logic_m (com_abs_rshares comment =? 0) comment_options_requires_no_rshares) ;;
  check_logic_m (implb curation (com_allow_curation_rewards comment)) curation_rewards_cannot_be_reenabled ;;
  check_logic_m (implb votes (com_allow_votes comment)) voting_cannot_be_reenabled ;;
  enough ← lift (asset_geb (com_max_accepted_payout comment) (comment_options_max_accepted_payout o));
  check_logic_m enough comment_cannot_accept_greater_payout ;;
  check_logic_m (com_percent_steem_dollars comment >=? comment_options_percent_steem_dollars o)
    comment_cannot_accept_greater_percent_GBG ;;
  modify comments k (fun c => Ok (c <| com_max_accepted_payout := comment_options_max_accepted_payout o |>
    <| com_percent_steem_dollars := comment_options_percent_steem_dollars o |>
    <| com_allow_votes := votes |> <| com_allow_curation_rewards := curation |>)) ;;
  for_each (apply_options_extension k) (comment_options_extensions o).

(** ** Voting *)

(** The limit on the number of votes *)
Definition use_voting_capacity (voter : string) : M unit :=
  a ← get_account voter;
  now ← head_block_time;
  props ← median_props;
  hf19 ← has_hardfork STEEMIT_HARDFORK_0_19__533_1002;
  if (hf19 : bool) then
    let consumption := votes_window props / votes_per_window props in
    let current := regenerated (account_voting_capacity a) (votes_window props) (time_diff_seconds now (account_last_vote_time a)) in
    lift (check_bandwidth (current + 1) consumption vote_bandwidth) ;;
    modify accounts voter (fun a => Ok (a <| account_voting_capacity := to_uint16_wrap (current - consumption) |>))
  else
    lift (check_bandwidth now (time_add (account_last_vote_time a) (STEEMIT_MIN_VOTE_INTERVAL_SEC - 1)) vote_bandwidth).

(** The power of the voter: what has regenerated, and what a vote of this weight uses *)
Definition current_power (voting_power elapsed : Z) : Z :=
  Z.min (voting_power + Z.quot (STEEMIT_100_PERCENT * elapsed) STEEMIT_VOTE_REGENERATION_SECONDS) STEEMIT_100_PERCENT.
Definition max_vote_denom (vote_regeneration_per_day : Z) : Z :=
  to_uint32_wrap (vote_regeneration_per_day * STEEMIT_VOTE_REGENERATION_SECONDS) / (60 * 60 * 24).
Definition used_power (hf14 : bool) (power weight denom : Z) : Z :=
  let used := Z.quot (power * Z.abs weight) STEEMIT_100_PERCENT in
  if hf14 then Z.quot (used + denom - 1) denom else Z.quot used denom + 1.

(** The power before and after the vote, and the shares it stands for *)
Record vote_strength := mk_vote_strength { power_now : Z; power_used : Z; vote_abs_rshares : Z }.
Definition weigh_vote (voter : string) (weight : Z) : M vote_strength :=
  a ← get_account voter;
  now ← head_block_time;
  hf14 ← has_hardfork STEEMIT_HARDFORK_0_14__259;
  hf13 ← has_hardfork STEEMIT_HARDFORK_0_13__248;
  let current := current_power (account_voting_power a) (time_diff_seconds now (account_last_vote_time a)) in
  check_logic_m (current >? 0) does_not_have_voting_power ;;
  denom ← gets (fun db => max_vote_denom (dgp_vote_regeneration_per_day (dgp db)));
  (if denom >? 0 then mret tt else throw internal_error) ;;
  let used := used_power hf14 current weight denom in
  check_logic_m (used <=? current) does_not_have_voting_power ;;
  shares ← lift (effective_vesting_shares a);
  q ← lift (u128_div (u128_mul (u128_of_int64 (amount shares)) (u128_of_int64 used)) STEEMIT_100_PERCENT);
  n ← lift (u128_to_uint64 q);
  let rshares := to_int64_wrap n in
  let rshares := if negb (hf14 : bool) && (rshares =? 0) then 1 else rshares in
  (if (hf14 : bool) then check_logic_m ((rshares >? 30000000) || (weight =? 0)) voting_weight_is_too_small
   else when hf13 (check_logic_m ((rshares >? 30000000) || (rshares =? 1)) voting_weight_is_too_small)) ;;
  mret (mk_vote_strength current used rshares).

(** Upvotes end a minute before the payout. *)
Definition check_lockout (comment : comment_object) (upvote : bool) : M unit :=
  when upvote
    (now ← head_block_time;
     payout ← calculate_discussion_payout_time comment;
     check_logic_m (now <? time_add payout (- STEEMIT_UPVOTE_LOCKOUT)) cannot_vote_within_last_minute_before_payout).

Definition spend_power (voter : string) (s : vote_strength) : M unit :=
  now ← head_block_time;
  modify accounts voter (fun a => Ok (a <| account_voting_power := to_uint16_wrap (power_now s - power_used s) |>
    <| account_last_vote_time := now |>)).

(** Before hardfork 0.17 the time of payout was an average weighted by the votes. *)
Definition average_cashout_sec (comment : comment_object) (old_root_abs_rshares abs_rshares : Z) (change : bool) : M Z :=
  hf17 ← has_hardfork STEEMIT_HARDFORK_0_17__431;
  hf12 ← has_hardfork STEEMIT_HARDFORK_0_12__177;
  hf13 ← has_hardfork STEEMIT_HARDFORK_0_13__257;
  hf14 ← has_hardfork STEEMIT_HARDFORK_0_14__259;
  if (hf17 : bool) then mret 0
  else
    cur ← calculate_discussion_payout_time comment;
    now ← head_block_time;
    let window := if (hf12 : bool) && negb hf13 then STEEMIT_CASHOUT_WINDOW_SECONDS_PRE_HF17 else STEEMIT_CASHOUT_WINDOW_SECONDS_PRE_HF12 in
    let new := u128_add now window in
    if change && (hf14 : bool) && (abs_rshares =? 0) then mret cur
    else lift (u128_div (u128_add (u128_mul cur (u128_of_int64 old_root_abs_rshares)) (u128_mul new (u128_of_int64 abs_rshares)))
                 (u128_of_int64 (to_int64_wrap (old_root_abs_rshares + abs_rshares)))).

(** The root of the discussion counts the votes below it. *)
Definition touch_root (root : string * string) (abs_rshares avg_cashout_sec : Z) : M unit :=
  now ← head_block_time;
  hf17 ← has_hardfork STEEMIT_HARDFORK_0_17__431;
  hf12 ← has_hardfork STEEMIT_HARDFORK_0_12__177;
  modify comments root (fun c =>
    abs ← safe_add (com_children_abs_rshares c) abs_rshares;
    let c := c <| com_children_abs_rshares := abs |> in
    if (hf17 : bool) then Ok c
    else
      t ← (if (hf12 : bool) && (com_last_payout c >? 0) then Ok (time_add (com_last_payout c) STEEMIT_SECOND_CASHOUT_WINDOW)
           else n ← u128_to_uint64 avg_cashout_sec; Ok (Z.min (to_uint32_wrap n) (com_max_cashout_time c)));
      let c := c <| com_cashout_time := t |> in
      Ok (if com_max_cashout_time c =? time_point_sec_maximum
          then c <| com_max_cashout_time := time_add now STEEMIT_MAX_CASHOUT_WINDOW_SECONDS |> else c)).

(** The shares of the delegators in the reward of a vote *)
Definition delegations_to (delegatee : string) (db : database) : list vesting_delegation_object :=
  sort_by (fun d e => match String.compare (delegation_delegator d) (delegation_delegator e) with Gt => false | _ => true end)
    (filter (fun d => delegation_delegatee d = delegatee) (map_to_list (rows (delegations db))).*2).
Definition delegator_rate (old_formula : bool) (d : vesting_delegation_object) (effective : Z) : result Z :=
  let shares := amount (delegation_vesting_shares d) in
  if old_formula then Ok (to_uint16_wrap (Z.quot (to_int64_wrap (shares * delegation_interest_rate d)) effective))
  else
    q ← u128_div (u128_mul (u128_of_int64 shares) (delegation_interest_rate d)) (u128_of_int64 effective);
    n ← u128_to_uint64 q; Ok (to_uint16_wrap n).
Fixpoint delegator_rates (old_formula : bool) (effective : Z) (l : list vesting_delegation_object) : result (list delegator_vote_interest_rate) :=
  match l with
  | [] => Ok []
  | d :: l' =>
      rate ← delegator_rate old_formula d effective;
      rest ← delegator_rates old_formula effective l';
      Ok (if rate >? 0 then mk_delegator_vote_interest_rate (delegation_delegator d) rate (delegation_payout_strategy d) :: rest else rest)
  end.
Definition vote_interest_rates (voter : string) : M (list delegator_vote_interest_rate) :=
  a ← get_account voter;
  hf19 ← has_hardfork STEEMIT_HARDFORK_0_19__756;
  hf20 ← has_hardfork STEEMIT_HARDFORK_0_20__1074;
  num ← head_block_num;
  received ← lift (asset_gtb (account_received_vesting_shares a) (mk_asset 0 VESTS_SYMBOL));
  if (hf19 : bool) && received then
    effective ← lift (effective_vesting_shares a);
    l ← gets (delegations_to (account_name a));
    lift (delegator_rates ((num <? GOLOS_BUG1074_BLOCK) && negb (hf20 : bool)) (amount effective) l)
  else mret [].

(** When a vote counts for curation, and when in the auction window it was cast *)
Definition vote_auction_time (comment : comment_object) (self_vote : bool) (now : Z) : M Z :=
  hf19 ← has_hardfork STEEMIT_HARDFORK_0_19__898;
  let delta_t := Z.min (to_uint64_wrap (time_diff_seconds now (com_created comment))) (com_auction_window_size comment) in
  mret (if now >? STEEMIT_HARDFORK_0_6_REVERSE_AUCTION_TIME then
          if (hf19 : bool) && self_vote then com_auction_window_size comment else to_uint16_wrap delta_t
        else 0).
Definition create_vote (k : string * string) (voter : account_object) (weight rshares : Z)
    (rates : list delegator_vote_interest_rate) : M unit :=
  comment ← get_comment k;
  now ← head_block_time;
  auction_time ← vote_auction_time comment (String.eqb (account_name voter) (com_author comment)) now;
  let curated := (rshares >? 0) && (com_last_payout comment =? 0) && com_allow_curation_rewards comment in
  create comment_votes (com_id comment, account_id voter) (fun id =>
    mk_comment_vote_object id (account_id voter) (com_id comment) (if curated then rshares else 0) rshares weight
      (if curated then auction_time else 0) now 0 (if curated then rates else [])).

Definition positive_part (rshares : Z) : Z := Z.max rshares 0.

(** The first vote of an account on a comment *)
Definition count_vote (rshares abs_rshares : Z) (hf6 : bool) (c : comment_object) : result comment_object :=
  net ← safe_add (com_net_rshares c) rshares;
  abs ← safe_add (com_abs_rshares c) abs_rshares;
  votes ← (if rshares >? 0 then safe_add (com_vote_rshares c) rshares else Ok (com_vote_rshares c));
  neg ← (if hf6 then Ok 0 else safe_neg abs);
  let net_votes := to_int32_wrap (com_net_votes c + (if rshares >? 0 then 1 else -1)) in
  (if negb hf6 && (net =? neg) && negb (net_votes <? 0) then Throw internal_error else Ok tt) ;;
  Ok (c <| com_net_rshares := net |> <| com_abs_rshares := abs |> <| com_total_votes ::= (fun n => to_uint32_wrap (n + 1)) |>
        <| com_vote_rshares := votes |> <| com_net_votes := net_votes |>).
Definition first_vote (k : string * string) (voter : string) (weight : Z) (s : vote_strength) : M unit :=
  rates ← vote_interest_rates voter;
  lift (check_param "weight" (check_value (negb (weight =? 0)))) ;;
  let abs_rshares := vote_abs_rshares s in
  let rshares := if weight <? 0 then to_int64_wrap (- abs_rshares) else abs_rshares in
  comment ← get_comment k;
  check_lockout comment (rshares >? 0) ;;
  spend_power voter s ;;
  let old_rshares := positive_part (com_net_rshares comment) in
  rk ← comment_of_id (com_root_comment comment);
  root ← get_comment rk;
  avg ← average_cashout_sec comment (com_children_abs_rshares root) abs_rshares false;
  check_logic_m (abs_rshares >? 0) cannot_vote_with_zero_rshares ;;
  hf6 ← has_hardfork STEEMIT_HARDFORK_0_6__114;
  modify comments k (count_vote rshares abs_rshares hf6) ;;
  touch_root rk abs_rshares avg ;;
  comment ← get_comment k;
  new_rshares2 ← calculate_vshares (positive_part (com_net_rshares comment));
  old_rshares2 ← calculate_vshares old_rshares;
  a ← get_account voter;
  create_vote k a weight rshares rates ;;
  adjust_rshares2 k old_rshares2 new_rshares2.

(** A changed vote *)
Definition net_votes_change (old new : Z) : Z := Z.sgn new - Z.sgn old.
Definition recount_vote (rshares abs_rshares old : Z) (c : comment_object) : result comment_object :=
  n ← safe_sub (com_net_rshares c) old;
  net ← safe_add n rshares;
  abs ← safe_add (com_abs_rshares c) abs_rshares;
  Ok (c <| com_net_rshares := net |> <| com_abs_rshares := abs |>
        <| com_net_votes ::= (fun v => to_int32_wrap (v + net_votes_change old rshares)) |>).
Definition change_vote (k : string * string) (voter : string) (weight : Z) (s : vote_strength) (itr : comment_vote_object) : M unit :=
  check_logic_m (cvo_num_changes itr <? STEEMIT_MAX_VOTE_CHANGES) voter_has_used_maximum_vote_changes ;;
  check_logic_m (negb (cvo_vote_percent itr =? weight)) already_voted_in_similar_way ;;
  let abs_rshares := vote_abs_rshares s in
  let rshares := if weight <? 0 then to_int64_wrap (- abs_rshares) else abs_rshares in
  comment ← get_comment k;
  check_lockout comment (cvo_rshares itr <? rshares) ;;
  spend_power voter s ;;
  let old_rshares := positive_part (com_net_rshares comment) in
  rk ← comment_of_id (com_root_comment comment);
  root ← get_comment rk;
  avg ← average_cashout_sec comment (com_children_abs_rshares root) abs_rshares true;
  modify comments k (recount_vote rshares abs_rshares (cvo_rshares itr)) ;;
  touch_root rk abs_rshares avg ;;
  comment ← get_comment k;
  new_rshares2 ← calculate_vshares (positive_part (com_net_rshares comment));
  old_rshares2 ← calculate_vshares old_rshares;
  now ← head_block_time;
  modify comment_votes (vote_key itr) (fun cv => Ok (cv <| cvo_rshares := rshares |> <| cvo_vote_percent := weight |>
    <| cvo_last_update := now |> <| cvo_num_changes ::= (fun n => to_int8_wrap (n + 1)) |>
    <| cvo_delegator_vote_interest_rates := [] |>)) ;;
  adjust_rshares2 k old_rshares2 new_rshares2.

(** A vote after the payout is only recorded. *)
Definition late_vote (k : string * string) (voter : account_object) (weight : Z) : M unit :=
  comment ← get_comment k;
  now ← head_block_time;
  let vk := (com_id comment, account_id voter) in
  found ← find_row comment_votes vk;
  match found with
  | None =>
      modify comments k (fun c => Ok (c <| com_total_votes ::= (fun n => to_uint32_wrap (n + 1)) |>)) ;;
      create comment_votes vk (fun id =>
        mk_comment_vote_object id (account_id voter) (com_id comment) 0 0 weight 0 now (-2) [])
  | Some _ => modify comment_votes vk (fun cvo => Ok (cvo <| cvo_vote_percent := weight |> <| cvo_last_update := now |>))
  end.

(** [vote_evaluator::do_apply] *)
Definition vote_evaluator (o : vote_operation) : M unit :=
  let k := comment_key (vote_author o) (vote_permlink o) in
  comment ← get_comment k;
  voter ← get_account (vote_voter o);
  check_not_challenged voter ;;
  check_logic_m (account_can_vote voter) voter_declined_voting_rights ;;
  when (vote_weight o >? 0) (check_logic_m (com_allow_votes comment) votes_are_not_allowed) ;;
  payout ← calculate_discussion_payout_time comment;
  if payout =? time_point_sec_maximum then late_vote k voter (vote_weight o)
  else
    found ← find_row comment_votes (com_id comment, account_id voter);
    use_voting_capacity (vote_voter o) ;;
    s ← weigh_vote (vote_voter o) (vote_weight o);
    match found with
    | None => first_vote k (vote_voter o) (vote_weight o) s
    | Some itr => change_vote k (vote_voter o) (vote_weight o) s itr
    end.
End Comments.

(** ** Reading comments changes nothing *)

Section Reading.
Context (R : relation database) `{!PreOrder R}.
Lemma preserves_get_comment k : preserves R (get_comment k).
Proof. apply preserves_get_row, _. Qed.
Lemma preserves_comment_by_id id : preserves R (get_comment_by_id id).
Proof. intros db c db'. unfold get_comment_by_id. by destruct (comment_with_id id db) as [[k c']|]; [intros [= <- <-]|]. Qed.
Lemma preserves_comment_of_id id : preserves R (comment_of_id id).
Proof. intros db c db'. unfold comment_of_id. by destruct (comment_with_id id db) as [[k c']|]; [intros [= <- <-]|]. Qed.
End Reading.
#[export] Hint Extern 1 (preserves _ (get_comment _)) => apply preserves_get_comment; apply _ : preserves.
#[export] Hint Extern 1 (preserves _ (get_comment_by_id _)) => apply preserves_comment_by_id; apply _ : preserves.
#[export] Hint Extern 1 (preserves _ (comment_of_id _)) => apply preserves_comment_of_id; apply _ : preserves.
