(* ===== verification/Cashout.v ===== *)
(** * Payout of comments

    [claim_rshare_reward], [pay_delegators], [pay_curator], [pay_curators],
    [cashout_comment_helper] and [process_comment_cashout] of [chain/database.cpp]: what a
    comment earns is taken from the reward fund and divided among curators and their
    delegators, beneficiaries and the author. *)

From S2P Require Import Prelude Exceptions Text Fc Config Asset FlatMap Authority Operations Objects Database Conservation Curation Comments.

Section Cashout.
Context `{F : fc_ops}.

(** STEEMIT_MIN_PAYOUT_SBD *)
Definition STEEMIT_MIN_PAYOUT_SBD : asset := mk_asset 20 SBD_SYMBOL.

Definition in_golos (n : Z) : asset := mk_asset n STEEM_SYMBOL.

(** ** [claim_rshare_reward] *)

(** The share of the reward fund that the curve gives *)
Definition rshare_payout (fund total_shares2 rs2 reward_weight : Z) : result Z :=
  let rf := u256_of_int64 fund in
  weighted ← u256_div (u256_mul rs2 reward_weight) STEEMIT_100_PERCENT;
  payout ← u256_div (u256_mul rf weighted) total_shares2;
  fc_assert (payout <=? int64_max) ;;
  Ok payout.
Definition claim_rshare_reward (rshares reward_weight : Z) (max_steem : asset) : M Z :=
  lift (fc_assert (rshares >? 0)) ;;
  props ← gets dgp;
  rs2 ← calculate_vshares (u128_of_int64 rshares);
  payout ← lift (rshare_payout (amount (dgp_total_reward_fund_steem props)) (dgp_total_reward_shares2 props) rs2 reward_weight);
  sbd_payout_value ← to_sbd (in_golos (safe_of_uint64 payout));
  small ← lift (asset_ltb sbd_payout_value STEEMIT_MIN_PAYOUT_SBD);
  let payout := if (small : bool) then 0 else payout in
  let payout := Z.min payout (to_uint64_wrap (amount max_steem)) in
  modify_dgp (fun p =>
    f ← safe_sub (amount (dgp_total_reward_fund_steem p)) (safe_of_uint64 payout);
    Ok (p <| dgp_total_reward_fund_steem ::= (fun a => mk_asset f (symbol a)) |>)) ;;
  mret (safe_of_uint64 payout).

(** ** Curators *)

(** [pay_delegators]: what is taken from the claim, in 64 bits without sign *)
Definition delegator_claim (claim interest_rate : Z) : Z := to_uint64_wrap (claim * interest_rate) / STEEMIT_100_PERCENT.
Definition pay_delegator (delegatee : string) (dvir : delegator_vote_interest_rate) (claim : Z) : M unit :=
  let delegator := dvir_account dvir in
  get_account delegator ;;
  delegator_vesting ← create_vesting delegator (in_golos (safe_of_uint64 claim));
  let k := (delegator, delegatee) in
  vdo ← find_row delegations k;
  when (bool_decide (dvir_payout_strategy dvir = to_delegated_vesting) && bool_decide (is_Some vdo))
    (modify accounts delegator (fun a =>
       v ← asset_add (account_delegated_vesting_shares a) delegator_vesting; Ok (a <| account_delegated_vesting_shares := v |>)) ;;
     modify accounts delegatee (fun a =>
       v ← asset_add (account_received_vesting_shares a) delegator_vesting; Ok (a <| account_received_vesting_shares := v |>)) ;;
     modify delegations k (fun o =>
       v ← asset_add (delegation_vesting_shares o) delegator_vesting; Ok (o <| delegation_vesting_shares := v |>))) ;;
  push_virtual_operation (op_delegation_reward (mk_delegation_reward delegator delegatee (dvir_payout_strategy dvir)
    delegator_vesting (in_golos (safe_of_uint64 claim)))) false ;;
  modify accounts delegator (fun a =>
    r ← safe_add (account_delegation_rewards a) (safe_of_uint64 claim); Ok (a <| account_delegation_rewards := r |>)).
Definition pay_delegators (delegatee : string) (cvo : comment_vote_object) (claim : Z) : M Z :=
  fold_each (fun dvir delegators_reward =>
      let c := delegator_claim claim (dvir_interest_rate dvir) in
      if (dvir_interest_rate dvir >? STEEMIT_100_PERCENT) || (c =? 0) then mret delegators_reward
      else
        pay_delegator delegatee dvir c ;;
        mret (to_uint64_wrap (delegators_reward + c)))
    (cvo_delegator_vote_interest_rates cvo) 0.

(** [pay_curator] *)
Definition pay_curator (cvo : comment_vote_object) (claim : Z) (author permlink : string) : M Z :=
  voter ← get_account_by_id (cvo_voter cvo);
  hf19 ← has_hardfork STEEMIT_HARDFORK_0_19__756;
  taken ← (if (hf19 : bool) then pay_delegators voter cvo claim else mret 0);
  let voter_claim := to_uint64_wrap (claim - taken) in
  voter_reward ← create_vesting voter (in_golos (safe_of_uint64 voter_claim));
  push_virtual_operation (op_curation_reward (mk_curation_reward voter voter_reward author permlink
    (in_golos (safe_of_uint64 voter_claim)))) false ;;
  modify accounts voter (fun a =>
    r ← safe_add (account_curation_rewards a) (safe_of_uint64 voter_claim); Ok (a <| account_curation_rewards := r |>)) ;;
  mret voter_claim.

(** The claim of one vote *)
Definition after_window (comment : comment_object) (v : comment_vote_info) : bool :=
  bool_decide (com_auction_window_reward_destination comment = to_curators) &&
  (cvo_auction_time (cvi_vote v) =? com_auction_window_size comment).
Definition vote_claim (comment : comment_object) (c : comment_curation_info) (max_rewards auction_window_reward : Z)
    (v : comment_vote_info) : result Z :=
  q ← u128_div (u128_mul (u128_of_int64 max_rewards) (cvi_weight v)) (cci_total_vote_weight c);
  claim ← u128_to_uint64 q;
  if after_window comment v && negb (cci_votes_after_auction_window_weight c =? 0) then
    q ← u128_div (u128_mul auction_window_reward (cvi_weight v)) (cci_votes_after_auction_window_weight c);
    n ← u128_to_uint64 q;
    Ok (to_uint64_wrap (claim + n))
  else Ok claim.

(** The loop over the votes: the first vote after the auction window waits for the rest. *)
Record curator_state := mk_curator_state { cs_unclaimed : Z; cs_actual : Z; cs_heaviest : option comment_vote_info }.
Fixpoint pay_votes (comment : comment_object) (c : comment_curation_info) (max_rewards auction_window_reward : Z)
    (l : list comment_vote_info) (s : curator_state) : M curator_state :=
  match l with
  | [] => mret s
  | v :: l' =>
      claim ← lift (vote_claim comment c max_rewards auction_window_reward v);
      if after_window comment v && bool_decide (cs_heaviest s = None) then
        pay_votes comment c max_rewards auction_window_reward l' (mk_curator_state (cs_unclaimed s) (cs_actual s) (Some v))
      else if claim >? 0 then
        u ← lift (safe_sub (cs_unclaimed s) (safe_of_uint64 claim));
        paid ← pay_curator (cvi_vote v) claim (com_author comment) (com_permlink comment);
        a ← lift (safe_add (cs_actual s) (safe_of_uint64 paid));
        pay_votes comment c max_rewards auction_window_reward l' (mk_curator_state u a (cs_heaviest s))
      else mret s
  end.

Definition return_to_fund (reward : Z) : M unit :=
  modify_dgp (fun props =>
    f ← asset_add (dgp_total_reward_fund_steem props) (in_golos reward);
    Ok (props <| dgp_total_reward_fund_steem := f |>)).

(** [pay_curators]: the unclaimed rewards and those counted as paid *)
Definition share_among_votes (comment : comment_object) (c : comment_curation_info) (max_rewards actual_rewards : Z) : M curator_state :=
  let start := mk_curator_state max_rewards actual_rewards None in
  if (cci_total_vote_weight c >? 0) && com_allow_curation_rewards comment then
    auction_window_reward ← lift (u128_div (u128_mul (u128_of_int64 max_rewards) (cci_auction_window_weight c)) (cci_total_vote_weight c));
    s ← pay_votes comment c max_rewards auction_window_reward (cci_vote_list c) start;
    match cs_heaviest s with
    | Some v =>
        actual ← pay_curator (cvi_vote v) (to_uint64_wrap (cs_unclaimed s)) (com_author comment) (com_permlink comment);
        mret (mk_curator_state 0 (safe_of_uint64 actual) (Some v))
    | None => mret s
    end
  else mret start.
Definition pay_curators (comment : comment_object) (c : comment_curation_info) (max_rewards actual_rewards : Z) : M (Z * Z) :=
  s ← share_among_votes comment c max_rewards actual_rewards;
  let unclaimed := cs_unclaimed s in
  if negb (com_allow_curation_rewards comment) then
    return_to_fund unclaimed ;; mret (0, cs_actual s)
  else if negb (bool_decide (com_auction_window_reward_destination comment = to_author)) && (unclaimed >? 0) then
    push_virtual_operation (op_auction_window_reward (mk_auction_window_reward (in_golos unclaimed) (com_author comment) (com_permlink comment))) false ;;
    return_to_fund unclaimed ;; mret (0, cs_actual s)
  else mret (unclaimed, cs_actual s).

(** ** [cashout_comment_helper] *)

Definition percent_of (n percent whole : Z) : result Z := p ← safe_mul n percent; safe_div p whole.

(** The beneficiaries take their shares of what is left to the author. *)
Definition pay_beneficiary (comment : comment_object) (author_tokens : Z) (b : beneficiary_route_type) (total_beneficiary : Z) : M Z :=
  benefactor_tokens ← lift (percent_of author_tokens (beneficiary_weight b) STEEMIT_100_PERCENT);
  get_account (beneficiary_account b) ;;
  vest_created ← create_vesting (beneficiary_account b) (in_golos benefactor_tokens);
  push_virtual_operation (op_comment_benefactor_reward (mk_comment_benefactor_reward (beneficiary_account b)
    (com_author comment) (com_permlink comment) vest_created (in_golos benefactor_tokens))) false ;;
  modify accounts (beneficiary_account b) (fun a =>
    r ← safe_add (account_benefaction_rewards a) benefactor_tokens; Ok (a <| account_benefaction_rewards := r |>)) ;;
  lift (safe_add total_beneficiary benefactor_tokens).

(** The author is paid in GBG and in vesting shares. *)
Definition pay_author (comment : comment_object) (author_tokens : Z) : M unit :=
  let author := com_author comment in
  sbd_steem ← lift (percent_of author_tokens (com_percent_steem_dollars comment) (2 * STEEMIT_100_PERCENT));
  vesting_steem ← lift (safe_sub author_tokens sbd_steem);
  get_account author ;;
  vest_created ← create_vesting author (in_golos vesting_steem);
  sbd_payout ← create_sbd author (in_golos sbd_steem);
  push_virtual_operation (op_author_reward (mk_author_reward author (com_permlink comment) (fst sbd_payout) (snd sbd_payout)
    vest_created (in_golos sbd_steem) (in_golos vesting_steem))) false.

(** The reward is divided; the result is the curve that was used. *)
Definition divide_reward (comment : comment_object) (reward_tokens : Z) : M curation_curve :=
  q ← lift (u128_div (u128_mul (u128_of_int64 reward_tokens) (com_curation_rewards_percent comment)) STEEMIT_100_PERCENT);
  n ← lift (u128_to_uint64 q);
  let curation_tokens := safe_of_uint64 n in
  author_tokens ← lift (safe_sub reward_tokens curation_tokens);
  info ← curation_info comment false;
  paid ← pay_curators comment info curation_tokens 0;
  author_tokens ← lift (safe_add author_tokens (fst paid));
  total_beneficiary ← fold_each (pay_beneficiary comment author_tokens) (com_beneficiaries comment) 0;
  author_tokens ← lift (safe_sub author_tokens total_beneficiary);
  pay_author comment author_tokens ;;
  total_payout ← to_sbd (in_golos reward_tokens);
  push_virtual_operation (op_comment_reward (mk_comment_reward (com_author comment) (com_permlink comment) total_payout)) false ;;
  get_account (com_author comment) ;;
  modify accounts (com_author comment) (fun a =>
    r ← safe_add (account_posting_rewards a) author_tokens; Ok (a <| account_posting_rewards := r |>)) ;;
  push_virtual_operation (op_total_comment_reward (mk_total_comment_reward (com_author comment) (com_permlink comment)
    (in_golos author_tokens) (in_golos total_beneficiary) (in_golos (snd paid)) (com_net_rshares comment))) false ;;
  mret (cci_curve info).

(** The comment after its payout *)
Definition close_payout (hf17 : bool) (now : Z) (curve : curation_curve) (root_payout : option Z) (c : comment_object) : comment_object :=
  let c := if com_net_rshares c >? 0 then c <| com_net_rshares := 0 |> else c in
  let c := c <| com_children_abs_rshares := 0 |> <| com_abs_rshares := 0 |> <| com_vote_rshares := 0 |>
             <| com_max_cashout_time := time_point_sec_maximum |> <| com_curation_reward_curve := curve |> in
  let c :=
    if hf17 then c <| com_cashout_time := time_point_sec_maximum |>
    else if is_root_post c then
      c <| com_cashout_time := if com_last_payout c =? 0 then time_add now STEEMIT_SECOND_CASHOUT_WINDOW else time_point_sec_maximum |>
    else c in
  let payout := default (com_cashout_time c) root_payout in
  c <| com_mode := if payout =? time_point_sec_maximum then archived else second_payout |> <| com_last_payout := now |>.

(** The votes on an archived comment can be removed. *)
Definition archive_votes (comment : Z) : M unit :=
  votes ← gets (votes_on comment);
  for_each (fun v => modify comment_votes (vote_key v) (fun cvo => Ok (cvo <| cvo_num_changes ::= (fun n => to_int8_wrap (-1 - n)) |>))) votes.

(** The payout proper, for a comment with positive votes *)
Definition pay_comment (k : string * string) (comment : comment_object) : M curation_curve :=
  if com_net_rshares comment >? 0 then
    max_steem ← to_steem (com_max_accepted_payout comment);
    reward_tokens ← claim_rshare_reward (com_net_rshares comment) (com_reward_weight comment) max_steem;
    curve ← (if reward_tokens >? 0 then divide_reward comment reward_tokens else mret (com_curation_reward_curve comment));
    old_rshares2 ← calculate_vshares (u128_of_int64 (com_net_rshares comment));
    adjust_rshares2 k old_rshares2 0 ;;
    mret curve
  else mret (com_curation_reward_curve comment).
Definition cashout_comment_helper (k : string * string) : M unit :=
  comment ← get_comment k;
  curve ← pay_comment k comment;
  hf17 ← has_hardfork STEEMIT_HARDFORK_0_17__431;
  now ← head_block_time;
  root_payout ← (if (hf17 : bool) || is_root_post comment then mret None
                 else root ← get_comment_by_id (com_root_comment comment); mret (Some (com_cashout_time root)));
  modify comments k (fun c => Ok (close_payout hf17 now curve root_payout c)) ;;
  push_virtual_operation (op_comment_payout_update (mk_comment_payout_update (com_author comment) (com_permlink comment))) false ;;
  comment ← get_comment k;
  when (match com_mode comment with archived => true | _ => false end) (archive_votes (com_id comment)).

(** ** [process_comment_cashout] *)

Definition by_cashout_time (x y : comment_object) : comparison :=
  cmp_then (Z.compare (com_cashout_time x) (com_cashout_time y)) (Z.compare (com_id x) (com_id y)).
Definition cashout_due (now : Z) (c : comment_object) : bool := com_cashout_time c <=? now.

(** The comments of a discussion in the order of index [by_root] *)
Definition discussion (root : Z) (db : database) : list (string * string) :=
  fst <$> sort_by (fun x y => com_id (snd x) <=? com_id (snd y))
    (filter (fun kc => com_root_comment (snd kc) = root) (map_to_list (rows (comments db)))).
Definition cashout_current (hf17 : bool) (k : string * string) : M unit :=
  if hf17 then cashout_comment_helper k
  else
    current ← get_comment k;
    keys ← gets (discussion (com_root_comment current));
    for_each cashout_comment_helper keys.
Definition process_comment_cashout : M unit :=
  now ← head_block_time;
  hf17 ← has_hardfork STEEMIT_HARDFORK_0_17__431;
  when (now >? STEEMIT_FIRST_CASHOUT_TIME)
    (fuel ← gets (fun db => S (size (rows (comments db))));
     drain fuel (fun db => first_due (cashout_due now) by_cashout_time (comments db)) (cashout_current hf17)).
End Cashout.

Section Claims.
Context `{F : fc_ops} {L : fc_laws F}.

(** ** The claims of the votes *)

Lemma u128_share n w total : 0 <= n < 2 ^ 64 -> 0 <= w < 2 ^ 64 -> 0 < total -> w <= total ->
  u128_div (u128_mul n w) total = Ok (n * w / total) /\ 0 <= n * w / total <= n.
Proof.
  intros Hn Hw Ht Hle. rewrite u128_mul_law, Z.mod_small, u128_div_law by nia. split; [done|].
  split; [apply Z.div_pos; nia|]. apply Z.div_le_upper_bound; nia.
Qed.
Lemma u128_share64 n : 0 <= n < 2 ^ 64 -> u128_to_uint64 n = Ok n.
Proof. intros Hn. rewrite u128_to_uint64_law by lia. destruct (Z.ltb_spec n (2 ^ 64)); [done | lia]. Qed.

Section Shares.
Variables (comment : comment_object) (c : comment_curation_info) (max_rewards : Z).
Let window := com_auction_window_size comment.
Let total := cci_total_vote_weight c.
Let auction_window_reward := max_rewards * cci_auction_window_weight c / total.
Hypothesis Hmax : 0 <= max_rewards < 2 ^ 63.
Hypothesis Hfair : fair window c.
Hypothesis Htotal : 0 < total.

Lemma weight_below l v : (forall p, weights p l <= weights p (cci_vote_list c)) -> v ∈ l -> Forall (fun v => 0 <= cvi_weight v) l ->
  0 <= cvi_weight v /\ cvi_weight v + cci_auction_window_weight c <= total /\
  (at_end window v = true -> cvi_weight v <= cci_votes_after_auction_window_weight c).
Proof.
  intros Hsub Hv Hl. assert (forall p, p v = true -> 0 <= cvi_weight v <= weights p l) as Hw.
  { intros p Hp. clear Hsub. induction Hl as [|x l Hx Hl IH]; [by apply not_elem_of_nil in Hv|].
    rewrite weights_cons. pose proof (vote_weights_nonneg p l Hl). apply elem_of_cons in Hv as [-> | Hv].
    - rewrite Hp. lia.
    - specialize (IH Hv). destruct (p x); lia. }
  pose proof (Hw any_vote eq_refl). pose proof (Hsub any_vote). pose proof (fair_sum _ _ Hfair). pose proof (fair_after _ _ Hfair).
  unfold total. split_and!; [lia | lia|]. intros He. specialize (Hw (at_end window) He). specialize (Hsub (at_end window)). lia.
Qed.

(** Each claim: the share of the weight, and for a vote after the auction window its share
    of the reward of the window *)
Definition claim_of (v : comment_vote_info) : Z :=
  max_rewards * cvi_weight v / total +
  (if after_window comment v && negb (cci_votes_after_auction_window_weight c =? 0)
   then auction_window_reward * cvi_weight v / cci_votes_after_auction_window_weight c else 0).
Lemma vote_claim_of v : v ∈ cci_vote_list c ->
  vote_claim comment c max_rewards auction_window_reward v = Ok (claim_of v) /\ 0 <= claim_of v <= max_rewards.
Proof.
  intros Hv. destruct (weight_below (cci_vote_list c) v ltac:(done) Hv (fair_weights _ _ Hfair)) as (Hw & Hle & Hat).
  pose proof (fair_total _ _ Hfair) as Ht. pose proof (fair_window _ _ Hfair) as Ha. fold total in Ht.
  assert (auction_window_reward + max_rewards * cvi_weight v / total <= max_rewards) as Hsum.
  { unfold auction_window_reward. apply Z.le_trans with ((max_rewards * cci_auction_window_weight c + max_rewards * cvi_weight v) / total).
    - apply Z.div_le_lower_bound; [done|]. pose proof (Z.mul_div_le (max_rewards * cci_auction_window_weight c) total Htotal).
      pose proof (Z.mul_div_le (max_rewards * cvi_weight v) total Htotal). nia.
    - apply Z.div_le_upper_bound; [done|]. nia. }
  assert (0 <= auction_window_reward) as Ha0 by (apply Z.div_pos; nia).
  unfold vote_claim, claim_of. rewrite u128_of_int64_law, (Z.mod_small max_rewards) by lia. fold total.
  destruct (u128_share max_rewards (cvi_weight v) total) as [-> Hq]; [lia..|]. cbn [mbind result_bind].
  rewrite u128_share64 by lia. cbn [mbind result_bind]. destruct (after_window comment v) eqn:Eaw; cbn [andb].
  2: { rewrite Z.add_0_r. done. }
  destruct (Z.eqb_spec (cci_votes_after_auction_window_weight c) 0) as [E0 | E0]; cbn [negb]; [rewrite Z.add_0_r; done|].
  assert (at_end window v = true) as Hend by (unfold after_window in Eaw; by apply andb_true_iff in Eaw as [_ Eaw]).
  specialize (Hat Hend).
  destruct (u128_share auction_window_reward (cvi_weight v) (cci_votes_after_auction_window_weight c)) as [-> Hn]; [lia..|].
  cbn [mbind result_bind]. rewrite u128_share64 by lia. cbn [mbind result_bind]. rewrite to_uint64_wrap_small by lia. split; [done | lia].
Qed.

(** The two parts of the claims *)
Definition window_share (v : comment_vote_info) : Z :=
  if after_window comment v && negb (cci_votes_after_auction_window_weight c =? 0)
  then auction_window_reward * cvi_weight v / cci_votes_after_auction_window_weight c else 0.
Lemma weight_shares l : Forall (fun v => 0 <= cvi_weight v) l ->
  total * foldr (fun v s => max_rewards * cvi_weight v / total + s) 0 l <= max_rewards * weights any_vote l.
Proof.
  induction 1 as [|v l Hv _ IH]; [cbn; lia|]. rewrite weights_cons. cbn [foldr any_vote].
  pose proof (Z.mul_div_le (max_rewards * cvi_weight v) total Htotal). lia.
Qed.
Lemma window_shares l : Forall (fun v => 0 <= cvi_weight v) l -> 0 <= cci_votes_after_auction_window_weight c ->
  cci_votes_after_auction_window_weight c * foldr (fun v s => window_share v + s) 0 l <= auction_window_reward * weights (at_end window) l /\
  (cci_votes_after_auction_window_weight c = 0 -> foldr (fun v s => window_share v + s) 0 l = 0).
Proof.
  intros Hl Ha. assert (0 <= auction_window_reward) as H0.
  { unfold auction_window_reward. pose proof (fair_window _ _ Hfair). apply Z.div_pos; nia. }
  induction Hl as [|v l Hv _ [IH IH0]]; [cbn; lia|]. rewrite weights_cons. cbn [foldr]. unfold window_share at 1 3, after_window.
  fold window. destruct (Z.eqb_spec (cci_votes_after_auction_window_weight c) 0) as [E | E]; cbn [negb].
  - rewrite andb_false_r, E in *. split; [destruct (at_end window v); nia | intros; rewrite IH0; lia].
  - split; [|done]. unfold at_end at 1. rewrite andb_true_r.
    pose proof (Z.mul_div_le (auction_window_reward * cvi_weight v) (cci_votes_after_auction_window_weight c) ltac:(lia)).
    destruct (bool_decide _), (cvo_auction_time (cvi_vote v) =? window); cbn [andb]; nia.
Qed.
Lemma claims_sum_le : foldr (fun v s => claim_of v + s) 0 (cci_vote_list c) <= max_rewards.
Proof.
  pose proof (fair_weights _ _ Hfair) as Hl. pose proof (fair_sum _ _ Hfair) as Hs. fold total in Hs.
  assert (0 <= cci_votes_after_auction_window_weight c) as Ha by (rewrite <- (fair_after _ _ Hfair); by apply vote_weights_nonneg).
  pose proof (weight_shares _ Hl) as H1. destruct (window_shares (cci_vote_list c) Hl Ha) as [H2 H3]. rewrite (fair_after _ _ Hfair) in H2.
  assert (forall l, foldr (fun v s => claim_of v + s) 0 l =
    foldr (fun v s => max_rewards * cvi_weight v / total + s) 0 l + foldr (fun v s => window_share v + s) 0 l) as ->.
  { intros l. induction l as [|v l IH]; [done|]. cbn [foldr]. rewrite IH. unfold claim_of, window_share. lia. }
  assert (0 <= auction_window_reward) as H0.
  { unfold auction_window_reward. pose proof (fair_window _ _ Hfair). apply Z.div_pos; nia. }
  assert (total * auction_window_reward <= max_rewards * cci_auction_window_weight c) as H4 by (by apply Z.mul_div_le).
  set (s1 := foldr _ 0 _) in *. set (s2 := foldr (fun v s => window_share v + s) 0 _) in *.
  assert (s2 <= auction_window_reward) by (destruct (decide (cci_votes_after_auction_window_weight c = 0)); [rewrite H3; lia | nia]).
  nia.
Qed.
End Shares.
End Claims.
