(* ===== verification/Payout.v ===== *)
(** * Payouts conserve value

    What [cashout_comment_helper] takes from the reward fund is exactly what curators,
    their delegators, beneficiaries, the author and the fund receive, and the loop of
    [process_comment_cashout] leaves no comment whose payout is due. *)

From S2P Require Import Prelude Exceptions Text Fc Config Asset FlatMap Authority Operations Objects Database Conservation Preserve Accounts Curation Comments Cashout.

Section Payments.
Context `{F : fc_ops} {L : fc_laws F}.
Variable sym : Z.
#[local] Abbreviation shifts := (shifts sym).
#[local] Abbreviation keeps_gap := (keeps_gap sym).

(** ** Where the reward goes *)

Lemma push_keeps_gap op force : preserves keeps_gap (push_virtual_operation op force).
Proof. intros db u db' H. by apply (push_virtual_operation_gap sym) in H as (H & _ & _). Qed.
#[local] Hint Resolve push_keeps_gap : preserves.

Definition golos_in (n : Z) : Z := amount_in sym (in_golos n).
Lemma golos_in_eq n : golos_in n = n * golos_in 1.
Proof. unfold golos_in, in_golos. rewrite !amount_in_mk. destruct (STEEM_SYMBOL =? sym); lia. Qed.

Lemma create_vesting_shifts name n : shifts (- golos_in n) (create_vesting name (in_golos n)).
Proof. intros db a db' H. apply (create_vesting_gap sym) in H. unfold golos_in. lia. Qed.

Lemma pay_delegator_shifts delegatee dvir claim :
  shifts (- golos_in (safe_of_uint64 claim)) (pay_delegator delegatee dvir claim).
Proof.
  unfold pay_delegator. cbv zeta. apply shifts_skip; [keeps_gap_solve|]; intros.
  apply shifts_last; [apply create_vesting_shifts|]. intros. keeps_gap_solve.
Qed.

(** The rates of the delegators of a vote are parts of the whole. *)
Definition rates_ok (v : comment_vote_object) : Prop :=
  Forall (fun d => 0 <= dvir_interest_rate d) (cvo_delegator_vote_interest_rates v) /\
  foldr (fun d s => dvir_interest_rate d + s) 0 (cvo_delegator_vote_interest_rates v) <= STEEMIT_100_PERCENT.

Lemma delegator_claim_le claim rate : 0 <= claim -> 0 <= rate ->
  0 <= delegator_claim claim rate /\ STEEMIT_100_PERCENT * delegator_claim claim rate <= claim * rate.
Proof.
  intros Hc Hr. unfold delegator_claim, to_uint64_wrap. change STEEMIT_100_PERCENT with 10000.
  pose proof (Z.mod_pos_bound (claim * rate) (2 ^ 64) ltac:(lia)). pose proof (Z.mod_le (claim * rate) (2 ^ 64) ltac:(nia) ltac:(lia)).
  pose proof (Z.mul_div_le ((claim * rate) mod 2 ^ 64) 10000 ltac:(lia)). split; [apply Z.div_pos; lia | lia].
Qed.

(** What the delegators take is what they are paid. *)
Lemma pay_delegators_pays delegatee cvo claim db taken db' : 0 <= claim < 2 ^ 63 -> rates_ok cvo ->
  pay_delegators delegatee cvo claim db = Ok (taken, db') -> 0 <= taken <= claim /\ gap sym db' = gap sym db - golos_in taken.
Proof.
  intros Hc [Hr Hs]. unfold pay_delegators.
  match goal with |- fold_each ?f _ _ _ = _ -> _ => set (body := f) end.
  enough (forall l start db, Forall (fun d => 0 <= dvir_interest_rate d) l -> 0 <= start ->
    STEEMIT_100_PERCENT * start + claim * foldr (fun d s => dvir_interest_rate d + s) 0 l <= STEEMIT_100_PERCENT * claim ->
    forall taken db', fold_each body l start db = Ok (taken, db') ->
      0 <= taken <= claim /\ gap sym db' = gap sym db + golos_in start - golos_in taken) as Hl.
  { intros H. apply Hl in H; [|done | done | nia]. destruct H as [Ht Hg]. rewrite (golos_in_eq 0) in Hg. split; [done | lia]. }
  clear Hr Hs. induction l as [|d l IH]; intros start db1 Hr Hs0 Hs taken1 db2 H.
  { cbn in *. apply mret_run in H as [-> ->]. change STEEMIT_100_PERCENT with 10000 in *. lia. }
  inversion Hr as [|? ? Hd Hr']; subst. cbn [fold_each foldr] in *. apply bind_run in H as (x & db0 & Hrun & H).
  destruct (delegator_claim_le claim (dvir_interest_rate d) ltac:(lia) Hd) as [Hc0 Hc1].
  set (c := delegator_claim claim (dvir_interest_rate d)) in *.
  assert (0 <= foldr (fun d s => dvir_interest_rate d + s) 0 l) as Hl by (clear - Hr'; induction Hr'; cbn; lia).
  destruct ((dvir_interest_rate d >? STEEMIT_100_PERCENT) || (c =? 0)) eqn:Ec; unfold body in Hrun; fold c in Hrun; rewrite Ec in Hrun; inv_run.
    { apply IH in H; [done | done | done | nia]. }
  change STEEMIT_100_PERCENT with 10000 in *.
  rewrite to_uint64_wrap_small in H by nia. apply IH in H; [|done | lia | nia].
  apply pay_delegator_shifts in Hrun0. rewrite safe_of_uint64_law in Hrun0 by (apply is_int64_spec; nia).
  rewrite (golos_in_eq (start + c)), (golos_in_eq start), (golos_in_eq c) in *. lia.
Qed.

(** Code that pays out: the amount depends on the result. *)
Definition pays {A : Type} (ok : A -> Prop) (n : A -> Z) (m : M A) : Prop :=
  forall db a db', m db = Ok (a, db') -> ok a /\ gap sym db' = gap sym db - golos_in (n a).
Lemma pays_bind {A B : Type} ok (ok' : B -> Prop) n (k : B -> Z) (m : M A) (f : A -> M B) :
  pays ok n m -> (forall a, ok a -> pays ok' (fun b => k b - n a) (f a)) -> pays ok' k (m ≫= f).
Proof.
  intros Hm Hf db b db' (a & db1 & [Ha H1]%Hm & [Hb H2]%Hf)%bind_run; [|done]. split; [done|].
  rewrite golos_in_eq, Z.mul_sub_distr_r, <- !golos_in_eq in H2. lia.
Qed.
Lemma pays_shifts {A : Type} n (m : M A) : shifts (- golos_in n) m -> pays (fun _ => True) (fun _ => n) m.
Proof. intros Hm db a db' H%Hm. split; [done | lia]. Qed.
Lemma pays_same {A : Type} (m : M A) : preserves keeps_gap m -> pays (fun _ => True) (fun _ => 0) m.
Proof. intros Hm. apply pays_shifts. rewrite golos_in_eq. by apply shifts_same. Qed.
Lemma pays_mret {A : Type} (ok : A -> Prop) (n : A -> Z) a : ok a -> n a = 0 -> pays ok n (mret a).
Proof. intros Ha Hn db b db' [-> ->]%mret_run. rewrite Hn, golos_in_eq. split; [done | lia]. Qed.
Lemma pays_weaken {A : Type} (ok ok' : A -> Prop) n n' (m : M A) :
  pays ok n m -> (forall a, ok a -> ok' a /\ n a = n' a) -> pays ok' n' m.
Proof. intros Hm Hw db a db' [Ha Hg]%Hm. destruct (Hw a Ha) as [? <-]. done. Qed.
Lemma pays_lift {A B : Type} (r : result A) (ok' : B -> Prop) k (f : A -> M B) :
  (forall a, r = Ok a -> pays ok' k (f a)) -> pays ok' k (lift r ≫= f).
Proof. intros Hf db b db' (a & db1 & [Hr ->]%lift_run & H)%bind_run. by apply (Hf a Hr). Qed.
Lemma pays_skip {A B : Type} (m : M A) (ok' : B -> Prop) k (f : A -> M B) :
  preserves keeps_gap m -> (forall a, pays ok' k (f a)) -> pays ok' k (m ≫= f).
Proof.
  intros Hm Hf. eapply pays_bind; [by apply pays_same|]. intros a _. eapply pays_weaken; [apply Hf|]. intros b Hb. split; [done | lia].
Qed.

(** A curator and its delegators together get the claim. *)
Lemma pay_curator_pays cvo claim author permlink : 0 <= claim < 2 ^ 63 -> rates_ok cvo ->
  pays (fun paid => 0 <= paid <= claim) (fun _ => claim) (pay_curator cvo claim author permlink).
Proof.
  intros Hc Hr. unfold pay_curator. cbv zeta. do 2 (apply pays_skip; [keeps_gap_solve|]; intros).
  eapply (pays_bind (fun t => 0 <= t <= claim) _ (fun t => t)).
  { match goal with b : bool |- _ => destruct b end; [|apply pays_mret; lia].
    intros db t db' H. by eapply pay_delegators_pays. }
  intros t Ht. rewrite to_uint64_wrap_small by lia. rewrite safe_of_uint64_law by (apply is_int64_spec; lia).
  eapply pays_bind; [apply pays_shifts, create_vesting_shifts|]. intros v _.
  do 2 (apply pays_skip; [keeps_gap_solve|]; intros). apply pays_mret; lia.
Qed.

(** ** The loop over the votes *)

Lemma claims_nonneg comment c max l : 0 <= max < 2 ^ 63 -> fair (com_auction_window_size comment) c -> 0 < cci_total_vote_weight c ->
  (forall v, v ∈ l -> v ∈ cci_vote_list c) -> 0 <= foldr (fun v s => claim_of comment c max v + s) 0 l.
Proof.
  intros Hm Hf Ht. induction l as [|v l IH]; intros Hl; [done|]. cbn [foldr].
  pose proof (vote_claim_of comment c max Hm Hf Ht v (Hl v ltac:(left))) as [_ ?]. specialize (IH (fun w Hw => Hl w ltac:(by right))). lia.
Qed.

Definition heaviest_ok (s : curator_state) : Prop := forall v, cs_heaviest s = Some v -> rates_ok (cvi_vote v).
Lemma pay_votes_pays comment c max l s : 0 <= max < 2 ^ 63 -> fair (com_auction_window_size comment) c -> 0 < cci_total_vote_weight c ->
  (forall v, v ∈ l -> v ∈ cci_vote_list c /\ rates_ok (cvi_vote v)) ->
  foldr (fun v s => claim_of comment c max v + s) 0 l <= cs_unclaimed s <= max -> heaviest_ok s ->
  pays (fun s' => 0 <= cs_unclaimed s' <= cs_unclaimed s /\ heaviest_ok s') (fun s' => cs_unclaimed s - cs_unclaimed s')
    (pay_votes comment c max (max * cci_auction_window_weight c / cci_total_vote_weight c) l s).
Proof.
  intros Hm Hf Ht. revert s. induction l as [|v l IH]; intros s Hl Hs Hh.
  { apply pays_mret; [|lia]. cbn in Hs. split; [lia | done]. }
  cbn [pay_votes foldr] in *. destruct (Hl v ltac:(left)) as [Hv Hr].
  pose proof (claims_nonneg comment c max l Hm Hf Ht (fun w Hw => proj1 (Hl w ltac:(by right)))) as H0.
  destruct (vote_claim_of comment c max Hm Hf Ht v Hv) as [Ec Hc].
  apply pays_lift. rewrite Ec. intros n [= <-]. set (claim := claim_of comment c max v) in *.
  assert (forall w, w ∈ l -> w ∈ cci_vote_list c /\ rates_ok (cvi_vote w)) as Hl' by (intros; apply Hl; by right).
  destruct (after_window comment v && bool_decide (cs_heaviest s = None)).
  { eapply pays_weaken; [apply IH; [done | cbn; lia | intros w [= <-]; done]|]. cbn. intros s' ?. split; [done | lia]. }
  destruct (Z.gtb_spec claim 0) as [Hpos | Hpos]; [|apply pays_mret; [split; [lia | done] | lia]].
  rewrite safe_of_uint64_law by (apply is_int64_spec; lia).
  apply pays_lift. intros u Hu%safe_sub_Ok. subst u.
  eapply pays_bind; [by apply pay_curator_pays; [lia|]|]. cbn beta. intros paid _.
  apply pays_lift. intros a _. eapply pays_weaken; [apply IH; [done | cbn; lia | done]|]. cbn. intros s' ?. split; [naive_solver lia | lia].
Qed.

(** The reward is divided among the votes and the fund. *)
Lemma share_among_votes_pays comment c max actual : 0 <= max < 2 ^ 63 -> fair (com_auction_window_size comment) c ->
  Forall (fun v => rates_ok (cvi_vote v)) (cci_vote_list c) ->
  pays (fun s => 0 <= cs_unclaimed s <= max) (fun s => max - cs_unclaimed s) (share_among_votes comment c max actual).
Proof.
  intros Hm Hf Hr. unfold share_among_votes. destruct ((cci_total_vote_weight c >? 0) && com_allow_curation_rewards comment) eqn:E.
  2: { apply pays_mret; cbn; lia. }
  apply andb_true_iff in E as [Ht%Z.gtb_lt _].
  pose proof (fair_total _ _ Hf). pose proof (fair_window _ _ Hf). pose proof (fair_sum _ _ Hf). pose proof (vote_weights_nonneg any_vote _ (fair_weights _ _ Hf)).
  rewrite u128_of_int64_law, (Z.mod_small max) by lia.
  destruct (u128_share max (cci_auction_window_weight c) (cci_total_vote_weight c)) as [-> _]; [lia..|].
  apply pays_lift. intros r [= <-]. eapply pays_bind.
  { apply pay_votes_pays; [done.. | | |done].
    - intros v Hv. split; [done|]. by eapply Forall_forall in Hr.
    - cbn. pose proof (claims_sum_le comment c max Hm Hf Ht). lia. }
  cbn beta. intros s [Hs Hh]. cbn in Hs. destruct (cs_heaviest s) as [v|] eqn:Ev; [|apply pays_mret; cbn; lia].
  rewrite to_uint64_wrap_small by lia. eapply pays_bind; [apply pay_curator_pays; [lia | by apply Hh]|].
  cbn beta. intros paid _. apply pays_mret; cbn; lia.
Qed.

Lemma return_to_fund_shifts n : shifts (- golos_in n) (return_to_fund n).
Proof. unfold return_to_fund, golos_in. intros db u db' H. gap_solve sym. Qed.
Lemma pay_curators_pays comment c max actual : 0 <= max < 2 ^ 63 -> fair (com_auction_window_size comment) c ->
  Forall (fun v => rates_ok (cvi_vote v)) (cci_vote_list c) ->
  pays (fun r => 0 <= fst r <= max) (fun r => max - fst r) (pay_curators comment c max actual).
Proof.
  intros Hm Hf Hr. unfold pay_curators. eapply pays_bind; [by apply share_among_votes_pays|]. cbn beta zeta. intros s Hs.
  destruct (negb (com_allow_curation_rewards comment)).
  { eapply pays_bind; [apply pays_shifts, return_to_fund_shifts|]. intros. apply pays_mret; cbn; lia. }
  destruct (negb _ && _).
  { apply pays_skip; [keeps_gap_solve|]. intros. eapply pays_bind; [apply pays_shifts, return_to_fund_shifts|]. intros. apply pays_mret; cbn; lia. }
  apply pays_mret; cbn; lia.
Qed.
End Payments.

Section Payout.
Context `{F : fc_ops} {L : fc_laws F}.
Variable sym : Z.
#[local] Abbreviation shifts := (shifts sym).
#[local] Abbreviation keeps_gap := (keeps_gap sym).
#[local] Abbreviation pays := (pays sym).
#[local] Hint Resolve push_keeps_gap : preserves.

(** ** The payout of a comment *)

Lemma pays_lift_last {A : Type} (r : result A) (ok : A -> Prop) n : (forall a, r = Ok a -> ok a /\ n a = 0) -> pays ok n (lift r).
Proof. intros Hr db a db' [Ha ->]%lift_run. destruct (Hr a Ha) as [? ->]. rewrite golos_in_eq. split; [done | lia]. Qed.
Lemma pays_fold_each {A : Type} (f : A -> Z -> M Z) l start :
  (forall x s, pays (fun _ => True) (fun t => t - s) (f x s)) -> pays (fun _ => True) (fun t => t - start) (fold_each f l start).
Proof.
  intros Hf. revert start. induction l as [|x l IH]; intros start; cbn [fold_each]; [by apply pays_mret; [|lia]|].
  eapply pays_bind; [apply Hf|]. cbn beta. intros s _. eapply pays_weaken; [apply IH|]. cbn beta. intros t _. split; [done | lia].
Qed.

Lemma pay_beneficiary_pays comment author_tokens b total :
  pays (fun _ => True) (fun t => t - total) (pay_beneficiary comment author_tokens b total).
Proof.
  unfold pay_beneficiary. apply pays_lift. intros n _. apply pays_skip; [keeps_gap_solve|]. intros.
  eapply pays_bind; [apply pays_shifts, create_vesting_shifts|]. intros.
  do 2 (apply pays_skip; [keeps_gap_solve|]; intros). apply pays_lift_last. intros t ->%safe_add_Ok. split; [done | lia].
Qed.

Lemma pay_author_pays comment author_tokens : pays (fun _ => True) (fun _ => author_tokens) (pay_author comment author_tokens).
Proof.
  unfold pay_author. cbv zeta. apply pays_lift. intros sbd _. apply pays_lift. intros vesting ->%safe_sub_Ok.
  apply pays_skip; [keeps_gap_solve|]. intros. eapply pays_bind; [apply pays_shifts, create_vesting_shifts|]. intros v _.
  eapply pays_bind; [apply (pays_shifts sym sbd)|].
  { intros db r db' H. apply (create_sbd_gap sym) in H; [unfold golos_in; lia | done]. }
  cbn beta. intros r _. eapply pays_weaken; [by apply pays_same; auto with preserves|]. cbn beta. intros _ _. split; [done | lia].
Qed.

(** The votes on a comment can be weighed and their delegators paid. *)
Record votes_ready (db : database) (comment : comment_object) : Prop := {
  ready_percent : 0 <= com_curation_rewards_percent comment <= STEEMIT_100_PERCENT;
  ready_window : 0 <= com_auction_window_size comment < 2 ^ 16;
  ready_rates : Forall rates_ok (by_comment_vote_order (com_id comment) db);
  ready_votes : forall curve db', detect_curation_curve comment db = Ok (curve, db') ->
    votes_fair curve (com_auction_window_size comment) (by_comment_vote_order (com_id comment) db)
}.
Lemma votes_ready_same db db' comment : comment_votes db' = comment_votes db -> wso db' = wso db ->
  processed_hardforks db' = processed_hardforks db -> votes_ready db comment -> votes_ready db' comment.
Proof.
  intros Ev Ew Eh [Hp Hw Hr Hv]. assert (forall i, by_comment_vote_order i db' = by_comment_vote_order i db) as E
    by (intros; unfold by_comment_vote_order; by rewrite Ev).
  split; [done | done | by rewrite E|]. intros curve db1 H. rewrite E. apply (Hv curve db).
  unfold detect_curation_curve, has_hardfork in *. inv_run. by rewrite Ew, Eh.
Qed.

(** What a payout needs of the state: the fund and its shares are positive, the numbers
    are of their types, and the votes on the comment can be paid. *)
Record payout_ready (db : database) (comment : comment_object) : Prop := {
  ready_fund : 0 <= amount (dgp_total_reward_fund_steem (dgp db)) < 2 ^ 63;
  ready_fund_symbol : symbol (dgp_total_reward_fund_steem (dgp db)) = STEEM_SYMBOL;
  ready_shares : 0 < dgp_total_reward_shares2 (dgp db);
  ready_rshares : com_net_rshares comment < 2 ^ 63;
  ready_weight : 0 <= com_reward_weight comment < 2 ^ 16;
  ready_for_votes : votes_ready db comment
}.

Lemma divide_reward_gap comment reward db curve db' : votes_ready db comment -> 0 <= reward < 2 ^ 63 ->
  divide_reward comment reward db = Ok (curve, db') -> gap sym db' = gap sym db - golos_in sym reward.
Proof.
  intros [Hpc Hw Hrates Hvotes] Hr H. unfold divide_reward in H. change STEEMIT_100_PERCENT with 10000 in *.
  rewrite u128_of_int64_law, (Z.mod_small reward), u128_mul_law, Z.mod_small, u128_div_law in H by nia.
  apply bind_run in H as (q & db1 & [[= <-] ->]%lift_run & H).
  assert (0 <= reward * com_curation_rewards_percent comment / 10000 <= reward) as Hc.
  { split; [apply Z.div_pos; nia | apply Z.div_le_upper_bound; nia]. }
  rewrite u128_share64 in H by lia. apply bind_run in H as (q & db1 & [[= <-] ->]%lift_run & H).
  rewrite safe_of_uint64_law in H by (apply is_int64_spec; lia). set (c := _ / 10000) in *.
  apply bind_run in H as (author & db1 & [->%safe_sub_Ok ->]%lift_run & H).
  apply bind_run in H as (info & db1 & Hi & H). destruct (curation_info_run _ _ _ _ _ Hw Hi) as (-> & Hd & Hfrom & Hfair).
  specialize (Hfair (Hvotes _ _ Hd)).
  match type of H with ?m _ = _ => enough (pays (fun _ => True) (fun _ => reward) m) as Hp by (by apply Hp in H as [_ H]) end.
  eapply pays_bind; [apply pay_curators_pays; [lia | done |]|].
  { eapply Forall_impl; [exact Hfrom|]. intros v Hv. by eapply Forall_forall in Hrates. }
  cbn beta. intros paid Hpaid. apply pays_lift. intros a1 ->%safe_add_Ok.
  eapply pays_bind; [apply pays_fold_each; intros; apply pay_beneficiary_pays|]. cbn beta. intros t _.
  apply pays_lift. intros a2 ->%safe_sub_Ok. eapply pays_bind; [apply pay_author_pays|]. cbn beta. intros _ _.
  unfold to_sbd. do 5 (apply pays_skip; [keeps_gap_solve|]; intros). apply pays_mret; [done | lia].
Qed.

(** The share of the fund that the shares of a comment stand for *)
Definition fund_share (fund vshares2 total weight : Z) : Z := fund * (vshares2 * weight / STEEMIT_100_PERCENT) / total.
Lemma vshares_range hf17 rshares : 0 <= rshares < 2 ^ 128 -> 0 <= vshares hf17 rshares < 2 ^ 128.
Proof.
  intros Hr. destruct hf17; cbn [vshares]; [done|]. unfold calculate_vshares_quadratic. rewrite u128_sub_law. apply Z.mod_pos_bound. lia.
Qed.
Lemma rshare_payout_exact fund total rs2 weight payout : 0 <= fund < 2 ^ 63 -> 0 < total -> 0 <= rs2 < 2 ^ 128 -> 0 <= weight < 2 ^ 16 ->
  rshare_payout fund total rs2 weight = Ok payout -> payout = fund_share fund rs2 total weight /\ 0 <= payout < 2 ^ 63.
Proof.
  intros Hf Ht Hr Hw H. unfold rshare_payout, fund_share in *. change STEEMIT_100_PERCENT with 10000 in *.
  rewrite u256_of_int64_law, !u256_mul_law, (Z.mod_small (rs2 * weight)) in H by (try apply is_int64_spec; nia).
  rewrite u256_div_law in H by nia. cbn [mbind result_bind] in H.
  assert (0 <= rs2 * weight / 10000 < 2 ^ 144) as Hq by (split; [apply Z.div_pos; nia | apply Z.div_lt_upper_bound; nia]).
  rewrite u256_mul_law, (Z.mod_small (fund * _)), u256_div_law in H by nia. inv_ok. bool_to_prop. unfold int64_max in *.
  split; [done|]. split; [apply Z.div_pos; nia | lia].
Qed.

(** The share of the fund leaves it, unless it is dust, and no more than the comment
    accepts. *)
Lemma claim_rshare_reward_run rshares weight max_steem db reward db' :
  0 <= amount (dgp_total_reward_fund_steem (dgp db)) < 2 ^ 63 -> 0 < dgp_total_reward_shares2 (dgp db) ->
  rshares < 2 ^ 63 -> 0 <= weight < 2 ^ 16 ->
  claim_rshare_reward rshares weight max_steem db = Ok (reward, db') ->
  exists hf17 sbd small f,
    let payout := fund_share (amount (dgp_total_reward_fund_steem (dgp db))) (vshares hf17 rshares) (dgp_total_reward_shares2 (dgp db)) weight in
    has_hardfork STEEMIT_HARDFORK_0_17__433 db = Ok (hf17, db) /\ 0 < rshares /\ 0 <= payout < 2 ^ 63 /\
    to_sbd (in_golos payout) db = Ok (sbd, db) /\ asset_ltb sbd STEEMIT_MIN_PAYOUT_SBD = Ok small /\
    reward = Z.min (if (small : bool) then 0 else payout) (to_uint64_wrap (amount max_steem)) /\ 0 <= reward < 2 ^ 63 /\
    safe_sub (amount (dgp_total_reward_fund_steem (dgp db))) reward = Ok f /\
    db' = db <| dgp ::= (fun p => p <| dgp_total_reward_fund_steem ::= (fun a => mk_asset f (symbol a)) |>) |>.
Proof.
  intros Hf Hs Hr Hw H. unfold claim_rshare_reward, calculate_vshares in H.
  apply bind_run in H as ([] & db1 & [H0%fc_assert_Ok ->]%lift_run & H). rewrite Z.gtb_ltb in H0. apply Z.ltb_lt in H0.
  apply bind_run in H as (p & db1 & [-> ->]%gets_run & H).
  apply bind_run in H as (rs2 & db1 & H1 & H). apply bind_run in H1 as (hf17 & db2 & Hhf & [-> ->]%mret_run).
  assert (db2 = db) as -> by (unfold has_hardfork in Hhf; by inv_run). rewrite u128_of_int64_law, (Z.mod_small rshares) in H by lia.
  apply bind_run in H as (payout & db1 & [Hp ->]%lift_run & H).
  apply rshare_payout_exact in Hp as [-> Hp]; [|done|done|apply vshares_range; lia|done].
  apply bind_run in H as (sbd & db1 & Hsbd & H). assert (db1 = db) as -> by (unfold to_sbd, median_price in Hsbd; by inv_run).
  apply bind_run in H as (small & db1 & [Hsm ->]%lift_run & H). rewrite safe_of_uint64_law in Hsbd by (apply is_int64_spec; lia).
  cbv zeta in H. set (pay := fund_share _ _ _ _) in *.
  pose proof (Z.mod_pos_bound (amount max_steem) (2 ^ 64) ltac:(lia)) as Hm. change (amount max_steem mod 2 ^ 64) with (to_uint64_wrap (amount max_steem)) in Hm.
  assert (0 <= Z.min (if small then 0 else pay) (to_uint64_wrap (amount max_steem)) < 2 ^ 63) as Hrw by (destruct small; lia).
  rewrite !safe_of_uint64_law in H by (apply is_int64_spec; lia).
  apply bind_run in H as ([] & db1 & (q & Hq & ->)%on_table_run & [-> ->]%mret_run). inv_ok.
  exists hf17, sbd, small, a. cbv zeta. fold pay. split_and!; try done; try lia.
Qed.

Lemma claim_rshare_reward_gap rshares weight max_steem db reward db' :
  0 <= amount (dgp_total_reward_fund_steem (dgp db)) < 2 ^ 63 -> symbol (dgp_total_reward_fund_steem (dgp db)) = STEEM_SYMBOL ->
  0 < dgp_total_reward_shares2 (dgp db) -> rshares < 2 ^ 63 -> 0 <= weight < 2 ^ 16 ->
  claim_rshare_reward rshares weight max_steem db = Ok (reward, db') ->
  0 <= reward < 2 ^ 63 /\ gap sym db' = gap sym db + golos_in sym reward /\ comment_votes db' = comment_votes db /\
  wso db' = wso db /\ processed_hardforks db' = processed_hardforks db.
Proof.
  intros Hf Hsy Hs Hr Hw H. destruct (claim_rshare_reward_run _ _ _ _ _ _ Hf Hs Hr Hw H) as (hf & sbd & sm & f & H'). cbv zeta in H'.
  destruct H' as (_ & _ & _ & _ & _ & _ & Hrw & Hsub%safe_sub_Ok & ->). split; [done|]. split; [|done].
  unfold gap, holdings, supply_of, fund_holdings, golos_in, in_golos. cbn. rewrite Hsub. unfold amount_in. cbn. rewrite Hsy.
  destruct (STEEM_SYMBOL =? sym); lia.
Qed.

Lemma keeps_gap_modify_dgp f : (forall p p', f p = Ok p' -> supply_of sym p' = supply_of sym p /\ fund_holdings sym p' = fund_holdings sym p) ->
  preserves keeps_gap (modify_dgp f).
Proof. intros Hf db u db' H. apply (modify_dgp_gap sym) in H as (p & Hp%Hf & _ & _ & Hg). unfold Accounts.keeps_gap. lia. Qed.
Lemma adjust_rshares2_keeps_gap k old new : preserves keeps_gap (adjust_rshares2 k old new).
Proof.
  unfold adjust_rshares2. apply preserves_bind; [apply _ | apply preserves_get_row; apply _|]. intros c.
  generalize (Z.to_nat (com_depth c)) as n. intros n. revert k. induction n as [|n IH]; intros k; cbn [adjust_rshares2_at]; keeps_gap_solve;
    apply keeps_gap_modify_dgp; by intros ? ? [= <-].
Qed.

(** A payout moves value; it neither makes nor loses any. *)
Lemma pay_comment_gap k comment db curve db' : (0 < com_net_rshares comment -> payout_ready db comment) ->
  pay_comment k comment db = Ok (curve, db') -> gap sym db' = gap sym db.
Proof.
  intros Hready H. unfold pay_comment in H. destruct (Z.gtb_spec (com_net_rshares comment) 0) as [Hpos | _]; [|by inv_run].
  destruct (Hready Hpos) as [Hf Hsy Hsh Hr Hw Hv].
  apply bind_run in H as (max & db1 & Hmax & H). assert (db1 = db) as -> by (unfold to_steem, median_price in Hmax; by inv_run).
  apply bind_run in H as (reward & db1 & Hc & H).
  destruct (claim_rshare_reward_gap _ _ _ _ _ _ Hf Hsy Hsh Hr Hw Hc) as (Hrw & Hg & E1 & E2 & E3).
  apply bind_run in H as (c & db2 & Hd & H).
  assert (gap sym db2 = gap sym db) as Hg2.
  { destruct (Z.gtb_spec reward 0) as [Hrp | Hr0].
    - rewrite (divide_reward_gap _ _ _ _ _ (votes_ready_same _ _ _ E1 E2 E3 Hv) Hrw Hd). lia.
    - assert (reward = 0) as -> by lia. apply mret_run in Hd as [_ ->]. rewrite Hg, golos_in_eq. lia. }
  clear Hd Hc. unfold calculate_vshares, has_hardfork in H. inv_run.
  match goal with H : adjust_rshares2 _ _ _ _ = _ |- _ => apply adjust_rshares2_keeps_gap in H; unfold Accounts.keeps_gap in H; by rewrite H end.
Qed.
Lemma cashout_comment_gap k db u db' :
  (forall c, rows (comments db) !! k = Some c -> 0 < com_net_rshares c -> payout_ready db c) ->
  cashout_comment_helper k db = Ok (u, db') -> gap sym db' = gap sym db.
Proof.
  intros Hready H. unfold cashout_comment_helper in H. apply bind_run in H as (c & db1 & [Hc ->]%get_row_run & H).
  apply bind_run in H as (curve & db1 & Hp & H). apply pay_comment_gap in Hp; [|by apply Hready]. rewrite <- Hp. revert H.
  match goal with |- ?m _ = _ -> _ => enough (preserves keeps_gap m) as Hm by (intros H; exact (Hm _ _ _ H)) end.
  unfold archive_votes. keeps_gap_solve.
Qed.
End Payout.

(** ** The loop over the due comments *)

(** When the comments are paid out, and the clock *)
Definition cashout_times (db : database) (k : string * string) : option Z := com_cashout_time <$> rows (comments db) !! k.
Record same_times (db db' : database) : Prop := mk_same_times {
  times_comments : forall k, cashout_times db' k = cashout_times db k;
  times_clock : dgp_time (dgp db') = dgp_time (dgp db);
  times_hardforks : processed_hardforks db' = processed_hardforks db
}.
#[export] Instance same_times_preorder : PreOrder same_times.
Proof. split; [done|]. intros x y z [] []. split; intros; congruence. Qed.
Lemma times_on_table {T : Type} (proj : database -> T) `{!FieldSetter proj} f :
  (forall db t, comments (db <| proj := t |>) = comments db /\ dgp_time (dgp (db <| proj := t |>)) = dgp_time (dgp db) /\
     processed_hardforks (db <| proj := t |>) = processed_hardforks db) -> preserves same_times (on_table proj f).
Proof. intros Hp db u db' (t & _ & ->)%on_table_run. destruct (Hp db t) as (E & ? & ?). split; [|done|done]. intros k. unfold cashout_times. by rewrite E. Qed.
Lemma times_modify_dgp f : (forall p p', f p = Ok p' -> dgp_time p' = dgp_time p) -> preserves same_times (modify_dgp f).
Proof. intros Hf db u db' (p & Hp%Hf & ->)%on_table_run. by split. Qed.
Lemma times_modify_comments k f : (forall c c', f c = Ok c' -> com_cashout_time c' = com_cashout_time c) ->
  preserves same_times (modify comments k f).
Proof.
  intros Hf db u db' (c & c' & Hc & Hc' & ->)%modify_run. apply Hf in Hc'. split; [|done|done]. intros k'. unfold cashout_times. cbn.
  destruct (decide (k' = k)) as [-> | Hne]; [rewrite lookup_insert_eq, Hc; cbn; by rewrite Hc' | by rewrite lookup_insert_ne by done].
Qed.
Lemma times_push op force : preserves same_times (push_virtual_operation op force).
Proof. by intros db u db' (n & l & ->)%push_virtual_operation_run. Qed.
#[export] Hint Resolve times_push : preserves.

Ltac times_rows :=
  match goal with
  | |- preserves _ (modify_dgp _) => apply times_modify_dgp; let p := fresh "p" in let p' := fresh "p'" in let Hp := fresh "Hp" in
      intros p p' Hp; repeat match type of Hp with (if ?c then _ else _) = Ok _ => destruct c end; inv_ok; done
  | |- preserves _ (modify comments _ _) => apply times_modify_comments; let c := fresh "c" in let c' := fresh "c'" in let Hc := fresh "Hc" in
      intros c c' Hc; inv_ok; done
  | |- preserves _ (modify _ _ _) => unfold modify at 1
  | |- preserves _ (create _ _ _) => unfold create at 1
  | |- preserves _ (remove _ _) => unfold remove at 1
  | |- preserves _ (on_table _ _) => apply times_on_table; intros ? ?; done
  end.
Ltac times_solve := repeat (preserve; try times_rows).

Section Times.
Context `{F : fc_ops}.

Lemma adjust_balance_times name delta : preserves same_times (adjust_balance name delta).
Proof. unfold adjust_balance, adjust_sbd_balance, accrue_sbd_interest, pay_interest_supply. cbv zeta. times_solve. Qed.
Lemma adjust_supply_times delta v : preserves same_times (adjust_supply delta v).
Proof. unfold adjust_supply. cbv zeta. times_solve. Qed.
Lemma adjust_proxied_times r name delta : preserves same_times (adjust_proxied_witness_votes_at r name delta).
Proof.
  revert name. induction r as [|r IH]; intros name; cbn [adjust_proxied_witness_votes_at];
    unfold adjust_witness_votes, adjust_witness_vote; cbv zeta; times_solve.
Qed.
Hint Resolve adjust_balance_times adjust_supply_times adjust_proxied_times : preserves.
Lemma create_vesting_times name steem : preserves same_times (create_vesting name steem).
Proof. unfold create_vesting, adjust_proxied_witness_votes. cbv zeta. times_solve. Qed.
Lemma create_sbd_times name steem : preserves same_times (create_sbd name steem).
Proof. unfold create_sbd. cbv zeta. times_solve. Qed.
Hint Resolve create_vesting_times create_sbd_times : preserves.
Lemma adjust_rshares2_times k old new : preserves same_times (adjust_rshares2 k old new).
Proof.
  unfold adjust_rshares2. apply preserves_bind; [apply _ | auto with preserves|]. intros c.
  generalize (Z.to_nat (com_depth c)) as n. intros n. revert k. induction n as [|n IH]; intros k; cbn [adjust_rshares2_at]; times_solve.
Qed.
Lemma pay_curator_times cvo claim author permlink : preserves same_times (pay_curator cvo claim author permlink).
Proof. unfold pay_curator, pay_delegators, pay_delegator. cbv zeta. times_solve. Qed.
Hint Resolve adjust_rshares2_times pay_curator_times : preserves.
Lemma pay_votes_times comment c max r l s : preserves same_times (pay_votes comment c max r l s).
Proof. revert s. induction l as [|v l IH]; intros s; cbn [pay_votes]; times_solve. Qed.
Hint Resolve pay_votes_times : preserves.
Lemma divide_reward_times comment reward : preserves same_times (divide_reward comment reward).
Proof.
  unfold divide_reward, pay_curators, share_among_votes, return_to_fund, curation_info, detect_curation_curve, pay_beneficiary, pay_author, to_sbd.
  cbv zeta. times_solve.
Qed.
Hint Resolve divide_reward_times : preserves.
Lemma pay_comment_times k comment : preserves same_times (pay_comment k comment).
Proof. unfold pay_comment, claim_rshare_reward, calculate_vshares, to_steem, to_sbd. cbv zeta. times_solve. Qed.
End Times.

Section Settled.
Context `{F : fc_ops} {L : fc_laws F}.
Hint Resolve pay_comment_times : preserves.

(** A payout since hardfork 0.17 is the last of the comment. *)
Lemma cashout_comment_done k db u db' :
  (STEEMIT_HARDFORK_0_17__431 < length (processed_hardforks db))%nat -> cashout_comment_helper k db = Ok (u, db') ->
  (forall k', cashout_times db' k' = if decide (k' = k) then Some time_point_sec_maximum else cashout_times db k') /\
  dgp_time (dgp db') = dgp_time (dgp db) /\ processed_hardforks db' = processed_hardforks db.
Proof.
  intros Hhf H. unfold cashout_comment_helper in H. apply bind_run in H as (c & db1 & [Hc ->]%get_row_run & H).
  apply bind_run in H as (curve & db1 & [Hp1 Hp2 Hp3]%pay_comment_times & H).
  apply bind_run in H as (hf17 & db2 & Hhf17 & H). apply gets_run in Hhf17 as [-> ->]. rewrite Hp3 in *.
  replace (_ <? _)%nat with true in H by (symmetry; by apply Nat.ltb_lt).
  apply bind_run in H as (now & db2 & Hnow & H). unfold head_block_time in Hnow. apply gets_run in Hnow as [-> ->].
  apply bind_run in H as (rp & db2 & Hrp & H). cbn [orb] in Hrp. apply mret_run in Hrp as [-> ->].
  apply bind_run in H as ([] & db2 & (c1 & c2 & Hc1 & [= <-] & ->)%modify_run & H). revert H.
  match goal with |- ?m ?d = _ -> _ => assert (preserves same_times m) as Hm by (unfold archive_votes; times_solve) end.
  intros H. destruct (Hm _ _ _ H) as [E1 E2 E3]. split; [|split; [by rewrite E2 | by rewrite E3]].
  intros k'. rewrite E1. unfold cashout_times. cbn. destruct (decide (k' = k)) as [-> | Hne].
  - rewrite lookup_insert_eq. cbn. unfold close_payout. by repeat case_match.
  - rewrite lookup_insert_ne by done. apply Hp1.
Qed.

(** The comments that are due *)
Definition due_keys (now : Z) (db : database) : gset (string * string) :=
  dom (filter (fun kc => cashout_due now (snd kc) = true) (rows (comments db))).
Lemma elem_of_due_keys now db k : k ∈ due_keys now db <-> exists t, cashout_times db k = Some t /\ t <= now.
Proof.
  unfold due_keys. rewrite elem_of_dom. split.
  - intros [c [Hc Hd]%map_lookup_filter_Some]. exists (com_cashout_time c). unfold cashout_times. rewrite Hc. cbn in *.
    unfold cashout_due in Hd. by apply Z.leb_le in Hd.
  - intros (t & Ht & Hle). unfold cashout_times in Ht. apply fmap_Some in Ht as (c & Hc & ->). exists c.
    apply map_lookup_filter_Some. split; [done|]. cbn. by apply Z.leb_le.
Qed.

End Settled.
