(* ===== verification/Discussions.v ===== *)
(** * What the handling of comments preserves

    The evaluators of comments and votes change comments, votes, bandwidths, the counters
    and capacities of accounts and the total of reward shares; a payout moreover creates
    vesting shares and GBG, moves the reward fund and counts rewards.  A relation that all
    these changes preserve is preserved by the evaluators and by payouts: the classes
    [discussing] and [paying] say which changes, and each invariant of the development
    provides an instance. *)

From S2P Require Import Prelude Exceptions Text Fc Config Asset FlatMap Authority Operations Objects Database Conservation Preserve Delegation Accounts Curation Comments Cashout.

(** An account without what posting and voting change *)
Definition blank_account (a : account_object) : account_object :=
  a <| account_posts_capacity := 0 |> <| account_comments_capacity := 0 |> <| account_voting_capacity := 0 |>
    <| account_voting_power := 0 |> <| account_last_vote_time := 0 |> <| account_last_post := 0 |>
    <| account_post_count := 0 |> <| account_comment_count := 0 |>
    <| account_referrer_account := "" |> <| account_referrer_interest_rate := 0 |> <| account_referral_end_date := 0 |>
    <| account_referral_break_fee ::= (fun f => mk_asset 0 (symbol f)) |>.
Definition active_change (a a' : account_object) : Prop := blank_account a' = blank_account a.

(** ... and without what rewards change *)
Definition unrewarded (a : account_object) : account_object :=
  a <| account_delegation_rewards := 0 |> <| account_curation_rewards := 0 |> <| account_benefaction_rewards := 0 |>
    <| account_posting_rewards := 0 |>
    <| account_delegated_vesting_shares ::= (fun v => mk_asset 0 (symbol v)) |>
    <| account_received_vesting_shares ::= (fun v => mk_asset 0 (symbol v)) |>.
Definition reward_change (a a' : account_object) : Prop := unrewarded a' = unrewarded a.

Class discussing (R : relation database) : Prop := {
  discussing_preorder :: PreOrder R;
  discussing_account k f : (forall a a', f a = Ok a' -> active_change a a') -> preserves R (modify accounts k f);
  discussing_comments f : preserves R (on_table comments f);
  discussing_votes f : preserves R (on_table comment_votes f);
  discussing_bandwidths f : preserves R (on_table account_bandwidths f);
  discussing_shares f : preserves R (modify_dgp (fun p => Ok (p <| dgp_total_reward_shares2 ::= f |>)))
}.

Class paying `{F : fc_ops} (R : relation database) : Prop := {
  paying_discussing :: discussing R;
  paying_reward k f : (forall a a', f a = Ok a' -> reward_change a a') -> preserves R (modify accounts k f);
  paying_vesting name steem : preserves R (create_vesting name steem);
  paying_sbd name steem : preserves R (create_sbd name steem);
  paying_delegation k f : (forall d d', f d = Ok d' -> d' = d <| delegation_vesting_shares ::= (fun v => mk_asset (amount (delegation_vesting_shares d')) (symbol v)) |>) ->
    preserves R (modify delegations k f);
  paying_fund f : (forall p p', f p = Ok p' -> exists n, p' = p <| dgp_total_reward_fund_steem ::= (fun v => mk_asset n (symbol v)) |>) ->
    preserves R (modify_dgp f);
  paying_operation op force : preserves R (push_virtual_operation op force)
}.

Ltac discussing_rows :=
  match goal with
  | |- preserves _ (modify accounts _ _) =>
      apply discussing_account; let a := fresh "a" in let a' := fresh "a'" in let Ha := fresh "Ha" in
      intros a a' Ha; cbv zeta in Ha; inv_ok; repeat case_match; reflexivity
  | |- preserves _ (modify_dgp _) => apply discussing_shares
  | |- preserves _ (modify _ _ _) => unfold modify at 1
  | |- preserves _ (create _ _ _) => unfold create at 1
  | |- preserves _ (remove _ _) => unfold remove at 1
  | |- preserves _ (on_table comments _) => apply discussing_comments
  | |- preserves _ (on_table comment_votes _) => apply discussing_votes
  | |- preserves _ (on_table account_bandwidths _) => apply discussing_bandwidths
  end.
Ltac discussing_solve := repeat (preserve; try discussing_rows).

Section Discussing.
Context `{F : fc_ops} (R : relation database) `{HR : !discussing R}.

Lemma for_ancestors_preserves n f k : preserves R (for_ancestors n f k).
Proof. revert k. induction n as [|n IH]; intros k; cbn [for_ancestors]; discussing_solve. Qed.
Hint Resolve for_ancestors_preserves : preserves.
Lemma adjust_rshares2_preserves k old new : preserves R (adjust_rshares2 k old new).
Proof.
  unfold adjust_rshares2. apply preserves_bind; [apply _ | auto with preserves|]. intros c.
  generalize (Z.to_nat (com_depth c)) as n. intros n. revert k. induction n as [|n IH]; intros k; cbn [adjust_rshares2_at]; discussing_solve.
Qed.
Hint Resolve adjust_rshares2_preserves : preserves.

Lemma comment_evaluator_preserves o : preserves R (comment_evaluator o).
Proof.
  unfold comment_evaluator, create_comment, count_at_ancestors, calc_reward_weight, calculate_reward_weight, comment_bandwidth_hf19,
    parent_of_new, max_comment_depth, check_not_challenged, median_props.
  cbv zeta. discussing_solve.
Qed.
Lemma delete_comment_preserves o : preserves R (delete_comment_evaluator o).
Proof. unfold delete_comment_evaluator, check_not_challenged, count_at_ancestors. cbv zeta. discussing_solve. Qed.
Lemma comment_options_preserves o : preserves R (comment_options_evaluator o).
Proof.
  unfold comment_options_evaluator, apply_options_extension, set_beneficiaries, set_auction_destination, set_curation_percent,
    check_not_challenged, median_props. cbv zeta. discussing_solve.
Qed.
Lemma vote_evaluator_preserves o : preserves R (vote_evaluator o).
Proof.
  unfold vote_evaluator, late_vote, first_vote, change_vote, use_voting_capacity, weigh_vote, check_lockout, spend_power, average_cashout_sec,
    touch_root, vote_interest_rates, create_vote, vote_auction_time, calculate_discussion_payout_time, calculate_vshares, check_not_challenged, median_props.
  cbv zeta. discussing_solve.
Qed.
End Discussing.
#[export] Hint Extern 2 (preserves _ (adjust_rshares2 _ _ _)) => apply adjust_rshares2_preserves; apply _ : preserves.
#[export] Hint Extern 2 (preserves _ (comment_evaluator _)) => apply comment_evaluator_preserves; apply _ : preserves.
#[export] Hint Extern 2 (preserves _ (delete_comment_evaluator _)) => apply delete_comment_preserves; apply _ : preserves.
#[export] Hint Extern 2 (preserves _ (comment_options_evaluator _)) => apply comment_options_preserves; apply _ : preserves.
#[export] Hint Extern 2 (preserves _ (vote_evaluator _)) => apply vote_evaluator_preserves; apply _ : preserves.

Lemma asset_add_reset `{F : fc_ops} a b c : asset_add a b = Ok c -> c = mk_asset (amount c) (symbol a).
Proof. unfold asset_add. intros H. by inv_ok. Qed.

Ltac paying_rows :=
  match goal with
  | |- preserves _ (modify accounts _ _) =>
      apply paying_reward; let a := fresh "a" in let a' := fresh "a'" in let Ha := fresh "Ha" in
      intros a a' Ha; inv_ok; repeat match goal with H : asset_add _ _ = Ok _ |- _ => apply asset_add_reset in H; rewrite H; clear H end; reflexivity
  | |- preserves _ (modify delegations _ _) =>
      apply paying_delegation; let d := fresh "d" in let d' := fresh "d'" in let Hd := fresh "Hd" in
      intros d d' Hd; inv_ok; match goal with H : asset_add _ _ = Ok _ |- _ => apply asset_add_reset in H; rewrite H end; reflexivity
  | |- preserves _ (modify_dgp _) =>
      apply paying_fund; let p := fresh "p" in let p' := fresh "p'" in let Hp := fresh "Hp" in
      intros p p' Hp; inv_ok; repeat match goal with H : asset_add _ _ = Ok _ |- _ => apply asset_add_reset in H; rewrite H; clear H end; eexists; reflexivity
  | |- preserves _ (create_vesting _ _) => apply paying_vesting
  | |- preserves _ (create_sbd _ _) => apply paying_sbd
  | |- preserves _ (push_virtual_operation _ _) => apply paying_operation
  end.
Ltac paying_solve := repeat (preserve; first [paying_rows | discussing_rows | idtac]).

Section Paying.
Context `{F : fc_ops} (R : relation database) `{HR : !paying R}.

Lemma pay_curator_preserves cvo claim author permlink : preserves R (pay_curator cvo claim author permlink).
Proof. unfold pay_curator, pay_delegators, pay_delegator. cbv zeta. paying_solve. Qed.
Hint Resolve pay_curator_preserves : preserves.
Lemma pay_votes_preserves comment c max r l s : preserves R (pay_votes comment c max r l s).
Proof. revert s. induction l as [|v l IH]; intros s; cbn [pay_votes]; paying_solve. Qed.
Hint Resolve pay_votes_preserves : preserves.
Lemma divide_reward_preserves comment reward : preserves R (divide_reward comment reward).
Proof.
  unfold divide_reward, pay_curators, share_among_votes, return_to_fund, curation_info, detect_curation_curve, pay_beneficiary, pay_author, to_sbd.
  cbv zeta. paying_solve.
Qed.
Hint Resolve divide_reward_preserves : preserves.
Lemma cashout_comment_preserves k : preserves R (cashout_comment_helper k).
Proof.
  unfold cashout_comment_helper, archive_votes, pay_comment, claim_rshare_reward, calculate_vshares, to_steem, to_sbd. cbv zeta. paying_solve.
Qed.
Hint Resolve cashout_comment_preserves : preserves.
Lemma process_comment_cashout_preserves : preserves R process_comment_cashout.
Proof. unfold process_comment_cashout, cashout_current. cbv zeta. paying_solve. Qed.
End Paying.
