(* ===== verification/Hardforks.v ===== *)
(** * Hardforks

    [process_hardforks] and [apply_hardfork] of [chain/database.cpp], with what each
    hardfork does to the state: the split of vesting shares, the retallies of witness votes
    and of comments, and the payout times of hardforks 12 and 17.  The times of the
    hardforks are those of [chain/hardfork.d]. *)

From S2P Require Import Prelude Exceptions Text Fc Config Asset FlatMap Authority Version Operations Crypto Validate Objects Database Conservation Sample Market Preserve Schedule Accounts Curation Comments Cashout Hardfork16.

(** ** The table of hardforks *)

Definition STEEMIT_NUM_HARDFORKS : Z := 21.
Definition STEEMIT_BLOCKCHAIN_VERSION : Z := version 0 21 0.
Definition STEEMIT_BLOCKCHAIN_HARDFORK_VERSION : Z := hardfork_of_version STEEMIT_BLOCKCHAIN_VERSION.

Definition STEEMIT_HARDFORK_0_1_TIME : Z := 1476788420.
Definition STEEMIT_HARDFORK_0_2_TIME : Z := 1476788440.
Definition STEEMIT_HARDFORK_0_3_TIME : Z := 1476788460.
Definition STEEMIT_HARDFORK_0_4_TIME : Z := 1476788480.
Definition STEEMIT_HARDFORK_0_5_TIME : Z := 1476788500.
Definition STEEMIT_HARDFORK_0_6_TIME : Z := 1476788520.
Definition STEEMIT_HARDFORK_0_7_TIME : Z := 1476788540.
Definition STEEMIT_HARDFORK_0_8_TIME : Z := 1476788560.
Definition STEEMIT_HARDFORK_0_9_TIME : Z := 1476788580.
Definition STEEMIT_HARDFORK_0_10_TIME : Z := 1476788600.
Definition STEEMIT_HARDFORK_0_11_TIME : Z := 1476788620.
Definition STEEMIT_HARDFORK_0_12_TIME : Z := 1476788640.
Definition STEEMIT_HARDFORK_0_13_TIME : Z := 1476788660.
Definition STEEMIT_HARDFORK_0_14_TIME : Z := 1476788680.
Definition STEEMIT_HARDFORK_0_15_TIME : Z := 1488369000.
Definition STEEMIT_HARDFORK_0_16_TIME : Z := 1488369600.
Definition STEEMIT_HARDFORK_0_17_TIME : Z := 1522832400.
Definition STEEMIT_HARDFORK_0_18_TIME : Z := 1529485200.
Definition STEEMIT_HARDFORK_0_19_TIME : Z := 1544778000.
Definition STEEMIT_HARDFORK_0_20_TIME : Z := 1547787600.
Definition STEEMIT_HARDFORK_0_21_TIME : Z := 1565859600.

(** [_hardfork_times] and [_hardfork_versions], as [init_hardforks] fills them *)
Definition hardfork_times : list Z :=
  [STEEMIT_GENESIS_TIME;
   STEEMIT_HARDFORK_0_1_TIME; STEEMIT_HARDFORK_0_2_TIME; STEEMIT_HARDFORK_0_3_TIME; STEEMIT_HARDFORK_0_4_TIME;
   STEEMIT_HARDFORK_0_5_TIME; STEEMIT_HARDFORK_0_6_TIME; STEEMIT_HARDFORK_0_7_TIME; STEEMIT_HARDFORK_0_8_TIME;
   STEEMIT_HARDFORK_0_9_TIME; STEEMIT_HARDFORK_0_10_TIME; STEEMIT_HARDFORK_0_11_TIME; STEEMIT_HARDFORK_0_12_TIME;
   STEEMIT_HARDFORK_0_13_TIME; STEEMIT_HARDFORK_0_14_TIME; STEEMIT_HARDFORK_0_15_TIME; STEEMIT_HARDFORK_0_16_TIME;
   STEEMIT_HARDFORK_0_17_TIME; STEEMIT_HARDFORK_0_18_TIME; STEEMIT_HARDFORK_0_19_TIME; STEEMIT_HARDFORK_0_20_TIME;
   STEEMIT_HARDFORK_0_21_TIME].
Definition hardfork_versions : list Z :=
  [hardfork_version 0 0;
   hardfork_version 0 1; hardfork_version 0 2; hardfork_version 0 3; hardfork_version 0 4;
   hardfork_version 0 5; hardfork_version 0 6; hardfork_version 0 7; hardfork_version 0 8;
   hardfork_version 0 9; hardfork_version 0 10; hardfork_version 0 11; hardfork_version 0 12;
   hardfork_version 0 13; hardfork_version 0 14; hardfork_version 0 15; hardfork_version 0 16;
   hardfork_version 0 17; hardfork_version 0 18; hardfork_version 0 19; hardfork_version 0 20;
   hardfork_version 0 21].
Definition time_of_hardfork (hardfork : Z) : Z := nth (Z.to_nat hardfork) hardfork_times 0.
Definition version_of_hardfork (hardfork : Z) : Z := nth (Z.to_nat hardfork) hardfork_versions 0.

Section Hardforks.
Context `{F : fc_ops}.

(** The end of [init_hardforks]: the chain is not newer than the program. *)
Definition check_hardforks : M unit :=
  hpo ← gets hardforks;
  lift (fc_assert (hpo_last_hardfork hpo <=? STEEMIT_NUM_HARDFORKS)) ;;
  lift (fc_assert (version_of_hardfork (hpo_last_hardfork hpo) <=? hardfork_of_version STEEMIT_BLOCKCHAIN_VERSION)) ;;
  lift (fc_assert (STEEMIT_BLOCKCHAIN_HARDFORK_VERSION =? version_of_hardfork STEEMIT_NUM_HARDFORKS)).

(** The keys of a table in the order of the ids *)
Definition keys_by_id {K V : Type} `{Countable K} (id : V -> Z) (t : table K V) : list K :=
  fst <$> sort_by (fun x y => id (snd x) <=? id (snd y)) (map_to_list (rows t)).

(** ** [perform_vesting_share_split] *)

Fixpoint scale_all (magnitude : Z) (l : list Z) : result (list Z) :=
  match l with
  | [] => Ok []
  | x :: l' => n ← safe_mul x magnitude; l'' ← scale_all magnitude l'; Ok (n :: l'')
  end.
Definition split_account (magnitude : Z) (a : account_object) : result account_object :=
  v ← safe_mul (amount (account_vesting_shares a)) magnitude;
  w ← safe_mul (account_withdrawn a) magnitude;
  t ← safe_mul (account_to_withdraw a) magnitude;
  r ← safe_div t STEEMIT_VESTING_WITHDRAW_INTERVALS_PRE_HF_16;
  p ← scale_all magnitude (account_proxied_vsf_votes a);
  Ok (a <| account_vesting_shares ::= (fun x => mk_asset v (symbol x)) |> <| account_withdrawn := w |> <| account_to_withdraw := t |>
        <| account_vesting_withdraw_rate := mk_asset (if r =? 0 then 1 else r) VESTS_SYMBOL |>
        <| account_proxied_vsf_votes := p |>).
Definition split_comment (magnitude : Z) (c : comment_object) : result comment_object :=
  n ← safe_mul (com_net_rshares c) magnitude;
  a ← safe_mul (com_abs_rshares c) magnitude;
  v ← safe_mul (com_vote_rshares c) magnitude;
  Ok (c <| com_net_rshares := n |> <| com_abs_rshares := a |> <| com_vote_rshares := v |> <| com_children_rshares2 := 0 |>).
Definition reshare_comment (k : string * string) : M unit :=
  c ← get_comment k;
  when (com_net_rshares c >? 0)
    (new ← calculate_vshares (u128_of_int64 (com_net_rshares c)); adjust_rshares2 k 0 new).
Definition perform_vesting_share_split (magnitude : Z) : M unit :=
  modify_dgp (fun d =>
    n ← safe_mul (amount (dgp_total_vesting_shares d)) magnitude;
    Ok (d <| dgp_total_vesting_shares ::= (fun x => mk_asset n (symbol x)) |> <| dgp_total_reward_shares2 := 0 |>)) ;;
  names ← gets (fun db => keys_by_id account_id (accounts db));
  for_each (fun name => modify accounts name (split_account magnitude)) names ;;
  keys ← gets (fun db => keys_by_id com_id (comments db));
  for_each (fun k => modify comments k (split_comment magnitude)) keys ;;
  for_each reshare_comment keys.

(** ** The retallies *)

Definition clear_children (c : comment_object) : comment_object := c <| com_children := 0 |>.
Definition count_comment (k : string * string) : M unit :=
  c ← get_comment k;
  when (negb (is_root_post c)) (count_at_ancestors 1 (parent_key c)).
Definition retally_comment_children : M unit :=
  keys ← gets (fun db => keys_by_id com_id (comments db));
  for_each (fun k => modify comments k (fun c => Ok (clear_children c))) keys ;;
  for_each count_comment keys.

Definition clear_votes (w : witness_object) : witness_object := w <| witness_votes := 0 |> <| witness_virtual_position := 0 |>.
Definition cast_votes (name : string) : M unit :=
  a ← get_account name;
  when (String.eqb (account_proxy a) STEEMIT_PROXY_TO_SELF_ACCOUNT)
    (votes ← gets (votes_of (account_id a));
     for_each (fun v =>
       owner ← get_witness_by_id (witness_vote_witness v);
       weight ← lift (witness_vote_weight a);
       adjust_witness_vote owner weight) votes).
Definition retally_witness_votes : M unit :=
  owners ← gets (fun db => keys_by_id witness_id (witnesses db));
  for_each (fun o => modify witnesses o (fun w => Ok (clear_votes w))) owners ;;
  names ← gets (fun db => keys_by_id account_id (accounts db));
  for_each cast_votes names.

Definition count_witness_votes (force : bool) (name : string) : M unit :=
  a ← get_account name;
  n ← (if force || negb (String.eqb (account_proxy a) STEEMIT_PROXY_TO_SELF_ACCOUNT)
       then votes ← gets (votes_of (account_id a)); mret (to_uint16_wrap (Z.of_nat (length votes)))
       else mret 0);
  when (negb (account_witnesses_voted_for a =? n))
    (modify accounts name (fun account => Ok (account <| account_witnesses_voted_for := n |>))).
Definition retally_witness_vote_counts (force : bool) : M unit :=
  names ← gets (fun db => keys_by_id account_id (accounts db));
  for_each (count_witness_votes force) names.

Definition retally_liquidity_weight : M unit :=
  owners ← gets (fun db => keys_by_id liquidity_owner (liquidity_balances db));
  for_each (fun k => modify liquidity_balances k (fun o => Ok (update_weight true o))) owners.

(** ** Hardfork 12 *)

Definition set_cashout_hf12 (now : Z) (c : comment_object) : comment_object :=
  if is_root_post c then
    if (com_last_payout c =? 0) && (com_cashout_time c =? time_point_sec_maximum) then
      c <| com_cashout_time := time_add now STEEMIT_CASHOUT_WINDOW_SECONDS_PRE_HF17 |> <| com_mode := first_payout |>
    else if com_last_payout c >? 0 then
      c <| com_cashout_time := time_add (com_last_payout c) STEEMIT_SECOND_CASHOUT_WINDOW |> <| com_mode := second_payout |>
    else c
  else c.
Definition close_posting (name : string) : M unit :=
  check_authority_exists name ;;
  modify authorities name (fun auth => Ok (auth <| auth_posting := authority_default <| weight_threshold := 1 |> |>)).
Definition apply_hardfork_12 : M unit :=
  keys ← gets (fun db => keys_by_id com_id (comments db));
  now ← head_block_time;
  for_each (fun k => modify comments k (fun c => Ok (set_cashout_hf12 now c))) keys ;;
  close_posting STEEMIT_MINER_ACCOUNT ;;
  close_posting STEEMIT_NULL_ACCOUNT ;;
  close_posting STEEMIT_TEMP_ACCOUNT.

(** ** Hardfork 16

    [recovery_key] is the public key that the source writes in base 58. *)
Fixpoint pop_front_until (window : Z) (l : list price) : list price :=
  match l with
  | [] => []
  | _ :: l' => if window <? Z.of_nat (length l) then pop_front_until window l' else l
  end.
Definition authority_of_key (key : Z) : authority := mk_authority 1 [] [(key, 1)].
Definition replace_keys (recovery_key : Z) (name : string) : M unit :=
  account ← find_row accounts name;
  match account with
  | None => mret tt
  | Some a =>
      update_owner_authority (account_name a) (authority_of_key recovery_key) ;;
      check_authority_exists (account_name a) ;;
      modify authorities (account_name a) (fun auth =>
        Ok (auth <| auth_active := authority_of_key recovery_key |> <| auth_posting := authority_of_key recovery_key |>))
  end.
Definition apply_hardfork_16 (recovery_key : Z) : M unit :=
  on_table feed_history (fun fho => Ok (fho <| feed_price_history ::= pop_front_until STEEMIT_FEED_HISTORY_WINDOW |>)) ;;
  for_each (replace_keys recovery_key) get_compromised_accounts.

(** ** Hardfork 17 *)

(** The posts that wait for a payout, in the order of index [by_cashout_time] *)
Fixpoint before_maximum (l : list comment_object) : list Z :=
  match l with
  | [] => []
  | c :: l' => if com_cashout_time c =? time_point_sec_maximum then [] else com_id c :: before_maximum l'
  end.
Definition waiting_posts (db : database) : list Z :=
  before_maximum (sort_by (fun x y => match by_cashout_time x y with Gt => false | _ => true end) (map_to_list (rows (comments db))).*2).
Definition set_cashout_hf17 (max_cashout_time : Z) (c : comment_object) : comment_object :=
  c <| com_cashout_time := Z.max (time_add (com_created c) STEEMIT_CASHOUT_WINDOW_SECONDS) max_cashout_time |>.
Definition reweigh_comment (max_cashout_time : Z) (k : string * string) : M unit :=
  modify comments k (fun c => Ok (set_cashout_hf17 max_cashout_time c)) ;;
  c ← get_comment k;
  when (com_net_rshares c >? 0)
    (let n := u128_of_int64 (com_net_rshares c) in
     adjust_rshares2 k (calculate_vshares_quadratic n get_content_constant_s) n).
Definition apply_hardfork_17 : M unit :=
  max_cashout_time ← head_block_time;
  root_posts ← gets waiting_posts;
  for_each (fun id => keys ← gets (discussion id); for_each (reweigh_comment max_cashout_time) keys) root_posts.

(** ** [apply_hardfork] *)

Variable recovery_key : Z.

Definition hardfork_changes (hardfork : Z) : M unit :=
  match hardfork with
  | 1 => perform_vesting_share_split 10000
  | 2 => retally_witness_votes
  | 3 => retally_witness_votes
  | 4 => reset_virtual_schedule_time
  | 6 => retally_witness_vote_counts false ;; retally_comment_children
  | 8 => retally_witness_vote_counts true
  | 10 => retally_liquidity_weight
  | 12 => apply_hardfork_12
  | 16 => apply_hardfork_16 recovery_key
  | 17 => apply_hardfork_17
  | _ => mret tt
  end.
Definition record_hardfork (hardfork : Z) : M unit :=
  on_table hardforks (fun hfp =>
    fc_assert (hardfork =? to_uint32_wrap (hpo_last_hardfork hfp + 1)) ;;
    fc_assert (Z.of_nat (length (hpo_processed_hardforks hfp)) =? hardfork) ;;
    let hfp := hfp <| hpo_processed_hardforks ::= (fun l => l ++ [time_of_hardfork hardfork]) |>
                   <| hpo_last_hardfork := hardfork |>
                   <| hpo_current_hardfork_version := hardfork_of_version (version_of_hardfork hardfork) |> in
    fc_assert (nth (Z.to_nat (hpo_last_hardfork hfp)) (hpo_processed_hardforks hfp) 0 =? time_of_hardfork (hpo_last_hardfork hfp)) ;;
    Ok hfp).
Definition apply_hardfork (hardfork : Z) : M unit :=
  hardfork_changes hardfork ;;
  record_hardfork hardfork ;;
  push_virtual_operation (op_hardfork (mk_hardfork hardfork)) true.

(** ** [process_hardforks]

    Each turn of a loop applies a hardfork, or throws: as many turns as there are hardforks
    are enough, and one more to see that nothing is left. *)
Definition next_is_due (db : database) : bool :=
  (version_of_hardfork (hpo_last_hardfork (hardforks db)) <? hpo_next_hardfork (hardforks db)) &&
  (hpo_next_hardfork_time (hardforks db) <=? dgp_time (dgp db)).
Fixpoint apply_voted (fuel : nat) : M unit :=
  match fuel with
  | O => mret tt
  | S n =>
      due ← gets next_is_due;
      last ← gets (fun db => hpo_last_hardfork (hardforks db));
      if (due : bool) then
        if last <? STEEMIT_NUM_HARDFORKS then apply_hardfork (last + 1) ;; apply_voted n
        else throw unknown_hardfork_exception
      else mret tt
  end.
Definition first_is_due (db : database) : bool :=
  let last := hpo_last_hardfork (hardforks db) in
  (last <? STEEMIT_NUM_HARDFORKS) && (time_of_hardfork (last + 1) <=? dgp_time (dgp db)) &&
  (last <? Z.of_nat STEEMIT_HARDFORK_0_5__54).
Fixpoint apply_timed (fuel : nat) : M unit :=
  match fuel with
  | O => mret tt
  | S n =>
      due ← gets first_is_due;
      last ← gets (fun db => hpo_last_hardfork (hardforks db));
      when due (apply_hardfork (last + 1) ;; apply_timed n)
  end.
Definition process_hardforks : M unit :=
  hf5 ← has_hardfork STEEMIT_HARDFORK_0_5__54;
  if (hf5 : bool) then apply_voted (Z.to_nat (STEEMIT_NUM_HARDFORKS + 1)) else apply_timed (Z.to_nat (STEEMIT_NUM_HARDFORKS + 1)).
End Hardforks.

(** ** What a hardfork leaves alone *)

Record same_record (db db' : database) : Prop := mk_same_record {
  record_hardforks : hardforks db' = hardforks db;
  record_time : dgp_time (dgp db') = dgp_time (dgp db);
  record_head_number : dgp_head_block_number (dgp db') = dgp_head_block_number (dgp db);
  record_head_id : dgp_head_block_id (dgp db') = dgp_head_block_id (dgp db);
  record_irreversible : dgp_last_irreversible_block_num (dgp db') = dgp_last_irreversible_block_num (dgp db);
  record_notifications : notifications db' = notifications db
}.
#[export] Instance same_record_preorder : PreOrder same_record.
Proof. split; [by split|]. intros x y z [] []. split; congruence. Qed.

Lemma record_on_table {T : Type} (proj : database -> T) `{!FieldSetter proj} f :
  (forall db t, same_record db (db <| proj := t |>)) -> preserves same_record (on_table proj f).
Proof. intros Hp db u db' (t & _ & ->)%on_table_run. apply Hp. Qed.
Lemma record_modify_dgp f : 
  (forall p p', f p = Ok p' -> dgp_time p' = dgp_time p /\ dgp_head_block_number p' = dgp_head_block_number p /\
     dgp_head_block_id p' = dgp_head_block_id p /\ dgp_last_irreversible_block_num p' = dgp_last_irreversible_block_num p) ->
  preserves same_record (modify_dgp f).
Proof. intros Hf db u db' (p & (? & ? & ? & ?)%Hf & ->)%on_table_run. by split. Qed.

Ltac record_rows :=
  match goal with
  | |- preserves _ (modify_dgp _) => apply record_modify_dgp; intros ? ? ?; inv_ok; by split_and!
  | |- preserves _ (modify _ _ _) => unfold modify at 1
  | |- preserves _ (create _ _ _) => unfold create at 1
  | |- preserves _ (remove _ _) => unfold remove at 1
  | |- preserves _ (on_table _ _) => apply record_on_table; intros ? ?; by split
  end.
Ltac record_solve := repeat (preserve; try record_rows).

Section Record.
Context `{F : fc_ops}.
Variable recovery_key : Z.

Lemma adjust_rshares2_at_record n k old new : preserves same_record (adjust_rshares2_at n k old new).
Proof. revert k. induction n as [|n IH]; intros k; cbn [adjust_rshares2_at]; unfold get_comment; record_solve. Qed.
Lemma for_ancestors_record n f k : preserves same_record (for_ancestors n f k).
Proof. revert k. induction n as [|n IH]; intros k; cbn [for_ancestors]; unfold get_comment; record_solve. Qed.
Hint Resolve adjust_rshares2_at_record for_ancestors_record : preserves.
Lemma vesting_split_record m : preserves same_record (perform_vesting_share_split m).
Proof. unfold perform_vesting_share_split, reshare_comment, adjust_rshares2, calculate_vshares, get_comment. record_solve. Qed.
Lemma retally_children_record : preserves same_record retally_comment_children.
Proof. unfold retally_comment_children, count_comment, count_at_ancestors, get_comment. record_solve. Qed.
Lemma retally_votes_record : preserves same_record retally_witness_votes.
Proof. unfold retally_witness_votes, cast_votes, adjust_witness_vote. cbv zeta. record_solve. Qed.
Lemma retally_counts_record force : preserves same_record (retally_witness_vote_counts force).
Proof. unfold retally_witness_vote_counts, count_witness_votes. record_solve. Qed.
Lemma apply_12_record : preserves same_record apply_hardfork_12.
Proof. unfold apply_hardfork_12, close_posting, check_authority_exists. record_solve. Qed.
Lemma apply_16_record : preserves same_record (apply_hardfork_16 recovery_key).
Proof. unfold apply_hardfork_16, replace_keys, update_owner_authority, check_authority_exists. cbv zeta. record_solve. Qed.
Lemma apply_17_record : preserves same_record apply_hardfork_17.
Proof. unfold apply_hardfork_17, reweigh_comment, adjust_rshares2, get_comment. cbv zeta. record_solve. Qed.
Hint Resolve vesting_split_record retally_children_record retally_votes_record retally_counts_record apply_12_record apply_16_record apply_17_record : preserves.
Lemma hardfork_changes_record h : preserves same_record (hardfork_changes recovery_key h).
Proof.
  unfold hardfork_changes, reset_virtual_schedule_time, retally_liquidity_weight.
  destruct h as [|p|p]; try (preserve; fail). repeat (destruct p as [p|p|]; try solve [record_solve]).
Qed.
End Record.

(** ** Hardforks in order *)

(** The record of hardforks is a beginning of the table. *)
Record in_order (db : database) : Prop := mk_in_order {
  order_last : 0 <= hpo_last_hardfork (hardforks db) <= STEEMIT_NUM_HARDFORKS;
  order_processed : processed_hardforks db = take (S (Z.to_nat (hpo_last_hardfork (hardforks db)))) hardfork_times;
  order_version : hpo_current_hardfork_version (hardforks db) = version_of_hardfork (hpo_last_hardfork (hardforks db))
}.
(** What [process_hardforks] changes in the record: hardforks [last db + 1] to [last db']
    are appended, and announced one by one. *)
Definition last_hardfork (db : database) : Z := hpo_last_hardfork (hardforks db).
Definition announced (from to : Z) : list operation :=
  (fun h => op_hardfork (mk_hardfork h)) <$> seqZ (from + 1) (to - from).
Record advanced (db db' : database) : Prop := mk_advanced {
  advanced_order : in_order db -> in_order db';
  advanced_last : last_hardfork db <= last_hardfork db';
  advanced_next : hpo_next_hardfork (hardforks db') = hpo_next_hardfork (hardforks db) /\
    hpo_next_hardfork_time (hardforks db') = hpo_next_hardfork_time (hardforks db);
  advanced_time : dgp_time (dgp db') = dgp_time (dgp db);
  advanced_notifications : (notifications db').*1 = (notifications db).*1 ++ announced (last_hardfork db) (last_hardfork db')
}.
#[export] Instance advanced_preorder : PreOrder advanced.
Proof.
  split.
  - intros db. split; try done. unfold announced. rewrite Z.sub_diag. cbn. by rewrite app_nil_r.
  - intros x y z [A1 B1 [C1 D1] E1 N1] [A2 B2 [C2 D2] E2 N2]. split; [tauto | lia | split; congruence | congruence |].
    rewrite N2, N1, <- app_assoc. f_equal. unfold announced. rewrite <- fmap_app. f_equal.
    replace (last_hardfork z - last_hardfork x) with ((last_hardfork y - last_hardfork x) + (last_hardfork z - last_hardfork y)) by lia.
    rewrite seqZ_app by lia. do 2 f_equal. lia.
Qed.

#[global] Arguments time_of_hardfork : simpl never.
#[global] Arguments version_of_hardfork : simpl never.
#[global] Arguments hardfork_times : simpl never.
#[global] Arguments hardfork_versions : simpl never.
(** The table, entry by entry *)
Lemma table_cases (P : Z -> Prop) : Forall P (seqZ 0 22) -> forall h, 0 <= h <= STEEMIT_NUM_HARDFORKS -> P h.
Proof. rewrite Forall_forall. intros HP h Hh. apply HP, elem_of_seqZ. unfold STEEMIT_NUM_HARDFORKS in Hh. lia. Qed.
Lemma time_in_table h : 0 <= h <= STEEMIT_NUM_HARDFORKS -> hardfork_times !! Z.to_nat h = Some (time_of_hardfork h).
Proof. revert h. apply table_cases. by repeat constructor. Qed.
Lemma version_is_hardfork h : 0 <= h <= STEEMIT_NUM_HARDFORKS -> hardfork_of_version (version_of_hardfork h) = version_of_hardfork h.
Proof. revert h. apply table_cases. by repeat constructor. Qed.
Lemma version_bound h : 0 <= h <= STEEMIT_NUM_HARDFORKS -> version_of_hardfork h <= STEEMIT_BLOCKCHAIN_HARDFORK_VERSION.
Proof. revert h. apply table_cases. repeat constructor; vm_compute; discriminate. Qed.

Lemma record_hardfork_run h db u db' : record_hardfork h db = Ok (u, db') ->
  Z.of_nat (length (processed_hardforks db)) = h /\
  db' = db <| hardforks ::= (fun p => p <| hpo_processed_hardforks ::= (fun l => l ++ [time_of_hardfork h]) |> <| hpo_last_hardfork := h |>
    <| hpo_current_hardfork_version := hardfork_of_version (version_of_hardfork h) |>) |>.
Proof.
  unfold record_hardfork. intros (t & Ht & ->)%on_table_run. inv_ok. bool_to_prop. by split.
Qed.

Section Order.
Context `{F : fc_ops}.
Variable recovery_key : Z.
#[local] Abbreviation apply_hardfork := (apply_hardfork recovery_key).
#[local] Abbreviation process_hardforks := (process_hardforks recovery_key).
#[local] Abbreviation apply_voted := (apply_voted recovery_key).
#[local] Abbreviation apply_timed := (apply_timed recovery_key).

Lemma apply_hardfork_run db u db' : last_hardfork db < STEEMIT_NUM_HARDFORKS -> apply_hardfork (last_hardfork db + 1) db = Ok (u, db') ->
  advanced db db' /\ last_hardfork db' = last_hardfork db + 1.
Proof.
  intros Hlast H. unfold Hardforks.apply_hardfork in H. inv_run. apply hardfork_changes_record in Hrun as [R1 R2 _ _ _ R3].
  apply record_hardfork_run in Hrun0 as [Hlen ->]. unfold push_virtual_operation in H. cbn in H. injection H as <-.
  unfold last_hardfork in *. split; [|done]. split; cbn; unfold last_hardfork; cbn; [| lia | by rewrite R1 | done |].
  - intros [[O1 O1'] O2 O3]. split; cbn; rewrite ?R1.
    + lia.
    + unfold processed_hardforks in O2 |- *. cbn. rewrite O2.
      replace (Z.to_nat (hpo_last_hardfork (hardforks db) + 1)) with (S (Z.to_nat (hpo_last_hardfork (hardforks db)))) by lia.
      symmetry. apply (take_S_r hardfork_times). rewrite <- time_in_table by lia. f_equal. lia.
    + apply version_is_hardfork. lia.
  - rewrite fmap_app, R3. unfold announced. replace (hpo_last_hardfork (hardforks db) + 1 - hpo_last_hardfork (hardforks db)) with 1 by lia. done.
Qed.

(** The loops *)
Lemma apply_voted_run n db u db' : STEEMIT_NUM_HARDFORKS - last_hardfork db < Z.of_nat n -> in_order db -> apply_voted n db = Ok (u, db') ->
  advanced db db' /\ next_is_due db' = false /\
  (forall h, last_hardfork db <= h < last_hardfork db' -> version_of_hardfork h < hpo_next_hardfork (hardforks db) /\ hpo_next_hardfork_time (hardforks db) <= dgp_time (dgp db)).
Proof.
  revert db. induction n as [|n IH]; intros db Hn Ho H; cbn [Hardforks.apply_voted] in H; [destruct Ho; unfold last_hardfork in *; lia|].
  apply bind_run in H as (due & ? & [-> ->]%gets_run & H). apply bind_run in H as (last & ? & [-> ->]%gets_run & H).
  destruct (next_is_due db) eqn:E.
  - case_match; [|done]. bool_to_prop. apply bind_run in H as (u1 & db1 & H1 & H).
    pose proof E as E'. unfold next_is_due in E'. bool_to_prop.
    apply apply_hardfork_run in H1 as [A1 L1]; [|done]. pose proof A1 as [A1' _ [N1 N2] T1 _].
    apply IH in H as (A2 & D2 & V2); [| lia | by apply A1']. split_and!; [by etrans | done |].
    intros h Hh. rewrite N1, N2, T1 in V2. destruct (decide (h = last_hardfork db)) as [-> | Hne]; [done|]. apply V2. lia.
  - apply mret_run in H as [_ ->]. split_and!; [done.. | intros h Hh; lia].
Qed.
Lemma apply_timed_run n db u db' : STEEMIT_NUM_HARDFORKS - last_hardfork db < Z.of_nat n -> in_order db -> apply_timed n db = Ok (u, db') ->
  advanced db db' /\ first_is_due db' = false /\
  (forall h, last_hardfork db <= h < last_hardfork db' -> time_of_hardfork (h + 1) <= dgp_time (dgp db) /\ h < 5).
Proof.
  revert db. induction n as [|n IH]; intros db Hn Ho H; cbn [Hardforks.apply_timed] in H; [destruct Ho; unfold last_hardfork in *; lia|].
  apply bind_run in H as (due & ? & [-> ->]%gets_run & H). apply bind_run in H as (last & ? & [-> ->]%gets_run & H). unfold when in H.
  destruct (first_is_due db) eqn:E.
  - apply bind_run in H as (u1 & db1 & H1 & H). unfold first_is_due in E. bool_to_prop.
    apply apply_hardfork_run in H1 as [A1 L1]; [|done]. pose proof A1 as [A1' _ [N1 N2] T1 _].
    apply IH in H as (A2 & D2 & V2); [| lia | by apply A1']. split_and!; [by etrans | done |].
    intros h Hh. rewrite T1 in V2. destruct (decide (h = last_hardfork db)) as [-> | Hne]; [done|]. apply V2. lia.
  - apply mret_run in H as [_ ->]. split_and!; [done.. | intros h Hh; lia].
Qed.

(** *** The last hardforks change nothing but the record. *)
Record recorded (db db' : database) : Prop := mk_recorded {
  recorded_rest : exists hpo n l, db' = db <| hardforks := hpo |> <| current_virtual_op := n |> <| notifications := l |>;
  recorded_more : (length (processed_hardforks db) <= length (processed_hardforks db'))%nat
}.
#[export] Instance recorded_preorder : PreOrder recorded.
Proof.
  split.
  - intros db. split; [|done]. exists (hardforks db), (current_virtual_op db), (notifications db). by destruct db.
  - intros x y z [(h1 & n1 & l1 & ->) L1] [(h2 & n2 & l2 & ->) L2]. split; [by exists h2, n2, l2 | lia].
Qed.
Lemma late_changes h : 18 <= h -> hardfork_changes recovery_key h = mret tt.
Proof.
  intros Hh. destruct h as [|p|p]; [done | | done].
  repeat (destruct p as [p|p|]; try done; try (exfalso; lia)).
Qed.
Lemma apply_hardfork_late h db u db' : (STEEMIT_HARDFORK_0_17 < length (processed_hardforks db))%nat ->
  apply_hardfork h db = Ok (u, db') -> recorded db db'.
Proof.
  intros Hlate H. unfold Hardforks.apply_hardfork in H. apply bind_run in H as (u1 & db1 & H1 & H). apply bind_run in H as (u2 & db2 & H2 & H).
  pose proof (f_equal hpo_processed_hardforks (record_hardforks _ _ (hardfork_changes_record recovery_key h _ _ _ H1))) as E.
  apply record_hardfork_run in H2 as [Hlen ->]. rewrite late_changes in H1.
  2: { rewrite <- Hlen. unfold processed_hardforks in *. rewrite E. unfold STEEMIT_HARDFORK_0_17 in Hlate. lia. }
  apply mret_run in H1 as [_ ->]. apply push_virtual_operation_run in H as (n & l & ->). split; [by eexists _, n, l|].
  unfold processed_hardforks. cbn. rewrite length_app. cbn. lia.
Qed.
Lemma process_hardforks_late db u db' : (STEEMIT_HARDFORK_0_17 < length (processed_hardforks db))%nat ->
  process_hardforks db = Ok (u, db') -> recorded db db'.
Proof.
  intros Hlate H. unfold Hardforks.process_hardforks in H. apply bind_run in H as (hf5 & ? & [-> ->]%gets_run & H).
  destruct (Nat.ltb_spec STEEMIT_HARDFORK_0_5__54 (length (processed_hardforks db))) as [_|Hle].
  2: { unfold STEEMIT_HARDFORK_0_17, STEEMIT_HARDFORK_0_5__54, STEEMIT_HARDFORK_0_5 in *. lia. }
  revert H. generalize (Z.to_nat (STEEMIT_NUM_HARDFORKS + 1)) as n. intros n. revert db Hlate.
  induction n as [|n IH]; intros db Hlate H; cbn [Hardforks.apply_voted] in H; [by apply mret_run in H as [_ ->]|].
  apply bind_run in H as (due & ? & [-> ->]%gets_run & H). apply bind_run in H as (last & ? & [-> ->]%gets_run & H).
  destruct (next_is_due db); [|by apply mret_run in H as [_ ->]]. destruct (_ <? _); [|done].
  apply bind_run in H as (u1 & db1 & H1%apply_hardfork_late & H); [|done]. etrans; [done|]. apply IH, H. destruct H1. lia.
Qed.

(** C5: Hardforks are applied in order.  From a record that is a beginning of the table of
    hardforks, a block appends the next ones, each announced once and in order, and keeps it a
    beginning of the table.  After hardfork 0.5 these are exactly the hardforks below the
    version that the witnesses elected, once its time has come; before it, those up to 0.5
    whose own time has come.  The loop ends because nothing is due any more, not for want
    of turns. *)
Theorem hardforks_in_order db u db' : in_order db -> process_hardforks db = Ok (u, db') ->
  in_order db' /\ advanced db db' /\
  if (STEEMIT_HARDFORK_0_5__54 <? length (processed_hardforks db))%nat
  then next_is_due db' = false /\
       forall h, last_hardfork db <= h < last_hardfork db' ->
         version_of_hardfork h < hpo_next_hardfork (hardforks db) /\ hpo_next_hardfork_time (hardforks db) <= dgp_time (dgp db)
  else first_is_due db' = false /\
       forall h, last_hardfork db <= h < last_hardfork db' -> time_of_hardfork (h + 1) <= dgp_time (dgp db) /\ h < 5.
Proof.
  intros Ho H. pose proof (order_last _ Ho) as Hl. unfold Hardforks.process_hardforks, has_hardfork in H. inv_run.
  - apply apply_voted_run in H as (A & D & V); [| unfold last_hardfork; cbn; lia | done]. split_and!; [by apply (advanced_order _ _ A) | done..].
  - apply apply_timed_run in H as (A & D & V); [| unfold last_hardfork; cbn; lia | done]. split_and!; [by apply (advanced_order _ _ A) | done..].
Qed.

(** C28: An unknown hardfork stops the node.  When the witnesses elected a version beyond the
    last hardfork of the program and its time has come, no block can be applied: applying
    the hardforks throws, and once all known ones are applied it throws
    [unknown_hardfork_exception]. *)
Theorem unknown_hardfork_stops db : in_order db -> (STEEMIT_HARDFORK_0_5__54 < length (processed_hardforks db))%nat ->
  STEEMIT_BLOCKCHAIN_HARDFORK_VERSION < hpo_next_hardfork (hardforks db) ->
  hpo_next_hardfork_time (hardforks db) <= dgp_time (dgp db) ->
  exists e, process_hardforks db = Throw e /\ (last_hardfork db = STEEMIT_NUM_HARDFORKS -> e = unknown_hardfork_exception).
Proof.
  intros Ho Hhf Hv Ht. pose proof (order_last _ Ho) as Hl.
  assert (process_hardforks db = apply_voted 22 db) as ->.
  { change (process_hardforks db) with ((if (STEEMIT_HARDFORK_0_5__54 <? length (processed_hardforks db))%nat then apply_voted 22 else apply_timed 22) db).
    by rewrite (proj2 (Nat.ltb_lt _ _) Hhf). }
  destruct (apply_voted 22 db) as [[u db'] | e] eqn:E.
  - exfalso. apply apply_voted_run in E as ([A _ [N1 N2] T _] & D & _); [| unfold last_hardfork, STEEMIT_NUM_HARDFORKS in *; lia | done].
    apply A in Ho as [Ho _ _]. pose proof (version_bound _ Ho). unfold next_is_due in D. rewrite N1, N2, T in D.
    apply andb_false_iff in D as [D | D]; bool_to_prop; lia.
  - exists e. split; [done|]. intros Hlast. change (apply_voted 22 db) with ((due ← gets next_is_due; last ← gets last_hardfork;
      if (due : bool) then
        if last <? STEEMIT_NUM_HARDFORKS then apply_hardfork (last + 1) ;; apply_voted 21 else throw unknown_hardfork_exception
      else mret tt) db) in E.
    assert (next_is_due db = true) as Hd.
    { unfold next_is_due. change (hpo_last_hardfork (hardforks db)) with (last_hardfork db). rewrite Hlast.
      apply andb_true_iff. split; [apply Z.ltb_lt; exact Hv | by apply Z.leb_le]. }
    unfold gets, mbind, M_bind in E. rewrite Hd, Hlast in E. cbn in E. by injection E.
Qed.
End Order.

(** *** A run: the witnesses elect hardfork 0.19 when 0.16 was the last. *)
Definition hardfork_database : database :=
  sample_database <| hardforks := mk_hardfork_property_object 0 (take 17 hardfork_times) 16 (hardfork_version 0 16) (hardfork_version 0 19) 1544778000 |>
    <| dgp ::= (fun p => p <| dgp_time := 1544778003 |>) |>.
Definition hardfork_after : database := run_state (process_hardforks (F := fc_ref) 7) hardfork_database.
Lemma hardforks_in_order_witness : in_order hardfork_database /\ last_hardfork hardfork_after = 19 /\ in_order hardfork_after /\
  notifications hardfork_after = [(op_hardfork (mk_hardfork 17), 1); (op_hardfork (mk_hardfork 18), 2); (op_hardfork (mk_hardfork 19), 3)] /\
  next_is_due hardfork_after = false.
Proof.
  assert (in_order hardfork_database) as Ho by (split; vm_compute; [split; discriminate | reflexivity | reflexivity]).
  destruct (hardforks_in_order (F := fc_ref) 7 hardfork_database tt hardfork_after Ho) as (Ho' & _ & H); [vm_compute; reflexivity|].
  split; [exact Ho|]. split; [vm_compute; reflexivity|]. split; [exact Ho'|]. split; [vm_compute; reflexivity|].
  exact (proj1 H).
Defined.
Definition unknown_database : database :=
  hardfork_database <| hardforks := mk_hardfork_property_object 0 hardfork_times 21 (hardfork_version 0 21) (hardfork_version 0 22) 1565859600 |>
    <| dgp ::= (fun p => p <| dgp_time := 1565859600 |>) |>.
Lemma unknown_hardfork_stops_witness : exists e, process_hardforks (F := fc_ref) 7 unknown_database = Throw e /\ e = unknown_hardfork_exception.
Proof.
  destruct (unknown_hardfork_stops (F := fc_ref) 7 unknown_database) as (e & He & Hu).
  - split; vm_compute; [split; discriminate | reflexivity | reflexivity].
  - vm_compute. repeat constructor.
  - vm_compute. reflexivity.
  - vm_compute. discriminate.
  - exists e. split; [exact He|]. apply Hu. vm_compute. reflexivity.
Defined.
