(* ===== verification/Forest.v ===== *)
(** * Discussions as a forest

    The abstract model of what comments count: a finite map of nodes, each with its parent,
    its depth, the number of nodes below it, the shares of its votes, and the sum of the
    shares below it.  The operations are those of the evaluators: a leaf is added, a leaf
    is removed, the shares of a node change; each walks from the node up to the root of its
    discussion and corrects what is counted there.  The counts stay exact: this is what the
    assertions of [validate_invariants] on comments check. *)

From S2P Require Import Prelude.

#[local] Abbreviation key := (string * string)%type.

Record node := mk_node {
  node_key : key;
  node_parent : option key;
  node_depth : Z;
  node_children : Z;
  node_shares : Z;
  node_net : Z
}.
#[export] Instance node_rebuild : Rebuild node := fun n =>
  mk_node (node_key n) (node_parent n) (node_depth n) (node_children n) (node_shares n) (node_net n).

Abbreviation forest := (gmap (string * string) node).

(** ** Paths *)

(** The way from a node up to its root *)
Fixpoint path_at (fuel : nat) (m : forest) (k : key) : list key :=
  k :: match m !! k with
       | Some n => match node_parent n, fuel with Some p, S fuel' => path_at fuel' m p | _, _ => [] end
       | None => []
       end.
Definition path (m : forest) (k : key) : list key :=
  path_at (match m !! k with Some n => Z.to_nat (node_depth n) | None => O end) m k.

(** Every node has its parent in the forest, one step nearer to the root. *)
Definition node_rooted (m : forest) (k : key) (n : node) : Prop :=
  node_key n = k /\ 0 <= node_depth n /\
  match node_parent n with
  | None => node_depth n = 0
  | Some p => exists q, m !! p = Some q /\ node_depth n = node_depth q + 1
  end.
Definition rooted (m : forest) : Prop := map_Forall (node_rooted m) m.

(** A change at some nodes *)
Definition touch (f : node -> node) (ks : list key) (m : forest) : forest :=
  map_imap (fun k n => Some (if decide (k ∈ ks) then f n else n)) m.
Lemma lookup_touch f ks m k : touch f ks m !! k = (fun n => if decide (k ∈ ks) then f n else n) <$> m !! k.
Proof. unfold touch. rewrite map_lookup_imap. by destruct (m !! k). Qed.

(** What paths depend on *)
Definition place (n : node) : key * option key * Z := (node_key n, node_parent n, node_depth n).
Definition same_places (m m' : forest) : Prop := forall k, place <$> m' !! k = place <$> m !! k.

Lemma same_places_lookup m m' k n : same_places m m' -> m !! k = Some n -> exists n', m' !! k = Some n' /\ place n' = place n.
Proof.
  intros Hs Hk. specialize (Hs k). rewrite Hk in Hs. destruct (m' !! k) as [n'|]; [|done]. injection Hs as ? ? ?.
  exists n'. split; [done|]. unfold place. congruence.
Qed.
Lemma same_places_None m m' k : same_places m m' -> m !! k = None -> m' !! k = None.
Proof. intros Hs Hk. specialize (Hs k). rewrite Hk in Hs. by destruct (m' !! k). Qed.
Lemma path_at_same m m' fuel k : same_places m m' -> path_at fuel m' k = path_at fuel m k.
Proof.
  intros Hs. revert k. induction fuel as [|fuel IH]; intros k; cbn [path_at];
    (destruct (m !! k) as [n|] eqn:E; [|by rewrite (same_places_None _ _ _ Hs E)]);
    destruct (same_places_lookup _ _ _ _ Hs E) as (n' & -> & [= _ Ep _]); rewrite Ep; [done|].
  destruct (node_parent n); [by rewrite IH | done].
Qed.
Lemma path_same m m' k : same_places m m' -> path m' k = path m k.
Proof.
  intros Hs. unfold path. rewrite (path_at_same _ _ _ _ Hs). destruct (m !! k) as [n|] eqn:E.
  - destruct (same_places_lookup _ _ _ _ Hs E) as (n' & -> & [= _ _ Ed]). by rewrite Ed.
  - by rewrite (same_places_None _ _ _ Hs E).
Qed.
Lemma rooted_same m m' : same_places m m' -> rooted m -> rooted m'.
Proof.
  intros Hs Hr k n' Hk'. pose proof (Hs k) as Hk. rewrite Hk' in Hk. destruct (m !! k) as [n|] eqn:E; [|done].
  injection Hk as Ek Ep Ed. destruct (Hr k n E) as (H1 & H2 & H3). unfold node_rooted. rewrite Ek, Ep, Ed. split_and!; [done..|].
  destruct (node_parent n) as [p|]; [|done]. destruct H3 as (q & Hq & Hd).
  destruct (same_places_lookup _ _ _ _ Hs Hq) as (q' & Hq' & [= _ _ Edq]). exists q'. split; [done | lia].
Qed.
Lemma touch_places f ks m : (forall n, place (f n) = place n) -> same_places m (touch f ks m).
Proof. intros Hf k. rewrite lookup_touch. destruct (m !! k); cbn; [|done]. case_decide; [by rewrite Hf | done]. Qed.

Lemma size_same_places (m m' : forest) : same_places m m' -> size m' = size m.
Proof.
  intros Hs. rewrite <- !size_dom. f_equal. apply set_eq. intros k. rewrite !elem_of_dom. specialize (Hs k).
  destruct (m !! k), (m' !! k); try done; by split; intros [? [=]].
Qed.

Section Paths.
Variable m : forest.
Hypothesis Hr : rooted m.

Lemma path_root k n : m !! k = Some n -> node_parent n = None -> path m k = [k].
Proof. intros Hk Hp. unfold path. rewrite Hk. destruct (Z.to_nat (node_depth n)); cbn [path_at]; by rewrite Hk, Hp. Qed.
Lemma path_step k n p : m !! k = Some n -> node_parent n = Some p -> path m k = k :: path m p.
Proof.
  intros Hk Hp. destruct (Hr k n Hk) as (_ & _ & H3). rewrite Hp in H3. destruct H3 as (q & Hq & Hd).
  pose proof (Hr p q Hq) as (_ & Hd0 & _). unfold path at 1. rewrite Hk, Hd. replace (Z.to_nat (node_depth q + 1)) with (S (Z.to_nat (node_depth q))) by lia.
  cbn [path_at]. rewrite Hk, Hp. unfold path. by rewrite Hq.
Qed.

(** Induction up the path *)
Lemma path_ind (P : key -> node -> Prop) :
  (forall k n, m !! k = Some n -> node_parent n = None -> P k n) ->
  (forall k n p q, m !! k = Some n -> node_parent n = Some p -> m !! p = Some q -> node_depth n = node_depth q + 1 -> P p q -> P k n) ->
  forall k n, m !! k = Some n -> P k n.
Proof.
  intros Hroot Hstep. enough (forall d k n, Z.to_nat (node_depth n) = d -> m !! k = Some n -> P k n) as H by (intros; by eapply H).
  induction d as [|d IH]; intros k n Hd Hk; destruct (Hr k n Hk) as (_ & H0 & H3); destruct (node_parent n) as [p|] eqn:Ep;
    try (by eapply Hroot); destruct H3 as (q & Hq & Hdq); pose proof (Hr p q Hq) as (_ & Hq0 & _); [lia|].
  eapply Hstep; [done..|]. apply IH; [lia | done].
Qed.

Lemma path_self k : k ∈ path m k.
Proof. unfold path. destruct (match m !! k with Some n => _ | None => O end); cbn [path_at]; left. Qed.
(** Above a node the depths are smaller. *)
Lemma path_depth k n a : m !! k = Some n -> a ∈ path m k ->
  exists b, m !! a = Some b /\ (a = k \/ node_depth b < node_depth n).
Proof.
  intros Hk. revert a. revert k n Hk. apply (path_ind (fun k n => forall a, a ∈ path m k -> _)).
  - intros k n Hk Hp a. rewrite (path_root k n) by done. intros ->%list_elem_of_singleton. eauto.
  - intros k n p q Hk Hp Hq Hd IH a. rewrite (path_step k n p) by done. intros [-> | Ha]%elem_of_cons; [eauto|].
    destruct (IH a Ha) as (b & Hb & Hdb). exists b. split; [done|]. right. destruct Hdb as [-> | ?]; [|lia].
    rewrite Hq in Hb. injection Hb as <-. lia.
Qed.
Lemma path_parent_fresh k n p : m !! k = Some n -> node_parent n = Some p -> k ∉ path m p.
Proof.
  intros Hk Hp Hin. destruct (Hr k n Hk) as (_ & _ & H3). rewrite Hp in H3. destruct H3 as (q & Hq & Hd).
  destruct (path_depth p q k Hq Hin) as (b & Hb & [-> | Hlt]); rewrite Hk in Hb; injection Hb as <-; [|lia].
  rewrite Hq in Hk. injection Hk as <-. lia.
Qed.
End Paths.

(** ** Counting *)

Lemma msum_indicator {K V : Type} `{Countable K} (P : V -> Prop) `{!forall v, Decision (P v)} (m : gmap K V) :
  0 <= msum (fun v => if decide (P v) then 1 else 0) m <= Z.of_nat (size m).
Proof.
  induction m as [| k v m Hk IH] using map_ind; [rewrite msum_empty, map_size_empty; lia|].
  rewrite msum_insert_fresh, map_size_insert_None by done. destruct (decide (P v)); lia.
Qed.
Lemma msum_le {K V : Type} `{Countable K} (f g : V -> Z) (m : gmap K V) :
  (forall k v, m !! k = Some v -> f v <= g v) -> msum f m <= msum g m.
Proof.
  induction m as [| k v m Hk IH] using map_ind; intros Hle; [by rewrite !msum_empty|].
  rewrite !msum_insert_fresh by done. pose proof (Hle k v ltac:(by rewrite lookup_insert_eq)).
  assert (msum f m <= msum g m); [|lia]. apply IH. intros k' v' Hk'. apply (Hle k'). rewrite lookup_insert_ne; [done | congruence].
Qed.
Lemma msum_swap {K V K' V' : Type} `{Countable K} `{Countable K'} (f : V -> V' -> Z) (m : gmap K V) (m' : gmap K' V') :
  msum (fun v => msum (f v) m') m = msum (fun v' => msum (fun v => f v v') m) m'.
Proof.
  induction m as [| k v m Hk IH] using map_ind.
  { rewrite msum_empty. symmetry. apply msum_zero. intros. apply msum_empty. }
  rewrite msum_insert_fresh, IH by done. clear IH. rewrite (msum_ext (fun v' => msum (fun v0 => f v0 v') (<[k:=v]> m)) (fun v' => f v v' + msum (fun v0 => f v0 v') m))
    by (intros; by rewrite msum_insert_fresh).
  clear Hk. induction m' as [| k' v' m' Hk' IH] using map_ind; [by rewrite !msum_empty|]. rewrite !msum_insert_fresh by done. lia.
Qed.
(** A sum in which only one row counts *)
Lemma msum_only {K V : Type} `{Countable K} (f : V -> Z) (m : gmap K V) k v :
  m !! k = Some v -> (forall k' v', m !! k' = Some v' -> k' <> k -> f v' = 0) -> msum f m = f v.
Proof.
  intros Hk Hz. rewrite <- (insert_delete_id m k v) by done. rewrite msum_insert_fresh by apply lookup_delete_eq.
  rewrite msum_zero; [lia|]. intros k' v' [Hne Hk']%lookup_delete_Some. eapply Hz; [done | congruence].
Qed.

(** What the shares of a node add to its discussion *)
Definition gain (n : node) : Z := Z.max 0 (node_net n).
(** The sum over the nodes below [a], [a] among them *)
Definition below (w : node -> Z) (m : forest) (a : key) : Z :=
  msum (fun n => if decide (a ∈ path m (node_key n)) then w n else 0) m.

(** Each node counts the nodes and the shares below it, and the total counts all; the shares
    are kept in 128 bits. *)
Record well_counted (m : forest) (total : Z) : Prop := {
  counted_rooted : rooted m;
  counted_children : map_Forall (fun k n => node_children n = below (fun _ => 1) m k - 1) m;
  counted_shares : map_Forall (fun k n => node_shares n = below gain m k mod 2 ^ 128) m;
  counted_total : total = msum gain m mod 2 ^ 128;
  counted_fits : map_Forall (fun _ n => node_net n < 2 ^ 63) m
}.

Lemma below_same w m m' a : same_places m m' ->
  (forall k n n', m !! k = Some n -> m' !! k = Some n' -> w n' = w n) -> below w m' a = below w m a.
Proof.
  intros Hs Hw. unfold below.
  rewrite (msum_ext _ (fun n => if decide (a ∈ path m (node_key n)) then w n else 0)) by (intros; by rewrite (path_same _ _ _ Hs)).
  apply (msum_rel _ (fun n n' => place n' = place n /\ w n' = w n)).
  - intros n n' [[= E _ _] Ew]. by rewrite E, Ew.
  - intros k. specialize (Hs k). specialize (Hw k). destruct (m !! k), (m' !! k); try done; constructor.
    injection Hs as ? ? ?. split; [unfold place; congruence | by apply Hw].
Qed.
Lemma gain_same (m m' : forest) : (forall k, node_net <$> m' !! k = node_net <$> m !! k) -> msum gain m' = msum gain m.
Proof.
  intros Hg. apply (msum_rel _ (fun n n' => node_net n' = node_net n)); [intros n n' E; unfold gain; by rewrite E|].
  intros k. specialize (Hg k). destruct (m !! k), (m' !! k); try done; constructor. by injection Hg.
Qed.

(** A larger forest has the same paths. *)
Lemma path_larger m m' : rooted m -> rooted m' -> m ⊆ m' -> forall k n, m !! k = Some n -> path m' k = path m k.
Proof.
  intros Hr Hr' Hsub. apply (path_ind m Hr (fun k n => path m' k = path m k)).
  - intros k n Hk Hp. rewrite (path_root m k n), (path_root m' k n); try done. by eapply lookup_weaken.
  - intros k n p q Hk Hp Hq _ IH. rewrite (path_step m Hr k n p), (path_step m' Hr' k n p), IH; try done. by eapply lookup_weaken.
Qed.
Lemma below_fresh w m k n a : rooted m -> rooted (<[k := n]> m) -> m !! k = None ->
  below w (<[k := n]> m) a = below w m a + (if decide (a ∈ path (<[k := n]> m) k) then w n else 0).
Proof.
  intros Hr Hr' Hk. unfold below. rewrite msum_insert_fresh by done.
  destruct (Hr' k n ltac:(apply lookup_insert_eq)) as (-> & _).
  rewrite (msum_ext _ (fun n0 => if decide (a ∈ path m (node_key n0)) then w n0 else 0)); [lia|].
  intros j v Hj. destruct (Hr j v Hj) as (-> & _). rewrite (path_larger m _ Hr Hr' ltac:(by apply insert_subseteq) j v) by done. done.
Qed.

Section Counts.
Variables (m : forest).
Hypothesis Hr : rooted m.

Lemma below_one_range a : 0 <= below (fun _ => 1) m a <= Z.of_nat (size m).
Proof. apply (msum_indicator (fun n => a ∈ path m (node_key n))). Qed.
Lemma below_counts a l : NoDup l -> (forall j, j ∈ l -> is_Some (m !! j) /\ a ∈ path m j) -> Z.of_nat (length l) <= below (fun _ => 1) m a.
Proof.
  intros Hnd Hl. unfold below.
  enough (forall m0 : forest, (forall k n, m0 !! k = Some n -> node_key n = k) -> (forall j, j ∈ l -> is_Some (m0 !! j)) ->
    Z.of_nat (length l) <= msum (fun n => if decide (a ∈ path m (node_key n)) then 1 else 0) m0) as H.
  { apply H; [intros k n Hk; by destruct (Hr k n Hk) | naive_solver]. }
  revert Hl. induction Hnd as [|j l Hj _ IH]; intros Hl m0 Hkey Hin.
  - cbn. apply msum_nonneg. intros. case_decide; lia.
  - destruct (Hin j ltac:(left)) as [n Hn]. rewrite <- (insert_delete_id m0 j n) by done.
    rewrite msum_insert_fresh by apply lookup_delete_eq. rewrite (Hkey j n Hn), decide_True by (apply Hl; left).
    specialize (IH (fun i Hi => Hl i ltac:(by right)) (delete j m0)). cbn [length]. rewrite Nat2Z.inj_succ.
    enough (Z.of_nat (length l) <= msum (fun n => if decide (a ∈ path m (node_key n)) then 1 else 0) (delete j m0)) by lia.
    apply IH; [intros k v [_ Hk]%lookup_delete_Some; by apply Hkey|].
    intros i Hi. rewrite lookup_delete_ne; [apply Hin; by right | congruence].
Qed.
Lemma below_one_self a n : m !! a = Some n -> 1 <= below (fun _ => 1) m a.
Proof.
  intros Ha. apply (below_counts a [a]); [apply NoDup_singleton|]. intros j ->%list_elem_of_singleton. split; [by eexists | apply path_self].
Qed.

(** A node that counts nobody below it is on no other path. *)
Lemma leaf_path k j : below (fun _ => 1) m k = 1 -> is_Some (m !! k) -> is_Some (m !! j) -> k ∈ path m j -> j = k.
Proof.
  intros Hb Hk Hj Hin. destruct (decide (j = k)) as [|Hne]; [done|]. exfalso.
  pose proof (below_counts k [k; j]) as H. rewrite Hb in H. cbn in H.
  assert (2 <= 1); [|lia]. apply H.
  - constructor; [|apply NoDup_singleton]. rewrite list_elem_of_singleton. congruence.
  - intros i [-> | ->%list_elem_of_singleton]%elem_of_cons; [split; [done | apply path_self] | done].
Qed.
(** Every node has one root above it. *)
Lemma one_root k n (w : Z) : m !! k = Some n ->
  msum (fun r => if decide (node_parent r = None /\ node_key r ∈ path m k) then w else 0) m = w.
Proof.
  revert k n. apply (path_ind m Hr (fun k n => msum (fun r => if decide (node_parent r = None /\ node_key r ∈ path m k) then w else 0) m = w)).
  - intros k n Hk Hp. rewrite (msum_only _ m k n Hk).
    + rewrite decide_True; [done|]. destruct (Hr k n Hk) as (-> & _). split; [done | apply path_self].
    + intros j v Hj Hne. rewrite decide_False; [done|]. destruct (Hr j v Hj) as (-> & _).
      rewrite (path_root m k n) by done. rewrite list_elem_of_singleton. naive_solver.
  - intros k n p q Hk Hp Hq _ IH. etransitivity; [|exact IH]. apply msum_ext. intros j v Hj. apply decide_ext.
    destruct (Hr j v Hj) as (-> & _). rewrite (path_step m Hr k n p), elem_of_cons by done. split; [|naive_solver].
    intros [Hv [-> | ?]]; [|done]. rewrite Hk in Hj. injection Hj as <-. congruence.
Qed.
Lemma roots_below w : msum (fun r => if decide (node_parent r = None) then below w m (node_key r) else 0) m = msum w m.
Proof.
  transitivity (msum (fun r => msum (fun n => if decide (node_parent r = None /\ node_key r ∈ path m (node_key n)) then w n else 0) m) m).
  - apply msum_ext. intros k r _. destruct (decide (node_parent r = None)) as [E | E].
    + unfold below. apply msum_ext. intros j n _. apply decide_ext. naive_solver.
    + symmetry. apply msum_zero. intros j n _. rewrite decide_False; [done | naive_solver].
  - rewrite msum_swap. apply msum_ext. intros k n Hk. destruct (Hr k n Hk) as (-> & _). by apply one_root with n.
Qed.
End Counts.

(** ** The operations *)

Definition add_shares (old new : Z) (n : node) : node :=
  n <| node_shares ::= (fun s => ((s - old) mod 2 ^ 128 + new) mod 2 ^ 128) |>.
Definition add_below (d : Z) (n : node) : node := n <| node_children ::= (fun c => to_uint32_wrap (c + d)) |>.
Definition set_net (net : Z) (k : key) (m : forest) : forest := alter (fun n => n <| node_net := net |>) k m.
Definition gain_of (net : Z) : Z := Z.max 0 net.

(** The shares of a node change. *)
Definition reweigh (k : key) (old net : Z) (m : forest) : forest :=
  touch (add_shares (gain_of old) (gain_of net)) (path m k) (set_net net k m).
Definition reweigh_total (old net total : Z) : Z := ((total - gain_of old) mod 2 ^ 128 + gain_of net) mod 2 ^ 128.

(** A new leaf, and the removal of one *)
Definition above (parent : option key) (m : forest) : list key := match parent with Some p => path m p | None => [] end.
Definition add_above (d : Z) (parent : option key) (m : forest) : forest := touch (add_below d) (above parent m) m.
Definition graft (n : node) (m : forest) : forest := add_above 1 (node_parent n) (<[node_key n := n]> m).
Definition prune (n : node) (m : forest) : forest := delete (node_key n) (add_above (-1) (node_parent n) m).

Lemma mod_replace b old new M : 0 < M -> ((b mod M - old) mod M + new) mod M = (b - old + new) mod M.
Proof. intros HM. by rewrite Zminus_mod_idemp_l, Zplus_mod_idemp_l. Qed.

Lemma set_net_places net k m : same_places m (set_net net k m).
Proof.
  intros j. unfold set_net. destruct (decide (j = k)) as [-> | Hne]; [rewrite lookup_alter_eq | by rewrite lookup_alter_ne].
  by destruct (m !! k).
Qed.
Lemma set_net_insert net k n m : m !! k = Some n -> set_net net k m = <[k := n <| node_net := net |>]> m.
Proof.
  intros Hk. unfold set_net. apply map_eq. intros j. destruct (decide (j = k)) as [-> | Hne].
  - by rewrite lookup_alter_eq, lookup_insert_eq, Hk.
  - by rewrite lookup_alter_ne, lookup_insert_ne.
Qed.
Lemma below_set_net w net k n m a : rooted m -> m !! k = Some n ->
  below w (set_net net k m) a = below w m a + (if decide (a ∈ path m k) then w (n <| node_net := net |>) - w n else 0).
Proof.
  intros Hr Hk. destruct (Hr k n Hk) as (Ek & _). unfold below.
  rewrite (msum_ext _ (fun n0 => if decide (a ∈ path m (node_key n0)) then w n0 else 0))
    by (intros; by rewrite (path_same m) by apply set_net_places).
  rewrite (set_net_insert net k n) by done.
  rewrite (msum_insert _ m k _ n) by done. cbn. rewrite Ek. case_decide; lia.
Qed.
Lemma gain_set_net net k n m : m !! k = Some n -> msum gain (set_net net k m) = msum gain m - gain n + gain_of net.
Proof.
  intros Hk. rewrite (set_net_insert net k n) by done. by rewrite (msum_insert _ m k _ n).
Qed.

Section Touching.
Variables (f : node -> node) (ks : list key) (m : forest).
Hypothesis Hplace : forall n, place (f n) = place n.
Lemma below_touch w a : (forall n, w (f n) = w n) -> below w (touch f ks m) a = below w m a.
Proof.
  intros Hw. apply below_same; [by apply touch_places|]. intros k n n' Hk Hk'. rewrite lookup_touch, Hk in Hk'. injection Hk' as <-.
  case_decide; [apply Hw | done].
Qed.
Lemma gain_touch : (forall n, node_net (f n) = node_net n) -> msum gain (touch f ks m) = msum gain m.
Proof.
  intros Hn. apply gain_same. intros k. rewrite lookup_touch. destruct (m !! k); cbn; [|done]. case_decide; [by rewrite Hn | done].
Qed.
End Touching.

Lemma reweigh_counted k n net m total : m !! k = Some n -> net < 2 ^ 63 -> well_counted m total ->
  well_counted (reweigh k (node_net n) net m) (reweigh_total (node_net n) net total).
Proof.
  intros Hk Hnet [Hr Hc Hs -> Hfits]. unfold reweigh. set (m1 := set_net net k m).
  pose proof (set_net_places net k m : same_places m m1) as Hp1.
  assert (forall x, place (add_shares (gain_of (node_net n)) (gain_of net) x) = place x) as Hplace by done.
  assert (forall a n', touch (add_shares (gain_of (node_net n)) (gain_of net)) (path m k) m1 !! a = Some n' ->
    exists n0, m !! a = Some n0 /\ node_children n' = node_children n0 /\
      node_shares n' = (if decide (a ∈ path m k) then ((node_shares n0 - gain_of (node_net n)) mod 2 ^ 128 + gain_of net) mod 2 ^ 128 else node_shares n0)) as Hl.
  { intros a n' Ha. rewrite lookup_touch in Ha. apply fmap_Some in Ha as (n1 & Hn1 & ->). unfold m1, set_net in Hn1.
    apply lookup_alter_Some in Hn1 as [(-> & n0 & Hn0 & ->) | [_ Hn1]]; eexists; (split; [done|]); case_decide; done. }
  split.
  - eapply rooted_same; [|done]. intros a. rewrite (touch_places _ _ _ Hplace). apply Hp1.
  - intros a n' Ha. destruct (Hl a n' Ha) as (n0 & Hn0 & -> & _). rewrite (Hc a n0 Hn0), below_touch by done.
    unfold m1. rewrite (below_set_net _ net k n) by done. case_decide; lia.
  - intros a n' Ha. destruct (Hl a n' Ha) as (n0 & Hn0 & _ & ->). rewrite (Hs a n0 Hn0), below_touch by done.
    unfold m1. rewrite (below_set_net _ net k n) by done. case_decide; [|f_equal; lia]. rewrite mod_replace by lia. f_equal.
    unfold gain at 3 4, gain_of. cbn. lia.
  - unfold reweigh_total. rewrite mod_replace by lia. rewrite gain_touch by done. unfold m1. rewrite (gain_set_net net k n) by done.
    f_equal.
  - intros a n' Ha. rewrite lookup_touch in Ha. apply fmap_Some in Ha as (n1 & Hn1 & ->).
    assert (node_net n1 < 2 ^ 63); [|by case_decide]. unfold m1, set_net in Hn1.
    apply lookup_alter_Some in Hn1 as [(-> & n0 & Hn0 & ->) | [_ Hn1]]; [done | by apply (Hfits a)].
Qed.

(** A new leaf *)
Lemma add_above_lookup d p m a n' : add_above d p m !! a = Some n' ->
  exists n0, m !! a = Some n0 /\ node_shares n' = node_shares n0 /\ node_net n' = node_net n0 /\ place n' = place n0 /\
    node_children n' = (if decide (a ∈ above p m) then to_uint32_wrap (node_children n0 + d) else node_children n0).
Proof.
  unfold add_above. rewrite lookup_touch. intros (n0 & Hn0 & ->)%fmap_Some. exists n0. split; [done|]. by case_decide.
Qed.
Lemma add_above_places d p m : same_places m (add_above d p m).
Proof. by apply touch_places. Qed.
Lemma below_add_above w d p m a : (forall n c, w (n <| node_children := c |>) = w n) -> below w (add_above d p m) a = below w m a.
Proof. intros Hw. apply below_touch; [done|]. intros n. apply Hw. Qed.
Lemma gain_add_above d p m : msum gain (add_above d p m) = msum gain m.
Proof. by apply gain_touch. Qed.

(** A path from a node starts with it and goes on from its parent. *)
Lemma path_above m k n : rooted m -> m !! k = Some n -> path m k = k :: above (node_parent n) m.
Proof.
  intros Hr Hk. unfold above. destruct (node_parent n) as [p|] eqn:Ep; [by apply path_step with n | by apply path_root with n].
Qed.
Lemma above_fresh m k n : rooted m -> m !! k = Some n -> k ∉ above (node_parent n) m.
Proof.
  intros Hr Hk. unfold above. destruct (node_parent n) as [p|] eqn:Ep; [by apply (path_parent_fresh m Hr k n) | by apply not_elem_of_nil].
Qed.
(** The node that is not on the path of another *)
Lemma below_none w m k : rooted m -> m !! k = None -> below w m k = 0.
Proof.
  intros Hr Hk. apply msum_zero. intros i u Hi. rewrite decide_False; [done|]. destruct (Hr i u Hi) as (-> & _). intros Hin.
  destruct (path_depth m Hr i u k Hi Hin) as (b & Hb' & _). congruence.
Qed.

Lemma graft_counted n m total : rooted (<[node_key n := n]> m) -> m !! node_key n = None ->
  node_children n = 0 -> node_shares n = 0 -> node_net n = 0 -> Z.of_nat (size m) < 2 ^ 32 - 1 ->
  well_counted m total -> well_counted (graft n m) total.
Proof.
  intros Hr' Hk E1 E2 E3 Hsize [Hr Hc Hs -> Hfits]. unfold graft. set (k := node_key n) in *. set (m1 := <[k := n]> m) in *.
  assert (m1 !! k = Some n) as Hk1 by apply lookup_insert_eq. pose proof (path_above m1 k n Hr' Hk1) as Hpath.
  assert (forall w a, below w m1 a = below w m a + (if decide (a ∈ path m1 k) then w n else 0)) as Hb by (intros; by apply below_fresh).
  assert (gain n = 0) as Eg by (unfold gain; lia).
  assert (forall j v, m1 !! j = Some v -> node_children v = below (fun _ => 1) m1 j - 1 -
    (if decide (j ∈ above (node_parent n) m1) then 1 else 0) /\ node_shares v = below gain m1 j mod 2 ^ 128) as Hcs.
  { intros j v Hj. rewrite !Hb, Eg, Hpath. destruct (decide (j = k)) as [-> | Hne].
    - rewrite Hk1 in Hj. injection Hj as <-. rewrite E1, E2, !below_none by done.
      assert (k ∈ k :: above (node_parent n) m1) as Hin by left. rewrite !(decide_True _ _ Hin), decide_False by (by apply above_fresh). done.
    - assert (m !! j = Some v) as Hj' by (unfold m1 in Hj; by rewrite lookup_insert_ne in Hj).
      rewrite (Hc j v Hj'), (Hs j v Hj'). split; [|by case_decide; rewrite Z.add_0_r].
      rewrite (decide_ext (j ∈ k :: above (node_parent n) m1) (j ∈ above (node_parent n) m1)) by (rewrite elem_of_cons; naive_solver).
      case_decide; lia. }
  split.
  - eapply rooted_same; [apply add_above_places | done].
  - intros a n' (n0 & Hn0 & _ & _ & _ & ->)%add_above_lookup. destruct (Hcs a n0 Hn0) as [-> _]. rewrite below_add_above by done.
    destruct (decide _) as [Hin | Hin]; [|lia]. unfold to_uint32_wrap. rewrite Z.mod_small; [lia|].
    pose proof (below_one_self m1 Hr' a n0 Hn0). pose proof (below_one_range m1 a) as H1. unfold m1 in H1 at 3.
    rewrite map_size_insert_None in H1 by done. lia.
  - intros a n' (n0 & Hn0 & -> & _)%add_above_lookup. destruct (Hcs a n0 Hn0) as [_ ->]. by rewrite below_add_above.
  - rewrite gain_add_above. unfold m1. rewrite msum_insert_fresh by done. by rewrite Eg.
  - intros a n' (n0 & Hn0 & _ & -> & _)%add_above_lookup. unfold m1 in Hn0.
    apply lookup_insert_Some in Hn0 as [[_ <-] | [_ Hn0]]; [lia | by apply (Hfits a)].
Qed.

(** The removal of a leaf *)
Lemma rooted_delete m k n : rooted m -> m !! k = Some n -> below (fun _ => 1) m k = 1 -> rooted (delete k m).
Proof.
  intros Hr Hk Hb j v [Hne Hj]%lookup_delete_Some. destruct (Hr j v Hj) as (E & Hd & H3). split_and!; [done..|].
  destruct (node_parent v) as [p|] eqn:Ep; [|done]. destruct H3 as (q & Hq & Hdq). exists q. split; [|done].
  rewrite lookup_delete_ne; [done|]. intros <-. apply Hne. symmetry. apply (leaf_path m Hr k j Hb); [by eexists..|].
  rewrite (path_step m Hr j v k) by done. right. apply path_self.
Qed.
Lemma rooted_insert m k n : rooted m -> m !! k = None -> node_key n = k ->
  match node_parent n with None => node_depth n = 0 | Some p => exists q, m !! p = Some q /\ node_depth n = node_depth q + 1 end ->
  rooted (<[k := n]> m).
Proof.
  intros Hr Hk Ek Hp j v Hj. assert (forall p q, m !! p = Some q -> <[k := n]> m !! p = Some q) as Hw.
  { intros p q Hq. rewrite lookup_insert_ne; [done | congruence]. }
  apply lookup_insert_Some in Hj as [[<- <-] | [_ Hj]].
  - unfold node_rooted. destruct (node_parent n) as [p|]; [|split_and!; [done | lia | done]].
    destruct Hp as (q & Hq & Hd). pose proof (Hr p q Hq) as (_ & ? & _). split_and!; [done | lia |]. eauto.
  - destruct (Hr j v Hj) as (? & ? & H3). split_and!; [done..|]. destruct (node_parent v); [|done]. destruct H3 as (q & Hq & Hd). eauto.
Qed.
Lemma below_delete w m k n a : rooted m -> rooted (delete k m) -> m !! k = Some n ->
  below w (delete k m) a = below w m a - (if decide (a ∈ path m k) then w n else 0).
Proof.
  intros Hr Hr' Hk. pose proof (insert_delete_id m k n Hk) as E.
  pose proof (below_fresh w (delete k m) k n a Hr' ltac:(by rewrite E) (lookup_delete_eq m k)) as H. rewrite E in H. lia.
Qed.
Lemma prune_counted n m total : m !! node_key n = Some n -> node_children n = 0 -> node_net n <= 0 -> Z.of_nat (size m) < 2 ^ 32 ->
  well_counted m total -> well_counted (prune n m) total.
Proof.
  intros Hk Hn0 Hnet Hsize [Hr Hc Hs -> Hfits]. unfold prune. set (k := node_key n) in *.
  assert (below (fun _ => 1) m k = 1) as Hb by (pose proof (Hc k n Hk) as E; cbn in E; lia).
  set (m1 := add_above (-1) (node_parent n) m). pose proof (add_above_places (-1) (node_parent n) m : same_places m m1) as Hp.
  pose proof (rooted_same _ _ Hp Hr) as Hr1. destruct (same_places_lookup _ _ _ _ Hp Hk) as (n1 & Hk1 & [= _ Ep1 _]).
  pose proof Hk1 as (n0 & Hn0' & _ & En & _)%add_above_lookup. rewrite Hk in Hn0'. injection Hn0' as <-.
  assert (gain n1 = 0) as Eg by (unfold gain; rewrite En; lia).
  assert (forall w j, (forall u c, w (u <| node_children := c |>) = w u) -> below w m1 j = below w m j) as Hb1 by (intros; by apply below_add_above).
  assert (rooted (delete k m1)) as Hr' by (apply (rooted_delete m1 k n1); [done | done | by rewrite Hb1]).
  pose proof (path_above m k n Hr Hk) as Hpath.
  assert (forall w j, (forall u c, w (u <| node_children := c |>) = w u) ->
    below w (delete k m1) j = below w m j - (if decide (j ∈ k :: above (node_parent n) m) then w n1 else 0)) as Hb2.
  { intros w j Hw. rewrite (below_delete w m1 k n1), Hb1 by done. by rewrite (path_same m m1), Hpath. }
  split; [done | ..].
  - intros j v [Hne Hj]%lookup_delete_Some. rewrite Hb2 by done. apply add_above_lookup in Hj as (u & Hu & _ & _ & _ & ->).
    rewrite (Hc j u Hu). rewrite (decide_ext (j ∈ k :: above (node_parent n) m) (j ∈ above (node_parent n) m)) by (rewrite elem_of_cons; naive_solver).
    destruct (decide _) as [Hin | Hin]; [|lia]. unfold to_uint32_wrap. rewrite Z.mod_small; [lia|].
    pose proof (below_one_range m j). assert (2 <= below (fun _ => 1) m j); [|lia].
    apply (below_counts m Hr j [j; k]).
    + constructor; [by rewrite list_elem_of_singleton | apply NoDup_singleton].
    + intros i [-> | ->%list_elem_of_singleton]%elem_of_cons; [split; [by eexists | apply path_self]|].
      split; [by eexists|]. rewrite Hpath. by right.
  - intros j v [Hne Hj]%lookup_delete_Some. rewrite Hb2 by done. apply add_above_lookup in Hj as (u & Hu & -> & _).
    rewrite (Hs j u Hu), Eg. f_equal. case_decide; lia.
  - rewrite (msum_delete gain m1 k n1) by done. rewrite Eg, Z.sub_0_r. unfold m1. by rewrite gain_add_above.
  - intros j v [_ Hj]%lookup_delete_Some. apply add_above_lookup in Hj as (u & Hu & _ & -> & _). by apply (Hfits j).
Qed.

(** The roots of the discussions sum up to the total. *)
Definition root_shares (n : node) : Z := match node_parent n with None => node_shares n | Some _ => 0 end.
Lemma roots_total m total : well_counted m total -> msum root_shares m mod 2 ^ 128 = total.
Proof.
  intros [Hr _ Hs -> _]. rewrite <- (roots_below m Hr gain).
  enough (forall m0 : forest, (forall k n, m0 !! k = Some n -> root_shares n mod 2 ^ 128 =
    (if decide (node_parent n = None) then below gain m (node_key n) else 0) mod 2 ^ 128) ->
    msum root_shares m0 mod 2 ^ 128 = msum (fun n => if decide (node_parent n = None) then below gain m (node_key n) else 0) m0 mod 2 ^ 128) as H.
  { apply H. intros k n Hk. destruct (Hr k n Hk) as (-> & _). unfold root_shares. destruct (node_parent n) eqn:Ep; [by rewrite decide_False|].
    rewrite decide_True, (Hs k n Hk) by done. by rewrite Zmod_mod. }
  induction m0 as [| k v m0 Hk IH] using map_ind; intros H; [by rewrite !msum_empty|]. rewrite !msum_insert_fresh by done.
  rewrite Zplus_mod, (Zplus_mod (if decide _ then _ else _)). rewrite IH, (H k v); [done | by rewrite lookup_insert_eq |].
  intros j u Hj. apply (H j). rewrite lookup_insert_ne; [done | congruence].
Qed.

(** ** The forest as a transition system *)

Inductive forest_step (m : forest) (total : Z) : forest -> Z -> Prop :=
| forest_stays : forest_step m total m total
| leaf_added n : rooted (<[node_key n := n]> m) -> m !! node_key n = None ->
    node_children n = 0 -> node_shares n = 0 -> node_net n = 0 -> forest_step m total (graft n m) total
| leaf_removed n : m !! node_key n = Some n -> node_children n = 0 -> node_net n <= 0 -> forest_step m total (prune n m) total
| shares_changed k n net : m !! k = Some n -> net < 2 ^ 63 ->
    forest_step m total (reweigh k (node_net n) net m) (reweigh_total (node_net n) net total).

Lemma forest_step_counted m total m' total' : Z.of_nat (size m) < 2 ^ 32 -> Z.of_nat (size m') < 2 ^ 32 ->
  forest_step m total m' total' -> well_counted m total -> well_counted m' total'.
Proof.
  intros H1 H2 Hs Hc. revert H2. destruct Hs as [| n Hr Hk E1 E2 E3 | n Hk E1 E2 | k n net Hk]; intros H2; [done | | by apply prune_counted | by apply reweigh_counted].
  apply graft_counted; try done. unfold graft in H2.
  rewrite (size_same_places (<[node_key n := n]> m) _ (add_above_places _ _ _)), map_size_insert_None in H2 by done. lia.
Qed.

(** ** Walking up changes each node of the path *)

Lemma touch_one f k m : alter f k m = touch f [k] m.
Proof.
  apply map_eq. intros j. rewrite lookup_touch. destruct (decide (j = k)) as [-> | Hne].
  - rewrite lookup_alter_eq. destruct (m !! k); [|done]. cbn. by rewrite decide_True by left.
  - rewrite lookup_alter_ne by done. destruct (m !! j); [|done]. cbn. by rewrite decide_False by (rewrite list_elem_of_singleton; done).
Qed.
Lemma touch_none f m : touch f [] m = m.
Proof.
  apply map_eq. intros j. rewrite lookup_touch. destruct (m !! j); [|done]. cbn. by rewrite decide_False by apply not_elem_of_nil.
Qed.
Lemma touch_cons f k ks m : k ∉ ks -> touch f ks (alter f k m) = touch f (k :: ks) m.
Proof.
  intros Hk. apply map_eq. intros j. rewrite !lookup_touch. destruct (decide (j = k)) as [-> | Hne].
  - rewrite lookup_alter_eq. destruct (m !! k); [|done]. cbn. by rewrite decide_False, decide_True by (done || left).
  - rewrite lookup_alter_ne by done. destruct (m !! j); [|done]. cbn.
    destruct (decide (j ∈ ks)), (decide (j ∈ k :: ks)); set_solver.
Qed.
Lemma alter_places f k m : (forall n, place (f n) = place n) -> same_places m (alter f k m).
Proof. intros Hf. rewrite touch_one. by apply touch_places. Qed.

(** A walk that changes a node and goes on from its parent *)
Lemma walk_on f k n m : rooted m -> m !! k = Some n -> (forall n, place (f n) = place n) ->
  touch f (above (node_parent n) (alter f k m)) (alter f k m) = touch f (path m k) m.
Proof.
  intros Hr Hk Hf. rewrite (path_above m k n) by done.
  assert (above (node_parent n) (alter f k m) = above (node_parent n) m) as ->.
  { unfold above. destruct (node_parent n); [by apply path_same, alter_places | done]. }
  apply touch_cons. by apply above_fresh.
Qed.

(** With fewer than 2^32 nodes the total has not wrapped. *)
Lemma total_exact m total : well_counted m total -> Z.of_nat (size m) < 2 ^ 32 ->
  total = msum gain m /\ forall k n, m !! k = Some n -> gain n <= total.
Proof.
  intros [_ _ _ -> Hfits] Hsize. assert (0 <= msum gain m <= Z.of_nat (size m) * 2 ^ 63) as H.
  { clear Hsize. induction m as [|k n m Hk IH] using map_ind; [by rewrite msum_empty, map_size_empty|].
    rewrite msum_insert_fresh, map_size_insert_None by done. apply map_Forall_insert in Hfits as [Hn Hfits]; [|done].
    specialize (IH Hfits). unfold gain at 1 3. lia. }
  rewrite Z.mod_small by lia. split; [done|]. intros k n Hk. rewrite <- (insert_delete_id m k n) by done.
  rewrite msum_insert_fresh by apply lookup_delete_eq. assert (0 <= msum gain (delete k m)); [|lia].
  apply msum_nonneg. intros. unfold gain. lia.
Qed.
