(* ===== verification/Votes.v ===== *)
(** * Witness votes and proxies

    The evaluators of witness votes and proxies, the refusal of voting rights
    ([steem_evaluator.cpp]) and the bookkeeping of vote weights they share with every
    change of vesting shares ([database::adjust_proxied_witness_votes] and the functions
    around it). *)

From S2P Require Import Prelude Exceptions Text Fc Config Asset FlatMap Authority Operations Crypto Validate Objects Database Conservation Preserve Sample.

Section Votes.
Context `{F : fc_ops}.

(** ** Bookkeeping *)

(** An element of a [std::array]; the indices in the sources are in range. *)
Definition at_index (i : nat) (l : list Z) : result Z :=
  match l !! i with Some x => Ok x | None => Throw fc_assert_exception end.

(** [for (i = n - 1; i >= 0; --i) votes[i + depth] += delta[i]] *)
Fixpoint add_shifted (n depth : nat) (delta votes : list Z) : result (list Z) :=
  match n with
  | O => Ok votes
  | S i => d ← at_index i delta; votes' ← add_at (i + depth) d votes; add_shifted i depth delta votes'
  end.

(** [for (i = n - 1; i >= 0; --i) total += delta[i]] *)
Fixpoint total_delta (n : nat) (delta : list Z) (total : Z) : result Z :=
  match n with
  | O => Ok total
  | S i => d ← at_index i delta; total' ← safe_add total d; total_delta i delta total'
  end.

#[local] Abbreviation DEPTH := (Z.to_nat STEEMIT_MAX_PROXY_RECURSION_DEPTH).

(** [adjust_proxied_witness_votes] for an array; the recursion is on
    [STEEMIT_MAX_PROXY_RECURSION_DEPTH - depth] *)
Fixpoint adjust_proxied_witness_votes_array (remaining : nat) (name : string) (delta : list Z) : M unit :=
  a ← get_account name;
  if negb (String.eqb (account_proxy a) STEEMIT_PROXY_TO_SELF_ACCOUNT) then
    match remaining with
    | O => mret tt
    | S r =>
        get_account (account_proxy a) ;;
        modify accounts (account_proxy a) (fun p =>
          votes ← add_shifted remaining (DEPTH - remaining) delta (account_proxied_vsf_votes p);
          Ok (p <| account_proxied_vsf_votes := votes |>)) ;;
        adjust_proxied_witness_votes_array r (account_proxy a) delta
    end
  else
    total ← lift (total_delta (S remaining) delta 0);
    adjust_witness_votes (account_id a) total.

(** [delta[0] = -vesting_shares.amount; delta[i + 1] = -proxied_vsf_votes[i]] *)
Fixpoint negate_all (l : list Z) : result (list Z) :=
  match l with
  | [] => Ok []
  | x :: l' => n ← safe_neg x; l'' ← negate_all l'; Ok (n :: l'')
  end.
Definition vote_delta (a : account_object) : result (list Z) :=
  negate_all (amount (account_vesting_shares a) :: take DEPTH (account_proxied_vsf_votes a)).

(** [clear_witness_votes] *)
Definition clear_witness_votes (name : string) : M unit :=
  a ← get_account name;
  vs ← gets (votes_of (account_id a));
  for_each (fun v => remove account_witness_votes (witness_vote_account v, witness_vote_witness v)) vs ;;
  hf6 ← has_hardfork STEEMIT_HARDFORK_0_6__104;
  when hf6 (modify accounts name (fun acc => Ok (acc <| account_witnesses_voted_for := 0 |>))).

(** ** Evaluators *)

(** The search for a loop: the chain of proxies from [cprox] on.  The set of accounts
    grows by one in each turn and has at most [STEEMIT_MAX_PROXY_RECURSION_DEPTH]
    elements, so that this many turns are enough. *)
Fixpoint check_proxy_chain (fuel : nat) (cprox : account_object) (proxy_chain : flat_set Z) : M unit :=
  if String.eqb (account_proxy cprox) "" then mret tt
  else
    match fuel with
    | O => throw (logic_exception proxy_chain_is_too_long)
    | S n =>
        next_proxy ← get_account (account_proxy cprox);
        check_logic_m (negb (fs_mem (account_id next_proxy) proxy_chain)) proxy_would_create_loop ;;
        let proxy_chain := fs_insert (account_id next_proxy) proxy_chain in
        check_logic_m (Z.of_nat (length proxy_chain) <=? STEEMIT_MAX_PROXY_RECURSION_DEPTH) proxy_chain_is_too_long ;;
        check_proxy_chain n next_proxy proxy_chain
    end.

Definition set_proxy (name proxy : string) : M unit :=
  modify accounts name (fun a => Ok (a <| account_proxy := proxy |>)).

(** [account_witness_proxy_evaluator::do_apply] *)
Definition account_witness_proxy_evaluator (o : account_witness_proxy_operation) : M unit :=
  let name := account_witness_proxy_account o in
  let proxy := account_witness_proxy_proxy o in
  account ← get_account name;
  check_logic_m (negb (String.eqb (account_proxy account) proxy)) proxy_must_change ;;
  check_logic_m (account_can_vote account) voter_declined_voting_rights ;;
  delta ← lift (vote_delta account);
  adjust_proxied_witness_votes_array DEPTH name delta ;;
  if negb (String.eqb proxy "") then
    new_proxy ← get_account proxy;
    check_proxy_chain DEPTH new_proxy (fs_insert (account_id new_proxy) (fs_insert (account_id account) [])) ;;
    clear_witness_votes name ;;
    set_proxy name proxy ;;
    delta ← lift (negate_all delta);
    adjust_proxied_witness_votes_array DEPTH name delta
  else set_proxy name proxy.

(** [account_witness_vote_evaluator::do_apply] *)
Definition account_witness_vote_evaluator (o : account_witness_vote_operation) : M unit :=
  let name := account_witness_vote_account o in
  let owner := account_witness_vote_witness o in
  let approve := account_witness_vote_approve o in
  voter ← get_account name;
  check_logic_m (String.eqb (account_proxy voter) "") cannot_vote_when_route_are_set ;;
  when approve (check_logic_m (account_can_vote voter) voter_declined_voting_rights) ;;
  witness ← get_witness owner;
  let k := (account_id voter, witness_id witness) in
  itr ← find_row account_witness_votes k;
  hf2 ← has_hardfork STEEMIT_HARDFORK_0_2;
  hf3 ← has_hardfork STEEMIT_HARDFORK_0_3;
  match itr with
  | None =>
      check_logic_m approve witness_vote_does_not_exist ;;
      when hf2 (check_logic_m (account_witnesses_voted_for voter <? STEEMIT_MAX_ACCOUNT_WITNESS_VOTES)
                  account_has_too_many_witness_votes) ;;
      create account_witness_votes k (fun id => {|
        witness_vote_id := id; witness_vote_witness := snd k; witness_vote_account := fst k |}) ;;
      weight ← lift (witness_vote_weight voter);
      (if (hf2 : bool) then
         if (hf3 : bool) then adjust_witness_vote owner weight else adjust_proxied_witness_votes name weight
       else modify witnesses owner (fun w =>
              v ← safe_add (witness_votes w) weight; Ok (w <| witness_votes := v |>))) ;;
      modify accounts name (fun a => Ok (a <| account_witnesses_voted_for ::= (fun n => to_uint16_wrap (n + 1)) |>))
  | Some _ =>
      check_logic_m (negb approve) witness_vote_already_exist ;;
      weight ← lift (witness_vote_weight voter);
      (if (hf2 : bool) then
         neg ← lift (safe_neg weight);
         if (hf3 : bool) then adjust_witness_vote owner neg else adjust_proxied_witness_votes name neg
       else modify witnesses owner (fun w =>
              v ← safe_sub (witness_votes w) weight; Ok (w <| witness_votes := v |>))) ;;
      modify accounts name (fun a => Ok (a <| account_witnesses_voted_for ::= (fun n => to_uint16_wrap (n - 1)) |>)) ;;
      remove account_witness_votes k
  end.

(** [decline_voting_rights_evaluator::do_apply] *)
Definition decline_voting_rights_evaluator (o : decline_voting_rights_operation) : M unit :=
  account ← get_account (decline_voting_rights_account o);
  let k := account_id account in
  itr ← find_row decline_requests k;
  now ← head_block_time;
  if decline_voting_rights_decline o then
    match itr with
    | Some _ => throw (object_already_exist "decline_voting_rights_request")
    | None => create decline_requests k (fun id => {|
                decline_request_id := id;
                decline_request_account := k;
                decline_request_effective_date := time_add now STEEMIT_OWNER_AUTH_RECOVERY_PERIOD |})
    end
  else
    match itr with
    | Some _ => remove decline_requests k
    | None => throw (missing_object "decline_voting_rights_request")
    end.

(** ** The block step *)

(** Index [by_effective_date] *)
Definition by_effective_date (x y : decline_voting_rights_request_object) : comparison :=
  cmp_then (Z.compare (decline_request_effective_date x) (decline_request_effective_date y))
    (Z.compare (decline_request_account x) (decline_request_account y)).
Definition decline_effective (now : Z) (r : decline_voting_rights_request_object) : bool :=
  decline_request_effective_date r <=? now.

(** One turn of the loop of [process_decline_voting_rights] *)
Definition decline_voting_rights (k : Z) : M unit :=
  r ← get_row decline_requests "decline_voting_rights_request" k;
  name ← get_account_by_id (decline_request_account r);
  account ← get_account name;
  delta ← lift (vote_delta account);
  adjust_proxied_witness_votes_array DEPTH name delta ;;
  clear_witness_votes name ;;
  modify accounts name (fun a =>
    Ok (a <| account_can_vote := false |> <| account_proxy := STEEMIT_PROXY_TO_SELF_ACCOUNT |>)) ;;
  remove decline_requests k.

(** [process_decline_voting_rights]; each turn removes a request. *)
Definition process_decline_voting_rights : M unit :=
  fuel ← gets (fun db => S (size (rows (decline_requests db))));
  drain fuel (fun db => first_due (decline_effective (dgp_time (dgp db))) by_effective_date (decline_requests db))
    decline_voting_rights.
End Votes.

(** ** Propagation along the proxies

    Both forms of [adjust_proxied_witness_votes] walk up the chain of proxies, adding to
    each proxy, and to the witnesses of the last one. *)

Section Propagate.
Context `{F : fc_ops}.
#[local] Abbreviation DEPTH := (Z.to_nat STEEMIT_MAX_PROXY_RECURSION_DEPTH).

Fixpoint propagate (upd : nat -> list Z -> result (list Z)) (total : nat -> result Z) (remaining : nat) (name : string)
    : M unit :=
  a ← get_account name;
  if negb (String.eqb (account_proxy a) STEEMIT_PROXY_TO_SELF_ACCOUNT) then
    match remaining with
    | O => mret tt
    | S r =>
        get_account (account_proxy a) ;;
        modify accounts (account_proxy a) (fun p =>
          votes ← upd remaining (account_proxied_vsf_votes p);
          Ok (p <| account_proxied_vsf_votes := votes |>)) ;;
        propagate upd total r (account_proxy a)
    end
  else t ← lift (total remaining); adjust_witness_votes (account_id a) t.

Lemma bind_ext {A B : Type} (m : M A) (f g : A -> M B) db : (forall a db', f a db' = g a db') -> (m ≫= f) db = (m ≫= g) db.
Proof.
  intros Hfg. change ((m ≫= f) db) with (match m db with Ok (a, db1) => f a db1 | Throw e => Throw e end).
  change ((m ≫= g) db) with (match m db with Ok (a, db1) => g a db1 | Throw e => Throw e end).
  destruct (m db) as [[a db'] | e]; [apply Hfg | done].
Qed.

Lemma adjust_at_propagate r name delta db :
  adjust_proxied_witness_votes_at r name delta db =
  propagate (fun r => add_at (DEPTH - r) delta) (fun _ => Ok delta) r name db.
Proof.
  revert name db. induction r as [| r IH]; intros name db; cbn; apply bind_ext; intros a db'; case_match; try done.
  apply bind_ext. intros _ db2. apply bind_ext. intros _ db3. apply IH.
Qed.
Lemma adjust_array_propagate r name delta db :
  adjust_proxied_witness_votes_array r name delta db =
  propagate (fun r => add_shifted r (DEPTH - r) delta) (fun r => total_delta (S r) delta 0) r name db.
Proof.
  revert name db. induction r as [| r IH]; intros name db; cbn; apply bind_ext; intros a db'; case_match; try done.
  apply bind_ext. intros _ db2. apply bind_ext. intros _ db3. apply IH.
Qed.
End Propagate.

(** ** The tallies *)

(** What an account passes on: its own vesting shares, then what was proxied to it at
    each distance *)
Definition share_at (a : account_object) (i : nat) : Z :=
  match i with O => amount (account_vesting_shares a) | S j => nth j (account_proxied_vsf_votes a) 0 end.
#[global] Arguments share_at : simpl never.
Definition total_of (D : nat -> Z) : Z := D 0%nat + D 1%nat + D 2%nat + D 3%nat + D 4%nat.

Definition proxied_share (p : string) (j : nat) (a : account_object) : Z :=
  if String.eqb (account_proxy a) p then share_at a j else 0.
Definition voted (a : account_object) (witness : Z) (db : database) : bool :=
  bool_decide (is_Some (rows (account_witness_votes db) !! (account_id a, witness))).
Definition cast_share (db : database) (witness : Z) (a : account_object) : Z :=
  if voted a witness db then total_of (share_at a) else 0.

(** The recorded tallies and a recount agree up to [e1] for the proxied votes and [e2]
    for the witnesses. *)
Record tally (e1 : string -> nat -> Z) (e2 : Z -> Z) (db : database) : Prop := mk_tally {
  tally_proxied : forall p a j, rows (accounts db) !! p = Some a -> p <> "" -> (j < 4)%nat ->
    share_at a (S j) + e1 p j = msum (proxied_share p j) (rows (accounts db));
  tally_votes : forall o x, rows (witnesses db) !! o = Some x ->
    witness_votes x + e2 (witness_id x) = msum (cast_share db (witness_id x)) (rows (accounts db))
}.

Lemma tally_ext e1 e2 e1' e2' db :
  (forall p j, p <> "" -> (j < 4)%nat -> e1' p j = e1 p j) -> (forall x, e2' x = e2 x) -> tally e1 e2 db -> tally e1' e2' db.
Proof.
  intros E1 E2 [Hp Hv]. split.
  - intros p a j Ha Hne Hj. rewrite E1 by done. by apply Hp.
  - intros o x Hx. rewrite E2. by eapply Hv.
Qed.

(** The number of proxies above an account *)
Inductive height (m : gmap string account_object) : string -> nat -> Prop :=
| height_self k a : m !! k = Some a -> account_proxy a = "" -> height m k 0
| height_proxy k a n : m !! k = Some a -> account_proxy a <> "" -> height m (account_proxy a) n -> height m k (S n).

Record votes_wf (db : database) : Prop := {
  votes_names : map_Forall (fun k a => account_name a = k /\ length (account_proxied_vsf_votes a) = 4%nat) (rows (accounts db));
  votes_ids : forall k1 k2 a1 a2, rows (accounts db) !! k1 = Some a1 -> rows (accounts db) !! k2 = Some a2 ->
    account_id a1 = account_id a2 -> k1 = k2;
  votes_witness_ids : forall o1 o2 w1 w2, rows (witnesses db) !! o1 = Some w1 -> rows (witnesses db) !! o2 = Some w2 ->
    witness_id w1 = witness_id w2 -> o1 = o2;
  votes_keyed : map_Forall (fun k v => k = (witness_vote_account v, witness_vote_witness v)) (rows (account_witness_votes db));
  votes_proxied : forall k a x, rows (accounts db) !! k = Some a -> account_proxy a <> "" -> voted a x db = false;
  votes_rooted : forall k, is_Some (rows (accounts db) !! k) -> exists n, height (rows (accounts db)) k n
}.

(** ** Single changes *)

Section Changes.
Context `{F : fc_ops} {L : fc_laws F}.

(** A change of the shares of one account *)
Lemma tally_update e1 e2 k v v' n db :
  rows (accounts db) !! k = Some v -> account_proxy v' = account_proxy v -> account_id v' = account_id v ->
  tally e1 e2 db ->
  tally (fun p j => e1 p j + (if String.eqb (account_proxy v) p then share_at v' j - share_at v j else 0)
                    - (if String.eqb k p then share_at v' (S j) - share_at v (S j) else 0))
        (fun x => e2 x + (if voted v x db then total_of (share_at v') - total_of (share_at v) else 0))
        (db <| accounts := mk_table (<[k := v']> (rows (accounts db))) n |>).
Proof.
  intros Hv Hproxy Hid [Hp Hvotes]. split; cbn.
  - intros p a j Ha Hne Hj. rewrite (msum_insert _ _ _ _ v) by done.
    unfold proxied_share at 2 3. rewrite Hproxy. apply lookup_insert_Some in Ha as [[<- <-] | [Hkp Ha]].
    + rewrite String.eqb_refl. pose proof (Hp k v j Hv Hne Hj). destruct (String.eqb (account_proxy v) k); lia.
    + assert (String.eqb k p = false) as -> by (by apply String.eqb_neq).
      pose proof (Hp p a j Ha Hne Hj). destruct (String.eqb (account_proxy v) p); lia.
  - intros o x Hx. rewrite (msum_insert _ _ _ _ v) by done. pose proof (Hvotes o x Hx) as Hsum.
    change (cast_share (db <| accounts := _ |>) (witness_id x)) with (cast_share db (witness_id x)).
    unfold cast_share at 2 3. replace (voted v' (witness_id x) db) with (voted v (witness_id x) db).
    2: { unfold voted. by rewrite Hid. }
    destruct (voted v (witness_id x) db); lia.
Qed.

Lemma adjust_witness_vote_run owner delta db u db' :
  adjust_witness_vote owner delta db = Ok (u, db') ->
  exists w w', rows (witnesses db) !! owner = Some w /\ witness_id w' = witness_id w /\
    witness_votes w' = witness_votes w + delta /\
    db' = db <| witnesses := mk_table (<[owner := w']> (rows (witnesses db))) (next_id (witnesses db)) |>.
Proof.
  unfold adjust_witness_vote. intros H. inv_run. apply modify_run in H as (w & w' & Hw & Hw' & ->). exists w, w'.
  cbv zeta in Hw'. inv_ok. apply safe_add_Ok in Hrun. subst. done.
Qed.

(** The votes of some witnesses *)
Lemma adjust_each_run (l : list witness_vote_object) delta db u db' :
  NoDup (witness_vote_witness <$> l) ->
  (forall o1 o2 w1 w2, rows (witnesses db) !! o1 = Some w1 -> rows (witnesses db) !! o2 = Some w2 ->
    witness_id w1 = witness_id w2 -> o1 = o2) ->
  for_each (fun v => owner ← get_witness_by_id (witness_vote_witness v); adjust_witness_vote owner delta) l db = Ok (u, db') ->
  exists m n, db' = db <| witnesses := mk_table m n |> /\
    forall o, option_Forall2 (fun w w' => witness_id w' = witness_id w /\
      witness_votes w' = witness_votes w + (if bool_decide (witness_id w ∈ witness_vote_witness <$> l) then delta else 0))
      (rows (witnesses db) !! o) (m !! o).
Proof.
  revert db. induction l as [| v l IH]; intros db Hnd Hids H; cbn in H; inv_run.
  - exists (rows (witnesses db)), (next_id (witnesses db)). split; [by destruct db as [? ? ? ? ? ? ? ? ? ? ? ? ? ? []]|].
    intros o. destruct (rows (witnesses db) !! o); constructor. split; [done|].
    rewrite bool_decide_false by (cbn; apply not_elem_of_nil). lia.
  - apply NoDup_cons in Hnd as [Hnotin Hnd].
    unfold get_witness_by_id in Hrun0. destruct (table_find_by _ _) as [[owner' w0]|] eqn:Hfind; [|done].
    injection Hrun0 as <- <-. apply adjust_witness_vote_run in Hrun as (w & w' & Hw & Hid & Hvotes & ->).
    assert (witness_id w = witness_vote_witness v) as Hwid.
    { unfold table_find_by in Hfind. apply head_Some_elem_of, list_elem_of_filter in Hfind as [Hid0 Hin].
      apply elem_of_map_to_list in Hin. cbn in Hid0. simplify_eq. apply Is_true_true in Hid0. lia. }
    apply IH in H as (m & n & -> & Hm); [| done |].
    + exists m, n. split; [done|]. intros o. specialize (Hm o). cbn in Hm.
      destruct (decide (o = owner')) as [-> | Hne].
      * rewrite lookup_insert_eq in Hm. rewrite Hw. inversion Hm as [? w2 [E1 E2] E3 E4 |]; subst. constructor.
        split; [congruence|]. rewrite E2, Hvotes, Hid, Hwid.
        rewrite (bool_decide_true (_ ∈ _ <$> v :: l)) by (cbn; left).
        rewrite bool_decide_false by done. lia.
      * rewrite lookup_insert_ne in Hm by done. destruct (rows (witnesses db) !! o) as [x|] eqn:Hx; inversion Hm; constructor.
        destruct_and!. split; [done|]. rewrite fmap_cons.
        erewrite (bool_decide_ext (witness_id x ∈ witness_vote_witness v :: _)); [done|].
        rewrite elem_of_cons. split; [|by right]. intros [E | ?]; [|done]. exfalso. apply Hne. eapply Hids; [done | done |]. congruence.
    + cbn. intros o1 o2 w1 w2 H1 H2 E. apply lookup_insert_Some in H1 as [[<- <-] | [? H1]], H2 as [[<- <-] | [? H2]];
        [done | eapply (Hids _ _ w w2); [done | done | congruence] | eapply (Hids _ _ w1 w); [done | done | congruence] | by eapply Hids].
Qed.

Lemma votes_of_witnesses db account x : votes_wf db ->
  x ∈ witness_vote_witness <$> votes_of account db <-> is_Some (rows (account_witness_votes db) !! (account, x)).
Proof.
  intros Hwf. unfold votes_of. rewrite sort_by_perm, list_elem_of_fmap. split.
  - intros (v & -> & [Hacc ([k v'] & -> & Hin%elem_of_map_to_list)%list_elem_of_fmap]%list_elem_of_filter).
    pose proof (votes_keyed _ Hwf _ _ Hin) as Hk. cbn in *. subst. by eexists.
  - intros [v Hv]. pose proof (votes_keyed _ Hwf _ _ Hv) as [= -> ->]. exists v. split; [done|].
    apply list_elem_of_filter. split; [done|]. apply list_elem_of_fmap. eexists (_, v).
    split; [done|]. by apply elem_of_map_to_list.
Qed.
Lemma votes_of_nodup db account : votes_wf db -> NoDup (witness_vote_witness <$> votes_of account db).
Proof.
  intros Hwf. unfold votes_of. rewrite sort_by_perm.
  assert (forall l : list (Z * Z * witness_vote_object), NoDup l.*1 ->
    Forall (fun kv => kv.1 = (witness_vote_account kv.2, witness_vote_witness kv.2)) l ->
    NoDup (witness_vote_witness <$> filter (fun v => witness_vote_account v = account) l.*2)) as Hl.
  { induction l as [| [k v] l IH]; intros Hnd Hall; [constructor|].
    apply NoDup_cons in Hnd as [Hk Hnd]. apply Forall_cons in Hall as [Hkey Hall]. cbn in Hkey.
    rewrite fmap_cons, filter_cons. case_decide as Hacc; [|by apply IH]. cbn. constructor; [|by apply IH].
    intros (v' & Ew & [Hacc' ([k' v''] & -> & Hin)%list_elem_of_fmap]%list_elem_of_filter)%list_elem_of_fmap.
    apply Hk. rewrite Forall_forall in Hall. specialize (Hall _ Hin). cbn in *.
    apply list_elem_of_fmap. exists (k', v''). split; [|done]. cbn. congruence. }
  apply Hl; [apply NoDup_fst_map_to_list|].
  apply Forall_forall. intros [k v] Hin%elem_of_map_to_list. by apply (votes_keyed _ Hwf).
Qed.

(** The witnesses an account votes for *)
Lemma adjust_witness_votes_tally e1 e2 k a t db u db' :
  votes_wf db -> rows (accounts db) !! k = Some a ->
  adjust_witness_votes (account_id a) t db = Ok (u, db') ->
  tally e1 (fun x => e2 x + (if voted a x db then t else 0)) db -> tally e1 e2 db'.
Proof.
  unfold adjust_witness_votes. intros Hwf Ha H [Hp Hv]. inv_run.
  apply adjust_each_run in H as (m & n & -> & Hm); [| by apply votes_of_nodup | by apply (votes_witness_ids db Hwf)].
  split; [done|]. cbn. intros o x Hx. specialize (Hm o). rewrite Hx in Hm.
  inversion Hm as [w ? [Hid Hvotes] Ew |]; subst. symmetry in Ew. specialize (Hv o w Ew). rewrite Hid.
  change (cast_share (db <| witnesses := _ |>)) with (cast_share db). rewrite <- Hv, Hvotes.
  unfold voted. rewrite (bool_decide_ext _ _ (votes_of_witnesses db (account_id a) (witness_id w) Hwf)). lia.
Qed.
End Changes.

(** ** What propagation leaves alone *)

Record same_account (a a' : account_object) : Prop := mk_same_account {
  same_name : account_name a' = account_name a;
  same_id : account_id a' = account_id a;
  same_proxy : account_proxy a' = account_proxy a;
  same_length : length (account_proxied_vsf_votes a') = length (account_proxied_vsf_votes a)
}.
Record skeleton (db db' : database) : Prop := mk_skeleton {
  skeleton_accounts k : option_Forall2 same_account (rows (accounts db) !! k) (rows (accounts db') !! k);
  skeleton_witnesses o : option_Forall2 (fun w w' => witness_id w' = witness_id w)
    (rows (witnesses db) !! o) (rows (witnesses db') !! o);
  skeleton_votes : account_witness_votes db' = account_witness_votes db;
  skeleton_hardforks : processed_hardforks db' = processed_hardforks db
}.
#[global] Instance same_account_preorder : PreOrder same_account.
Proof. split; [by split|]. intros x y z [] []. split; congruence. Qed.
#[global] Instance skeleton_preorder : PreOrder skeleton.
Proof.
  split.
  - intros db. split; try done. intros o. destruct (rows (witnesses db) !! o); by constructor.
  - intros x y z [A1 W1 ? ?] [A2 W2 ? ?]. split; try congruence.
    + intros k. specialize (A1 k). specialize (A2 k). destruct A1; inversion A2; constructor. by etrans.
    + intros k. specialize (W1 k). specialize (W2 k). destruct W1; inversion W2; constructor. congruence.
Qed.

Section Skeleton.
Context `{F : fc_ops} {L : fc_laws F}.

Lemma skeleton_insert k a a' n db : rows (accounts db) !! k = Some a -> same_account a a' ->
  skeleton db (db <| accounts := mk_table (<[k := a']> (rows (accounts db))) n |>).
Proof.
  intros Ha Hsame. split; cbn; try done; intros o.
  - destruct (decide (o = k)) as [-> | Hne].
    + rewrite Ha, lookup_insert_eq. by constructor.
    + rewrite lookup_insert_ne by done. destruct (rows (accounts db) !! o); by constructor.
  - destruct (rows (witnesses db) !! o); by constructor.
Qed.
Lemma skeleton_adjust_witness_vote owner t : preserves skeleton (adjust_witness_vote owner t).
Proof.
  intros db u db' (w & w' & Hw & Hid & _ & ->)%adjust_witness_vote_run. split; cbn; try done. intros o.
  destruct (decide (o = owner)) as [-> | Hne].
  - rewrite Hw, lookup_insert_eq. by constructor.
  - rewrite lookup_insert_ne by done. destruct (rows (witnesses db) !! o); by constructor.
Qed.
Lemma skeleton_adjust_witness_votes id t : preserves skeleton (adjust_witness_votes id t).
Proof.
  unfold adjust_witness_votes. compose preserves_bind; [compose preserves_gets|]. intros vs.
  compose preserves_for_each. intros v. compose preserves_bind; [compose preserves_witness_by_id|]. intros o.
  apply skeleton_adjust_witness_vote.
Qed.

Lemma skeleton_height db db' k n : skeleton db db' -> height (rows (accounts db)) k n -> height (rows (accounts db')) k n.
Proof.
  intros Hs. induction 1 as [k a Ha Hp | k a n Ha Hp _ IH]; pose proof (skeleton_accounts _ _ Hs k) as Hk;
    rewrite Ha in Hk; inversion Hk as [? a' Hsame E1 E2 |]; subst; pose proof (same_proxy _ _ Hsame) as Epr.
  - eapply height_self; [done | congruence].
  - eapply height_proxy; [done | congruence |]. by rewrite Epr.
Qed.

Lemma skeleton_voted db db' a a' x : skeleton db db' -> same_account a a' -> voted a' x db' = voted a x db.
Proof. intros Hs Ha. unfold voted. by rewrite (skeleton_votes _ _ Hs), (same_id _ _ Ha). Qed.

Lemma skeleton_back db db' k a' : skeleton db db' -> rows (accounts db') !! k = Some a' ->
  exists a, rows (accounts db) !! k = Some a /\ same_account a a'.
Proof. intros Hs Ha. pose proof (skeleton_accounts _ _ Hs k) as Hk. rewrite Ha in Hk. inversion Hk; subst. by eexists. Qed.

Lemma skeleton_wf db db' : skeleton db db' -> votes_wf db -> votes_wf db'.
Proof.
  intros Hs Hwf. split.
  - intros k a' Ha'. destruct (skeleton_back _ _ _ _ Hs Ha') as (a & Ha & Hsame).
    destruct (votes_names _ Hwf _ _ Ha). destruct Hsame. split; congruence.
  - intros k1 k2 a1 a2 H1 H2 E. destruct (skeleton_back _ _ _ _ Hs H1) as (b1 & Hb1 & S1), (skeleton_back _ _ _ _ Hs H2) as (b2 & Hb2 & S2).
    apply (votes_ids _ Hwf k1 k2 b1 b2 Hb1 Hb2). destruct S1, S2. congruence.
  - intros o1 o2 w1 w2 H1 H2 E. pose proof (skeleton_witnesses _ _ Hs o1) as S1. pose proof (skeleton_witnesses _ _ Hs o2) as S2.
    rewrite H1 in S1. rewrite H2 in S2. inversion S1; inversion S2; subst. eapply (votes_witness_ids _ Hwf); [done | done | congruence].
  - rewrite (skeleton_votes _ _ Hs). apply (votes_keyed _ Hwf).
  - intros k a' x Ha' Hp. destruct (skeleton_back _ _ _ _ Hs Ha') as (a & Ha & Hsame).
    rewrite (skeleton_voted _ _ _ _ _ Hs Hsame). eapply (votes_proxied _ Hwf); [done|]. by rewrite <- (same_proxy _ _ Hsame).
  - intros k [a' Ha']. destruct (skeleton_back _ _ _ _ Hs Ha') as (a & Ha & _).
    destruct (votes_rooted _ Hwf k) as [n Hn]; [by eexists|]. exists n. by eapply skeleton_height.
Qed.
End Skeleton.

(** ** Propagation keeps the tallies *)

(** What a change [d] of the shares of an account is for the proxy at distance [k] *)
Definition shifted (d : nat -> Z) (k j : nat) : Z := if (j <? k)%nat then 0 else d (j - k)%nat.

Record propagates (d : nat -> Z) (upd : nat -> list Z -> result (list Z)) (total : nat -> result Z) : Prop := {
  propagates_upd r votes votes' : (r < 4)%nat -> length votes = 4%nat -> upd (S r) votes = Ok votes' ->
    length votes' = 4%nat /\ forall j, (j < 4)%nat -> nth j votes' 0 = nth j votes 0 + shifted d (3 - r) j;
  propagates_total r t : (r <= 4)%nat -> total r = Ok t -> t = total_of (shifted d (4 - r))
}.

Lemma height_unique m k n n' : height m k n -> height m k n' -> n = n'.
Proof.
  intros H. revert n'. induction H as [k a Ha Hp | k a n Ha Hp _ IH]; intros n' H'; inversion H'; simplify_eq; [done|].
  f_equal. by apply IH.
Qed.

Section PropagateTally.
Context `{F : fc_ops} {L : fc_laws F}.
Variables (d : nat -> Z) (upd : nat -> list Z -> result (list Z)) (total : nat -> result Z).
Hypothesis Hprop : propagates d upd total.

(** One step up the chain *)
Inductive propagated (r : nat) (a : account_object) (db : database) : database -> Prop :=
| propagated_last t u db' : account_proxy a = "" -> total r = Ok t ->
    adjust_witness_votes (account_id a) t db = Ok (u, db') -> propagated r a db db'
| propagated_cut : account_proxy a <> "" -> r = O -> propagated r a db db
| propagated_up r' p votes u db' : account_proxy a <> "" -> r = S r' -> rows (accounts db) !! account_proxy a = Some p ->
    upd r (account_proxied_vsf_votes p) = Ok votes ->
    propagate upd total r' (account_proxy a)
      (db <| accounts := mk_table (<[account_proxy a := p <| account_proxied_vsf_votes := votes |>]> (rows (accounts db)))
                           (next_id (accounts db)) |>) = Ok (u, db') ->
    propagated r a db db'.

Lemma propagate_inv r name db u db' : propagate upd total r name db = Ok (u, db') ->
  exists a, rows (accounts db) !! name = Some a /\ propagated r a db db'.
Proof.
  destruct r as [| r]; cbn; intros H; inv_run; eexists; (split; [done|]);
    change STEEMIT_PROXY_TO_SELF_ACCOUNT with "" in *;
    first [apply negb_true_iff, String.eqb_neq in Heqb | apply negb_false_iff, String.eqb_eq in Heqb].
  1: by apply propagated_cut. 1, 3: by eapply propagated_last.
  apply modify_run in Hrun0 as (p & p' & Hp & Hp' & ->). inv_ok. by eapply propagated_up.
Qed.

(** The change of the next proxy, and what follows for the rest of the chain *)
Lemma propagate_skeleton r name db u db' : (r <= 4)%nat -> votes_wf db ->
  propagate upd total r name db = Ok (u, db') -> skeleton db db'.
Proof.
  revert name db u db'. induction r as [r IH] using lt_wf_ind. intros name db u db' Hr Hwf (a & Ha & H)%propagate_inv.
  destruct H as [t u' db' Hp Ht H | Hp Er | r' p votes u' db' Hp Er Hpa Hupd H]; subst; [by eapply skeleton_adjust_witness_votes | done|].
  destruct (votes_names _ Hwf _ _ Hpa) as [_ Hlen].
  destruct (propagates_upd _ _ _ Hprop r' _ _ ltac:(lia) Hlen Hupd) as [Hlen' _].
  assert (same_account p (p <| account_proxied_vsf_votes := votes |>)) as Hsame by (split; cbn; congruence).
  pose proof (skeleton_insert _ _ _ (next_id (accounts db)) _ Hpa Hsame) as Hs.
  etrans; [apply Hs|]. eapply (IH r'); [lia | lia | by eapply skeleton_wf | done].
Qed.

Lemma propagate_above r name n db u db' : (r <= 4)%nat -> votes_wf db -> height (rows (accounts db)) name n ->
  propagate upd total r name db = Ok (u, db') ->
  forall q h, height (rows (accounts db)) q h -> (n <= h)%nat -> rows (accounts db') !! q = rows (accounts db) !! q.
Proof.
  revert name n db u db'. induction r as [r IH] using lt_wf_ind. intros name n db u db' Hr Hwf Hn (a & Ha & H)%propagate_inv q h Hq Hh.
  destruct H as [t u' db' Hp Ht H | Hp Er | r' p votes u' db' Hp Er Hpa Hupd H]; subst; [| done|].
  - unfold adjust_witness_votes in H. inv_run.
    by apply adjust_each_run in H as (m & n' & -> & _); [| by apply votes_of_nodup | by apply (votes_witness_ids db Hwf)].
  - destruct (votes_names _ Hwf _ _ Hpa) as [_ Hlen].
    destruct (propagates_upd _ _ _ Hprop r' _ _ ltac:(lia) Hlen Hupd) as [Hlen' _].
    assert (same_account p (p <| account_proxied_vsf_votes := votes |>)) as Hsame by (split; cbn; congruence).
    pose proof (skeleton_insert _ _ _ (next_id (accounts db)) _ Hpa Hsame) as Hs.
    inversion Hn as [k a' Ha' Hp' | k a' m Ha' Hp' Hm]; simplify_eq.
    erewrite (IH r'); [| lia | lia | by eapply skeleton_wf | by eapply skeleton_height | done | by eapply skeleton_height | lia].
    cbn. rewrite lookup_insert_ne; [done|]. intros <-. pose proof (height_unique _ _ _ _ Hm Hq). lia.
Qed.


Lemma shifted_beyond k j : (j < k)%nat -> shifted d k j = 0.
Proof. intros H. unfold shifted. by apply Nat.ltb_lt in H as ->. Qed.
Lemma shifted_S k j : shifted d (S k) (S j) = shifted d k j.
Proof. done. Qed.

(** What the next proxy passes on after the change *)
Lemma propagated_share r p votes : (r < 4)%nat -> length (account_proxied_vsf_votes p) = 4%nat ->
  upd (S r) (account_proxied_vsf_votes p) = Ok votes ->
  (forall j, (j < 4)%nat ->
    share_at (p <| account_proxied_vsf_votes := votes |>) (S j) = share_at p (S j) + shifted d (4 - S r) j) /\
  (forall j, (j <= 4)%nat -> share_at (p <| account_proxied_vsf_votes := votes |>) j = share_at p j + shifted d (4 - r) j).
Proof.
  intros Hr Hlen Hupd. destruct (propagates_upd _ _ _ Hprop r _ _ Hr Hlen Hupd) as [_ Hnth].
  assert (forall j, (j < 4)%nat ->
    share_at (p <| account_proxied_vsf_votes := votes |>) (S j) = share_at p (S j) + shifted d (4 - S r) j) as Hs.
  { intros j Hj. unfold share_at. cbn. by rewrite Hnth. }
  split; [done|]. intros [| j] Hj.
  - unfold share_at at 1 2. cbn [account_vesting_shares]. rewrite shifted_beyond by lia. cbn. lia.
  - rewrite Hs by lia. replace (4 - r)%nat with (S (4 - S r)) by lia. by rewrite shifted_S.
Qed.

Lemma propagate_tally r name a e1 e2 db u db' : (r <= 4)%nat -> votes_wf db -> rows (accounts db) !! name = Some a ->
  propagate upd total r name db = Ok (u, db') ->
  tally (fun p j => e1 p j + (if String.eqb (account_proxy a) p then shifted d (4 - r) j else 0))
        (fun x => e2 x + (if voted a x db then total_of (shifted d (4 - r)) else 0)) db ->
  tally e1 e2 db'.
Proof.
  revert name a db u db'. induction r as [r IH] using lt_wf_ind.
  intros name a db u db' Hr Hwf Ha (a' & Ha' & H)%propagate_inv Ht. simplify_eq.
  destruct H as [t u' db' Hp Htot H | Hp Er | r' p votes u' db' Hp Er Hpa Hupd H]; subst.
  - apply (propagates_total _ _ _ Hprop) in Htot; [|done]. subst t.
    eapply adjust_witness_votes_tally; [done | done | done |]. eapply tally_ext; [| | done]; [|done].
    intros p j Hne _. rewrite Hp. assert (String.eqb "" p = false) as -> by (by apply String.eqb_neq). lia.
  - eapply tally_ext; [| | done]; cbn.
    + intros p j _ Hj. rewrite shifted_beyond by done. case_match; lia.
    + intros x. rewrite (votes_proxied _ Hwf _ _ x Ha Hp). lia.
  - destruct (votes_names _ Hwf _ _ Hpa) as [_ Hlen].
    destruct (propagates_upd _ _ _ Hprop r' _ _ ltac:(lia) Hlen Hupd) as [Hlen' _].
    destruct (propagated_share r' p votes ltac:(lia) Hlen Hupd) as [Hup Hnext].
    assert (same_account p (p <| account_proxied_vsf_votes := votes |>)) as Hsame by (split; cbn; congruence).
    pose proof (skeleton_insert _ _ _ (next_id (accounts db)) _ Hpa Hsame) as Hs.
    eapply (IH r'); [lia | lia | by eapply skeleton_wf | apply lookup_insert_eq | done |].
    eapply tally_ext; [| | eapply (tally_update _ _ _ p (p <| account_proxied_vsf_votes := votes |>)); [done | done | done | exact Ht]].
    + intros q j Hne Hj. cbn -[Nat.sub]. rewrite (Hup j Hj), (Hnext j) by lia.
      destruct (String.eqb (account_proxy a) q), (String.eqb (account_proxy p) q); lia.
    + intros x. cbn -[Nat.sub]. rewrite (votes_proxied _ Hwf _ _ x Ha Hp).
      change (voted (p <| account_proxied_vsf_votes := votes |>) x _) with (voted p x db).
      unfold total_of. rewrite !Hnext by lia. destruct (voted p x db); lia.
Qed.
End PropagateTally.

(** ** The two forms of a change *)

Definition single (delta : Z) (i : nat) : Z := if (i =? 0)%nat then delta else 0.
Definition entry (delta : list Z) (i : nat) : Z := nth i delta 0.

Section Forms.
Context `{F : fc_ops} {L : fc_laws F}.

Lemma add_at_Ok i x l l' : add_at i x l = Ok l' ->
  length l' = length l /\ forall j, nth j l' 0 = nth j l 0 + (if (j =? i)%nat then x else 0).
Proof.
  unfold add_at. destruct (l !! i) as [y|] eqn:Hy; [|done]. intros H. inv_ok. apply safe_add_Ok in Hrun. subst.
  split; [apply length_insert|]. intros j. rewrite !nth_lookup. destruct (Nat.eqb_spec j i) as [-> | Hne].
  - rewrite list_lookup_insert_eq by (by eapply lookup_lt_Some). rewrite Hy. cbn. lia.
  - rewrite list_lookup_insert_ne by done. lia.
Qed.
Lemma at_index_Ok i l x : at_index i l = Ok x -> x = entry l i.
Proof. unfold at_index, entry. rewrite nth_lookup. destruct (l !! i); [by intros [= ->] | done]. Qed.

Lemma add_shifted_Ok n depth delta votes votes' : add_shifted n depth delta votes = Ok votes' ->
  length votes' = length votes /\
  forall j, nth j votes' 0 = nth j votes 0 + (if (depth <=? j)%nat && (j <? depth + n)%nat then entry delta (j - depth) else 0).
Proof.
  revert votes. induction n as [| n IH]; intros votes H; cbn in H; inv_ok.
  - split; [done|]. intros j. destruct (Nat.leb_spec depth j), (Nat.ltb_spec j (depth + 0)); cbn; lia.
  - apply at_index_Ok in Hrun as ->. apply add_at_Ok in Hrun0 as [Hlen Hnth]. apply IH in H as [Hlen' Hnth'].
    split; [congruence|]. intros j. rewrite Hnth', Hnth.
    destruct (Nat.eqb_spec j (n + depth)) as [Ej | ?];
      destruct (Nat.leb_spec depth j), (Nat.ltb_spec j (depth + n)), (Nat.ltb_spec j (depth + S n)); cbn; try lia.
    replace (j - depth)%nat with n by lia. lia.
Qed.

Lemma total_delta_Ok r delta t : (r <= 4)%nat -> total_delta (S r) delta 0 = Ok t -> t = total_of (shifted (entry delta) (4 - r)).
Proof.
  intros Hr H. unfold total_of.
  do 5 (destruct r as [| r]; [cbn in H; inv_ok; repeat match goal with
    | H : at_index _ _ = Ok _ |- _ => apply at_index_Ok in H
    | H : safe_add _ _ = Ok _ |- _ => apply safe_add_Ok in H end; subst; cbv [shifted Nat.ltb Nat.leb Nat.sub]; lia|]).
  lia.
Qed.

Lemma array_propagates delta :
  propagates (entry delta) (fun r => add_shifted r (4 - r) delta) (fun r => total_delta (S r) delta 0).
Proof.
  split.
  - intros r votes votes' Hr Hlen [Hlen' Hnth]%add_shifted_Ok. split; [congruence|]. intros j Hj. rewrite Hnth.
    f_equal. unfold shifted. destruct (Nat.leb_spec (4 - S r) j), (Nat.ltb_spec j (4 - S r + S r)), (Nat.ltb_spec j (3 - r)); cbn -[Nat.sub]; first [done | lia].
  - intros r t. apply total_delta_Ok.
Qed.
Lemma single_propagates delta : propagates (single delta) (fun r => add_at (4 - r) delta) (fun _ => Ok delta).
Proof.
  split.
  - intros r votes votes' Hr Hlen [Hlen' Hnth]%add_at_Ok. split; [congruence|]. intros j Hj. rewrite Hnth.
    f_equal. unfold shifted, single. destruct (Nat.eqb_spec j (4 - S r)), (Nat.ltb_spec j (3 - r)), (Nat.eqb_spec (j - (3 - r)) 0); lia.
  - intros r t Hr [= <-]. unfold total_of. do 5 (destruct r as [| r]; [cbv [shifted single Nat.ltb Nat.leb Nat.eqb Nat.sub]; lia|]). lia.
Qed.

(** A change by [delta] of the vesting shares of [name] *)
Lemma adjust_proxied_tally name a delta e1 e2 db u db' : votes_wf db -> rows (accounts db) !! name = Some a ->
  adjust_proxied_witness_votes name delta db = Ok (u, db') ->
  tally (fun p j => e1 p j + (if String.eqb (account_proxy a) p then single delta j else 0))
        (fun x => e2 x + (if voted a x db then delta else 0)) db ->
  tally e1 e2 db' /\ skeleton db db'.
Proof.
  unfold adjust_proxied_witness_votes. rewrite adjust_at_propagate. intros Hwf Ha H Ht. split.
  - eapply (propagate_tally _ _ _ (single_propagates delta) 4); [done | done | done | exact H |].
    eapply tally_ext; [| | exact Ht]; cbn; unfold shifted; cbn.
    + intros p j _ _. by rewrite Nat.sub_0_r.
    + intros x. unfold total_of, single. cbn. destruct (voted a x db); lia.
  - by eapply (propagate_skeleton _ _ _ (single_propagates delta) 4).
Qed.

(** A change by [delta] of all the shares of [name] *)
Lemma adjust_array_tally name a delta e1 e2 db u db' : votes_wf db -> rows (accounts db) !! name = Some a ->
  adjust_proxied_witness_votes_array 4 name delta db = Ok (u, db') ->
  tally (fun p j => e1 p j + (if String.eqb (account_proxy a) p then entry delta j else 0))
        (fun x => e2 x + (if voted a x db then total_of (entry delta) else 0)) db ->
  tally e1 e2 db' /\ skeleton db db' /\ rows (accounts db') !! name = Some a.
Proof.
  rewrite adjust_array_propagate. intros Hwf Ha H Ht. split_and!.
  - eapply (propagate_tally _ _ _ (array_propagates delta) 4); [done | done | done | exact H |].
    eapply tally_ext; [| | exact Ht]; intros; cbn; unfold shifted; cbn; by rewrite ?Nat.sub_0_r.
  - by eapply (propagate_skeleton _ _ _ (array_propagates delta) 4).
  - destruct (votes_rooted _ Hwf name) as [n Hn]; [by eexists|].
    by rewrite (propagate_above _ _ _ (array_propagates delta) 4 name n db u db' ltac:(done) Hwf Hn H name n Hn).
Qed.
End Forms.

(** ** Single changes of votes and proxies *)

Section VoteChanges.
Context `{F : fc_ops} {L : fc_laws F}.

Lemma voted_other (a : account_object) (x : Z) (db : database) (t : table (Z * Z) witness_vote_object) :
  (rows t !! (account_id a, x) = rows (account_witness_votes db) !! (account_id a, x)) ->
  voted a x (db <| account_witness_votes := t |>) = voted a x db.
Proof. intros E. unfold voted. cbn. by rewrite E. Qed.

(** A change of the votes of one account *)
Lemma tally_votes_of (e1 : string -> nat -> Z) (e2 : Z -> Z) (k : string) (a : account_object) (db : database)
    (t : table (Z * Z) witness_vote_object) : votes_wf db -> rows (accounts db) !! k = Some a ->
  (forall i x, i <> account_id a -> rows t !! (i, x) = rows (account_witness_votes db) !! (i, x)) ->
  tally e1 e2 db ->
  tally e1 (fun x => e2 x + (if voted a x (db <| account_witness_votes := t |>) then total_of (share_at a) else 0)
                          - (if voted a x db then total_of (share_at a) else 0))
    (db <| account_witness_votes := t |>).
Proof.
  intros Hwf Ha Ht [Hp Hv]. split; [done|]. cbn. intros o x Hx. specialize (Hv o x Hx).
  rewrite <- (insert_delete_id (rows (accounts db)) k a Ha) in Hv |- *.
  rewrite msum_insert_fresh in Hv |- * by apply lookup_delete_eq.
  rewrite (msum_ext (cast_share (db <| account_witness_votes := t |>) (witness_id x)) (cast_share db (witness_id x))).
  - unfold cast_share at 1. unfold cast_share at 1 in Hv. lia.
  - intros k' b [Hne Hb]%lookup_delete_Some. unfold cast_share. rewrite voted_other; [done|].
    apply Ht. intros E. apply Hne. symmetry. by eapply (votes_ids _ Hwf).
Qed.
Lemma wf_votes_of (k : string) (a : account_object) (db : database) (t : table (Z * Z) witness_vote_object) : votes_wf db -> rows (accounts db) !! k = Some a ->
  (forall i x, i <> account_id a -> rows t !! (i, x) = rows (account_witness_votes db) !! (i, x)) ->
  map_Forall (fun k v => k = (witness_vote_account v, witness_vote_witness v)) (rows t) ->
  (account_proxy a <> "" -> forall x, rows t !! (account_id a, x) = None) ->
  votes_wf (db <| account_witness_votes := t |>).
Proof.
  intros Hwf Ha Ht Hkeys Hproxied. split; cbn; [apply Hwf | apply Hwf | apply Hwf | done | | apply Hwf].
  intros k' b x Hb Hp. destruct (decide (k' = k)) as [-> | Hne].
  - simplify_eq. unfold voted. cbn. by rewrite Hproxied.
  - rewrite voted_other; [by eapply (votes_proxied _ Hwf)|]. apply Ht. intros E. apply Hne. by eapply (votes_ids _ Hwf).
Qed.

(** A new proxy *)
Lemma tally_proxy e1 e2 k v v' n db :
  rows (accounts db) !! k = Some v -> account_id v' = account_id v -> (forall j, share_at v' j = share_at v j) ->
  tally e1 e2 db ->
  tally (fun p j => e1 p j + (if String.eqb (account_proxy v') p then share_at v j else 0)
                           - (if String.eqb (account_proxy v) p then share_at v j else 0)) e2
        (db <| accounts := mk_table (<[k := v']> (rows (accounts db))) n |>).
Proof.
  intros Hv Hid Hshare [Hp Hvotes]. split; cbn.
  - intros p a j Ha Hne Hj. rewrite (msum_insert _ _ _ _ v) by done. unfold proxied_share at 2 3. rewrite Hshare.
    assert (exists a0, rows (accounts db) !! p = Some a0 /\ share_at a (S j) = share_at a0 (S j)) as (a0 & Ha0 & ->).
    { apply lookup_insert_Some in Ha as [[<- <-] | [_ Ha]]; [by exists v | by exists a]. }
    pose proof (Hp p a0 j Ha0 Hne Hj). lia.
  - intros o x Hx. rewrite (msum_insert _ _ _ _ v) by done. rewrite (Hvotes o x Hx).
    change (cast_share (db <| accounts := _ |>) (witness_id x)) with (cast_share db (witness_id x)).
    unfold cast_share at 3 4. unfold voted, total_of. rewrite Hid, !Hshare. lia.
Qed.

(** A change of the votes for one witness *)
Lemma adjust_witness_vote_tally e1 e2 owner w delta db u db' : votes_wf db -> rows (witnesses db) !! owner = Some w ->
  adjust_witness_vote owner delta db = Ok (u, db') ->
  tally e1 (fun x => e2 x + (if x =? witness_id w then delta else 0)) db -> tally e1 e2 db'.
Proof.
  intros Hwf Hw (w0 & w' & Hw0 & Hid & Hvotes & ->)%adjust_witness_vote_run [Hp Hv]. simplify_eq. split; [done|]. cbn.
  intros o x Hx. change (cast_share (db <| witnesses := _ |>)) with (cast_share db).
  apply lookup_insert_Some in Hx as [[<- <-] | [Hne Hx]].
  - rewrite Hid, Hvotes. pose proof (Hv owner w Hw) as E. rewrite Z.eqb_refl in E. lia.
  - pose proof (Hv o x Hx) as E. destruct (Z.eqb_spec (witness_id x) (witness_id w)); [|lia].
    exfalso. apply Hne. by eapply (votes_witness_ids _ Hwf).
Qed.


(** ** Clearing the votes of an account *)

Lemma remove_votes_run (vs : list witness_vote_object) db u db' :
  for_each (fun v => remove account_witness_votes (witness_vote_account v, witness_vote_witness v)) vs db = Ok (u, db') ->
  exists t, db' = db <| account_witness_votes := t |> /\
    forall k, rows t !! k = if bool_decide (k ∈ (fun v => (witness_vote_account v, witness_vote_witness v)) <$> vs) then None
                            else rows (account_witness_votes db) !! k.
Proof.
  revert db. induction vs as [| v vs IH]; intros db H; cbn in H; inv_run.
  - exists (account_witness_votes db). split; [by destruct db|]. intros k. by rewrite bool_decide_false by apply not_elem_of_nil.
  - apply remove_run in Hrun as (v0 & Hv0 & ->). apply IH in H as (t & -> & Ht). exists t. split; [done|]. intros k. rewrite Ht. cbn.
    case_bool_decide as H1; case_bool_decide as H2; try done.
    + exfalso. apply H2. by right.
    + apply elem_of_cons in H2 as [-> | H2]; [apply lookup_delete_eq | done].
    + rewrite lookup_delete_ne; [done|]. intros <-. apply H2. left.
Qed.

Definition same_shares (a a' : account_object) : Prop :=
  account_name a' = account_name a /\ account_id a' = account_id a /\ account_proxy a' = account_proxy a /\
  amount (account_vesting_shares a') = amount (account_vesting_shares a) /\
  account_proxied_vsf_votes a' = account_proxied_vsf_votes a.
Lemma same_shares_at a a' j : same_shares a a' -> share_at a' j = share_at a j.
Proof. intros (_ & _ & _ & E1 & E2). unfold share_at. by rewrite E1, E2. Qed.

(** [t] is the table of votes without those of the account [id] *)
Definition cleared (id : Z) (db : database) (t : table (Z * Z) witness_vote_object) : Prop :=
  (forall i x, i <> id -> rows t !! (i, x) = rows (account_witness_votes db) !! (i, x)) /\
  (forall x, rows t !! (id, x) = None).
Lemma cleared_votes id db u db' : votes_wf db ->
  for_each (fun v => remove account_witness_votes (witness_vote_account v, witness_vote_witness v)) (votes_of id db) db
    = Ok (u, db') ->
  exists t, db' = db <| account_witness_votes := t |> /\ cleared id db t /\
    map_Forall (fun k v => k = (witness_vote_account v, witness_vote_witness v)) (rows t).
Proof.
  intros Hwf (t & -> & Ht)%remove_votes_run. exists t. split; [done|].
  assert (forall i x, (i, x) ∈ (fun v => (witness_vote_account v, witness_vote_witness v)) <$> votes_of id db <->
    i = id /\ is_Some (rows (account_witness_votes db) !! (id, x))) as Hin.
  { intros i x. rewrite <- votes_of_witnesses by done. rewrite !list_elem_of_fmap. split.
    - intros (v & [= -> ->] & Hv). split; [|by eexists]. unfold votes_of in Hv. rewrite sort_by_perm in Hv.
      by apply list_elem_of_filter in Hv as [? _].
    - intros [-> (v & -> & Hv)]. exists v. split; [|done]. f_equal. unfold votes_of in Hv. rewrite sort_by_perm in Hv.
      by apply list_elem_of_filter in Hv as [? _]. }
  split; [split|].
  - intros i x Hi. rewrite Ht, bool_decide_false; [done|]. rewrite Hin. by intros [].
  - intros x. rewrite Ht. case_bool_decide as H; [done|]. rewrite Hin in H. apply eq_None_not_Some. naive_solver.
  - intros k v. rewrite Ht. case_bool_decide; [done|]. apply (votes_keyed _ Hwf).
Qed.

Lemma clear_witness_votes_run name a db u db' : votes_wf db -> rows (accounts db) !! name = Some a ->
  clear_witness_votes name db = Ok (u, db') ->
  exists t n a', same_shares a a' /\
    db' = db <| account_witness_votes := t |> <| accounts := mk_table (<[name := a']> (rows (accounts db))) n |> /\
    cleared (account_id a) db t /\
    map_Forall (fun k v => k = (witness_vote_account v, witness_vote_witness v)) (rows t).
Proof.
  unfold clear_witness_votes. intros Hwf Ha H. inv_run; simplify_eq;
    apply cleared_votes in Hrun1 as (t & -> & Hcl & Hkeys); try done; exists t, (next_id (accounts db)).
  - apply modify_run in H as (v & v' & Hv & [= <-] & ->). cbn in Hv. simplify_eq.
    exists (a <| account_witnesses_voted_for := 0 |>). by split_and!.
  - exists a. split_and!; [done | | done | done]. cbn. rewrite insert_id by done.
    replace (mk_table _ _) with (accounts db) by by destruct (accounts db). by destruct db.
Qed.

Lemma clear_witness_votes_tally e1 e2 name a db u db' : votes_wf db -> rows (accounts db) !! name = Some a ->
  clear_witness_votes name db = Ok (u, db') ->
  tally e1 (fun x => e2 x + (if voted a x db then total_of (share_at a) else 0)) db ->
  tally e1 e2 db' /\ votes_wf db' /\ processed_hardforks db' = processed_hardforks db /\
  exists a', same_shares a a' /\ (forall k, rows (accounts db') !! k = <[name := a']> (rows (accounts db)) !! k) /\
    forall x, voted a' x db' = false.
Proof.
  intros Hwf Ha (t & n & a' & Hsame & -> & [Hother Hnone] & Hkeys)%(clear_witness_votes_run _ a) Ht; [|done | done].
  assert (votes_wf (db <| account_witness_votes := t |>)) as Hwf' by (by eapply wf_votes_of).
  split_and!; [| | done | exists a'; split_and!; [done | done |]].
  - eapply (tally_votes_of _ _ _ _ _ t Hwf Ha Hother) in Ht. eapply tally_update in Ht; [| exact Ha | by apply Hsame | by apply Hsame].
    eapply tally_ext; [| | exact Ht].
    + intros p j _ _. cbn. rewrite !(same_shares_at _ _ _ Hsame). repeat case_match; lia.
    + intros x. cbn. unfold total_of. rewrite !(same_shares_at _ _ _ Hsame).
      assert (voted a x (db <| account_witness_votes := t |>) = false) as -> by (unfold voted; cbn; by rewrite Hnone). lia.
  - eapply skeleton_wf; [|exact Hwf'].
    assert (same_account a a') as Hs by (destruct Hsame as (? & ? & ? & ? & E); split; [done | done | done | by rewrite E]).
    match type of Hwf' with votes_wf ?db1 => pose proof (skeleton_insert name a a' n db1 Ha Hs) as Hsk end.
    clear -Hsk. cbn in Hsk. exact Hsk.
  - intros x. unfold voted. cbn. destruct Hsame as (_ & -> & _). by rewrite Hnone.
Qed.
End VoteChanges.

(** ** Every operation keeps the tallies *)

(** The recorded tallies are those of a recount. *)
Record tallied (db : database) : Prop := mk_tallied {
  tallied_wf : votes_wf db;
  tallied_exact : tally (fun _ _ => 0) (fun _ => 0) db;
  tallied_hardfork : (STEEMIT_HARDFORK_0_3 < length (processed_hardforks db))%nat
}.
Definition keeps_tallies (db db' : database) : Prop := tallied db -> tallied db'.
#[global] Instance keeps_tallies_preorder : PreOrder keeps_tallies.
Proof. unfold keeps_tallies. split; [by intros db | intros x y z Hxy Hyz H; auto]. Qed.

Section Keeps.
Context `{F : fc_ops} {L : fc_laws F}.
#[local] Abbreviation DEPTH := (Z.to_nat STEEMIT_MAX_PROXY_RECURSION_DEPTH).

Lemma height_insert m k a a' : m !! k = Some a -> (account_proxy a' = "" \/ exists n, height (<[k := a']> m) (account_proxy a') n) ->
  forall q n, height m q n -> exists n', height (<[k := a']> m) q n'.
Proof.
  intros Ha Hnew q n. assert (exists n, height (<[k := a']> m) k n) as Hk.
  { destruct (decide (account_proxy a' = "")) as [E | E].
    - exists O. eapply height_self; [apply lookup_insert_eq | done].
    - destruct Hnew as [? | [n' Hn']]; [done|]. exists (S n'). by eapply height_proxy; [apply lookup_insert_eq | |]. }
  induction 1 as [q b Hb Hp | q b n Hb Hp _ [n' IH]]; (destruct (decide (q = k)) as [-> | Hne]; [done|]).
  - exists O. eapply height_self; [|done]. by rewrite lookup_insert_ne.
  - exists (S n'). eapply height_proxy; [|done | done]. by rewrite lookup_insert_ne.
Qed.

(** A chain without the account, checked to its end *)
Lemma check_proxy_chain_height fuel c cprox chain k (a a' : account_object) db u db' : votes_wf db ->
  rows (accounts db) !! k = Some a -> account_id a ∈ chain -> rows (accounts db) !! c = Some cprox -> c <> k ->
  check_proxy_chain fuel cprox chain db = Ok (u, db') -> db' = db /\ exists n, height (<[k := a']> (rows (accounts db))) c n.
Proof.
  intros Hwf Ha. revert c cprox chain. induction fuel as [| fuel IH]; intros c cprox chain Hin Hc Hne H; cbn in H; inv_run.
  1, 2: split; [done|]; exists O; eapply height_self; [by rewrite lookup_insert_ne|]; by apply String.eqb_eq.
  apply check_logic_Ok, negb_true_iff in E1. apply String.eqb_neq in Heqb.
  assert (account_proxy cprox <> k) as Hnext.
  { intros E2. rewrite E2 in E. simplify_eq. apply fs_mem_In in Hin. congruence. }
  eapply IH in H as (-> & n & Hn); [| | done | done].
  - split; [done|]. exists (S n). eapply height_proxy; [by rewrite lookup_insert_ne | done | done].
  - apply elem_of_fs_insert. by right.
Qed.

Lemma negate_all_Ok l l' : negate_all l = Ok l' -> length l' = length l /\ forall j, entry l' j = - entry l j.
Proof.
  revert l'. induction l as [| x l IH]; intros l' H; cbn in H; inv_ok; [split; [done|]; intros []; done|].
  apply safe_neg_Ok in Hrun as ->. apply IH in Hrun0 as [Hlen Hn]. split; [cbn; congruence|]. intros [| j]; [done|]. apply Hn.
Qed.
Lemma vote_delta_Ok a delta : length (account_proxied_vsf_votes a) = 4%nat -> vote_delta a = Ok delta ->
  forall j, entry delta j = - share_at a j.
Proof.
  intros Hlen [_ H]%negate_all_Ok j. rewrite H. destruct j as [| j]; [done|]. cbn. unfold entry, share_at. cbn.
  by rewrite firstn_all2 by (by rewrite Hlen).
Qed.


(** The proxy of an account that has no votes *)
Lemma proxy_changed e1 e2 k a a' n db : votes_wf db -> rows (accounts db) !! k = Some a ->
  account_name a' = account_name a -> account_id a' = account_id a -> (forall j, share_at a' j = share_at a j) ->
  length (account_proxied_vsf_votes a') = length (account_proxied_vsf_votes a) ->
  (account_proxy a' = "" \/ exists n, height (<[k := a']> (rows (accounts db))) (account_proxy a') n) ->
  (forall x, voted a x db = false) ->
  tally (fun p j => e1 p j + (if String.eqb (account_proxy a) p then share_at a j else 0)) e2 db ->
  let db' := db <| accounts := mk_table (<[k := a']> (rows (accounts db))) n |> in
  tally (fun p j => e1 p j + (if String.eqb (account_proxy a') p then share_at a j else 0)) e2 db' /\ votes_wf db'.
Proof.
  intros Hwf Ha Hname Hid Hshare Hlen Hh Hvoted Ht. split.
  - eapply tally_ext; [| | by eapply tally_proxy]; [|done]. intros p j _ _. cbn. lia.
  - assert (forall q b, <[k := a']> (rows (accounts db)) !! q = Some b -> exists b0, rows (accounts db) !! q = Some b0 /\
      account_name b = account_name b0 /\ account_id b = account_id b0 /\
      length (account_proxied_vsf_votes b) = length (account_proxied_vsf_votes b0)) as Hback.
    { intros q b [[<- <-] | [_ Hb]]%lookup_insert_Some; [by exists a | by exists b]. }
    split; cbn.
    + intros q b (b0 & Hb0 & -> & _ & ->)%Hback. by apply (votes_names _ Hwf).
    + intros k1 k2 b1 b2 (c1 & Hc1 & _ & -> & _)%Hback (c2 & Hc2 & _ & -> & _)%Hback. by apply (votes_ids _ Hwf).
    + apply (votes_witness_ids _ Hwf).
    + apply (votes_keyed _ Hwf).
    + intros q b x Hb Hp. apply lookup_insert_Some in Hb as [[<- <-] | [_ Hb]].
      * unfold voted. cbn. rewrite Hid. apply Hvoted.
      * by eapply (votes_proxied _ Hwf).
    + intros q [b (b0 & Hb0 & _)%Hback]. destruct (votes_rooted _ Hwf q) as [h Hq]; [by eexists|]. by eapply height_insert.
Qed.

(** What the votes and proxies of an account carry is taken back. *)
Lemma retract_votes name a delta db u db' : tallied db -> rows (accounts db) !! name = Some a -> vote_delta a = Ok delta ->
  adjust_proxied_witness_votes_array DEPTH name delta db = Ok (u, db') ->
  tally (fun p j => 0 + (if String.eqb (account_proxy a) p then share_at a j else 0))
        (fun x => 0 + (if voted a x db' then total_of (share_at a) else 0)) db' /\
  skeleton db db' /\ rows (accounts db') !! name = Some a.
Proof.
  intros [Hwf Ht _] Ha Hdelta H. destruct (votes_names _ Hwf _ _ Ha) as [_ Hlen].
  pose proof (vote_delta_Ok _ _ Hlen Hdelta) as Hd.
  destruct (adjust_array_tally name a delta
    (fun p j => 0 + (if String.eqb (account_proxy a) p then share_at a j else 0))
    (fun x => 0 + (if voted a x db then total_of (share_at a) else 0)) db u db' Hwf Ha H) as (Ht' & Hs & Ha').
  - eapply tally_ext; [| | exact Ht]; intros; cbn.
    + rewrite Hd. case_match; lia.
    + unfold total_of. rewrite !Hd. case_match; lia.
  - split_and!; [| done | done]. eapply tally_ext; [| | exact Ht']; [done|]. intros x. cbn.
    by rewrite (skeleton_voted db db' a a x Hs) by done.
Qed.


(** Code that leaves votes, proxies and vesting shares alone *)
Record votes_frame (db db' : database) : Prop := mk_votes_frame {
  frame_accounts k : option_Forall2 same_shares (rows (accounts db) !! k) (rows (accounts db') !! k);
  frame_witnesses o : option_Forall2 (fun w w' => witness_id w' = witness_id w /\ witness_votes w' = witness_votes w)
    (rows (witnesses db) !! o) (rows (witnesses db') !! o);
  frame_votes : account_witness_votes db' = account_witness_votes db;
  frame_hardforks : processed_hardforks db' = processed_hardforks db
}.

Lemma frame_skeleton db db' : votes_frame db db' -> skeleton db db'.
Proof.
  intros [Ha Hw Hv Hh]. split; [| | done | done]; intros k; [specialize (Ha k); destruct Ha as [a a' Ha|] | specialize (Hw k); destruct Hw as [w w' Hw|]];
    constructor.
  - destruct Ha as (? & ? & ? & ? & E). split; [done | done | done | by rewrite E].
  - by destruct Hw.
Qed.
Lemma frame_tally e1 e2 db db' : votes_frame db db' -> tally e1 e2 db -> tally e1 e2 db'.
Proof.
  intros [Ha Hw Hv Hh] [Hp Hvotes]. split.
  - intros p a' j Ha' Hne Hj. pose proof (Ha p) as Hk. rewrite Ha' in Hk. inversion Hk as [a ? Hsame Ea |]; subst.
    symmetry in Ea. rewrite (same_shares_at _ _ _ Hsame), (Hp p a j Ea Hne Hj). symmetry. eapply msum_rel; [|exact Ha].
    intros b b' Hb. unfold proxied_share. rewrite (same_shares_at _ _ _ Hb). by destruct Hb as (_ & _ & -> & _).
  - intros o x' Hx'. pose proof (Hw o) as Hk. rewrite Hx' in Hk. inversion Hk as [x ? [Hid Hvo] Ex |]; subst.
    symmetry in Ex. rewrite Hid, Hvo, (Hvotes o x Ex). symmetry. erewrite (msum_ext (cast_share db' _)); [eapply msum_rel; [|exact Ha]|].
    + intros b b' Hb. unfold cast_share, voted, total_of. rewrite !(same_shares_at _ _ _ Hb). by destruct Hb as (_ & -> & _).
    + intros q b _. unfold cast_share, voted. by rewrite Hv.
Qed.
Lemma frame_keeps db db' : votes_frame db db' -> keeps_tallies db db'.
Proof.
  intros Hf [Hwf Ht Hh]. split; [eapply skeleton_wf; [by apply frame_skeleton | done] | by eapply frame_tally |].
  by rewrite (frame_hardforks _ _ Hf).
Qed.
#[global] Instance votes_frame_preorder : PreOrder votes_frame.
Proof.
  split.
  - intros db. split; [| | done | done]; intros k; [destruct (rows (accounts db) !! k) | destruct (rows (witnesses db) !! k)]; by constructor.
  - intros x y z [A1 W1 ? ?] [A2 W2 ? ?]. split; [| | congruence | congruence]; intros k.
    + specialize (A1 k). specialize (A2 k). destruct A1 as [a b Hab|]; inversion A2 as [? c Hbc|]; constructor.
      unfold same_shares in *. destruct_and!. split_and!; congruence.
    + specialize (W1 k). specialize (W2 k). destruct W1 as [a b Hab|]; inversion W2 as [? c Hbc|]; constructor.
      destruct_and!. split; congruence.
Qed.

Lemma skeleton_hardfork3 db db' : skeleton db db' -> (STEEMIT_HARDFORK_0_3 < length (processed_hardforks db))%nat ->
  (STEEMIT_HARDFORK_0_3 < length (processed_hardforks db'))%nat.
Proof. intros Hs. by rewrite (skeleton_hardforks _ _ Hs). Qed.

Lemma release_votes name a delta db u db1 u' db2 : tallied db -> rows (accounts db) !! name = Some a ->
  vote_delta a = Ok delta -> adjust_proxied_witness_votes_array DEPTH name delta db = Ok (u, db1) ->
  clear_witness_votes name db1 = Ok (u', db2) ->
  exists a', same_shares a a' /\ rows (accounts db2) = <[name := a']> (rows (accounts db1)) /\ votes_wf db2 /\
    tally (fun p j => 0 + (if String.eqb (account_proxy a') p then share_at a' j else 0)) (fun _ => 0) db2 /\
    (forall x, voted a' x db2 = false) /\ processed_hardforks db2 = processed_hardforks db.
Proof.
  intros Ht Ha Hdelta Hadj Hclear. destruct (retract_votes _ _ _ _ _ _ Ht Ha Hdelta Hadj) as (Ht1 & Hs & Ha1).
  destruct (clear_witness_votes_tally _ _ _ _ _ _ _ (skeleton_wf _ _ Hs (tallied_wf _ Ht)) Ha1 Hclear Ht1)
    as (Ht2 & Hwf2 & Hhf & a' & Hsame & Hrows & Hvoted).
  exists a'. split_and!; [done.. | by apply map_eq | done | | done |].
  - eapply tally_ext; [| | exact Ht2]; [|done]. intros p j _ _. cbn. rewrite (same_shares_at _ _ _ Hsame).
    by destruct Hsame as (_ & _ & -> & _).
  - by rewrite Hhf, (skeleton_hardforks _ _ Hs).
Qed.

Lemma frame_decline_requests t db : votes_frame db (db <| decline_requests := t |>).
Proof. by destruct (reflexivity db : votes_frame db db). Qed.

Lemma decline_voting_rights_keeps k : preserves keeps_tallies (decline_voting_rights k).
Proof.
  intros db u db' H Ht. unfold decline_voting_rights in H. inv_run. apply (preserves_account_by_id eq) in Hrun0 as <-.
  destruct (release_votes _ _ _ _ _ _ _ _ Ht E1 E Hrun3 Hrun4) as (a' & Hsame & Hrows & Hwf & Htal & Hvoted & Hhf).
  apply modify_run in Hrun5 as (v & v' & Hv & [= <-] & ->). rewrite Hrows, lookup_insert_eq in Hv. injection Hv as <-.
  apply remove_run in H as (r & Hr & ->). eapply frame_keeps; [apply frame_decline_requests|].
  assert (rows (accounts db5) !! x0 = Some a') as Ha' by (by rewrite Hrows, lookup_insert_eq).
  destruct (proxy_changed (fun _ _ => 0) (fun _ => 0) x0 a' (a' <| account_can_vote := false |> <| account_proxy := STEEMIT_PROXY_TO_SELF_ACCOUNT |>)
    (next_id (accounts db5)) db5 Hwf Ha') as [Htal' Hwf']; [done | done | done | done | by left | done | exact Htal |].
  split; [exact Hwf' | | change (STEEMIT_HARDFORK_0_3 < length (processed_hardforks db5))%nat; by rewrite Hhf; apply Ht].
  eapply tally_ext; [| | exact Htal']; [|done]. intros p j Hne _. cbn.
  by destruct p.
Qed.


Lemma set_proxy_tally e1 e2 name a proxy db u db' : votes_wf db -> rows (accounts db) !! name = Some a ->
  (proxy = "" \/ exists n, height (<[name := a <| account_proxy := proxy |>]> (rows (accounts db))) proxy n) ->
  (forall x, voted a x db = false) -> set_proxy name proxy db = Ok (u, db') ->
  tally (fun p j => e1 p j + (if String.eqb (account_proxy a) p then share_at a j else 0)) e2 db ->
  tally (fun p j => e1 p j + (if String.eqb proxy p then share_at a j else 0)) e2 db' /\ votes_wf db' /\
  rows (accounts db') !! name = Some (a <| account_proxy := proxy |>) /\ (forall x, voted a x db' = false) /\
  processed_hardforks db' = processed_hardforks db.
Proof.
  intros Hwf Ha Hh Hvoted (v & v' & Hv & [= <-] & ->)%modify_run Ht. assert (v = a) as -> by congruence.
  destruct (proxy_changed e1 e2 name a (a <| account_proxy := proxy |>) (next_id (accounts db)) db Hwf Ha)
    as [Htal' Hwf']; try done. split_and!; [exact Htal' | exact Hwf' | apply lookup_insert_eq | done | done].
Qed.

Lemma unset_proxy_keeps name a delta db u db1 u' db2 : tallied db -> rows (accounts db) !! name = Some a -> account_proxy a <> "" ->
  vote_delta a = Ok delta -> adjust_proxied_witness_votes_array DEPTH name delta db = Ok (u, db1) ->
  set_proxy name "" db1 = Ok (u', db2) -> tallied db2.
Proof.
  intros Ht Ha Hp Hdelta Hadj Hset. destruct (retract_votes _ _ _ _ _ _ Ht Ha Hdelta Hadj) as (Ht1 & Hs & Ha1).
  pose proof (skeleton_wf _ _ Hs (tallied_wf _ Ht)) as Hwf1.
  assert (forall x, voted a x db1 = false) as Hvoted by (intros x; by eapply (votes_proxied _ Hwf1)).
  destruct (set_proxy_tally (fun _ _ => 0) (fun _ => 0) name a "" db1 u' db2 Hwf1 Ha1) as (Ht2 & Hwf2 & _ & _ & Hhf); try done.
  - by left.
  - eapply tally_ext; [| | exact Ht1]; [done|]. intros x. cbn. by rewrite Hvoted.
  - split; [done | | by rewrite Hhf, (skeleton_hardforks _ _ Hs); apply Ht].
    eapply tally_ext; [| | exact Ht2]; [|done]. intros p j Hne _. by destruct p.
Qed.

Lemma proxy_validated o : account_witness_proxy_operation_validate o = Ok tt ->
  negb (String.eqb (account_witness_proxy_proxy o) "") = true -> account_witness_proxy_proxy o <> account_witness_proxy_account o.
Proof.
  unfold account_witness_proxy_operation_validate. intros H Hne%negb_true_iff%String.eqb_neq.
  assert ((size_of (account_witness_proxy_proxy o) =? 0) = false) as E by (by destruct (account_witness_proxy_proxy o)).
  rewrite E in H. cbn in H. inv_ok. by apply negb_true_iff, String.eqb_neq in H.
Qed.

Lemma account_witness_proxy_keeps o : account_witness_proxy_operation_validate o = Ok tt ->
  preserves keeps_tallies (account_witness_proxy_evaluator o).
Proof.
  intros Hvalid db u db' H Ht. unfold account_witness_proxy_evaluator in H. inv_run.
  all: apply check_logic_Ok, negb_true_iff, String.eqb_neq in E2.
  2: { apply negb_false_iff, String.eqb_eq in Heqb. rewrite Heqb in *. by eapply (unset_proxy_keeps _ x). }
  set (name := account_witness_proxy_account o) in *. set (proxy := account_witness_proxy_proxy o) in *.
  assert (proxy <> name) as Hne.
  { by apply proxy_validated. }
  pose proof (retract_votes _ _ _ _ _ _ Ht E0 E Hrun3) as (_ & Hs & Hx4).
  pose proof (skeleton_wf _ _ Hs (tallied_wf _ Ht)) as Hwf4.
  assert (account_id x ∈ fs_insert (account_id x4) (fs_insert (account_id x) [])) as Hin by (rewrite !elem_of_fs_insert; auto).
  pose proof (fun a1 => check_proxy_chain_height _ proxy x4 _ name x a1 db4 tt db1 Hwf4 Hx4 Hin E4 Hne Hrun0) as Hchain.
  destruct (Hchain x) as [-> _].
  destruct (release_votes _ _ _ _ _ _ _ _ Ht E0 E Hrun3 Hrun1) as (a' & Hsame & Hrows & Hwf & Htal & Hvoted & Hhf).
  destruct (Hchain (a' <| account_proxy := proxy |>)) as (_ & h & Hh).
  assert (rows (accounts db2) !! name = Some a') as Ha' by (by rewrite Hrows, lookup_insert_eq).
  destruct (set_proxy_tally (fun _ _ => 0) (fun _ => 0) name a' proxy db2 tt db3 Hwf Ha') as (Ht3 & Hwf3 & Ha3 & Hvoted3 & Hhf3); try done.
  { right. exists h. by rewrite Hrows, insert_insert_eq. }
  destruct (votes_names _ (tallied_wf _ Ht) _ _ E0) as [_ Hlen].
  destruct (adjust_array_tally name (a' <| account_proxy := proxy |>) x8 (fun _ _ => 0) (fun _ => 0) db3 tt db' Hwf3 Ha3 H) as (Ht' & Hs' & _).
  { eapply tally_ext; [| | exact Ht3]; cbn.
    - intros p j _ _. destruct (negate_all_Ok _ _ E3) as [_ ->]. rewrite (vote_delta_Ok _ _ Hlen E), (same_shares_at _ _ _ Hsame).
      case_match; lia.
    - intros w. change (voted (a' <| account_proxy := proxy |>) w db3) with (voted a' w db3). by rewrite Hvoted3. }
  split; [by eapply skeleton_wf | done |]. by rewrite (skeleton_hardforks _ _ Hs'), Hhf3, Hhf; apply Ht.
Qed.


Lemma witness_vote_weight_Ok a w : length (account_proxied_vsf_votes a) = 4%nat -> witness_vote_weight a = Ok w ->
  w = total_of (share_at a).
Proof.
  unfold witness_vote_weight, total_of, share_at. destruct (account_proxied_vsf_votes a) as [| v0 [| v1 [| v2 [| v3 []]]]]; try done.
  intros _ H. cbn in H. inv_ok. repeat match goal with H : safe_add _ _ = Ok _ |- _ => apply safe_add_Ok in H end. subst. cbn. lia.
Qed.

Lemma frame_insert k a a' n db : rows (accounts db) !! k = Some a -> same_shares a a' ->
  votes_frame db (db <| accounts := mk_table (<[k := a']> (rows (accounts db))) n |>).
Proof.
  intros Ha Hsame. destruct (reflexivity db : votes_frame db db) as [A W V Hh]. split; [|done..]. intros o. cbn.
  destruct (decide (o = k)) as [-> | Hne]; [rewrite Ha, lookup_insert_eq; by constructor | by rewrite lookup_insert_ne].
Qed.
Lemma frame_modify_account k f : (forall a a', f a = Ok a' -> same_shares a a') -> preserves votes_frame (modify accounts k f).
Proof. intros Hf db u db' (v & v' & Hv & Hv' & ->)%modify_run. by eapply frame_insert; [|apply Hf]. Qed.

(** The votes of [a] after a vote for [x] is cast or withdrawn *)
Lemma vote_cast e1 e2 k a x (v : option witness_vote_object) n db : votes_wf db -> rows (accounts db) !! k = Some a ->
  account_proxy a = "" -> (forall v', v = Some v' -> witness_vote_account v' = account_id a /\ witness_vote_witness v' = x) ->
  tally e1 e2 db ->
  let db' := db <| account_witness_votes :=
                     mk_table (partial_alter (fun _ => v) (account_id a, x) (rows (account_witness_votes db))) n |> in
  votes_wf db' /\
  tally e1 (fun y => e2 y + (if y =? x then (if bool_decide (is_Some v) then total_of (share_at a) else 0)
                                            - (if voted a x db then total_of (share_at a) else 0) else 0)) db'.
Proof.
  intros Hwf Ha Hp Hv Htal. set (t := mk_table (partial_alter _ _ _) n).
  assert (forall i y, i <> account_id a -> rows t !! (i, y) = rows (account_witness_votes db) !! (i, y)) as Ht.
  { intros i y Hi. apply lookup_partial_alter_ne. congruence. }
  split.
  - eapply wf_votes_of; [done | done | done | | done].
    intros q w. unfold t. cbn. destruct (decide (q = (account_id a, x))) as [-> | Hne].
    + rewrite lookup_partial_alter_eq. intros Hw. by destruct (Hv w Hw) as [-> ->].
    + rewrite lookup_partial_alter_ne by done. apply (votes_keyed _ Hwf).
  - eapply tally_ext; [| | exact (tally_votes_of _ _ _ _ _ t Hwf Ha Ht Htal)]; [done|]. intros y. cbn.
    unfold voted. cbn. destruct (Z.eqb_spec y x) as [-> | Hne].
    + rewrite lookup_partial_alter_eq. lia.
    + rewrite lookup_partial_alter_ne by congruence. lia.
Qed.

Lemma vote_keeps name owner a w weight db db1 u1 db2 u2 db3 u3 (f : account_object -> result account_object) :
  tallied db -> rows (accounts db) !! name = Some a -> account_proxy a = "" -> rows (witnesses db) !! owner = Some w ->
  (forall a a', f a = Ok a' -> same_shares a a') -> witness_vote_weight a = Ok weight ->
  create account_witness_votes (account_id a, witness_id w) (fun id => {|
    witness_vote_id := id; witness_vote_witness := witness_id w; witness_vote_account := account_id a |}) db = Ok (u1, db1) ->
  adjust_witness_vote owner weight db1 = Ok (u2, db2) -> modify accounts name f db2 = Ok (u3, db3) -> tallied db3.
Proof.
  intros [Hwf Ht Hh] Ha Hp Hw Hf Hweight (Hnone & ->)%create_run Hadj Hmod.
  destruct (votes_names _ Hwf _ _ Ha) as [_ Hlen]. apply (witness_vote_weight_Ok _ _ Hlen) in Hweight as ->.
  eapply frame_keeps; [by eapply frame_modify_account|].
  match type of Hadj with context [<[_ := ?v]> _] => destruct (vote_cast _ _ name a (witness_id w) (Some v)
    (next_id (account_witness_votes db) + 1) db Hwf Ha Hp ltac:(by intros ? [= <-]) Ht) as [Hwf1 Ht1] end.
  pose proof (skeleton_adjust_witness_vote _ _ _ _ _ Hadj) as Hs.
  split; [by eapply skeleton_wf | | by rewrite (skeleton_hardforks _ _ Hs)].
  eapply adjust_witness_vote_tally; [exact Hwf1 | exact Hw | exact Hadj |].
  eapply tally_ext; [| | exact Ht1]; [done|]. intros y. cbv beta. unfold voted. rewrite Hnone.
  rewrite (bool_decide_false (is_Some None)), (bool_decide_true (is_Some (Some _))) by (by eexists || by intros []).
  destruct (y =? witness_id w); lia.
Qed.

Lemma unvote_keeps name owner a w v weight neg db db1 u1 db2 u2 db3 u3 (f : account_object -> result account_object) :
  tallied db -> rows (accounts db) !! name = Some a -> account_proxy a = "" -> rows (witnesses db) !! owner = Some w ->
  rows (account_witness_votes db) !! (account_id a, witness_id w) = Some v ->
  (forall a a', f a = Ok a' -> same_shares a a') -> witness_vote_weight a = Ok weight -> safe_neg weight = Ok neg ->
  adjust_witness_vote owner neg db = Ok (u1, db1) -> modify accounts name f db1 = Ok (u2, db2) ->
  remove account_witness_votes (account_id a, witness_id w) db2 = Ok (u3, db3) -> tallied db3.
Proof.
  intros [Hwf Ht Hh] Ha Hp Hw Hv Hf Hweight Hneg%safe_neg_Ok Hadj Hmod (v' & Hv' & ->)%remove_run. subst neg.
  destruct (votes_names _ Hwf _ _ Ha) as [_ Hlen]. apply (witness_vote_weight_Ok _ _ Hlen) in Hweight as ->.
  pose proof (skeleton_adjust_witness_vote _ _ _ _ _ Hadj) as Hs. pose proof (frame_modify_account _ _ Hf _ _ _ Hmod) as Hfr.
  assert (votes_wf db2) as Hwf2 by (eapply skeleton_wf; [by apply frame_skeleton | by eapply skeleton_wf]).
  assert (exists a', rows (accounts db2) !! name = Some a' /\ same_shares a a') as (a' & Ha' & Hsame).
  { apply adjust_witness_vote_run in Hadj as (w0 & w1 & _ & _ & _ & ->). pose proof (frame_accounts _ _ Hfr name) as Hk.
    cbn in Hk. rewrite Ha in Hk. inversion Hk; subst. by eexists. }
  assert (tally (fun _ _ => 0) (fun y => 0 + (if y =? witness_id w then total_of (share_at a) else 0)) db2) as Ht2.
  { eapply frame_tally; [done|]. eapply adjust_witness_vote_tally; [exact Hwf | exact Hw | exact Hadj |].
    eapply tally_ext; [| | exact Ht]; [done|]. intros y. cbn. destruct (y =? witness_id w); lia. }
  pose proof Hsame as (_ & Hid & Hprox & _).
  destruct (vote_cast _ _ name a' (witness_id w) None (next_id (account_witness_votes db2)) db2 Hwf2 Ha'
    ltac:(congruence) ltac:(done) Ht2) as [Hwf3 Ht3]. rewrite Hid in Hwf3, Ht3.
  split; [exact Hwf3 | | change (STEEMIT_HARDFORK_0_3 < length (processed_hardforks db2))%nat; by rewrite (frame_hardforks _ _ Hfr), (skeleton_hardforks _ _ Hs)].
  eapply tally_ext; [| | exact Ht3]; [done|]. intros y. cbv beta. unfold voted. rewrite Hid, Hv'.
  rewrite (bool_decide_false (is_Some None)), (bool_decide_true (is_Some (Some _))) by (by eexists || by intros []).
  unfold total_of. rewrite !(same_shares_at _ _ _ Hsame). destruct (y =? witness_id w); lia.
Qed.

Lemma account_witness_vote_keeps o : preserves keeps_tallies (account_witness_vote_evaluator o).
Proof.
  intros db u db' H Ht. unfold account_witness_vote_evaluator in H.
  pose proof (tallied_hardfork _ Ht) as Hh. inv_run.
  all: match goal with E : check_logic (String.eqb _ "") _ = Ok _ |- _ => apply check_logic_Ok, String.eqb_eq in E end.
  all: try match goal with E : (_ <? length _)%nat = false |- _ =>
         exfalso; apply Nat.ltb_ge in E; unfold STEEMIT_HARDFORK_0_2, STEEMIT_HARDFORK_0_3 in *; lia end.
  1, 2: eapply unvote_keeps; [exact Ht | exact E | exact E0 | exact E1 | exact Heqo0 | | exact E2 | exact E4 | exact Hrun2 | exact Hrun3 | exact H];
    by intros a a' [= <-].
  all: eapply vote_keeps; [exact Ht | exact E | exact E0 | exact E1 | | exact E2 | exact Hrun2 | exact Hrun4 | exact H];
    by intros a a' [= <-].
Qed.
(** A change of vesting shares, followed up the chain *)
Lemma vests_changed name a a' delta n db db1 u db' : tallied db -> rows (accounts db) !! name = Some a ->
  same_account a a' -> account_proxied_vsf_votes a' = account_proxied_vsf_votes a ->
  amount (account_vesting_shares a') = amount (account_vesting_shares a) + delta ->
  votes_frame (db <| accounts := mk_table (<[name := a']> (rows (accounts db))) n |>) db1 ->
  adjust_proxied_witness_votes name delta db1 = Ok (u, db') -> tallied db'.
Proof.
  intros [Hwf Ht Hh] Ha Hsame Hprox Hvests Hfr Hadj. pose proof (skeleton_insert name a a' n db Ha Hsame) as Hs.
  pose proof (frame_skeleton _ _ Hfr) as Hs1. pose proof (frame_accounts _ _ Hfr name) as Ha1. cbn in Ha1.
  rewrite lookup_insert_eq in Ha1. inversion Ha1 as [? a1 Hsame1 E0 E1 |]. subst. symmetry in E1. destruct Hsame1 as (_ & Hid1 & Hp1 & _).
  assert (tally (fun p j => 0 + (if String.eqb (account_proxy a1) p then single delta j else 0))
                (fun x => 0 + (if voted a1 x db1 then delta else 0)) db1) as Ht1.
  { eapply frame_tally; [exact Hfr|].
    eapply tally_ext; [| | exact (tally_update _ _ _ _ a' n _ Ha (same_proxy _ _ Hsame) (same_id _ _ Hsame) Ht)]; cbn.
    - intros p j _ _. unfold share_at, single. rewrite Hprox, Hp1, (same_proxy _ _ Hsame). destruct j; cbn; repeat case_match; lia.
    - intros x. assert (voted a1 x db1 = voted a x db) as ->.
      { unfold voted. by rewrite Hid1, (frame_votes _ _ Hfr), (same_id _ _ Hsame). }
      unfold total_of, share_at. rewrite Hprox. case_match; lia. }
  destruct (adjust_proxied_tally name a1 delta _ _ _ _ _ (skeleton_wf _ _ Hs1 (skeleton_wf _ _ Hs Hwf)) E1 Hadj Ht1) as [Ht' Hs'].
  split; [| done |].
  - eapply skeleton_wf; [exact Hs'|]. eapply skeleton_wf; [exact Hs1|]. by eapply skeleton_wf.
  - by rewrite (skeleton_hardforks _ _ Hs'), (skeleton_hardforks _ _ Hs1), (skeleton_hardforks _ _ Hs).
Qed.
End Keeps.
