(* ===== verification/Ledger.v ===== *)
(** * The ledger

    The chain's own check of its books, [database::validate_invariants], and the proof
    that every modelled operation and block step keeps the books in order.

    The invariant that the operations need and keep is [ledger_wf]: escrows are well
    formed, vesting shares are counted in GESTS, and no account routes more than its
    whole withdrawal. *)

From S2P Require Import Prelude Exceptions Text Fc Config Asset FlatMap Authority Operations Crypto Validate SignState Transaction BlockId ForkDatabase Objects Database Conservation Sample Transfers Escrow Market Conversion Vesting Preserve Production Schedule Bookkeeping Burning Funds Delegation Accounts Curation Comments Cashout Payout Discussions Hardforks Votes.

(** ** [validate_invariants] *)

(** The locals of [validate_invariants] *)
Record totals := mk_totals {
  total_supply : asset;
  total_sbd : asset;
  total_vesting : asset;
  total_vsf_votes : Z
}.

(** The objects of an index, in the order of a key *)
Definition objects_by {K V : Type} `{Countable K} (leb : V -> V -> bool) (t : table K V) : list V :=
  sort_by leb (map_to_list (rows t)).*2.

(** A loop that adds to the locals *)
Fixpoint add_up {V : Type} (add : V -> totals -> result totals) (l : list V) (t : totals) : result totals :=
  match l with
  | [] => Ok t
  | v :: l' => t' ← add v t; add_up add l' t'
  end.

Section Books.
Context `{F : fc_ops}.

(** An amount that must be GOLOS or GBG *)
Definition add_liquid (a : asset) (t : totals) : result totals :=
  if symbol a =? STEEM_SYMBOL then
    s ← asset_add (total_supply t) a; Ok (mk_totals s (total_sbd t) (total_vesting t) (total_vsf_votes t))
  else if symbol a =? SBD_SYMBOL then
    d ← asset_add (total_sbd t) a; Ok (mk_totals (total_supply t) d (total_vesting t) (total_vsf_votes t))
  else Throw fc_assert_exception.

(** The votes an account casts itself or for those that set it as their proxy *)
Definition vsf_votes (a : account_object) : result Z :=
  if String.eqb (account_proxy a) STEEMIT_PROXY_TO_SELF_ACCOUNT then witness_vote_weight a
  else match account_proxied_vsf_votes a !! Z.to_nat (STEEMIT_MAX_PROXY_RECURSION_DEPTH - 1) with
       | Some v => Ok v
       | None => Throw fc_assert_exception
       end.

Definition add_account (a : account_object) (t : totals) : result totals :=
  s ← asset_add (total_supply t) (account_balance a);
  s ← asset_add s (account_savings_balance a);
  d ← asset_add (total_sbd t) (account_sbd_balance a);
  d ← asset_add d (account_savings_sbd_balance a);
  v ← asset_add (total_vesting t) (account_vesting_shares a);
  w ← vsf_votes a;
  n ← safe_add (total_vsf_votes t) w;
  Ok (mk_totals s d v n).

Definition add_order (o : limit_order_object) (t : totals) : result totals :=
  let sym := symbol (base (limit_order_sell_price o)) in
  if (sym =? STEEM_SYMBOL) || (sym =? SBD_SYMBOL) then add_liquid (amount_for_sale o) t else Ok t.

Definition add_escrow (e : escrow_object) (t : totals) : result totals :=
  s ← asset_add (total_supply t) (escrow_steem_balance e);
  d ← asset_add (total_sbd t) (escrow_sbd_balance e);
  add_liquid (escrow_pending_fee e) (mk_totals s d (total_vesting t) (total_vsf_votes t)).

(** The sums of [validate_invariants] over accounts, requests, orders, escrows and
    withdrawals *)
Definition count_up (db : database) : result totals :=
  t ← add_up add_account
        (objects_by (fun x y => match key_compare (account_name x) (account_name y) with Gt => false | _ => true end)
           (accounts db))
        (mk_totals (mk_asset 0 STEEM_SYMBOL) (mk_asset 0 SBD_SYMBOL) (mk_asset 0 VESTS_SYMBOL) 0);
  t ← add_up (fun c => add_liquid (convert_request_amount c))
        (objects_by (fun x y => convert_request_id x <=? convert_request_id y) (convert_requests db)) t;
  t ← add_up add_order (objects_by (fun x y => limit_order_id x <=? limit_order_id y) (limit_orders db)) t;
  t ← add_up add_escrow (objects_by (fun x y => escrow_id x <=? escrow_id y) (escrows db)) t;
  add_up (fun w => add_liquid (savings_withdraw_amount w))
    (objects_by (fun x y => savings_withdraw_id x <=? savings_withdraw_id y) (savings_withdraws db)) t.

Definition assert_that (r : result bool) : result unit := b ← r; fc_assert b.

(** Its sums over the comments: the reward shares of all, and of all discussions *)
Definition add_comment (hf17 : bool) (t : Z * Z) (c : comment_object) : Z * Z :=
  (if com_net_rshares c >? 0 then u128_add (fst t) (vshares hf17 (u128_of_int64 (com_net_rshares c))) else fst t,
   if is_root_post c then u128_add (snd t) (com_children_rshares2 c) else snd t).
Definition count_rshares2 (db : database) : Z * Z :=
  fold_left (add_comment (STEEMIT_HARDFORK_0_17__433 <? length (processed_hardforks db))%nat)
    (objects_by (fun x y => com_id x <=? com_id y) (comments db)) (0, 0).

(** [validate_invariants] *)
Definition validate_invariants (db : database) : result unit :=
  let gpo := dgp db in
  let mp := feed_current_median_history (feed_history db) in
  let '(total_rshares2, total_children_rshares2) := count_rshares2 db in
  result_for_each (fun w => fc_assert (witness_votes w <? amount (dgp_total_vesting_shares gpo)))
    (objects_by (fun x y => witness_id x <=? witness_id y) (witnesses db)) ;;
  t ← count_up db;
  funds ← asset_add (dgp_total_vesting_fund_steem gpo) (dgp_total_reward_fund_steem gpo);
  supply ← asset_add (total_supply t) funds;
  assert_that (asset_eqb (dgp_current_supply gpo) supply) ;;
  assert_that (asset_eqb (dgp_current_sbd_supply gpo) (total_sbd t)) ;;
  assert_that (asset_eqb (dgp_total_vesting_shares gpo) (total_vesting t)) ;;
  fc_assert (amount (dgp_total_vesting_shares gpo) =? total_vsf_votes t) ;;
  fc_assert (dgp_total_reward_shares2 gpo =? total_rshares2) ;;
  fc_assert (total_rshares2 =? total_children_rshares2) ;;
  assert_that (asset_geb (dgp_virtual_supply gpo) (dgp_current_supply gpo)) ;;
  if negb (price_is_null mp) then
    value ← asset_mul_price (dgp_current_sbd_supply gpo) mp;
    sum ← asset_add value (dgp_current_supply gpo);
    assert_that (asset_eqb sum (dgp_virtual_supply gpo))
  else Ok tt.
End Books.

(** *** What a database that passes looks like *)

Section Sound.
Context `{F : fc_ops} {L : fc_laws F}.
Variable sym : Z.

Definition counted (t : totals) : Z :=
  amount_in sym (total_supply t) + amount_in sym (total_sbd t) + amount_in sym (total_vesting t).

Lemma objects_by_sum {K V : Type} `{Countable K} (leb : V -> V -> bool) (t : table K V) (f : V -> Z) :
  foldr (fun v acc => f v + acc) 0 (objects_by leb t) = msum f (rows t).
Proof.
  transitivity (foldr (fun v acc => f v + acc) 0 (map_to_list (rows t)).*2).
  - apply sum_perm, sort_by_perm.
  - unfold msum. rewrite map_fold_foldr. induction (map_to_list (rows t)) as [| [k v] l IH]; cbn; [done|]. by rewrite IH.
Qed.

Lemma add_up_sum {V : Type} (add : V -> totals -> result totals) (f : V -> Z) l t t' :
  (forall v t t', v ∈ l -> add v t = Ok t' -> counted t' = counted t + f v) ->
  add_up add l t = Ok t' -> counted t' = counted t + foldr (fun v acc => f v + acc) 0 l.
Proof.
  revert t. induction l as [| v l IH]; intros t Hadd H; cbn in H; inv_ok; cbn; [lia|].
  apply IH in H; [|intros; eapply Hadd; [by right | done]]. apply Hadd in Hrun; [lia | left].
Qed.

Lemma add_liquid_sum a t t' : add_liquid a t = Ok t' -> counted t' = counted t + amount_in sym a.
Proof.
  unfold add_liquid, counted. intros H.
  destruct (symbol a =? STEEM_SYMBOL), (symbol a =? SBD_SYMBOL); inv_ok;
    apply (amount_in_add sym) in Hrun; cbn; lia.
Qed.

Lemma add_account_sum a t t' : add_account a t = Ok t' -> counted t' = counted t + account_holdings sym a.
Proof.
  unfold add_account, counted, account_holdings. intros H. inv_ok.
  repeat match goal with H : asset_add _ _ = Ok _ |- _ => apply (amount_in_add sym) in H end. cbn. lia.
Qed.
Lemma add_escrow_sum e t t' : add_escrow e t = Ok t' -> counted t' = counted t + escrow_holdings sym e.
Proof.
  unfold add_escrow, escrow_holdings. intros H. inv_ok. apply add_liquid_sum in H. rewrite H. unfold counted. cbn.
  repeat match goal with H : asset_add _ _ = Ok _ |- _ => apply (amount_in_add sym) in H end. lia.
Qed.

(** An order that sells GOLOS or GBG *)
Definition sells_liquid (o : limit_order_object) : Prop :=
  symbol (base (limit_order_sell_price o)) = STEEM_SYMBOL \/ symbol (base (limit_order_sell_price o)) = SBD_SYMBOL.

Lemma add_order_sum o t t' : sells_liquid o -> add_order o t = Ok t' -> counted t' = counted t + order_holdings sym o.
Proof.
  unfold add_order. intros Ho H. replace (_ || _) with true in H; [by apply add_liquid_sum in H|].
  destruct Ho as [-> | ->]; done.
Qed.

Lemma count_up_holdings db t :
  map_Forall (fun _ o => sells_liquid o) (rows (limit_orders db)) -> count_up db = Ok t ->
  counted t = holdings sym db - fund_holdings sym (dgp db).
Proof.
  intros Horders H. unfold count_up in H. inv_ok.
  apply (add_up_sum _ (account_holdings sym)) in Hrun; [|intros *; intros _; apply add_account_sum].
  apply (add_up_sum _ (convert_holdings sym)) in Hrun0; [|intros *; intros _; apply add_liquid_sum].
  apply (add_up_sum _ (order_holdings sym)) in Hrun1.
  2: { intros o t0 t1 Ho. apply add_order_sum. unfold objects_by in Ho. rewrite sort_by_perm in Ho.
       apply list_elem_of_fmap in Ho as ([k o'] & -> & Hin). apply elem_of_map_to_list in Hin. by apply (Horders k). }
  apply (add_up_sum _ (escrow_holdings sym)) in Hrun2; [|intros *; intros _; apply add_escrow_sum].
  apply (add_up_sum _ (savings_holdings sym)) in H; [|intros *; intros _; apply add_liquid_sum].
  rewrite !objects_by_sum in *. unfold holdings. rewrite H, Hrun2, Hrun1, Hrun0, Hrun.
  unfold counted at 1. cbn. rewrite !amount_in_zero. lia.
Qed.

Lemma assert_eq_amount a b u : assert_that (asset_eqb a b) = Ok u -> amount_in sym a = amount_in sym b.
Proof.
  unfold assert_that. intros H. inv_ok. apply asset_eqb_Ok in Hrun as [Hs Ha]. symmetry in Ha. bool_to_prop.
  unfold amount_in. by rewrite Hs, Ha.
Qed.

Lemma validate_invariants_gap db :
  validate_invariants db = Ok tt -> map_Forall (fun _ o => sells_liquid o) (rows (limit_orders db)) -> gap sym db = 0.
Proof.
  intros H Horders. unfold validate_invariants in H. destruct (count_rshares2 db) as [r c]. cbv zeta in H. inv_ok.
  repeat match goal with
    | H : count_up _ = Ok _ |- _ => apply count_up_holdings in H; [|exact Horders]
    | H : assert_that (asset_eqb _ _) = Ok _ |- _ => apply assert_eq_amount in H
    | H : asset_add (dgp_total_vesting_fund_steem _) _ = Ok _ |- _ => apply (amount_in_add sym) in H
    | H : asset_add (total_supply _) _ = Ok _ |- _ => apply (amount_in_add sym) in H
    end.
  unfold gap, supply_of. unfold counted, fund_holdings in *. lia.
Qed.
End Sound.

(** ** What operations leave alone *)

(** The escrows and the routes, unless [e] or [r] says otherwise; the symbols of vesting
    shares always. *)
Definition vests_all (db : database) : Prop := map_Forall (fun _ a => vests_ok a) (rows (accounts db)).
Lemma vests_all_rel db db' : accounts_rel keeps_vests db db' -> vests_all db -> vests_all db'.
Proof.
  intros Hrel Hacc k a' Ha'. specialize (Hrel k). rewrite Ha' in Hrel.
  inversion Hrel as [a ? [E H] Ea |]; subst. symmetry in Ea. destruct (Hacc k a Ea) as [? ?]. split; [congruence | auto].
Qed.
Record steady (e r : bool) (db db' : database) : Prop := mk_steady {
  steady_escrows : e = true -> escrows db' = escrows db;
  steady_routes : r = true -> vesting_routes db' = vesting_routes db;
  steady_vests : vests_all db -> vests_all db';
  steady_total : symbol (dgp_total_vesting_shares (dgp db')) = symbol (dgp_total_vesting_shares (dgp db))
}.
#[export] Instance steady_preorder e r : PreOrder (steady e r).
Proof.
  split; [by split|]. intros x y z [E1 R1 V1 T1] [E2 R2 V2 T2].
  split; [intros He; by rewrite E2, E1 | intros Hr; by rewrite R2, R1 | auto | congruence].
Qed.

Lemma steady_weaken e r db db' : steady true true db db' -> steady e r db db'.
Proof. intros [H1 H2 H3 H4]. by split; auto. Qed.

Lemma steady_modify_accounts e r k f :
  (forall a a', f a = Ok a' -> keeps_vests a a') -> preserves (steady e r) (modify accounts k f).
Proof.
  intros Hf db u db' H. pose proof (modify_accounts_frame _ _ _ _ _ H) as Hfr.
  pose proof (vests_all_rel _ _ (modify_accounts_rel keeps_vests _ _ _ _ _ Hf H)) as Hrel.
  apply modify_run in H as (? & ? & _ & _ & ->). by split.
Qed.

Lemma steady_on_table {T : Type} (proj : database -> T) `{!FieldSetter proj} e r f :
  (forall db t, let db' := db <| proj := t |> in
     (e = true -> escrows db' = escrows db) /\ (r = true -> vesting_routes db' = vesting_routes db) /\
     accounts db' = accounts db /\ dgp db' = dgp db) ->
  preserves (steady e r) (on_table proj f).
Proof.
  intros Hp db u db' (t & _ & ->)%on_table_run. destruct (Hp db t) as (He & Hr & Ha & Hd).
  split; [done | done | by apply vests_all_rel, (accounts_rel_same keeps_vests) | by rewrite Hd].
Qed.

Lemma steady_modify_dgp e r f :
  (forall p p', f p = Ok p' -> symbol (dgp_total_vesting_shares p') = symbol (dgp_total_vesting_shares p)) ->
  preserves (steady e r) (modify_dgp f).
Proof. intros Hf db u db' (p & Hp%Hf & ->)%on_table_run. split; [done | done | by apply vests_all_rel, (accounts_rel_same keeps_vests) | done]. Qed.

Lemma steady_push e r op force : preserves (steady e r) (push_virtual_operation op force).
Proof.
  intros db u db' (n & l & ->)%push_virtual_operation_run. split; [done | done | by apply vests_all_rel, (accounts_rel_same keeps_vests) | done].
Qed.
#[export] Hint Resolve steady_push : preserves.

Lemma asset_add_symbol `{F : fc_ops} a b c : asset_add a b = Ok c -> symbol c = symbol a.
Proof. unfold asset_add. intros H. by inv_ok. Qed.
Lemma asset_sub_symbol `{F : fc_ops} a b c : asset_sub a b = Ok c -> symbol c = symbol a.
Proof. unfold asset_sub. intros H. by inv_ok. Qed.

(** The changes of tables *)
Ltac steady_rows :=
  match goal with
  | |- preserves _ (modify accounts _ _) =>
      apply steady_modify_accounts; let a := fresh "a" in let a' := fresh "a'" in let Ha := fresh "Ha" in
      intros a a' Ha;
      unfold add_withdraw_requests, add_withdraw_routes, add_delegated, add_received in Ha; cbv zeta in Ha; inv_ok;
      repeat case_match; by split
  | |- preserves _ (modify_dgp _) =>
      apply steady_modify_dgp; let p := fresh "p" in let p' := fresh "p'" in let Hp := fresh "Hp" in
      intros p p' Hp; repeat match type of Hp with (if ?c then _ else _) = Ok _ => destruct c end; inv_ok;
      repeat (match goal with Hq : (if ?c then _ else _) = Ok _ |- _ => destruct c end; inv_ok);
      first [reflexivity | cbn; by eapply asset_add_symbol | cbn; by eapply asset_sub_symbol]
  | |- preserves _ (modify _ _ _) => unfold modify at 1
  | |- preserves _ (create _ _ _) => unfold create at 1
  | |- preserves _ (remove _ _) => unfold remove at 1
  | |- preserves _ (on_table _ _) => apply steady_on_table; intros ? ?; by repeat split
  end.
Ltac steady_solve := repeat (preserve; try steady_rows).

Section Steady.
Context `{F : fc_ops} {L : fc_laws F} (e r : bool).

Lemma adjust_balance_steady name delta : preserves (steady e r) (adjust_balance name delta).
Proof.
  unfold adjust_balance, adjust_sbd_balance, accrue_sbd_interest, pay_interest_supply. cbv zeta. steady_solve.
Qed.
Lemma adjust_savings_balance_steady name delta : preserves (steady e r) (adjust_savings_balance name delta).
Proof.
  unfold adjust_savings_balance, accrue_savings_interest, pay_interest_supply. cbv zeta. steady_solve.
Qed.
Lemma adjust_supply_steady delta v : preserves (steady e r) (adjust_supply delta v).
Proof. unfold adjust_supply. cbv zeta. steady_solve. Qed.
Lemma adjust_proxied_steady n name delta : preserves (steady e r) (adjust_proxied_witness_votes_at n name delta).
Proof.
  intros db u db' H. pose proof (adjust_proxied_witness_votes_frame _ _ _ _ _ _ H) as Hf.
  pose proof (adjust_proxied_witness_votes_dgp _ _ _ _ _ _ H) as Hd.
  split; [intros; apply Hf | intros; apply Hf | | by rewrite Hd].
  eapply vests_all_rel, (adjust_proxied_witness_votes_rel keeps_vests); [|exact H]. by split.
Qed.

Hint Resolve adjust_balance_steady adjust_savings_balance_steady adjust_supply_steady adjust_proxied_steady : preserves.

Lemma asset_add_keeps_vests a v d :
  asset_add (account_vesting_shares a) d = Ok v -> keeps_vests a (a <| account_vesting_shares := v |>).
Proof. unfold asset_add. intros H. inv_ok. rewrite safe_add_law in Hrun0. inv_ok. by split. Qed.

Lemma create_vesting_steady to steem : preserves (steady e r) (create_vesting to steem).
Proof.
  unfold create_vesting, adjust_proxied_witness_votes. steady_solve.
  apply steady_modify_accounts. intros v v' Hv. inv_ok. by eapply asset_add_keeps_vests.
Qed.
Hint Resolve create_vesting_steady : preserves.

(** *** Transfers *)

Lemma transfer_steady o : preserves (steady e r) (transfer_evaluator o).
Proof. unfold transfer_evaluator. steady_solve. Qed.
Lemma transfer_to_vesting_steady o : preserves (steady e r) (transfer_to_vesting_evaluator o).
Proof. unfold transfer_to_vesting_evaluator. cbv zeta. steady_solve. Qed.
Lemma transfer_to_savings_steady o : preserves (steady e r) (transfer_to_savings_evaluator o).
Proof. unfold transfer_to_savings_evaluator. steady_solve. Qed.
Lemma transfer_from_savings_steady o : preserves (steady e r) (transfer_from_savings_evaluator o).
Proof. unfold transfer_from_savings_evaluator. cbv zeta. steady_solve. Qed.
Lemma cancel_transfer_from_savings_steady o : preserves (steady e r) (cancel_transfer_from_savings_evaluator o).
Proof. unfold cancel_transfer_from_savings_evaluator. cbv zeta. steady_solve. Qed.
Lemma break_free_referral_steady o : preserves (steady e r) (break_free_referral_evaluator o).
Proof. unfold break_free_referral_evaluator. cbv zeta. steady_solve. Qed.
Lemma process_savings_withdraws_steady : preserves (steady e r) process_savings_withdraws.
Proof. unfold process_savings_withdraws, complete_savings_withdraw. steady_solve. Qed.

(** *** Conversions and feeds *)

Lemma feed_publish_steady o : preserves (steady e r) (feed_publish_evaluator o).
Proof. unfold feed_publish_evaluator. steady_solve. Qed.
Lemma convert_steady o : preserves (steady e r) (convert_evaluator o).
Proof. unfold convert_evaluator. cbv zeta. steady_solve. Qed.
Lemma process_conversions_steady : preserves (steady e r) process_conversions.
Proof. unfold process_conversions, convert_request. steady_solve. Qed.

(** *** The market *)

Lemma cancel_order_steady k : preserves (steady e r) (cancel_order k).
Proof. unfold cancel_order, get_order. steady_solve. Qed.
Hint Resolve cancel_order_steady : preserves.
Lemma fill_order_steady k pays receives : preserves (steady e r) (fill_order k pays receives).
Proof. unfold fill_order, get_order. steady_solve. Qed.
Hint Resolve fill_order_steady : preserves.
Lemma match_orders_steady n o : preserves (steady e r) (match_orders n o).
Proof.
  unfold match_orders, reward_liquidity, adjust_liquidity_reward, get_order. cbv zeta. steady_solve.
Qed.
Hint Resolve match_orders_steady : preserves.
Lemma apply_order_steady k : preserves (steady e r) (apply_order k).
Proof.
  unfold apply_order, get_order. cbv zeta. steady_solve.
  match goal with |- preserves _ (match_all _ ?l) => induction l as [| x l IH]; cbn [match_all]; steady_solve end.
Qed.
Hint Resolve apply_order_steady : preserves.
Lemma place_order_steady owner id sell p kill expires : preserves (steady e r) (place_order owner id sell p kill expires).
Proof. unfold place_order, throw_if_exists_limit_order. steady_solve. Qed.
Lemma limit_order_create_steady o : preserves (steady e r) (limit_order_create_evaluator o).
Proof. unfold limit_order_create_evaluator. apply place_order_steady. Qed.
Lemma limit_order_create2_steady o : preserves (steady e r) (limit_order_create2_evaluator o).
Proof. unfold limit_order_create2_evaluator. apply place_order_steady. Qed.
Lemma limit_order_cancel_steady o : preserves (steady e r) (limit_order_cancel_evaluator o).
Proof. unfold limit_order_cancel_evaluator, get_limit_order. steady_solve. Qed.
Lemma clear_expired_orders_steady : preserves (steady e r) clear_expired_orders.
Proof. unfold clear_expired_orders. steady_solve. Qed.
End Steady.

(** ** Code that moves no value *)

Section Untouched.
Context `{F : fc_ops} {L : fc_laws F}.
Variable sym : Z.

Definition same_gap (db db' : database) : Prop := gap sym db' = gap sym db.
#[export] Instance same_gap_preorder : PreOrder same_gap.
Proof. split; [done|]. unfold same_gap. intros x y z. congruence. Qed.

Lemma same_gap_accounts k f :
  (forall a a', f a = Ok a' -> account_holdings sym a' = account_holdings sym a) ->
  preserves same_gap (modify accounts k f).
Proof.
  intros Hf db u db' H. apply (modify_accounts_gap sym) in H as (v & v' & _ & Hv%Hf & _ & _ & Hgap).
  unfold same_gap. lia.
Qed.
Lemma same_gap_on_table {T : Type} (proj : database -> T) `{!FieldSetter proj} f :
  (forall db t, let db' := db <| proj := t |> in
     accounts db' = accounts db /\ escrows db' = escrows db /\ limit_orders db' = limit_orders db /\
     convert_requests db' = convert_requests db /\ savings_withdraws db' = savings_withdraws db /\ dgp db' = dgp db) ->
  preserves same_gap (on_table proj f).
Proof.
  intros Hp db u db' (t & _ & ->)%on_table_run. destruct (Hp db t) as (E1 & E2 & E3 & E4 & E5 & E6).
  unfold same_gap, gap, holdings. by rewrite E1, E2, E3, E4, E5, E6.
Qed.

Lemma same_gap_push op force : preserves same_gap (push_virtual_operation op force).
Proof. by intros db u db' (n & l & ->)%push_virtual_operation_run. Qed.

Ltac same_gap_rows :=
  match goal with
  | |- preserves _ (modify accounts _ _) =>
      apply same_gap_accounts; let v := fresh "v" in let v' := fresh "v'" in let Hv := fresh "Hv" in
      intros v v' Hv; unfold add_withdraw_routes, add_delegated, add_received in Hv; cbv zeta in Hv; by inv_ok
  | |- preserves _ (push_virtual_operation _ _) => apply same_gap_push
  | |- preserves _ (modify _ _ _) => unfold modify
  | |- preserves _ (create _ _ _) => unfold create
  | |- preserves _ (remove _ _) => unfold remove
  | |- preserves _ (on_table _ _) => apply same_gap_on_table; intros ? ?; by repeat split
  end.
Ltac same_gap_solve := repeat (preserve; try same_gap_rows).

Lemma feed_publish_gap o db u db' : feed_publish_evaluator o db = Ok (u, db') -> gap sym db' = gap sym db.
Proof.
  revert db u db'. change (preserves same_gap (feed_publish_evaluator o)). unfold feed_publish_evaluator. cbv zeta. same_gap_solve.
Qed.
Lemma withdraw_vesting_gap o db u db' : withdraw_vesting_evaluator o db = Ok (u, db') -> gap sym db' = gap sym db.
Proof.
  revert db u db'. change (preserves same_gap (withdraw_vesting_evaluator o)). unfold withdraw_vesting_evaluator. cbv zeta. same_gap_solve.
Qed.
Lemma set_withdraw_vesting_route_gap o db u db' : set_withdraw_vesting_route_evaluator o db = Ok (u, db') -> gap sym db' = gap sym db.
Proof.
  revert db u db'. change (preserves same_gap (set_withdraw_vesting_route_evaluator o)). unfold set_withdraw_vesting_route_evaluator. cbv zeta. same_gap_solve.
Qed.
Lemma delegate_vesting_shares_gap o db u db' : delegate_vesting_shares_evaluator o db = Ok (u, db') -> gap sym db' = gap sym db.
Proof.
  revert db u db'. change (preserves same_gap (delegate_vesting_shares_evaluator o)). unfold delegate_vesting_shares_evaluator, delegate_vesting_shares, median_props, create_expiration. cbv zeta. same_gap_solve.
Qed.
Lemma delegate_with_interest_gap o db u db' : delegate_vesting_shares_with_interest_evaluator o db = Ok (u, db') -> gap sym db' = gap sym db.
Proof.
  revert db u db'. change (preserves same_gap (delegate_vesting_shares_with_interest_evaluator o)). unfold delegate_vesting_shares_with_interest_evaluator, delegate_vesting_shares, median_props, create_expiration. cbv zeta. same_gap_solve.
Qed.
Lemma reject_delegation_gap o db u db' : reject_vesting_shares_delegation_evaluator o db = Ok (u, db') -> gap sym db' = gap sym db.
Proof.
  revert db u db'. change (preserves same_gap (reject_vesting_shares_delegation_evaluator o)). unfold reject_vesting_shares_delegation_evaluator, create_expiration. cbv zeta. same_gap_solve.
Qed.
Lemma clear_expired_delegations_gap db u db' : clear_expired_delegations db = Ok (u, db') -> gap sym db' = gap sym db.
Proof.
  revert db u db'. change (preserves same_gap clear_expired_delegations).
  unfold clear_expired_delegations, return_delegation. cbv zeta. same_gap_solve.
Qed.

Lemma adjust_witness_vote_same_gap owner t : preserves same_gap (adjust_witness_vote owner t).
Proof. unfold adjust_witness_vote. cbv zeta. same_gap_solve. Qed.
Hint Resolve adjust_witness_vote_same_gap : preserves.
Lemma adjust_proxied_same_gap r name delta : preserves same_gap (adjust_proxied_witness_votes_at r name delta).
Proof.
  revert name. induction r as [| r IH]; intros name; cbn [adjust_proxied_witness_votes_at];
    unfold adjust_witness_votes; same_gap_solve.
Qed.
Lemma adjust_array_same_gap r name delta : preserves same_gap (adjust_proxied_witness_votes_array r name delta).
Proof.
  revert name. induction r as [| r IH]; intros name; cbn [adjust_proxied_witness_votes_array];
    unfold adjust_witness_votes; same_gap_solve.
Qed.
Lemma check_proxy_chain_same_gap fuel cprox chain : preserves same_gap (check_proxy_chain fuel cprox chain).
Proof.
  revert cprox chain. induction fuel as [| fuel IH]; intros cprox chain; cbn [check_proxy_chain]; cbv zeta; same_gap_solve.
Qed.
Lemma clear_witness_votes_same_gap name : preserves same_gap (clear_witness_votes name).
Proof. unfold clear_witness_votes. same_gap_solve. Qed.
Hint Resolve adjust_proxied_same_gap adjust_array_same_gap check_proxy_chain_same_gap clear_witness_votes_same_gap : preserves.
Lemma account_witness_proxy_gap o db u db' : account_witness_proxy_evaluator o db = Ok (u, db') -> gap sym db' = gap sym db.
Proof.
  revert db u db'. change (preserves same_gap (account_witness_proxy_evaluator o)).
  unfold account_witness_proxy_evaluator, set_proxy. cbv zeta. same_gap_solve.
Qed.
Lemma account_witness_vote_gap o db u db' : account_witness_vote_evaluator o db = Ok (u, db') -> gap sym db' = gap sym db.
Proof.
  revert db u db'. change (preserves same_gap (account_witness_vote_evaluator o)).
  unfold account_witness_vote_evaluator, adjust_proxied_witness_votes. cbv zeta. same_gap_solve.
Qed.
Lemma decline_voting_rights_gap o db u db' : decline_voting_rights_evaluator o db = Ok (u, db') -> gap sym db' = gap sym db.
Proof.
  revert db u db'. change (preserves same_gap (decline_voting_rights_evaluator o)).
  unfold decline_voting_rights_evaluator. cbv zeta. same_gap_solve.
Qed.
Lemma process_decline_voting_rights_gap db u db' : process_decline_voting_rights db = Ok (u, db') -> gap sym db' = gap sym db.
Proof.
  revert db u db'. change (preserves same_gap process_decline_voting_rights).
  unfold process_decline_voting_rights, decline_voting_rights. same_gap_solve.
Qed.
End Untouched.

Create HintDb ledger_gap.
Create HintDb ledger_escrows.

Section Invariant.
Context `{F : fc_ops} {L : fc_laws F} `{C : crypto_ops}.
#[local] Hint Resolve adjust_balance_steady : preserves.

(** *** Escrows *)

Lemma return_escrow_steady from k : preserves (steady false true) (return_escrow from k).
Proof. unfold return_escrow. steady_solve. Qed.
#[local] Hint Resolve return_escrow_steady : preserves.
Lemma escrow_transfer_steady o : preserves (steady false true) (escrow_transfer_evaluator o).
Proof. unfold escrow_transfer_evaluator. cbv zeta. steady_solve. Qed.
Lemma escrow_approve_steady o : preserves (steady false true) (escrow_approve_evaluator o).
Proof. unfold escrow_approve_evaluator, mark_approval. cbv zeta. steady_solve. Qed.
Lemma escrow_dispute_steady o : preserves (steady false true) (escrow_dispute_evaluator o).
Proof. unfold escrow_dispute_evaluator. steady_solve. Qed.
Lemma escrow_release_steady o : preserves (steady false true) (escrow_release_evaluator o).
Proof. unfold escrow_release_evaluator. cbv zeta. steady_solve. Qed.
Lemma expire_escrow_ratification_steady : preserves (steady false true) expire_escrow_ratification.
Proof. unfold expire_escrow_ratification, expire_escrow. steady_solve. Qed.

(** *** Withdrawals *)

Lemma withdraw_vesting_steady o : preserves (steady true true) (withdraw_vesting_evaluator o).
Proof. unfold withdraw_vesting_evaluator. cbv zeta. steady_solve. Qed.
Lemma set_withdraw_vesting_route_steady o : preserves (steady true false) (set_withdraw_vesting_route_evaluator o).
Proof. unfold set_withdraw_vesting_route_evaluator. cbv zeta. steady_solve. Qed.

(** *** Delegations *)

Lemma delegate_vesting_shares_steady o : preserves (steady true true) (delegate_vesting_shares_evaluator o).
Proof.
  unfold delegate_vesting_shares_evaluator, delegate_vesting_shares, median_props, create_expiration. cbv zeta. steady_solve.
Qed.
Lemma delegate_with_interest_steady o : preserves (steady true true) (delegate_vesting_shares_with_interest_evaluator o).
Proof.
  unfold delegate_vesting_shares_with_interest_evaluator, delegate_vesting_shares, median_props, create_expiration.
  cbv zeta. steady_solve.
Qed.
Lemma reject_delegation_steady o : preserves (steady true true) (reject_vesting_shares_delegation_evaluator o).
Proof. unfold reject_vesting_shares_delegation_evaluator, create_expiration. cbv zeta. steady_solve. Qed.
Lemma clear_expired_delegations_steady : preserves (steady true true) clear_expired_delegations.
Proof. unfold clear_expired_delegations, return_delegation. cbv zeta. steady_solve. Qed.

(** *** Votes *)

Lemma adjust_witness_vote_steady owner t : preserves (steady true true) (adjust_witness_vote owner t).
Proof. unfold adjust_witness_vote. cbv zeta. steady_solve. Qed.
#[local] Hint Resolve adjust_witness_vote_steady adjust_proxied_steady : preserves.
Lemma adjust_array_steady r name delta : preserves (steady true true) (adjust_proxied_witness_votes_array r name delta).
Proof.
  revert name. induction r as [| r IH]; intros name; cbn [adjust_proxied_witness_votes_array];
    unfold adjust_witness_votes; steady_solve.
Qed.
#[local] Hint Resolve adjust_array_steady : preserves.
Lemma check_proxy_chain_steady fuel cprox chain : preserves (steady true true) (check_proxy_chain fuel cprox chain).
Proof.
  revert cprox chain. induction fuel as [| fuel IH]; intros cprox chain; cbn [check_proxy_chain]; cbv zeta; steady_solve.
Qed.
Lemma clear_witness_votes_steady name : preserves (steady true true) (clear_witness_votes name).
Proof. unfold clear_witness_votes. steady_solve. Qed.
#[local] Hint Resolve check_proxy_chain_steady clear_witness_votes_steady : preserves.
Lemma account_witness_proxy_steady o : preserves (steady true true) (account_witness_proxy_evaluator o).
Proof. unfold account_witness_proxy_evaluator, set_proxy. cbv zeta. steady_solve. Qed.
Lemma account_witness_vote_steady o : preserves (steady true true) (account_witness_vote_evaluator o).
Proof. unfold account_witness_vote_evaluator, adjust_proxied_witness_votes. cbv zeta. steady_solve. Qed.
Lemma decline_voting_rights_evaluator_steady o : preserves (steady true true) (decline_voting_rights_evaluator o).
Proof. unfold decline_voting_rights_evaluator. cbv zeta. steady_solve. Qed.
Lemma process_decline_voting_rights_steady : preserves (steady true true) process_decline_voting_rights.
Proof. unfold process_decline_voting_rights, decline_voting_rights. steady_solve. Qed.

(** *** New GOLOS and the price *)

#[local] Hint Resolve adjust_supply_steady create_vesting_steady : preserves.
Lemma update_median_feed_steady : preserves (steady true true) update_median_feed.
Proof. unfold update_median_feed, scheduled_witnesses, push_scheduled, record_median. cbv zeta. steady_solve. Qed.
Lemma update_virtual_supply_steady : preserves (steady true true) update_virtual_supply.
Proof. unfold update_virtual_supply. steady_solve. Qed.
Lemma process_funds_steady : preserves (steady true true) process_funds.
Proof.
  unfold process_funds, pay_inflation, pay_first_rewards, pay_witness, add_funds, get_content_reward, get_curation_reward,
    get_producer_reward. cbv zeta. steady_solve.
Qed.
Lemma pay_liquidity_reward_steady : preserves (steady true true) pay_liquidity_reward.
Proof. unfold pay_liquidity_reward, get_liquidity_reward. steady_solve. Qed.

(** *** Accounts and witnesses *)

Lemma vests_all_insert k a n db : vests_ok a -> vests_all db -> vests_all (db <| accounts := mk_table (<[k := a]> (rows (accounts db))) n |>).
Proof. intros Ha Hall k' a' Hk'. cbn in Hk'. apply lookup_insert_Some in Hk' as [[_ <-] | [_ Hk']]; [done | by apply (Hall k')]. Qed.
Lemma create_account_steady k init : (forall id, account_vesting_shares (init id) = mk_asset 0 VESTS_SYMBOL) ->
  preserves (steady true true) (create accounts k init).
Proof. intros Hi db u db' [_ ->]%create_run. split; try done. apply vests_all_insert. unfold vests_ok. by rewrite Hi. Qed.
Hint Extern 1 (preserves _ (create accounts _ _)) => apply create_account_steady; intros; reflexivity : preserves.
Lemma metadata_steady a j s : preserves (steady true true) (store_account_json_metadata a j s).
Proof. unfold store_account_json_metadata, store_metadata_for_account. steady_solve. Qed.
Lemma check_authority_accounts_steady a : preserves (steady true true) (check_authority_accounts a).
Proof. unfold check_authority_accounts. steady_solve. Qed.
Lemma update_owner_authority_steady name a : preserves (steady true true) (update_owner_authority name a).
Proof. unfold update_owner_authority, check_authority_exists. steady_solve. Qed.
Lemma apply_create_extension_steady name e : preserves (steady true true) (apply_create_extension name e).
Proof. destruct e. unfold apply_create_extension, apply_referral_options, median_props. steady_solve. Qed.
Lemma reset_vesting_withdraw_steady name : preserves (steady true true) (reset_vesting_withdraw name).
Proof.
  unfold reset_vesting_withdraw. apply preserves_bind; [apply _ | unfold stop_withdraw; steady_solve | intros _].
  by intros db u db' ->%remove_vesting_routes_none.
Qed.
Hint Resolve metadata_steady check_authority_accounts_steady update_owner_authority_steady apply_create_extension_steady
  reset_vesting_withdraw_steady adjust_balance_steady create_vesting_steady : preserves.

Lemma account_create_steady o : preserves (steady true true) (account_create_evaluator o).
Proof. unfold account_create_evaluator, create_authority, median_props, take_fee. cbv zeta. steady_solve. Qed.
Lemma account_create_with_delegation_steady o : preserves (steady true true) (account_create_with_delegation_evaluator o).
Proof. unfold account_create_with_delegation_evaluator, create_authority, median_props, take_fee. cbv zeta. steady_solve. Qed.
Lemma account_update_steady o : preserves (steady true true) (account_update_evaluator o).
Proof. unfold account_update_evaluator. cbv zeta. steady_solve. Qed.
Lemma account_metadata_steady o : preserves (steady true true) (account_metadata_evaluator o).
Proof. unfold account_metadata_evaluator. steady_solve. Qed.
Lemma challenge_authority_steady o : preserves (steady true true) (challenge_authority_evaluator o).
Proof. unfold challenge_authority_evaluator, pay_challenge. cbv zeta. steady_solve. Qed.
Lemma prove_authority_steady o : preserves (steady true true) (prove_authority_evaluator o).
Proof. unfold prove_authority_evaluator. cbv zeta. steady_solve. Qed.
Lemma request_account_recovery_steady o : preserves (steady true true) (request_account_recovery_evaluator o).
Proof. unfold request_account_recovery_evaluator. cbv zeta. steady_solve. Qed.
Lemma recover_account_steady o : preserves (steady true true) (recover_account_evaluator o).
Proof. unfold recover_account_evaluator. cbv zeta. steady_solve. Qed.
Lemma change_recovery_account_steady o : preserves (steady true true) (change_recovery_account_evaluator o).
Proof. unfold change_recovery_account_evaluator. cbv zeta. steady_solve. Qed.
Lemma account_recovery_processing_steady : preserves (steady true true) account_recovery_processing.
Proof.
  unfold account_recovery_processing, clear_recovery_requests, clear_owner_histories, apply_recovery_changes, apply_recovery_change.
  steady_solve.
Qed.
Lemma report_over_production_steady o : preserves (steady true true) (report_over_production_evaluator o).
Proof. unfold report_over_production_evaluator. steady_solve. Qed.
Lemma witness_update_steady o : preserves (steady true true) (witness_update_evaluator o).
Proof. unfold witness_update_evaluator, update_witness. cbv zeta. steady_solve. Qed.
Lemma chain_properties_update_steady o : preserves (steady true true) (chain_properties_update_evaluator o).
Proof. unfold chain_properties_update_evaluator, update_witness. cbv zeta. steady_solve. Qed.
Lemma transit_to_cyberway_steady o : preserves (steady true true) (transit_to_cyberway_evaluator o).
Proof. unfold transit_to_cyberway_evaluator. cbv zeta. steady_solve. Qed.

Lemma clear_null_account_steady : preserves (steady true true) clear_null_account_balance.
Proof.
  unfold clear_null_account_balance, clear_null_balance, clear_null_vesting, burn. cbv zeta. steady_solve;
    solve [apply adjust_balance_steady | apply adjust_savings_balance_steady | apply adjust_supply_steady].
Qed.

(** *** Comments and payouts *)

#[export] Instance same_gap_discussing sym : discussing (same_gap sym).
Proof.
  split; [apply _|..].
  - intros k f Hf. apply same_gap_accounts. intros a a' Ha%Hf. unfold account_holdings.
    by rewrite (f_equal account_balance Ha : account_balance a' = account_balance a), (f_equal account_savings_balance Ha : account_savings_balance a' = _ a),
      (f_equal account_sbd_balance Ha : account_sbd_balance a' = _ a), (f_equal account_savings_sbd_balance Ha : account_savings_sbd_balance a' = _ a),
      (f_equal account_vesting_shares Ha : account_vesting_shares a' = _ a).
  - intros f. apply same_gap_on_table; intros ? ?; by repeat split.
  - intros f. apply same_gap_on_table; intros ? ?; by repeat split.
  - intros f. apply same_gap_on_table; intros ? ?; by repeat split.
  - intros f. refine (keeps_gap_modify_dgp sym _ _). by intros ? ? [= <-].
Qed.
Lemma active_change_vests a a' : active_change a a' -> keeps_vests a a'.
Proof. intros Ha. unfold keeps_vests. by rewrite (f_equal account_vesting_shares Ha : account_vesting_shares a' = account_vesting_shares a). Qed.
Lemma reward_change_vests a a' : reward_change a a' -> keeps_vests a a'.
Proof. intros Ha. unfold keeps_vests. by rewrite (f_equal account_vesting_shares Ha : account_vesting_shares a' = account_vesting_shares a). Qed.
#[export] Instance steady_paying e r : paying (steady e r).
Proof.
  split; [split; [apply _|..]|..].
  - intros k f Hf. apply steady_modify_accounts. intros a a' Ha%Hf. by apply active_change_vests.
  - intros f. apply steady_on_table; intros ? ?; by repeat split.
  - intros f. apply steady_on_table; intros ? ?; by repeat split.
  - intros f. apply steady_on_table; intros ? ?; by repeat split.
  - intros f. apply steady_modify_dgp. by intros ? ? [= <-].
  - intros k f Hf. apply steady_modify_accounts. intros a a' Ha%Hf. by apply reward_change_vests.
  - intros. apply create_vesting_steady.
  - intros. unfold create_sbd. cbv zeta. steady_solve; first [apply adjust_balance_steady | apply adjust_supply_steady].
  - intros k f _. unfold modify. apply steady_on_table; intros ? ?; by repeat split.
  - intros f Hf. apply steady_modify_dgp. intros p p' Hp. by destruct (Hf p p' Hp) as [n ->].
  - intros. apply steady_push.
Qed.

(** The invariant *)
Record ledger_wf (db : database) : Prop := {
  ledger_escrows : escrows_wf db;
  ledger_vests : vests_wf db;
  ledger_routes : routes_inv db
}.

(** An operation keeps it if it keeps what it does not leave alone. *)
Lemma ledger_wf_steady e r db db' :
  ledger_wf db -> steady e r db db' -> (e = false -> escrows_wf db') -> (r = false -> routes_inv db') -> ledger_wf db'.
Proof.
  intros [He Hv Hr] [Ee Er Rel T] He' Hr'. split.
  - destruct e; [|by apply He']. unfold escrows_wf. by rewrite Ee.
  - destruct Hv as [Ha Ht]. split; [by apply Rel | congruence].
  - destruct r; [|by apply Hr']. destruct Hr as [Hk Hp Ht]. specialize (Er eq_refl).
    split; [by rewrite Er | by rewrite Er|]. intros f. unfold routes_of. rewrite Er. apply Ht.
Qed.

(** ** The steps of the ledger *)

(** The evaluator of an operation, for the operations that move value or votes and
    whose evaluator is modelled *)
Definition evaluator_of (op : operation) : option (M unit) :=
  match op with
  | op_transfer o => Some (transfer_evaluator o)
  | op_transfer_to_vesting o => Some (transfer_to_vesting_evaluator o)
  | op_transfer_to_savings o => Some (transfer_to_savings_evaluator o)
  | op_transfer_from_savings o => Some (transfer_from_savings_evaluator o)
  | op_cancel_transfer_from_savings o => Some (cancel_transfer_from_savings_evaluator o)
  | op_break_free_referral o => Some (break_free_referral_evaluator o)
  | op_escrow_transfer o => Some (escrow_transfer_evaluator o)
  | op_escrow_approve o => Some (escrow_approve_evaluator o)
  | op_escrow_dispute o => Some (escrow_dispute_evaluator o)
  | op_escrow_release o => Some (escrow_release_evaluator o)
  | op_limit_order_create o => Some (limit_order_create_evaluator o)
  | op_limit_order_create2 o => Some (limit_order_create2_evaluator o)
  | op_limit_order_cancel o => Some (limit_order_cancel_evaluator o)
  | op_feed_publish o => Some (feed_publish_evaluator o)
  | op_convert o => Some (convert_evaluator o)
  | op_withdraw_vesting o => Some (withdraw_vesting_evaluator o)
  | op_set_withdraw_vesting_route o => Some (set_withdraw_vesting_route_evaluator o)
  | op_delegate_vesting_shares o => Some (delegate_vesting_shares_evaluator o)
  | op_delegate_vesting_shares_with_interest o => Some (delegate_vesting_shares_with_interest_evaluator o)
  | op_reject_vesting_shares_delegation o => Some (reject_vesting_shares_delegation_evaluator o)
  | op_account_witness_vote o => Some (account_witness_vote_evaluator o)
  | op_account_witness_proxy o => Some (account_witness_proxy_evaluator o)
  | op_decline_voting_rights o => Some (decline_voting_rights_evaluator o)
  | op_account_create o => Some (account_create_evaluator o)
  | op_account_create_with_delegation o => Some (account_create_with_delegation_evaluator o)
  | op_account_update o => Some (account_update_evaluator o)
  | op_account_metadata o => Some (account_metadata_evaluator o)
  | op_challenge_authority o => Some (challenge_authority_evaluator o)
  | op_prove_authority o => Some (prove_authority_evaluator o)
  | op_request_account_recovery o => Some (request_account_recovery_evaluator o)
  | op_recover_account o => Some (recover_account_evaluator o)
  | op_change_recovery_account o => Some (change_recovery_account_evaluator o)
  | op_reset_account o => Some (reset_account_evaluator o)
  | op_set_reset_account o => Some (set_reset_account_evaluator o)
  | op_report_over_production o => Some (report_over_production_evaluator o)
  | op_witness_update o => Some (witness_update_evaluator o)
  | op_chain_properties_update o => Some (chain_properties_update_evaluator o)
  | op_transit_to_cyberway o => Some (transit_to_cyberway_evaluator o)
  | op_comment o => Some (comment_evaluator o)
  | op_delete_comment o => Some (delete_comment_evaluator o)
  | op_comment_options o => Some (comment_options_evaluator o)
  | op_vote o => Some (vote_evaluator o)
  | _ => None
  end.

(** The calls of [_apply_block] that move value or votes, in its order, without the payouts
    ([process_comment_cashout]), which are steps of their own, one for each comment, and
    the bookkeeping.  The translation of [_apply_block] with all its calls is in Chain;
    BlockRun proves that it runs these steps and nothing else. *)
Definition block_steps : list (M unit) :=
  [clear_expired_orders; clear_expired_delegations; update_median_feed; update_virtual_supply; clear_null_account_balance; process_funds;
   process_conversions; process_vesting_withdrawals; process_savings_withdraws; pay_liquidity_reward; account_recovery_processing;
   expire_escrow_ratification; process_decline_voting_rights].

(** When a comment is paid out, when the steps of a block run, and which operations occur *)
Record conditions := mk_conditions {
  payable : database -> comment_object -> Prop;
  in_block : database -> Prop;
  allowed : operation -> Prop
}.
Definition no_conditions : conditions := mk_conditions (fun _ _ => True) (fun _ => True) (fun _ => True).
(** The votes of a paid comment can be weighed, and the value of the shares of "null" is an
    amount *)
Definition value_conditions : conditions := mk_conditions payout_ready burnable (fun _ => True).

(** Operations after their validation, the steps of a block, the payouts of comments, the
    hardforks after 0.17, the bookkeeping, and the move of the head block *)
Inductive ledger_step (given : conditions) (db : database) : database -> Prop :=
| operation_step op m db' :
    operation_validate op = Ok tt -> evaluator_of op = Some m -> allowed given op -> m db = Ok (tt, db') -> ledger_step given db db'
| block_step m db' : m ∈ block_steps -> in_block given db -> m db = Ok (tt, db') -> ledger_step given db db'
| payout_step k db' :
    (forall c, rows (comments db) !! k = Some c -> 0 < com_net_rshares c -> payable given db c) ->
    cashout_comment_helper k db = Ok (tt, db') -> ledger_step given db db'
| hardfork_step recovery_key db' :
    (STEEMIT_HARDFORK_0_17 < length (processed_hardforks db))%nat ->
    process_hardforks recovery_key db = Ok (tt, db') -> ledger_step given db db'
| record_step m db' : bookkeeping m -> m db = Ok (tt, db') -> ledger_step given db db'
| head_step size b skip db' :
    dgp_time (dgp db) < header_timestamp (block_header b) ->
    update_global_dynamic_data size b skip db = Ok (tt, db') -> ledger_step given db db'.

(** A step under some conditions is a step under weaker ones. *)
Lemma ledger_step_weaken given given' db db' :
  (forall d c, payable given d c -> payable given' d c) -> (forall d, in_block given d -> in_block given' d) ->
  (forall op, allowed given op -> allowed given' op) -> ledger_step given db db' -> ledger_step given' db db'.
Proof.
  intros Hp Hb Ho [op m d H1 H2 H3 H4 | m d H1 H2 H3 | k d H1 H2 | key d H1 H2 | m d H1 H2 | size b skip d H1 H2].
  - by eapply operation_step; [| |apply Ho|].
  - by eapply block_step; [|apply Hb|].
  - eapply payout_step; [|done]. intros c Hc Hn. by apply Hp, H1.
  - by eapply hardfork_step.
  - by eapply record_step.
  - by eapply head_step.
Qed.

Lemma ledger_wf_kept (m : M unit) db u db' :
  preserves (steady true true) m -> ledger_wf db -> m db = Ok (u, db') -> ledger_wf db'.
Proof. intros Hm Hwf H%Hm. by eapply ledger_wf_steady. Qed.
(** Bookkeeping moves no value. *)
Lemma bookkept_gap moves sym db db' : bookkept moves db db' -> gap sym db' = gap sym db.
Proof.
  intros H. unfold gap, holdings.
  rewrite (kept_accounts _ _ _ H), (kept_escrows _ _ _ H), (kept_orders _ _ _ H), (kept_requests _ _ _ H), (kept_savings _ _ _ H).
  pose proof (f_equal (supply_of sym) (kept_properties _ _ _ H) : supply_of sym (dgp db') = supply_of sym (dgp db)) as ->.
  by pose proof (f_equal (fund_holdings sym) (kept_properties _ _ _ H) : fund_holdings sym (dgp db') = fund_holdings sym (dgp db)) as ->.
Qed.
Lemma bookkept_wf moves db db' : bookkept moves db db' -> ledger_wf db -> ledger_wf db'.
Proof.
  intros H Hwf. apply (ledger_wf_steady true true db); [done | | done | done]. split; intros.
  - apply (kept_escrows _ _ _ H).
  - apply (kept_routes _ _ _ H).
  - unfold vests_all. by rewrite (kept_accounts _ _ _ H).
  - exact (f_equal (fun p => symbol (dgp_total_vesting_shares p)) (kept_properties _ _ _ H)).
Qed.
Lemma ledger_wf_escrows (m : M unit) db u db' :
  preserves (steady false true) m -> (escrows_wf db -> escrows_wf db') -> ledger_wf db -> m db = Ok (u, db') ->
  ledger_wf db'.
Proof. intros Hm He Hwf H%Hm. eapply ledger_wf_steady; [done | done | |done]. intros _. apply He, Hwf. Qed.

#[local] Hint Resolve transfer_gap transfer_to_vesting_gap transfer_to_savings_gap transfer_from_savings_gap
  cancel_transfer_from_savings_gap break_free_referral_gap escrow_transfer_gap escrow_approve_gap escrow_dispute_gap
  escrow_release_gap limit_order_create_gap limit_order_create2_gap limit_order_cancel_gap convert_gap
  feed_publish_gap withdraw_vesting_gap set_withdraw_vesting_route_gap delegate_vesting_shares_gap delegate_with_interest_gap
  reject_delegation_gap account_witness_vote_gap account_witness_proxy_gap decline_voting_rights_gap ledger_escrows : ledger_gap.
#[local] Hint Resolve transfer_steady transfer_to_vesting_steady transfer_to_savings_steady transfer_from_savings_steady
  cancel_transfer_from_savings_steady break_free_referral_steady escrow_transfer_steady escrow_approve_steady
  escrow_dispute_steady escrow_release_steady limit_order_create_steady limit_order_create2_steady limit_order_cancel_steady convert_steady
  feed_publish_steady withdraw_vesting_steady set_withdraw_vesting_route_steady delegate_vesting_shares_steady
  delegate_with_interest_steady reject_delegation_steady account_witness_vote_steady account_witness_proxy_steady
  decline_voting_rights_evaluator_steady account_create_steady account_create_with_delegation_steady account_update_steady
  account_metadata_steady challenge_authority_steady prove_authority_steady request_account_recovery_steady recover_account_steady
  change_recovery_account_steady account_recovery_processing_steady report_over_production_steady witness_update_steady chain_properties_update_steady
  transit_to_cyberway_steady : preserves.
#[local] Hint Resolve escrow_transfer_wf escrow_approve_wf escrow_dispute_wf escrow_release_wf : ledger_escrows.

#[local] Hint Resolve account_update_gap account_metadata_gap challenge_authority_gap prove_authority_gap request_account_recovery_gap
  recover_account_gap change_recovery_account_gap report_over_production_gap witness_update_gap chain_properties_update_gap
  transit_to_cyberway_gap : preserves.
Lemma same_gap_run sym {A : Type} (m : M A) db a db' : preserves (same_gap sym) m -> m db = Ok (a, db') -> gap sym db' = gap sym db.
Proof. intros Hm H. exact (Hm _ _ _ H). Qed.

Lemma operation_step_gap sym op m db u db' :
  operation_validate op = Ok tt -> evaluator_of op = Some m -> ledger_wf db -> m db = Ok (u, db') ->
  gap sym db' = gap sym db.
Proof.
  intros Hval Hm Hwf H. destruct op; try discriminate Hm; injection Hm as <-; cbn in Hval;
    first [ solve [eauto 3 with ledger_gap] | refine (same_gap_run sym _ _ _ _ _ H); solve [auto with preserves]
      | eapply account_create_gap, H; exact Hval | eapply account_create_with_delegation_gap, H; exact Hval
      | unfold reset_account_evaluator, set_reset_account_evaluator in H; discriminate H ].
Qed.

Lemma operation_step_wf op m db u db' :
  operation_validate op = Ok tt -> evaluator_of op = Some m -> ledger_wf db -> m db = Ok (u, db') -> ledger_wf db'.
Proof.
  intros Hval Hm Hwf H. destruct op; try discriminate Hm; injection Hm as <-; cbn in Hval;
    match type of H with ?m _ = _ => first
      [ refine (ledger_wf_kept m _ _ _ _ Hwf H); solve [auto with preserves]
      | unfold reset_account_evaluator, set_reset_account_evaluator in H; discriminate H
      | refine (ledger_wf_escrows m _ _ _ _ _ Hwf H); solve [auto with preserves | eauto with ledger_escrows] | idtac ] end.
  apply set_withdraw_vesting_route_steady in H as Hst. eapply ledger_wf_steady; [done | done | done|].
  intros _. eapply set_route_keeps; [done | apply Hwf | done].
Qed.

Lemma block_step_conserves m db u db' :
  m ∈ block_steps -> burnable db -> ledger_wf db -> m db = Ok (u, db') -> (forall sym, gap sym db' = gap sym db) /\ ledger_wf db'.
Proof.
  intros Hm Hburn Hwf H. repeat (apply elem_of_cons in Hm as [-> | Hm]); [..|by apply not_elem_of_nil in Hm].
  - split; [intros; by eapply clear_expired_orders_gap|]. eapply ledger_wf_kept, H; [apply clear_expired_orders_steady | done].
  - split; [intros; by eapply clear_expired_delegations_gap|].
    eapply ledger_wf_kept, H; [apply clear_expired_delegations_steady | done].
  - split; [intros; by eapply update_median_feed_gap|]. eapply ledger_wf_kept, H; [apply update_median_feed_steady | done].
  - split; [intros; by eapply update_virtual_supply_gap|]. eapply ledger_wf_kept, H; [apply update_virtual_supply_steady | done].
  - split; [intros; by eapply clear_null_account_gap|]. eapply ledger_wf_kept, H; [apply clear_null_account_steady | done].
  - split; [intros; by eapply process_funds_gap|]. eapply ledger_wf_kept, H; [apply process_funds_steady | done].
  - split; [intros; by eapply process_conversions_gap|]. eapply ledger_wf_kept, H; [apply process_conversions_steady | done].
  - pose proof (fun sym => process_vesting_withdrawals_pass sym _ _ _ (ledger_vests _ Hwf) (inv_total _ (ledger_routes _ Hwf)) H) as P.
    split; [intros sym; rewrite (pass_gap _ _ _ _ (P sym)), amount_in_zero; lia|].
    destruct (P 0) as [_ Hrel Ht Hfr]. eapply (ledger_wf_steady true true); [done | | done | done].
    split; [intros _; apply Hfr | intros _; apply Hfr | by apply vests_all_rel | done].
  - split; [intros; by eapply process_savings_withdraws_gap|]. eapply ledger_wf_kept, H; [apply process_savings_withdraws_steady | done].
  - split; [intros; by eapply pay_liquidity_reward_gap|]. eapply ledger_wf_kept, H; [apply pay_liquidity_reward_steady | done].
  - split; [intros; by eapply account_recovery_processing_gap|].
    eapply ledger_wf_kept, H; [apply account_recovery_processing_steady | done].
  - split; [intros; by eapply expire_escrow_ratification_gap|].
    eapply ledger_wf_escrows, H; [apply expire_escrow_ratification_steady | by eapply expire_escrow_ratification_wf | done].
  - split; [intros; by eapply process_decline_voting_rights_gap|].
    eapply ledger_wf_kept, H; [apply process_decline_voting_rights_steady | done].
Qed.

Lemma ledger_step_conserves db db' :
  ledger_step value_conditions db db' -> ledger_wf db -> (forall sym, gap sym db' = gap sym db) /\ ledger_wf db'.
Proof.
  intros [op m d Hval Hm _ H | m d Hm Hburn H | k d Hready H | key d Hlate H | m d Hm H | size b skip d _ H] Hwf.
  - split; [intros sym; by eapply operation_step_gap | by eapply operation_step_wf].
  - by eapply block_step_conserves.
  - split; [intros sym; by eapply cashout_comment_gap|]. refine (ledger_wf_kept _ _ _ _ _ Hwf H). by apply cashout_comment_preserves, _.
  - apply process_hardforks_late in H as [(h & n & l & ->) _]; [|done]. split; [done|]. destruct Hwf as [H1 H2 H3]. split; [exact H1 | exact H2 | by destruct H3].
  - apply bookkeeping_bookkept in H; [|done]. split; [intros sym; by eapply bookkept_gap | by eapply bookkept_wf].
  - apply head_update_bookkept in H. split; [intros sym; by eapply bookkept_gap | by eapply bookkept_wf].
Qed.

Lemma ledger_steps_conserve db db' :
  rtc (ledger_step value_conditions) db db' -> ledger_wf db -> (forall sym, gap sym db' = gap sym db) /\ ledger_wf db'.
Proof.
  induction 1 as [db | db1 db2 db3 H12 _ IH]; intros Hwf; [done|].
  apply ledger_step_conserves in H12 as [Hg Hwf2]; [|done]. destruct (IH Hwf2) as [Hg3 Hwf3].
  split; [|done]. intros sym. by rewrite Hg3, Hg.
Qed.

(** C1: The books balance: from a database that [validate_invariants] accepts and whose
    objects are well formed, every sequence of steps that runs leaves, in every symbol,
    exactly as much recorded as supply as accounts, orders, escrows, requests, withdrawals
    and funds hold, and leaves the objects well formed.  The steps are validated operations
    with a modelled evaluator, the steps of blocks, among them the burning of what "null"
    owns, payouts, the hardforks after 0.17, the bookkeeping and the moves of the head
    block.  The conditions: the votes of a comment can be weighed when it is paid
    ([payout_ready]; without it the books can break), and the shares of "null" are worth
    less than 2^63 when a step of a block runs ([burnable]). *)
Theorem ledger_balanced db db' :
  validate_invariants db = Ok tt ->
  map_Forall (fun _ o => sells_liquid o) (rows (limit_orders db)) -> ledger_wf db ->
  rtc (ledger_step value_conditions) db db' ->
  ledger_wf db' /\ forall sym, supply_of sym (dgp db') = holdings sym db'.
Proof.
  intros Hval Horders Hwf Hsteps. destruct (ledger_steps_conserve _ _ Hsteps Hwf) as [Hg Hwf'].
  split; [done|]. intros sym. specialize (Hg sym). rewrite (validate_invariants_gap sym _ Hval Horders) in Hg.
  unfold gap in Hg. lia.
Qed.
End Invariant.

(** ** A run *)

Definition sample_transfer : transfer_operation := mk_transfer "alice" "bob" (mk_asset 40000 STEEM_SYMBOL) "".

(** A chain with the account "null", to which alice gives a part of her GOLOS *)
Definition sample_burning_database : database :=
  sample_vesting_database
    <| accounts ::= (fun t => mk_table (<[STEEMIT_NULL_ACCOUNT := (sample_account 9 STEEMIT_NULL_ACCOUNT 0 0 0 0)
                                          <| account_next_vesting_withdrawal := 2 ^ 32 - 1 |>]> (rows t)) 10) |>.
Lemma sample_burning_wf : ledger_wf sample_burning_database.
Proof.
  split; [apply map_Forall_empty | |].
  { split; [refine (bool_decide_unpack _ _); by vm_compute | vm_compute; reflexivity]. }
  assert (forall db f, routes_inv db -> routes_inv (db <| accounts ::= f |>)) as H by (intros db f []; by split). apply H, sample_routes_inv.
Qed.
Definition sample_gift : transfer_operation := mk_transfer "alice" STEEMIT_NULL_ACCOUNT (mk_asset 40000 STEEM_SYMBOL) "".
Definition sample_next_block : signed_block := mk_signed_block (mk_signed_block_header 0 (sample_time + 3) "" 0 [] 0) [].

(** alice's gift is burned by the next block, which also pays carol's instalment. *)
Lemma ledger_balanced_witness :
  let db1 := run_state (transfer_evaluator (F := fc_ref) sample_gift) sample_burning_database in
  let db2 := run_state (update_global_dynamic_data (F := fc_ref) (C := crypto_ref) (fun _ => 200) sample_next_block skip_nothing) db1 in
  let db3 := run_state (clear_null_account_balance (F := fc_ref)) db2 in
  let db4 := run_state (process_vesting_withdrawals (F := fc_ref)) db3 in
  amount (dgp_current_supply (dgp db4)) = amount (dgp_current_supply (dgp db1)) - 40000 /\
  ledger_wf db4 /\ forall sym, supply_of sym (dgp db4) = holdings sym db4.
Proof.
  intros db1 db2 db3 db4. split; [vm_compute; reflexivity|].
  apply (ledger_balanced (F := fc_ref) (C := crypto_ref) sample_burning_database db4).
  - vm_compute. reflexivity.
  - apply map_Forall_empty.
  - apply sample_burning_wf.
  - apply (rtc_l _ _ db1); [|apply (rtc_l _ _ db2); [|apply (rtc_l _ _ db3); [|apply rtc_once]]].
    + refine (operation_step value_conditions _ (op_transfer sample_gift) _ _ _ eq_refl I _); [vm_compute; reflexivity | unfold db1; run_now].
    + apply (head_step _ _ (fun _ => 200) sample_next_block skip_nothing); [vm_compute; reflexivity | unfold db2; run_now].
    + refine (block_step _ _ clear_null_account_balance _ _ _ _); [unfold block_steps; set_solver | | unfold db3; run_now].
      intros a v Ha Hv. vm_compute in Ha. injection Ha as <-. vm_compute in Hv. injection Hv as <-. discriminate.
    + refine (block_step _ _ process_vesting_withdrawals _ _ _ _); [unfold block_steps; set_solver | | unfold db4; run_now].
      intros a v Ha Hv. vm_compute in Ha. injection Ha as <-. vm_compute in Hv. injection Hv as <-. discriminate.
Defined.
