(* ===== verification/Threads.v ===== *)
(** * The evaluators of comments implement the forest

    Every comment is a node of a forest (Forest): [comment_evaluator] adds a leaf,
    [delete_comment_evaluator] removes one, a vote and a payout change the shares of a node,
    and nothing else touches what is counted.  So the counts of comments and the total of
    reward shares are exact after every sequence of operations and block steps. *)

From S2P Require Import Prelude Exceptions Text Fc Config Asset FlatMap Authority Operations Crypto Validate SignState Transaction BlockId ForkDatabase Objects Database Conservation Sample Transfers Escrow Market Conversion Vesting Preserve Production Schedule Bookkeeping Burning Funds Delegation Accounts Curation Comments Cashout Payout Discussions Hardforks Forest Votes Ledger.

(** ** The forest of a database *)

Definition node_of (c : comment_object) : node :=
  mk_node (key_of c) (if is_root_post c then None else Some (parent_key c)) (com_depth c) (com_children c) (com_children_rshares2 c)
    (com_net_rshares c).
Definition forest_of (db : database) : forest := node_of <$> rows (comments db).
Definition total_of (db : database) : Z := dgp_total_reward_shares2 (dgp db).

Lemma forest_lookup db k c : rows (comments db) !! k = Some c -> forest_of db !! k = Some (node_of c).
Proof. intros H. unfold forest_of. by rewrite lookup_fmap, H. Qed.
Lemma forest_lookup_Some db k n : forest_of db !! k = Some n -> exists c, rows (comments db) !! k = Some c /\ n = node_of c.
Proof. unfold forest_of. rewrite lookup_fmap. intros (c & H & ->)%fmap_Some. eauto. Qed.

(** What a step leaves alone when it is not about comments *)
Record same_threads (db db' : database) : Prop := mk_same_threads {
  same_forest : forest_of db' = forest_of db;
  same_total : total_of db' = total_of db;
  same_hardforks : processed_hardforks db' = processed_hardforks db
}.
#[export] Instance same_threads_preorder : PreOrder same_threads.
Proof. split; [done|]. intros x y z [] []. split; congruence. Qed.

Lemma threads_dgp f : (forall p p', f p = Ok p' -> dgp_total_reward_shares2 p' = dgp_total_reward_shares2 p) -> preserves same_threads (modify_dgp f).
Proof. intros Hf db u db' (p & Hp%Hf & ->)%on_table_run. by split. Qed.
Lemma threads_on_table {T : Type} (proj : database -> T) `{!FieldSetter proj} f :
  (forall db t, comments (db <| proj := t |>) = comments db /\ dgp (db <| proj := t |>) = dgp db /\
     processed_hardforks (db <| proj := t |>) = processed_hardforks db) -> preserves same_threads (on_table proj f).
Proof.
  intros Hp db u db' (t & _ & ->)%on_table_run. destruct (Hp db t) as (Ec & Ed & Eh). unfold forest_of, total_of. split; unfold forest_of, total_of; congruence.
Qed.
Lemma threads_comments k f : (forall c c', f c = Ok c' -> node_of c' = node_of c) -> preserves same_threads (modify comments k f).
Proof.
  intros Hf db u db' (c & c' & Hc & Hc' & ->)%modify_run. apply Hf in Hc'. split; [|done|done]. unfold forest_of. cbn.
  rewrite fmap_insert, Hc'. apply insert_id. by rewrite lookup_fmap, Hc.
Qed.
Lemma threads_push op force : preserves same_threads (push_virtual_operation op force).
Proof. by intros db u db' (n & l & ->)%push_virtual_operation_run. Qed.
#[export] Hint Resolve threads_push : preserves.

Ltac threads_rows :=
  match goal with
  | |- preserves _ (modify comments _ _) =>
      apply threads_comments; let c := fresh "c" in let c' := fresh "c'" in let Hc := fresh "Hc" in
      intros c c' Hc; cbv zeta in Hc; repeat first [progress inv_ok | case_match]; done
  | |- preserves _ (modify_dgp _) =>
      apply threads_dgp; let p := fresh "p" in let p' := fresh "p'" in let Hp := fresh "Hp" in
      intros p p' Hp; cbv zeta in Hp; repeat match type of Hp with (if ?c then _ else _) = Ok _ => destruct c end; inv_ok;
      repeat (match goal with Hq : (if ?c then _ else _) = Ok _ |- _ => destruct c end; inv_ok); done
  | |- preserves _ (modify _ _ _) => unfold modify at 1
  | |- preserves _ (create comments _ _) => fail 1
  | |- preserves _ (remove comments _) => fail 1
  | |- preserves _ (create _ _ _) => unfold create at 1
  | |- preserves _ (remove _ _) => unfold remove at 1
  | |- preserves _ (on_table _ _) => apply threads_on_table; intros ? ?; by split_and!
  end.
Ltac threads_solve := repeat (preserve; try threads_rows).

(** ** What does not touch the forest *)

Section Untouched.
Context `{F : fc_ops} `{!crypto_ops}.

Lemma adjust_balance_threads name delta : preserves same_threads (adjust_balance name delta).
Proof. unfold adjust_balance, adjust_sbd_balance, accrue_sbd_interest, pay_interest_supply. cbv zeta. threads_solve. Qed.
Lemma adjust_savings_balance_threads name delta : preserves same_threads (adjust_savings_balance name delta).
Proof. unfold adjust_savings_balance, accrue_savings_interest, pay_interest_supply. cbv zeta. threads_solve. Qed.
Lemma adjust_supply_threads delta v : preserves same_threads (adjust_supply delta v).
Proof. unfold adjust_supply. cbv zeta. threads_solve. Qed.
Lemma adjust_witness_vote_threads owner t : preserves same_threads (adjust_witness_vote owner t).
Proof. unfold adjust_witness_vote. cbv zeta. threads_solve. Qed.
Hint Resolve adjust_balance_threads adjust_savings_balance_threads adjust_supply_threads adjust_witness_vote_threads : preserves.
Lemma adjust_proxied_threads r name delta : preserves same_threads (adjust_proxied_witness_votes_at r name delta).
Proof.
  revert name. induction r as [| r IH]; intros name; cbn [adjust_proxied_witness_votes_at]; unfold adjust_witness_votes; threads_solve.
Qed.
Lemma adjust_array_threads r name delta : preserves same_threads (adjust_proxied_witness_votes_array r name delta).
Proof.
  revert name. induction r as [| r IH]; intros name; cbn [adjust_proxied_witness_votes_array]; unfold adjust_witness_votes; threads_solve.
Qed.
Lemma check_proxy_chain_threads fuel cprox l : preserves same_threads (check_proxy_chain fuel cprox l).
Proof. revert cprox l. induction fuel as [| fuel IH]; intros cprox l; cbn [check_proxy_chain]; cbv zeta; threads_solve. Qed.
Lemma clear_witness_votes_threads name : preserves same_threads (clear_witness_votes name).
Proof. unfold clear_witness_votes. threads_solve. Qed.
Hint Resolve adjust_proxied_threads adjust_array_threads check_proxy_chain_threads clear_witness_votes_threads : preserves.
Lemma create_vesting_threads to steem : preserves same_threads (create_vesting to steem).
Proof. unfold create_vesting, adjust_proxied_witness_votes. threads_solve. Qed.
Lemma create_sbd_threads to steem : preserves same_threads (create_sbd to steem).
Proof. unfold create_sbd. cbv zeta. threads_solve. Qed.
Lemma return_escrow_threads from k : preserves same_threads (return_escrow from k).
Proof. unfold return_escrow. threads_solve. Qed.
Lemma cancel_order_threads k : preserves same_threads (cancel_order k).
Proof. unfold cancel_order, get_order. threads_solve. Qed.
Hint Resolve create_vesting_threads create_sbd_threads return_escrow_threads cancel_order_threads : preserves.
Lemma fill_order_threads k pays receives : preserves same_threads (fill_order k pays receives).
Proof. unfold fill_order, get_order. threads_solve. Qed.
Hint Resolve fill_order_threads : preserves.
Lemma match_orders_threads n o : preserves same_threads (match_orders n o).
Proof. unfold match_orders, reward_liquidity, adjust_liquidity_reward, get_order. cbv zeta. threads_solve. Qed.
Hint Resolve match_orders_threads : preserves.
Lemma match_all_threads k l : preserves same_threads (match_all k l).
Proof. induction l as [| x l IH]; cbn [match_all]; threads_solve. Qed.
Hint Resolve match_all_threads : preserves.
Lemma apply_order_threads k : preserves same_threads (apply_order k).
Proof. unfold apply_order, get_order. cbv zeta. threads_solve. Qed.
Hint Resolve apply_order_threads : preserves.
Lemma place_order_threads owner id sell p kill expires : preserves same_threads (place_order owner id sell p kill expires).
Proof. unfold place_order, throw_if_exists_limit_order. threads_solve. Qed.
Lemma create_expiration_threads d s e : preserves same_threads (create_expiration d s e).
Proof. unfold create_expiration. threads_solve. Qed.
Hint Resolve place_order_threads create_expiration_threads : preserves.
Lemma metadata_threads a j b : preserves same_threads (store_account_json_metadata a j b).
Proof. unfold store_account_json_metadata, store_metadata_for_account. threads_solve. Qed.
Lemma check_authority_accounts_threads a : preserves same_threads (check_authority_accounts a).
Proof. unfold check_authority_accounts. threads_solve. Qed.
Lemma update_owner_authority_threads name a : preserves same_threads (update_owner_authority name a).
Proof. unfold update_owner_authority, check_authority_exists. threads_solve. Qed.
Lemma apply_create_extension_threads name e : preserves same_threads (apply_create_extension name e).
Proof. destruct e. unfold apply_create_extension, apply_referral_options, median_props. threads_solve. Qed.
Lemma remove_routes_while_threads from l : preserves same_threads (remove_routes_while from l).
Proof. induction l as [| x l IH]; cbn [remove_routes_while]; cbv zeta; threads_solve. Qed.
Hint Resolve remove_routes_while_threads : preserves.
Lemma reset_vesting_withdraw_threads name : preserves same_threads (reset_vesting_withdraw name).
Proof. unfold reset_vesting_withdraw, stop_withdraw, remove_vesting_routes. threads_solve. Qed.
Hint Resolve metadata_threads check_authority_accounts_threads update_owner_authority_threads apply_create_extension_threads
  reset_vesting_withdraw_threads : preserves.

(** The evaluators of what is not about comments *)
Definition about_comments (op : operation) : bool :=
  match op with op_comment _ | op_delete_comment _ | op_comment_options _ | op_vote _ => true | _ => false end.
Ltac threads_evaluator :=
  unfold transfer_evaluator, transfer_to_vesting_evaluator, transfer_to_savings_evaluator, transfer_from_savings_evaluator,
    cancel_transfer_from_savings_evaluator, break_free_referral_evaluator, escrow_transfer_evaluator, escrow_approve_evaluator,
    mark_approval, escrow_dispute_evaluator, escrow_release_evaluator, limit_order_create_evaluator, limit_order_create2_evaluator,
    limit_order_cancel_evaluator, get_limit_order, feed_publish_evaluator, convert_evaluator, withdraw_vesting_evaluator,
    set_withdraw_vesting_route_evaluator, delegate_vesting_shares_evaluator, delegate_vesting_shares_with_interest_evaluator,
    delegate_vesting_shares, median_props, reject_vesting_shares_delegation_evaluator,
    account_witness_vote_evaluator, account_witness_proxy_evaluator, set_proxy, adjust_proxied_witness_votes,
    decline_voting_rights_evaluator, account_create_evaluator, account_create_with_delegation_evaluator, create_authority,
    account_update_evaluator, account_metadata_evaluator, challenge_authority_evaluator, pay_challenge, prove_authority_evaluator,
    request_account_recovery_evaluator, recover_account_evaluator, change_recovery_account_evaluator, reset_account_evaluator,
    set_reset_account_evaluator, report_over_production_evaluator, witness_update_evaluator, chain_properties_update_evaluator,
    update_witness, transit_to_cyberway_evaluator, median_props, get_authority; cbv zeta; threads_solve.
Lemma evaluator_threads op m : about_comments op = false -> evaluator_of op = Some m -> preserves same_threads m.
Proof. intros Hop Hm. destruct op; try discriminate Hop; try discriminate Hm; injection Hm as <-; clear; threads_evaluator. Qed.

Lemma process_withdrawal_threads from : preserves same_threads (process_withdrawal from).
Proof.
  unfold process_withdrawal, reset_vesting_withdraw, remove_vesting_routes, stop_withdraw, deposit_as_vests, deposit_as_steem,
    push_fill_vesting_withdraw, adjust_proxied_witness_votes. cbv zeta. threads_solve.
Qed.
Hint Resolve process_withdrawal_threads : preserves.
Lemma withdrawal_loop_threads fuel current : preserves same_threads (withdrawal_loop fuel current).
Proof. revert current. induction fuel as [| n IH]; intros current; cbn [withdrawal_loop]; cbv zeta; threads_solve. Qed.
Hint Resolve withdrawal_loop_threads : preserves.

Lemma block_step_threads m : m ∈ block_steps -> preserves same_threads m.
Proof.
  intros Hm. unfold block_steps in Hm. repeat (apply elem_of_cons in Hm as [-> | Hm]); [.. | by apply not_elem_of_nil in Hm].
  - unfold clear_expired_orders. threads_solve.
  - unfold clear_expired_delegations, return_delegation. cbv zeta. threads_solve.
  - unfold update_median_feed, scheduled_witnesses, push_scheduled, record_median. cbv zeta. threads_solve.
  - unfold update_virtual_supply. threads_solve.
  - unfold clear_null_account_balance, clear_null_balance, clear_null_vesting, burn. cbv zeta. threads_solve.
  - unfold process_funds, pay_inflation, pay_first_rewards, pay_witness, add_funds, get_content_reward, get_curation_reward,
      get_producer_reward. cbv zeta. threads_solve.
  - unfold process_conversions, convert_request. threads_solve.
  - unfold process_vesting_withdrawals. threads_solve.
  - unfold process_savings_withdraws, complete_savings_withdraw. threads_solve.
  - unfold pay_liquidity_reward, get_liquidity_reward. threads_solve.
  - unfold account_recovery_processing, clear_recovery_requests, clear_owner_histories, apply_recovery_changes, apply_recovery_change.
    threads_solve.
  - unfold expire_escrow_ratification, expire_escrow. threads_solve.
  - unfold process_decline_voting_rights, decline_voting_rights. threads_solve.
Qed.
End Untouched.

(** ** Walking up *)

Lemma modify_comment_forest k f g db u db' : (forall c c', f c = Ok c' -> node_of c' = g (node_of c)) ->
  modify comments k f db = Ok (u, db') ->
  forest_of db' = alter g k (forest_of db) /\ total_of db' = total_of db /\ processed_hardforks db' = processed_hardforks db /\
  exists c c', rows (comments db) !! k = Some c /\ f c = Ok c' /\ rows (comments db') !! k = Some c'.
Proof.
  intros Hf (c & c' & Hc & Hc' & ->)%modify_run. split_and!; try done.
  - unfold forest_of. cbn. rewrite fmap_insert. rewrite (Hf c c' Hc'). apply map_eq. intros j. destruct (decide (j = k)) as [-> | Hne].
    + by rewrite lookup_insert_eq, lookup_alter_eq, lookup_fmap, Hc.
    + by rewrite lookup_insert_ne, lookup_alter_ne.
  - exists c, c'. split_and!; [done | done |]. cbn. apply lookup_insert_eq.
Qed.

Section Walks.
Context `{F : fc_ops} {L : fc_laws F}.

(** One step of a walk: the comment is changed, and the walk goes on from its parent. *)
Lemma walk_step k f g db u db1 : rooted (forest_of db) -> (forall c c', f c = Ok c' -> node_of c' = g (node_of c)) ->
  (forall n, place (g n) = place n) -> modify comments k f db = Ok (u, db1) ->
  rooted (forest_of db1) /\ total_of db1 = total_of db /\ processed_hardforks db1 = processed_hardforks db /\
  exists c, rows (comments db1) !! k = Some c /\
    touch g (path (forest_of db) k) (forest_of db) =
      (if is_root_post c then forest_of db1 else touch g (path (forest_of db1) (parent_key c)) (forest_of db1)).
Proof.
  intros Hr Hf Hg H. apply (modify_comment_forest k f g) in H as (Em & Et & Eh & c0 & c & Hc0 & Hc & Hc1); [|done].
  split; [rewrite Em; by apply (rooted_same (forest_of db)), Hr; apply alter_places|]. split_and!; [done..|]. exists c. split; [done|].
  pose proof (forest_lookup _ _ _ Hc0) as Hk. rewrite <- (walk_on g k _ _ Hr Hk Hg), <- Em.
  apply Hf in Hc. assert (node_parent (node_of c) = node_parent (node_of c0)) as <- by (rewrite Hc; pose proof (Hg (node_of c0)); unfold place in *; congruence).
  cbn. destruct (is_root_post c); cbn; [apply touch_none | done].
Qed.
Lemma root_depth db k c : rooted (forest_of db) -> rows (comments db) !! k = Some c -> is_root_post c = (com_depth c =? 0).
Proof.
  intros Hr Hc. destruct (Hr k _ (forest_lookup _ _ _ Hc)) as (_ & _ & Hd). cbn in Hd. destruct (is_root_post c).
  - by rewrite Hd.
  - destruct Hd as (q & Hq & Hd). destruct (Hr _ _ Hq) as (_ & ? & _). symmetry. apply Z.eqb_neq. lia.
Qed.

Lemma adjust_rshares2_walk n k old new db u db' : rooted (forest_of db) -> adjust_rshares2_at n k old new db = Ok (u, db') ->
  forest_of db' = touch (add_shares old new) (path (forest_of db) k) (forest_of db) /\
  total_of db' = ((total_of db - old) mod 2 ^ 128 + new) mod 2 ^ 128 /\ processed_hardforks db' = processed_hardforks db.
Proof.
  revert k db. induction n as [|n IH]; intros k db Hr H; cbn [adjust_rshares2_at] in H; apply bind_run in H as ([] & db1 & Hm & H);
    (apply (walk_step k _ (add_shares old new)) in Hm as (Hr1 & Et & Eh & c & Hc & ->);
      [|done | by intros c c' [= <-]; unfold replace_rshares2, node_of, add_shares, set_field; cbn; rewrite u128_add_law, u128_sub_law | done]);
    apply bind_run in H as (c' & db2 & [Hc' ->]%get_row_run & H); rewrite Hc in Hc'; injection Hc' as <-;
    rewrite <- (root_depth db1 k c) in H by done; destruct (is_root_post c); cbn [negb] in H.
  - apply on_table_run in H as (p & [= <-] & ->). split_and!; [done | unfold total_of in *; cbn; by rewrite u128_add_law, u128_sub_law, Et | done].
  - by apply throw_run in H.
  - apply on_table_run in H as (p & [= <-] & ->). split_and!; [done | unfold total_of in *; cbn; by rewrite u128_add_law, u128_sub_law, Et | done].
  - apply bind_run in H as (p & db2 & [Hp ->]%get_row_run & H). apply IH in H as (-> & -> & ->); [|done]. by rewrite Et, Eh.
Qed.
Lemma for_ancestors_walk n d k db u db' : rooted (forest_of db) -> for_ancestors n (add_children d) k db = Ok (u, db') ->
  forest_of db' = touch (add_below d) (path (forest_of db) k) (forest_of db) /\
  total_of db' = total_of db /\ processed_hardforks db' = processed_hardforks db.
Proof.
  revert k db. induction n as [|n IH]; intros k db Hr H; cbn [for_ancestors] in H; apply bind_run in H as ([] & db1 & Hm & H);
    (apply (walk_step k _ (add_below d)) in Hm as (Hr1 & Et & Eh & c & Hc & ->); [|done | by intros c c' [= <-] | done]);
    apply bind_run in H as (c' & db2 & [Hc' ->]%get_row_run & H); rewrite Hc in Hc'; injection Hc' as <-;
    destruct (is_root_post c).
  - by apply mret_run in H as [_ ->].
  - by apply throw_run in H.
  - by apply mret_run in H as [_ ->].
  - apply bind_run in H as (p & db2 & [Hp ->]%get_row_run & H). apply IH in H as (-> & -> & ->); [|done]. by rewrite Et, Eh.
Qed.
End Walks.

(** ** Votes and payouts change the shares of a comment *)

Section Reweighing.
Context `{F : fc_ops} {L : fc_laws F}.

(** Since hardfork 0.17 the reward shares are the positive shares themselves. *)
Definition linear_shares (db : database) : Prop := (STEEMIT_HARDFORK_0_17__433 < length (processed_hardforks db))%nat.

Lemma skip_run {A B : Type} (m : M A) (f : A -> M B) db0 db b db' : preserves same_threads m -> same_threads db0 db ->
  (m ≫= f) db = Ok (b, db') -> exists a db1, m db = Ok (a, db1) /\ same_threads db0 db1 /\ f a db1 = Ok (b, db').
Proof. intros Hm Hs (a & db1 & H & H')%bind_run. exists a, db1. split_and!; [done | etrans; [done | by eapply Hm] | done]. Qed.

Lemma threads_comment db db' k c c' : same_threads db db' -> rows (comments db) !! k = Some c -> rows (comments db') !! k = Some c' ->
  node_of c' = node_of c.
Proof. intros [E _ _] H1%forest_lookup H2%forest_lookup. congruence. Qed.
Lemma calculate_vshares_linear r db v db' : linear_shares db -> calculate_vshares r db = Ok (v, db') -> v = r /\ db' = db.
Proof.
  intros Hl. unfold calculate_vshares. intros (hf & db1 & [-> ->]%gets_run & [-> ->]%mret_run)%bind_run. unfold linear_shares in Hl.
  by rewrite (proj2 (Nat.ltb_lt _ _) Hl).
Qed.
Lemma linear_same db db' : same_threads db db' -> linear_shares db -> linear_shares db'.
Proof. intros [_ _ E]. unfold linear_shares. by rewrite E. Qed.

(** The shares are replaced on the comment first, ... *)
Lemma vote_reweighs db0 k c c2 f db1 db2 db3 u u' : rooted (forest_of db0) -> forest_of db0 !! k = Some (node_of c) ->
  (forall c c', f c = Ok c' -> node_of c' = (node_of c) <| node_net := com_net_rshares c' |> /\ com_net_rshares c' < 2 ^ 63) ->
  modify comments k f db0 = Ok (u, db1) -> same_threads db1 db2 ->
  forest_of db2 !! k = Some (node_of c2) ->
  adjust_rshares2 k (gain_of (com_net_rshares c)) (gain_of (com_net_rshares c2)) db2 = Ok (u', db3) ->
  forest_step (forest_of db0) (total_of db0) (forest_of db3) (total_of db3) /\ processed_hardforks db3 = processed_hardforks db0.
Proof.
  intros Hr Hc Hf (c0 & c1 & Hc0 & Hc1 & ->)%modify_run Hs Hc2 Hadj. apply Hf in Hc1 as [Hc1 Hfit].
  match type of Hs with same_threads ?d _ => set (db1 := d) in * end.
  assert (node_of c0 = node_of c) as E0 by (apply forest_lookup in Hc0; congruence). rewrite E0 in Hc1.
  assert (forest_of db1 = set_net (com_net_rshares c1) k (forest_of db0)) as E1.
  { rewrite (set_net_insert _ k (node_of c)) by done. unfold forest_of, db1. cbn. by rewrite fmap_insert, Hc1. }
  assert (com_net_rshares c2 = com_net_rshares c1) as En.
  { assert (forest_of db1 !! k = Some (node_of c1)) as E by (apply forest_lookup; unfold db1; cbn; apply lookup_insert_eq).
    rewrite (same_forest _ _ Hs), E in Hc2. by injection Hc2. }
  unfold adjust_rshares2 in Hadj. apply bind_run in Hadj as (c3 & db4 & [_ ->]%get_row_run & Hadj).
  apply adjust_rshares2_walk in Hadj as (-> & -> & ->).
  2: { rewrite (same_forest _ _ Hs), E1. eapply rooted_same; [apply set_net_places | done]. }
  rewrite (same_forest _ _ Hs), (same_total _ _ Hs), (same_hardforks _ _ Hs), E1, En. split; [|done].
  rewrite (path_same (forest_of db0)) by apply set_net_places. by apply (shares_changed _ _ k (node_of c)).
Qed.

#[local] Hint Resolve create_vesting_threads create_sbd_threads : preserves.
Lemma touch_root_threads root abs avg : preserves same_threads (touch_root root abs avg).
Proof. unfold touch_root. threads_solve. Qed.
Lemma create_vote_threads k voter weight rshares rates : preserves same_threads (create_vote k voter weight rshares rates).
Proof. unfold create_vote, vote_auction_time. cbv zeta. threads_solve. Qed.
Lemma vote_rates_threads voter : preserves same_threads (vote_interest_rates voter).
Proof. unfold vote_interest_rates. threads_solve. Qed.
Lemma check_lockout_threads c up : preserves same_threads (check_lockout c up).
Proof. unfold check_lockout, calculate_discussion_payout_time. threads_solve. Qed.
Lemma spend_power_threads voter s : preserves same_threads (spend_power voter s).
Proof. unfold spend_power. threads_solve. Qed.
Lemma average_cashout_threads c old abs change : preserves same_threads (average_cashout_sec c old abs change).
Proof. unfold average_cashout_sec, calculate_discussion_payout_time. cbv zeta. threads_solve. Qed.
#[local] Hint Resolve touch_root_threads create_vote_threads vote_rates_threads check_lockout_threads spend_power_threads
  average_cashout_threads : preserves.

(** Follows a run over code that does not touch the forest *)
Ltac skip H :=
  match goal with Hs : same_threads ?db0 ?db |- _ =>
    match type of H with (_ ≫= _) db = _ =>
      let a := fresh "r" in let db1 := fresh "db" in let Hrun := fresh "Hrun" in let Hs' := fresh "Hs" in
      apply (skip_run _ _ db0) in H as (a & db1 & Hrun & Hs' & H); [clear Hs; rename Hs' into Hs | solve [threads_solve] | exact Hs]
    end
  end.

(** The common end of a vote: the shares of the comment change, then those above it. *)
Ltac vote_end Hf :=
  match goal with
  | Hc : forest_of ?db !! ?k = Some (node_of ?c), Hs : same_threads ?db ?dbn, H : (modify comments ?k _ ≫= _) ?dbn = Ok _,
    Hr : rooted (forest_of ?db), Hl : linear_shares ?db |- _ =>
      let dbm := fresh "dbm" in let Hm := fresh "Hm" in let Hlm := fresh "Hlm" in let dbx := fresh "dbx" in let new := fresh "new" in
      let Hc2 := fresh "Hc" in let c2 := fresh "c" in let Hg := fresh "Hget" in
      apply bind_run in H as ([] & dbm & Hm & H); rewrite <- (same_forest _ _ Hs) in Hc; rewrite <- (same_forest _ _ Hs) in Hr;
      apply (linear_same _ _ Hs) in Hl; destruct Hs as [<- <- <-];
      assert (linear_shares dbm) as Hlm by (apply modify_run in Hm as (? & ? & _ & _ & ->); done);
      assert (same_threads dbm dbm) as Hs by done; skip H; apply bind_run in H as (c2 & dbx & Hg & H); apply get_row_run in Hg as [Hc2 ->];
      apply forest_lookup in Hc2; rewrite (same_forest _ _ Hs) in Hc2;
      apply bind_run in H as (new & dbx & [-> ->]%calculate_vshares_linear & H); [|by eapply linear_same];
      apply bind_run in H as (new & dbx & [-> ->]%calculate_vshares_linear & H); [|by eapply linear_same];
      do 2 skip H; unfold positive_part in H; rewrite !(Z.max_comm _ 0) in H;
      eapply vote_reweighs; [exact Hr | exact Hc | exact Hf | exact Hm | exact Hs | | exact H];
      rewrite (same_forest _ _ Hs); exact Hc2
  end.
Lemma safe_add_fits a b n : safe_add a b = Ok n -> n < 2 ^ 63.
Proof. rewrite safe_add_law. destruct (is_int64 (a + b)) eqn:E; [|done]. intros [= <-]. apply is_int64_spec in E. lia. Qed.
Lemma count_vote_node rshares abs hf6 c c' : count_vote rshares abs hf6 c = Ok c' ->
  node_of c' = (node_of c) <| node_net := com_net_rshares c' |> /\ com_net_rshares c' < 2 ^ 63.
Proof.
  unfold count_vote. intros H. repeat first [progress inv_ok | case_match]; (split; [done|]); cbn;
    by match goal with H : safe_add (com_net_rshares _) _ = Ok _ |- _ => apply safe_add_fits in H end.
Qed.
Lemma recount_vote_node rshares abs old c c' : recount_vote rshares abs old c = Ok c' ->
  node_of c' = (node_of c) <| node_net := com_net_rshares c' |> /\ com_net_rshares c' < 2 ^ 63.
Proof.
  unfold recount_vote. intros H. inv_ok. split; [done|]. cbn.
  by match goal with H : safe_add _ rshares = Ok _ |- _ => apply safe_add_fits in H end.
Qed.

Lemma first_vote_step k voter weight s db u db' : rooted (forest_of db) -> linear_shares db ->
  first_vote k voter weight s db = Ok (u, db') ->
  forest_step (forest_of db) (total_of db) (forest_of db') (total_of db') /\ processed_hardforks db' = processed_hardforks db.
Proof.
  intros Hr Hl H. unfold first_vote in H. assert (same_threads db db) as Hs by done. do 2 skip H. cbv zeta in H. skip H.
  apply get_row_run in Hrun1 as [Hc%forest_lookup ->]. rewrite (same_forest _ _ Hs) in Hc.
  do 7 skip H. vote_end (count_vote_node (if weight <? 0 then to_int64_wrap (- vote_abs_rshares s) else vote_abs_rshares s) (vote_abs_rshares s) r8).
Qed.
Lemma change_vote_step k voter weight s itr db u db' : rooted (forest_of db) -> linear_shares db ->
  change_vote k voter weight s itr db = Ok (u, db') ->
  forest_step (forest_of db) (total_of db) (forest_of db') (total_of db') /\ processed_hardforks db' = processed_hardforks db.
Proof.
  intros Hr Hl H. unfold change_vote in H. assert (same_threads db db) as Hs by done. do 2 skip H. cbv zeta in H. skip H.
  apply get_row_run in Hrun1 as [Hc%forest_lookup ->]. rewrite (same_forest _ _ Hs) in Hc.
  do 5 skip H. vote_end (recount_vote_node (if weight <? 0 then to_int64_wrap (- vote_abs_rshares s) else vote_abs_rshares s) (vote_abs_rshares s) (cvo_rshares itr)).
Qed.

Lemma stays (m : M unit) db u db' : preserves same_threads m -> m db = Ok (u, db') ->
  forest_step (forest_of db) (total_of db) (forest_of db') (total_of db') /\ processed_hardforks db' = processed_hardforks db.
Proof. intros Hm [E1 E2 E3]%Hm. rewrite E1, E2. split; [apply forest_stays | done]. Qed.
Lemma step_from db db1 db2 : same_threads db db1 ->
  forest_step (forest_of db1) (total_of db1) (forest_of db2) (total_of db2) /\ processed_hardforks db2 = processed_hardforks db1 ->
  forest_step (forest_of db) (total_of db) (forest_of db2) (total_of db2) /\ processed_hardforks db2 = processed_hardforks db.
Proof. by intros [<- <- <-]. Qed.

Lemma vote_evaluator_step o db u db' : rooted (forest_of db) -> linear_shares db -> vote_evaluator o db = Ok (u, db') ->
  forest_step (forest_of db) (total_of db) (forest_of db') (total_of db') /\ processed_hardforks db' = processed_hardforks db.
Proof.
  intros Hr Hl H. unfold vote_evaluator, check_not_challenged, calculate_discussion_payout_time in H. cbv zeta in H.
  assert (same_threads db db) as Hs by done. do 6 skip H. destruct (_ =? _).
  - apply (step_from _ _ _ Hs). revert H. apply stays. unfold late_vote. cbv zeta. threads_solve.
  - unfold use_voting_capacity, weigh_vote, median_props in H. cbv zeta in H. do 3 skip H. apply (step_from _ _ _ Hs).
    rewrite <- (same_forest _ _ Hs) in Hr. apply (linear_same _ _ Hs) in Hl. clear -L Hr Hl H.
    match type of H with match ?found with _ => _ end _ = _ => destruct found end; [by eapply change_vote_step | by eapply first_vote_step].
Qed.

(** A payout takes the shares of the comment away above it, and then from the comment. *)
Lemma divide_reward_threads comment reward : preserves same_threads (divide_reward comment reward).
Proof.
  assert (forall cvo claim author permlink, preserves same_threads (pay_curator cvo claim author permlink)) as Hc.
  { intros. unfold pay_curator, pay_delegators, pay_delegator. cbv zeta. threads_solve. }
  assert (forall c info max r l s, preserves same_threads (pay_votes c info max r l s)) as Hv.
  { intros c info max r l. induction l as [|v l IH]; intros s; cbn [pay_votes]; threads_solve. }
  unfold divide_reward, pay_curators, share_among_votes, return_to_fund, curation_info, detect_curation_curve, pay_beneficiary, pay_author, to_sbd.
  cbv zeta. threads_solve.
Qed.
#[local] Hint Resolve divide_reward_threads : preserves.
Lemma claim_reward_threads rshares weight max : preserves same_threads (claim_rshare_reward rshares weight max).
Proof. unfold claim_rshare_reward, calculate_vshares, to_sbd. cbv zeta. threads_solve. Qed.
#[local] Hint Resolve claim_reward_threads : preserves.

(** Shares that are archived, whatever else a payout does *)
Definition closed (c c' : comment_object) : Prop := node_of c' = (node_of c) <| node_net := Z.min 0 (com_net_rshares c) |>.
Lemma close_payout_closed hf17 now curve root c : closed c (close_payout hf17 now curve root c).
Proof.
  unfold closed, close_payout. destruct (Z.gtb_spec (com_net_rshares c) 0) as [H | H].
  - rewrite Z.min_l by lia. by repeat case_match.
  - rewrite Z.min_r by lia. repeat case_match; by destruct c.
Qed.

Lemma pay_comment_run k comment db curve db' : rooted (forest_of db) -> linear_shares db ->
  pay_comment k comment db = Ok (curve, db') ->
  let old := gain_of (com_net_rshares comment) in
  (forest_of db' = touch (add_shares old 0) (path (forest_of db) k) (forest_of db) /\
   total_of db' = ((total_of db - old) mod 2 ^ 128 + 0) mod 2 ^ 128 \/
   com_net_rshares comment <= 0 /\ forest_of db' = forest_of db /\ total_of db' = total_of db) /\
  processed_hardforks db' = processed_hardforks db.
Proof.
  intros Hr Hl H. unfold pay_comment in H. destruct (Z.gtb_spec (com_net_rshares comment) 0) as [Hn | Hn]; cbv zeta.
  2: { apply mret_run in H as [_ ->]. split; [by right | done]. }
  assert (same_threads db db) as Hs by done. unfold to_steem in H. do 3 skip H.
  apply bind_run in H as (old & dbx & [-> ->]%calculate_vshares_linear & H); [|by eapply linear_same].
  apply bind_run in H as ([] & dbx & H & [_ ->]%mret_run). unfold adjust_rshares2 in H.
  apply bind_run in H as (c3 & db4 & [_ ->]%get_row_run & H). apply adjust_rshares2_walk in H as (-> & -> & ->); [|by rewrite (same_forest _ _ Hs)].
  rewrite (same_forest _ _ Hs), (same_total _ _ Hs), (same_hardforks _ _ Hs). split; [left | done].
  rewrite u128_of_int64_law. assert (gain_of (com_net_rshares comment) = com_net_rshares comment) as -> by (unfold gain_of; lia).
  split; [|by rewrite Zminus_mod_idemp_r]. apply map_eq. intros j. rewrite !lookup_touch. destruct (forest_of db !! j) as [n|]; [|done]. cbn.
  case_decide; [|done]. unfold add_shares, set_field. cbn. by rewrite Zminus_mod_idemp_r.
Qed.

Lemma set_net_touch net k f ks m : (forall n v, f (n <| node_net := v |>) = (f n) <| node_net := v |>) ->
  set_net net k (touch f ks m) = touch f ks (set_net net k m).
Proof.
  intros Hf. apply map_eq. intros j. rewrite lookup_touch. unfold set_net. destruct (decide (j = k)) as [-> | Hne].
  - rewrite !lookup_alter_eq, lookup_touch. destruct (m !! k); [|done]. cbn. case_decide; [by rewrite Hf | done].
  - by rewrite !lookup_alter_ne, lookup_touch.
Qed.
Lemma set_net_same k n m : m !! k = Some n -> set_net (node_net n) k m = m.
Proof. intros Hk. rewrite (set_net_insert _ k n) by done. apply insert_id. rewrite Hk. by destruct n. Qed.

Lemma cashout_comment_step k db u db' : rooted (forest_of db) -> linear_shares db ->
  cashout_comment_helper k db = Ok (u, db') ->
  forest_step (forest_of db) (total_of db) (forest_of db') (total_of db') /\ processed_hardforks db' = processed_hardforks db.
Proof.
  intros Hr Hl H. unfold cashout_comment_helper in H. apply bind_run in H as (c & db1 & [Hc%forest_lookup ->]%get_row_run & H).
  apply bind_run in H as (curve & db1 & [Hp Eh]%pay_comment_run & H); [|done..]. cbv zeta in Hp.
  assert (same_threads db1 db1) as Hs by done. do 3 skip H. apply bind_run in H as ([] & dbm & Hm & H).
  destruct Hs as [E1 E2 E3].
  apply (modify_comment_forest k _ (fun n => n <| node_net := Z.min 0 (node_net n) |>)) in Hm as (Em & Et & Emh & _);
    [|intros c0 c' [= <-]; apply close_payout_closed].
  assert (same_threads dbm dbm) as Hs by done. do 2 skip H.
  assert (preserves same_threads (when (match com_mode r3 with archived => true | _ => false end) (archive_votes (com_id r3)))) as Ha
    by (unfold archive_votes; threads_solve).
  apply Ha in H. rewrite <- Hs in H. destruct H as [-> -> ->]. rewrite Em, Et, Emh, E1, E2, E3. clear -Hr Hc Hp Eh. split; [|done].
  assert (forall m v, m !! k = Some v -> alter (fun n => n <| node_net := Z.min 0 (node_net n) |>) k m = set_net (Z.min 0 (node_net v)) k m) as Ea.
  { intros m v Hv. apply map_eq. intros j. unfold set_net. destruct (decide (j = k)) as [-> | Hne]; [by rewrite !lookup_alter_eq, Hv | by rewrite !lookup_alter_ne]. }
  destruct Hp as [[-> ->] | (Hn & -> & ->)].
  - rewrite (Ea _ (add_shares (gain_of (com_net_rshares c)) 0 (node_of c))).
    2: { rewrite lookup_touch, Hc. cbn. by rewrite decide_True by apply path_self. }
    rewrite set_net_touch by done. rewrite <- (path_same (forest_of db) (set_net (Z.min 0 (com_net_rshares c)) k (forest_of db))) by apply set_net_places.
    pose proof (shares_changed (forest_of db) (total_of db) k (node_of c) (Z.min 0 (com_net_rshares c)) Hc ltac:(lia)) as Hstep.
    unfold reweigh, reweigh_total in Hstep. replace (gain_of (Z.min 0 (com_net_rshares c))) with 0 in Hstep by (unfold gain_of; lia).
    rewrite (path_same (forest_of db)) by apply set_net_places. exact Hstep.
  - rewrite (Ea _ _ Hc). cbn. rewrite Z.min_r by done. rewrite (set_net_same k (node_of c)) by done. apply forest_stays.
Qed.

(** ** New comments, and the deletion of comments *)

Lemma calc_reward_weight_threads root author : preserves same_threads (calc_reward_weight root author).
Proof. unfold calc_reward_weight, calculate_reward_weight, comment_bandwidth_hf19, median_props. cbv zeta. threads_solve. Qed.
#[local] Hint Resolve calc_reward_weight_threads : preserves.

(** The parent of a new comment is in the forest, and not too deep. *)
Lemma parent_of_new_run o db parent db' : rooted (forest_of db) -> parent_of_new o db = Ok (parent, db') ->
  db' = db /\ match parent with
    | None => True
    | Some p => com_author p <> "" /\ rows (comments db) !! key_of p = Some p /\ com_depth p < 65520
    end.
Proof.
  intros Hr H. unfold parent_of_new in H. destruct (String.eqb_spec (comment_parent_author o) STEEMIT_ROOT_POST_PARENT) as [E | E].
  { by apply mret_run in H as [-> ->]. }
  apply bind_run in H as (p & db1 & [Hp ->]%get_row_run & H). apply bind_run in H as (d & db1 & Hd & H).
  assert (db1 = db /\ d <= 65520) as [-> Hd'].
  { unfold max_comment_depth in Hd. apply bind_run in Hd as (b & db2 & [-> ->]%gets_run & Hd).
    apply bind_run in Hd as (b' & db2 & [-> ->]%gets_run & [-> ->]%mret_run). split; [done|]. repeat case_match; done. }
  unfold check_logic_m in H. inv_run. split; [done|]. apply check_logic_Ok, Z.ltb_lt in E0.
  destruct (Hr _ _ (forest_lookup _ _ _ Hp)) as (Ek & _). cbn in Ek. rewrite Ek. split_and!; [|done | lia].
  intros Ea. apply E. unfold key_of, comment_key in Ek. injection Ek as Ek _. by rewrite <- Ek, Ea.
Qed.

Lemma comment_place_node hf12 hf17 now o parent com : com_depth com = 0 ->
  match parent with None => True | Some p => com_author p <> "" /\ 0 <= com_depth p < 65520 end ->
  node_of (comment_place hf12 hf17 now o parent com) =
    (node_of com) <| node_parent := key_of <$> parent |> <| node_depth := match parent with None => 0 | Some p => com_depth p + 1 end |>.
Proof.
  intros Hd Hp. set (c := comment_place hf12 hf17 now o parent com).
  assert (com_author c = com_author com /\ com_permlink c = com_permlink com /\ com_children c = com_children com /\
    com_children_rshares2 c = com_children_rshares2 com /\ com_net_rshares c = com_net_rshares com) as (E1 & E2 & E3 & E4 & E5)
    by (unfold c, comment_place; destruct parent, hf17; done).
  assert (com_parent_author c = match parent with None => "" | Some p => com_author p end /\
    com_depth c = match parent with None => com_depth com | Some p => to_uint16_wrap (com_depth p + 1) end) as (E6 & E7)
    by (unfold c, comment_place; destruct parent, hf17; done).
  unfold node_of, key_of, is_root_post. rewrite E1, E2, E3, E4, E5, E6, E7. clear E1 E2 E3 E4 E5 E7. destruct parent as [p|]; cbn; [|by rewrite Hd].
  destruct Hp as [Ha Hp]. destruct (String.eqb_spec (com_author p) STEEMIT_ROOT_POST_PARENT) as [E | _]; [done|].
  assert (parent_key c = comment_key (com_author p) (com_permlink p)) as -> by (unfold c, comment_place; destruct hf17; done).
  unfold to_uint16_wrap, set_field. rewrite Z.mod_small by lia. done.
Qed.

(** What a new comment adds to the forest *)
Lemma new_leaf (m : forest) k com hf12 hf17 now o parent :
  rooted m -> m !! k = None -> key_of com = k ->
  com_depth com = 0 -> com_children com = 0 -> com_children_rshares2 com = 0 -> com_net_rshares com = 0 ->
  (forall p, parent = Some p -> com_author p <> "" /\ 0 <= com_depth p < 65520 /\ exists q, m !! key_of p = Some q /\ node_depth q = com_depth p) ->
  let n := node_of (comment_place hf12 hf17 now o parent com) in
  node_key n = k /\ node_parent n = key_of <$> parent /\ node_children n = 0 /\ node_shares n = 0 /\ node_net n = 0 /\ rooted (<[k := n]> m).
Proof.
  intros Hr Hk Ek Ed Ec Es En Hpar. cbv zeta. rewrite comment_place_node; [|done|].
  2: { destruct parent as [p|]; [|done]. destruct (Hpar p eq_refl) as (Ha & Hd & _). done. }
  cbn. split_and!; try done. apply rooted_insert; [done..|]. cbn. destruct parent as [p|]; [|done]. cbn.
  destruct (Hpar p eq_refl) as (_ & _ & q & Hq & Hdq). exists q. split; [done | by rewrite Hdq].
Qed.
Lemma create_comment_step o parent db u db' : rooted (forest_of db) ->
  match parent with None => True | Some p => com_author p <> "" /\ rows (comments db) !! key_of p = Some p /\ com_depth p < 65520 end ->
  create_comment o parent db = Ok (u, db') ->
  forest_step (forest_of db) (total_of db) (forest_of db') (total_of db') /\ processed_hardforks db' = processed_hardforks db.
Proof.
  intros Hr Hp H. unfold create_comment, median_props in H. cbv zeta in H. assert (same_threads db db) as Hs by done.
  do 11 skip H. clear Hrun Hrun0 Hrun1 Hrun2 Hrun3 Hrun4 Hrun5 Hrun6 Hrun7 Hrun8 Hrun9.
  apply bind_run in H as ([] & dbc & [Hk Edb]%create_run & H). apply (step_from _ _ _ Hs). rewrite <- (same_forest _ _ Hs) in Hr.
  assert (forall p, parent = Some p -> com_author p <> "" /\ 0 <= com_depth p < 65520 /\ exists q, forest_of db10 !! key_of p = Some q /\ node_depth q = com_depth p) as Hpar.
  { intros p ->. destruct Hp as (Ha & Hq%forest_lookup & Hd). rewrite <- (same_forest _ _ Hs) in Hq.
    pose proof (Hr _ _ Hq) as (_ & H0 & _). split_and!; [done..|]. eauto. }
  clear Hp Hs. assert (forest_of db10 !! comment_key (comment_author o) (comment_permlink o) = None) as Hk' by (unfold forest_of; by rewrite lookup_fmap, Hk).
  match type of Edb with context [<[_ := comment_place ?a ?b ?c o parent ?com]> _] =>
    destruct (new_leaf (forest_of db10) _ com a b c o parent Hr Hk') as (E1 & E2 & E3 & E4 & E5 & Hr'); [by destruct r6..|exact Hpar|];
    set (n := node_of (comment_place a b c o parent com)) in * end.
  assert (forest_of dbc = <[node_key n := n]> (forest_of db10) /\ total_of dbc = total_of db10 /\ processed_hardforks dbc = processed_hardforks db10) as (Ef & Et & Eh).
  { rewrite E1, Edb. split_and!; [|done..]. unfold forest_of. cbn. by rewrite fmap_insert. }
  clear Edb. rewrite <- E1 in Hr', Hk'. assert (same_threads dbc dbc) as Hs by done. skip H.
  enough (forest_of db' = graft n (forest_of db10) /\ total_of db' = total_of db10 /\ processed_hardforks db' = processed_hardforks db10) as (-> & -> & ->).
  { split; [by apply leaf_added | done]. }
  unfold graft. rewrite E2, <- Ef, <- Et, <- Eh, <- (same_forest _ _ Hs), <- (same_total _ _ Hs), <- (same_hardforks _ _ Hs). destruct parent as [p|].
  - unfold count_at_ancestors in H. apply bind_run in H as (c & dbx & [_ ->]%get_row_run & H). apply for_ancestors_walk in H; [exact H|].
    by rewrite (same_forest _ _ Hs), Ef.
  - apply mret_run in H as [_ ->]. split_and!; [|done..]. symmetry. apply touch_none.
Qed.

Lemma comment_evaluator_step o db u db' : rooted (forest_of db) -> comment_evaluator o db = Ok (u, db') ->
  forest_step (forest_of db) (total_of db) (forest_of db') (total_of db') /\ processed_hardforks db' = processed_hardforks db.
Proof.
  intros Hr H. unfold comment_evaluator, check_not_challenged in H. assert (same_threads db db) as Hs by done.
  do 7 skip H. rewrite <- (same_forest _ _ Hs) in Hr. apply (step_from _ _ _ Hs). clear Hs.
  apply bind_run in H as (parent & dbx & [-> Hp]%parent_of_new_run & H); [|done]. destruct r2.
  - revert H. apply stays. threads_solve.
  - by eapply create_comment_step.
Qed.

Lemma delete_comment_step o db u db' : rooted (forest_of db) -> linear_shares db -> delete_comment_evaluator o db = Ok (u, db') ->
  forest_step (forest_of db) (total_of db) (forest_of db') (total_of db') /\ processed_hardforks db' = processed_hardforks db.
Proof.
  intros Hr Hl H. unfold delete_comment_evaluator, check_not_challenged in H. cbv zeta in H. assert (same_threads db db) as Hs by done.
  do 3 skip H. apply get_row_run in Hrun1 as [Hc%forest_lookup ->]. rewrite (same_forest _ _ Hs) in Hc.
  set (k := comment_key _ _) in *. skip H. apply lift_run in Hrun1 as [Hch%check_logic_Ok _]. apply Z.eqb_eq in Hch.
  do 2 skip H. destruct (Z.gtb_spec (com_net_rshares r1) 0) as [Hn | Hn].
  { apply mret_run in H as [_ ->]. apply (step_from _ _ _ Hs). split; [apply forest_stays | done]. }
  do 2 skip H. apply bind_run in H as (hf6 & dbx & [-> ->]%gets_run & H).
  apply bind_run in H as ([] & dbu & Hup & (c & Hck & ->)%remove_run).
  rewrite <- (same_forest _ _ Hs) in Hr, Hc. match type of Hs with same_threads _ ?d => set (dbs := d) in * end. pose proof (linear_same _ _ Hs Hl) as Hl'. apply (step_from _ _ _ Hs). clear Hs.
  replace (_ <? _)%nat with true in Hup.
  2: { symmetry. apply Nat.ltb_lt. unfold linear_shares in Hl'. etrans; [|exact Hl']. apply Nat.ltb_lt. reflexivity. }
  assert (forest_of dbu = add_above (-1) (node_parent (node_of r1)) (forest_of dbs) /\ total_of dbu = total_of dbs /\
    processed_hardforks dbu = processed_hardforks dbs) as (Ef & Et & Eh).
  { cbn [andb node_of node_parent] in *. destruct (is_root_post r1); cbn [negb when] in Hup.
    - apply mret_run in Hup as [_ ->]. split_and!; [|done..]. symmetry. apply touch_none.
    - unfold count_at_ancestors in Hup. apply bind_run in Hup as (p & dbx & [_ ->]%get_row_run & H). by apply for_ancestors_walk in H. }
  pose proof (leaf_removed (forest_of dbs) (total_of dbs) (node_of r1)) as Hstep. unfold prune in Hstep.
  assert (node_key (node_of r1) = k) as Ek by (by destruct (Hr k _ Hc)). rewrite Ek, <- Ef in Hstep.
  unfold total_of at 2, forest_of at 2. cbn. rewrite fmap_delete. unfold total_of in Et. rewrite Et. 
  split; [|done]. by apply Hstep.
Qed.

Lemma comment_options_threads o : preserves same_threads (comment_options_evaluator o).
Proof.
  unfold comment_options_evaluator, apply_options_extension, set_beneficiaries, set_auction_destination, set_curation_percent,
    check_not_challenged, median_props. cbv zeta. threads_solve.
Qed.

Lemma bookkept_threads moves db db' : bookkept moves db db' -> same_threads db db'.
Proof.
  intros Hk. split; [unfold forest_of; by rewrite (kept_comments _ _ _ Hk) | | apply (kept_hardforks _ _ _ Hk)].
  exact (f_equal dgp_total_reward_shares2 (kept_properties _ _ _ Hk)).
Qed.

(** Every step of the ledger is a step of the forest. *)
Lemma ledger_step_forest `{!crypto_ops} given db db' : rooted (forest_of db) -> linear_shares db -> ledger_step given db db' ->
  forest_step (forest_of db) (total_of db) (forest_of db') (total_of db') /\ linear_shares db'.
Proof.
  intros Hr Hl Hstep.
  enough (forest_step (forest_of db) (total_of db) (forest_of db') (total_of db') /\
    (length (processed_hardforks db) <= length (processed_hardforks db'))%nat) as [Hfs Hle] by (split; [done | unfold linear_shares in *; lia]).
  assert (forall P : Prop, P /\ processed_hardforks db' = processed_hardforks db ->
    P /\ (length (processed_hardforks db) <= length (processed_hardforks db'))%nat) as same by (intros P [HP ->]; by split).
  destruct Hstep as [op m db1 _ Hm _ Hrun | m db1 Hm _ Hrun | k db1 _ Hrun | key db1 Hlate Hrun | m db1 Hm Hrun | size b skip db1 _ Hrun];
    [apply same..| | apply same | apply same].
  4: { apply process_hardforks_late in Hrun as [(h & n & l & ->) Hmore]; [|done]. split; [apply forest_stays | done]. }
  - destruct (about_comments op) eqn:Eop; [|revert Hrun; by eapply stays, evaluator_threads].
    destruct op; try discriminate Eop; injection Hm as <-; [by eapply vote_evaluator_step | by eapply comment_evaluator_step | by eapply delete_comment_step |].
    revert Hrun. apply stays, comment_options_threads.
  - revert Hrun. by apply stays, block_step_threads.
  - by eapply cashout_comment_step.
  - revert Hrun. apply stays. intros d u d' Hrun%bookkeeping_bookkept; [|done]. by eapply bookkept_threads.
  - revert Hrun. apply stays. intros d u d' Hrun%head_update_bookkept. by eapply bookkept_threads.
Qed.
End Reweighing.

(** ** What [validate_invariants] counts *)

Section Counted.
Context `{F : fc_ops} {L : fc_laws F} `{!crypto_ops}.

Lemma msum_nodes (f : node -> Z) db : msum f (forest_of db) = msum (fun c => f (node_of c)) (rows (comments db)).
Proof.
  unfold forest_of. induction (rows (comments db)) as [| k c m Hk IH] using map_ind; [by rewrite fmap_empty, !msum_empty|].
  rewrite fmap_insert, !msum_insert_fresh, IH; [done | done | by rewrite lookup_fmap, Hk].
Qed.
Lemma add_comments_sum l a b : 0 <= a < 2 ^ 128 -> 0 <= b < 2 ^ 128 ->
  fold_left (add_comment true) l (a, b) =
    ((a + foldr (fun c s => gain (node_of c) + s) 0 l) mod 2 ^ 128, (b + foldr (fun c s => root_shares (node_of c) + s) 0 l) mod 2 ^ 128).
Proof.
  revert a b. induction l as [|c l IH]; intros a b Ha Hb; cbn [fold_left foldr]; [by rewrite !Z.add_0_r, !Z.mod_small|].
  assert (add_comment true (a, b) c = ((a + gain (node_of c)) mod 2 ^ 128, (b + root_shares (node_of c)) mod 2 ^ 128)) as ->.
  { unfold add_comment, gain, root_shares. cbn. destruct (Z.gtb_spec (com_net_rshares c) 0).
    - rewrite u128_add_law, u128_of_int64_law, Zplus_mod_idemp_r, Z.max_r by lia. f_equal. destruct (is_root_post c); [apply u128_add_law | by rewrite Z.add_0_r, Z.mod_small].
    - rewrite Z.max_l, Z.add_0_r, (Z.mod_small a) by lia. f_equal. destruct (is_root_post c); [apply u128_add_law | by rewrite Z.add_0_r, Z.mod_small]. }
  rewrite IH by (apply Z.mod_pos_bound; lia). by rewrite !Zplus_mod_idemp_l, !Z.add_assoc.
Qed.
Lemma count_rshares2_total db : linear_shares db -> well_counted (forest_of db) (total_of db) -> count_rshares2 db = (total_of db, total_of db).
Proof.
  intros Hl Hc. unfold count_rshares2. rewrite (proj2 (Nat.ltb_lt _ _) Hl). rewrite add_comments_sum by lia. rewrite !objects_by_sum, !Z.add_0_l.
  rewrite <- (msum_nodes gain), <- (msum_nodes root_shares). by rewrite <- (counted_total _ _ Hc), (roots_total _ _ Hc).
Qed.

(** A chain has fewer than 2^32 comments, so that they can be counted. *)
Definition few_comments (db : database) : Prop := Z.of_nat (size (rows (comments db))) < 2 ^ 32.
Definition counted_step (db db' : database) : Prop := ledger_step no_conditions db db' /\ few_comments db'.

Lemma counted_steps db db' : linear_shares db -> few_comments db -> well_counted (forest_of db) (total_of db) -> rtc counted_step db db' ->
  linear_shares db' /\ few_comments db' /\ well_counted (forest_of db') (total_of db').
Proof.
  intros Hl Hf Hc Hs. revert Hl Hf Hc. induction Hs as [db | db1 db2 db3 [Hstep Hf2] _ IH]; intros Hl Hf Hc; [done|].
  destruct (ledger_step_forest _ _ _ (counted_rooted _ _ Hc) Hl Hstep) as [Hfs Hl2]. apply IH; [done | done |].
  eapply forest_step_counted; [.. | exact Hfs | exact Hc]; unfold few_comments, forest_of in *; by rewrite map_size_fmap.
Qed.

(** C4: Discussions are counted exactly.  Since hardfork 0.17, which made the reward shares
    linear, under every sequence of validated operations with a modelled evaluator, steps
    of blocks, payouts, later hardforks, bookkeeping and moves of the head block, as long
    as there are fewer than 2^32 comments, the counter of replies of every comment is the
    number of comments below it, its children_rshares2 is the sum of the positive shares
    of itself and of all comments below it, and the two assertions of validate_invariants
    about comments hold: the total of reward shares is the sum over all comments and the
    sum over the roots of the discussions. *)
Theorem discussions_counted db db' :
  linear_shares db -> few_comments db -> well_counted (forest_of db) (total_of db) -> rtc counted_step db db' ->
  well_counted (forest_of db') (total_of db') /\ count_rshares2 db' = (dgp_total_reward_shares2 (dgp db'), dgp_total_reward_shares2 (dgp db')).
Proof. intros Hl Hf Hc Hs. destruct (counted_steps db db' Hl Hf Hc Hs) as (Hl' & _ & Hc'). split; [done | by apply count_rshares2_total]. Qed.
End Counted.

(** ** A discussion

    bob writes a post, alice replies, carol votes for the reply. *)

Definition sample_talk_database : database :=
  sample_database
    <| accounts ::= (fun t => mk_table (<["carol" := sample_account 3 "carol" 0 0 10000000000000 0]> (rows t)) (next_id t)) |>
    <| dgp ::= (fun p => p <| dgp_total_vesting_shares := mk_asset 10000000000000 VESTS_SYMBOL |> <| dgp_vote_regeneration_per_day := 40 |>) |>.
Definition sample_comment : comment_operation := mk_comment "" "golos" "bob" "post" "title" "body" "".
Definition sample_reply : comment_operation := mk_comment "bob" "post" "alice" "re-post" "" "a reply" "".
Definition sample_upvote : vote_operation := mk_vote "carol" "alice" "re-post" 10000.
Definition sample_posted : database := run_state (comment_evaluator (F := fc_ref) sample_comment) sample_talk_database.
Definition sample_replied : database := run_state (comment_evaluator (F := fc_ref) sample_reply) sample_posted.
Definition sample_voted : database := run_state (vote_evaluator (F := fc_ref) sample_upvote) sample_replied.

Lemma sample_talk_counted : well_counted (forest_of sample_talk_database) (total_of sample_talk_database).
Proof.
  assert (forest_of sample_talk_database = ∅) as -> by (vm_compute; reflexivity).
  split; [apply map_Forall_empty.. | vm_compute; reflexivity | apply map_Forall_empty].
Qed.
Lemma sample_talk_steps : rtc (counted_step (F := fc_ref) (H := crypto_ref)) sample_talk_database sample_voted.
Proof.
  assert (forall db op m, operation_validate (F := fc_ref) op = Ok tt -> evaluator_of (F := fc_ref) op = Some m ->
    m db = Ok (tt, run_state m db) -> few_comments (run_state m db) -> counted_step (F := fc_ref) (H := crypto_ref) db (run_state m db)) as Hs.
  { intros db op m H1 H2 H3 H4. split; [|done]. by eapply (operation_step no_conditions). }
  apply (rtc_l _ _ sample_posted); [apply (Hs _ (op_comment sample_comment)); [vm_compute; reflexivity | reflexivity | run_now | vm_compute; reflexivity]|].
  apply (rtc_l _ _ sample_replied); [apply (Hs _ (op_comment sample_reply)); [vm_compute; reflexivity | reflexivity | run_now | vm_compute; reflexivity]|].
  apply rtc_once, (Hs _ (op_vote sample_upvote)); [vm_compute; reflexivity | reflexivity | run_now | vm_compute; reflexivity].
Qed.

Lemma discussions_counted_witness :
  well_counted (forest_of sample_voted) (total_of sample_voted) /\
  count_rshares2 (F := fc_ref) sample_voted = (50000000000, 50000000000) /\
  com_children <$> rows (comments sample_voted) !! ("bob", "post") = Some 1.
Proof.
  destruct (discussions_counted (F := fc_ref) (H := crypto_ref) sample_talk_database sample_voted) as [Hc Hs];
    [apply Nat.ltb_lt; vm_compute; reflexivity | vm_compute; reflexivity | apply sample_talk_counted | apply sample_talk_steps |].
  split; [exact Hc|]. split; [rewrite Hs; vm_compute; reflexivity | vm_compute; reflexivity].
Defined.
