(* ===== verification/Rewards.v ===== *)
(** * The rewards of a block

    What the loop over the due comments promises: with discussions counted exactly
    (Threads) the reward fund covers every payout, no value is made or lost, the curators
    get no more than their part, and no comment that is due is left behind. *)

From S2P Require Import Prelude Exceptions Text Fc Config Asset FlatMap Authority Operations Crypto Validate Objects Database Conservation Sample Preserve Accounts Curation Comments Cashout Payout Discussions Hardforks Forest Ledger Threads.

(** ** The reward fund *)

Definition reward_fund (db : database) : asset := dgp_total_reward_fund_steem (dgp db).
Definition keeps_fund (db db' : database) : Prop := reward_fund db' = reward_fund db.
#[export] Instance keeps_fund_preorder : PreOrder keeps_fund.
Proof. split; [done|]. unfold keeps_fund. intros x y z. congruence. Qed.

Lemma fund_dgp f : (forall p p', f p = Ok p' -> dgp_total_reward_fund_steem p' = dgp_total_reward_fund_steem p) -> preserves keeps_fund (modify_dgp f).
Proof. intros Hf db u db' (p & Hp%Hf & ->)%on_table_run. done. Qed.
Lemma fund_on_table {T : Type} (proj : database -> T) `{!FieldSetter proj} f :
  (forall db t, dgp (db <| proj := t |>) = dgp db) -> preserves keeps_fund (on_table proj f).
Proof. intros Hp db u db' (t & _ & ->)%on_table_run. unfold keeps_fund, reward_fund. by rewrite Hp. Qed.
Lemma fund_push op force : preserves keeps_fund (push_virtual_operation op force).
Proof. by intros db u db' (n & l & ->)%push_virtual_operation_run. Qed.
#[local] Hint Resolve fund_push : preserves.
Ltac fund_rows :=
  match goal with
  | |- preserves _ (modify_dgp _) => apply fund_dgp; let p := fresh "p" in let p' := fresh "p'" in let Hp := fresh "Hp" in
      intros p p' Hp; cbv zeta in Hp; repeat match type of Hp with (if ?c then _ else _) = Ok _ => destruct c end; inv_ok; done
  | |- preserves _ (modify _ _ _) => unfold modify at 1
  | |- preserves _ (create _ _ _) => unfold create at 1
  | |- preserves _ (remove _ _) => unfold remove at 1
  | |- preserves _ (on_table _ _) => apply fund_on_table; intros ? ?; done
  end.
Ltac fund_solve := repeat (preserve; try fund_rows).

Section Fund.
Context `{F : fc_ops} {L : fc_laws F}.

Lemma adjust_balance_fund name delta : preserves keeps_fund (adjust_balance name delta).
Proof. unfold adjust_balance, adjust_sbd_balance, accrue_sbd_interest, pay_interest_supply. cbv zeta. fund_solve. Qed.
Lemma adjust_supply_fund delta v : preserves keeps_fund (adjust_supply delta v).
Proof. unfold adjust_supply. cbv zeta. fund_solve. Qed.
Lemma adjust_proxied_fund r name delta : preserves keeps_fund (adjust_proxied_witness_votes_at r name delta).
Proof.
  revert name. induction r as [|r IH]; intros name; cbn [adjust_proxied_witness_votes_at];
    unfold adjust_witness_votes, adjust_witness_vote; cbv zeta; fund_solve.
Qed.
Hint Resolve adjust_balance_fund adjust_supply_fund adjust_proxied_fund : preserves.
Lemma create_vesting_fund name steem : preserves keeps_fund (create_vesting name steem).
Proof. unfold create_vesting, adjust_proxied_witness_votes. cbv zeta. fund_solve. Qed.
Lemma create_sbd_fund name steem : preserves keeps_fund (create_sbd name steem).
Proof. unfold create_sbd. cbv zeta. fund_solve. Qed.
Hint Resolve create_vesting_fund create_sbd_fund : preserves.
Lemma pay_curator_fund cvo claim author permlink : preserves keeps_fund (pay_curator cvo claim author permlink).
Proof. unfold pay_curator, pay_delegators, pay_delegator. cbv zeta. fund_solve. Qed.
Hint Resolve pay_curator_fund : preserves.
Lemma pay_votes_fund comment c max r l s : preserves keeps_fund (pay_votes comment c max r l s).
Proof. revert s. induction l as [|v l IH]; intros s; cbn [pay_votes]; fund_solve. Qed.
Hint Resolve pay_votes_fund : preserves.
Lemma share_among_votes_fund comment c max actual : preserves keeps_fund (share_among_votes comment c max actual).
Proof. unfold share_among_votes. cbv zeta. fund_solve. Qed.
Lemma adjust_rshares2_fund k old new : preserves keeps_fund (adjust_rshares2 k old new).
Proof.
  unfold adjust_rshares2. apply preserves_bind; [apply _ | auto with preserves|]. intros c.
  generalize (Z.to_nat (com_depth c)) as n. intros n. revert k. induction n as [|n IH]; intros k; cbn [adjust_rshares2_at]; fund_solve.
Qed.
Hint Resolve adjust_rshares2_fund : preserves.

(** The fund only gets back what was not claimed. *)
Definition fund_grows (db db' : database) : Prop :=
  symbol (reward_fund db') = symbol (reward_fund db) /\ amount (reward_fund db) <= amount (reward_fund db') /\
  (amount (reward_fund db) < 2 ^ 63 -> amount (reward_fund db') < 2 ^ 63).
#[local] Instance fund_grows_preorder : PreOrder fund_grows.
Proof. split; [intros x; unfold fund_grows; split_and!; [done | lia | done]|]. intros x y z (E1 & H1 & F1) (E2 & H2 & F2). split_and!; [congruence | lia | auto]. Qed.
Lemma keeps_fund_grows db db' : keeps_fund db db' -> fund_grows db db'.
Proof. unfold keeps_fund, fund_grows. intros ->. split_and!; [done | lia | done]. Qed.
Lemma return_to_fund_grows n db u db' : 0 <= n -> return_to_fund n db = Ok (u, db') -> fund_grows db db'.
Proof.
  unfold return_to_fund. intros Hn (p & Hp & ->)%on_table_run. inv_ok. apply asset_add_Ok in Hrun as (_ & Hi & ->). apply is_int64_spec in Hi.
  unfold fund_grows, reward_fund. cbn in *. split_and!; [done | lia | lia].
Qed.
Lemma pay_curators_grows comment c max actual db r db' : 0 <= max < 2 ^ 63 -> fair (com_auction_window_size comment) c ->
  Forall (fun v => rates_ok (cvi_vote v)) (cci_vote_list c) -> pay_curators comment c max actual db = Ok (r, db') -> fund_grows db db'.
Proof.
  intros Hm Hf Hr H. unfold pay_curators in H. apply bind_run in H as (s & db1 & Hs & H).
  pose proof (share_among_votes_pays STEEM_SYMBOL comment c max actual Hm Hf Hr _ _ _ Hs) as [Hu _].
  etrans; [eapply keeps_fund_grows, share_among_votes_fund, Hs|]. cbv zeta in H.
  destruct (negb (com_allow_curation_rewards comment)).
  { apply bind_run in H as ([] & db2 & H2 & [_ ->]%mret_run). eapply return_to_fund_grows, H2. lia. }
  destruct (negb _ && _); [|by apply mret_run in H as [_ ->]].
  apply bind_run in H as ([] & db2 & H2%fund_push & H). etrans; [by apply keeps_fund_grows|].
  apply bind_run in H as ([] & db3 & H3 & [_ ->]%mret_run). eapply return_to_fund_grows, H3. lia.
Qed.
Lemma divide_reward_grows comment reward db curve db' : votes_ready db comment -> 0 <= reward < 2 ^ 63 ->
  divide_reward comment reward db = Ok (curve, db') -> fund_grows db db'.
Proof.
  intros [Hpc Hw Hrates Hvotes] Hr H. unfold divide_reward in H. change STEEMIT_100_PERCENT with 10000 in *.
  rewrite u128_of_int64_law, (Z.mod_small reward), u128_mul_law, Z.mod_small, u128_div_law in H by nia.
  apply bind_run in H as (q & db1 & [[= <-] ->]%lift_run & H).
  assert (0 <= reward * com_curation_rewards_percent comment / 10000 <= reward) as Hc.
  { split; [apply Z.div_pos; nia | apply Z.div_le_upper_bound; nia]. }
  rewrite u128_share64 in H by lia. apply bind_run in H as (q & db1 & [[= <-] ->]%lift_run & H).
  rewrite safe_of_uint64_law in H by (apply is_int64_spec; lia). set (c := _ / 10000) in *.
  apply bind_run in H as (author & db1 & [_ ->]%lift_run & H).
  apply bind_run in H as (info & db1 & Hi & H). destruct (curation_info_run _ _ _ _ _ Hw Hi) as (-> & Hd & Hfrom & Hfair).
  specialize (Hfair (Hvotes _ _ Hd)). apply bind_run in H as (paid & db1 & Hp & H).
  apply pay_curators_grows in Hp; [| lia | done | eapply Forall_impl; [exact Hfrom|]; intros v Hv; by eapply Forall_forall in Hrates].
  etrans; [exact Hp|]. apply keeps_fund_grows. revert H.
  match goal with |- ?m _ = _ -> _ => enough (preserves keeps_fund m) as Hm by (intros H; exact (Hm _ _ _ H)) end.
  unfold pay_beneficiary, pay_author, to_sbd. cbv zeta. fund_solve.
Qed.
End Fund.

(** ** What a payout leaves of the votes and comments *)

(** A vote without the counter of its changes, which an archived comment resets *)
Definition vote_core (v : comment_vote_object) : comment_vote_object := v <| cvo_num_changes := 0 |>.
(** The terms of payout of a comment, and that no comment gains shares *)
Definition same_terms (c c' : comment_object) : Prop :=
  com_id c' = com_id c /\ com_curation_rewards_percent c' = com_curation_rewards_percent c /\
  com_auction_window_size c' = com_auction_window_size c /\ com_reward_weight c' = com_reward_weight c /\
  (0 < com_net_rshares c' -> com_net_rshares c' = com_net_rshares c /\ com_curation_reward_curve c' = com_curation_reward_curve c).
#[export] Instance same_terms_preorder : PreOrder same_terms.
Proof.
  split; [by unfold same_terms|]. unfold same_terms. intros x y z (E1 & E2 & E3 & E4 & E5) (G1 & G2 & G3 & G4 & G5). split_and!; try congruence.
  intros Hz. destruct (G5 Hz) as [N1 C1]. destruct (E5 ltac:(congruence)) as [N2 C2]. split; congruence.
Qed.
Record kept_votes (db db' : database) : Prop := mk_kept_votes {
  kept_core : vote_core <$> rows (comment_votes db') = vote_core <$> rows (comment_votes db);
  kept_wso : wso db' = wso db;
  kept_hardforks : processed_hardforks db' = processed_hardforks db;
  kept_terms : forall k c', rows (comments db') !! k = Some c' -> exists c, rows (comments db) !! k = Some c /\ same_terms c c'
}.
#[export] Instance kept_votes_preorder : PreOrder kept_votes.
Proof.
  split; [split; try done; intros k c' H; by exists c'|]. intros x y z [E1 E2 E3 E4] [G1 G2 G3 G4]. split; try congruence.
  intros k c (c' & (c0 & H0 & T0)%E4 & T)%G4. exists c0. split; [done | by etrans].
Qed.

Lemma kept_comments k f : (forall c c', f c = Ok c' -> same_terms c c') -> preserves kept_votes (modify comments k f).
Proof.
  intros Hf db u db' (c & c' & Hc & Hc'%Hf & ->)%modify_run. split; [done..|]. intros j v. cbn.
  intros [[<- <-] | [_ Hj]]%lookup_insert_Some; [by exists c | by exists v].
Qed.
Lemma kept_votes_votes k f : (forall v v', f v = Ok v' -> vote_core v' = vote_core v) -> preserves kept_votes (modify comment_votes k f).
Proof.
  intros Hf db u db' (v & v' & Hv & Hv'%Hf & ->)%modify_run. split; [|done..|]. 2: { intros j c Hj. by exists c. }
  cbn. rewrite fmap_insert, Hv'. apply insert_id. by rewrite lookup_fmap, Hv.
Qed.
Lemma kept_on_table {T : Type} (proj : database -> T) `{!FieldSetter proj} f :
  (forall db t, comments (db <| proj := t |>) = comments db /\ comment_votes (db <| proj := t |>) = comment_votes db /\
     wso (db <| proj := t |>) = wso db /\ processed_hardforks (db <| proj := t |>) = processed_hardforks db) -> preserves kept_votes (on_table proj f).
Proof.
  intros Hp db u db' (t & _ & ->)%on_table_run. destruct (Hp db t) as (E1 & E2 & E3 & E4). split; [by rewrite E2 | done | done |].
  intros k c. rewrite E1. intros H. by exists c.
Qed.
Lemma kept_push op force : preserves kept_votes (push_virtual_operation op force).
Proof. intros db u db' (n & l & ->)%push_virtual_operation_run. split; try done. intros k c H. by exists c. Qed.
#[local] Hint Resolve kept_push : preserves.
Ltac kept_rows :=
  match goal with
  | |- preserves _ (modify comments _ _) => apply kept_comments; let c := fresh "c" in let c' := fresh "c'" in let Hc := fresh "Hc" in
      intros c c' Hc; inv_ok; by split_and!
  | |- preserves _ (modify comment_votes _ _) => apply kept_votes_votes; let v := fresh "v" in let v' := fresh "v'" in let Hv := fresh "Hv" in
      intros v v' Hv; by inv_ok
  | |- preserves _ (modify_dgp _) => unfold modify_dgp
  | |- preserves _ (modify _ _ _) => unfold modify at 1
  | |- preserves _ (create _ _ _) => unfold create at 1
  | |- preserves _ (remove _ _) => unfold remove at 1
  | |- preserves _ (on_table _ _) => apply kept_on_table; intros ? ?; by split_and!
  end.
Ltac kept_solve := repeat (preserve; try kept_rows).

Section Kept.
Context `{F : fc_ops} {L : fc_laws F}.

Lemma adjust_balance_kept name delta : preserves kept_votes (adjust_balance name delta).
Proof. unfold adjust_balance, adjust_sbd_balance, accrue_sbd_interest, pay_interest_supply. cbv zeta. kept_solve. Qed.
Lemma adjust_supply_kept delta v : preserves kept_votes (adjust_supply delta v).
Proof. unfold adjust_supply. cbv zeta. kept_solve. Qed.
Lemma adjust_proxied_kept r name delta : preserves kept_votes (adjust_proxied_witness_votes_at r name delta).
Proof.
  revert name. induction r as [|r IH]; intros name; cbn [adjust_proxied_witness_votes_at];
    unfold adjust_witness_votes, adjust_witness_vote; cbv zeta; kept_solve.
Qed.
Hint Resolve adjust_balance_kept adjust_supply_kept adjust_proxied_kept : preserves.
Lemma create_vesting_kept name steem : preserves kept_votes (create_vesting name steem).
Proof. unfold create_vesting, adjust_proxied_witness_votes. cbv zeta. kept_solve. Qed.
Lemma create_sbd_kept name steem : preserves kept_votes (create_sbd name steem).
Proof. unfold create_sbd. cbv zeta. kept_solve. Qed.
Hint Resolve create_vesting_kept create_sbd_kept : preserves.
Lemma pay_curator_kept cvo claim author permlink : preserves kept_votes (pay_curator cvo claim author permlink).
Proof. unfold pay_curator, pay_delegators, pay_delegator. cbv zeta. kept_solve. Qed.
Hint Resolve pay_curator_kept : preserves.
Lemma pay_votes_kept comment c max r l s : preserves kept_votes (pay_votes comment c max r l s).
Proof. revert s. induction l as [|v l IH]; intros s; cbn [pay_votes]; kept_solve. Qed.
Hint Resolve pay_votes_kept : preserves.
Lemma divide_reward_kept comment reward : preserves kept_votes (divide_reward comment reward).
Proof.
  unfold divide_reward, pay_curators, share_among_votes, return_to_fund, curation_info, detect_curation_curve, pay_beneficiary, pay_author, to_sbd.
  cbv zeta. kept_solve.
Qed.
Lemma adjust_rshares2_kept k old new : preserves kept_votes (adjust_rshares2 k old new).
Proof.
  unfold adjust_rshares2. apply preserves_bind; [apply _ | auto with preserves|]. intros c.
  generalize (Z.to_nat (com_depth c)) as n. intros n. revert k. induction n as [|n IH]; intros k; cbn [adjust_rshares2_at]; kept_solve.
Qed.
Hint Resolve divide_reward_kept adjust_rshares2_kept : preserves.
Lemma close_payout_terms hf17 now curve root c : same_terms c (close_payout hf17 now curve root c).
Proof.
  assert (com_net_rshares (close_payout hf17 now curve root c) <= 0) as Hn.
  { unfold close_payout. destruct (Z.gtb_spec (com_net_rshares c) 0) as [H | H]; repeat case_match; cbn; lia. }
  split_and!; [unfold close_payout; by repeat case_match.. | lia].
Qed.
Lemma cashout_comment_kept k : preserves kept_votes (cashout_comment_helper k).
Proof.
  assert (forall k f, (exists hf17 now curve root, f = fun c => Ok (close_payout hf17 now curve root c)) -> preserves kept_votes (modify comments k f)) as Hclose.
  { intros k0 f (hf & now & curve & root & ->). apply kept_comments. intros c c' [= <-]. apply close_payout_terms. }
  unfold cashout_comment_helper, archive_votes, pay_comment, claim_rshare_reward, calculate_vshares, to_steem, to_sbd. cbv zeta.
  kept_solve. apply Hclose; eauto.
Qed.

(** ... so that other comments can still be paid out. *)
Lemma votes_core_perm i db :
  vote_core <$> by_comment_vote_order i db ≡ₚ filter (fun v => cvo_comment v = i) (map_to_list (vote_core <$> rows (comment_votes db))).*2.
Proof.
  unfold by_comment_vote_order. rewrite sort_by_perm, map_to_list_fmap. induction (map_to_list (rows (comment_votes db))) as [|[k v] l IH]; [done|].
  cbn. case_decide; cbn; [by rewrite IH | done].
Qed.
Lemma votes_core_same i db db' : kept_votes db db' -> vote_core <$> by_comment_vote_order i db' ≡ₚ vote_core <$> by_comment_vote_order i db.
Proof. intros [E _ _ _]. by rewrite !votes_core_perm, E. Qed.
Lemma Forall_core (Q : comment_vote_object -> Prop) i db db' : kept_votes db db' -> (forall v, Q (vote_core v) <-> Q v) ->
  Forall Q (by_comment_vote_order i db) -> Forall Q (by_comment_vote_order i db').
Proof.
  intros Hk HQ H. assert (forall l, Forall Q (vote_core <$> l) <-> Forall Q l) as Hc.
  { intros l. rewrite Forall_fmap. apply Forall_iff. intros v. apply HQ. }
  apply Hc. rewrite (votes_core_same i db db' Hk). by apply Hc.
Qed.
Lemma linear_sum_core i db db' : kept_votes db db' -> linear_sum (by_comment_vote_order i db') = linear_sum (by_comment_vote_order i db).
Proof.
  intros Hk. assert (forall l, linear_sum (vote_core <$> l) = linear_sum l) as Hc.
  { intros l. induction l as [|v l IH]; [done|]. rewrite fmap_cons, !linear_sum_cons, IH. done. }
  rewrite <- (Hc (by_comment_vote_order i db')), <- (Hc (by_comment_vote_order i db)).
  apply (sum_perm (fun v => if decide (curated v) then cvo_rshares v else 0)), votes_core_same, Hk.
Qed.
Lemma votes_ready_kept db db' c c' : kept_votes db db' -> same_terms c c' -> 0 < com_net_rshares c' -> votes_ready db c -> votes_ready db' c'.
Proof.
  intros Hk (E1 & E2 & E3 & _ & E5) Hn [Hp Hw Hrates Hv]. destruct (E5 Hn) as [_ Ec]. split; [by rewrite E2 | by rewrite E3 | |].
  - rewrite E1. by apply (Forall_core rates_ok _ db).
  - intros curve db1 Hd. assert (detect_curation_curve c db = Ok (curve, db)) as Hd'.
    { destruct Hk as [_ Ew Eh _]. unfold detect_curation_curve, has_hardfork in *. rewrite Ec in Hd. inv_run. by rewrite Ew, Eh. }
    destruct (Hv _ _ Hd') as [Ht Hf]. rewrite E1, E3. split; [by apply (Forall_core (vote_timed _) _ db)|].
    intros Hl. destruct (Hf Hl) as [H1 H2]. split; [by apply (Forall_core (fun v => curated v -> 0 <= cvo_rshares v) _ db)|].
    by rewrite (linear_sum_core _ db).
Qed.
End Kept.

(** ** The fund covers the payouts *)

Section Covered.
Context `{F : fc_ops} {L : fc_laws F}.
#[local] Hint Resolve fund_push : preserves.

(** The fund, the weights of rewards and the votes are as their types and validation make
    them. *)
Record payable (db : database) : Prop := {
  payable_fund : 0 <= amount (reward_fund db) < 2 ^ 63;
  payable_symbol : symbol (reward_fund db) = STEEM_SYMBOL;
  payable_weights : map_Forall (fun _ c => 0 <= com_reward_weight c <= STEEMIT_100_PERCENT) (rows (comments db));
  payable_votes : map_Forall (fun _ c => 0 < com_net_rshares c -> votes_ready db c) (rows (comments db))
}.
(** ... and discussions are counted. *)
Record accounted (db : database) : Prop := {
  accounted_era : linear_shares db;
  accounted_few : few_comments db;
  accounted_counts : well_counted (forest_of db) (total_of db);
  accounted_payable : payable db
}.

Lemma share_below_total db k c : accounted db -> rows (comments db) !! k = Some c -> 0 < com_net_rshares c ->
  0 < com_net_rshares c <= total_of db /\ com_net_rshares c < 2 ^ 63.
Proof.
  intros [_ Hf Hc _] Hk%forest_lookup Hn. destruct (total_exact _ _ Hc) as [_ Hle]; [unfold few_comments, forest_of in *; by rewrite map_size_fmap|].
  specialize (Hle _ _ Hk). unfold gain in Hle. pose proof (counted_fits _ _ Hc _ _ Hk). cbn in *. lia.
Qed.
Lemma accounted_ready db k c : accounted db -> rows (comments db) !! k = Some c -> 0 < com_net_rshares c -> payout_ready db c.
Proof.
  intros Ha Hk Hn. pose proof (share_below_total db k c Ha Hk Hn) as [? ?]. destruct Ha as [_ _ _ [Hf Hs Hw Hv]].
  pose proof (Hw _ _ Hk) as Hwk. cbn in Hwk. unfold total_of in *. change STEEMIT_100_PERCENT with 10000 in *. split; [done | done | lia | done | lia | by apply (Hv k)].
Qed.

Lemma fund_share_le f rs2 total w : 0 <= f -> 0 <= rs2 <= total -> 0 < total -> 0 <= w <= STEEMIT_100_PERCENT ->
  0 <= fund_share f rs2 total w <= f.
Proof.
  intros Hf Hr Ht Hw. unfold fund_share. change STEEMIT_100_PERCENT with 10000 in *.
  assert (0 <= rs2 * w / 10000 <= rs2) as Hq by (split; [apply Z.div_pos; nia | apply Z.div_le_upper_bound; nia]).
  split; [apply Z.div_pos; nia | apply Z.div_le_upper_bound; nia].
Qed.
Lemma claim_covered k c max db reward db' : accounted db -> rows (comments db) !! k = Some c -> 0 < com_net_rshares c ->
  claim_rshare_reward (com_net_rshares c) (com_reward_weight c) max db = Ok (reward, db') ->
  0 <= reward < 2 ^ 63 /\ symbol (reward_fund db') = symbol (reward_fund db) /\
  amount (reward_fund db') = amount (reward_fund db) - reward /\ 0 <= amount (reward_fund db') /\
  comment_votes db' = comment_votes db /\ wso db' = wso db /\ processed_hardforks db' = processed_hardforks db.
Proof.
  intros Ha Hk Hn H. pose proof (share_below_total db k c Ha Hk Hn) as [Hle Hfit].
  destruct (accounted_ready db k c Ha Hk Hn) as [Hf Hs Hsh Hr Hw Hv].
  destruct (claim_rshare_reward_run _ _ _ _ _ _ Hf Hsh Hr Hw H) as (hf & sbd & small & f & H'). cbv zeta in H'.
  destruct H' as (Hhf & _ & _ & _ & _ & -> & Hrw & Hsub%safe_sub_Ok & ->).
  assert (hf = true) as ->.
  { apply gets_run in Hhf as [Hhf _]. destruct Ha as [Hl _ _ _]. unfold linear_shares in Hl. by rewrite (proj2 (Nat.ltb_lt _ _) Hl) in Hhf. }
  pose proof (payable_weights _ (accounted_payable _ Ha) _ _ Hk) as Hwk. cbn in Hwk.
  pose proof (fund_share_le (amount (dgp_total_reward_fund_steem (dgp db))) (com_net_rshares c) (total_of db) (com_reward_weight c) ltac:(lia) ltac:(lia) ltac:(lia) Hwk) as Hfs.
  cbn [vshares] in *. unfold total_of, reward_fund in *. cbn. split_and!; first [done | lia | destruct small; lia].
Qed.

Lemma pay_comment_covered k c db curve db' : accounted db -> rows (comments db) !! k = Some c ->
  pay_comment k c db = Ok (curve, db') ->
  0 <= amount (reward_fund db') < 2 ^ 63 /\ symbol (reward_fund db') = symbol (reward_fund db).
Proof.
  intros Ha Hk H. pose proof (payable_fund _ (accounted_payable _ Ha)) as Hf. unfold pay_comment in H.
  destruct (Z.gtb_spec (com_net_rshares c) 0) as [Hn | _]; [|by apply mret_run in H as [_ ->]].
  apply bind_run in H as (max & db1 & Hmax & H). assert (db1 = db) as -> by (unfold to_steem, median_price in Hmax; by inv_run).
  apply bind_run in H as (reward & db1 & Hc & H). destruct (claim_covered k c _ _ _ _ Ha Hk Hn Hc) as (Hrw & Es & Ef & H0 & E1 & E2 & E3).
  apply bind_run in H as (curve1 & db2 & Hd & H). assert (fund_grows db1 db2) as (Es2 & Hg & Hfit).
  { destruct (reward >? 0); [|apply keeps_fund_grows; by apply mret_run in Hd as [_ ->]]. eapply divide_reward_grows; [|exact Hrw | exact Hd].
    by eapply votes_ready_same, (ready_for_votes _ _ (accounted_ready db k c Ha Hk Hn)). }
  assert (keeps_fund db2 db') as E.
  { revert H. match goal with |- ?m _ = _ -> _ => enough (preserves keeps_fund m) as Hm by (intros H; exact (Hm _ _ _ H)) end.
    unfold calculate_vshares. pose proof adjust_rshares2_fund. fund_solve. }
  unfold keeps_fund in E. rewrite E. split; [lia | congruence].
Qed.

(** One payout keeps all of it. *)
Lemma cashout_accounted k db u db' : accounted db -> cashout_comment_helper k db = Ok (u, db') -> accounted db' /\ forall sym, gap sym db' = gap sym db.
Proof.
  intros Ha H. split.
  2: { intros sym. eapply cashout_comment_gap; [|exact H]. intros c Hc Hn. by eapply accounted_ready. }
  pose proof (cashout_comment_kept k _ _ _ H) as Hkept. pose proof Ha as [Hl Hf Hc Hp].
  assert (few_comments db') as Hf'.
  { unfold few_comments in *. assert (size (rows (comments db')) <= size (rows (comments db)))%nat; [|lia].
    rewrite <- !size_dom. apply subseteq_size. intros j (c' & Hc')%elem_of_dom. destruct (kept_terms _ _ Hkept _ _ Hc') as (c0 & H0 & _).
    apply elem_of_dom. by eexists. }
  destruct (cashout_comment_step k db u db' (counted_rooted _ _ Hc) Hl H) as [Hstep Eh]. split; [|done|..].
  - unfold linear_shares. by rewrite Eh.
  - eapply forest_step_counted; [.. | exact Hstep | exact Hc]; unfold few_comments, forest_of in *; by rewrite map_size_fmap.
  - assert (0 <= amount (reward_fund db') < 2 ^ 63 /\ symbol (reward_fund db') = symbol (reward_fund db)) as [Hfund Esym].
    { unfold cashout_comment_helper in H. apply bind_run in H as (c & db1 & [Hck ->]%get_row_run & H).
      apply bind_run in H as (curve & db1 & Hpay & H). apply (pay_comment_covered k c) in Hpay; [|done..].
      assert (keeps_fund db1 db') as E; [|unfold keeps_fund in E; by rewrite E].
      revert H. match goal with |- ?m _ = _ -> _ => enough (preserves keeps_fund m) as Hm by (intros H; exact (Hm _ _ _ H)) end.
      unfold archive_votes. fund_solve. }
    destruct Hp as [_ Hs Hw Hv]. split; [done | congruence | |]; intros j c' Hc'; destruct (kept_terms _ _ Hkept _ _ Hc') as (c0 & H0 & Ht).
    + destruct Ht as (_ & _ & _ & E & _). rewrite E. by apply (Hw j).
    + intros Hn. eapply votes_ready_kept; [done..|]. apply (Hv j); [done|]. destruct Ht as (_ & _ & _ & _ & Ht). destruct (Ht Hn) as [<- _]. done.
Qed.

(** C9: The payouts of a block balance: when discussions are counted exactly, the fund and
    the weights of rewards are in range and the votes can be weighed, the loop over the due
    comments neither makes nor loses value in any symbol, never takes more from the reward
    fund than it holds, and leaves discussions counted and payable. *)
Theorem block_payouts_balance db db' : accounted db -> process_comment_cashout db = Ok (tt, db') ->
  (forall sym, gap sym db' = gap sym db) /\ 0 <= amount (reward_fund db') /\ accounted db'.
Proof.
  intros Ha H. enough (accounted db' /\ forall sym, gap sym db' = gap sym db) as [Ha' Hg].
  { split_and!; [done | apply (payable_fund _ (accounted_payable _ Ha')) | done]. }
  unfold process_comment_cashout in H. apply bind_run in H as (now & db1 & [-> ->]%gets_run & H).
  apply bind_run in H as (hf17 & db1 & [-> ->]%gets_run & H). unfold when in H. destruct (_ >? _); [|by apply mret_run in H as [_ ->]].
  apply bind_run in H as (fuel & db1 & [-> ->]%gets_run & H). pose proof (accounted_era _ Ha) as Hl.
  rewrite (proj2 (Nat.ltb_lt _ _) Hl : (STEEMIT_HARDFORK_0_17__431 <? _)%nat = true) in H.
  revert H. apply (drain_invariant (fun d => accounted d /\ forall sym, gap sym d = gap sym db)); [|done].
  intros k d1 u1 d2 _ [Hd Hg] Hrun%cashout_accounted; [|done]. destruct Hrun as [Hd2 Hg2]. split; [done|]. intros sym. by rewrite Hg2.
Qed.

(** C26: Since hardfork 0.17 the loop over the comments to be paid out comes to an end by
    itself: when a block's cashout has run, no comment is due any more. *)
Theorem process_comment_cashout_settles db db' :
  (STEEMIT_HARDFORK_0_17__431 < length (processed_hardforks db))%nat -> STEEMIT_FIRST_CASHOUT_TIME < dgp_time (dgp db) < time_point_sec_maximum ->
  process_comment_cashout db = Ok (tt, db') ->
  forall k c, rows (comments db') !! k = Some c -> dgp_time (dgp db') < com_cashout_time c.
Proof.
  intros Hhf Htime H. unfold process_comment_cashout in H. apply bind_run in H as (now & db1 & [-> ->]%gets_run & H).
  apply bind_run in H as (hf17 & db1 & [-> ->]%gets_run & H). unfold when in H.
  replace (_ >? _) with true in H by (symmetry; apply Z.gtb_lt; lia).
  apply bind_run in H as (fuel & db1 & [-> ->]%gets_run & H). set (now := dgp_time (dgp db)) in *.
  replace (_ <? _)%nat with true in H by (symmetry; by apply Nat.ltb_lt).
  set (P := fun d : database => (STEEMIT_HARDFORK_0_17__431 < length (processed_hardforks d))%nat /\ dgp_time (dgp d) = now).
  eapply (drain_settles P (fun d => size (due_keys now d))) in H as [[_ Hnow'] Hnone]; [| | by split |].
  - intros k c Hc. pose proof (first_due_None _ _ _ Hnone k c Hc) as Hdue. unfold cashout_due in Hdue. apply Z.leb_gt in Hdue. lia.
  - intros k d1 u1 d2 (c & Hc & Hdue)%first_due_Some [Hh Ht] Hrun. apply cashout_comment_done in Hrun as (E & E1 & E2); [|done].
    split; [split; [by rewrite E2 | by rewrite E1]|]. apply subset_size. unfold cashout_due in Hdue. apply Z.leb_le in Hdue.
    assert (k ∈ due_keys now d1) as Hk by (apply elem_of_due_keys; exists (com_cashout_time c); unfold cashout_times; by rewrite Hc).
    assert (k ∉ due_keys now d2) as Hk'.
    { rewrite elem_of_due_keys, E, decide_True by done. intros (t & [= <-] & Hle). lia. }
    split; [|by intros Hsub; apply Hk', Hsub]. intros k'. rewrite !elem_of_due_keys, E. destruct (decide (k' = k)) as [-> | ]; [|done].
    intros (t & [= <-] & Hle). lia.
  - unfold due_keys. rewrite size_dom. apply Nat.lt_succ_r, map_subseteq_size, map_filter_subseteq.
Qed.


(** C25: The votes share what there is: when the votes on a comment can be weighed, every
    claim of a vote is computed without overflow as its part of the reward, and for votes
    at the end of the auction window its part of the reward of the window; no claim and
    not even all claims together exceed the curation reward.  Without the linear curve any
    votes cast within the window can be weighed. *)
Theorem claims_within_reward comment full info db db' max :
  0 <= com_auction_window_size comment < 2 ^ 16 -> 0 <= max < 2 ^ 63 ->
  votes_fair (cci_curve info) (com_auction_window_size comment) (by_comment_vote_order (com_id comment) db) ->
  curation_info comment full db = Ok (info, db') -> 0 < cci_total_vote_weight info ->
  let auction := max * cci_auction_window_weight info / cci_total_vote_weight info in
  Forall (fun v => vote_claim comment info max auction v = Ok (claim_of comment info max v) /\ 0 <= claim_of comment info max v <= max)
    (cci_vote_list info) /\
  foldr (fun v s => claim_of comment info max v + s) 0 (cci_vote_list info) <= max.
Proof.
  intros Hw Hm Hv H Ht auction. apply curation_info_run in H as (_ & _ & _ & Hfair); [|done]. specialize (Hfair Hv).
  split; [|by apply claims_sum_le]. apply Forall_forall. intros v Hin. by apply vote_claim_of.
Qed.

(** The approximate square root of the curation curve is at least the integer square
    root and at most 6.1% above the exact one, for every 128-bit number, so that it fits
    in 64 bits. *)
Theorem approx_sqrt_close x : 0 <= x < 2 ^ 128 ->
  Z.sqrt x <= approx_sqrt x < 2 ^ 64 /\ 8 * (approx_sqrt x * approx_sqrt x) <= 9 * x.
Proof.
  intros Hx. destruct (approx_sqrt_near x Hx) as ([H0 H1] & H2 & H3). split_and!; [|done..].
  pose proof (Z.sqrt_spec x ltac:(lia)) as [Hs _]. pose proof (Z.sqrt_nonneg x). nia.
Qed.

(** C27: With the linear curve a vote that was changed to a downvote outweighs all others:
    its negative shares are converted to an unsigned weight of nearly 2^64.  Cast at the
    beginning of the auction window all of this weight goes to the window, away from the
    votes that were cast in it. *)
Theorem changed_vote_outweighs window v h shares :
  0 < window < 2 ^ 16 -> cvo_auction_time v = 0 -> 0 < cvo_orig_rshares v -> cvo_num_changes v = 1 ->
  cvo_rshares v = - shares -> 0 < shares < 2 ^ 63 -> 0 <= wh_vote_rshares h -> wh_vote_rshares h + cvo_orig_rshares v < 2 ^ 63 ->
  0 <= wh_auction_window_weight h < shares ->
  exists h', calculate_weight linear window v h = Ok (0, h') /\
    wh_auction_window_weight h' = 2 ^ 64 - shares + wh_auction_window_weight h.
Proof.
  intros Hwin Ht Ho Hch Hrs Hsh Hv Hfit Ha. unfold calculate_weight, was_changed. rewrite Ht, Hch.
  destruct (Z.leb_spec (cvo_orig_rshares v) 0); [lia|]. rewrite safe_add_law, (proj2 (is_int64_spec _)) by lia. cbn [mbind result_bind calculate_curve fst snd].
  assert (to_uint64_wrap (cvo_rshares v) = 2 ^ 64 - shares) as ->.
  { rewrite Hrs. unfold to_uint64_wrap. symmetry. apply (Z.mod_unique _ _ (-1)); lia. }
  replace ((2 ^ 64 - shares >? 0) && negb (0 =? window)) with true by (symmetry; apply andb_true_iff; split; [apply Z.gtb_lt; lia | apply negb_true_iff, Z.eqb_neq; lia]).
  unfold window_part. rewrite u128_mul_law, Z.mul_0_r, Z.mod_0_l, u128_div_law, Z.div_0_l by lia. cbn [mbind result_bind].
  rewrite u128_share64 by lia. cbn [mbind result_bind negb andb Z.eqb fst snd]. eexists. split; [done|]. cbn.
  rewrite Z.sub_0_r. rewrite (to_uint64_wrap_small (2 ^ 64 - shares)) by lia. rewrite to_uint64_wrap_small; lia.
Qed.
End Covered.

(** ** The payout of the discussion

    A week later, with a filled reward fund *)

Definition a_week_later (db : database) : database :=
  db <| dgp ::= (fun p => p <| dgp_time := sample_time + STEEMIT_CASHOUT_WINDOW_SECONDS |>
    <| dgp_total_reward_fund_steem := mk_asset 200000 STEEM_SYMBOL |>) |>.
Definition sample_due_database : database := a_week_later sample_voted.
Definition sample_paid_database : database := run_state (process_comment_cashout (F := fc_ref)) sample_due_database.

Definition sample_due_comment (k : string * string) : comment_object := default (new_comment_object 0) (rows (comments sample_due_database) !! k).

Lemma a_week_later_counted db : well_counted (forest_of db) (total_of db) -> well_counted (forest_of (a_week_later db)) (total_of (a_week_later db)).
Proof. done. Qed.
Lemma sample_due_counted : well_counted (forest_of sample_due_database) (total_of sample_due_database).
Proof.
  apply a_week_later_counted.
  destruct (counted_steps (F := fc_ref) (H := crypto_ref) sample_talk_database sample_voted) as (_ & _ & Hc);
    [apply Nat.ltb_lt; vm_compute; reflexivity | vm_compute; reflexivity | apply sample_talk_counted | apply sample_talk_steps | exact Hc].
Qed.
Lemma sample_due_rows : rows (comments sample_due_database) = <[("bob", "post") := sample_due_comment ("bob", "post")]>
  (<[("alice", "re-post") := sample_due_comment ("alice", "re-post")]> ∅).
Proof. vm_compute. reflexivity. Qed.
Lemma sample_due_votes : votes_ready sample_due_database (sample_due_comment ("alice", "re-post")).
Proof.
  split; [vm_compute; split; discriminate | vm_compute; split; [discriminate | reflexivity] | vm_compute; repeat constructor; discriminate |].
  intros curve db' Hcurve. split; [vm_compute; repeat constructor; discriminate|].
  intros _. split; [vm_compute; repeat constructor; discriminate | vm_compute; reflexivity].
Qed.
Lemma sample_due_payable : payable sample_due_database.
Proof.
  split; [vm_compute; split; [discriminate | reflexivity] | vm_compute; reflexivity | |].
  - apply map_Forall_to_list. vm_compute. repeat constructor; discriminate.
  - rewrite sample_due_rows. apply map_Forall_insert_2; [vm_compute; discriminate|].
    apply map_Forall_insert_2; [intros _; apply sample_due_votes | apply map_Forall_empty].
Qed.
Lemma sample_due_accounted : accounted sample_due_database.
Proof.
  split; [apply Nat.ltb_lt; vm_compute; reflexivity | vm_compute; reflexivity | apply sample_due_counted | apply sample_due_payable].
Qed.

Lemma block_payouts_balance_witness :
  gap STEEM_SYMBOL sample_paid_database = gap STEEM_SYMBOL sample_due_database /\
  reward_fund sample_paid_database = mk_asset 50000 STEEM_SYMBOL /\ accounted sample_paid_database.
Proof.
  destruct (block_payouts_balance (F := fc_ref) sample_due_database sample_paid_database) as (Hg & _ & Ha);
    [apply sample_due_accounted | unfold sample_paid_database; run_now |].
  split_and!; [apply Hg | vm_compute; reflexivity | exact Ha].
Defined.

Lemma process_comment_cashout_settles_witness :
  com_cashout_time <$> rows (comments sample_paid_database) !! ("alice", "re-post") = Some time_point_sec_maximum /\
  forall k c, rows (comments sample_paid_database) !! k = Some c -> dgp_time (dgp sample_paid_database) < com_cashout_time c.
Proof.
  split; [vm_compute; reflexivity|]. apply (process_comment_cashout_settles (F := fc_ref) sample_due_database sample_paid_database);
    [apply Nat.ltb_lt; vm_compute; reflexivity | split; vm_compute; reflexivity | unfold sample_paid_database; run_now].
Defined.


(** Two votes in the auction window and one at its end *)
Definition sample_window_vote (id auction_time shares : Z) : comment_vote_object :=
  mk_comment_vote_object id id 0 shares shares 10000 auction_time sample_time 0 [].
Definition sample_window_comment : comment_object :=
  (new_comment_object 0) <| com_auction_window_size := 600 |> <| com_curation_reward_curve := square_root |>
    <| com_auction_window_reward_destination := to_curators |>.
Definition sample_window_database : database :=
  sample_database <| comment_votes := mk_table
    (<[(0, 0) := sample_window_vote 0 0 1000]> (<[(0, 1) := sample_window_vote 1 300 3000]> (<[(0, 2) := sample_window_vote 2 600 5000]> ∅))) 3 |>.
Definition sample_window_info : comment_curation_info :=
  default (mk_comment_curation_info [] 0 0 0 0 detect) (outcome (curation_info (F := fc_ref) sample_window_comment false) sample_window_database).
Lemma claims_within_reward_witness :
  foldr (fun v s => claim_of sample_window_comment sample_window_info 1000 v + s) 0 (cci_vote_list sample_window_info) <= 1000 /\
  length (cci_vote_list sample_window_info) = 2%nat.
Proof.
  split; [|vm_compute; reflexivity].
  destruct (claims_within_reward (F := fc_ref) sample_window_comment false sample_window_info sample_window_database sample_window_database 1000) as [_ H];
    [vm_compute; split; [discriminate | reflexivity] | vm_compute; split; [discriminate | reflexivity] | | vm_compute; reflexivity | vm_compute; reflexivity | exact H].
  split; [vm_compute; repeat constructor; discriminate | intros E; vm_compute in E; discriminate E].
Defined.

Lemma approx_sqrt_close_witness : Z.sqrt 1000000 <= approx_sqrt (F := fc_ref) 1000000 /\ approx_sqrt (F := fc_ref) 1000000 = 1000.
Proof. destruct (approx_sqrt_close (F := fc_ref) 1000000) as [[H _] _]; [lia|]. split; [exact H | vm_compute; reflexivity]. Defined.

Lemma changed_vote_outweighs_witness :
  let v := (sample_window_vote 0 0 1000) <| cvo_rshares := -5 |> <| cvo_num_changes := 1 |> in
  exists h', calculate_weight (F := fc_ref) linear 600 v weight_helper_start = Ok (0, h') /\ wh_auction_window_weight h' = 2 ^ 64 - 5 + 0.
Proof. intros v. apply (changed_vote_outweighs (F := fc_ref) 600 v weight_helper_start 5); vm_compute; try split; try reflexivity; discriminate. Defined.
