(* ===== verification/Identifiers.v ===== *)
(** * Identifiers

    Chain objects have a number besides their key, given by a counter of their table.
    The votes for witnesses are keyed by such numbers, so the recount of votes relies on
    every number in use being below the counter. *)

From S2P Require Import Prelude Exceptions Text Fc Config Asset FlatMap Authority Operations Crypto Validate SignState Transaction BlockId ForkDatabase Objects Database Conservation Sample Transfers Escrow Market Conversion Vesting Preserve Production Schedule Bookkeeping Burning Funds Delegation Accounts Curation Comments Cashout Payout Discussions Hardforks Votes Ledger.

Record ids_fresh (db : database) : Prop := mk_ids_fresh {
  fresh_accounts : map_Forall (fun _ a => account_id a < next_id (accounts db)) (rows (accounts db));
  fresh_witnesses : map_Forall (fun _ w => witness_id w < next_id (witnesses db)) (rows (witnesses db));
  fresh_votes : map_Forall (fun k (_ : witness_vote_object) => fst k < next_id (accounts db) /\ snd k < next_id (witnesses db))
                  (rows (account_witness_votes db))
}.

(** "null", which nobody signs for, neither votes nor has a proxy, and no other account has
    its number. *)
Record null_silent (db : database) : Prop := mk_null_silent {
  silent_id : forall a k b, rows (accounts db) !! STEEMIT_NULL_ACCOUNT = Some a -> rows (accounts db) !! k = Some b ->
    account_id b = account_id a -> k = STEEMIT_NULL_ACCOUNT;
  silent_proxy : forall a, rows (accounts db) !! STEEMIT_NULL_ACCOUNT = Some a -> account_proxy a = "";
  silent_votes : forall a x, rows (accounts db) !! STEEMIT_NULL_ACCOUNT = Some a -> rows (account_witness_votes db) !! (account_id a, x) = None
}.
Definition numbers_ok (db : database) : Prop := ids_fresh db /\ null_silent db.
(** Operations that "null" does not vote with *)
Definition not_by_null (op : operation) : Prop :=
  match op with
  | op_account_witness_vote o => account_witness_vote_account o <> STEEMIT_NULL_ACCOUNT
  | op_account_witness_proxy o => account_witness_proxy_account o <> STEEMIT_NULL_ACCOUNT
  | _ => True
  end.

Definition keeps_fresh (db db' : database) : Prop := numbers_ok db -> numbers_ok db'.
#[export] Instance keeps_fresh_preorder : PreOrder keeps_fresh.
Proof. unfold keeps_fresh. split; [by intros db | intros x y z Hxy Hyz H; auto]. Qed.

(** ** Changes of tables *)

Lemma numbers_ok_same db db' :
  accounts db' = accounts db -> next_id (witnesses db') = next_id (witnesses db) ->
  (forall o w', rows (witnesses db') !! o = Some w' -> exists w, rows (witnesses db) !! o = Some w /\ witness_id w' = witness_id w) ->
  account_witness_votes db' = account_witness_votes db -> keeps_fresh db db'.
Proof.
  intros Ea En Hw Ev [[A W V] [S1 S2 S3]]. split; split; rewrite ?Ea, ?Ev, ?En; try done.
  intros o w' (w & Hwo & ->)%Hw. by apply (W o).
Qed.
Lemma fresh_on_table {T : Type} (proj : database -> T) `{!FieldSetter proj} f :
  (forall db t, let db' := db <| proj := t |> in
     accounts db' = accounts db /\ witnesses db' = witnesses db /\ account_witness_votes db' = account_witness_votes db) ->
  preserves keeps_fresh (on_table proj f).
Proof.
  intros Hp db u db' (t & _ & ->)%on_table_run. destruct (Hp db t) as (Ea & Ew & Ev).
  apply numbers_ok_same; [done | by rewrite Ew | | done]. rewrite Ew. eauto.
Qed.
Lemma fresh_modify_account k f :
  (forall a a', f a = Ok a' -> account_id a' = account_id a /\
     (k = STEEMIT_NULL_ACCOUNT -> account_proxy a' = account_proxy a \/ account_proxy a' = "")) -> preserves keeps_fresh (modify accounts k f).
Proof.
  intros Hf db u db' (v & v' & Hv & [Hid Hproxy]%Hf & ->)%modify_run [[A W V] [S1 S2 S3]].
  assert (forall q b, <[k := v']> (rows (accounts db)) !! q = Some b -> exists b0, rows (accounts db) !! q = Some b0 /\
    account_id b = account_id b0 /\ (q = STEEMIT_NULL_ACCOUNT -> account_proxy b = account_proxy b0 \/ account_proxy b = "")) as Hback.
  { intros q b [[<- <-] | [_ Hb]]%lookup_insert_Some; [by exists v | exists b; auto]. }
  split; split; try done; cbn.
  - intros q b (b0 & Hb & -> & _)%Hback. by apply (A q).
  - intros a q b (a0 & Ha & -> & _)%Hback (b0 & Hb & -> & _)%Hback E. by eapply S1.
  - intros a (a0 & Ha & _ & Hp)%Hback. destruct (Hp eq_refl) as [-> | ->]; [by apply S2 | done].
  - intros a x (a0 & Ha & -> & _)%Hback. by apply S3.
Qed.
Lemma fresh_modify_witness k f : (forall a a', f a = Ok a' -> witness_id a' = witness_id a) -> preserves keeps_fresh (modify witnesses k f).
Proof.
  intros Hf db u db' (v & v' & Hv & Hv'%Hf & ->)%modify_run. apply numbers_ok_same; try done. cbn.
  intros o w' [[<- <-] | [_ Hb]]%lookup_insert_Some; eauto.
Qed.
Lemma fresh_create_account k init : (forall id, account_id (init id) = id /\ account_proxy (init id) = "") -> preserves keeps_fresh (create accounts k init).
Proof.
  intros Hi db u db' [Hk ->]%create_run [[A W V] [S1 S2 S3]]. destruct (Hi (next_id (accounts db))) as [Hid Hproxy].
  assert (forall q b, <[k := init (next_id (accounts db))]> (rows (accounts db)) !! q = Some b ->
    q = k /\ b = init (next_id (accounts db)) \/ rows (accounts db) !! q = Some b /\ account_id b < next_id (accounts db)) as Hback.
  { intros q b [[<- <-] | [_ Hb]]%lookup_insert_Some; [by left | right; split; [done | by apply (A q)]]. }
  split; split; try done; cbn.
  - intros q b [[-> ->] | [Hb Hlt]]%Hback; cbn; lia.
  - intros q v Hv. destruct (V q v Hv). cbn. lia.
  - intros a q b [[-> ->] | [Ha Hla]]%Hback [[-> ->] | [Hb Hlb]]%Hback E; [done | lia | lia | by eapply S1].
  - intros a [[_ ->] | [Ha _]]%Hback; [done | by apply S2].
  - intros a x [[_ ->] | [Ha _]]%Hback; [|by apply S3]. destruct (rows (account_witness_votes db) !! _) as [w|] eqn:E; [|done].
    destruct (V _ _ E). cbn in *. lia.
Qed.
Lemma fresh_create_witness k init : (forall id, witness_id (init id) = id) -> preserves keeps_fresh (create witnesses k init).
Proof.
  intros Hi db u db' [_ ->]%create_run [[A W V] HS]. split; [|by destruct HS]. split; [done | |]; cbn.
  - intros q b Hb; cbn in Hb; apply lookup_insert_Some in Hb as [[_ <-] | [_ Hb]]; [rewrite Hi; lia|]. specialize (W q b Hb). cbn in W. lia.
  - intros q v Hv. destruct (V q v Hv). lia.
Qed.
(** A vote of an account other than "null" for a witness *)
Lemma fresh_create_vote k init name a owner w db u db' : create account_witness_votes k init db = Ok (u, db') -> numbers_ok db ->
  name <> STEEMIT_NULL_ACCOUNT -> rows (accounts db) !! name = Some a -> rows (witnesses db) !! owner = Some w ->
  k = (account_id a, witness_id w) -> numbers_ok db'.
Proof.
  intros [_ ->]%create_run [[A W V] [S1 S2 S3]] Hne Ha Hw ->. split; split; try done; cbn.
  - intros q v Hv. cbn in Hv. apply lookup_insert_Some in Hv as [[<- _] | [_ Hv]]; [|by apply (V q v)].
    split; [by apply (A name) | by apply (W owner)].
  - intros b x Hb. rewrite lookup_insert_ne; [by apply S3|]. intros [= E _]. by apply Hne, (S1 b name a).
Qed.
Lemma fresh_remove_vote k : preserves keeps_fresh (remove account_witness_votes k).
Proof.
  intros db u db' (v & _ & ->)%remove_run [[A W V] [S1 S2 S3]]. split; split; try done; cbn.
  - intros q w Hq. cbn in Hq. apply lookup_delete_Some in Hq as [_ Hq]. by apply (V q w).
  - intros a x Ha. apply lookup_delete_None. right. by apply S3.
Qed.
Lemma fresh_push op force : preserves keeps_fresh (push_virtual_operation op force).
Proof. intros db u db' (n & l & ->)%push_virtual_operation_run. apply numbers_ok_same; cbn; eauto. Qed.
#[export] Hint Resolve fresh_push fresh_remove_vote : preserves.

Ltac fresh_rows :=
  match goal with
  | |- preserves _ (modify accounts _ _) =>
      apply fresh_modify_account; let a := fresh "a" in let a' := fresh "a'" in let Ha := fresh "Ha" in
      intros a a' Ha; unfold add_withdraw_requests, add_withdraw_routes, add_delegated, add_received, add_vests, take_fee, settle_withdrawal in Ha;
      cbv zeta in Ha; repeat match type of Ha with (if ?c then _ else _) = Ok _ => destruct c end; inv_ok; repeat case_match;
      (split; [reflexivity | intros ?; first [left; reflexivity | right; reflexivity | exfalso; congruence]])
  | |- preserves _ (modify witnesses _ _) =>
      apply fresh_modify_witness; let a := fresh "a" in let a' := fresh "a'" in let Ha := fresh "Ha" in
      intros a a' Ha; cbv zeta in Ha; inv_ok; repeat case_match; reflexivity
  | |- preserves _ (create accounts _ _) => apply fresh_create_account; by split
  | |- preserves _ (create witnesses _ _) => apply fresh_create_witness; intros; cbv zeta; repeat case_match; reflexivity
  | |- preserves _ (create account_witness_votes _ _) => fail 1
  | |- preserves _ (modify_dgp _) => unfold modify_dgp
  | |- preserves _ (modify _ _ _) => unfold modify at 1
  | |- preserves _ (create _ _ _) => unfold create at 1
  | |- preserves _ (remove _ _) => unfold remove at 1
  | |- preserves _ (on_table _ _) => apply fresh_on_table; intros ? ?; by repeat split
  end.
Ltac fresh_solve := repeat (preserve; try fresh_rows).

Section Fresh.
Context `{F : fc_ops}.

Lemma adjust_balance_fresh name delta : preserves keeps_fresh (adjust_balance name delta).
Proof. unfold adjust_balance, adjust_sbd_balance, accrue_sbd_interest, pay_interest_supply. cbv zeta. fresh_solve. Qed.
Lemma adjust_savings_balance_fresh name delta : preserves keeps_fresh (adjust_savings_balance name delta).
Proof. unfold adjust_savings_balance, accrue_savings_interest, pay_interest_supply. cbv zeta. fresh_solve. Qed.
Lemma adjust_supply_fresh delta v : preserves keeps_fresh (adjust_supply delta v).
Proof. unfold adjust_supply. cbv zeta. fresh_solve. Qed.
Lemma adjust_witness_vote_fresh owner t : preserves keeps_fresh (adjust_witness_vote owner t).
Proof. unfold adjust_witness_vote. cbv zeta. fresh_solve. Qed.
Hint Resolve adjust_balance_fresh adjust_savings_balance_fresh adjust_supply_fresh adjust_witness_vote_fresh : preserves.
Lemma adjust_proxied_fresh r name delta : preserves keeps_fresh (adjust_proxied_witness_votes_at r name delta).
Proof.
  revert name. induction r as [| r IH]; intros name; cbn [adjust_proxied_witness_votes_at]; unfold adjust_witness_votes; fresh_solve.
Qed.
Lemma adjust_array_fresh r name delta : preserves keeps_fresh (adjust_proxied_witness_votes_array r name delta).
Proof.
  revert name. induction r as [| r IH]; intros name; cbn [adjust_proxied_witness_votes_array]; unfold adjust_witness_votes; fresh_solve.
Qed.
Lemma check_proxy_chain_fresh fuel cprox l : preserves keeps_fresh (check_proxy_chain fuel cprox l).
Proof. revert cprox l. induction fuel as [| fuel IH]; intros cprox l; cbn [check_proxy_chain]; cbv zeta; fresh_solve. Qed.
Lemma clear_witness_votes_fresh name : preserves keeps_fresh (clear_witness_votes name).
Proof. unfold clear_witness_votes. fresh_solve. Qed.
Hint Resolve adjust_proxied_fresh adjust_array_fresh check_proxy_chain_fresh clear_witness_votes_fresh : preserves.
Lemma create_vesting_fresh to steem : preserves keeps_fresh (create_vesting to steem).
Proof. unfold create_vesting, adjust_proxied_witness_votes. fresh_solve. Qed.
Lemma create_sbd_fresh to steem : preserves keeps_fresh (create_sbd to steem).
Proof. unfold create_sbd. cbv zeta. fresh_solve. Qed.
#[export] Instance keeps_fresh_paying : paying keeps_fresh.
Proof.
  split; [split; [apply _|..]|..].
  - intros k f Hf. apply fresh_modify_account. intros a a' Ha%Hf. split; [exact (f_equal account_id Ha) | left; exact (f_equal account_proxy Ha)].
  - intros f. apply fresh_on_table; intros ? ?; by repeat split.
  - intros f. apply fresh_on_table; intros ? ?; by repeat split.
  - intros f. apply fresh_on_table; intros ? ?; by repeat split.
  - intros f. unfold modify_dgp; apply fresh_on_table; intros ? ?; by repeat split.
  - intros k f Hf. apply fresh_modify_account. intros a a' Ha%Hf. split; [exact (f_equal account_id Ha) | left; exact (f_equal account_proxy Ha)].
  - intros. apply create_vesting_fresh.
  - intros. apply create_sbd_fresh.
  - intros k f _. unfold modify. apply fresh_on_table; intros ? ?; by repeat split.
  - intros f Hf. unfold modify_dgp; apply fresh_on_table; intros ? ?; by repeat split.
  - intros. apply fresh_push.
Qed.
Lemma pay_fee_fresh name fee : preserves keeps_fresh (pay_fee name fee).
Proof. unfold pay_fee. cbv zeta. fresh_solve. Qed.
Lemma return_escrow_fresh from k : preserves keeps_fresh (return_escrow from k).
Proof. unfold return_escrow. fresh_solve. Qed.
Lemma cancel_order_fresh k : preserves keeps_fresh (cancel_order k).
Proof. unfold cancel_order, get_order. fresh_solve. Qed.
Hint Resolve cancel_order_fresh : preserves.
Lemma fill_order_fresh k pays receives : preserves keeps_fresh (fill_order k pays receives).
Proof. unfold fill_order, get_order. fresh_solve. Qed.
Hint Resolve create_vesting_fresh create_sbd_fresh pay_fee_fresh return_escrow_fresh fill_order_fresh : preserves.
Lemma match_orders_fresh n o : preserves keeps_fresh (match_orders n o).
Proof. unfold match_orders, reward_liquidity, adjust_liquidity_reward, get_order. cbv zeta. fresh_solve. Qed.
Hint Resolve match_orders_fresh : preserves.
Lemma match_all_fresh k l : preserves keeps_fresh (match_all k l).
Proof. induction l as [| x l IH]; cbn [match_all]; fresh_solve. Qed.
Hint Resolve match_all_fresh : preserves.
Lemma apply_order_fresh k : preserves keeps_fresh (apply_order k).
Proof. unfold apply_order, get_order. cbv zeta. fresh_solve. Qed.
Hint Resolve apply_order_fresh : preserves.
Lemma place_order_fresh owner id sell p kill expires : preserves keeps_fresh (place_order owner id sell p kill expires).
Proof. unfold place_order, throw_if_exists_limit_order. fresh_solve. Qed.
Hint Resolve place_order_fresh : preserves.

Lemma create_expiration_fresh d s e : preserves keeps_fresh (create_expiration d s e).
Proof. unfold create_expiration. fresh_solve. Qed.
Hint Resolve create_expiration_fresh : preserves.

Lemma metadata_fresh a j b : preserves keeps_fresh (store_account_json_metadata a j b).
Proof. unfold store_account_json_metadata, store_metadata_for_account. fresh_solve. Qed.
Lemma check_authority_accounts_fresh a : preserves keeps_fresh (check_authority_accounts a).
Proof. unfold check_authority_accounts. fresh_solve. Qed.
Lemma update_owner_authority_fresh name a : preserves keeps_fresh (update_owner_authority name a).
Proof. unfold update_owner_authority, check_authority_exists. fresh_solve. Qed.
Lemma apply_create_extension_fresh name e : preserves keeps_fresh (apply_create_extension name e).
Proof. destruct e. unfold apply_create_extension, apply_referral_options, median_props. fresh_solve. Qed.
Lemma remove_routes_while_fresh from l : preserves keeps_fresh (remove_routes_while from l).
Proof. induction l as [| x l IH]; cbn [remove_routes_while]; cbv zeta; fresh_solve. Qed.
Hint Resolve remove_routes_while_fresh : preserves.
Lemma reset_vesting_withdraw_fresh name : preserves keeps_fresh (reset_vesting_withdraw name).
Proof. unfold reset_vesting_withdraw, stop_withdraw, remove_vesting_routes. fresh_solve. Qed.
Hint Resolve metadata_fresh check_authority_accounts_fresh update_owner_authority_fresh apply_create_extension_fresh
  reset_vesting_withdraw_fresh : preserves.

(** The evaluators and the functions only they call *)
Ltac fresh_evaluator :=
  unfold transfer_evaluator, transfer_to_vesting_evaluator, transfer_to_savings_evaluator, transfer_from_savings_evaluator,
    cancel_transfer_from_savings_evaluator, break_free_referral_evaluator, escrow_transfer_evaluator, escrow_approve_evaluator,
    mark_approval, escrow_dispute_evaluator, escrow_release_evaluator, limit_order_create_evaluator, limit_order_create2_evaluator,
    limit_order_cancel_evaluator, get_limit_order, feed_publish_evaluator, convert_evaluator, withdraw_vesting_evaluator,
    set_withdraw_vesting_route_evaluator, delegate_vesting_shares_evaluator, delegate_vesting_shares_with_interest_evaluator,
    delegate_vesting_shares, median_props, reject_vesting_shares_delegation_evaluator,
    account_witness_proxy_evaluator, set_proxy, adjust_proxied_witness_votes,
    decline_voting_rights_evaluator, account_create_evaluator, account_create_with_delegation_evaluator, create_authority,
    account_update_evaluator, account_metadata_evaluator, challenge_authority_evaluator, pay_challenge, prove_authority_evaluator,
    request_account_recovery_evaluator, recover_account_evaluator, change_recovery_account_evaluator, reset_account_evaluator,
    set_reset_account_evaluator, report_over_production_evaluator, witness_update_evaluator, chain_properties_update_evaluator,
    update_witness, transit_to_cyberway_evaluator, median_props, get_authority; cbv zeta; fresh_solve.

(** A vote names an account and a witness that exist. *)
Lemma account_witness_vote_fresh o : account_witness_vote_account o <> STEEMIT_NULL_ACCOUNT -> preserves keeps_fresh (account_witness_vote_evaluator o).
Proof.
  intros Hne db u db' H Hf. unfold account_witness_vote_evaluator, adjust_proxied_witness_votes in H. inv_run.
  all: repeat match goal with
    | Hf : numbers_ok ?d, H : create account_witness_votes _ _ ?d = Ok (_, _), Hx : rows (accounts ?d) !! _ = Some _, Hw : rows (witnesses ?d) !! _ = Some _ |- _ =>
        eapply fresh_create_vote in H; [| exact Hf | exact Hne | exact Hx | exact Hw | reflexivity]; clear Hf
    | Hf : numbers_ok ?d, H : ?m ?d = Ok (_, _) |- _ => let P := fresh in assert (preserves keeps_fresh m) as P by fresh_solve; apply P in H; specialize (H Hf); clear Hf P
    end; assumption.
Qed.

Lemma evaluator_fresh op m : not_by_null op -> evaluator_of op = Some m -> preserves keeps_fresh m.
Proof.
  intros Hnull Hm. destruct op; try discriminate Hm; injection Hm as <-; cbn in Hnull; try (by apply account_witness_vote_fresh).
  all: fresh_evaluator.
Qed.

Lemma process_withdrawal_fresh from : preserves keeps_fresh (process_withdrawal from).
Proof.
  unfold process_withdrawal, reset_vesting_withdraw, remove_vesting_routes, stop_withdraw, deposit_as_vests, deposit_as_steem,
    push_fill_vesting_withdraw, adjust_proxied_witness_votes. cbv zeta. fresh_solve.
Qed.
Hint Resolve process_withdrawal_fresh : preserves.
Lemma withdrawal_loop_fresh fuel current : preserves keeps_fresh (withdrawal_loop fuel current).
Proof. revert current. induction fuel as [| n IH]; intros current; cbn [withdrawal_loop]; cbv zeta; fresh_solve. Qed.
Hint Resolve withdrawal_loop_fresh : preserves.

Lemma block_step_fresh m : m ∈ block_steps -> preserves keeps_fresh m.
Proof.
  intros Hm. unfold block_steps in Hm. repeat (apply elem_of_cons in Hm as [-> | Hm]); [.. | by apply not_elem_of_nil in Hm].
  - unfold clear_expired_orders. fresh_solve.
  - unfold clear_expired_delegations, return_delegation. cbv zeta. fresh_solve.
  - unfold update_median_feed, scheduled_witnesses, push_scheduled, record_median. cbv zeta. fresh_solve.
  - unfold update_virtual_supply. fresh_solve.
  - unfold clear_null_account_balance, clear_null_balance, clear_null_vesting, burn. cbv zeta. fresh_solve.
  - unfold process_funds, pay_inflation, pay_first_rewards, pay_witness, add_funds, get_content_reward, get_curation_reward,
      get_producer_reward. cbv zeta. fresh_solve.
  - unfold process_conversions, convert_request. fresh_solve.
  - unfold process_vesting_withdrawals. fresh_solve.
  - unfold process_savings_withdraws, complete_savings_withdraw. fresh_solve.
  - unfold pay_liquidity_reward, get_liquidity_reward. fresh_solve.
  - unfold account_recovery_processing, clear_recovery_requests, clear_owner_histories, apply_recovery_changes, apply_recovery_change.
    fresh_solve.
  - unfold expire_escrow_ratification, expire_escrow. fresh_solve.
  - unfold process_decline_voting_rights, decline_voting_rights. fresh_solve.
Qed.

Lemma bookkept_fresh moves db db' : bookkept moves db db' -> keeps_fresh db db'.
Proof.
  intros H. apply numbers_ok_same; [apply (kept_accounts _ _ _ H) | apply (kept_witness_counter _ _ _ H) | | apply (kept_witness_votes _ _ _ H)].
  intros o w' Hw'. pose proof (kept_seats _ _ _ H o) as Hseat. rewrite Hw' in Hseat. inversion Hseat as [w ? [Hid _] Ew |]; subst. eauto.
Qed.
End Fresh.
