(* ===== verification/Tally.v ===== *)
(** * The tallies of witness votes

    Every operation and block step of the ledger keeps the recorded tallies of witness
    votes, which the chain only ever changes by increments, equal to a recount. *)

From S2P Require Import Prelude Exceptions Text Fc Config Asset FlatMap Authority Operations Crypto Validate SignState Transaction BlockId ForkDatabase Objects Database Conservation Sample Transfers Escrow Market Conversion Vesting Preserve Production Schedule Bookkeeping Burning Funds Delegation Accounts Curation Comments Cashout Payout Discussions Hardforks Votes Ledger Identifiers.

(** ** Code that leaves votes alone *)

Lemma frame_on_table {T : Type} (proj : database -> T) `{!FieldSetter proj} f :
  (forall db t, let db' := db <| proj := t |> in
     accounts db' = accounts db /\ witnesses db' = witnesses db /\ account_witness_votes db' = account_witness_votes db /\
     processed_hardforks db' = processed_hardforks db) ->
  preserves votes_frame (on_table proj f).
Proof.
  intros Hp db u db' (t & _ & ->)%on_table_run. destruct (Hp db t) as (Ea & Ew & Ev & Eh).
  destruct (reflexivity db : votes_frame db db). split; by rewrite ?Ea, ?Ew.
Qed.
Lemma frame_push op force : preserves votes_frame (push_virtual_operation op force).
Proof. intros db u db' (n & l & ->)%push_virtual_operation_run. by destruct (reflexivity db : votes_frame db db). Qed.
Lemma frame_modify_witness o f :
  (forall w w', f w = Ok w' -> witness_id w' = witness_id w /\ witness_votes w' = witness_votes w) ->
  preserves votes_frame (modify witnesses o f).
Proof.
  intros Hf db u db' (v & v' & Hv & Hv'%Hf & ->)%modify_run. destruct (reflexivity db : votes_frame db db). split; try done.
  intros k. cbn. destruct (decide (k = o)) as [-> | Hne]; [|by rewrite lookup_insert_ne].
  rewrite Hv, lookup_insert_eq. by constructor.
Qed.
#[export] Hint Resolve frame_push : preserves.

Ltac votes_rows :=
  match goal with
  | |- preserves _ (modify accounts _ _) =>
      apply frame_modify_account; let a := fresh "a" in let a' := fresh "a'" in let Ha := fresh "Ha" in
      intros a a' Ha; unfold add_withdraw_requests, add_withdraw_routes, add_delegated, add_received, take_fee in Ha; cbv zeta in Ha; inv_ok;
      repeat case_match; by repeat split
  | |- preserves _ (modify witnesses _ _) =>
      apply frame_modify_witness; let a := fresh "a" in let a' := fresh "a'" in let Ha := fresh "Ha" in
      intros a a' Ha; cbv zeta in Ha; inv_ok; repeat case_match; by repeat split
  | |- preserves _ (modify_dgp _) => unfold modify_dgp
  | |- preserves _ (modify _ _ _) => unfold modify at 1
  | |- preserves _ (create _ _ _) => unfold create at 1
  | |- preserves _ (remove _ _) => unfold remove at 1
  | |- preserves _ (on_table _ _) => apply frame_on_table; intros ? ?; by repeat split
  end.
Ltac votes_solve := repeat (preserve; try votes_rows).

Section Frames.
Context `{F : fc_ops} {L : fc_laws F} `{C : crypto_ops}.

Lemma adjust_balance_votes_frame name delta : preserves votes_frame (adjust_balance name delta).
Proof. unfold adjust_balance, adjust_sbd_balance, accrue_sbd_interest, pay_interest_supply. cbv zeta. votes_solve. Qed.
Lemma adjust_savings_balance_votes_frame name delta : preserves votes_frame (adjust_savings_balance name delta).
Proof. unfold adjust_savings_balance, accrue_savings_interest, pay_interest_supply. cbv zeta. votes_solve. Qed.
Lemma adjust_supply_votes_frame delta v : preserves votes_frame (adjust_supply delta v).
Proof. unfold adjust_supply. cbv zeta. votes_solve. Qed.
Hint Resolve adjust_balance_votes_frame adjust_savings_balance_votes_frame adjust_supply_votes_frame : preserves.

Lemma transfer_votes_frame o : preserves votes_frame (transfer_evaluator o).
Proof. unfold transfer_evaluator. votes_solve. Qed.
Lemma transfer_to_savings_votes_frame o : preserves votes_frame (transfer_to_savings_evaluator o).
Proof. unfold transfer_to_savings_evaluator. votes_solve. Qed.
Lemma transfer_from_savings_votes_frame o : preserves votes_frame (transfer_from_savings_evaluator o).
Proof. unfold transfer_from_savings_evaluator. cbv zeta. votes_solve. Qed.
Lemma cancel_transfer_from_savings_votes_frame o : preserves votes_frame (cancel_transfer_from_savings_evaluator o).
Proof. unfold cancel_transfer_from_savings_evaluator. cbv zeta. votes_solve. Qed.
Lemma break_free_referral_votes_frame o : preserves votes_frame (break_free_referral_evaluator o).
Proof. unfold break_free_referral_evaluator. cbv zeta. votes_solve. Qed.
Lemma process_savings_withdraws_votes_frame : preserves votes_frame process_savings_withdraws.
Proof. unfold process_savings_withdraws, complete_savings_withdraw. votes_solve. Qed.

Lemma feed_publish_votes_frame o : preserves votes_frame (feed_publish_evaluator o).
Proof. unfold feed_publish_evaluator. votes_solve. Qed.
Lemma convert_votes_frame o : preserves votes_frame (convert_evaluator o).
Proof. unfold convert_evaluator. cbv zeta. votes_solve. Qed.
Lemma process_conversions_votes_frame : preserves votes_frame process_conversions.
Proof. unfold process_conversions, convert_request. votes_solve. Qed.

Lemma cancel_order_votes_frame k : preserves votes_frame (cancel_order k).
Proof. unfold cancel_order, get_order. votes_solve. Qed.
Hint Resolve cancel_order_votes_frame : preserves.
Lemma fill_order_votes_frame k pays receives : preserves votes_frame (fill_order k pays receives).
Proof. unfold fill_order, get_order. votes_solve. Qed.
Hint Resolve fill_order_votes_frame : preserves.
Lemma match_orders_votes_frame n o : preserves votes_frame (match_orders n o).
Proof. unfold match_orders, reward_liquidity, adjust_liquidity_reward, get_order. cbv zeta. votes_solve. Qed.
Hint Resolve match_orders_votes_frame : preserves.
Lemma apply_order_votes_frame k : preserves votes_frame (apply_order k).
Proof.
  unfold apply_order, get_order. cbv zeta. votes_solve.
  match goal with |- preserves _ (match_all _ ?l) => induction l as [| x l IH]; cbn [match_all]; votes_solve end.
Qed.
Hint Resolve apply_order_votes_frame : preserves.
Lemma place_order_votes_frame owner id sell p kill expires : preserves votes_frame (place_order owner id sell p kill expires).
Proof. unfold place_order, throw_if_exists_limit_order. votes_solve. Qed.
Lemma limit_order_create_votes_frame o : preserves votes_frame (limit_order_create_evaluator o).
Proof. unfold limit_order_create_evaluator. apply place_order_votes_frame. Qed.
Lemma limit_order_create2_votes_frame o : preserves votes_frame (limit_order_create2_evaluator o).
Proof. unfold limit_order_create2_evaluator. apply place_order_votes_frame. Qed.
Lemma limit_order_cancel_votes_frame o : preserves votes_frame (limit_order_cancel_evaluator o).
Proof. unfold limit_order_cancel_evaluator, get_limit_order. votes_solve. Qed.
Lemma clear_expired_orders_votes_frame : preserves votes_frame clear_expired_orders.
Proof. unfold clear_expired_orders. votes_solve. Qed.

Lemma return_escrow_votes_frame from k : preserves votes_frame (return_escrow from k).
Proof. unfold return_escrow. votes_solve. Qed.
Hint Resolve return_escrow_votes_frame : preserves.
Lemma escrow_transfer_votes_frame o : preserves votes_frame (escrow_transfer_evaluator o).
Proof. unfold escrow_transfer_evaluator. cbv zeta. votes_solve. Qed.
Lemma escrow_approve_votes_frame o : preserves votes_frame (escrow_approve_evaluator o).
Proof. unfold escrow_approve_evaluator, mark_approval. cbv zeta. votes_solve. Qed.
Lemma escrow_dispute_votes_frame o : preserves votes_frame (escrow_dispute_evaluator o).
Proof. unfold escrow_dispute_evaluator. votes_solve. Qed.
Lemma escrow_release_votes_frame o : preserves votes_frame (escrow_release_evaluator o).
Proof. unfold escrow_release_evaluator. cbv zeta. votes_solve. Qed.
Lemma expire_escrow_ratification_votes_frame : preserves votes_frame expire_escrow_ratification.
Proof. unfold expire_escrow_ratification, expire_escrow. votes_solve. Qed.

Lemma withdraw_vesting_votes_frame o : preserves votes_frame (withdraw_vesting_evaluator o).
Proof. unfold withdraw_vesting_evaluator. cbv zeta. votes_solve. Qed.
Lemma set_withdraw_vesting_route_votes_frame o : preserves votes_frame (set_withdraw_vesting_route_evaluator o).
Proof. unfold set_withdraw_vesting_route_evaluator. cbv zeta. votes_solve. Qed.
Lemma delegate_vesting_shares_votes_frame o : preserves votes_frame (delegate_vesting_shares_evaluator o).
Proof. unfold delegate_vesting_shares_evaluator, delegate_vesting_shares, median_props, create_expiration. cbv zeta. votes_solve. Qed.
Lemma delegate_with_interest_votes_frame o : preserves votes_frame (delegate_vesting_shares_with_interest_evaluator o).
Proof. unfold delegate_vesting_shares_with_interest_evaluator, delegate_vesting_shares, median_props, create_expiration. cbv zeta. votes_solve. Qed.
Lemma reject_delegation_votes_frame o : preserves votes_frame (reject_vesting_shares_delegation_evaluator o).
Proof. unfold reject_vesting_shares_delegation_evaluator, create_expiration. cbv zeta. votes_solve. Qed.
Lemma clear_expired_delegations_votes_frame : preserves votes_frame clear_expired_delegations.
Proof. unfold clear_expired_delegations, return_delegation. cbv zeta. votes_solve. Qed.
Lemma decline_voting_rights_evaluator_votes_frame o : preserves votes_frame (decline_voting_rights_evaluator o).
Proof. unfold decline_voting_rights_evaluator. cbv zeta. votes_solve. Qed.

Lemma update_median_feed_votes_frame : preserves votes_frame update_median_feed.
Proof. unfold update_median_feed, scheduled_witnesses, push_scheduled, record_median. cbv zeta. votes_solve. Qed.
Lemma update_virtual_supply_votes_frame : preserves votes_frame update_virtual_supply.
Proof. unfold update_virtual_supply. votes_solve. Qed.
Lemma pay_liquidity_reward_votes_frame : preserves votes_frame pay_liquidity_reward.
Proof. unfold pay_liquidity_reward, get_liquidity_reward. votes_solve. Qed.
Lemma add_funds_votes_frame v c t : preserves votes_frame (add_funds v c t).
Proof. unfold add_funds. votes_solve. Qed.

(** ** Vesting shares *)

Lemma frame_keeps_run {A : Type} (m : M A) : preserves votes_frame m -> preserves keeps_tallies m.
Proof. intros Hm db a db' H. by eapply frame_keeps, Hm. Qed.

Lemma create_vesting_keeps to steem : preserves keeps_tallies (create_vesting to steem).
Proof.
  intros db v db' H Ht. unfold create_vesting in H. inv_run.
  apply modify_run in Hrun1 as (a & a' & Ha & Ha' & ->). inv_ok.
  eapply (vests_changed to a); [exact Ht | exact Ha | | | | by eapply frame_on_table; [|exact Hrun2] | exact Hrun3]; [done | done |].
  cbn. unfold asset_add in Hrun. inv_ok. by apply safe_add_Ok in Hrun1.
Qed.
Hint Resolve create_vesting_keeps : preserves.

Lemma transfer_to_vesting_keeps o : preserves keeps_tallies (transfer_to_vesting_evaluator o).
Proof.
  unfold transfer_to_vesting_evaluator. cbv zeta. preserve. apply frame_keeps_run, adjust_balance_votes_frame.
Qed.
Lemma pay_witness_keeps wacc pay : preserves keeps_tallies (pay_witness wacc pay).
Proof. unfold pay_witness. preserve. apply frame_keeps_run. votes_solve. Qed.
Lemma process_funds_keeps : preserves keeps_tallies process_funds.
Proof.
  unfold process_funds, pay_inflation, pay_first_rewards, get_content_reward, get_curation_reward, get_producer_reward. cbv zeta.
  preserve; first [apply pay_witness_keeps | apply frame_keeps_run, add_funds_votes_frame | apply frame_keeps_run; votes_solve].
Qed.

(** Shares that are added and followed up the chain *)
Lemma add_vests_keeps to n : preserves keeps_tallies (modify accounts to (add_vests n) ;; adjust_proxied_witness_votes to n).
Proof.
  intros db u db' H Ht. inv_run. apply modify_run in Hrun as (a & a' & Ha & [Hn ->]%add_vests_Ok & ->).
  refine (vests_changed to a _ n _ db _ _ _ Ht Ha _ _ _ (reflexivity _) H); by repeat split.
Qed.

Lemma deposit_as_vests_keeps from n r deposited : preserves keeps_tallies (deposit_as_vests from n r deposited).
Proof.
  unfold deposit_as_vests. destruct (route_auto_vest r); [|preserve].
  do 2 (compose preserves_bind; [preserve|]; intros). compose preserves_bind; [|intros; preserve].
  unfold when. destruct (a >? 0); [|preserve]. compose preserves_bind; [preserve|]. intros to db u db' H Ht. inv_run.
  eapply frame_keeps; [by eapply frame_push|]. eapply add_vests_keeps; [|exact Ht]. by eapply bind_run; eauto.
Qed.
Lemma deposit_as_steem_votes_frame from n r deposited : preserves votes_frame (deposit_as_steem from n r deposited).
Proof. unfold deposit_as_steem, push_fill_vesting_withdraw. votes_solve. Qed.

Lemma settle_withdrawal_shares hf n c a a' : settle_withdrawal hf n c a = Ok a' ->
  same_account a a' /\ account_proxied_vsf_votes a' = account_proxied_vsf_votes a /\
  amount (account_vesting_shares a') = amount (account_vesting_shares a) - n.
Proof.
  unfold settle_withdrawal. intros H. inv_ok. apply safe_sub_Ok in Hrun as ->.
  destruct (_ || _); [destruct hf|]; by repeat split.
Qed.
Lemma withdrawal_amount_nonneg a n : withdrawal_amount a = Ok n -> 0 <= n.
Proof. unfold withdrawal_amount. cbv zeta. intros H. inv_ok. destruct (Z.ltb_spec a1 0); lia. Qed.

Lemma process_withdrawal_keeps from : preserves keeps_tallies (process_withdrawal from).
Proof.
  intros db u db' H Ht. unfold process_withdrawal in H. inv_run.
  all: assert (tallied db4) as Ht4.
  1, 3: eapply frame_keeps; [eapply (preserves_fold_each votes_frame); [intros; apply deposit_as_steem_votes_frame | exact Hrun3]|];
    eapply (preserves_fold_each keeps_tallies); [intros; apply deposit_as_vests_keeps | exact Hrun2 | exact Ht].
  all: apply modify_run in Hrun9 as (a & a' & Ha & (Hsame & Hprox & Hvests)%settle_withdrawal_shares & ->).
  - apply safe_neg_Ok in E4 as ->. eapply frame_keeps; [by eapply frame_push|].
    eapply (vests_changed from a a' (- x0)); [exact Ht4 | exact Ha | exact Hsame | exact Hprox | lia | | exact Hrun0].
    by eapply frame_on_table; [|exact Hrun10].
  - apply withdrawal_amount_nonneg in E2. eapply frame_keeps, Ht4.
    etrans; [apply (frame_insert from a a' (next_id (accounts db4)) db4 Ha)|by eapply frame_on_table; [|exact Hrun10]].
    destruct Hsame. split_and!; [done | done | done | lia | done].
Qed.
Lemma process_vesting_withdrawals_keeps : preserves keeps_tallies process_vesting_withdrawals.
Proof.
  unfold process_vesting_withdrawals. do 2 (compose preserves_bind; [preserve|]; intros).
  revert a0. induction a as [| n IH]; intros [name|]; cbn [withdrawal_loop]; preserve.
  - apply process_withdrawal_keeps.
Qed.
Lemma process_decline_voting_rights_keeps : preserves keeps_tallies process_decline_voting_rights.
Proof. unfold process_decline_voting_rights. preserve. apply decline_voting_rights_keeps. Qed.

(** ** Accounts and witnesses *)

Lemma metadata_votes_frame a j b : preserves votes_frame (store_account_json_metadata a j b).
Proof. unfold store_account_json_metadata, store_metadata_for_account. votes_solve. Qed.
Lemma check_authority_accounts_votes_frame a : preserves votes_frame (check_authority_accounts a).
Proof. unfold check_authority_accounts. votes_solve. Qed.
Lemma update_owner_authority_votes_frame name a : preserves votes_frame (update_owner_authority name a).
Proof. unfold update_owner_authority, check_authority_exists. votes_solve. Qed.
Lemma apply_create_extension_votes_frame name e : preserves votes_frame (apply_create_extension name e).
Proof. destruct e. unfold apply_create_extension, apply_referral_options, median_props. votes_solve. Qed.
Lemma remove_routes_while_votes_frame from l : preserves votes_frame (remove_routes_while from l).
Proof. induction l as [| x l IH]; cbn [remove_routes_while]; cbv zeta; votes_solve. Qed.
Hint Resolve remove_routes_while_votes_frame : preserves.
Lemma reset_vesting_withdraw_votes_frame name : preserves votes_frame (reset_vesting_withdraw name).
Proof. unfold reset_vesting_withdraw, stop_withdraw, remove_vesting_routes. votes_solve. Qed.
Hint Resolve metadata_votes_frame check_authority_accounts_votes_frame update_owner_authority_votes_frame
  apply_create_extension_votes_frame reset_vesting_withdraw_votes_frame : preserves.

Lemma account_update_votes_frame o : preserves votes_frame (account_update_evaluator o).
Proof. unfold account_update_evaluator. cbv zeta. votes_solve. Qed.
Lemma account_metadata_votes_frame o : preserves votes_frame (account_metadata_evaluator o).
Proof. unfold account_metadata_evaluator. votes_solve. Qed.
Lemma prove_authority_votes_frame o : preserves votes_frame (prove_authority_evaluator o).
Proof. unfold prove_authority_evaluator. cbv zeta. votes_solve. Qed.
Lemma request_account_recovery_votes_frame o : preserves votes_frame (request_account_recovery_evaluator o).
Proof. unfold request_account_recovery_evaluator. cbv zeta. votes_solve. Qed.
Lemma recover_account_votes_frame o : preserves votes_frame (recover_account_evaluator o).
Proof. unfold recover_account_evaluator. cbv zeta. votes_solve. Qed.
Lemma change_recovery_account_votes_frame o : preserves votes_frame (change_recovery_account_evaluator o).
Proof. unfold change_recovery_account_evaluator. cbv zeta. votes_solve. Qed.
Lemma account_recovery_processing_votes_frame : preserves votes_frame account_recovery_processing.
Proof.
  unfold account_recovery_processing, clear_recovery_requests, clear_owner_histories, apply_recovery_changes, apply_recovery_change.
  votes_solve.
Qed.
Lemma transit_to_cyberway_votes_frame o : preserves votes_frame (transit_to_cyberway_evaluator o).
Proof. unfold transit_to_cyberway_evaluator. cbv zeta. votes_solve. Qed.
Lemma challenge_authority_keeps o : preserves keeps_tallies (challenge_authority_evaluator o).
Proof.
  unfold challenge_authority_evaluator, pay_challenge. cbv zeta.
  preserve; apply frame_keeps_run; first [apply adjust_balance_votes_frame | votes_solve].
Qed.
Lemma disabled_votes_frame {A : Type} e : preserves votes_frame (throw e : M A).
Proof. votes_solve. Qed.
Lemma report_over_production_votes_frame o : preserves votes_frame (report_over_production_evaluator o).
Proof. unfold report_over_production_evaluator. votes_solve. Qed.

(** *** New ones

    Their numbers are not in use: no vote is theirs or for them. *)
Lemma height_fresh m k a q n : m !! k = None -> height m q n -> height (<[k := a]> m) q n.
Proof.
  intros Hk. induction 1 as [q b Hb Hp | q b n Hb Hp _ IH]; (assert (q <> k) by congruence).
  - eapply height_self; [|done]. by rewrite lookup_insert_ne.
  - eapply height_proxy; [by rewrite lookup_insert_ne | done | done].
Qed.
Lemma height_in m k n : height m k n -> is_Some (m !! k).
Proof. by destruct 1; eexists. Qed.
Lemma no_vote db a x : ids_fresh db -> next_id (accounts db) <= account_id a \/ next_id (witnesses db) <= x -> voted a x db = false.
Proof.
  intros Hf Hx. unfold voted. apply bool_decide_false. intros [v Hv]. apply (fresh_votes _ Hf) in Hv. cbn in Hv. lia.
Qed.

Lemma create_account_tallied k init db u db' : ids_fresh db ->
  (forall id, account_id (init id) = id /\ account_name (init id) = k /\ account_proxy (init id) = "" /\
     account_proxied_vsf_votes (init id) = [0; 0; 0; 0] /\ amount (account_vesting_shares (init id)) = 0) ->
  create accounts k init db = Ok (u, db') -> tallied db -> tallied db'.
Proof.
  intros Hf Hi [Hk ->]%create_run [Hwf [Hp Hv] Hh]. set (a := init (next_id (accounts db))) in *.
  destruct (Hi (next_id (accounts db))) as (Hid & Hname & Hproxy & Hvotes & Hvests). fold a in Hid, Hname, Hproxy, Hvotes, Hvests.
  assert (forall j, share_at a j = 0) as Hshare.
  { intros [| j]; unfold share_at; [done|]. rewrite Hvotes. by do 5 (destruct j as [| j]; [done|]). }
  assert (forall p, p <> "" -> forall j, proxied_share p j a = 0) as Hnew.
  { intros p Hne j. unfold proxied_share. rewrite Hproxy. by destruct p. }
  assert (forall q b, rows (accounts db) !! q = Some b -> account_proxy b <> "" -> account_proxy b <> k) as Hroot.
  { intros q b Hb Hne E. destruct (votes_rooted _ Hwf q) as [n Hn]; [by eexists|]. destruct Hn as [q b' Hb' | q b' n Hb' _ Hn]; simplify_eq.
    apply height_in in Hn as [? ?]. rewrite E in *. congruence. }
  assert (forall q b, <[k := a]> (rows (accounts db)) !! q = Some b -> q = k /\ b = a \/ rows (accounts db) !! q = Some b) as Hback.
  { intros q b [[<- <-] | [_ Hb]]%lookup_insert_Some; auto. }
  assert (forall x, voted a x db = false) as Hnone by (intros x; apply no_vote; [done|]; left; lia).
  split; [split | split | done]; cbn.
  - intros q b [[-> ->] | Hb]%Hback; [by rewrite Hname, Hvotes | by apply (votes_names _ Hwf)].
  - intros q1 q2 b1 b2 [[-> ->] | H1]%Hback [[-> ->] | H2]%Hback E; [done | | | by eapply (votes_ids _ Hwf)].
    + specialize (fresh_accounts _ Hf _ _ H2). cbn. lia.
    + specialize (fresh_accounts _ Hf _ _ H1). cbn. lia.
  - apply (votes_witness_ids _ Hwf).
  - apply (votes_keyed _ Hwf).
  - intros q b x [[-> ->] | Hb]%Hback Hne; [done | by apply (votes_proxied _ Hwf q)].
  - intros q [b [[-> ->] | Hb]%Hback]; [exists O; by eapply height_self; [apply lookup_insert_eq|]|].
    destruct (votes_rooted _ Hwf q) as [n Hn]; [by eexists|]. exists n. by apply height_fresh.
  - intros p b j Hb Hne Hj. rewrite msum_insert_fresh by done. rewrite Hnew by done. apply Hback in Hb as [[-> ->] | Hb].
    + rewrite Hshare, msum_zero; [done|]. intros q b Hb. unfold proxied_share.
      destruct (String.eqb_spec (account_proxy b) k) as [E | _]; [|done]. destruct (Hroot q b Hb); congruence.
    + by rewrite (Hp p b j Hb Hne Hj).
  - intros o x Hx. rewrite msum_insert_fresh by done. unfold cast_share at 1. change (voted a (witness_id x) _) with (voted a (witness_id x) db).
    rewrite Hnone. exact (Hv o x Hx).
Qed.
Lemma create_witness_tallied k init db u db' : ids_fresh db -> (forall id, witness_id (init id) = id /\ witness_votes (init id) = 0) ->
  create witnesses k init db = Ok (u, db') -> tallied db -> tallied db'.
Proof.
  intros Hf Hi [Hk ->]%create_run [Hwf [Hp Hv] Hh]. set (w := init (next_id (witnesses db))) in *.
  destruct (Hi (next_id (witnesses db))) as (Hid & Hvotes). fold w in Hid, Hvotes.
  assert (forall q b, <[k := w]> (rows (witnesses db)) !! q = Some b -> q = k /\ b = w \/ rows (witnesses db) !! q = Some b) as Hback.
  { intros q b [[<- <-] | [_ Hb]]%lookup_insert_Some; auto. }
  destruct Hwf as [W1 W2 W3 W4 W5 W6]. split; [split; try done | split; [done|] | done]; cbn.
  - intros q1 q2 b1 b2 [[-> ->] | H1]%Hback [[-> ->] | H2]%Hback E; [done | | | by eapply W3].
    + specialize (fresh_witnesses _ Hf _ _ H2). cbn. lia.
    + specialize (fresh_witnesses _ Hf _ _ H1). cbn. lia.
  - intros o x [[-> ->] | Hx]%Hback; [|exact (Hv o x Hx)]. rewrite Hvotes, msum_zero; [done|].
    intros q b _. unfold cast_share. change (voted b (witness_id w) _) with (voted b (witness_id w) db). rewrite no_vote; [done | done | right; lia].
Qed.

(** Tallies and numbers *)
Definition keeps_votes (db db' : database) : Prop := numbers_ok db /\ tallied db -> numbers_ok db' /\ tallied db'.
#[local] Instance keeps_votes_preorder : PreOrder keeps_votes.
Proof. unfold keeps_votes. split; [by intros db | intros x y z Hxy Hyz H; auto]. Qed.
Lemma keeps_both {A : Type} (m : M A) : preserves keeps_fresh m -> preserves keeps_tallies m -> preserves keeps_votes m.
Proof. intros Hf Ht db a db' H [Hfresh Htallied]. split; [by eapply Hf | by eapply Ht]. Qed.
Lemma frame_both {A : Type} (m : M A) : preserves keeps_fresh m -> preserves votes_frame m -> preserves keeps_votes m.
Proof. intros Hf Hm. apply keeps_both; [done | by apply frame_keeps_run]. Qed.
Lemma create_account_votes k init :
  (forall id, account_id (init id) = id /\ account_name (init id) = k /\ account_proxy (init id) = "" /\
     account_proxied_vsf_votes (init id) = [0; 0; 0; 0] /\ amount (account_vesting_shares (init id)) = 0) ->
  preserves keeps_votes (create accounts k init).
Proof.
  intros Hi db u db' H [Hf Ht]. split; [|destruct Hf; by eapply create_account_tallied].
  eapply fresh_create_account; [|exact H | exact Hf]. intros id. by destruct (Hi id) as (? & _ & ? & _).
Qed.
Lemma create_witness_votes k init : (forall id, witness_id (init id) = id /\ witness_votes (init id) = 0) ->
  preserves keeps_votes (create witnesses k init).
Proof.
  intros Hi db u db' H [Hf Ht]. split; [|destruct Hf; by eapply create_witness_tallied].
  eapply fresh_create_witness; [|exact H | exact Hf]. intros. by destruct (Hi id).
Qed.

Hint Resolve metadata_fresh check_authority_accounts_fresh apply_create_extension_fresh create_vesting_fresh
  adjust_balance_fresh adjust_savings_balance_fresh adjust_supply_fresh : preserves.
Ltac keeps_votes_rows :=
  match goal with
  | |- preserves _ (create accounts _ _) => apply create_account_votes; intros; by repeat split
  | |- preserves _ (create witnesses _ _) => apply create_witness_votes; intros; cbv zeta; repeat case_match; by repeat split
  | |- preserves _ (create_vesting _ _) => apply keeps_both; [apply create_vesting_fresh | apply create_vesting_keeps]
  | |- preserves _ (_ ≫= _) => fail 1
  | |- preserves _ ?m => apply frame_both; [solve [fresh_solve] | solve [votes_solve]]
  end.
Ltac keeps_votes_solve := repeat (preserve; try keeps_votes_rows).
Lemma account_create_votes o : preserves keeps_votes (account_create_evaluator o).
Proof. unfold account_create_evaluator, create_authority, median_props. cbv zeta. keeps_votes_solve. Qed.
Lemma account_create_with_delegation_votes o : preserves keeps_votes (account_create_with_delegation_evaluator o).
Proof. unfold account_create_with_delegation_evaluator, create_authority, median_props. cbv zeta. keeps_votes_solve. Qed.
Lemma witness_update_votes o : preserves keeps_votes (witness_update_evaluator o).
Proof. unfold witness_update_evaluator, update_witness. cbv zeta. keeps_votes_solve. Qed.
Lemma chain_properties_update_votes o : preserves keeps_votes (chain_properties_update_evaluator o).
Proof. unfold chain_properties_update_evaluator, update_witness. cbv zeta. keeps_votes_solve. Qed.

(** ** The burning of what "null" owns *)

(** "null" passes its shares on to nobody. *)
Lemma burn_shares_votes : preserves keeps_votes (modify accounts STEEMIT_NULL_ACCOUNT (fun a =>
  Ok (a <| account_vesting_shares ::= (fun v => mk_asset 0 (symbol v)) |>))).
Proof.
  intros db u db' H [Hn [Hwf Ht Hh]]. pose proof Hn as [_ [_ Sp Sv]]. split.
  { revert H Hn. apply fresh_modify_account. intros a a' [= <-]. split; [done | by left]. }
  apply modify_run in H as (a & a' & Ha & [= <-] & ->). set (a' := a <| account_vesting_shares ::= _ |>).
  assert (forall x, voted a x db = false) as Hno by (intros x; unfold voted; rewrite (Sv a x Ha); by apply bool_decide_false; intros [? [=]]).
  split; [eapply skeleton_wf; [|exact Hwf]; apply (skeleton_insert _ a a'); [done | by split] | | done].
  eapply tally_ext; [| |apply (tally_update (fun _ _ => 0) (fun _ => 0) _ a a'); done].
  - intros p j Hp Hj. cbv beta. rewrite (Sp a Ha). rewrite (proj2 (String.eqb_neq "" p)) by congruence.
    change (share_at a' (S j)) with (share_at a (S j)). destruct (String.eqb _ p); lia.
  - intros x. cbv beta. by rewrite Hno.
Qed.
Lemma clear_null_account_votes : preserves keeps_votes clear_null_account_balance.
Proof.
  unfold clear_null_account_balance, clear_null_balance, clear_null_vesting, burn. cbv zeta. preserve.
  all: first [apply burn_shares_votes | apply frame_both; [solve [fresh_solve] | solve [votes_solve]]].
Qed.

(** ** Comments and payouts *)

Lemma active_change_shares a a' : active_change a a' -> same_shares a a'.
Proof.
  intros H. split_and!; [exact (f_equal account_name H) | exact (f_equal account_id H) | exact (f_equal account_proxy H)
    | exact (f_equal (fun b => amount (account_vesting_shares b)) H) | exact (f_equal account_proxied_vsf_votes H)].
Qed.
Lemma reward_change_shares a a' : reward_change a a' -> same_shares a a'.
Proof.
  intros H. split_and!; [exact (f_equal account_name H) | exact (f_equal account_id H) | exact (f_equal account_proxy H)
    | exact (f_equal (fun b => amount (account_vesting_shares b)) H) | exact (f_equal account_proxied_vsf_votes H)].
Qed.
#[local] Instance votes_frame_discussing : discussing votes_frame.
Proof.
  split; [apply _|..].
  - intros k f Hf. apply frame_modify_account. intros a a' Ha%Hf. by apply active_change_shares.
  - intros f. apply frame_on_table; intros ? ?; by repeat split.
  - intros f. apply frame_on_table; intros ? ?; by repeat split.
  - intros f. apply frame_on_table; intros ? ?; by repeat split.
  - intros f. unfold modify_dgp. apply frame_on_table; intros ? ?; by repeat split.
Qed.
#[local] Instance keeps_tallies_paying : paying keeps_tallies.
Proof.
  split; [split; [apply _|..]|..].
  1-5: intros; apply frame_keeps_run; first [by apply discussing_account | by apply discussing_comments | by apply discussing_votes
         | by apply discussing_bandwidths | by apply discussing_shares].
  - intros k f Hf. apply frame_keeps_run, frame_modify_account. intros a a' Ha%Hf. by apply reward_change_shares.
  - intros. apply create_vesting_keeps.
  - intros. apply frame_keeps_run. unfold create_sbd. cbv zeta. votes_solve.
  - intros k f _. apply frame_keeps_run. unfold modify. apply frame_on_table; intros ? ?; by repeat split.
  - intros f _. apply frame_keeps_run. unfold modify_dgp. apply frame_on_table; intros ? ?; by repeat split.
  - intros. apply frame_keeps_run, frame_push.
Qed.

(** ** The steps of the ledger *)

#[local] Hint Resolve transfer_votes_frame transfer_to_savings_votes_frame transfer_from_savings_votes_frame
  cancel_transfer_from_savings_votes_frame break_free_referral_votes_frame escrow_transfer_votes_frame escrow_approve_votes_frame
  escrow_dispute_votes_frame escrow_release_votes_frame limit_order_create_votes_frame limit_order_create2_votes_frame limit_order_cancel_votes_frame
  convert_votes_frame feed_publish_votes_frame withdraw_vesting_votes_frame set_withdraw_vesting_route_votes_frame delegate_vesting_shares_votes_frame
  delegate_with_interest_votes_frame reject_delegation_votes_frame decline_voting_rights_evaluator_votes_frame clear_expired_orders_votes_frame
  clear_expired_delegations_votes_frame process_conversions_votes_frame process_savings_withdraws_votes_frame
  expire_escrow_ratification_votes_frame update_median_feed_votes_frame update_virtual_supply_votes_frame
  pay_liquidity_reward_votes_frame : preserves.
#[local] Hint Resolve transfer_to_vesting_keeps account_witness_vote_keeps account_witness_proxy_keeps
  process_vesting_withdrawals_keeps process_decline_voting_rights_keeps process_funds_keeps : preserves.

#[local] Hint Resolve account_update_votes_frame account_metadata_votes_frame prove_authority_votes_frame
  request_account_recovery_votes_frame recover_account_votes_frame change_recovery_account_votes_frame
  account_recovery_processing_votes_frame transit_to_cyberway_votes_frame report_over_production_votes_frame : preserves.
#[local] Hint Resolve challenge_authority_keeps : preserves.

(** Nobody signs for "null", so it neither votes nor takes a proxy. *)
Definition null_conditions : conditions := mk_conditions (fun _ _ => True) (fun _ => True) not_by_null.
Lemma bookkept_votes moves db db' : bookkept moves db db' -> keeps_votes db db'.
Proof.
  intros H [Hn Ht]. split; [by apply (bookkept_fresh _ _ _ H)|]. eapply frame_keeps, Ht.
  split; [| | apply (kept_witness_votes _ _ _ H) | apply (kept_hardforks _ _ _ H)].
  - intros k. rewrite (kept_accounts _ _ _ H). apply (reflexivity db : votes_frame db db).
  - intros o. destruct (kept_seats _ _ _ H o) as [w w' (? & _ & ?)|]; by constructor.
Qed.

Lemma ledger_step_keeps db db' : ledger_step null_conditions db db' -> keeps_votes db db'.
Proof.
  intros [op m d Hval Hm Hnull H | m d Hm _ H | k d _ H | key d Hl H | m d Hm H | size b skip d _ H].
  3: { refine (keeps_both _ _ _ _ _ _ H); by apply cashout_comment_preserves, _. }
  3: { apply process_hardforks_late in H as [(h & n & l & ->) Hmore]; [|done]. intros [[[] []] [[] [] Ht]].
       split; [by split; split|]. split; [by split | by split | lia]. }
  3: { by eapply bookkept_votes, bookkeeping_bookkept. }
  3: { by eapply bookkept_votes, head_update_bookkept. }
  all: enough (preserves keeps_votes m) as P by (by eapply P); clear H.
  - pose proof (evaluator_fresh _ _ Hnull Hm) as Hf. destruct op; try discriminate Hm; injection Hm as <-; cbn in Hval;
      solve [ apply keeps_both; [exact Hf | auto with preserves] | apply frame_both; [exact Hf | auto with preserves]
            | apply frame_both; [exact Hf | apply disabled_votes_frame]
            | apply account_create_votes | apply account_create_with_delegation_votes | apply witness_update_votes
            | apply chain_properties_update_votes ].
  - pose proof (block_step_fresh _ Hm) as Hf. repeat (apply elem_of_cons in Hm as [-> | Hm]); [..|by apply not_elem_of_nil in Hm];
      solve [ apply clear_null_account_votes
            | apply keeps_both; [exact Hf | auto with preserves] | apply frame_both; [exact Hf | auto with preserves] ].
Qed.

(** What a recount finds is what is recorded. *)
Definition recounted (db : database) : Prop :=
  (forall p a j, rows (accounts db) !! p = Some a -> p <> "" -> (j < 4)%nat ->
    nth j (account_proxied_vsf_votes a) 0 = msum (proxied_share p j) (rows (accounts db))) /\
  (forall o x, rows (witnesses db) !! o = Some x ->
    witness_votes x = msum (cast_share db (witness_id x)) (rows (accounts db))).

Lemma tallied_recounted db : tallied db -> recounted db.
Proof.
  intros Ht. destruct (tallied_exact _ Ht) as [Hp Hv]. split.
  - intros p a j Ha Hne Hj. rewrite <- (Hp p a j Ha Hne Hj). unfold share_at. lia.
  - intros o x Hx. rewrite <- (Hv o x Hx). lia.
Qed.
Lemma steps_keep_tallies db db' : rtc (ledger_step null_conditions) db db' -> keeps_votes db db'.
Proof. induction 1 as [db | db1 db2 db3 H12 _ IH]; [done|]. intros H. by apply IH, (ledger_step_keeps _ _ H12). Qed.

(** C3: The tallies of witness votes, which the chain changes by increments along the
    chains of proxies whenever shares, votes or proxies change, are those of a recount:
    from a database where they are, every sequence of validated operations with a modelled
    evaluator, steps of blocks (the burning of the shares of "null" among them), payouts,
    hardforks after 0.17, bookkeeping and moves of the head block leads to one where every
    proxy records, at each of the four distances, the sum of what those that name it hold
    and record, and every witness has exactly the sum of the shares behind the accounts
    that vote for it; proxies never form a cycle, an account with a proxy has no votes of
    its own, and the numbers of accounts and witnesses stay below their counters.  It asks
    that "null", whose shares the chain sets to 0 without a change of the tallies, neither
    votes nor takes a proxy: nobody can sign for it. *)
Theorem tallies_refine_recount db db' :
  ids_fresh db -> tallied db -> null_silent db -> rtc (ledger_step null_conditions) db db' ->
  ids_fresh db' /\ tallied db' /\ null_silent db' /\ recounted db'.
Proof.
  intros Hf Ht Hn Hs. destruct (steps_keep_tallies _ _ Hs) as [[Hf' Hn'] Ht']; [by split|].
  split_and!; [done.. | by apply tallied_recounted].
Qed.
End Frames.

(** ** A run *)

(** Before the first vote or proxy *)
Lemma tallied_start db : rows (account_witness_votes db) = ∅ ->
  map_Forall (fun k a => account_name a = k /\ account_proxied_vsf_votes a = [0; 0; 0; 0] /\ account_proxy a = "") (rows (accounts db)) ->
  map_Forall (fun _ w => witness_votes w = 0) (rows (witnesses db)) ->
  NoDup (account_id <$> (map_to_list (rows (accounts db))).*2) ->
  (forall o1 o2 w1 w2, rows (witnesses db) !! o1 = Some w1 -> rows (witnesses db) !! o2 = Some w2 ->
    witness_id w1 = witness_id w2 -> o1 = o2) ->
  (STEEMIT_HARDFORK_0_3 < length (processed_hardforks db))%nat -> tallied db.
Proof.
  intros Hv Ha Hw Hids Hwids Hh. assert (forall a x, voted a x db = false) as Hnone by (intros a x; unfold voted; by rewrite Hv).
  split; [split | split | done].
  - intros k a Hk. destruct (Ha k a Hk) as (? & E & _). split; [done | by rewrite E].
  - by apply ids_unique.
  - exact Hwids.
  - rewrite Hv. apply map_Forall_empty.
  - done.
  - intros k [a Hk]. exists O. eapply height_self; [done|]. by apply (Ha k a).
  - intros p a j Hp Hne Hj. destruct (Ha p a Hp) as (_ & E & _). rewrite msum_zero.
    + unfold share_at. rewrite E. do 4 (destruct j as [| j]; [done|]). lia.
    + intros k b Hk. unfold proxied_share. destruct (Ha k b Hk) as (_ & _ & ->). by destruct p.
  - intros o x Hx. rewrite (Hw o x Hx), msum_zero; [done|]. intros k b _. unfold cast_share. by rewrite Hnone.
Qed.

Lemma null_silent_start db : tallied db -> rows (account_witness_votes db) = ∅ ->
  map_Forall (fun _ a => account_proxy a = "") (rows (accounts db)) -> null_silent db.
Proof.
  intros Ht Hv Ha. split.
  - intros a k b Hnull Hk E. by eapply (votes_ids _ (tallied_wf _ Ht)).
  - intros a Hnull. exact (Ha _ _ Hnull).
  - intros a x _. by rewrite Hv.
Qed.

Definition sample_witness : witness_object := {|
  witness_id := 0; witness_owner := "bob"; witness_created := sample_time; witness_url := ""; witness_total_missed := 0;
  witness_last_aslot := 0; witness_last_confirmed_block_num := 0; witness_pow_worker := 0; witness_signing_key := 1;
  witness_props := chain_properties_19_default;
  witness_sbd_exchange_rate := mk_price (mk_asset 1000 SBD_SYMBOL) (mk_asset 2000 STEEM_SYMBOL);
  witness_last_sbd_exchange_update := sample_time; witness_votes := 0; witness_schedule := timeshare;
  witness_virtual_last_update := 0; witness_virtual_position := 0; witness_virtual_scheduled_time := 0;
  witness_last_work := 0; witness_running_version := 0; witness_hardfork_version_vote := 0;
  witness_hardfork_time_vote := 0; witness_transit_to_cyberway_vote := 0 |}.
Definition sample_single_voter_database : database :=
  sample_vesting_database <| witnesses := mk_table {["bob" := sample_witness]} 1 |>.
(** As many shares again that do not vote *)
Definition sample_voting_database : database :=
  sample_single_voter_database
    <| accounts ::= (fun t => mk_table (<["dave" := (sample_account 4 "dave" 0 0 1000000000 0)
                                             <| account_next_vesting_withdrawal := 2 ^ 32 - 1 |>]> (rows t)) 5) |>
    <| dgp ::= (fun p => p <| dgp_total_vesting_shares := mk_asset 2000000000 VESTS_SYMBOL |>) |>.

Definition sample_proxy : account_witness_proxy_operation :=
  {| account_witness_proxy_account := "carol"; account_witness_proxy_proxy := "alice" |}.
Definition sample_vote : account_witness_vote_operation :=
  {| account_witness_vote_account := "alice"; account_witness_vote_witness := "bob"; account_witness_vote_approve := true |}.

Ltac start_now :=
  apply tallied_start;
    [ done
    | refine (bool_decide_unpack _ _); by vm_compute
    | refine (bool_decide_unpack _ _); by vm_compute
    | refine (bool_decide_unpack _ _); by vm_compute
    | intros o1 o2 w1 w2; cbn; by intros [<- _]%lookup_singleton_Some [<- _]%lookup_singleton_Some
    | apply Nat.ltb_lt; by vm_compute ].
Lemma sample_tallied : tallied sample_voting_database.
Proof. start_now. Qed.
Lemma sample_single_voter_tallied : tallied sample_single_voter_database.
Proof. start_now. Qed.

(** A chain with the account "null", which owns shares *)
Definition sample_null_voting_database : database :=
  sample_voting_database
    <| accounts ::= (fun t => mk_table (<[STEEMIT_NULL_ACCOUNT := (sample_account 5 STEEMIT_NULL_ACCOUNT 0 0 1000000 0)
                                             <| account_next_vesting_withdrawal := 2 ^ 32 - 1 |>]> (rows t)) 6) |>.
Lemma sample_null_tallied : tallied sample_null_voting_database.
Proof. start_now. Qed.
Lemma sample_null_fresh : ids_fresh sample_null_voting_database.
Proof. split; refine (bool_decide_unpack _ _); by vm_compute. Qed.
Lemma sample_null_silent : null_silent sample_null_voting_database.
Proof. apply null_silent_start; [apply sample_null_tallied | done | refine (bool_decide_unpack _ _); by vm_compute]. Qed.

(** carol makes alice her proxy, alice votes for bob, then the next block burns the shares
    of "null" and pays carol's instalment, a part of it to alice as shares. *)
Lemma tallies_refine_recount_witness :
  let db1 := run_state (account_witness_proxy_evaluator (F := fc_ref) sample_proxy) sample_null_voting_database in
  let db2 := run_state (account_witness_vote_evaluator (F := fc_ref) sample_vote) db1 in
  let db3 := run_state (update_global_dynamic_data (F := fc_ref) (C := crypto_ref) (fun _ => 200) sample_next_block skip_nothing) db2 in
  let db4 := run_state (clear_null_account_balance (F := fc_ref)) db3 in
  let db5 := run_state (process_vesting_withdrawals (F := fc_ref)) db4 in
  (ids_fresh db5 /\ tallied db5 /\ null_silent db5 /\ recounted db5) /\
  option_map witness_votes (rows (witnesses db5) !! "bob") = Some 999250000 /\
  amount (dgp_total_vesting_shares (dgp db4)) = amount (dgp_total_vesting_shares (dgp db3)) - 1000000.
Proof.
  intros db1 db2 db3 db4 db5. split; [|split; vm_compute; reflexivity].
  apply (tallies_refine_recount (F := fc_ref) (C := crypto_ref) sample_null_voting_database db5);
    [apply sample_null_fresh | apply sample_null_tallied | apply sample_null_silent|].
  apply (rtc_l _ _ db1); [|apply (rtc_l _ _ db2); [|apply (rtc_l _ _ db3); [|apply (rtc_l _ _ db4); [|apply rtc_once]]]].
  - refine (operation_step null_conditions _ (op_account_witness_proxy sample_proxy) _ _ _ eq_refl _ _);
      [vm_compute; reflexivity | discriminate | unfold db1; run_now].
  - refine (operation_step null_conditions _ (op_account_witness_vote sample_vote) _ _ _ eq_refl _ _);
      [vm_compute; reflexivity | discriminate | unfold db2; run_now].
  - apply (head_step _ _ (fun _ => 200) sample_next_block skip_nothing); [vm_compute; reflexivity | unfold db3; run_now].
  - refine (block_step null_conditions _ clear_null_account_balance _ _ I _); [unfold block_steps; set_solver | unfold db4; run_now].
  - refine (block_step null_conditions _ process_vesting_withdrawals _ _ I _); [unfold block_steps; set_solver | unfold db5; run_now].
Defined.

(** A withdrawal can stop the chain.  The first pass of a withdrawal adds the shares
    it moves to the witnesses of their new owner before it takes them from those of the
    old one; when one witness has the votes of all shares, it then has, for a moment,
    more votes than there are shares, and the assertion of [adjust_witness_vote] fails,
    although the tallies are right and the same withdrawal runs when some shares do not
    vote. *)
Theorem withdrawal_breaks_vote_bound :
  let run db := run_state (account_witness_vote_evaluator (F := fc_ref) sample_vote)
                  (run_state (account_witness_proxy_evaluator (F := fc_ref) sample_proxy) db) in
  tallied (run sample_single_voter_database) /\
  process_vesting_withdrawals (F := fc_ref) (run sample_single_voter_database) = Throw fc_assert_exception /\
  is_ok (process_vesting_withdrawals (F := fc_ref) (run sample_voting_database)) = true.
Proof.
  intros run. split_and!; [| vm_compute; reflexivity | vm_compute; reflexivity].
  unfold run. pose (db1 := run_state (account_witness_proxy_evaluator (F := fc_ref) sample_proxy) sample_single_voter_database).
  change (tallied (run_state (account_witness_vote_evaluator (F := fc_ref) sample_vote) db1)).
  refine (account_witness_vote_keeps (F := fc_ref) sample_vote db1 tt _ _ _); [run_now|].
  refine (account_witness_proxy_keeps (F := fc_ref) sample_proxy eq_refl sample_single_voter_database tt db1 _ sample_single_voter_tallied).
  unfold db1. run_now.
Qed.
