(* ===== verification/Retally.v ===== *)
(** * Retallies

    Hardforks 2, 3 and 6 count again what the chain otherwise keeps up to date by
    increments: the votes of witnesses and the replies of comments.  Whatever was recorded
    before, they leave the numbers that Tally and Threads show to be kept from then on.
    Hardfork 1 splits the vesting shares. *)

From S2P Require Import Prelude Exceptions Text Fc Config Asset FlatMap Authority Operations Crypto Validate Objects Database Conservation Sample Market Vesting Preserve Schedule Accounts Curation Comments Cashout Payout Discussions Hardforks Forest Votes Ledger Threads Tally.

(** ** A change of all rows of a table *)

Lemma keys_by_id_perm {K V : Type} `{Countable K} (id : V -> Z) (t : table K V) : keys_by_id id t ≡ₚ (map_to_list (rows t)).*1.
Proof. unfold keys_by_id. by rewrite sort_by_perm. Qed.
Lemma keys_by_id_nodup {K V : Type} `{Countable K} (id : V -> Z) (t : table K V) : NoDup (keys_by_id id t).
Proof. rewrite keys_by_id_perm. apply NoDup_fst_map_to_list. Qed.
Lemma elem_of_keys {K V : Type} `{Countable K} (id : V -> Z) (t : table K V) k : k ∈ keys_by_id id t <-> is_Some (rows t !! k).
Proof.
  rewrite keys_by_id_perm, list_elem_of_fmap. split.
  - intros ([k' v] & -> & Hin%elem_of_map_to_list). by eexists.
  - intros [v Hv]. exists (k, v). split; [done | by apply elem_of_map_to_list].
Qed.

Section Rows.
Context {K V : Type} `{Countable K} (proj : database -> table K V) `{!FieldSetter proj}.
Hypothesis get_set : forall db t, proj (db <| proj := t |>) = t.
Hypothesis set_set : forall db t t', (db <| proj := t |>) <| proj := t' |> = db <| proj := t' |>.
Hypothesis set_get : forall db, db <| proj := proj db |> = db.

(** What is left of a loop that changes each row of [keys] *)
Definition changed (f : V -> result V) (keys : list K) (m m' : gmap K V) : Prop :=
  forall k, if decide (k ∈ keys) then exists v v', m !! k = Some v /\ f v = Ok v' /\ m' !! k = Some v' else m' !! k = m !! k.
Lemma for_each_modify_run f keys db u db' : NoDup keys -> for_each (fun k => modify proj k f) keys db = Ok (u, db') ->
  exists m, db' = db <| proj := mk_table m (next_id (proj db)) |> /\ changed f keys (rows (proj db)) m.
Proof.
  intros Hnd. revert db. induction Hnd as [|k keys Hk _ IH]; intros db H1; cbn in H1.
  - apply mret_run in H1 as [_ ->]. exists (rows (proj db)). split.
    { rewrite <- (set_get db) at 1. f_equal. by destruct (proj db). }
    intros k.
    by rewrite decide_False by (apply not_elem_of_nil).
  - apply bind_run in H1 as (u1 & db1 & (v & v' & Hv & Hv' & ->)%modify_run & H1).
    apply IH in H1 as (m & -> & Hm). rewrite get_set in *. rewrite set_set. exists m. split; [done|]. cbn in Hm.
    intros j. specialize (Hm j). destruct (decide (j = k)) as [-> | Hne].
    + rewrite decide_True by left. rewrite decide_False, lookup_insert_eq in Hm by done. eauto.
    + rewrite lookup_insert_ne in Hm by done. destruct (decide (j ∈ keys)).
      * by rewrite decide_True by (by right).
      * rewrite decide_False; [done|]. by intros [? | ?]%elem_of_cons.
Qed.

Lemma for_each_update_runs g keys db : NoDup keys -> (forall k, k ∈ keys -> is_Some (rows (proj db) !! k)) ->
  exists db', for_each (fun k => modify proj k (fun v => Ok (g v))) keys db = Ok (tt, db').
Proof.
  intros Hnd. revert db. induction Hnd as [|k keys Hk _ IH]; intros db Hin; cbn; [by exists db|].
  destruct (Hin k ltac:(left)) as [v Hv]. unfold mbind, M_bind. unfold modify at 1, on_table, table_modify. rewrite Hv. cbn.
  apply IH. intros j Hj. rewrite get_set. cbn. rewrite lookup_insert_ne by congruence. apply Hin. by right.
Qed.

(** All rows *)
Lemma update_all (id : V -> Z) g db u db' :
  for_each (fun k => modify proj k (fun v => Ok (g v))) (keys_by_id id (proj db)) db = Ok (u, db') ->
  db' = db <| proj := mk_table (g <$> rows (proj db)) (next_id (proj db)) |>.
Proof.
  intros (m & -> & Hm)%for_each_modify_run; [|apply keys_by_id_nodup]. assert (m = g <$> rows (proj db)) as ->; [|done].
  apply map_eq. intros k. specialize (Hm k). rewrite lookup_fmap.
  destruct (rows (proj db) !! k) as [v|] eqn:E.
  - rewrite decide_True in Hm by (apply elem_of_keys; by eexists). by destruct Hm as (v0 & v' & [= ->] & [= <-] & ->).
  - rewrite decide_False in Hm; [done|]. rewrite elem_of_keys, E. by intros [? ?].
Qed.
Lemma update_all_runs (id : V -> Z) g db : exists db',
  for_each (fun k => modify proj k (fun v => Ok (g v))) (keys_by_id id (proj db)) db = Ok (tt, db').
Proof. apply for_each_update_runs; [apply keys_by_id_nodup | apply elem_of_keys]. Qed.
End Rows.

(** ** The replies of comments *)

(** *** Counting from nothing, on the forest *)

Definition parent_at (m : forest) (k : string * string) : option (string * string) := m !! k ≫= node_parent.
(** How many of [l] are below [a] *)
Fixpoint counted_below (m : forest) (l : list (string * string)) (a : string * string) : Z :=
  match l with
  | [] => 0
  | j :: l' => (if decide (a ∈ above (parent_at m j) m) then 1 else 0) + counted_below m l' a
  end.
Definition with_children (s : string * string -> Z) (m : forest) : forest := (fun n => n <| node_children := s (node_key n) |>) <$> m.

Lemma with_children_places s m : same_places m (with_children s m).
Proof. intros k. unfold with_children. rewrite lookup_fmap. by destruct (m !! k). Qed.
Lemma counted_below_range m l a : 0 <= counted_below m l a <= Z.of_nat (length l).
Proof. induction l as [|j l IH]; cbn [counted_below length]; [lia|]. case_decide; lia. Qed.
Lemma counted_below_perm m l l' a : l ≡ₚ l' -> counted_below m l a = counted_below m l' a.
Proof. induction 1; cbn [counted_below]; lia. Qed.
Lemma above_same m m' p : same_places m m' -> above p m' = above p m.
Proof. intros Hs. destruct p; [by apply path_same | done]. Qed.
Lemma with_children_step s m p : rooted m -> (forall a, a ∈ above p m -> 0 <= s a < 2 ^ 32 - 1) ->
  add_above 1 p (with_children s m) = with_children (fun a => s a + if decide (a ∈ above p m) then 1 else 0) m.
Proof.
  intros Hr Hs. unfold add_above. rewrite (above_same m) by apply with_children_places. apply map_eq. intros k.
  rewrite lookup_touch. unfold with_children. rewrite !lookup_fmap. destruct (m !! k) as [n|] eqn:E; cbn; [|done].
  destruct (Hr k n E) as (-> & _). case_decide as Ha; [|by rewrite Z.add_0_r].
  change (Some (n <| node_children := to_uint32_wrap (s k + 1) |>) = Some (n <| node_children := s k + 1 |>)).
  unfold to_uint32_wrap. by rewrite Z.mod_small by (specialize (Hs k Ha); lia).
Qed.

(** A node is below [a] when it is [a] or the path from its parent meets [a]. *)
Lemma counted_all m a n : rooted m -> m !! a = Some n -> counted_below m (map_to_list m).*1 a = below (fun _ => 1) m a - 1.
Proof.
  intros Hr Ha.
  transitivity (msum (fun n => if decide (a ∈ above (node_parent n) m) then 1 else 0) m).
  - unfold msum. rewrite map_fold_foldr. assert (Forall (fun kn : (string * string) * node => m !! kn.1 = Some kn.2) (map_to_list m)) as Hall.
    { apply Forall_forall. intros [k v] Hin%elem_of_map_to_list. done. }
    induction Hall as [|[k v] l Hk _ IH]; cbn; [done|]. rewrite IH. unfold parent_at. cbn in Hk. by rewrite Hk.
  - unfold below. rewrite (msum_ext (fun n0 => if decide (a ∈ path m (node_key n0)) then 1 else 0)
      (fun n0 => (if decide (node_key n0 = a) then 1 else 0) + if decide (a ∈ above (node_parent n0) m) then 1 else 0)).
    + assert (forall f g (m0 : forest), msum (fun v => f v + g v) m0 = msum f m0 + msum g m0) as ->.
      { intros f g m0. induction m0 as [|k v m0 Hk IH] using map_ind; [by rewrite !msum_empty|]. rewrite !msum_insert_fresh, IH by done. lia. }
      rewrite (msum_only (fun n0 => if decide (node_key n0 = a) then 1 else 0) m a n Ha).
      * destruct (Hr a n Ha) as (-> & _). rewrite decide_True by done. lia.
      * intros k v Hk Hne. destruct (Hr k v Hk) as (-> & _). by rewrite decide_False.
    + intros k v Hk. destruct (Hr k v Hk) as (-> & _). rewrite (path_above m k v) by done.
      destruct (decide (k = a)) as [-> | Hne].
      * rewrite decide_True by left. rewrite decide_False; [done|]. by apply above_fresh.
      * destruct (decide (a ∈ above (node_parent v) m)) as [Hin | Hin]; [by rewrite decide_True by (by right)|].
        rewrite decide_False; [done|]. intros [-> | ?]%elem_of_cons; done.
Qed.

(** *** The loops of the code *)

Section Children.
Context `{F : fc_ops} {L : fc_laws F}.

(** Only the counters of replies change. *)
Definition same_but_children (c c' : comment_object) : Prop := c' = c <| com_children := com_children c' |>.
#[export] Instance same_but_children_preorder : PreOrder same_but_children.
Proof.
  split; [by intros []|]. intros c c1 c2 E1 E2. unfold same_but_children in *.
  transitivity (c1 <| com_children := com_children c2 |>); [exact E2|]. generalize (com_children c2). intros n. by rewrite E1.
Qed.
Record only_children (db db' : database) : Prop := mk_only_children {
  children_rest : exists t, db' = db <| comments := t |> /\ next_id t = next_id (comments db);
  children_rows k : option_Forall2 same_but_children (rows (comments db) !! k) (rows (comments db') !! k)
}.
#[export] Instance only_children_preorder : PreOrder only_children.
Proof.
  split.
  - intros db. split; [exists (comments db); split; [by destruct db | done]|]. done.
  - intros x y z [(t1 & -> & N1) R1] [(t2 & -> & N2) R2]. split; [exists t2; split; [done | by rewrite N2]|]. intros k.
    by etrans; [apply R1 | apply R2].
Qed.
Lemma children_modify k f : (forall c c', f c = Ok c' -> same_but_children c c') -> preserves only_children (modify comments k f).
Proof.
  intros Hf db u db' (c & c' & Hc & Hc' & ->)%modify_run. split; [by eexists|]. intros j. cbn.
  destruct (decide (j = k)) as [-> | Hne]; [rewrite Hc, lookup_insert_eq; constructor; by apply Hf|].
  by rewrite lookup_insert_ne by done.
Qed.
Lemma for_ancestors_children n d k : preserves only_children (for_ancestors n (add_children d) k).
Proof.
  revert k. induction n as [|n IH]; intros k; cbn [for_ancestors]; unfold get_comment; preserve;
    apply children_modify; intros c c' [= <-]; by destruct c.
Qed.
#[local] Hint Resolve for_ancestors_children : preserves.
Lemma count_comment_children k : preserves only_children (count_comment k).
Proof. unfold count_comment, count_at_ancestors, get_comment. preserve. Qed.

(** The walk over the ancestors ends at the root. *)
Lemma for_ancestors_runs n d k c db : rooted (forest_of db) -> rows (comments db) !! k = Some c -> com_depth c <= Z.of_nat n ->
  exists db', for_ancestors n (add_children d) k db = Ok (tt, db').
Proof.
  revert k c db. induction n as [|n IH]; intros k c db Hr Hc Hd; cbn [for_ancestors];
    unfold mbind, M_bind; unfold modify at 1, on_table, table_modify; rewrite Hc; cbn -[for_ancestors Z.of_nat];
    unfold get_comment at 1, get_row; cbn -[for_ancestors Z.of_nat]; rewrite lookup_insert_eq;
    change (is_root_post (add_children d c)) with (is_root_post c); destruct (is_root_post c) eqn:E; try (by eexists);
    pose proof (root_depth db k c Hr Hc) as Hroot; rewrite E in Hroot; symmetry in Hroot; apply Z.eqb_neq in Hroot;
    destruct (Hr k _ (forest_lookup _ _ _ Hc)) as (_ & H0 & Hp); cbn in Hp, H0; rewrite E in Hp; [lia|].
  destruct Hp as (q & (p & Hp & ->)%forest_lookup_Some & Hdq). cbn in Hdq. change (parent_key (add_children d c)) with (parent_key c).
  assert (parent_key c <> k) as Hne by (intros Ek; rewrite Ek, Hc in Hp; injection Hp as <-; lia).
  unfold get_comment at 1, get_row. cbn [comments rows set_field]. cbn -[for_ancestors]. rewrite lookup_insert_ne, Hp by done. eapply (IH _ p); [| cbn; by rewrite lookup_insert_ne | lia].
  refine (proj1 (walk_step k (fun p => Ok (add_children d p)) (add_below d) db tt _ Hr (fun c c' => _) _ _)); [by intros [= <-] | done |].
  by apply modify_run; exists c, (add_children d c).
Qed.

Lemma count_comment_runs k c db : rooted (forest_of db) -> rows (comments db) !! k = Some c ->
  exists db', count_comment k db = Ok (tt, db') /\ only_children db db' /\
    forest_of db' = add_above 1 (node_parent (node_of c)) (forest_of db).
Proof.
  intros Hr Hc. enough (exists db', count_comment k db = Ok (tt, db') /\ forest_of db' = add_above 1 (node_parent (node_of c)) (forest_of db)) as (db' & Hrun & E).
  { exists db'. split; [done|]. split; [by eapply count_comment_children | done]. }
  unfold count_comment. rewrite (bind_eq _ _ db c db) by (unfold get_comment, get_row; by rewrite Hc). cbn [node_of node_parent].
  destruct (Hr k _ (forest_lookup _ _ _ Hc)) as (_ & _ & Hp). cbn in Hp. destruct (is_root_post c); cbn [negb when].
  - exists db. split; [done|]. symmetry. apply touch_none.
  - destruct Hp as (q & (p & Hp & ->)%forest_lookup_Some & Hd). unfold count_at_ancestors.
    rewrite (bind_eq _ _ db p db) by (unfold get_comment, get_row; by rewrite Hp).
    destruct (for_ancestors_runs (Z.to_nat (com_depth p)) 1 (parent_key c) p db Hr Hp) as (db' & Hrun); [lia|].
    exists db'. split; [done|]. by apply for_ancestors_walk in Hrun as [-> _].
Qed.

(** All comments, one after the other *)
Lemma count_comments_run m s l db : rooted m -> forest_of db = with_children s m -> (forall j, j ∈ l -> is_Some (m !! j)) ->
  (forall a, 0 <= s a /\ s a + Z.of_nat (length l) < 2 ^ 32) ->
  exists db', for_each count_comment l db = Ok (tt, db') /\ only_children db db' /\
    forest_of db' = with_children (fun a => s a + counted_below m l a) m.
Proof.
  revert s db. induction l as [|k l IH]; intros s db Hr Hf Hin Hs; cbn [for_each counted_below].
  - exists db. split; [done|]. split; [done|]. rewrite Hf. unfold with_children. apply map_fmap_ext. intros a n _. by rewrite Z.add_0_r.
  - destruct (Hin k ltac:(left)) as [n Hn]. assert (forest_of db !! k = Some (n <| node_children := s (node_key n) |>)) as Hk.
    { rewrite Hf. unfold with_children. by rewrite lookup_fmap, Hn. }
    apply forest_lookup_Some in Hk as (c & Hc & Ec).
    assert (rooted (forest_of db)) as Hrd by (rewrite Hf; eapply rooted_same, Hr; apply with_children_places).
    destruct (count_comment_runs k c db Hrd Hc) as (db1 & Hrun & Hch & Hf1).
    rewrite Hf, <- Ec in Hf1. cbn [node_parent set_field] in Hf1.
    change (node_parent (n <| node_children := s (node_key n) |>)) with (node_parent n) in Hf1.
    assert (parent_at m k = node_parent n) as Epar by (unfold parent_at; by rewrite Hn). rewrite <- Epar in Hf1.
    rewrite with_children_step in Hf1; [| done | intros a _; specialize (Hs a); cbn [length] in Hs; lia].
    edestruct (IH _ db1 Hr Hf1) as (db' & Hrun' & Hch' & Hf'); [intros j Hj; apply Hin; by right | |].
    { intros a. specialize (Hs a). cbn [length] in Hs. cbn. case_decide; lia. }
    exists db'. rewrite (bind_eq _ _ _ _ _ Hrun). split; [done|]. split; [by etrans|]. rewrite Hf'.
    unfold with_children. apply map_fmap_ext. intros a n0 _. by rewrite Z.add_assoc.
Qed.

(** C7: The replies are counted again.  When the comments form discussions, fewer than 2^32
    of them, hardfork 0.6 always succeeds in recounting the replies: afterwards the counter
    of every comment is the number of comments below it, whatever it was, and nothing else
    of the database has changed. *)
Theorem retally_children_exact db : rooted (forest_of db) -> few_comments db ->
  exists db', retally_comment_children db = Ok (tt, db') /\ db' = db <| comments := comments db' |> /\
    forall k, rows (comments db') !! k =
      (fun c => c <| com_children := below (fun _ => 1) (forest_of db) k - 1 |>) <$> rows (comments db) !! k.
Proof.
  intros Hr Hfew. unfold retally_comment_children. set (l := keys_by_id com_id (comments db)).
  rewrite (bind_eq _ _ db l db) by done.
  destruct (update_all_runs comments ltac:(done) com_id clear_children db) as (db1 & Hrun). fold l in Hrun.
  rewrite (bind_eq _ _ _ _ _ Hrun). apply (update_all comments) in Hrun; [| done | done | by intros []].
  assert (forest_of db1 = with_children (fun _ => 0) (forest_of db)) as Hf1.
  { subst db1. unfold forest_of, with_children. cbn. rewrite <- !map_fmap_compose. by apply map_fmap_ext. }
  assert (only_children db db1) as Hch1.
  { subst db1. split; [by eexists|]. intros k. cbn. rewrite lookup_fmap. destruct (rows (comments db) !! k) as [c|]; constructor. by destruct c. }
  assert (l ≡ₚ (map_to_list (forest_of db)).*1) as Hl.
  { unfold l. rewrite keys_by_id_perm. unfold forest_of. rewrite map_to_list_fmap, <- list_fmap_compose. done. }
  assert (Z.of_nat (length l) < 2 ^ 32) as Hlen by (unfold l; rewrite keys_by_id_perm, length_fmap, length_map_to_list; exact Hfew).
  destruct (count_comments_run (forest_of db) (fun _ => 0) l db1 Hr Hf1) as (db' & Hrun' & Hch & Hf'); [| intros; lia |].
  { intros j Hj. unfold l in Hj. apply elem_of_keys in Hj as [c Hc]. rewrite (forest_lookup _ _ _ Hc). by eexists. }
  exists db'. split; [done|]. assert (only_children db db') as [(t & -> & _) Hrows] by (by etrans). split; [done|]. intros k. specialize (Hrows k). cbn in Hrows.
  destruct (rows (comments db) !! k) as [c|] eqn:Ec; inversion Hrows as [c0 c' E E1 E2 | E1 E2]; subst; cbn; [|done]. rewrite <- E2. f_equal. rewrite E. f_equal.
  assert (forest_of (db <| comments := t |>) !! k = Some (node_of c')) as Hn by (apply forest_lookup; done).
  rewrite Hf' in Hn. unfold with_children in Hn. rewrite lookup_fmap, (forest_lookup _ _ _ Ec) in Hn.
  apply (f_equal (fmap node_children)) in Hn. destruct (Hr k _ (forest_lookup _ _ _ Ec)) as (Ek & _).
  change (Some (0 + counted_below (forest_of db) l (node_key (node_of c))) = Some (com_children c')) in Hn.
  rewrite Ek in Hn. assert (com_children c' = 0 + counted_below (forest_of db) l k) as -> by congruence.
  rewrite <- (counted_all _ k (node_of c) Hr (forest_lookup _ _ _ Ec)). rewrite Z.add_0_l.
  by rewrite (counted_below_perm _ _ _ _ Hl).
Qed.
End Children.

(** ** The votes of witnesses *)

Section WitnessVotes.
Context `{F : fc_ops} {L : fc_laws F}.

(** The vote of one account: nothing, or the shares behind it for each of its witnesses *)
Definition vote_each (r : result Z) (l : list witness_vote_object) : M unit :=
  for_each (fun v => owner ← get_witness_by_id (witness_vote_witness v); weight ← lift r; adjust_witness_vote owner weight) l.
Lemma vote_each_run r l db u db' : vote_each r l db = Ok (u, db') ->
  l = [] /\ db' = db \/
  exists t, r = Ok t /\ for_each (fun v => owner ← get_witness_by_id (witness_vote_witness v); adjust_witness_vote owner t) l db = Ok (u, db').
Proof.
  destruct r as [t | e].
  - intros H. right. exists t. split; [done|]. rewrite <- H. unfold vote_each. clear. revert db.
    induction l as [|v l IH]; intros db; cbn; [done|]. symmetry.
    transitivity (((owner ← get_witness_by_id (witness_vote_witness v); adjust_witness_vote owner t) ;; for_each
      (fun v0 => owner ← get_witness_by_id (witness_vote_witness v0); weight ← lift (Ok t); adjust_witness_vote owner weight) l) db); [done|].
    apply bind_ext. intros _ db1. symmetry. apply IH.
  - destruct l as [|v l]; cbn; [intros [_ ->]%mret_run; by left|]. intros H. exfalso.
    apply bind_run in H as (u1 & db1 & H & _). apply bind_run in H as (o & db2 & _ & H). by apply bind_run in H as (w & db3 & []%lift_run & _).
Qed.
Lemma cast_votes_run name db u db' : cast_votes name db = Ok (u, db') ->
  exists a, rows (accounts db) !! name = Some a /\
    (db' = db /\ (account_proxy a <> "" \/ votes_of (account_id a) db = []) \/
     exists t, account_proxy a = "" /\ witness_vote_weight a = Ok t /\ adjust_witness_votes (account_id a) t db = Ok (u, db')).
Proof.
  unfold cast_votes. intros H. apply bind_run in H as (a & ? & [Ha ->]%get_row_run & H). exists a. split; [done|].
  destruct (String.eqb_spec (account_proxy a) STEEMIT_PROXY_TO_SELF_ACCOUNT) as [Ep | Ep]; cbn [when] in H.
  - apply bind_run in H as (l & ? & [-> ->]%gets_run & H). apply vote_each_run in H as [[-> ->] | (t & Ht & H)]; [left; eauto|].
    right. exists t. split; [done|]. split; [done|]. unfold adjust_witness_votes. by erewrite bind_eq.
  - apply mret_run in H as [_ ->]. left. eauto.
Qed.

(** The loop: each account adds what it casts. *)
Definition cast_at (db : database) (x : Z) (k : string) : Z :=
  match rows (accounts db) !! k with Some a => cast_share db x a | None => 0 end.
Definition still_cast (db : database) (l : list string) (x : Z) : Z := foldr (fun k s => cast_at db x k + s) 0 l.
Lemma still_cast_cons db k l x : still_cast db (k :: l) x = cast_at db x k + still_cast db l x.
Proof. done. Qed.
Lemma still_cast_same db db' l x : accounts db' = accounts db -> account_witness_votes db' = account_witness_votes db ->
  still_cast db' l x = still_cast db l x.
Proof.
  intros Ea Ev. unfold still_cast. induction l as [|k l IH]; cbn; [done|]. rewrite IH. f_equal.
  unfold cast_at, cast_share, voted. by rewrite Ea, Ev.
Qed.
Lemma still_cast_all db x : still_cast db (map_to_list (rows (accounts db))).*1 x = msum (cast_share db x) (rows (accounts db)).
Proof.
  unfold still_cast, msum. rewrite map_fold_foldr.
  assert (Forall (fun ka => rows (accounts db) !! ka.1 = Some ka.2) (map_to_list (rows (accounts db)))) as Hall.
  { apply Forall_forall. intros [k v] Hin%elem_of_map_to_list. done. }
  induction Hall as [|[k v] l Hk _ IH]; cbn; [done|]. rewrite IH. unfold cast_at. cbn in Hk. by rewrite Hk.
Qed.

Lemma unvoted db a x : votes_wf db -> votes_of (account_id a) db = [] -> voted a x db = false.
Proof.
  intros Hwf Hnil. unfold voted. apply bool_decide_eq_false. intros H. apply (votes_of_witnesses db _ _ Hwf) in H.
  rewrite Hnil in H. by apply not_elem_of_nil in H.
Qed.
Lemma adjust_votes_accounts id t db u db' : votes_wf db -> adjust_witness_votes id t db = Ok (u, db') ->
  accounts db' = accounts db /\ account_witness_votes db' = account_witness_votes db.
Proof.
  unfold adjust_witness_votes. intros Hwf H. apply bind_run in H as (l & ? & [-> ->]%gets_run & H).
  apply adjust_each_run in H as (m & n & -> & _); [done | by apply votes_of_nodup | by apply (votes_witness_ids _ Hwf)].
Qed.
Lemma cast_votes_tally e1 l k db u db' : votes_wf db -> cast_votes k db = Ok (u, db') ->
  tally e1 (still_cast db (k :: l)) db ->
  skeleton db db' /\ accounts db' = accounts db /\ account_witness_votes db' = account_witness_votes db /\ tally e1 (still_cast db' l) db'.
Proof.
  intros Hwf (a & Ha & [[-> Hno] | (t & Hp & Ht & H)])%cast_votes_run Htally.
  - split_and!; [done..|]. eapply tally_ext, Htally; [done|]. intros x. rewrite still_cast_cons. unfold cast_at. rewrite Ha. unfold cast_share.
    assert (voted a x db = false) as ->; [|lia]. destruct Hno as [Hp | Hnil]; [by eapply votes_proxied | by apply unvoted].
  - pose proof (skeleton_adjust_witness_votes _ _ _ _ _ H) as Hsk. destruct (adjust_votes_accounts _ _ _ _ _ Hwf H) as [Ea Ev].
    split_and!; [done..|]. eapply adjust_witness_votes_tally in H; [| done | done |].
    + eapply tally_ext, H; [done|]. intros x. rewrite (still_cast_same db); done.
    + eapply tally_ext, Htally; [done|]. intros x. rewrite still_cast_cons. unfold cast_at. rewrite Ha. unfold cast_share.
      destruct (votes_names _ Hwf _ _ Ha) as [_ Hlen]. apply (witness_vote_weight_Ok _ _ Hlen) in Ht as ->. destruct (voted a x db); lia.
Qed.
Lemma cast_all_tally e1 l db u db' : votes_wf db -> for_each cast_votes l db = Ok (u, db') -> tally e1 (still_cast db l) db ->
  skeleton db db' /\ accounts db' = accounts db /\ account_witness_votes db' = account_witness_votes db /\ tally e1 (fun _ => 0) db'.
Proof.
  revert db. induction l as [|k l IH]; intros db Hwf H Htally; cbn in H; [by apply mret_run in H as [_ ->]|].
  apply bind_run in H as (u1 & db1 & H1 & H). eapply cast_votes_tally in H1 as (S1 & A1 & V1 & T1); [| done | done].
  apply IH in H as (S2 & A2 & V2 & T2); [| by eapply skeleton_wf | done]. split_and!; [by etrans | congruence | congruence | done].
Qed.

(** C6: The votes are counted again.  When the retally of hardforks 0.2 and 0.3 returns,
    every witness has exactly the shares behind the accounts that vote for it, whatever was
    recorded before, no witness or account is lost and neither accounts nor votes have
    changed.  If the proxies agree with a recount, all tallies do from hardfork 0.3 on, as
    the operations require. *)
Theorem retally_votes_exact db u db' : votes_wf db -> retally_witness_votes db = Ok (u, db') ->
  skeleton db db' /\ accounts db' = accounts db /\ account_witness_votes db' = account_witness_votes db /\
  (forall o x, rows (witnesses db') !! o = Some x -> witness_votes x = msum (cast_share db' (witness_id x)) (rows (accounts db'))) /\
  ((forall p a j, rows (accounts db) !! p = Some a -> p <> "" -> (j < 4)%nat -> share_at a (S j) = msum (proxied_share p j) (rows (accounts db))) ->
   (STEEMIT_HARDFORK_0_3 < length (processed_hardforks db))%nat -> tallied db').
Proof.
  intros Hwf H. unfold retally_witness_votes in H. apply bind_run in H as (owners & ? & [-> ->]%gets_run & H).
  apply bind_run in H as (u1 & db1 & H1 & H). apply (update_all witnesses) in H1; [| done | done | by intros []].
  apply bind_run in H as (names & ? & [-> ->]%gets_run & H).
  assert (skeleton db db1) as S1.
  { subst db1. split; cbn; try done. intros o. rewrite lookup_fmap. destruct (rows (witnesses db) !! o); by constructor. }
  pose proof (skeleton_wf _ _ S1 Hwf) as Hwf1.
  set (e1 p (j : nat) := match rows (accounts db) !! p with Some a => msum (proxied_share p j) (rows (accounts db)) - share_at a (S j) | None => 0 end).
  assert (accounts db1 = accounts db) as A1 by (by subst). assert (account_witness_votes db1 = account_witness_votes db) as V1 by (by subst).
  destruct (cast_all_tally e1 (keys_by_id account_id (accounts db1)) db1 u db' Hwf1 H) as (S2 & A2 & V2 & [Tp Tv]).
  { split.
    - intros p a j Ha Hne Hj. unfold e1. rewrite A1 in *. rewrite Ha. lia.
    - intros o x Hx. assert (witness_votes x = 0) as ->.
      { subst db1. cbn in Hx. rewrite lookup_fmap in Hx. by apply fmap_Some in Hx as (x0 & _ & ->). }
      rewrite <- still_cast_all. unfold still_cast. apply (sum_perm (cast_at db1 (witness_id x))), keys_by_id_perm. }
  split_and!; [by etrans | congruence | congruence | intros o x Hx; rewrite <- (Tv o x Hx); lia |].
  intros Hprox Hhf. split.
  - by eapply skeleton_wf, Hwf1.
  - split; [|done]. intros p a j Ha Hne Hj. rewrite A2, A1 in *. rewrite (Hprox p a j) by done. lia.
  - rewrite (skeleton_hardforks _ _ S2), (skeleton_hardforks _ _ S1). done.
Qed.
End WitnessVotes.

(** ** The split of vesting shares *)

Section Split.
Context `{F : fc_ops} {L : fc_laws F}.

(** Only comments and the total of reward shares change. *)
Definition only_talk (db db' : database) : Prop :=
  exists t n, db' = db <| comments := t |> <| dgp ::= (fun p => p <| dgp_total_reward_shares2 := n |>) |>.
#[export] Instance only_talk_preorder : PreOrder only_talk.
Proof.
  split.
  - intros db. exists (comments db), (dgp_total_reward_shares2 (dgp db)). destruct db. by destruct dgp.
  - intros x y z (t1 & n1 & ->) (t2 & n2 & ->). by exists t2, n2.
Qed.
Lemma talk_comments k f : preserves only_talk (modify comments k f).
Proof.
  intros db u db' (c & c' & _ & _ & ->)%modify_run. 
  exists (mk_table (<[k := c']> (rows (comments db))) (next_id (comments db))), (dgp_total_reward_shares2 (dgp db)). destruct db. by destruct dgp.
Qed.
Lemma talk_shares g : preserves only_talk (modify_dgp (fun p => Ok (p <| dgp_total_reward_shares2 ::= g |>))).
Proof.
  intros db u db' (p & [= <-] & ->)%on_table_run. exists (comments db), (g (dgp_total_reward_shares2 (dgp db))). by destruct db.
Qed.
#[local] Hint Resolve talk_comments talk_shares : preserves.
Lemma adjust_rshares2_at_talk n k old new : preserves only_talk (adjust_rshares2_at n k old new).
Proof. revert k. induction n as [|n IH]; intros k; cbn [adjust_rshares2_at]; unfold get_comment; preserve; apply talk_shares. Qed.
#[local] Hint Resolve adjust_rshares2_at_talk : preserves.
Lemma split_comments_talk magnitude keys keys' : preserves only_talk
  (for_each (fun k => modify comments k (split_comment magnitude)) keys ;; for_each reshare_comment keys').
Proof. unfold reshare_comment, adjust_rshares2, calculate_vshares, get_comment. preserve. Qed.

Lemma msum_scale {K V : Type} `{Countable K} (c : Z) (f : V -> Z) (m : gmap K V) : msum (fun v => c * f v) m = c * msum f m.
Proof. induction m as [|k v m Hk IH] using map_ind; [rewrite !msum_empty; lia|]. rewrite !msum_insert_fresh by done. lia. Qed.
(** What the split does to an account *)
Record scaled (magnitude : Z) (a a' : account_object) : Prop := mk_scaled {
  scaled_vests : account_vesting_shares a' = mk_asset (magnitude * amount (account_vesting_shares a)) (symbol (account_vesting_shares a));
  scaled_fits : is_int64 (magnitude * amount (account_vesting_shares a)) = true;
  scaled_withdrawn : account_withdrawn a' = magnitude * account_withdrawn a;
  scaled_to_withdraw : account_to_withdraw a' = magnitude * account_to_withdraw a;
  scaled_rate : account_vesting_withdraw_rate a' =
    mk_asset (let r := Z.quot (magnitude * account_to_withdraw a) STEEMIT_VESTING_WITHDRAW_INTERVALS_PRE_HF_16 in if r =? 0 then 1 else r) VESTS_SYMBOL;
  scaled_proxied : account_proxied_vsf_votes a' = (fun x => magnitude * x) <$> account_proxied_vsf_votes a;
  scaled_rest : a' = a <| account_vesting_shares := account_vesting_shares a' |> <| account_withdrawn := account_withdrawn a' |>
    <| account_to_withdraw := account_to_withdraw a' |> <| account_vesting_withdraw_rate := account_vesting_withdraw_rate a' |>
    <| account_proxied_vsf_votes := account_proxied_vsf_votes a' |>
}.
Lemma safe_mul_scale x m y : safe_mul x m = Ok y -> y = m * x /\ is_int64 (m * x) = true.
Proof. rewrite safe_mul_law, Z.mul_comm. case_match; [|done]. by intros [= <-]. Qed.
Lemma scale_all_Ok m l l' : scale_all m l = Ok l' -> l' = (fun x => m * x) <$> l.
Proof.
  revert l'. induction l as [|x l IH]; intros l' H; cbn in H; inv_ok; [done|]. cbn. apply safe_mul_scale in Hrun as [-> _]. f_equal. by apply IH.
Qed.
Lemma split_account_scaled m a a' : split_account m a = Ok a' -> scaled m a a'.
Proof.
  unfold split_account. intros H. inv_ok.
  repeat match goal with Hm : safe_mul _ _ = Ok _ |- _ => apply safe_mul_scale in Hm as [-> ?] end.
  match goal with Hs : scale_all _ _ = Ok _ |- _ => apply scale_all_Ok in Hs as -> end.
  match goal with Hd : safe_div _ _ = Ok _ |- _ => rewrite safe_div_law in Hd by done; case_match; [injection Hd as <- | done] end.
  by split.
Qed.

Lemma split_run magnitude db u db' : perform_vesting_share_split magnitude db = Ok (u, db') ->
  exists m t n, db' = db <| accounts := mk_table m (next_id (accounts db)) |> <| comments := t |>
      <| dgp ::= (fun p => p <| dgp_total_vesting_shares ::= (fun v => mk_asset (magnitude * amount v) (symbol v)) |>
                             <| dgp_total_reward_shares2 := n |>) |> /\
    forall k, option_Forall2 (scaled magnitude) (rows (accounts db) !! k) (m !! k).
Proof.
  intros H. unfold perform_vesting_share_split in H.
  apply bind_run in H as (u1 & db1 & (p & Hp & ->)%on_table_run & H). inv_ok. apply safe_mul_scale in Hrun as [-> _].
  apply bind_run in H as (names & ? & [-> ->]%gets_run & H). apply bind_run in H as (u2 & db2 & H2 & H).
  apply bind_run in H as (keys & ? & [-> ->]%gets_run & H).
  apply (for_each_modify_run accounts) in H2 as (m & -> & Hm); [| done | done | by intros [] | apply keys_by_id_nodup].
  apply split_comments_talk in H as (t & n & ->). exists m, t, n. split; [done|].
  intros k. specialize (Hm k). cbn in Hm. destruct (rows (accounts db) !! k) as [a|] eqn:E.
  - rewrite decide_True in Hm by (apply elem_of_keys; by eexists). destruct Hm as (a0 & a' & [= ->] & Ha' & ->).
    constructor. by apply split_account_scaled.
  - rewrite decide_False in Hm by (rewrite elem_of_keys; cbn; rewrite E; by intros [? ?]). rewrite Hm. constructor.
Qed.

(** A split changes what a share is worth and nothing else of who owns what.  When the
    split of hardfork 0.1 returns, the total and the shares, the withdrawals and the
    proxied votes of every account are exactly the old ones times the factor, without
    overflow, so that the sum of the accounts' shares agrees with the total as it did;
    weekly rates are recomputed and are at least one; no account is lost and its other
    fields stay.  The votes of witnesses are not scaled: hardfork 0.2 counts them again. *)
Theorem split_scales_shares magnitude db u db' : perform_vesting_share_split magnitude db = Ok (u, db') ->
  dgp_total_vesting_shares (dgp db') =
    mk_asset (magnitude * amount (dgp_total_vesting_shares (dgp db))) (symbol (dgp_total_vesting_shares (dgp db))) /\
  (forall k, option_Forall2 (scaled magnitude) (rows (accounts db) !! k) (rows (accounts db') !! k)) /\
  msum (fun a => amount (account_vesting_shares a)) (rows (accounts db')) =
    magnitude * msum (fun a => amount (account_vesting_shares a)) (rows (accounts db)) /\
  witnesses db' = witnesses db /\ account_witness_votes db' = account_witness_votes db.
Proof.
  intros (m & t & n & -> & Hrows)%split_run. cbn. split_and!; [done | done | | done | done].
  rewrite <- msum_scale. apply (msum_related _ _ (scaled magnitude)); [|done]. intros a a' Hs. by rewrite (scaled_vests _ _ _ Hs).
Qed.
End Split.

(** ** Runs *)

(** The discussion of Threads with wrong counters *)
Definition sample_miscounted : database :=
  sample_voted <| comments ::= (fun t => mk_table ((fun c => c <| com_children := 7 |>) <$> rows t) (next_id t)) |>.
Lemma sample_miscounted_rooted : rooted (forest_of sample_miscounted).
Proof.
  destruct (counted_steps (F := fc_ref) sample_talk_database sample_voted) as (_ & _ & Hc);
    [apply Nat.ltb_lt; vm_compute; reflexivity | vm_compute; reflexivity | apply sample_talk_counted | apply sample_talk_steps |].
  apply counted_rooted in Hc. revert Hc. apply rooted_same. unfold sample_miscounted. generalize sample_voted. intros db k.
  unfold forest_of. cbn. rewrite <- map_fmap_compose, !lookup_fmap. by destruct (rows (comments db) !! k).
Qed.
Lemma retally_children_exact_witness : exists db', retally_comment_children sample_miscounted = Ok (tt, db') /\
  com_children <$> rows (comments db') !! ("bob", "post") = Some 1 /\ com_children <$> rows (comments db') !! ("alice", "re-post") = Some 0.
Proof.
  destruct (retally_children_exact sample_miscounted sample_miscounted_rooted) as (db' & Hrun & _ & Hrows); [vm_compute; reflexivity|].
  exists db'. split; [exact Hrun|]. rewrite !Hrows. split; vm_compute; reflexivity.
Defined.

(** carol makes alice her proxy, who votes for bob, who is recorded with other votes. *)
Definition sample_proxied : database := run_state (account_witness_proxy_evaluator (F := fc_ref) sample_proxy) sample_voting_database.
Definition sample_counted_votes : database := run_state (account_witness_vote_evaluator (F := fc_ref) sample_vote) sample_proxied.
Definition sample_misvoted : database :=
  sample_counted_votes <| witnesses ::= (fun t => mk_table ((fun w => w <| witness_votes := 77 |>) <$> rows t) (next_id t)) |>.
Lemma sample_misvoted_wf : votes_wf sample_misvoted.
Proof.
  assert (tallied sample_counted_votes) as Ht.
  { refine (account_witness_vote_keeps (F := fc_ref) sample_vote sample_proxied tt _ _ _); [unfold sample_counted_votes; run_now|].
    refine (account_witness_proxy_keeps (F := fc_ref) sample_proxy eq_refl sample_voting_database tt _ _ sample_tallied). unfold sample_proxied. run_now. }
  eapply skeleton_wf, (tallied_wf _ Ht). unfold sample_misvoted. generalize sample_counted_votes. intros db. split; cbn; try done.
  intros o. rewrite lookup_fmap. destruct (rows (witnesses db) !! o); by constructor.
Qed.
Definition sample_retallied : database := run_state (retally_witness_votes (F := fc_ref)) sample_misvoted.
Lemma retally_votes_exact_witness :
  witness_votes <$> rows (witnesses sample_retallied) !! "bob" = Some 1000000000 /\
  forall o x, rows (witnesses sample_retallied) !! o = Some x ->
    witness_votes x = msum (cast_share sample_retallied (witness_id x)) (rows (accounts sample_retallied)).
Proof.
  split; [vm_compute; reflexivity|].
  destruct (retally_votes_exact (F := fc_ref) sample_misvoted tt sample_retallied sample_misvoted_wf) as (_ & _ & _ & H & _); [unfold sample_retallied; run_now|].
  exact H.
Defined.

(** The split on the accounts of the vesting example *)
Definition sample_split : database := run_state (perform_vesting_share_split (F := fc_ref) 10000) sample_vesting_database.
Lemma split_scales_shares_witness :
  dgp_total_vesting_shares (dgp sample_split) = mk_asset 10000000000000 VESTS_SYMBOL /\
  msum (fun a => amount (account_vesting_shares a)) (rows (accounts sample_split)) =
    10000 * msum (fun a => amount (account_vesting_shares a)) (rows (accounts sample_vesting_database)).
Proof.
  destruct (split_scales_shares (F := fc_ref) 10000 sample_vesting_database tt sample_split) as (H1 & _ & H2 & _); [unfold sample_split; run_now|].
  split; [rewrite H1; vm_compute; reflexivity | exact H2].
Defined.
