(* ===== verification/Clock.v ===== *)
(** * What operations leave to the block

    No operation and no step that moves value touches the head block, its time, the last
    irreversible block, the applied hardforks, the known transactions or the summaries of
    blocks: these belong to the application of blocks and transactions. *)

From S2P Require Import Prelude Exceptions Text Fc Config Asset FlatMap Authority Operations Crypto Validate SignState Transaction BlockId ForkDatabase Objects Database Conservation Sample Transfers Escrow Market Conversion Vesting Preserve Production Schedule Bookkeeping Burning Funds Delegation Accounts Curation Comments Cashout Payout Discussions Hardforks Votes Ledger.

Record same_clock (db db' : database) : Prop := mk_same_clock {
  same_time : dgp_time (dgp db') = dgp_time (dgp db);
  same_head : dgp_head_block_number (dgp db') = dgp_head_block_number (dgp db);
  same_head_id : dgp_head_block_id (dgp db') = dgp_head_block_id (dgp db);
  same_irreversible : dgp_last_irreversible_block_num (dgp db') = dgp_last_irreversible_block_num (dgp db);
  same_hardforks : hardforks db' = hardforks db;
  same_transactions : transactions db' = transactions db;
  same_summaries : block_summaries db' = block_summaries db
}.
#[export] Instance same_clock_preorder : PreOrder same_clock.
Proof. split; [by split|]. intros x y z [] []. split; congruence. Qed.

Lemma clock_on_table {T : Type} (proj : database -> T) `{!FieldSetter proj} f :
  (forall db t, same_clock db (db <| proj := t |>)) -> preserves same_clock (on_table proj f).
Proof. intros Hp db u db' (t & _ & ->)%on_table_run. apply Hp. Qed.
Lemma clock_modify_dgp f :
  (forall p p', f p = Ok p' -> dgp_time p' = dgp_time p /\ dgp_head_block_number p' = dgp_head_block_number p /\
     dgp_head_block_id p' = dgp_head_block_id p /\ dgp_last_irreversible_block_num p' = dgp_last_irreversible_block_num p) ->
  preserves same_clock (modify_dgp f).
Proof. intros Hf db u db' (p & (? & ? & ? & ?)%Hf & ->)%on_table_run. by split. Qed.
Lemma clock_push op force : preserves same_clock (push_virtual_operation op force).
Proof. by intros db u db' (n & l & ->)%push_virtual_operation_run. Qed.
#[export] Hint Resolve clock_push : preserves.

(** The changes of tables *)
Ltac clock_rows :=
  match goal with
  | |- preserves _ (modify_dgp _) =>
      apply clock_modify_dgp; let p := fresh "p" in let p' := fresh "p'" in let Hp := fresh "Hp" in
      intros p p' Hp; cbv zeta in Hp; repeat match type of Hp with (if ?c then _ else _) = Ok _ => destruct c end; inv_ok;
      repeat (match goal with Hq : (if ?c then _ else _) = Ok _ |- _ => destruct c end; inv_ok); by split_and!
  | |- preserves _ (modify _ _ _) => unfold modify at 1
  | |- preserves _ (create _ _ _) => unfold create at 1
  | |- preserves _ (remove _ _) => unfold remove at 1
  | |- preserves _ (on_table _ _) => apply clock_on_table; intros ? ?; by split
  end.
Ltac clock_solve := repeat (preserve; try clock_rows).

Section Clock.
Context `{F : fc_ops}.

Lemma adjust_balance_clock name delta : preserves same_clock (adjust_balance name delta).
Proof. unfold adjust_balance, adjust_sbd_balance, accrue_sbd_interest, pay_interest_supply. cbv zeta. clock_solve. Qed.
Lemma adjust_savings_balance_clock name delta : preserves same_clock (adjust_savings_balance name delta).
Proof. unfold adjust_savings_balance, accrue_savings_interest, pay_interest_supply. cbv zeta. clock_solve. Qed.
Lemma adjust_supply_clock delta v : preserves same_clock (adjust_supply delta v).
Proof. unfold adjust_supply. cbv zeta. clock_solve. Qed.
Lemma adjust_witness_vote_clock owner t : preserves same_clock (adjust_witness_vote owner t).
Proof. unfold adjust_witness_vote. cbv zeta. clock_solve. Qed.
Hint Resolve adjust_balance_clock adjust_savings_balance_clock adjust_supply_clock adjust_witness_vote_clock : preserves.
Lemma adjust_proxied_clock r name delta : preserves same_clock (adjust_proxied_witness_votes_at r name delta).
Proof.
  revert name. induction r as [| r IH]; intros name; cbn [adjust_proxied_witness_votes_at]; unfold adjust_witness_votes; clock_solve.
Qed.
Lemma adjust_array_clock r name delta : preserves same_clock (adjust_proxied_witness_votes_array r name delta).
Proof.
  revert name. induction r as [| r IH]; intros name; cbn [adjust_proxied_witness_votes_array]; unfold adjust_witness_votes; clock_solve.
Qed.
Lemma check_proxy_chain_clock fuel cprox l : preserves same_clock (check_proxy_chain fuel cprox l).
Proof. revert cprox l. induction fuel as [| fuel IH]; intros cprox l; cbn [check_proxy_chain]; cbv zeta; clock_solve. Qed.
Lemma clear_witness_votes_clock name : preserves same_clock (clear_witness_votes name).
Proof. unfold clear_witness_votes. clock_solve. Qed.
Hint Resolve adjust_proxied_clock adjust_array_clock check_proxy_chain_clock clear_witness_votes_clock : preserves.
Lemma create_vesting_clock to steem : preserves same_clock (create_vesting to steem).
Proof. unfold create_vesting, adjust_proxied_witness_votes. clock_solve. Qed.
Lemma create_sbd_clock to steem : preserves same_clock (create_sbd to steem).
Proof. unfold create_sbd. cbv zeta. clock_solve. Qed.
#[export] Instance same_clock_paying : paying same_clock.
Proof.
  split; [split; [apply _|..]|..].
  - intros k f Hf. unfold modify. apply clock_on_table; intros ? ?; by split.
  - intros f. apply clock_on_table; intros ? ?; by repeat split.
  - intros f. apply clock_on_table; intros ? ?; by repeat split.
  - intros f. apply clock_on_table; intros ? ?; by repeat split.
  - intros f. apply clock_modify_dgp; by intros ? ? [= <-].
  - intros k f Hf. unfold modify. apply clock_on_table; intros ? ?; by split.
  - intros. apply create_vesting_clock.
  - intros. apply create_sbd_clock.
  - intros k f _. unfold modify. apply clock_on_table; intros ? ?; by repeat split.
  - intros f Hf. apply clock_modify_dgp; intros p p' Hp; destruct (Hf p p' Hp) as [n ->]; by split_and!.
  - intros. apply clock_push.
Qed.
Lemma pay_fee_clock name fee : preserves same_clock (pay_fee name fee).
Proof. unfold pay_fee. cbv zeta. clock_solve. Qed.
Lemma return_escrow_clock from k : preserves same_clock (return_escrow from k).
Proof. unfold return_escrow. clock_solve. Qed.
Lemma cancel_order_clock k : preserves same_clock (cancel_order k).
Proof. unfold cancel_order, get_order. clock_solve. Qed.
Hint Resolve cancel_order_clock : preserves.
Lemma fill_order_clock k pays receives : preserves same_clock (fill_order k pays receives).
Proof. unfold fill_order, get_order. clock_solve. Qed.
Hint Resolve create_vesting_clock create_sbd_clock pay_fee_clock return_escrow_clock fill_order_clock : preserves.
Lemma match_orders_clock n o : preserves same_clock (match_orders n o).
Proof. unfold match_orders, reward_liquidity, adjust_liquidity_reward, get_order. cbv zeta. clock_solve. Qed.
Hint Resolve match_orders_clock : preserves.
Lemma match_all_clock k l : preserves same_clock (match_all k l).
Proof. induction l as [| x l IH]; cbn [match_all]; clock_solve. Qed.
Hint Resolve match_all_clock : preserves.
Lemma apply_order_clock k : preserves same_clock (apply_order k).
Proof. unfold apply_order, get_order. cbv zeta. clock_solve. Qed.
Hint Resolve apply_order_clock : preserves.
Lemma place_order_clock owner id sell p kill expires : preserves same_clock (place_order owner id sell p kill expires).
Proof. unfold place_order, throw_if_exists_limit_order. clock_solve. Qed.
Hint Resolve place_order_clock : preserves.

Lemma create_expiration_clock d s e : preserves same_clock (create_expiration d s e).
Proof. unfold create_expiration. clock_solve. Qed.
Hint Resolve create_expiration_clock : preserves.

Lemma metadata_clock a j b : preserves same_clock (store_account_json_metadata a j b).
Proof. unfold store_account_json_metadata, store_metadata_for_account. clock_solve. Qed.
Lemma check_authority_accounts_clock a : preserves same_clock (check_authority_accounts a).
Proof. unfold check_authority_accounts. clock_solve. Qed.
Lemma update_owner_authority_clock name a : preserves same_clock (update_owner_authority name a).
Proof. unfold update_owner_authority, check_authority_exists. clock_solve. Qed.
Lemma apply_create_extension_clock name e : preserves same_clock (apply_create_extension name e).
Proof. destruct e. unfold apply_create_extension, apply_referral_options, median_props. clock_solve. Qed.
Lemma remove_routes_while_clock from l : preserves same_clock (remove_routes_while from l).
Proof. induction l as [| x l IH]; cbn [remove_routes_while]; cbv zeta; clock_solve. Qed.
Hint Resolve remove_routes_while_clock : preserves.
Lemma reset_vesting_withdraw_clock name : preserves same_clock (reset_vesting_withdraw name).
Proof. unfold reset_vesting_withdraw, stop_withdraw, remove_vesting_routes. clock_solve. Qed.
Hint Resolve metadata_clock check_authority_accounts_clock update_owner_authority_clock apply_create_extension_clock
  reset_vesting_withdraw_clock : preserves.

(** The evaluators and the functions only they call *)
Ltac clock_evaluator :=
  unfold transfer_evaluator, transfer_to_vesting_evaluator, transfer_to_savings_evaluator, transfer_from_savings_evaluator,
    cancel_transfer_from_savings_evaluator, break_free_referral_evaluator, escrow_transfer_evaluator, escrow_approve_evaluator,
    mark_approval, escrow_dispute_evaluator, escrow_release_evaluator, limit_order_create_evaluator, limit_order_create2_evaluator,
    limit_order_cancel_evaluator, get_limit_order, feed_publish_evaluator, convert_evaluator, withdraw_vesting_evaluator,
    set_withdraw_vesting_route_evaluator, delegate_vesting_shares_evaluator, delegate_vesting_shares_with_interest_evaluator,
    delegate_vesting_shares, median_props, reject_vesting_shares_delegation_evaluator,
    account_witness_vote_evaluator, account_witness_proxy_evaluator, set_proxy, adjust_proxied_witness_votes,
    decline_voting_rights_evaluator, account_create_evaluator, account_create_with_delegation_evaluator, create_authority,
    account_update_evaluator, account_metadata_evaluator, challenge_authority_evaluator, pay_challenge, prove_authority_evaluator,
    request_account_recovery_evaluator, recover_account_evaluator, change_recovery_account_evaluator, reset_account_evaluator,
    set_reset_account_evaluator, report_over_production_evaluator, witness_update_evaluator, chain_properties_update_evaluator,
    update_witness, transit_to_cyberway_evaluator, median_props, get_authority; cbv zeta; clock_solve.

Lemma evaluator_clock op m : evaluator_of op = Some m -> preserves same_clock m.
Proof.
  intros Hm. destruct op; try discriminate Hm; injection Hm as <-.
  all: clock_evaluator.
Qed.

Lemma process_withdrawal_clock from : preserves same_clock (process_withdrawal from).
Proof.
  unfold process_withdrawal, reset_vesting_withdraw, remove_vesting_routes, stop_withdraw, deposit_as_vests, deposit_as_steem,
    push_fill_vesting_withdraw, adjust_proxied_witness_votes. cbv zeta. clock_solve.
Qed.
Hint Resolve process_withdrawal_clock : preserves.
Lemma withdrawal_loop_clock fuel current : preserves same_clock (withdrawal_loop fuel current).
Proof. revert current. induction fuel as [| n IH]; intros current; cbn [withdrawal_loop]; cbv zeta; clock_solve. Qed.
Hint Resolve withdrawal_loop_clock : preserves.

Lemma block_step_clock m : m ∈ block_steps -> preserves same_clock m.
Proof.
  intros Hm. unfold block_steps in Hm. repeat (apply elem_of_cons in Hm as [-> | Hm]); [.. | by apply not_elem_of_nil in Hm].
  - unfold clear_expired_orders. clock_solve.
  - unfold clear_expired_delegations, return_delegation. cbv zeta. clock_solve.
  - unfold update_median_feed, scheduled_witnesses, push_scheduled, record_median. cbv zeta. clock_solve.
  - unfold update_virtual_supply. clock_solve.
  - unfold clear_null_account_balance, clear_null_balance, clear_null_vesting, burn. cbv zeta. clock_solve.
  - unfold process_funds, pay_inflation, pay_first_rewards, pay_witness, add_funds, get_content_reward, get_curation_reward,
      get_producer_reward. cbv zeta. clock_solve.
  - unfold process_conversions, convert_request. clock_solve.
  - unfold process_vesting_withdrawals. clock_solve.
  - unfold process_savings_withdraws, complete_savings_withdraw. clock_solve.
  - unfold pay_liquidity_reward, get_liquidity_reward. clock_solve.
  - unfold account_recovery_processing, clear_recovery_requests, clear_owner_histories, apply_recovery_changes, apply_recovery_change.
    clock_solve.
  - unfold expire_escrow_ratification, expire_escrow. clock_solve.
  - unfold process_decline_voting_rights, decline_voting_rights. clock_solve.
Qed.

(** Payouts included *)
Definition all_block_steps : list (M unit) := process_comment_cashout :: block_steps.
Lemma all_block_steps_clock m : m ∈ all_block_steps -> preserves same_clock m.
Proof.
  intros [-> | Hm]%elem_of_cons; [by apply process_comment_cashout_preserves, _ | by apply block_step_clock].
Qed.
End Clock.
