(* ===== verification/Recovery.v ===== *)
(** * Recovery of accounts

    What the recovery of accounts promises: an owner authority that was replaced stays
    known for thirty days, and with it, and the help of the recovery partner, the owner
    gets the account back; without either nobody does. *)

From S2P Require Import Prelude Exceptions Text Fc Config Asset FlatMap Authority Operations Crypto Validate SignState Transaction BlockId ForkDatabase Objects Database Conservation Sample Transfers Escrow Market Conversion Vesting Preserve Production Schedule Bookkeeping Burning Funds Delegation Accounts Curation Comments Cashout Payout Discussions Hardforks Votes Ledger Clock.

(** ** The history of owner authorities *)

Definition fresh_histories (db : database) : Prop := map_Forall (fun id _ => id < next_id (owner_histories db)) (rows (owner_histories db)).
(** The time stays, and so do the entries that are still valid; a request to recover an
    account appears or changes only if the operation [asks] for it. *)
Section Kept.
Context `{F : fc_ops} (asks : bool).
Record keeps_histories (db db' : database) : Prop := mk_keeps_histories {
  histories_time : dgp_time (dgp db') = dgp_time (dgp db);
  histories_valid : forall id h, rows (owner_histories db) !! id = Some h -> history_invalid (dgp_time (dgp db)) h = false ->
    rows (owner_histories db') !! id = Some h;
  histories_fresh : fresh_histories db -> fresh_histories db';
  histories_requests : asks = false -> rows (recovery_requests db') ⊆ rows (recovery_requests db)
}.
#[export] Instance keeps_histories_preorder : PreOrder keeps_histories.
Proof.
  split; [by split|]. intros x y z [T1 V1 N1 R1] [T2 V2 N2 R2]. split; [congruence | | auto | intros E; etrans; auto].
  intros id h Hh Hv. apply V2; [by apply V1 | by rewrite T1].
Qed.
Lemma histories_on_table {T : Type} (proj : database -> T) `{!FieldSetter proj} f :
  (forall db t, dgp_time (dgp (db <| proj := t |>)) = dgp_time (dgp db) /\ owner_histories (db <| proj := t |>) = owner_histories db /\
     recovery_requests (db <| proj := t |>) = recovery_requests db) ->
  preserves keeps_histories (on_table proj f).
Proof.
  intros Hp db u db' (t & _ & ->)%on_table_run. destruct (Hp db t) as (Et & Eh & Er).
  split; [done | by rewrite Eh | unfold fresh_histories; by rewrite Eh | by rewrite Er].
Qed.
Lemma histories_modify_dgp f : (forall p p', f p = Ok p' -> dgp_time p' = dgp_time p) -> preserves keeps_histories (modify_dgp f).
Proof. intros Hf db u db' (p & Hp%Hf & ->)%on_table_run. by split. Qed.
Lemma histories_push op force : preserves keeps_histories (push_virtual_operation op force).
Proof. by intros db u db' (n & l & ->)%push_virtual_operation_run. Qed.
Lemma histories_remove_request k : preserves keeps_histories (remove recovery_requests k).
Proof. intros db u db' (r & _ & ->)%remove_run. split; try done. intros _. apply delete_subseteq. Qed.
Lemma histories_asked (t : table string account_recovery_request_object -> result (table string account_recovery_request_object)) :
  asks = true -> preserves keeps_histories (on_table recovery_requests t).
Proof. intros E db u db' (r & _ & ->)%on_table_run. split; try done. by rewrite E. Qed.
End Kept.
#[export] Hint Resolve histories_push histories_remove_request : preserves.
Ltac histories_rows :=
  match goal with
  | |- preserves _ (modify_dgp _) =>
      apply histories_modify_dgp; let p := fresh "p" in let p' := fresh "p'" in let Hp := fresh "Hp" in
      intros p p' Hp; cbv zeta in Hp; repeat match type of Hp with (if ?c then _ else _) = Ok _ => destruct c end; inv_ok;
      repeat (match goal with Hq : (if ?c then _ else _) = Ok _ |- _ => destruct c end; inv_ok); reflexivity
  | |- preserves _ (remove owner_histories _) => fail 1
  | |- preserves _ (create owner_histories _ _) => fail 1
  | |- preserves _ (on_table recovery_requests _) => apply histories_asked; assumption
  | |- preserves _ (modify _ _ _) => unfold modify at 1
  | |- preserves _ (create _ _ _) => unfold create at 1
  | |- preserves _ (remove _ _) => unfold remove at 1
  | |- preserves _ (on_table _ _) => apply histories_on_table; intros ? ?; by split_and!
  end.
Ltac histories_solve := repeat (preserve; try histories_rows).

Section Histories.
Context `{F : fc_ops} (asks : bool).

Lemma adjust_balance_histories name delta : preserves (keeps_histories asks) (adjust_balance name delta).
Proof. unfold adjust_balance, adjust_sbd_balance, accrue_sbd_interest, pay_interest_supply. cbv zeta. histories_solve. Qed.
Lemma adjust_savings_balance_histories name delta : preserves (keeps_histories asks) (adjust_savings_balance name delta).
Proof. unfold adjust_savings_balance, accrue_savings_interest, pay_interest_supply. cbv zeta. histories_solve. Qed.
Lemma adjust_supply_histories delta v : preserves (keeps_histories asks) (adjust_supply delta v).
Proof. unfold adjust_supply. cbv zeta. histories_solve. Qed.
Lemma adjust_witness_vote_histories owner t : preserves (keeps_histories asks) (adjust_witness_vote owner t).
Proof. unfold adjust_witness_vote. cbv zeta. histories_solve. Qed.
Hint Resolve adjust_balance_histories adjust_savings_balance_histories adjust_supply_histories adjust_witness_vote_histories : preserves.
Lemma adjust_proxied_histories r name delta : preserves (keeps_histories asks) (adjust_proxied_witness_votes_at r name delta).
Proof.
  revert name. induction r as [| r IH]; intros name; cbn [adjust_proxied_witness_votes_at]; unfold adjust_witness_votes; histories_solve.
Qed.
Lemma adjust_array_histories r name delta : preserves (keeps_histories asks) (adjust_proxied_witness_votes_array r name delta).
Proof.
  revert name. induction r as [| r IH]; intros name; cbn [adjust_proxied_witness_votes_array]; unfold adjust_witness_votes; histories_solve.
Qed.
Lemma check_proxy_chain_histories fuel cprox l : preserves (keeps_histories asks) (check_proxy_chain fuel cprox l).
Proof. revert cprox l. induction fuel as [| fuel IH]; intros cprox l; cbn [check_proxy_chain]; cbv zeta; histories_solve. Qed.
Lemma clear_witness_votes_histories name : preserves (keeps_histories asks) (clear_witness_votes name).
Proof. unfold clear_witness_votes. histories_solve. Qed.
Hint Resolve adjust_proxied_histories adjust_array_histories check_proxy_chain_histories clear_witness_votes_histories : preserves.
Lemma create_vesting_histories to steem : preserves (keeps_histories asks) (create_vesting to steem).
Proof. unfold create_vesting, adjust_proxied_witness_votes. histories_solve. Qed.
Lemma create_sbd_histories to steem : preserves (keeps_histories asks) (create_sbd to steem).
Proof. unfold create_sbd. cbv zeta. histories_solve. Qed.
#[export] Instance keeps_histories_paying : paying (keeps_histories asks).
Proof.
  split; [split; [apply _|..]|..].
  - intros k f Hf. unfold modify. apply histories_on_table; intros ? ?; by split_and!.
  - intros f. apply histories_on_table; intros ? ?; by split_and!.
  - intros f. apply histories_on_table; intros ? ?; by split_and!.
  - intros f. apply histories_on_table; intros ? ?; by split_and!.
  - intros f. apply histories_modify_dgp; by intros ? ? [= <-].
  - intros k f Hf. unfold modify. apply histories_on_table; intros ? ?; by split_and!.
  - intros. apply create_vesting_histories.
  - intros. apply create_sbd_histories.
  - intros k f _. unfold modify. apply histories_on_table; intros ? ?; by split_and!.
  - intros f Hf. apply histories_modify_dgp; intros p p' Hp; destruct (Hf p p' Hp) as [n ->]; done.
  - intros. apply histories_push.
Qed.
Lemma pay_fee_histories name fee : preserves (keeps_histories asks) (pay_fee name fee).
Proof. unfold pay_fee. cbv zeta. histories_solve. Qed.
Lemma return_escrow_histories from k : preserves (keeps_histories asks) (return_escrow from k).
Proof. unfold return_escrow. histories_solve. Qed.
Lemma cancel_order_histories k : preserves (keeps_histories asks) (cancel_order k).
Proof. unfold cancel_order, get_order. histories_solve. Qed.
Hint Resolve cancel_order_histories : preserves.
Lemma fill_order_histories k pays receives : preserves (keeps_histories asks) (fill_order k pays receives).
Proof. unfold fill_order, get_order. histories_solve. Qed.
Hint Resolve create_vesting_histories create_sbd_histories pay_fee_histories return_escrow_histories fill_order_histories : preserves.
Lemma match_orders_histories n o : preserves (keeps_histories asks) (match_orders n o).
Proof. unfold match_orders, reward_liquidity, adjust_liquidity_reward, get_order. cbv zeta. histories_solve. Qed.
Hint Resolve match_orders_histories : preserves.
Lemma match_all_histories k l : preserves (keeps_histories asks) (match_all k l).
Proof. induction l as [| x l IH]; cbn [match_all]; histories_solve. Qed.
Hint Resolve match_all_histories : preserves.
Lemma apply_order_histories k : preserves (keeps_histories asks) (apply_order k).
Proof. unfold apply_order, get_order. cbv zeta. histories_solve. Qed.
Hint Resolve apply_order_histories : preserves.
Lemma place_order_histories owner id sell p kill expires : preserves (keeps_histories asks) (place_order owner id sell p kill expires).
Proof. unfold place_order, throw_if_exists_limit_order. histories_solve. Qed.
Hint Resolve place_order_histories : preserves.

Lemma create_expiration_histories d s e : preserves (keeps_histories asks) (create_expiration d s e).
Proof. unfold create_expiration. histories_solve. Qed.
Hint Resolve create_expiration_histories : preserves.

Lemma metadata_histories a j b : preserves (keeps_histories asks) (store_account_json_metadata a j b).
Proof. unfold store_account_json_metadata, store_metadata_for_account. histories_solve. Qed.
Lemma check_authority_accounts_histories a : preserves (keeps_histories asks) (check_authority_accounts a).
Proof. unfold check_authority_accounts. histories_solve. Qed.
Lemma create_history_histories (name : string) (h : Z -> string -> owner_authority_history_object) : preserves (keeps_histories asks)
  (id ← gets (fun db => next_id (owner_histories db)); create owner_histories id (fun id => h id name)).
Proof.
  intros db u db' (id & db0 & [-> ->]%gets_run & [Hk ->]%create_run)%bind_run. split; [done | | |done].
  - intros id x Hx _. cbn. rewrite lookup_insert_ne; [done | congruence].
  - intros Hf id x Hx. cbn in *. apply lookup_insert_Some in Hx as [[<- _] | [_ Hx]]; [lia|]. specialize (Hf id x Hx). cbn in Hf. lia.
Qed.
Lemma update_owner_authority_histories name a : preserves (keeps_histories asks) (update_owner_authority name a).
Proof.
  unfold update_owner_authority, check_authority_exists. do 2 (compose preserves_bind; [preserve|]; intros).
  compose preserves_bind; [|intros; histories_solve]. unfold when. case_match; [|preserve]. compose preserves_bind; [preserve|]. intros auth.
  apply (create_history_histories name (fun id name => mk_owner_authority_history_object id name (auth_owner auth) _)).
Qed.
Lemma apply_create_extension_histories name e : preserves (keeps_histories asks) (apply_create_extension name e).
Proof. destruct e. unfold apply_create_extension, apply_referral_options, median_props. histories_solve. Qed.
Lemma remove_routes_while_histories from l : preserves (keeps_histories asks) (remove_routes_while from l).
Proof. induction l as [| x l IH]; cbn [remove_routes_while]; cbv zeta; histories_solve. Qed.
Hint Resolve remove_routes_while_histories : preserves.
Lemma reset_vesting_withdraw_histories name : preserves (keeps_histories asks) (reset_vesting_withdraw name).
Proof. unfold reset_vesting_withdraw, stop_withdraw, remove_vesting_routes. histories_solve. Qed.
Hint Resolve metadata_histories check_authority_accounts_histories update_owner_authority_histories apply_create_extension_histories
  reset_vesting_withdraw_histories : preserves.

(** The operation that asks for the recovery of an account *)
Definition asks_recovery (op : operation) : bool := match op with op_request_account_recovery _ => true | _ => false end.

(** The evaluators and the functions only they call *)
Ltac histories_evaluator :=
  unfold transfer_evaluator, transfer_to_vesting_evaluator, transfer_to_savings_evaluator, transfer_from_savings_evaluator,
    cancel_transfer_from_savings_evaluator, break_free_referral_evaluator, escrow_transfer_evaluator, escrow_approve_evaluator,
    mark_approval, escrow_dispute_evaluator, escrow_release_evaluator, limit_order_create_evaluator, limit_order_create2_evaluator,
    limit_order_cancel_evaluator, get_limit_order, feed_publish_evaluator, convert_evaluator, withdraw_vesting_evaluator,
    set_withdraw_vesting_route_evaluator, delegate_vesting_shares_evaluator, delegate_vesting_shares_with_interest_evaluator,
    delegate_vesting_shares, median_props, reject_vesting_shares_delegation_evaluator,
    account_witness_vote_evaluator, account_witness_proxy_evaluator, set_proxy, adjust_proxied_witness_votes,
    decline_voting_rights_evaluator, account_create_evaluator, account_create_with_delegation_evaluator, create_authority,
    account_update_evaluator, account_metadata_evaluator, challenge_authority_evaluator, pay_challenge, prove_authority_evaluator,
    request_account_recovery_evaluator, recover_account_evaluator, change_recovery_account_evaluator, reset_account_evaluator,
    set_reset_account_evaluator, report_over_production_evaluator, witness_update_evaluator, chain_properties_update_evaluator,
    update_witness, transit_to_cyberway_evaluator, median_props, get_authority; cbv zeta; histories_solve.

Lemma evaluator_histories op m : (asks_recovery op = true -> asks = true) -> evaluator_of op = Some m -> preserves (keeps_histories asks) m.
Proof.
  intros Hasks Hm. destruct op; try discriminate Hm; injection Hm as <-; try (specialize (Hasks eq_refl)).
  all: histories_evaluator.
Qed.

Lemma process_withdrawal_histories from : preserves (keeps_histories asks) (process_withdrawal from).
Proof.
  unfold process_withdrawal, reset_vesting_withdraw, remove_vesting_routes, stop_withdraw, deposit_as_vests, deposit_as_steem,
    push_fill_vesting_withdraw, adjust_proxied_witness_votes. cbv zeta. histories_solve.
Qed.
Hint Resolve process_withdrawal_histories : preserves.
Lemma withdrawal_loop_histories fuel current : preserves (keeps_histories asks) (withdrawal_loop fuel current).
Proof. revert current. induction fuel as [| n IH]; intros current; cbn [withdrawal_loop]; cbv zeta; histories_solve. Qed.
Hint Resolve withdrawal_loop_histories : preserves.

(** Only entries that are no longer valid go. *)
Lemma next_history_invalid db k : next_history db = Some k ->
  exists h, rows (owner_histories db) !! k = Some h /\ history_invalid (dgp_time (dgp db)) h = true.
Proof.
  unfold next_history, oldest_history. destruct (head _) as [[k' h]|] eqn:E; [|done]. destruct (history_invalid _ h) eqn:Ei; [|done].
  intros [= <-]. exists h. split; [|done]. apply head_Some_elem_of in E. rewrite sort_by_perm in E. by apply elem_of_map_to_list in E.
Qed.
Lemma clear_owner_histories_histories : preserves (keeps_histories asks) clear_owner_histories.
Proof.
  intros db u db' H. unfold clear_owner_histories in H. apply bind_run in H as (n & db0 & [_ ->]%gets_run & H).
  revert H. apply drain_invariant; [|done]. intros k d1 u1 d2 (h & Hh & Hi)%next_history_invalid HR (h' & _ & ->)%remove_run.
  etrans; [exact HR|]. split; [done | | |done].
  - intros id x Hx Hv. cbn. rewrite lookup_delete_ne; [done|]. intros ->. congruence.
  - intros Hf id x Hx. cbn in *. apply lookup_delete_Some in Hx as [_ Hx]. by apply (Hf id x).
Qed.
Lemma recovery_processing_histories : preserves (keeps_histories asks) account_recovery_processing.
Proof.
  pose proof clear_owner_histories_histories.
  unfold account_recovery_processing, clear_recovery_requests, apply_recovery_changes, apply_recovery_change. histories_solve.
Qed.

Lemma block_step_histories m : m ∈ block_steps -> preserves (keeps_histories asks) m.
Proof.
  intros Hm. unfold block_steps in Hm. repeat (apply elem_of_cons in Hm as [-> | Hm]); [.. | by apply not_elem_of_nil in Hm].
  - unfold clear_expired_orders. histories_solve.
  - unfold clear_expired_delegations, return_delegation. cbv zeta. histories_solve.
  - unfold update_median_feed, scheduled_witnesses, push_scheduled, record_median. cbv zeta. histories_solve.
  - unfold update_virtual_supply. histories_solve.
  - unfold clear_null_account_balance, clear_null_balance, clear_null_vesting, burn. cbv zeta. histories_solve.
  - unfold process_funds, pay_inflation, pay_first_rewards, pay_witness, add_funds, get_content_reward, get_curation_reward,
      get_producer_reward. cbv zeta. histories_solve.
  - unfold process_conversions, convert_request. histories_solve.
  - unfold process_vesting_withdrawals. histories_solve.
  - unfold process_savings_withdraws, complete_savings_withdraw. histories_solve.
  - unfold pay_liquidity_reward, get_liquidity_reward. histories_solve.
  - apply recovery_processing_histories.
  - unfold expire_escrow_ratification, expire_escrow. histories_solve.
  - unfold process_decline_voting_rights, decline_voting_rights. histories_solve.
Qed.
End Histories.

(** ** Recovery *)

Section Recover.
Context `{F : fc_ops} {L : fc_laws F} `{C : crypto_ops}.

Lemma authority_eqb_refl a : authority_eqb a a = true.
Proof. unfold authority_eqb. rewrite Z.eqb_refl, !bool_decide_true by done. done. Qed.
Lemma in_history_spec name a db : in_history name a db = true <->
  exists id h, rows (owner_histories db) !! id = Some h /\ owner_history_account h = name /\
    authority_eqb (owner_history_previous_owner_authority h) a = true.
Proof.
  unfold in_history. rewrite existsb_exists. split.
  - intros ([id h] & Hin%list_elem_of_In%elem_of_map_to_list & [Hn Ha]%andb_true_iff). apply String.eqb_eq in Hn. by exists id, h.
  - intros (id & h & Hh & <- & Ha). exists (id, h). split; [by apply list_elem_of_In, elem_of_map_to_list|].
    cbn. by rewrite String.eqb_refl.
Qed.

(** [update_owner_authority], run *)
Lemma update_owner_authority_run name a db u db' : update_owner_authority name a db = Ok (u, db') ->
  let now := dgp_time (dgp db) in
  exists auth t, rows (authorities db) !! name = Some auth /\
    (STEEMIT_OWNER_AUTH_HISTORY_TRACKING_START_BLOCK_NUM <= dgp_head_block_number (dgp db) ->
     rows t !! next_id (owner_histories db) = Some (mk_owner_authority_history_object (next_id (owner_histories db)) name (auth_owner auth) now)) /\
    db' = db <| owner_histories := t |>
             <| authorities := mk_table (<[name := auth <| auth_owner := a |> <| auth_last_owner_update := now |>]> (rows (authorities db)))
                  (next_id (authorities db)) |>.
Proof.
  unfold update_owner_authority, check_authority_exists, get_authority. intros H. inv_run; bool_to_prop.
  - apply create_run in Hrun1 as [Hk ->]. apply modify_run in H as (auth & v' & Hauth & [= <-] & ->). cbn in Hauth.
    assert (auth = x) as -> by congruence. exists x. eexists. split_and!; [done | | done]. intros _. cbn. by rewrite lookup_insert_eq.
  - apply modify_run in H as (auth & v' & Hauth & [= <-] & ->). exists auth, (owner_histories db). split_and!; [done | lia |].
    by destruct db.
Qed.
Lemma update_owner_authority_eq name a auth db : rows (authorities db) !! name = Some auth ->
  rows (owner_histories db) !! next_id (owner_histories db) = None -> exists db', update_owner_authority name a db = Ok (tt, db').
Proof.
  intros Ha Hh. unfold update_owner_authority, check_authority_exists, get_authority, get_row, gets, create, modify, on_table, head_block_num,
    head_block_time, when, table_create, table_modify, mbind, M_bind, mret, M_ret.
  cbn. destruct (_ >=? _); cbn; rewrite ?Ha; cbn; rewrite ?Hh; cbn; rewrite ?Ha; cbn; rewrite ?Ha; by eexists.
Qed.
Lemma reset_vesting_withdraw_runs name a db : rows (accounts db) !! name = Some a -> exists db', reset_vesting_withdraw name db = Ok (tt, db').
Proof.
  intros Ha. unfold reset_vesting_withdraw, stop_withdraw, remove_vesting_routes, get_account, get_row, gets, modify, on_table, table_modify,
    mbind, M_bind, mret, M_ret. cbn. rewrite Ha. cbn. rewrite lookup_insert_eq. cbn. eexists. apply remove_routes_none.
  apply Forall_forall. intros kr Hkr. unfold routes_after in Hkr. rewrite sort_by_perm in Hkr. by apply list_elem_of_filter in Hkr as [? _].
Qed.
Lemma reset_vesting_withdraw_run name db u db' : reset_vesting_withdraw name db = Ok (u, db') ->
  exists a a', rows (accounts db) !! name = Some a /\ account_last_account_recovery a' = account_last_account_recovery a /\
    db' = db <| accounts := mk_table (<[name := a']> (rows (accounts db))) (next_id (accounts db)) |>.
Proof.
  unfold reset_vesting_withdraw, stop_withdraw. intros (u1 & db1 & (a & a' & Ha & Ha' & ->)%modify_run & ->%remove_vesting_routes_none)%bind_run.
  exists a, a'. split_and!; [done | | done]. by inv_ok.
Qed.

(** [recover_account_evaluator], run *)
Lemma recover_account_run o db u db' : recover_account_evaluator o db = Ok (u, db') ->
  let name := recover_account_account_to_recover o in let now := dgp_time (dgp db) in
  exists a r auth, rows (accounts db) !! name = Some a /\
    ((STEEMIT_HARDFORK_0_12 < length (processed_hardforks db))%nat ->
     time_add (account_last_account_recovery a) STEEMIT_OWNER_UPDATE_LIMIT < now) /\
    rows (recovery_requests db) !! name = Some r /\
    authority_eqb (recovery_request_new_owner_authority r) (recover_account_new_owner_authority o) = true /\
    in_history name (recover_account_recent_owner_authority o) db = true /\
    rows (recovery_requests db') = delete name (rows (recovery_requests db)) /\
    rows (authorities db) !! name = Some auth /\
    rows (authorities db') = <[name := auth <| auth_owner := recover_account_new_owner_authority o |> <| auth_last_owner_update := now |>]>
                               (rows (authorities db)) /\
    (STEEMIT_OWNER_AUTH_HISTORY_TRACKING_START_BLOCK_NUM <= dgp_head_block_number (dgp db) -> in_history name (auth_owner auth) db' = true) /\
    exists a', rows (accounts db') !! name = Some a' /\ account_last_account_recovery a' = now.
Proof.
  unfold recover_account_evaluator, check_bandwidth. cbv zeta. intros H. inv_run.
  all: apply remove_run in Hrun7 as (r' & _ & ->); apply update_owner_authority_run in Hrun8 as (auth & t & Hauth & Ht & ->); cbn in Hauth, Ht.
  all: apply modify_run in Hrun9 as (v & v' & Hv & [= <-] & ->); cbn in Hv.
  all: try (apply reset_vesting_withdraw_run in H as (w & w' & Hw & Hlast & ->); cbn in Hw; rewrite lookup_insert_eq in Hw; injection Hw as <-).
  all: repeat match goal with H : check_logic _ _ = Ok _ |- _ => apply check_logic_Ok in H end.
  all: repeat match goal with H : (if ?b then Ok _ else _) = Ok _ |- _ => destruct b eqn:?; [|done] end.
  all: exists x, a, auth; split_and!; try done; cbn; try (intros; bool_to_prop; lia).
  all: lazymatch goal with
    | |- ex _ => eexists; rewrite lookup_insert_eq; split; [reflexivity | first [exact Hlast | reflexivity]]
    | |- _ -> in_history _ _ _ = _ => intros Hn; apply in_history_spec; eexists _, _; split_and!; [exact (Ht Hn) | reflexivity | apply authority_eqb_refl]
    | |- _ -> _ => intros Hlt%Nat.ltb_lt; congruence
    end.
Qed.

(** With the request, the history and the patience that it asks for, it runs. *)
Lemma recover_account_succeeds o a r db : let name := recover_account_account_to_recover o in
  rows (accounts db) !! name = Some a -> rows (recovery_requests db) !! name = Some r ->
  authority_eqb (recovery_request_new_owner_authority r) (recover_account_new_owner_authority o) = true ->
  in_history name (recover_account_recent_owner_authority o) db = true ->
  time_add (account_last_account_recovery a) STEEMIT_OWNER_UPDATE_LIMIT < dgp_time (dgp db) ->
  is_Some (rows (authorities db) !! name) -> rows (owner_histories db) !! next_id (owner_histories db) = None ->
  exists db', recover_account_evaluator o db = Ok (tt, db').
Proof.
  intros name Ha Hr Hnew Hin Hlast [auth Hauth] Hnext. unfold recover_account_evaluator. fold name. cbv zeta.
  rewrite (bind_eq _ _ _ a db) by (by apply get_row_eq). rewrite (bind_eq _ _ _ _ db) by reflexivity.
  rewrite (bind_eq _ _ _ _ db) by reflexivity.
  rewrite (bind_eq _ _ _ tt db); [|unfold when, check_bandwidth; repeat case_match; bool_to_prop; first [reflexivity | lia]].
  rewrite (bind_eq _ _ _ (Some r) db) by (unfold find_row, gets; by rewrite Hr).
  rewrite (bind_eq _ _ _ tt db) by (unfold check_logic_m; by rewrite Hnew). rewrite (bind_eq _ _ _ _ db) by reflexivity.
  rewrite (bind_eq _ _ _ tt db) by (by rewrite Hin).
  set (db1 := db <| recovery_requests := mk_table (delete name (rows (recovery_requests db))) (next_id (recovery_requests db)) |>).
  rewrite (bind_eq _ _ _ tt db1) by (apply remove_run; by eexists).
  destruct (update_owner_authority_eq name (recover_account_new_owner_authority o) auth db1 Hauth Hnext) as [db2 H2].
  rewrite (bind_eq _ _ _ _ _ H2). apply update_owner_authority_run in H2 as (auth' & t & _ & _ & ->).
  match goal with |- context [(modify accounts name ?f ≫= _) ?d] => eassert (modify accounts name f d = Ok (tt, _)) as H3 by
    (apply modify_run; eexists a, _; split_and!; [exact Ha | reflexivity | reflexivity]) end.
  rewrite (bind_eq _ _ _ _ _ H3). rewrite (bind_eq _ _ _ _ _ eq_refl). unfold when. case_match; [|by eexists].
  eapply reset_vesting_withdraw_runs. apply lookup_insert_eq.
Qed.

(** ** The history over time *)

(** Operations, steps of blocks, and whatever else a block does: time passes and the
    history of owner authorities stays. *)
Inductive time_step (db : database) : database -> Prop :=
| step_ledger db' : ledger_step no_conditions db db' -> time_step db db'
| step_time db' : owner_histories db' = owner_histories db -> dgp_time (dgp db) <= dgp_time (dgp db') -> time_step db db'.

(** Only the head block moves time, and only the operation that asks for a recovery makes or
    changes a request. *)
Lemma ledger_step_histories given db db' : ledger_step given db db' ->
  (exists asks, keeps_histories asks db db' /\
     (asks = true -> exists o, request_account_recovery_evaluator o db = Ok (tt, db'))) \/
  owner_histories db' = owner_histories db /\ recovery_requests db' = recovery_requests db /\ dgp_time (dgp db) <= dgp_time (dgp db').
Proof.
  intros [op m d _ Hm _ H | m d Hm _ H | k d _ H | key d Hl H | m d Hm H | size b skip d Hlater H].
  - left. exists (asks_recovery op). split; [by apply (evaluator_histories _ _ _ (fun E => E) Hm) in H|].
    destruct op; try done. injection Hm as <-. intros _. by eexists.
  - left. exists false. split; [exact (block_step_histories _ _ Hm _ _ _ H) | done].
  - left. exists false. split; [exact (cashout_comment_preserves (keeps_histories false) k _ _ _ H) | done].
  - left. exists false. split; [|done]. apply process_hardforks_late in H as [(h & n & l & ->) _]; [|done].
    by destruct (reflexivity db : keeps_histories false db db).
  - right. apply bookkeeping_bookkept in H; [|done]. split_and!; [apply (kept_histories _ _ _ H) | apply (kept_recoveries _ _ _ H)|].
    rewrite (kept_time _ _ _ H eq_refl). lia.
  - right. apply head_update_bookkept in H as Hk. split_and!; [apply (kept_histories _ _ _ Hk) | apply (kept_recoveries _ _ _ Hk)|].
    apply head_update_missed in H as (missed & hf2 & hf12 & E & _).
    destruct (advance_head_head size b missed hf2 hf12 (dgp db)) as (_ & _ & Ht & _). rewrite E, Ht. lia.
Qed.
Lemma time_step_times db db' : rtc time_step db db' -> dgp_time (dgp db) <= dgp_time (dgp db').
Proof.
  induction 1 as [| x y z Hxy _ IH]; [lia|]. enough (dgp_time (dgp x) <= dgp_time (dgp y)) by lia.
  destruct Hxy as [y Hxy | y _ Ht]; [|done]. apply ledger_step_histories in Hxy as [(asks & Hk & _) | (_ & _ & Ht)]; [|done].
  rewrite (histories_time _ _ _ Hk). lia.
Qed.
Lemma history_kept db db' id h : rtc time_step db db' -> fresh_histories db -> rows (owner_histories db) !! id = Some h ->
  dgp_time (dgp db') <= time_add (owner_history_last_valid_time h) STEEMIT_OWNER_AUTH_RECOVERY_PERIOD ->
  fresh_histories db' /\ rows (owner_histories db') !! id = Some h.
Proof.
  induction 1 as [| x y z Hxy Hyz IH]; [done|]. intros Hf Hh Ht. pose proof (time_step_times _ _ Hyz) as Hle.
  assert (fresh_histories y /\ rows (owner_histories y) !! id = Some h) as [Hfy Hhy]; [|by apply IH].
  destruct Hxy as [y Hxy | y E _]; [|unfold fresh_histories in *; by rewrite E].
  apply ledger_step_histories in Hxy as [(asks & Hk & _) | (E & _)]; [|unfold fresh_histories in *; by rewrite E].
  split; [by apply Hk|]. apply (histories_valid _ _ _ Hk); [done|].
  unfold history_invalid. rewrite (histories_time _ _ _ Hk) in Hle. lia.
Qed.

(** Who may ask for the recovery of an account: its recovery partner or, when it has none,
    the witness with the most votes *)
Definition partner_of (db : database) (a : account_object) : option string :=
  if negb (size_of (account_recovery_account a) =? 0) then Some (account_recovery_account a)
  else (fun kw => witness_owner (snd kw)) <$> head (witnesses_by by_vote_name db).

(** [request_account_recovery_evaluator], run *)
Lemma request_recovery_run o db u db' : request_account_recovery_evaluator o db = Ok (u, db') ->
  let name := request_account_recovery_account_to_recover o in
  exists a, rows (accounts db) !! name = Some a /\ partner_of db a = Some (request_account_recovery_recovery_account o) /\
    (forall k, k <> name -> rows (recovery_requests db') !! k = rows (recovery_requests db) !! k) /\
    (forall r, rows (recovery_requests db') !! name = Some r ->
       recovery_request_new_owner_authority r = request_account_recovery_new_owner_authority o).
Proof.
  unfold request_account_recovery_evaluator. cbv zeta. intros H.
  apply bind_run in H as (a & db1 & [Ha ->]%get_row_run & H). apply bind_run in H as (u1 & db1 & Hp & H).
  exists a. assert (db1 = db /\ partner_of db a = Some (request_account_recovery_recovery_account o)) as [-> Hpartner].
  { unfold partner_of. destruct (negb (size_of (account_recovery_account a) =? 0)).
    - apply lift_run in Hp as [Hp%check_logic_Ok ->]. split; [done | f_equal; by apply String.eqb_eq].
    - apply bind_run in Hp as (top & db2 & [-> ->]%gets_run & Hp). destruct (head (witnesses_by by_vote_name db)) as [[k w]|]; [|done].
      apply lift_run in Hp as [Hp%check_logic_Ok ->]. split; [done | cbn; f_equal; by apply String.eqb_eq]. }
  split; [done|]. split; [done|]. clear Hp Hpartner. inv_run.
  all: repeat match goal with H : check_authority_accounts ?x ?d = Ok _ |- _ =>
    let P := fresh in assert (preserves eq (check_authority_accounts x)) as P by (unfold check_authority_accounts; preserve);
    apply P in H; subst; clear P end.
  all: match goal with
    | H : remove recovery_requests _ _ = _ |- _ => apply remove_run in H as (r0 & _ & ->)
    | H : modify recovery_requests _ _ _ = _ |- _ => apply modify_run in H as (v & v' & _ & [= <-] & ->)
    | H : create recovery_requests _ _ _ = _ |- _ => apply create_run in H as [_ ->] end.
  all: cbn; split; [intros k Hk; by rewrite ?lookup_insert_ne, ?lookup_delete_ne by done | intros r].
  all: first [rewrite lookup_delete_eq; done | rewrite lookup_insert_eq; by intros [= <-]].
Qed.

(** A pending request is an earlier one, or the one that its recovery partner just made. *)
Lemma ledger_step_request given db db' name r : ledger_step given db db' -> rows (recovery_requests db') !! name = Some r ->
  rows (recovery_requests db) !! name = Some r \/
  exists o a, request_account_recovery_evaluator o db = Ok (tt, db') /\ request_account_recovery_account_to_recover o = name /\
    rows (accounts db) !! name = Some a /\ partner_of db a = Some (request_account_recovery_recovery_account o) /\
    recovery_request_new_owner_authority r = request_account_recovery_new_owner_authority o.
Proof.
  intros Hstep Hr. apply ledger_step_histories in Hstep as [(asks & Hk & Ho) | (_ & E & _)]; [|left; by rewrite <- E].
  destruct asks; [|left; by eapply lookup_weaken, (histories_requests _ _ _ Hk)]. destruct (Ho eq_refl) as (o & Hrun).
  destruct (request_recovery_run _ _ _ _ Hrun) as (a & Ha & Hp & Hothers & Hnew).
  destruct (decide (name = request_account_recovery_account_to_recover o)) as [-> | Hne]; [|left; by rewrite <- Hothers].
  right. exists o, a. split_and!; [done.. | by apply Hnew].
Qed.
Lemma pending_request_made given db0 db name r : rows (recovery_requests db0) !! name = None -> rtc (ledger_step given) db0 db ->
  rows (recovery_requests db) !! name = Some r ->
  exists db1 db2 o a, rtc (ledger_step given) db0 db1 /\ request_account_recovery_evaluator o db1 = Ok (tt, db2) /\ rtc (ledger_step given) db2 db /\
    request_account_recovery_account_to_recover o = name /\ rows (accounts db1) !! name = Some a /\
    partner_of db1 a = Some (request_account_recovery_recovery_account o) /\
    recovery_request_new_owner_authority r = request_account_recovery_new_owner_authority o.
Proof.
  intros Hnone Hall. revert r. pattern db. refine (rtc_ind_r _ db0 _ _ db Hall); clear db Hall; [intros r Hr; congruence|].
  intros db3 db Hsteps Hlast IH r Hr.
  destruct (ledger_step_request _ _ _ _ _ Hlast Hr) as [Hr3 | (o & a & Hrun & Hname & Ha & Hp & Hnew)].
  - destruct (IH r Hr3) as (db1 & db2 & o & a & H1 & H2 & H3 & H4). exists db1, db2, o, a. split_and!; try apply H4; try done.
    etrans; [exact H3 | by apply rtc_once].
  - exists db3, db, o, a. by split_and!.
Qed.

(** C12: Nobody takes an account by recovery without both secrets.  A recovery succeeds only
    with a pending request for exactly the new owner authority, and with an owner authority
    of the account's recent history; from hardfork 0.12 on an account is recovered at most
    once an hour.  Whatever operations, blocks and payouts came before, a request that is
    pending, when none was at first, was made by an operation of the account's recovery
    partner of that time (the witness with the most votes for an account without partner),
    for that very authority.  After the recovery the new authority owns the account, the
    request is gone, and the authority that was replaced is itself in the history. *)
Theorem recovery_needs_request_and_history o db u db' : recover_account_evaluator o db = Ok (u, db') ->
  let name := recover_account_account_to_recover o in let now := dgp_time (dgp db) in
  exists a r id h auth, rows (accounts db) !! name = Some a /\
    ((STEEMIT_HARDFORK_0_12 < length (processed_hardforks db))%nat ->
     time_add (account_last_account_recovery a) STEEMIT_OWNER_UPDATE_LIMIT < now) /\
    rows (recovery_requests db) !! name = Some r /\
    authority_eqb (recovery_request_new_owner_authority r) (recover_account_new_owner_authority o) = true /\
    (forall given db0, rows (recovery_requests db0) !! name = None -> rtc (ledger_step given) db0 db ->
      exists db1 db2 req a1, rtc (ledger_step given) db0 db1 /\ request_account_recovery_evaluator req db1 = Ok (tt, db2) /\
        rtc (ledger_step given) db2 db /\ request_account_recovery_account_to_recover req = name /\
        rows (accounts db1) !! name = Some a1 /\ partner_of db1 a1 = Some (request_account_recovery_recovery_account req) /\
        recovery_request_new_owner_authority r = request_account_recovery_new_owner_authority req) /\
    rows (owner_histories db) !! id = Some h /\ owner_history_account h = name /\
    authority_eqb (owner_history_previous_owner_authority h) (recover_account_recent_owner_authority o) = true /\
    rows (recovery_requests db') !! name = None /\
    rows (authorities db') = <[name := auth <| auth_owner := recover_account_new_owner_authority o |> <| auth_last_owner_update := now |>]>
                               (rows (authorities db)) /\ rows (authorities db) !! name = Some auth /\
    (STEEMIT_OWNER_AUTH_HISTORY_TRACKING_START_BLOCK_NUM <= dgp_head_block_number (dgp db) -> in_history name (auth_owner auth) db' = true).
Proof.
  intros H name now. destruct (recover_account_run _ _ _ _ H) as (a & r & auth & Ha & Hlimit & Hr & Hnew & Hin & Hreq & Hauth & Hauths & Hhist & _).
  apply in_history_spec in Hin as (id & h & Hh & Hn & Hrec). exists a, r, id, h, auth. split_and!; try done.
  - intros given db0 Hnone Hsteps. by apply (pending_request_made given db0 db).
  - rewrite Hreq. apply lookup_delete_eq.
Qed.

(** C13: The owner gets the account back.  Whoever replaces the owner authority of an
    account, and whatever operations and blocks follow, for thirty days the recovery with
    the replaced authority succeeds: when the recovery partner has requested it, and the
    account was not recovered within the last hour, the operation runs, and the
    requested authority owns the account. *)
Theorem owner_gets_account_back name thief auth a r u db db1 db2 :
  fresh_histories db -> rows (authorities db) !! name = Some auth ->
  STEEMIT_OWNER_AUTH_HISTORY_TRACKING_START_BLOCK_NUM <= dgp_head_block_number (dgp db) ->
  0 <= dgp_time (dgp db) < 2 ^ 32 - STEEMIT_OWNER_AUTH_RECOVERY_PERIOD ->
  update_owner_authority name thief db = Ok (u, db1) -> rtc time_step db1 db2 ->
  dgp_time (dgp db2) <= dgp_time (dgp db) + STEEMIT_OWNER_AUTH_RECOVERY_PERIOD ->
  rows (accounts db2) !! name = Some a ->
  time_add (account_last_account_recovery a) STEEMIT_OWNER_UPDATE_LIMIT < dgp_time (dgp db2) ->
  is_Some (rows (authorities db2) !! name) -> rows (recovery_requests db2) !! name = Some r ->
  exists db3 auth3,
    recover_account_evaluator (mk_recover_account name (recovery_request_new_owner_authority r) (auth_owner auth) []) db2 = Ok (tt, db3) /\
    rows (authorities db3) !! name = Some auth3 /\ auth_owner auth3 = recovery_request_new_owner_authority r.
Proof.
  intros Hf Hauth Hnum Hrange Hupd Hsteps Htime Ha Hlast [auth2 Hauth2] Hr.
  pose proof (update_owner_authority_histories false name thief _ _ _ Hupd) as Hkept.
  pose proof (histories_fresh _ _ _ Hkept Hf) as Hf1.
  apply update_owner_authority_run in Hupd as (auth' & t & Hauth' & Ht & ->). assert (auth' = auth) as -> by congruence. specialize (Ht Hnum).
  destruct (history_kept _ _ _ _ Hsteps Hf1 Ht) as [Hf2 Hh2].
  { cbn. rewrite time_add_law; unfold STEEMIT_OWNER_AUTH_RECOVERY_PERIOD in *; lia. }
  set (o := mk_recover_account _ _ _ _).
  assert (exists db3, recover_account_evaluator o db2 = Ok (tt, db3)) as [db3 H3].
  { apply recover_account_succeeds with (a := a) (r := r); try done; [apply authority_eqb_refl | |].
    - apply in_history_spec. eexists _, _. split_and!; [exact Hh2 | done | apply authority_eqb_refl].
    - destruct (rows (owner_histories db2) !! next_id (owner_histories db2)) eqn:E; [|done]. apply Hf2 in E. lia. }
  destruct (recover_account_run _ _ _ _ H3) as (_ & _ & auth3 & _ & _ & _ & _ & _ & _ & _ & Hauths & _).
  exists db3. eexists. split; [exact H3|]. rewrite Hauths, lookup_insert_eq. by split.
Qed.
(** ** The step of a block *)

(** The entries of the history were made in the order of their numbers. *)
Definition histories_ordered (db : database) : Prop :=
  forall i j h h', rows (owner_histories db) !! i = Some h -> rows (owner_histories db) !! j = Some h' -> i <= j ->
    time_add (owner_history_last_valid_time h) STEEMIT_OWNER_AUTH_RECOVERY_PERIOD <=
    time_add (owner_history_last_valid_time h') STEEMIT_OWNER_AUTH_RECOVERY_PERIOD.
Lemma next_history_None db : histories_ordered db -> next_history db = None ->
  forall id h, rows (owner_histories db) !! id = Some h -> history_invalid (dgp_time (dgp db)) h = false.
Proof.
  unfold next_history, oldest_history. intros Hord Hnone id h Hh. apply elem_of_map_to_list in Hh as Hin.
  destruct (head _) as [[k0 h0]|] eqn:E.
  - destruct (history_invalid _ h0) eqn:E0; [done|].
    assert (rows (owner_histories db) !! k0 = Some h0) as Hh0.
    { apply head_Some_elem_of in E. rewrite sort_by_perm in E. by apply elem_of_map_to_list in E. }
    pose proof (sort_by_head (fun x y : Z * owner_authority_history_object => fst x <=? fst y) (map_to_list (rows (owner_histories db))) (k0, h0)
      ltac:(cbn; lia) ltac:(cbn; lia) E (id, h) Hin) as Hle. cbn in Hle.
    pose proof (Hord k0 id h0 h Hh0 Hh ltac:(lia)). unfold history_invalid in *. lia.
  - rewrite <- (sort_by_perm (fun x y : Z * owner_authority_history_object => fst x <=? fst y)) in Hin. destruct (sort_by _ _); [by apply elem_of_nil in Hin | done].
Qed.
Lemma clear_owner_histories_spec db u db' : histories_ordered db -> clear_owner_histories db = Ok (u, db') ->
  rows (owner_histories db') = filter (fun kv => history_invalid (dgp_time (dgp db)) (snd kv) = false) (rows (owner_histories db)).
Proof.
  intros Hord H. pose proof (clear_owner_histories_histories false _ _ _ H) as [Ht Hkeep _ _].
  unfold clear_owner_histories in H. apply bind_run in H as (n & db0 & [-> ->]%gets_run & H).
  assert (rows (owner_histories db') ⊆ rows (owner_histories db)) as Hsub.
  { eapply (drain_invariant (fun d => rows (owner_histories d) ⊆ rows (owner_histories db))); [|reflexivity | exact H].
    intros k d1 u1 d2 _ Hs (h & _ & ->)%remove_run. etrans; [apply delete_subseteq | exact Hs]. }
  assert (next_history db' = None) as Hnone.
  { revert H. apply (drain_done (fun d => size (rows (owner_histories d)))); [|lia].
    intros k d1 u1 d2 _ (h & Hh & ->)%remove_run. cbn. rewrite map_size_delete, Hh. cbn.
    assert (size (rows (owner_histories d1)) <> 0%nat) by (apply (map_size_ne_0_lookup_2 _ k); eauto). lia. }
  apply map_eq. intros id. apply option_eq. intros h. rewrite map_lookup_filter_Some. cbn. split.
  - intros Hh. pose proof (lookup_weaken _ _ _ _ Hh Hsub) as Hh0. split; [done|]. rewrite <- Ht. eapply next_history_None; [|done | done].
    intros i j h1 h2 H1 H2. apply Hord; by eapply lookup_weaken.
  - intros [Hh Hv]. by apply Hkeep.
Qed.

(** The change of an account's recovery partner that is due, if any *)
Definition changed_partner (now : Z) (o : option change_recovery_account_request_object) (partner : string) : string :=
  match o with Some r => if change_effective now r then change_recovery_recovery_account r else partner | None => partner end.
Definition changes_keyed (db : database) : Prop :=
  map_Forall (fun k r => change_recovery_account_to_recover r = k) (rows (change_recovery_requests db)).
Lemma apply_recovery_change_run k db u db' : apply_recovery_change k db = Ok (u, db') ->
  exists r a, rows (change_recovery_requests db) !! k = Some r /\ rows (accounts db) !! change_recovery_account_to_recover r = Some a /\
    accounts db' = mk_table (<[change_recovery_account_to_recover r := a <| account_recovery_account := change_recovery_recovery_account r |>]>
                              (rows (accounts db))) (next_id (accounts db)) /\
    rows (change_recovery_requests db') = delete k (rows (change_recovery_requests db)) /\ dgp db' = dgp db.
Proof.
  unfold apply_recovery_change. intros H. inv_run. apply modify_run in Hrun1 as (v & v' & Hv & [= <-] & ->).
  apply remove_run in H as (r' & _ & ->). by exists x, v.
Qed.
Lemma apply_recovery_changes_spec db u db' : changes_keyed db -> apply_recovery_changes db = Ok (u, db') ->
  let now := dgp_time (dgp db) in
  rows (change_recovery_requests db') = filter (fun kv => change_effective now (snd kv) = false) (rows (change_recovery_requests db)) /\
  forall k a', rows (accounts db') !! k = Some a' -> exists a, rows (accounts db) !! k = Some a /\
    account_recovery_account a' = changed_partner now (rows (change_recovery_requests db) !! k) (account_recovery_account a).
Proof.
  intros Hkeyed H now. unfold apply_recovery_changes in H. apply bind_run in H as (n & db0 & [-> ->]%gets_run & H).
  pose proof (drain_table_spec change_recovery_requests change_effective by_change_effective_date apply_recovery_change (S (size (rows (change_recovery_requests db)))) db u db') as Hspec.
  destruct Hspec as [Hrows _]; [| | exact H |].
  { intros k d1 u1 d2 (r & a & _ & _ & _ & Hr & Hd)%apply_recovery_change_run. split; [done | by rewrite Hd]. }
  { lia. }
  split; [done|].
  pose (P d := rows (change_recovery_requests d) ⊆ rows (change_recovery_requests db) /\ dgp_time (dgp d) = now /\
    forall k a', rows (accounts d) !! k = Some a' -> exists a, rows (accounts db) !! k = Some a /\
      account_recovery_account a' = match rows (change_recovery_requests d) !! k with
        | Some _ => account_recovery_account a
        | None => changed_partner now (rows (change_recovery_requests db) !! k) (account_recovery_account a) end).
  assert (P db') as (_ & _ & Hacc).
  { clear Hrows. eapply (drain_invariant P); [| | exact H].
    - intros k d1 u1 d2 (r0 & Hr0 & Hdue)%first_due_Some (Hs & Ht & Hacc) (r & a & Hr & Ha & Eacc & Ereq & Ed)%apply_recovery_change_run.
      assert (r0 = r) as -> by congruence. rewrite Ht in Hdue. pose proof (lookup_weaken _ _ _ _ Hr Hs) as Hr'.
      pose proof (Hkeyed _ _ Hr') as Hk. cbn in Hk. rewrite Hk in *. unfold P. rewrite Eacc, Ereq, Ed. cbn.
      split_and!; [by etrans; [apply delete_subseteq|] | done|]. intros q a' Hq. destruct (decide (q = k)) as [-> | Hne].
      + rewrite lookup_insert_eq in Hq. injection Hq as <-. rewrite lookup_delete_eq. destruct (Hacc k a Ha) as (b & Hb & _).
        exists b. split; [done|]. rewrite Hr'. cbn. by rewrite Hdue.
      + rewrite lookup_insert_ne in Hq by done. rewrite lookup_delete_ne by done. by apply Hacc.
    - split_and!; [done.. |]. intros k a' Ha'. exists a'. split; [done|]. destruct (rows (change_recovery_requests db) !! k) eqn:E; done. }
  intros k a' (a & Ha & E)%Hacc. exists a. split; [done|]. rewrite E, Hrows.
  destruct (filter _ _ !! k) as [r|] eqn:Er; [|done]. apply map_lookup_filter_Some in Er as [-> Hd]. cbn in Hd. cbn. fold now in Hd. by rewrite Hd.
Qed.

(** What a block does for recovery.  After the step exactly the recovery requests and
    changes of recovery partner that are due are gone, as are exactly the owner
    authorities replaced more than thirty days ago; every change that was due has been
    made, and no other account has a new partner. *)
Theorem recovery_processing_spec db u db' : histories_ordered db -> changes_keyed db -> account_recovery_processing db = Ok (u, db') ->
  let now := dgp_time (dgp db) in
  rows (recovery_requests db') = filter (fun kv => request_expired now (snd kv) = false) (rows (recovery_requests db)) /\
  rows (owner_histories db') = filter (fun kv => history_invalid now (snd kv) = false) (rows (owner_histories db)) /\
  rows (change_recovery_requests db') = filter (fun kv => change_effective now (snd kv) = false) (rows (change_recovery_requests db)) /\
  forall k a', rows (accounts db') !! k = Some a' -> exists a, rows (accounts db) !! k = Some a /\
    account_recovery_account a' = changed_partner now (rows (change_recovery_requests db) !! k) (account_recovery_account a).
Proof.
  intros Hord Hkeyed H now. unfold account_recovery_processing in H.
  apply bind_run in H as (u1 & db1 & H1 & H). apply bind_run in H as (u2 & db2 & H2 & H3).
  unfold clear_recovery_requests in H1. apply bind_run in H1 as (n & db0 & [-> ->]%gets_run & H1).
  pose (P d := owner_histories d = owner_histories db /\ change_recovery_requests d = change_recovery_requests db /\ accounts d = accounts db).
  assert (P db1) as (Eh & Ec & Ea).
  { eapply (drain_invariant P); [| |exact H1]; [|done]. by intros k d1 v d2 _ HP (h & _ & ->)%remove_run. }
  apply (drain_table_spec recovery_requests request_expired by_request_expiration) in H1 as [Hreq Ht1]; [|by intros k d1 v d2 (h & _ & ->)%remove_run | lia].
  pose proof (clear_owner_histories_histories false _ _ _ H2) as [Ht2 _ _ _].
  pose (Q d := recovery_requests d = recovery_requests db1 /\ change_recovery_requests d = change_recovery_requests db /\ accounts d = accounts db).
  assert (Q db2) as (Er & Ec2 & Ea2).
  { unfold clear_owner_histories in H2. apply bind_run in H2 as (n & db0 & [-> ->]%gets_run & H2).
    eapply (drain_invariant Q); [| |exact H2]; [|done]. by intros k d1 v d2 _ HQ (h & _ & ->)%remove_run. }
  apply clear_owner_histories_spec in H2 as Hh2; [|intros i j h h'; rewrite Eh; apply Hord].
  assert (recovery_requests db' = recovery_requests db2 /\ owner_histories db' = owner_histories db2) as [Er' Eh'].
  { unfold apply_recovery_changes in H3. apply bind_run in H3 as (n & db0 & [-> ->]%gets_run & H3).
    pose (R d := recovery_requests d = recovery_requests db2 /\ owner_histories d = owner_histories db2).
    enough (R db') by done. eapply (drain_invariant R); [| |exact H3]; [|done]. intros k d1 v d2 _ HR Hrun. unfold apply_recovery_change in Hrun.
    inv_run. match goal with H : modify _ _ _ _ = Ok _ |- _ => apply modify_run in H as (w & w' & _ & _ & ->) end.
    by apply remove_run in Hrun as (w0 & _ & ->). }
  apply apply_recovery_changes_spec in H3 as [Hc Ha]; [|unfold changes_keyed; by rewrite Ec2].
  rewrite Ht2, Ht1, Ec2 in Hc. rewrite Ht2, Ht1, Ec2, Ea2 in Ha. rewrite Ht1, Eh in Hh2.
  split_and!; [by rewrite Er', Er | by rewrite Eh' | done | done].
Qed.
End Recover.

(** ** A run

    A thief takes alice's account; bob, her recovery partner, asks for its recovery, and
    an hour later alice recovers it. *)
Definition key_authority (key : Z) : authority := mk_authority 1 [] [(key, 1)].
Definition robbed_database : database :=
  sample_database
    <| authorities := mk_table {["alice" := mk_account_authority_object 0 "alice" (key_authority 7) (key_authority 7) (key_authority 7) 0]} 1 |>
    <| accounts ::= (fun t => mk_table (<["alice" := (sample_account 1 "alice" 100000 50000 0 20000)
                                          <| account_recovery_account := "bob" |>]> (rows t)) (next_id t)) |>.
Definition robbery : M unit := update_owner_authority "alice" (key_authority 66).
Definition bob_requests : request_account_recovery_operation := mk_request_account_recovery "bob" "alice" (key_authority 8) [].
Definition after_robbery : database := run_state robbery robbed_database.
Definition after_request : database := run_state (request_account_recovery_evaluator (F := fc_ref) bob_requests) after_robbery.
Definition later (seconds : Z) (db : database) : database := db <| dgp ::= (fun p => p <| dgp_time ::= (fun t => t + seconds) |>) |>.
Lemma later_step seconds db : 0 <= seconds -> time_step (F := fc_ref) (C := crypto_ref) db (later seconds db).
Proof. intros Hs. apply step_time; [done|]. cbn. lia. Qed.
Definition alice_recovers : recover_account_operation := mk_recover_account "alice" (key_authority 8) (key_authority 7) [].

(** The next block, and then the recovery *)
Definition after_block : database :=
  run_state (update_global_dynamic_data (F := fc_ref) (C := crypto_ref) (fun _ => 200) sample_next_block skip_nothing) after_request.
Lemma recovery_needs_request_and_history_witness :
  exists db', recover_account_evaluator (F := fc_ref) alice_recovers after_block = Ok (tt, db') /\
    rows (recovery_requests db') !! "alice" = None /\
    exists db1 db2 req a1, request_account_recovery_evaluator (F := fc_ref) req db1 = Ok (tt, db2) /\
      request_account_recovery_account_to_recover req = "alice" /\
      partner_of db1 a1 = Some (request_account_recovery_recovery_account req).
Proof.
  exists (run_state (recover_account_evaluator (F := fc_ref) alice_recovers) after_block).
  assert (recover_account_evaluator (F := fc_ref) alice_recovers after_block =
    Ok (tt, run_state (recover_account_evaluator (F := fc_ref) alice_recovers) after_block)) as H by run_now.
  split; [exact H|].
  destruct (recovery_needs_request_and_history (F := fc_ref) (C := crypto_ref) _ _ _ _ H)
    as (a & r & id & h & auth & _ & _ & _ & _ & Hmade & _ & _ & _ & Hreq & _).
  split; [exact Hreq|].
  destruct (Hmade no_conditions after_robbery) as (db1 & db2 & req & a1 & _ & H1 & _ & H2 & _ & H3 & _).
  - vm_compute. reflexivity.
  - apply (rtc_l _ _ after_request); [|apply rtc_once].
    + refine (operation_step (F := fc_ref) (C := crypto_ref) no_conditions after_robbery (op_request_account_recovery bob_requests)
        (request_account_recovery_evaluator bob_requests) after_request _ eq_refl I _); [vm_compute; reflexivity|].
      unfold after_request. run_now.
    + apply (head_step _ _ (fun _ => 200) sample_next_block skip_nothing); [vm_compute; reflexivity|]. unfold after_block. run_now.
  - exists db1, db2, req, a1. split_and!; [exact H1 | exact H2 | exact H3].
Defined.

Lemma owner_gets_account_back_witness :
  exists db3 auth3,
    recover_account_evaluator (F := fc_ref) alice_recovers (later 3600 after_request) = Ok (tt, db3) /\
    rows (authorities db3) !! "alice" = Some auth3 /\ auth_owner auth3 = key_authority 8.
Proof.
  refine (owner_gets_account_back (F := fc_ref) (C := crypto_ref) "alice" (key_authority 66)
    (mk_account_authority_object 0 "alice" (key_authority 7) (key_authority 7) (key_authority 7) 0)
    ((sample_account 1 "alice" 100000 50000 0 20000) <| account_recovery_account := "bob" |>)
    (mk_account_recovery_request_object 0 "alice" (key_authority 8) (sample_time + 86400)) tt
    robbed_database after_robbery (later 3600 after_request) _ _ _ _ _ _ _ _ _ _ _).
  - apply map_Forall_empty.
  - vm_compute. reflexivity.
  - vm_compute. discriminate.
  - split; [vm_compute; discriminate | vm_compute; reflexivity].
  - unfold after_robbery. run_now.
  - apply (rtc_l _ _ after_request); [|apply rtc_once, later_step; lia].
    apply step_ledger. refine (operation_step (F := fc_ref) (C := crypto_ref) no_conditions after_robbery (op_request_account_recovery bob_requests)
      (request_account_recovery_evaluator bob_requests) after_request _ eq_refl I _); [vm_compute; reflexivity|].
    unfold after_request. run_now.
  - vm_compute. discriminate.
  - vm_compute. reflexivity.
  - vm_compute. reflexivity.
  - vm_compute. by eexists.
  - vm_compute. reflexivity.
Defined.

(** alice also asked for carol as her partner; thirty-one days later all is settled. *)
Definition settled_database : database :=
  later (31 * 24 * 60 * 60)
    (run_state (change_recovery_account_evaluator (F := fc_ref) (mk_change_recovery_account "alice" "carol" [])) after_request).
Lemma recovery_processing_spec_witness :
  let db' := run_state (account_recovery_processing (F := fc_ref)) settled_database in
  rows (recovery_requests db') = ∅ /\ rows (owner_histories db') = ∅ /\ rows (change_recovery_requests db') = ∅ /\
  exists a a', rows (accounts db') !! "alice" = Some a' /\ rows (accounts settled_database) !! "alice" = Some a /\
    account_recovery_account a = "bob" /\ account_recovery_account a' = "carol".
Proof.
  intros db'.
  assert (rows (owner_histories settled_database) = {[0 := mk_owner_authority_history_object 0 "alice" (key_authority 7) sample_time]}) as Eh
    by (vm_compute; reflexivity).
  destruct (recovery_processing_spec (F := fc_ref) settled_database tt db') as (H1 & H2 & H3 & H4).
  - intros i j h h' Hi Hj _. rewrite Eh in Hi, Hj. apply lookup_singleton_Some in Hi as [_ <-], Hj as [_ <-]. reflexivity.
  - refine (bool_decide_unpack _ _). vm_compute. exact I.
  - unfold db'. run_now.
  - split_and!; [rewrite H1; vm_compute; reflexivity | rewrite H2; vm_compute; reflexivity | rewrite H3; vm_compute; reflexivity|].
    assert (is_Some (rows (accounts db') !! "alice")) as [a' Ha'] by (vm_compute; by eexists).
    destruct (H4 "alice" a' Ha') as (a & Ha & E). exists a, a'. split_and!; [exact Ha' | exact Ha | |].
    + assert (account_recovery_account <$> rows (accounts settled_database) !! "alice" = Some "bob") as Eb by (vm_compute; reflexivity).
      rewrite Ha in Eb. by injection Eb.
    + rewrite E. clear. assert (rows (change_recovery_requests settled_database) !! "alice" =
        Some (mk_change_recovery_account_request_object 0 "alice" "carol" (sample_time + 30 * 24 * 60 * 60))) as -> by (vm_compute; reflexivity).
      vm_compute. reflexivity.
Defined.
