(* ===== verification/Applying.v ===== *)
(** * Transactions

    [_validate_block] and [_apply_transaction]: the check against known transactions,
    validation, authority, the reference to a recent block, expiration, bandwidth and the
    operations; the theorem that a transaction is applied once. *)

From S2P Require Import Prelude Exceptions Text Fc Config Asset FlatMap Authority Operations Crypto Validate SignState Transaction BlockId ForkDatabase Objects Database Conservation Sample Transfers Preserve Production Schedule Bookkeeping Funds Comments Cashout Discussions Hardforks Votes Ledger Clock.

(** [get_shared_db_merkle]: blocks whose Merkle root and authorities are accepted as they
    are.  The bytes of a checksum are read as one little-endian number. *)
Definition shared_db_merkle : list (Z * Z) :=
  [(3705111, 0x35bf79360bcd95d7ba8c8bec06370c45d50f8f0a);
   (3705120, 0x9350309bc3598b7a4cccc811701f672bb7ed2720);
   (3713940, 0x5f433524992eef8bb3b7dbeb06c52769511d8abf);
   (3714132, 0x7947e6bb60e3ccb83703658d2cb768d27377b7e8);
   (3714567, 0xddfb13fe2d3de0daf51e1506a6d4d7c2a859af45);
   (3714588, 0x84156d8faf67d3866493ac04f182dc3b447542e6);
   (4138790, 0x3f4028e28b28d70557bad80624f52e8a783a5af6);
   (5435426, 0xa5e880978baeb53c6e4bd54631bd222d8b53320b)].
Definition find_shared_db_merkle (num : Z) : option Z :=
  snd <$> head (filter (fun p => fst p = num) shared_db_merkle).

Section Applying.
Context `{F : fc_ops} `{C : crypto_ops}.

(** Hashes and sizes of serialised transactions and blocks, the chain id, and the
    evaluators that are not modelled *)
Variables (sig_digest : Z -> signed_transaction -> Z) (trx_id merkle_digest : signed_transaction -> Z).
Variables (trx_pack_size : signed_transaction -> Z) (block_pack_size : signed_block -> Z) (chain_id : Z).
Variable other_evaluator : operation -> M unit.

(** ** Blocks *)

(** [calculate_merkle_root]: one turn of the loop, and the loop; each turn leaves fewer
    hashes *)
Fixpoint hash_pairs (ids : list Z) : list Z :=
  match ids with
  | a :: b :: l => sha256_of_pair a b :: hash_pairs l
  | l => l
  end.
Fixpoint merkle_loop (fuel : nat) (ids : list Z) : Z :=
  match ids, fuel with
  | [a], _ => a
  | _, O => 0
  | _, S n => merkle_loop n (hash_pairs ids)
  end.
Definition calculate_merkle_root (b : signed_block) : Z :=
  match block_transactions b with
  | [] => 0
  | l => ripemd160_of_sha256 (merkle_loop (length l) (merkle_digest <$> l))
  end.

(** [_validate_block] *)
Definition validate_block (new_block : signed_block) (skip : Z) : M unit :=
  when (negb (has_flag skip skip_merkle_check))
    (let merkle_root := calculate_merkle_root new_block in
     if header_transaction_merkle_root (block_header new_block) =? merkle_root then mret tt
     else match find_shared_db_merkle (block_num (block_header new_block)) with
          | Some r => lift (fc_assert (r =? merkle_root))
          | None => throw fc_assert_exception
          end) ;;
  when (negb (has_flag skip skip_block_size_check))
    (hf ← has_hardfork STEEMIT_HARDFORK_0_12;
     p ← gets dgp;
     when (hf : bool) (lift (fc_assert (block_pack_size new_block <=? dgp_maximum_block_size p)))).

(** [get_block_summary] *)
Definition get_block_summary (num : Z) : M block_summary_object := fun db =>
  match rows (block_summaries db) !! num with
  | Some s => Ok (s, db)
  | None => Throw chainbase_out_of_range
  end.

(** ** Transactions *)

(** [_validate_transaction]: the getters for the authorities *)
Definition authority_of (get : account_authority_object -> authority) (db : database) : authority_getter := fun name =>
  match rows (authorities db) !! name with
  | Some a => Ok (get a)
  | None => Throw (missing_object "authority")
  end.
Definition verify_signatures (trx : signed_transaction) : M unit := fun db =>
  match transaction_verify_authority sig_digest chain_id trx (authority_of auth_active db) (authority_of auth_owner db)
          (authority_of auth_posting db) STEEMIT_MAX_SIG_CHECK_DEPTH with
  | Ok _ => Ok (tt, db)
  | Throw (tx_missing_active_auth a s) =>
      match find_shared_db_merkle (to_uint32_wrap (dgp_head_block_number (dgp db) + 1)) with
      | Some _ => Ok (tt, db)
      | None => Throw (tx_missing_active_auth a s)
      end
  | Throw e => Throw e
  end.
(** [block_id._hash[1]]: the second word of an id *)
Definition id_prefix (id : Z) : Z := Z.land (Z.shiftr id 32) (2 ^ 32 - 1).
Definition assert_or (cond : bool) (e : exception) : M unit := if cond then mret tt else throw e.
Definition check_expiration (trx : signed_transaction) : M unit :=
  now ← head_block_time;
  let maximum := time_add now STEEMIT_MAX_TIME_UNTIL_EXPIRATION in
  assert_or (expiration trx <=? maximum) tx_invalid_field ;;
  producing ← gets is_producing;
  hf9 ← has_hardfork STEEMIT_HARDFORK_0_9;
  when ((producing : bool) || (hf9 : bool)) (assert_or (now <? expiration trx) tx_expired) ;;
  assert_or (now <=? expiration trx) tx_expired.
Definition validate_transaction (trx : signed_transaction) (skip : Z) : M unit :=
  when (negb (has_flag skip skip_validate_operations)) (lift (transaction_validate trx)) ;;
  when (negb (has_flag skip (Z.lor skip_transaction_signatures skip_authority_check))) (verify_signatures trx) ;;
  num ← head_block_num;
  when (num >? 0)
    (when (negb (has_flag skip skip_tapos_check))
       (s ← get_block_summary (ref_block_num trx);
        assert_or (ref_block_prefix trx =? id_prefix (block_summary_block_id s)) tx_invalid_field) ;;
     check_expiration trx).

(** [apply_operation], without the notifications; the exception of an operation is
    replaced *)
Definition apply_operation (op : operation) : M unit :=
  match evaluator_of op with Some m => m | None => other_evaluator op end.
Definition or_invalid_operation (m : M unit) : M unit := fun db =>
  match m db with Ok r => Ok r | Throw _ => Throw tx_invalid_operation end.

(** [_apply_transaction] *)
Definition apply_transaction (trx : signed_transaction) (skip : Z) : M unit :=
  on_table current_virtual_op (fun _ => Ok 0) ;;
  known ← find_row transactions (trx_id trx);
  when (negb (has_flag skip skip_transaction_dupe_check) && bool_decide (is_Some known)) (throw tx_duplicate_transaction) ;;
  validate_transaction trx skip ;;
  charge_bandwidth trx_pack_size trx ;;
  when (negb (has_flag skip skip_transaction_dupe_check))
    (create transactions (trx_id trx) (fun id => mk_transaction_object id (trx_id trx) (expiration trx))) ;;
  for_each (fun op => or_invalid_operation (apply_operation op)) (operations trx).

End Applying.

(** ** A transaction is applied once *)

Section Once.
Context `{F : fc_ops} {L : fc_laws F} `{C : crypto_ops}.
Variables (sig_digest : Z -> signed_transaction -> Z) (trx_id merkle_digest : signed_transaction -> Z).
Variables (trx_pack_size : signed_transaction -> Z) (block_pack_size : signed_block -> Z) (chain_id : Z).
Variable other_evaluator : operation -> M unit.
(** The evaluators that are not modelled leave the head block and the known transactions
    alone, too. *)
Hypothesis other_evaluator_clock : forall op, preserves same_clock (other_evaluator op).
#[local] Abbreviation apply_transaction := (apply_transaction sig_digest trx_id trx_pack_size chain_id other_evaluator).

Lemma update_account_bandwidth_clock name n t : preserves same_clock (update_account_bandwidth name n t).
Proof. unfold update_account_bandwidth. cbv zeta. clock_solve. Qed.
Hint Resolve update_account_bandwidth_clock : preserves.
Lemma charge_special_clock hf m n name ops : preserves same_clock (charge_special hf m n name ops).
Proof. induction ops as [| op l IH]; cbn [charge_special]; clock_solve. Qed.
Hint Resolve charge_special_clock : preserves.
Lemma charge_bandwidth_clock trx : preserves same_clock (charge_bandwidth trx_pack_size trx).
Proof. unfold charge_bandwidth. cbv zeta. clock_solve. Qed.
Lemma validate_transaction_same trx skip : preserves eq (validate_transaction sig_digest chain_id trx skip).
Proof.
  unfold validate_transaction, check_expiration, assert_or. cbv zeta. preserve.
  - intros db u db'. unfold verify_signatures. repeat case_match; by intros [= _ <-].
  - intros db u db'. unfold get_block_summary. case_match; by intros [= _ <-].
Qed.
Lemma apply_operation_clock op : preserves same_clock (or_invalid_operation (apply_operation other_evaluator op)).
Proof.
  intros db u db'. unfold or_invalid_operation. destruct (apply_operation other_evaluator op db) as [[u1 db1] | e] eqn:E; [|done].
  intros [= <- <-]. revert E. unfold apply_operation. destruct (evaluator_of op) as [m|] eqn:Em; [|apply other_evaluator_clock].
  by apply (evaluator_clock op m Em).
Qed.

Lemma check_expiration_Ok trx db u db' : check_expiration trx db = Ok (u, db') -> dgp_time (dgp db) <= expiration trx.
Proof. unfold check_expiration, assert_or. cbv zeta. intros H. inv_run; lia. Qed.
Lemma validate_transaction_time trx skip db u db' : validate_transaction sig_digest chain_id trx skip db = Ok (u, db') ->
  0 < dgp_head_block_number (dgp db) -> dgp_time (dgp db) <= expiration trx.
Proof.
  intros H Hnum. unfold validate_transaction in H.
  apply bind_run in H as (u1 & db1 & H1 & H). apply bind_run in H as (u2 & db2 & H2 & H).
  apply bind_run in H as (num & db3 & H3 & H).
  assert (db1 = db) as -> by (clear -H1; unfold when in H1; by inv_run).
  assert (db2 = db) as ->.
  { clear -H2. unfold when in H2. inv_run; [|done]. revert H2. unfold verify_signatures. repeat case_match; by intros [= <-]. }
  unfold head_block_num in H3. apply gets_run in H3 as [-> ->]. rewrite (proj2 (Z.gtb_lt _ _)) in H by lia. cbn [when] in H.
  apply bind_run in H as (u4 & db4 & H4 & H). assert (db4 = db) as ->.
  { clear -H4. unfold when, assert_or in H4. inv_run; try done.
    all: match goal with H : get_block_summary _ _ = _ |- _ => revert H; unfold get_block_summary; case_match; by intros [= _ <-] end. }
  by apply check_expiration_Ok in H.
Qed.

(** What applying a transaction does to the known transactions *)
Lemma apply_transaction_run trx skip db db' : apply_transaction trx skip db = Ok (tt, db') ->
  dgp_time (dgp db') = dgp_time (dgp db) /\ dgp_head_block_number (dgp db') = dgp_head_block_number (dgp db) /\
  (if negb (has_flag skip skip_transaction_dupe_check) then
     rows (transactions db) !! trx_id trx = None /\
     exists t, transaction_expiration t = expiration trx /\ rows (transactions db') = <[trx_id trx := t]> (rows (transactions db))
   else transactions db' = transactions db) /\
  (0 < dgp_head_block_number (dgp db) -> dgp_time (dgp db) <= expiration trx).
Proof.
  intros H. unfold Applying.apply_transaction in H.
  apply bind_run in H as (u1 & db1 & (z & _ & ->)%on_table_run & H). apply bind_run in H as (known & db2 & Hk & H).
  unfold find_row in Hk. apply gets_run in Hk as [-> ->].
  apply bind_run in H as (u3 & db3 & Hd & H). assert (db3 = db <| current_virtual_op := z |>) as -> by (clear -Hd; unfold when in Hd; by inv_run).
  apply bind_run in H as (u4 & db4 & Hv & H). pose proof (validate_transaction_same _ _ _ _ _ Hv) as <-.
  apply bind_run in H as (u5 & db5 & Hc & H). apply charge_bandwidth_clock in Hc as [T1 N1 _ _ _ X1 _].
  apply bind_run in H as (u6 & db6 & Hn & H).
  apply (preserves_for_each same_clock) in H as [T2 N2 _ _ _ X2 _]; [|apply apply_operation_clock].
  pose proof (validate_transaction_time _ _ _ _ _ Hv) as Htime. clear Hv. cbn in *. unfold when in *.
  destruct (negb (has_flag skip skip_transaction_dupe_check)).
  - apply create_run in Hn as [Hnone ->]. cbn in *. rewrite X1 in Hnone. split_and!; [congruence | congruence | done | | done].
    eexists. split; [|by rewrite X2, X1]. done.
  - apply mret_run in Hn as [_ ->]. split_and!; [congruence | congruence | congruence | done].
Qed.

Lemma clear_expired_transactions_run db db' : clear_expired_transactions db = Ok (tt, db') ->
  rows (transactions db') = filter (fun kv => dgp_time (dgp db) <= transaction_expiration (snd kv)) (rows (transactions db)) /\
  dgp_time (dgp db') = dgp_time (dgp db) /\ dgp_head_block_number (dgp db') = dgp_head_block_number (dgp db).
Proof.
  unfold clear_expired_transactions. intros H. apply bind_run in H as (fuel & db1 & H1 & H). apply gets_run in H1 as [-> ->].
  assert (dgp db' = dgp db) as Hdgp.
  { revert H. apply (drain_invariant (fun d => dgp d = dgp db)); [|done]. by intros k d u d' _ E (v & _ & ->)%remove_run. }
  apply (drain_table_spec transactions trx_expired by_trx_expiration (remove transactions)) in H as [-> _]; [| | lia].
  - rewrite Hdgp. split; [|done]. apply map_filter_ext. intros k t _. cbn. unfold trx_expired. by rewrite Z.ltb_ge.
  - by intros k d u d' (v & _ & ->)%remove_run.
Qed.

(** The head block moves on. *)
Definition same_trxs (db db' : database) : Prop := transactions db' = transactions db.
#[local] Instance same_trxs_preorder : PreOrder same_trxs.
Proof. split; [done|]. unfold same_trxs. intros x y z. congruence. Qed.
Lemma same_trxs_on_table {T : Type} (proj : database -> T) `{!FieldSetter proj} f :
  (forall db t, transactions (db <| proj := t |>) = transactions db) -> preserves same_trxs (on_table proj f).
Proof. intros Hp db u db' (t & _ & ->)%on_table_run. apply Hp. Qed.
Lemma same_trxs_push op force : preserves same_trxs (push_virtual_operation op force).
Proof. by intros db u db' (n & l & ->)%push_virtual_operation_run. Qed.
Hint Resolve same_trxs_push : preserves.
Ltac same_trxs_solve :=
  repeat (preserve; try (unfold modify, modify_dgp; apply same_trxs_on_table; by intros)).
Lemma head_update_trxs b skip : preserves same_trxs (update_global_dynamic_data block_pack_size b skip).
Proof. unfold update_global_dynamic_data, get_slot_at_time, get_slot_time, miss_slot, get_scheduled_witness. cbv zeta. same_trxs_solve. Qed.

(** What happens on a chain between two pushes of a transaction: other transactions, the
    update of the head block by a later one, the end of a round, and the steps of a block *)
Inductive chain_step (db : database) : database -> Prop :=
| step_transaction trx skip db' : apply_transaction trx skip db = Ok (tt, db') -> chain_step db db'
| step_head b skip db' :
    dgp_time (dgp db) < header_timestamp (block_header b) -> 0 < block_num (block_header b) -> dgp_time (dgp db) <> 0 ->
    update_global_dynamic_data block_pack_size b skip db = Ok (tt, db') -> chain_step db db'
| step_irreversible db' : update_last_irreversible_block_num db = Ok (tt, db') -> chain_step db db'
| step_summary b db' : create_block_summary b db = Ok (tt, db') -> chain_step db db'
| step_expire db' : clear_expired_transactions db = Ok (tt, db') -> chain_step db db'
| step_ledger m db' : m ∈ all_block_steps -> m db = Ok (tt, db') -> chain_step db db'.

Definition same_now (db db' : database) : Prop :=
  dgp_time (dgp db') = dgp_time (dgp db) /\ dgp_head_block_number (dgp db') = dgp_head_block_number (dgp db) /\ same_trxs db db'.
#[local] Instance same_now_preorder : PreOrder same_now.
Proof. split; [done|]. intros x y z (? & ? & ?) (? & ? & ?). unfold same_now, same_trxs in *. split_and!; congruence. Qed.
Lemma irreversible_now : preserves same_now update_last_irreversible_block_num.
Proof.
  unfold update_last_irreversible_block_num, scheduled_witnesses, push_scheduled, is_transit_enabled. cbv zeta. preserve.
  all: intros db u db' (p & Hp & ->)%on_table_run; repeat case_match; by simplify_eq.
Qed.

(** The transaction is known, or too old to be accepted. *)
Definition not_again (trx : signed_transaction) (db : database) : Prop :=
  0 < dgp_head_block_number (dgp db) /\
  ((exists t, rows (transactions db) !! trx_id trx = Some t /\ transaction_expiration t = expiration trx) \/
   expiration trx < dgp_time (dgp db)).
Lemma not_again_same trx db db' : dgp_time (dgp db) <= dgp_time (dgp db') -> 0 < dgp_head_block_number (dgp db') ->
  transactions db' = transactions db -> not_again trx db -> not_again trx db'.
Proof. intros Ht Hn Hx [_ [Hk | He]]; (split; [done|]); [left; by rewrite Hx | right; lia]. Qed.
Lemma not_again_clock trx db db' : same_clock db db' -> not_again trx db -> not_again trx db'.
Proof. intros [T N _ _ _ X _] H. pose proof H as [Hn _]. apply (not_again_same trx db db'); [lia | lia | done | done]. Qed.

Lemma chain_step_not_again trx db db' : chain_step db db' -> not_again trx db -> not_again trx db'.
Proof.
  intros [trx' skip db1 H | b skip db1 Hlater Hpos Hnz H | db1 H | b db1 H | db1 H | m db1 Hm H] Hna.
  - apply apply_transaction_run in H as (T & N & X & _). destruct Hna as [Hn Hna]. split; [lia|].
    destruct (negb _); [|rewrite X, T; done]. destruct X as (Hnone & t & _ & ->), Hna as [(t' & Ht & Et) | He]; [|right; lia].
    left. exists t'. split; [|done]. rewrite lookup_insert_ne; [done|]. intros Heq. rewrite Heq in Hnone. congruence.
  - pose proof (head_update_trxs _ _ _ _ _ H) as X. apply head_update_run in H as (slot & db0 & hf2 & hf12 & _ & E); [|done].
    destruct (advance_head_head block_pack_size b (to_uint32_wrap (slot - 1)) hf2 hf12 (dgp db)) as (Hnum & _ & Ht & _).
    rewrite <- E in Hnum, Ht. apply (not_again_same trx db db1); [lia | lia | exact X | done].
  - apply irreversible_now in H as (T & N & X). pose proof Hna as [Hn _]. apply (not_again_same trx db db1); [lia | lia | done | done].
  - unfold create_block_summary in H. apply modify_run in H as (v & v' & _ & _ & ->). done.
  - apply clear_expired_transactions_run in H as (X & T & N). destruct Hna as [Hn Hna]. split; [lia|]. rewrite T.
    destruct Hna as [(t & Ht & Et) | He]; [|by right]. destruct (decide (expiration trx < dgp_time (dgp db))); [by right | left].
    exists t. split; [|done]. rewrite X. apply map_lookup_filter_Some. split; [done | cbn; lia].
  - apply (not_again_clock trx db db1); [by apply (all_block_steps_clock m Hm) in H | done].
Qed.

(** C18: A transaction is applied once.  After a transaction was applied with the check for
    duplicates, and whatever other transactions, later head blocks and block steps come
    in between, it is not applied again: as long as it has not expired it is known, and
    when it is forgotten it has expired. *)
Theorem transaction_applied_once trx skip skip' db db1 db2 :
  0 < dgp_head_block_number (dgp db) ->
  has_flag skip skip_transaction_dupe_check = false -> has_flag skip' skip_transaction_dupe_check = false ->
  apply_transaction trx skip db = Ok (tt, db1) -> rtc chain_step db1 db2 ->
  exists e, apply_transaction trx skip' db2 = Throw e.
Proof.
  intros Hnum Hs Hs' H1 Hsteps. apply apply_transaction_run in H1 as (T & N & X & _). rewrite Hs in X. destruct X as (_ & t & Et & X).
  assert (not_again trx db2) as [Hn Hna].
  { assert (not_again trx db1) as H1 by (split; [lia|]; left; exists t; by rewrite X, lookup_insert_eq).
    clear -Hsteps H1 other_evaluator_clock. induction Hsteps as [| x y z Hxy _ IH]; [done|]. by apply IH, (chain_step_not_again trx x). }
  destruct (apply_transaction trx skip' db2) as [[[] db3] | e] eqn:E; [exfalso | by exists e].
  apply apply_transaction_run in E as (_ & _ & X2 & Ht). rewrite Hs' in X2. destruct X2 as (Hnone & _).
  destruct Hna as [(t' & Hk & _) | He]; [congruence | specialize (Ht Hn); lia].
Qed.
End Once.

(** ** A run

    alice signs a transfer that expires in two seconds; a block later the transfer is
    forgotten. *)
Definition once_authority : authority := mk_authority 1 [] [(7, 1)].
Definition once_database : database :=
  sample_database
    <| authorities := mk_table {["alice" := mk_account_authority_object 0 "alice" once_authority once_authority once_authority 0]} 1 |>
    <| block_summaries := mk_table {[1000 := mk_block_summary_object 1000 (9 * 2 ^ 32)]} 1001 |>.
Definition once_trx : signed_transaction :=
  mk_signed_transaction 1000 9 (sample_time + 2) [op_transfer (mk_transfer "alice" "bob" (mk_asset 40000 STEEM_SYMBOL) "")] [] [12].
Definition once_block : signed_block :=
  mk_signed_block (mk_signed_block_header (endian_reverse_u32 1000) (sample_time + 3) "ann" 0 [] 0) [].
Definition once_apply : M unit :=
  apply_transaction (fun _ _ => 5) (fun _ => 77) (fun _ => 150) 0 (fun _ => throw unsupported_operation) once_trx skip_nothing.
Definition once_head : M unit := update_global_dynamic_data (fun _ => 200) once_block skip_nothing.

Lemma transaction_applied_once_witness :
  let db1 := run_state once_apply once_database in
  let db2 := run_state once_head db1 in
  let db3 := run_state clear_expired_transactions db2 in
  rows (transactions db1) !! 77 = Some (mk_transaction_object 0 77 (sample_time + 2)) /\ rows (transactions db3) !! 77 = None /\
  exists e, once_apply db3 = Throw e.
Proof.
  intros db1 db2 db3. split_and!; [vm_compute; reflexivity | vm_compute; reflexivity|].
  refine (transaction_applied_once (fun _ _ => 5) (fun _ => 77) (fun _ => 150) (fun _ => 200) 0 (fun _ => throw unsupported_operation)
    _ once_trx skip_nothing skip_nothing once_database db1 db3 _ _ _ _ _).
  - intros op. apply preserves_throw.
  - vm_compute. reflexivity.
  - vm_compute. reflexivity.
  - vm_compute. reflexivity.
  - unfold db1. change (once_apply once_database = Ok (tt, run_state once_apply once_database)). run_now.
  - apply (rtc_l _ _ db2).
    + apply (step_head _ _ _ _ _ _ _ once_block skip_nothing); [vm_compute; reflexivity | vm_compute; reflexivity | vm_compute; discriminate|].
      change (once_head db1 = Ok (tt, run_state once_head db1)). run_now.
    + apply rtc_once. apply step_expire. unfold db3. run_now.
Defined.
