(* ===== verification/Chain.v ===== *)
(** * Applying blocks to the database

    [_apply_block] put together from its parts, and the proof that it does what the
    switching of forks relies on: the database is an instance of [chain_ops] and
    [chain_laws].  The step on proposals is a parameter; it is required to leave the
    head block, its time and the last irreversible block alone. *)

From S2P Require Import Prelude Exceptions Fc Config Asset FlatMap Authority Operations Crypto SignState Transaction BlockId ForkDatabase PushBlock Objects Database Conservation Sample Transfers Escrow Market Conversion Vesting Preserve Production Schedule Bookkeeping Burning Funds Delegation Accounts Curation Comments Cashout Discussions Hardforks Votes Ledger Clock Applying.

(** What is not modelled: the step on proposals, and the decoding of the public key of
    hardfork 16 *)
Record other_steps := mk_other_steps {
  clear_expired_proposals : M unit;
  recovery_key : Z
}.

Section Chain.
Context `{F : fc_ops} `{C : crypto_ops}.
Variables (sig_digest : Z -> signed_transaction -> Z) (trx_id merkle_digest : signed_transaction -> Z).
Variables (trx_pack_size : signed_transaction -> Z) (block_pack_size : signed_block -> Z) (chain_id : Z).
Variables (other_evaluator : operation -> M unit) (other : other_steps).

(** A block of a witness with an old version is refused. *)
Definition check_running_version (witness : string) : M unit :=
  hf ← has_hardfork STEEMIT_HARDFORK_0_5__54;
  when (hf : bool)
    (w ← get_witness witness;
     current ← gets (fun db => hpo_current_hardfork_version (hardforks db));
     lift (fc_assert (witness_running_version w >=? current))).

(** [_apply_block] up to the number of the last irreversible block *)
Definition begin_block (skip : Z) (next_block : signed_block) : M unit :=
  let h := block_header next_block in
  validate_block merkle_digest block_pack_size next_block skip ;;
  signing_witness ← validate_block_header skip next_block;
  modify_dgp (fun dgp => Ok (dgp <| dgp_current_witness := header_witness h |>)) ;;
  process_header_extensions next_block ;;
  check_running_version (header_witness h) ;;
  transit ← is_transit_enabled;
  when (transit : bool) (lift (fc_assert (is_nil (block_transactions next_block)))) ;;
  for_each (fun trx => apply_transaction sig_digest trx_id trx_pack_size chain_id other_evaluator trx skip)
    (block_transactions next_block) ;;
  update_global_dynamic_data block_pack_size next_block skip ;;
  update_signing_witness signing_witness next_block ;;
  update_last_irreversible_block_num.

(** [_apply_block] from there on *)
Definition end_block (skip : Z) (next_block : signed_block) : M unit :=
  create_block_summary next_block ;;
  transit ← is_transit_enabled;
  when (negb transit)
    (clear_expired_proposals other ;; clear_expired_transactions ;; clear_expired_orders ;; clear_expired_delegations) ;;
  update_witness_schedule ;;
  transit ← is_transit_enabled;
  when (negb transit)
    (update_median_feed ;; update_virtual_supply ;; clear_null_account_balance ;; process_funds ;;
     process_conversions ;; process_comment_cashout ;; process_vesting_withdrawals ;; process_savings_withdraws ;;
     pay_liquidity_reward ;; update_virtual_supply ;; account_recovery_processing ;;
     expire_escrow_ratification ;; process_decline_voting_rights) ;;
  process_hardforks (recovery_key other) ;;
  process_transit_to_cyberway next_block.

Definition run_block (m : M unit) (db : database) : result database :=
  match m db with Ok (_, db') => Ok db' | Throw e => Throw e end.
#[export] Instance database_chain : chain_ops database := {|
  PushBlock.head_block_id db := dgp_head_block_id (dgp db);
  PushBlock.head_block_num db := dgp_head_block_number (dgp db);
  last_irreversible_block_num db := dgp_last_irreversible_block_num (dgp db);
  prepare_block skip b := run_block (begin_block skip b);
  finish_block skip b := run_block (end_block skip b)
|}.
End Chain.

(** ** The head block *)

(** The head block, its time and the last irreversible block, which only [_apply_block]
    moves *)
Definition same_head_block (db db' : database) : Prop :=
  dgp_head_block_id (dgp db') = dgp_head_block_id (dgp db) /\ dgp_head_block_number (dgp db') = dgp_head_block_number (dgp db) /\
  dgp_last_irreversible_block_num (dgp db') = dgp_last_irreversible_block_num (dgp db) /\ dgp_time (dgp db') = dgp_time (dgp db).
#[export] Instance same_head_block_preorder : PreOrder same_head_block.
Proof. split; [done|]. intros x y z (? & ? & ? & ?) (? & ? & ? & ?). unfold same_head_block. split_and!; congruence. Qed.
Lemma clock_head_block {A : Type} (m : M A) : preserves same_clock m -> preserves same_head_block m.
Proof. intros Hm db a db' H. by destruct (Hm _ _ _ H). Qed.

Definition steps_keep_head (other : other_steps) : Prop := preserves same_head_block (clear_expired_proposals other).

Section Laws.
Context `{F : fc_ops} `{C : crypto_ops}.
Variables (sig_digest : Z -> signed_transaction -> Z) (trx_id merkle_digest : signed_transaction -> Z).
Variables (trx_pack_size : signed_transaction -> Z) (block_pack_size : signed_block -> Z) (chain_id : Z).
Variables (other_evaluator : operation -> M unit) (other : other_steps).
Hypothesis other_keeps : steps_keep_head other.
#[local] Abbreviation begin_block := (begin_block sig_digest trx_id merkle_digest trx_pack_size block_pack_size chain_id other_evaluator).
#[local] Abbreviation end_block := (end_block other).

Lemma modify_witness_head k f : preserves same_head_block (modify witnesses k f).
Proof. by intros db u db' (v & v' & _ & _ & ->)%modify_run. Qed.
Lemma modify_summary_head k f : preserves same_head_block (modify block_summaries k f).
Proof. by intros db u db' (v & v' & _ & _ & ->)%modify_run. Qed.
Lemma remove_transaction_head k : preserves same_head_block (remove transactions k).
Proof. by intros db u db' (v & _ & ->)%remove_run. Qed.
Hint Resolve modify_witness_head modify_summary_head remove_transaction_head : preserves.
Lemma block_step_head m : m ∈ all_block_steps -> preserves same_head_block m.
Proof. intros Hm. by apply clock_head_block, all_block_steps_clock. Qed.

Lemma head_on_table {T : Type} (proj : database -> T) `{!FieldSetter proj} f :
  (forall db t, f (proj db) = Ok t -> same_head_block db (db <| proj := t |>)) -> preserves same_head_block (on_table proj f).
Proof. intros Hp db u db' (t & Ht & ->)%on_table_run. by apply Hp. Qed.
Ltac head_rows :=
  match goal with
  | |- preserves _ (modify_dgp _) => apply head_on_table; intros ? ? ?; by inv_ok
  | |- preserves _ (modify _ _ _) => unfold modify at 1
  | |- preserves _ (on_table _ _) => apply head_on_table; intros ? ? ?; by inv_ok
  end.
Ltac head_solve := repeat (preserve; try head_rows).
Lemma select_miners_head hf voted queue l : preserves same_head_block (select_miners hf voted queue l).
Proof. revert l. induction queue as [| [k w] queue IH]; intros l; cbn [select_miners]; unfold set_schedule; cbv zeta; head_solve. Qed.
Lemma advance_runners_head t l : preserves same_head_block (advance_runners t l).
Proof. induction l as [| k l IH]; cbn [advance_runners]; cbv zeta; head_solve. Qed.
Hint Resolve select_miners_head advance_runners_head : preserves.
Lemma select_witnesses_head : preserves same_head_block (select_witnesses).
Proof. unfold select_witnesses, set_schedule, reset_virtual_schedule_time. cbv zeta. head_solve. Qed.
Lemma schedule_head : preserves same_head_block (update_witness_schedule).
Proof.
  pose proof select_witnesses_head. unfold update_witness_schedule, update_witness_schedule4, update_witness_schedule_first, check_selection, count_hardfork_votes, write_schedule,
    update_median_witness_props, select_first, pop_pow_witness, scheduled_witnesses, push_scheduled. cbv zeta. head_solve.
Qed.
Lemma transit_head b : preserves same_head_block (process_transit_to_cyberway b).
Proof. unfold process_transit_to_cyberway, is_transit_enabled, scheduled_witnesses, push_scheduled. cbv zeta. head_solve. Qed.
Lemma apply_hardfork_head key h : preserves same_head_block (apply_hardfork key h).
Proof.
  unfold apply_hardfork, record_hardfork. compose preserves_bind; [by intros db u db' []%hardfork_changes_record|].
  intros _. head_solve. by intros db u db' (n & l & ->)%push_virtual_operation_run.
Qed.
Hint Resolve apply_hardfork_head : preserves.
Lemma process_hardforks_head key : preserves same_head_block (process_hardforks key).
Proof.
  assert (forall n, preserves same_head_block (apply_voted key n)) by (induction n; cbn [apply_voted]; preserve).
  assert (forall n, preserves same_head_block (apply_timed key n)) by (induction n; cbn [apply_timed]; preserve).
  unfold process_hardforks. preserve.
Qed.
Hint Resolve schedule_head transit_head process_hardforks_head : preserves.

Lemma end_block_head skip b : preserves same_head_block (end_block skip b).
Proof.
  unfold steps_keep_head in other_keeps. unfold Chain.end_block, create_block_summary, is_transit_enabled, clear_expired_transactions.
  preserve; apply block_step_head; unfold all_block_steps, block_steps; set_solver.
Qed.


Lemma validate_block_same b skip : preserves eq (validate_block merkle_digest block_pack_size b skip).
Proof. unfold validate_block. cbv zeta. preserve. Qed.
Lemma header_previous_head skip b db w db' : validate_block_header skip b db = Ok (w, db') ->
  db' = db /\ dgp_head_block_id (dgp db) = header_previous (block_header b) /\ dgp_time (dgp db) < header_timestamp (block_header b).
Proof.
  intros H. assert (preserves eq (validate_block_header skip b)) as Hs.
  { unfold validate_block_header, Production.head_block_id, get_slot_at_time, get_slot_time, get_scheduled_witness. cbv zeta. preserve. }
  pose proof (Hs _ _ _ H) as <-. split; [done|]. unfold validate_block_header, Production.head_block_id in H.
  apply bind_run in H as (id & db1 & H1 & H). apply gets_run in H1 as [-> ->]. apply bind_run in H as (u & db2 & H1 & H).
  apply lift_run in H1 as [H1 ->]. apply bind_run in H as (t & db3 & H2 & H). unfold head_block_time in H2. apply gets_run in H2 as [-> ->].
  apply bind_run in H as (u' & db4 & H2 & _). apply lift_run in H2 as [H2 _]. inv_ok. lia.
Qed.
Lemma signing_witness_head w b : preserves same_head_block (update_signing_witness w b).
Proof. unfold update_signing_witness, get_slot_at_time, get_slot_time. cbv zeta. preserve. Qed.

(** The parts of a block that come before the head moves, one by one *)
Hypothesis other_evaluator_clock : forall op, preserves same_clock (other_evaluator op).
Lemma apply_transaction_head trx skip :
  preserves same_head_block (apply_transaction sig_digest trx_id trx_pack_size chain_id other_evaluator trx skip).
Proof.
  unfold apply_transaction. preserve.
  - by intros db u db' (t & _ & ->)%on_table_run.
  - intros db u db' H. by rewrite (validate_transaction_same _ _ _ _ _ _ _ H).
  - apply clock_head_block, charge_bandwidth_clock.
  - by intros db u db' [_ ->]%create_run.
  - apply clock_head_block, apply_operation_clock, other_evaluator_clock.
Qed.
Hint Resolve apply_transaction_head : preserves.

(** [update_last_irreversible_block_num] changes nothing else.  Before witnesses are voted
    for, the number follows the head block at the distance of a round; from then on it does
    not go down. *)
Definition early_irreversible (num last : Z) : Z := if num >? STEEMIT_MAX_WITNESSES then num - STEEMIT_MAX_WITNESSES else last.
Definition irreversible_moved (num : Z) (db db' : database) : Prop :=
  if num <? STEEMIT_START_MINER_VOTING_BLOCK
  then dgp_last_irreversible_block_num (dgp db') = early_irreversible num (dgp_last_irreversible_block_num (dgp db))
  else dgp_last_irreversible_block_num (dgp db) <= dgp_last_irreversible_block_num (dgp db').
Lemma irreversible_head db u db' : update_last_irreversible_block_num db = Ok (u, db') ->
  dgp_head_block_id (dgp db') = dgp_head_block_id (dgp db) /\ dgp_head_block_number (dgp db') = dgp_head_block_number (dgp db) /\
  dgp_time (dgp db') = dgp_time (dgp db) /\
  irreversible_moved (dgp_head_block_number (dgp db)) db db'.
Proof.
  unfold irreversible_moved. intros H. unfold update_last_irreversible_block_num in H. apply bind_run in H as (num & db1 & [-> ->]%gets_run & H).
  destruct (Z.ltb_spec (dgp_head_block_number (dgp db)) STEEMIT_START_MINER_VOTING_BLOCK) as [Hlt | Hge].
  - apply on_table_run in H as (p & [= <-] & ->). unfold early_irreversible. case_match; by split_and!.
  - inv_run.
    + apply scheduled_witnesses_same in Hrun as <-. assert (preserves eq is_transit_enabled) as Ht by (unfold is_transit_enabled; preserve).
      apply Ht in Hrun2 as <-. unfold modify_dgp in H. apply on_table_run in H as (p & [= <-] & ->). cbn -[nth_confirmed]. split_and!; try done.
      case_match; bool_to_prop; lia.
    + apply scheduled_witnesses_same in Hrun as <-. assert (preserves eq is_transit_enabled) as Ht by (unfold is_transit_enabled; preserve).
      apply Ht in Hrun2 as <-. by split_and!.
Qed.

Lemma header_extensions_head b : preserves same_head_block (process_header_extensions b).
Proof. unfold process_header_extensions. preserve. Qed.
Lemma running_version_head w : preserves same_head_block (check_running_version w).
Proof. unfold check_running_version. preserve. Qed.
Lemma transit_check_head b : preserves same_head_block
  (transit ← is_transit_enabled; when (transit : bool) (lift (fc_assert (is_nil (block_transactions b))))).
Proof. unfold is_transit_enabled. preserve. Qed.

Lemma begin_block_head skip b db u db' : begin_block skip b db = Ok (u, db') ->
  dgp_head_block_id (dgp db) = header_previous (block_header b) /\ dgp_time (dgp db) < header_timestamp (block_header b) /\
  dgp_head_block_id (dgp db') = block_id (block_header b) /\ dgp_head_block_number (dgp db') = block_num (block_header b) /\
  dgp_time (dgp db') = header_timestamp (block_header b) /\
  irreversible_moved (block_num (block_header b)) db db'.
Proof.
  intros H. unfold Chain.begin_block in H. cbv zeta in H.
  apply bind_run in H as (u1 & db1 & H1 & H). pose proof (validate_block_same _ _ _ _ _ H1) as <-. clear H1.
  apply bind_run in H as (w & db2 & (-> & Hprev & Htime)%header_previous_head & H).
  apply bind_run in H as (u3 & db3 & (p & [= <-] & ->)%on_table_run & H).
  apply bind_run in H as (u4 & db4 & (A1 & A2 & A3 & A4)%header_extensions_head & H).
  apply bind_run in H as (u5 & db5 & (B1 & B2 & B3 & B4)%running_version_head & H).
  apply bind_run in H as (t & db6 & H6 & H). apply bind_run in H as (u7 & db7 & H7 & H).
  assert (same_head_block db5 db7) as (D1 & D2 & D3 & D4).
  { eapply (transit_check_head b). unfold mbind, M_bind. rewrite H6. exact H7. }
  apply bind_run in H as (u8 & db8 & H8 & H).
  apply (preserves_for_each same_head_block) in H8 as (G1 & G2 & G3 & G4); [|intros; apply apply_transaction_head].
  apply bind_run in H as (u9 & db9 & H9 & H). apply bind_run in H as (u10 & db10 & H10 & H).
  destruct u9. apply head_update_missed in H9 as (missed & hf2 & hf12 & E & _).
  destruct (advance_head_head block_pack_size b missed hf2 hf12 (dgp db8)) as (Hnum & Hid & Ht & Hlib). rewrite <- E in Hnum, Hid, Ht, Hlib.
  apply signing_witness_head in H10 as (E1 & E2 & E3 & E4). apply irreversible_head in H as (I1 & I2 & I3 & I4). cbn in *.
  unfold irreversible_moved in *. rewrite E2, Hnum in I4.
  split_and!; try congruence. assert (dgp_last_irreversible_block_num (dgp db10) = dgp_last_irreversible_block_num (dgp db)) as Elast by congruence.
  rewrite Elast in I4. exact I4.
Qed.

(** The database keeps the contract of [PushBlock]. *)
#[export] Instance database_laws : chain_laws database
  (Ops := database_chain sig_digest trx_id merkle_digest trx_pack_size block_pack_size chain_id other_evaluator other).
Proof.
  split; cbn; unfold run_block.
  - intros skip b s s' H. destruct (begin_block skip b s) as [[u s1] | e] eqn:E; [|done]. injection H as <-.
    by apply begin_block_head in E as (? & _ & ? & ? & _).
  - intros skip b s s' H. destruct (end_block skip b s) as [[u s1] | e] eqn:E; [|done]. injection H as <-.
    by apply end_block_head in E as (? & ? & ? & _).
Qed.
(** What the properties record of the head block: its id has its number, and while witnesses
    are not voted for yet, the last irreversible block is a round behind it. *)
Record head_recorded (db : database) : Prop := mk_head_recorded {
  recorded_number : num_from_id (dgp_head_block_id (dgp db)) = dgp_head_block_number (dgp db);
  recorded_early : dgp_head_block_number (dgp db) < STEEMIT_START_MINER_VOTING_BLOCK ->
    dgp_last_irreversible_block_num (dgp db) <= Z.max 0 (dgp_head_block_number (dgp db) - STEEMIT_MAX_WITNESSES)
}.

(** C10: A block extends the chain.  A block that applies was built on the head block and is
    later than it; afterwards it is the head block and its time is the time of the chain.
    The number of the last irreversible block does not go down: from block
    STEEMIT_START_MINER_VOTING_BLOCK on in any case, before that when the head block has the
    number that its id says and the last irreversible block is a round behind it, which
    every block keeps (fewer than 2^32 blocks).  This is what the switching of forks relies
    on. *)
Theorem block_extends_head skip b db db' :
  apply_pure (Ops := database_chain sig_digest trx_id merkle_digest trx_pack_size block_pack_size chain_id other_evaluator other)
    skip b db = Ok db' ->
  let h := block_header b in
  dgp_head_block_id (dgp db) = header_previous h /\ dgp_time (dgp db) < header_timestamp h /\
  dgp_head_block_id (dgp db') = block_id h /\ dgp_head_block_number (dgp db') = block_num h /\ dgp_time (dgp db') = header_timestamp h /\
  (STEEMIT_START_MINER_VOTING_BLOCK <= block_num h ->
   dgp_last_irreversible_block_num (dgp db) <= dgp_last_irreversible_block_num (dgp db')) /\
  (head_recorded db -> 0 <= dgp_head_block_number (dgp db) < 2 ^ 32 - 1 ->
   head_recorded db' /\ dgp_head_block_number (dgp db') = dgp_head_block_number (dgp db) + 1 /\
   dgp_last_irreversible_block_num (dgp db) <= dgp_last_irreversible_block_num (dgp db')).
Proof.
  unfold apply_pure. cbn. unfold run_block. intros H. destruct (begin_block skip b db) as [[u1 db1] | e] eqn:E1; [|done]. cbn in H.
  destruct (end_block skip b db1) as [[u2 db2] | e] eqn:E2; [|done]. injection H as <-.
  apply begin_block_head in E1 as (H1 & H2 & H3 & H4 & H5 & H6). apply end_block_head in E2 as (A & B & D & E).
  assert (irreversible_moved (block_num (block_header b)) db db2) as Hm by (unfold irreversible_moved in *; by rewrite D).
  clear H6. split_and!; try congruence; unfold irreversible_moved in Hm.
  - intros Hv. by rewrite (proj2 (Z.ltb_ge _ _) Hv) in Hm.
  - intros [R1 R2] Hr. assert (block_num (block_header b) = dgp_head_block_number (dgp db) + 1) as Hnext.
    { unfold block_num. rewrite <- H1, R1. unfold to_uint32_wrap. apply Z.mod_small. lia. }
    unfold early_irreversible in *. rewrite Hnext in Hm.
    split_and!; [split|congruence|].
    + rewrite A, B, H3, H4. apply num_from_block_id.
    + rewrite B, H4, Hnext. intros Hlt. rewrite (proj2 (Z.ltb_lt _ _) Hlt) in Hm. specialize (R2 ltac:(lia)). rewrite Hm. destruct (Z.gtb_spec (dgp_head_block_number (dgp db) + 1) STEEMIT_MAX_WITNESSES); lia.
    + destruct (Z.ltb_spec (dgp_head_block_number (dgp db) + 1) STEEMIT_START_MINER_VOTING_BLOCK); [|done].
      specialize (R2 ltac:(lia)). rewrite Hm. destruct (Z.gtb_spec (dgp_head_block_number (dgp db) + 1) STEEMIT_MAX_WITNESSES); lia.
Qed.
End Laws.

(** ** A run

    The witness of the first slot after block 1000 produces a block with the transfer of
    [Applying]. *)
Definition no_steps : other_steps :=
  mk_other_steps (mret tt) 7.
Lemma no_steps_keep : steps_keep_head no_steps.
Proof. apply (preserves_mret same_head_block). Qed.
Definition chain_database : database :=
  once_database <| witnesses := witnesses sample_round |>
    <| wso := (wso sample_round) <| wso_top19_weight := 1 |> <| wso_witness_pay_normalization_factor := 25 |> |>
    <| accounts ::= (fun t => mk_table (<[STEEMIT_NULL_ACCOUNT := sample_account 10 STEEMIT_NULL_ACCOUNT 0 0 0 0]>
         (list_to_map (imap (fun i k => (k, sample_account (11 + Z.of_nat i) k 0 0 0 0)) ["ann"; "ben"; "cyd"; "don"]) ∪ rows t)) 15) |>
    <| dgp ::= (fun p => p <| dgp_head_block_id := endian_reverse_u32 1000 |> <| dgp_maximum_block_size := 65536 |>
                           <| dgp_last_irreversible_block_num := 985 |>) |>
    <| block_summaries := mk_table (<[1001 := mk_block_summary_object 1001 0]> (rows (block_summaries once_database))) 1002 |>.
Definition chain_producer : string := match get_scheduled_witness 1 chain_database with Ok (w, _) => w | Throw _ => "" end.
Definition chain_root : Z := calculate_merkle_root (fun _ => 3) (mk_signed_block (mk_signed_block_header 0 0 "" 0 [] 0) [once_trx]).
Definition chain_block : signed_block :=
  let h := mk_signed_block_header (endian_reverse_u32 1000) (sample_time + 3) chain_producer chain_root [] 0 in
  let key := match rows (witnesses chain_database) !! chain_producer with Some w => witness_signing_key w | None => 0 end in
  mk_signed_block (match sign_header key h with Ok h' => h' | Throw _ => h end) [once_trx].
Definition chain_apply : result database :=
  apply_pure (Ops := database_chain (fun _ _ => 5) (fun _ => 77) (fun _ => 3) (fun _ => 150) (fun _ => 200) 0
    (fun _ => throw unsupported_operation) no_steps) skip_nothing chain_block chain_database.
Definition chain_after : database := match chain_apply with Ok db => db | Throw _ => chain_database end.

Lemma block_extends_head_witness :
  let h := block_header chain_block in
  dgp_last_irreversible_block_num (dgp chain_after) = 999 /\
  dgp_head_block_id (dgp chain_database) = header_previous h /\ dgp_time (dgp chain_database) < header_timestamp h /\
  dgp_head_block_id (dgp chain_after) = block_id h /\ dgp_head_block_number (dgp chain_after) = block_num h /\
  dgp_time (dgp chain_after) = header_timestamp h /\
  (STEEMIT_START_MINER_VOTING_BLOCK <= block_num h ->
   dgp_last_irreversible_block_num (dgp chain_database) <= dgp_last_irreversible_block_num (dgp chain_after)) /\
  (head_recorded chain_database -> 0 <= dgp_head_block_number (dgp chain_database) < 2 ^ 32 - 1 ->
   head_recorded chain_after /\ dgp_head_block_number (dgp chain_after) = dgp_head_block_number (dgp chain_database) + 1 /\
   dgp_last_irreversible_block_num (dgp chain_database) <= dgp_last_irreversible_block_num (dgp chain_after)).
Proof.
  intros h. split; [vm_compute; reflexivity|].
  refine (block_extends_head (fun _ _ => 5) (fun _ => 77) (fun _ => 3) (fun _ => 150) (fun _ => 200) 0
    (fun _ => throw unsupported_operation) no_steps no_steps_keep _ skip_nothing chain_block chain_database chain_after _).
  - intros op. apply preserves_throw.
  - change (chain_apply = Ok chain_after). unfold chain_after. destruct chain_apply as [db | e] eqn:E; [reflexivity|].
    exfalso. assert (match chain_apply with Ok _ => true | Throw _ => false end = true) as H by (vm_compute; reflexivity).
    rewrite E in H. discriminate H.
Defined.
