(* ===== verification/Types.v ===== *)
(** * Assets keep their symbols

    An [asset] carries its symbol at run time.  Every balance of an account and every
    supply of the global properties has one symbol for its lifetime: no operation and no
    step of a block that moves value changes it. *)

From S2P Require Import Prelude Exceptions Text Fc Config Asset FlatMap Authority Operations Crypto Validate SignState Transaction BlockId ForkDatabase Objects Database Conservation Sample Transfers Escrow Market Conversion Vesting Preserve Production Schedule Bookkeeping Burning Funds Delegation Accounts Curation Comments Cashout Payout Discussions Hardforks Votes Ledger.

(** The symbols of the fields *)
Definition account_symbols (a : account_object) : list Z :=
  symbol <$> [account_balance a; account_savings_balance a; account_sbd_balance a; account_savings_sbd_balance a;
              account_vesting_shares a; account_delegated_vesting_shares a; account_received_vesting_shares a].
Definition supply_symbols (p : dynamic_global_property_object) : list Z :=
  symbol <$> [dgp_current_supply p; dgp_current_sbd_supply p; dgp_total_vesting_fund_steem p; dgp_total_vesting_shares p;
              dgp_total_reward_fund_steem p].
Definition keeps_symbols (a a' : account_object) : Prop := account_symbols a' = account_symbols a.
#[export] Instance keeps_symbols_preorder : PreOrder keeps_symbols.
Proof. split; [done|]. unfold keeps_symbols. intros x y z. congruence. Qed.

(** The symbols the fields are declared with, in [account_object] and
    [dynamic_global_property_object] *)
Definition typed_account (a : account_object) : Prop :=
  account_symbols a = [STEEM_SYMBOL; STEEM_SYMBOL; SBD_SYMBOL; SBD_SYMBOL; VESTS_SYMBOL; VESTS_SYMBOL; VESTS_SYMBOL].
Definition typed_supplies (p : dynamic_global_property_object) : Prop :=
  supply_symbols p = [STEEM_SYMBOL; SBD_SYMBOL; STEEM_SYMBOL; VESTS_SYMBOL; STEEM_SYMBOL].
Definition well_typed (db : database) : Prop :=
  map_Forall (fun _ a => typed_account a) (rows (accounts db)) /\ typed_supplies (dgp db).

(** An account keeps its symbols; a new one has those of the declarations. *)
Definition account_typed_from (o : option account_object) (a' : account_object) : Prop :=
  match o with Some a => keeps_symbols a a' | None => typed_account a' end.
Definition typed_growth (db db' : database) : Prop :=
  forall k, (is_Some (rows (accounts db) !! k) -> is_Some (rows (accounts db') !! k)) /\
    (forall a', rows (accounts db') !! k = Some a' -> account_typed_from (rows (accounts db) !! k) a').
#[export] Instance typed_growth_preorder : PreOrder typed_growth.
Proof.
  split.
  - intros x k. split; [done|]. intros a' E. by rewrite E.
  - intros x y z Hxy Hyz k. destruct (Hxy k) as [D1 T1], (Hyz k) as [D2 T2]. split; [auto|]. intros a'' E.
    specialize (T2 _ E). destruct (rows (accounts y) !! k) as [a'|] eqn:E'; cbn in T2.
    + specialize (T1 _ eq_refl). destruct (rows (accounts x) !! k) as [a|]; cbn in *; unfold keeps_symbols, typed_account in *; congruence.
    + destruct (rows (accounts x) !! k) as [a|] eqn:Ex; [|done]. destruct D1 as [? [=]]. by eexists.
Qed.
Lemma typed_growth_rel db db' : accounts_rel keeps_symbols db db' -> typed_growth db db'.
Proof.
  intros Hrel k. specialize (Hrel k). destruct Hrel as [a a' Ha|]; cbn; [|by split; [intros [? [=]]|]].
  split; [by eexists|]. by intros ? [= <-].
Qed.

Record same_symbols (db db' : database) : Prop := mk_same_symbols {
  same_account_symbols : typed_growth db db';
  same_supply_symbols : supply_symbols (dgp db') = supply_symbols (dgp db)
}.
#[export] Instance same_symbols_preorder : PreOrder same_symbols.
Proof. split; [by split|]. intros x y z [] []. split; [by etrans | congruence]. Qed.

Lemma symbols_accounts k f : (forall a a', f a = Ok a' -> keeps_symbols a a') -> preserves same_symbols (modify accounts k f).
Proof.
  intros Hf db u db' H. split; [exact (typed_growth_rel _ _ (modify_accounts_rel keeps_symbols _ _ _ _ _ Hf H))|]. by apply modify_run in H as (v & v' & _ & _ & ->).
Qed.
Lemma symbols_dgp f : (forall p p', f p = Ok p' -> supply_symbols p' = supply_symbols p) -> preserves same_symbols (modify_dgp f).
Proof. intros Hf db u db' (p & Hp%Hf & ->)%on_table_run. split; [by apply typed_growth_rel, (accounts_rel_same keeps_symbols) | done]. Qed.
Lemma symbols_on_table {T : Type} (proj : database -> T) `{!FieldSetter proj} f :
  (forall db t, accounts (db <| proj := t |>) = accounts db /\ dgp (db <| proj := t |>) = dgp db) -> preserves same_symbols (on_table proj f).
Proof.
  intros Hp db u db' (t & _ & ->)%on_table_run. destruct (Hp db t) as [Ea Ed].
  split; [by apply typed_growth_rel, (accounts_rel_same keeps_symbols) | by rewrite Ed].
Qed.
Lemma symbols_push op force : preserves same_symbols (push_virtual_operation op force).
Proof. intros db u db' (n & l & ->)%push_virtual_operation_run. split; [by apply typed_growth_rel, (accounts_rel_same keeps_symbols) | done]. Qed.
#[export] Hint Resolve symbols_push : preserves.

(** What a change of an object does to the symbols *)
Ltac symbols_fields :=
  unfold keeps_symbols, account_symbols, supply_symbols;
  repeat match goal with
    | H : asset_add _ _ = Ok _ |- _ => apply asset_add_symbol in H
    | H : asset_sub _ _ = Ok _ |- _ => apply asset_sub_symbol in H
    end; cbn in *; congruence.
Ltac symbols_rows :=
  match goal with
  | |- preserves _ (modify accounts _ _) =>
      apply symbols_accounts; let a := fresh "a" in let a' := fresh "a'" in let Ha := fresh "Ha" in
      intros a a' Ha; unfold add_withdraw_requests, add_withdraw_routes, add_delegated, add_received, add_vests, take_fee, settle_withdrawal in Ha;
      cbv zeta in Ha; repeat match type of Ha with (if ?c then _ else _) = Ok _ => destruct c end; inv_ok; repeat case_match; symbols_fields
  | |- preserves _ (modify_dgp _) =>
      apply symbols_dgp; let p := fresh "p" in let p' := fresh "p'" in let Hp := fresh "Hp" in
      intros p p' Hp; cbv zeta in Hp; repeat match type of Hp with (if ?c then _ else _) = Ok _ => destruct c end; inv_ok;
      repeat (match goal with Hq : (if ?c then _ else _) = Ok _ |- _ => destruct c end; inv_ok); symbols_fields
  | |- preserves _ (modify _ _ _) => unfold modify at 1
  | |- preserves _ (create accounts _ _) => fail 1
  | |- preserves _ (create _ _ _) => unfold create at 1
  | |- preserves _ (remove _ _) => unfold remove at 1
  | |- preserves _ (on_table _ _) => apply symbols_on_table; intros ? ?; by split
  end.
Ltac symbols_solve := repeat (preserve; try symbols_rows).

Section Symbols.
Context `{F : fc_ops} `{!crypto_ops}.

Lemma adjust_balance_symbols name delta : preserves same_symbols (adjust_balance name delta).
Proof. unfold adjust_balance, adjust_sbd_balance, accrue_sbd_interest, pay_interest_supply. cbv zeta. symbols_solve. Qed.
Lemma adjust_savings_balance_symbols name delta : preserves same_symbols (adjust_savings_balance name delta).
Proof. unfold adjust_savings_balance, accrue_savings_interest, pay_interest_supply. cbv zeta. symbols_solve. Qed.
Lemma adjust_supply_symbols delta v : preserves same_symbols (adjust_supply delta v).
Proof. unfold adjust_supply. cbv zeta. symbols_solve. Qed.
Lemma adjust_witness_vote_symbols owner t : preserves same_symbols (adjust_witness_vote owner t).
Proof. unfold adjust_witness_vote. cbv zeta. symbols_solve. Qed.
Hint Resolve adjust_balance_symbols adjust_savings_balance_symbols adjust_supply_symbols adjust_witness_vote_symbols : preserves.
Lemma adjust_proxied_symbols r name delta : preserves same_symbols (adjust_proxied_witness_votes_at r name delta).
Proof.
  revert name. induction r as [| r IH]; intros name; cbn [adjust_proxied_witness_votes_at]; unfold adjust_witness_votes; symbols_solve.
Qed.
Lemma adjust_array_symbols r name delta : preserves same_symbols (adjust_proxied_witness_votes_array r name delta).
Proof.
  revert name. induction r as [| r IH]; intros name; cbn [adjust_proxied_witness_votes_array]; unfold adjust_witness_votes; symbols_solve.
Qed.
Lemma check_proxy_chain_symbols fuel cprox l : preserves same_symbols (check_proxy_chain fuel cprox l).
Proof. revert cprox l. induction fuel as [| fuel IH]; intros cprox l; cbn [check_proxy_chain]; cbv zeta; symbols_solve. Qed.
Lemma clear_witness_votes_symbols name : preserves same_symbols (clear_witness_votes name).
Proof. unfold clear_witness_votes. symbols_solve. Qed.
Hint Resolve adjust_proxied_symbols adjust_array_symbols check_proxy_chain_symbols clear_witness_votes_symbols : preserves.
Lemma create_vesting_symbols to steem : preserves same_symbols (create_vesting to steem).
Proof. unfold create_vesting, adjust_proxied_witness_votes. symbols_solve. Qed.
Lemma return_escrow_symbols from k : preserves same_symbols (return_escrow from k).
Proof. unfold return_escrow. symbols_solve. Qed.
Lemma cancel_order_symbols k : preserves same_symbols (cancel_order k).
Proof. unfold cancel_order, get_order. symbols_solve. Qed.
Lemma create_sbd_symbols to steem : preserves same_symbols (create_sbd to steem).
Proof. unfold create_sbd. cbv zeta. symbols_solve. Qed.
#[export] Instance same_symbols_paying : paying same_symbols.
Proof.
  split; [split; [apply _|..]|..].
  - intros k f Hf. apply symbols_accounts. intros a a' Ha%Hf. exact (f_equal account_symbols Ha).
  - intros f. apply symbols_on_table; intros ? ?; by repeat split.
  - intros f. apply symbols_on_table; intros ? ?; by repeat split.
  - intros f. apply symbols_on_table; intros ? ?; by repeat split.
  - intros f. apply symbols_dgp; by intros ? ? [= <-].
  - intros k f Hf. apply symbols_accounts. intros a a' Ha%Hf. exact (f_equal account_symbols Ha).
  - intros. apply create_vesting_symbols.
  - intros. apply create_sbd_symbols.
  - intros k f _. unfold modify. apply symbols_on_table; intros ? ?; by repeat split.
  - intros f Hf. apply symbols_dgp; intros p p' Hp; destruct (Hf p p' Hp) as [n ->]; done.
  - intros. apply symbols_push.
Qed.
Hint Resolve create_vesting_symbols return_escrow_symbols cancel_order_symbols : preserves.
Lemma fill_order_symbols k pays receives : preserves same_symbols (fill_order k pays receives).
Proof. unfold fill_order, get_order. symbols_solve. Qed.
Hint Resolve fill_order_symbols : preserves.
Lemma match_orders_symbols n o : preserves same_symbols (match_orders n o).
Proof. unfold match_orders, reward_liquidity, adjust_liquidity_reward, get_order. cbv zeta. symbols_solve. Qed.
Hint Resolve match_orders_symbols : preserves.
Lemma match_all_symbols k l : preserves same_symbols (match_all k l).
Proof. induction l as [| x l IH]; cbn [match_all]; symbols_solve. Qed.
Hint Resolve match_all_symbols : preserves.
Lemma apply_order_symbols k : preserves same_symbols (apply_order k).
Proof. unfold apply_order, get_order. cbv zeta. symbols_solve. Qed.
Hint Resolve apply_order_symbols : preserves.
Lemma place_order_symbols owner id sell p kill expires : preserves same_symbols (place_order owner id sell p kill expires).
Proof. unfold place_order, throw_if_exists_limit_order. symbols_solve. Qed.
Lemma create_expiration_symbols d s e : preserves same_symbols (create_expiration d s e).
Proof. unfold create_expiration. symbols_solve. Qed.
Hint Resolve place_order_symbols create_expiration_symbols : preserves.

Lemma symbols_create_account k init : (forall id, typed_account (init id)) -> preserves same_symbols (create accounts k init).
Proof.
  intros Hi db u db' [Hk ->]%create_run. split; [|done]. intros k'. cbn. destruct (decide (k' = k)) as [-> | Hne].
  - rewrite Hk, lookup_insert_eq. split; [intros [? [=]]|]. intros a' [= <-]. apply Hi.
  - rewrite lookup_insert_ne by done. split; [done|]. intros a' E. by rewrite E.
Qed.
Lemma metadata_symbols a j b : preserves same_symbols (store_account_json_metadata a j b).
Proof. unfold store_account_json_metadata, store_metadata_for_account. symbols_solve. Qed.
Lemma check_authority_accounts_symbols a : preserves same_symbols (check_authority_accounts a).
Proof. unfold check_authority_accounts. symbols_solve. Qed.
Lemma update_owner_authority_symbols name a : preserves same_symbols (update_owner_authority name a).
Proof. unfold update_owner_authority, check_authority_exists. symbols_solve. Qed.
Lemma apply_create_extension_symbols name e : preserves same_symbols (apply_create_extension name e).
Proof. destruct e. unfold apply_create_extension, apply_referral_options, median_props. symbols_solve. Qed.
Lemma remove_routes_while_symbols from l : preserves same_symbols (remove_routes_while from l).
Proof. induction l as [| x l IH]; cbn [remove_routes_while]; cbv zeta; symbols_solve. Qed.
Hint Resolve remove_routes_while_symbols : preserves.
Lemma reset_vesting_withdraw_symbols name : preserves same_symbols (reset_vesting_withdraw name).
Proof. unfold reset_vesting_withdraw, stop_withdraw, remove_vesting_routes. symbols_solve. Qed.
Hint Resolve metadata_symbols check_authority_accounts_symbols update_owner_authority_symbols apply_create_extension_symbols
  reset_vesting_withdraw_symbols : preserves.

(** The evaluators and the functions only they call *)
Ltac symbols_evaluator :=
  unfold transfer_evaluator, transfer_to_vesting_evaluator, transfer_to_savings_evaluator, transfer_from_savings_evaluator,
    cancel_transfer_from_savings_evaluator, break_free_referral_evaluator, escrow_transfer_evaluator, escrow_approve_evaluator,
    mark_approval, escrow_dispute_evaluator, escrow_release_evaluator, limit_order_create_evaluator, limit_order_create2_evaluator,
    limit_order_cancel_evaluator, get_limit_order, feed_publish_evaluator, convert_evaluator, withdraw_vesting_evaluator,
    set_withdraw_vesting_route_evaluator, delegate_vesting_shares_evaluator, delegate_vesting_shares_with_interest_evaluator,
    delegate_vesting_shares, median_props, reject_vesting_shares_delegation_evaluator,
    account_witness_vote_evaluator, account_witness_proxy_evaluator, set_proxy, adjust_proxied_witness_votes,
    decline_voting_rights_evaluator, account_create_evaluator, account_create_with_delegation_evaluator, create_authority,
    account_update_evaluator, account_metadata_evaluator, challenge_authority_evaluator, pay_challenge, prove_authority_evaluator,
    request_account_recovery_evaluator, recover_account_evaluator, change_recovery_account_evaluator, reset_account_evaluator,
    set_reset_account_evaluator, report_over_production_evaluator, witness_update_evaluator, chain_properties_update_evaluator,
    update_witness, transit_to_cyberway_evaluator, median_props, get_authority; cbv zeta; symbols_solve.
Lemma delegation_symbol o : account_create_with_delegation_operation_validate o = Ok tt ->
  symbol (account_create_with_delegation_delegation o) = VESTS_SYMBOL.
Proof. unfold account_create_with_delegation_operation_validate, check_asset_ge0, check_asset_ge, is_asset_type. intros Hval. inv_ok. lia. Qed.
Lemma evaluator_symbols op m : operation_validate op = Ok tt -> evaluator_of op = Some m -> preserves same_symbols m.
Proof.
  intros Hval Hm. destruct op; try discriminate Hm; injection Hm as <-; cbn in Hval; clear -Hval; symbols_evaluator;
    apply symbols_create_account; intros id; [done|]. unfold typed_account, account_symbols. cbn. by rewrite delegation_symbol.
Qed.

Lemma process_withdrawal_symbols from : preserves same_symbols (process_withdrawal from).
Proof.
  unfold process_withdrawal, reset_vesting_withdraw, remove_vesting_routes, stop_withdraw, deposit_as_vests, deposit_as_steem,
    push_fill_vesting_withdraw, adjust_proxied_witness_votes. cbv zeta. symbols_solve.
Qed.
Hint Resolve process_withdrawal_symbols : preserves.
Lemma withdrawal_loop_symbols fuel current : preserves same_symbols (withdrawal_loop fuel current).
Proof. revert current. induction fuel as [| n IH]; intros current; cbn [withdrawal_loop]; cbv zeta; symbols_solve. Qed.
Hint Resolve withdrawal_loop_symbols : preserves.

Lemma block_step_symbols m : m ∈ block_steps -> preserves same_symbols m.
Proof.
  intros Hm. unfold block_steps in Hm. repeat (apply elem_of_cons in Hm as [-> | Hm]); [.. | by apply not_elem_of_nil in Hm].
  - unfold clear_expired_orders. symbols_solve.
  - unfold clear_expired_delegations, return_delegation. cbv zeta. symbols_solve.
  - unfold update_median_feed, scheduled_witnesses, push_scheduled, record_median. cbv zeta. symbols_solve.
  - unfold update_virtual_supply. symbols_solve.
  - unfold clear_null_account_balance, clear_null_balance, clear_null_vesting, burn. cbv zeta. symbols_solve.
  - unfold process_funds, pay_inflation, pay_first_rewards, pay_witness, add_funds, get_content_reward, get_curation_reward,
      get_producer_reward. cbv zeta. symbols_solve.
  - unfold process_conversions, convert_request. symbols_solve.
  - unfold process_vesting_withdrawals. symbols_solve.
  - unfold process_savings_withdraws, complete_savings_withdraw. symbols_solve.
  - unfold pay_liquidity_reward, get_liquidity_reward. symbols_solve.
  - unfold account_recovery_processing, clear_recovery_requests, clear_owner_histories, apply_recovery_changes, apply_recovery_change.
    symbols_solve.
  - unfold expire_escrow_ratification, expire_escrow. symbols_solve.
  - unfold process_decline_voting_rights, decline_voting_rights. symbols_solve.
Qed.

Lemma same_symbols_typed db db' : same_symbols db db' -> well_typed db -> well_typed db'.
Proof.
  intros [Ha Hs] [Hta Hts]. split; [|unfold typed_supplies; congruence].
  intros k a' Ha'. destruct (Ha k) as [_ T]. specialize (T _ Ha'). destruct (rows (accounts db) !! k) as [a|] eqn:E; [|done].
  unfold typed_account. rewrite <- (Hta _ _ E). done.
Qed.

Lemma bookkept_symbols moves db db' : bookkept moves db db' -> same_symbols db db'.
Proof.
  intros Hk. split; [apply typed_growth_rel, (accounts_rel_same keeps_symbols), (kept_accounts _ _ _ Hk)|].
  exact (f_equal supply_symbols (kept_properties _ _ _ Hk)).
Qed.
Lemma ledger_step_symbols given db db' : ledger_step given db db' -> same_symbols db db'.
Proof.
  intros [op m db1 Hval Hm _ Hrun | m db1 Hm _ Hrun | k db1 _ Hrun | key db1 Hl Hrun | m db1 Hm Hrun | size b skip db1 _ Hrun];
    [exact (evaluator_symbols _ _ Hval Hm _ _ _ Hrun) | exact (block_step_symbols _ Hm _ _ _ Hrun)| | | |].
  - exact (cashout_comment_preserves same_symbols k _ _ _ Hrun).
  - apply process_hardforks_late in Hrun as [(h & n & l & ->) _]; [|done]. by destruct (reflexivity db : same_symbols db db).
  - by eapply bookkept_symbols, bookkeeping_bookkept.
  - by eapply bookkept_symbols, head_update_bookkept.
Qed.

Lemma steps_keep_type given db db' : rtc (ledger_step given) db db' -> well_typed db ->
  well_typed db' /\ dom (rows (accounts db)) ⊆ dom (rows (accounts db')).
Proof.
  intros Hs Ht. assert (same_symbols db db') as Hsame.
  { induction Hs as [db | db1 db2 db3 H12 _ IH]; [done|]. apply ledger_step_symbols in H12. etrans; [done|].
    apply IH. by eapply same_symbols_typed. }
  split; [by eapply same_symbols_typed|]. intros k. rewrite !elem_of_dom. apply (same_account_symbols _ _ Hsame k).
Qed.

(** C21: Amounts keep their type: an asset carries its symbol only at run time, but every
    balance of every account and every supply of the global properties keeps the symbol
    it is declared with under every sequence of validated operations with a modelled
    evaluator, steps of blocks, the burning of what "null" owns among them, payouts,
    hardforks after 0.17, bookkeeping and moves of the head block; also those of the
    accounts they create, so GOLOS, GBG and vesting shares are never mixed in one field,
    and no account disappears. *)
Theorem assets_keep_type db db' :
  well_typed db -> rtc (ledger_step no_conditions) db db' ->
  well_typed db' /\ dom (rows (accounts db)) ⊆ dom (rows (accounts db')).
Proof. intros Ht Hs. by eapply steps_keep_type. Qed.
End Symbols.

(** alice's gift to "null" is burned by the next block, which also pays carol's
    instalment. *)
Lemma assets_keep_type_witness :
  let db1 := run_state (transfer_evaluator (F := fc_ref) sample_gift) sample_burning_database in
  let db2 := run_state (update_global_dynamic_data (F := fc_ref) (C := crypto_ref) (fun _ => 200) sample_next_block skip_nothing) db1 in
  let db3 := run_state (clear_null_account_balance (F := fc_ref)) db2 in
  let db4 := run_state (process_vesting_withdrawals (F := fc_ref)) db3 in
  well_typed db4 /\ dom (rows (accounts sample_burning_database)) ⊆ dom (rows (accounts db4)).
Proof.
  intros db1 db2 db3 db4.
  apply (assets_keep_type (F := fc_ref) sample_burning_database db4).
  - split; [|vm_compute; reflexivity]. apply map_Forall_to_list. vm_compute. repeat constructor.
  - apply (rtc_l _ _ db1); [|apply (rtc_l _ _ db2); [|apply (rtc_l _ _ db3); [|apply rtc_once]]].
    + refine (operation_step (C := crypto_ref) no_conditions _ (op_transfer sample_gift) _ _ _ eq_refl I _);
        [vm_compute; reflexivity | unfold db1; run_now].
    + apply (head_step _ _ (fun _ => 200) sample_next_block skip_nothing); [vm_compute; reflexivity | unfold db2; run_now].
    + refine (block_step no_conditions _ clear_null_account_balance _ _ I _); [unfold block_steps; set_solver | unfold db3; run_now].
    + refine (block_step no_conditions _ process_vesting_withdrawals _ _ I _); [unfold block_steps; set_solver | unfold db4; run_now].
Defined.
