(* ===== verification/BlockRun.v ===== *)
(** * A block is a run of ledger steps

    The invariants of the ledger, of votes, of discussions and of symbols are stated for
    sequences of steps.  [_apply_block] is such a sequence: its operations, the steps of
    the block, the payouts, the hardforks, the bookkeeping and the move of the head block.
    So a block that applies keeps these invariants. *)

From S2P Require Import Prelude Exceptions Fc Config Asset FlatMap Authority Operations Crypto Validate SignState Transaction BlockId ForkDatabase PushBlock Objects Database Conservation Sample Transfers Escrow Market Conversion Vesting Preserve Production Schedule Bookkeeping Burning Funds Delegation Accounts Curation Comments Cashout Payout Discussions Hardforks Votes Ledger Identifiers Tally Clock Applying Chain Types.

(** Hardforks after 0.17 only *)
Definition after_17 (db : database) : Prop := (STEEMIT_HARDFORK_0_17 < length (processed_hardforks db))%nat.

Section Run.
Context `{F : fc_ops} {L : fc_laws F} `{C : crypto_ops}.
Variable given : conditions.

(** From a database after hardfork 0.17, a run of steps *)
Definition ledger_run (db db' : database) : Prop := after_17 db -> rtc (ledger_step given) db db' /\ after_17 db'.
#[export] Instance ledger_run_preorder : PreOrder ledger_run.
Proof.
  split; [by split|]. intros x y z Hxy Hyz Hx. destruct (Hxy Hx) as [H1 Hy], (Hyz Hy) as [H2 Hz]. split; [by etrans | done].
Qed.

Lemma ledger_step_after_17 db db' : ledger_step given db db' -> after_17 db -> after_17 db'.
Proof.
  unfold after_17, processed_hardforks. intros [op m d _ Hm _ H | m d Hm _ H | k d _ H | key d Hl H | m d Hm H | size b skip d _ H] Hlate.
  - apply (evaluator_clock _ _ Hm) in H. by rewrite (same_hardforks _ _ H).
  - apply (block_step_clock _ Hm) in H. by rewrite (same_hardforks _ _ H).
  - apply (cashout_comment_preserves same_clock) in H. by rewrite (same_hardforks _ _ H).
  - apply process_hardforks_late in H as [_ Hmore]; [|done]. unfold processed_hardforks in Hmore. lia.
  - apply bookkeeping_bookkept in H; [|done]. pose proof (kept_hardforks _ _ _ H) as E. unfold processed_hardforks in E. by rewrite E.
  - apply head_update_bookkept in H. pose proof (kept_hardforks _ _ _ H) as E. unfold processed_hardforks in E. by rewrite E.
Qed.
Lemma run_step (m : M unit) : (forall db db', m db = Ok (tt, db') -> after_17 db -> ledger_step given db db') -> preserves ledger_run m.
Proof.
  intros Hm db [] db' H Hlate. pose proof (Hm _ _ H Hlate) as Hstep. split; [by apply rtc_once | by eapply ledger_step_after_17].
Qed.
Lemma run_same {A : Type} (m : M A) : preserves eq m -> preserves ledger_run m.
Proof. intros Hm db a db' H. by rewrite (Hm _ _ _ H). Qed.
Lemma run_for_each {A : Type} (f : A -> M unit) l : (forall x, x ∈ l -> preserves ledger_run (f x)) -> preserves ledger_run (for_each f l).
Proof.
  induction l as [| x l IH]; intros Hf; cbn [for_each]; [compose preserves_mret|]. compose preserves_bind; [apply Hf; left|].
  intros _. apply IH. intros y Hy. apply Hf. by right.
Qed.
Lemma run_record m : bookkeeping m -> preserves ledger_run m.
Proof. intros Hm. apply run_step. intros db db' H _. by eapply record_step. Qed.

Hypothesis always_payable : forall db c, payable given db c.
Hypothesis always_in_block : forall db, in_block given db.

Lemma run_block_step m : m ∈ block_steps -> preserves ledger_run m.
Proof. intros Hm. apply run_step. intros db db' H _. by eapply block_step. Qed.
Lemma run_payout k : preserves ledger_run (cashout_comment_helper k).
Proof. apply run_step. intros db db' H _. by eapply payout_step. Qed.
Hint Resolve run_payout : preserves.
Lemma run_cashouts : preserves ledger_run process_comment_cashout.
Proof. unfold process_comment_cashout, cashout_current, get_comment. preserve. Qed.
Lemma run_hardforks key : preserves ledger_run (process_hardforks key).
Proof. apply run_step. intros db db' H Hlate. by eapply hardfork_step. Qed.

(** *** Transactions *)

Variables (sig_digest : Z -> signed_transaction -> Z) (trx_id merkle_digest : signed_transaction -> Z).
Variables (trx_pack_size : signed_transaction -> Z) (block_pack_size : signed_block -> Z) (chain_id : Z).
Variables (other_evaluator : operation -> M unit) (other : other_steps).

(** An operation with a modelled evaluator that the conditions allow *)
Definition within (op : operation) : Prop := is_Some (evaluator_of op) /\ allowed given op.
Definition transaction_within (trx : signed_transaction) : Prop := Forall within (operations trx).

Lemma run_operation op : within op -> operation_validate op = Ok tt -> preserves ledger_run (or_invalid_operation (apply_operation other_evaluator op)).
Proof.
  intros [[m Hm] Ha] Hv. apply run_step. intros db db' H _. revert H. unfold or_invalid_operation, apply_operation. rewrite Hm.
  destruct (m db) as [[[] db1] | e] eqn:E; [|done]. intros [= <-]. by eapply operation_step.
Qed.
Lemma validated_operations trx skip db u db' : has_flag skip skip_validate_operations = false ->
  validate_transaction sig_digest chain_id trx skip db = Ok (u, db') -> Forall (fun op => operation_validate op = Ok tt) (operations trx).
Proof.
  intros Hskip H. unfold validate_transaction in H. rewrite Hskip in H. cbn [negb when] in H. apply bind_run in H as (u1 & db1 & H1 & _).
  apply lift_run in H1 as [H1 _]. unfold transaction_validate in H1. destruct (is_nil _); [done|]. apply result_for_each_Ok in H1.
  eapply Forall_impl; [done|]. intros op Hop. cbn in Hop. by destruct (operation_validate op) as [[] |].
Qed.
Lemma run_transaction trx skip : has_flag skip skip_validate_operations = false -> transaction_within trx ->
  preserves ledger_run (apply_transaction sig_digest trx_id trx_pack_size chain_id other_evaluator trx skip).
Proof.
  intros Hskip Hops db u db' H. unfold apply_transaction in H.
  apply bind_run in H as (u1 & db1 & H1 & H). apply (run_record _ (keep_virtual_op 0)) in H1. etrans; [exact H1|]. clear H1.
  apply bind_run in H as (known & db2 & H1 & H). unfold find_row in H1. apply gets_run in H1 as [-> ->].
  apply bind_run in H as (u3 & db3 & H1 & H). assert (db3 = db1) as -> by (clear -H1; unfold when in H1; by inv_run). clear H1.
  apply bind_run in H as (u4 & db4 & Hv & H). pose proof (validate_transaction_same _ _ _ _ _ _ _ Hv) as <-.
  pose proof (validated_operations _ _ _ _ _ Hskip Hv) as Hvalid. clear Hv.
  apply bind_run in H as (u5 & db5 & H1 & H). apply (run_record _ (keep_bandwidth trx_pack_size trx)) in H1. etrans; [exact H1|]. clear H1.
  apply bind_run in H as (u6 & db6 & H1 & H). transitivity db6.
  { unfold when in H1. destruct (negb _); [by eapply (run_record _ (keep_transaction (trx_id trx) trx)) | by apply mret_run in H1 as [_ ->]]. }
  revert H. apply run_for_each. intros op Hop. apply run_operation; [by eapply Forall_forall in Hops | by eapply Forall_forall in Hvalid].
Qed.

(** *** Blocks *)

Hypothesis other_keeps : steps_keep_head other.
Hypothesis other_evaluator_clock : forall op, preserves same_clock (other_evaluator op).
(** The step on proposals, which executes their transactions, takes steps of the ledger. *)
Hypothesis other_runs : preserves ledger_run (clear_expired_proposals other).
#[local] Abbreviation begin_block := (begin_block sig_digest trx_id merkle_digest trx_pack_size block_pack_size chain_id other_evaluator).
#[local] Abbreviation end_block := (end_block other).

Lemma run_head b skip db u db' : dgp_time (dgp db) < header_timestamp (block_header b) ->
  update_global_dynamic_data block_pack_size b skip db = Ok (u, db') -> ledger_run db db'.
Proof.
  intros Ht H Hlate. destruct u. assert (ledger_step given db db') as Hstep by (by eapply head_step).
  split; [by apply rtc_once | by eapply ledger_step_after_17].
Qed.
Lemma begin_block_run skip b : has_flag skip skip_validate_operations = false -> Forall transaction_within (block_transactions b) ->
  preserves ledger_run (begin_block skip b).
Proof.
  intros Hskip Hops db u db' H. unfold Chain.begin_block in H. cbv zeta in H.
  apply bind_run in H as (u1 & db1 & H1 & H). pose proof (validate_block_same _ _ _ _ _ _ _ H1) as <-. clear H1.
  apply bind_run in H as (w & db2 & (-> & _ & Htime)%header_previous_head & H).
  apply bind_run in H as (u3 & db3 & H1 & H). assert (dgp_time (dgp db3) = dgp_time (dgp db)) as T3 by (by apply on_table_run in H1 as (p & [= <-] & ->)).
  apply (run_record _ (keep_current_witness _)) in H1. etrans; [exact H1|]. clear H1.
  apply bind_run in H as (u4 & db4 & H1 & H). pose proof (header_extensions_head _ _ _ _ H1) as (_ & _ & _ & T4).
  apply (run_record _ (keep_header_extensions _)) in H1. etrans; [exact H1|]. clear H1.
  apply bind_run in H as (u5 & db5 & H1 & H). assert (preserves eq (check_running_version (header_witness (block_header b)))) as Hv by (unfold check_running_version; preserve).
  apply Hv in H1 as <-. apply bind_run in H as (t & db6 & H1 & H). assert (preserves eq is_transit_enabled) as Htr by (unfold is_transit_enabled; preserve).
  apply Htr in H1 as <-. apply bind_run in H as (u7 & db7 & H1 & H). assert (db7 = db4) as -> by (clear -H1; unfold when in H1; by inv_run). clear H1.
  apply bind_run in H as (u8 & db8 & H1 & H).
  assert (same_head_block db4 db8) as (_ & _ & _ & T8).
  { revert H1. apply (preserves_for_each same_head_block). intros trx. by apply apply_transaction_head. }
  apply (run_for_each _ _ (fun trx Hin => run_transaction trx skip Hskip (proj1 (Forall_forall _ _) Hops trx Hin))) in H1. etrans; [exact H1|]. clear H1.
  apply bind_run in H as (u9 & db9 & H1 & H). apply run_head in H1; [|rewrite T8, T4, T3; lia]. etrans; [exact H1|]. clear H1.
  apply bind_run in H as (u10 & db10 & H1 & H). apply (run_record _ (keep_signing_witness _ _)) in H1. etrans; [exact H1|].
  by apply (run_record _ keep_irreversible) in H.
Qed.
Hint Resolve run_cashouts run_hardforks : preserves.
Lemma end_block_run skip b : preserves ledger_run (end_block skip b).
Proof.
  unfold Chain.end_block. assert (preserves ledger_run is_transit_enabled) as Ht by (apply run_same; unfold is_transit_enabled; preserve).
  preserve; first [by apply run_record; constructor | apply run_block_step; unfold block_steps; set_solver].
Qed.
End Run.

Section Invariants.
Context `{F : fc_ops} {L : fc_laws F} `{C : crypto_ops}.
Variables (sig_digest : Z -> signed_transaction -> Z) (trx_id merkle_digest : signed_transaction -> Z).
Variables (trx_pack_size : signed_transaction -> Z) (block_pack_size : signed_block -> Z) (chain_id : Z).
Variables (other_evaluator : operation -> M unit) (other : other_steps).
Hypothesis other_keeps : steps_keep_head other.
Hypothesis other_evaluator_clock : forall op, preserves same_clock (other_evaluator op).
Hypothesis other_runs : preserves (ledger_run null_conditions) (clear_expired_proposals other).

(** C40: Blocks keep the invariants of the chain.  A block after hardfork 0.17 that applies
    with its operations validated, and that holds only operations with a modelled evaluator,
    none of them a vote or proxy of "null", is a sequence of steps of the ledger: so the
    theorems about such sequences hold of whole blocks.  In particular it keeps the types of
    all balances and supplies and every account, and the tallies of witness votes: after it,
    every proxy and every witness has what a recount finds.  The step on proposals is asked
    to be such a sequence itself. *)
Theorem block_keeps_invariants skip b db db' :
  has_flag skip skip_validate_operations = false -> after_17 db ->
  Forall (transaction_within null_conditions) (block_transactions b) ->
  apply_pure (Ops := database_chain sig_digest trx_id merkle_digest trx_pack_size block_pack_size chain_id other_evaluator other)
    skip b db = Ok db' ->
  rtc (ledger_step null_conditions) db db' /\ after_17 db' /\
  (well_typed db -> well_typed db' /\ dom (rows (accounts db)) ⊆ dom (rows (accounts db'))) /\
  (numbers_ok db -> tallied db -> numbers_ok db' /\ tallied db' /\ recounted db').
Proof.
  intros Hskip Hlate Hops. unfold apply_pure. cbn. unfold run_block. intros H.
  destruct (begin_block _ _ _ _ _ _ _ skip b db) as [[u1 db1] | e] eqn:E1; [|done]. cbn in H.
  destruct (end_block other skip b db1) as [[u2 db2] | e] eqn:E2; [|done]. injection H as <-.
  eapply (begin_block_run null_conditions) in E1; [|done..]. destruct (E1 Hlate) as [R1 Hlate1].
  eapply (end_block_run null_conditions) in E2; [|done..]. destruct (E2 Hlate1) as [R2 Hlate2].
  assert (rtc (ledger_step null_conditions) db db2) as R by (by etrans). split_and!; [done | done | by eapply steps_keep_type|].
  intros Hn Ht. destruct (steps_keep_tallies _ _ R) as (Hn' & Ht'); [done|]. split_and!; [done | done | by apply tallied_recounted].
Qed.
End Invariants.

(** *** A run

    The block of [Chain] with alice's transfer *)
Lemma block_keeps_invariants_witness :
  rtc (ledger_step (F := fc_ref) (C := crypto_ref) null_conditions) chain_database chain_after /\ after_17 chain_after /\
  (well_typed chain_after /\ dom (rows (accounts chain_database)) ⊆ dom (rows (accounts chain_after))) /\
  (numbers_ok chain_after /\ tallied chain_after /\ recounted chain_after).
Proof.
  assert (tallied chain_database) as Ht.
  { apply tallied_start.
    - done.
    - refine (bool_decide_unpack _ _); by vm_compute.
    - refine (bool_decide_unpack _ _); by vm_compute.
    - refine (bool_decide_unpack _ _); by vm_compute.
    - assert (map_Forall (fun o w => o = match witness_id w with 0 => "ann" | 1 => "ben" | 2 => "cyd" | _ => "don" end)
                (rows (witnesses chain_database))) as Hw by (refine (bool_decide_unpack _ _); by vm_compute).
      intros o1 o2 w1 w2 H1 H2 E. rewrite (Hw _ _ H1), (Hw _ _ H2). by rewrite E.
    - apply Nat.ltb_lt; by vm_compute. }
  destruct (block_keeps_invariants (fun _ _ => 5) (fun _ => 77) (fun _ => 3) (fun _ => 150) (fun _ => 200) 0
    (fun _ => throw unsupported_operation) no_steps no_steps_keep) with (skip := skip_nothing) (b := chain_block) (db := chain_database) (db' := chain_after)
    as (R & H17 & Htyped & Htallied).
  - intros op. apply preserves_throw.
  - apply (preserves_mret (ledger_run null_conditions)).
  - done.
  - apply Nat.ltb_lt; by vm_compute.
  - repeat constructor. by eexists.
  - change (chain_apply = Ok chain_after). unfold chain_after. destruct chain_apply as [db | e] eqn:E; [reflexivity|].
    exfalso. assert (match chain_apply with Ok _ => true | Throw _ => false end = true) as H by (vm_compute; reflexivity).
    rewrite E in H. discriminate H.
  - split; [exact R | split; [exact H17 | split]].
    + apply Htyped. split; [|vm_compute; reflexivity]. apply map_Forall_to_list. vm_compute. repeat constructor.
    + apply Htallied; [split; [split|]|done]; [refine (bool_decide_unpack _ _); by vm_compute.. |].
      apply null_silent_start; [done | done | refine (bool_decide_unpack _ _); by vm_compute].
Defined.
