(* ===== verification/Genesis.v ===== *)
(** * Genesis

    [init_genesis] of [chain/database.cpp]: the objects that an empty database starts with.
    They satisfy the invariants that the other files show to be kept, so that the books
    balance in every state that operations, steps of blocks and hardforks reach from the
    start of the chain.  The snapshot of accounts that the code reads from a file (and
    whose checksum it verifies) is an argument, and so is the public key that the
    configuration writes as text. *)

From S2P Require Import Prelude Exceptions Text Fc Config Asset FlatMap Authority Version Operations Crypto Validate Transaction ForkDatabase Objects Database Conservation Sample Transfers Escrow Market Conversion Vesting Preserve Production Schedule Bookkeeping Burning Funds Delegation Accounts Curation Comments Cashout Payout Discussions Hardforks Forest Votes Ledger Threads Identifiers Tally Retally Recovery Types.

(** [account_keys] and [account_summary] of [snapshot_state.hpp]; the fields that are not
    used are left out. *)
Record account_keys := mk_account_keys {
  owner_key : authority;
  active_key : authority;
  posting_key : authority;
  memo_key : Z
}.
Record account_summary := mk_account_summary { summary_name : string; summary_keys : account_keys }.

Definition STEEMIT_NUM_INIT_MINERS : nat := 1.
Definition STEEMIT_MAX_TRANSACTION_SIZE : Z := 1024*64.
Definition STEEMIT_MAX_BLOCK_SIZE : Z := STEEMIT_MAX_TRANSACTION_SIZE*STEEMIT_BLOCK_INTERVAL*2000.
Definition STEEMIT_INIT_SUPPLY : Z := 43306176000.

Section Genesis.
Context `{F : fc_ops}.
Variable init_public_key : Z.

(** An account with its metadata and its authorities *)
Definition create_metadata (name json_metadata : string) : M unit :=
  store ← store_metadata_for_account name;
  when store (create account_metadatas name (fun id => mk_account_metadata_object id name json_metadata)).
Definition create_genesis_account (name : string) (f : account_object -> account_object) (json_metadata : string)
    (owner active posting : authority) : M unit :=
  create accounts name (fun id => f (new_account_object id name)) ;;
  create_metadata name json_metadata ;;
  create authorities name (fun id => mk_account_authority_object id name owner active posting 0).

(** An account without keys *)
Definition create_special_account (name : string) (threshold : Z) : M unit :=
  create_genesis_account name (fun a => a) "" (mk_authority threshold [] []) (mk_authority threshold [] []) authority_default.

(** A first miner; the first of them owns the supply. *)
Definition miner_name (i : nat) : string :=
  STEEMIT_INIT_MINER_NAME +:+ (match i with O => "" | _ => fc_to_string (Z.of_nat i) end).
Definition create_init_miner (init_supply : Z) (i : nat) : M unit :=
  let name := miner_name i in
  let auth := (add_authority_key init_public_key 1 authority_default) <| weight_threshold := 1 |> in
  create_genesis_account name (fun a => a <| account_memo_key := init_public_key |>
      <| account_balance := mk_asset (safe_of_uint64 (match i with O => init_supply | _ => 0 end)) STEEM_SYMBOL |>)
    "" auth auth auth ;;
  create witnesses name (fun id => (new_witness_object id name 0) <| witness_signing_key := init_public_key |> <| witness_schedule := miner |>).

(** An account of the snapshot *)
Definition create_snapshot_account (account : account_summary) : M unit :=
  let keys := summary_keys account in
  create_genesis_account (summary_name account)
    (fun a => a <| account_memo_key := memo_key keys |> <| account_recovery_account := STEEMIT_INIT_MINER_NAME |>)
    "{created_at: 'GENESIS'}" (owner_key keys) (active_key keys) (posting_key keys).

(** The member initialisers of the singletons, with what [init_genesis] sets *)
Definition genesis_properties (init_supply : Z) : dynamic_global_property_object := {|
  dgp_id := 0; dgp_head_block_number := 0; dgp_head_block_id := 0; dgp_time := STEEMIT_GENESIS_TIME;
  dgp_current_witness := STEEMIT_INIT_MINER_NAME; dgp_total_pow := 2 ^ 64 - 1; dgp_num_pow_witnesses := 0;
  dgp_virtual_supply := mk_asset (safe_of_uint64 init_supply) STEEM_SYMBOL;
  dgp_current_supply := mk_asset (safe_of_uint64 init_supply) STEEM_SYMBOL;
  dgp_confidential_supply := mk_asset 0 STEEM_SYMBOL; dgp_current_sbd_supply := mk_asset 0 SBD_SYMBOL;
  dgp_confidential_sbd_supply := mk_asset 0 SBD_SYMBOL; dgp_total_vesting_fund_steem := mk_asset 0 STEEM_SYMBOL;
  dgp_total_vesting_shares := mk_asset 0 VESTS_SYMBOL; dgp_total_reward_fund_steem := mk_asset 0 STEEM_SYMBOL;
  dgp_total_reward_shares2 := 0; dgp_sbd_interest_rate := 0; dgp_sbd_print_rate := STEEMIT_100_PERCENT;
  dgp_is_forced_min_price := false; dgp_average_block_size := 0; dgp_maximum_block_size := STEEMIT_MAX_BLOCK_SIZE;
  dgp_current_aslot := 0; dgp_recent_slots_filled := 2 ^ 128 - 1; dgp_participation_count := 128;
  dgp_last_irreversible_block_num := 0; dgp_max_virtual_bandwidth := 0; dgp_current_reserve_ratio := 1;
  dgp_vote_regeneration_per_day := 40; dgp_custom_ops_bandwidth_multiplier := STEEMIT_CUSTOM_OPS_BANDWIDTH_MULTIPLIER;
  dgp_transit_block_num := 2 ^ 32 - 1; dgp_transit_witnesses := replicate (Z.to_nat STEEMIT_MAX_WITNESSES) "" |}.
Definition genesis_feed_history : feed_history_object :=
  mk_feed_history_object 0 (mk_price (mk_asset 0 STEEM_SYMBOL) (mk_asset 0 STEEM_SYMBOL)) [].
Definition genesis_hardforks : hardfork_property_object := mk_hardfork_property_object 0 [STEEMIT_GENESIS_TIME] 0 0 0 0.
Definition genesis_schedule : witness_schedule_object := {|
  wso_id := 0; wso_current_virtual_time := 0; wso_next_shuffle_block_num := 1;
  wso_current_shuffled_witnesses := STEEMIT_INIT_MINER_NAME :: replicate (Z.to_nat STEEMIT_MAX_WITNESSES - 1) "";
  wso_num_scheduled_witnesses := 1; wso_top19_weight := 1; wso_timeshare_weight := 5; wso_miner_weight := 1;
  wso_witness_pay_normalization_factor := 25; wso_median_props := chain_properties_19_default; wso_majority_version := 0 |}.

(** [init_genesis] *)
Definition init_genesis (init_supply : Z) (snapshot : list account_summary) : M unit :=
  create_special_account STEEMIT_MINER_ACCOUNT 1 ;;
  create_special_account STEEMIT_NULL_ACCOUNT 1 ;;
  create_special_account STEEMIT_TEMP_ACCOUNT 0 ;;
  for_each (create_init_miner init_supply) (seq 0 STEEMIT_NUM_INIT_MINERS) ;;
  on_table dgp (fun _ => Ok (genesis_properties init_supply)) ;;
  for_each create_snapshot_account snapshot ;;
  on_table feed_history (fun _ => Ok genesis_feed_history) ;;
  for_each (fun i => create block_summaries i (fun id => mk_block_summary_object id 0)) (seqZ 0 65536) ;;
  on_table hardforks (fun _ => Ok genesis_hardforks) ;;
  on_table wso (fun _ => Ok genesis_schedule).
End Genesis.

(** ** A database without objects *)

Definition no_objects (db : database) : Prop :=
  accounts db = no_rows /\ authorities db = no_rows /\ escrows db = no_rows /\ savings_withdraws db = no_rows /\
  convert_requests db = no_rows /\ limit_orders db = no_rows /\ liquidity_balances db = no_rows /\ vesting_routes db = no_rows /\
  delegations db = no_rows /\ delegation_expirations db = no_rows /\ owner_histories db = no_rows /\ recovery_requests db = no_rows /\
  change_recovery_requests db = no_rows /\ decline_requests db = no_rows /\ witnesses db = no_rows /\ account_witness_votes db = no_rows /\
  transactions db = no_rows /\ block_summaries db = no_rows /\ account_bandwidths db = no_rows /\ account_metadatas db = no_rows /\
  comments db = no_rows /\ comment_votes db = no_rows.

(** ** Hardforks and the books *)

(** What a hardfork other than 0.1 changes of what the books count: nothing. *)
Definition recounts (a a' : account_object) : Prop := a' = a <| account_witnesses_voted_for := account_witnesses_voted_for a' |>.
#[export] Instance recounts_preorder : PreOrder recounts.
Proof.
  split; [by intros []|]. intros a a1 a2 E1 E2. unfold recounts in *.
  transitivity (a1 <| account_witnesses_voted_for := account_witnesses_voted_for a2 |>); [exact E2|].
  generalize (account_witnesses_voted_for a2). intros n. by rewrite E1.
Qed.
Record keeps_value (db db' : database) : Prop := mk_keeps_value {
  value_accounts : accounts_rel recounts db db';
  value_dgp : dgp db' = (dgp db) <| dgp_total_reward_shares2 := dgp_total_reward_shares2 (dgp db') |>;
  value_escrows : escrows db' = escrows db;
  value_orders : limit_orders db' = limit_orders db;
  value_requests : convert_requests db' = convert_requests db;
  value_savings : savings_withdraws db' = savings_withdraws db;
  value_routes : vesting_routes db' = vesting_routes db
}.
#[export] Instance keeps_value_preorder : PreOrder keeps_value.
Proof.
  split.
  - intros db. split; try done. by destruct (dgp db).
  - intros x y z [A1 D1 ? ? ? ? ?] [A2 D2 ? ? ? ? ?]. split; try congruence; [by etrans|]. rewrite D2, D1. by destruct (dgp x).
Qed.
Lemma value_on_table {T : Type} (proj : database -> T) `{!FieldSetter proj} f :
  (forall db t, let db' := db <| proj := t |> in accounts db' = accounts db /\ dgp db' = dgp db /\ escrows db' = escrows db /\
     limit_orders db' = limit_orders db /\ convert_requests db' = convert_requests db /\ savings_withdraws db' = savings_withdraws db /\
     vesting_routes db' = vesting_routes db) ->
  preserves keeps_value (on_table proj f).
Proof.
  intros Hp db u db' (t & _ & ->)%on_table_run. destruct (Hp db t) as (Ea & Ed & ? & ? & ? & ? & ?).
  split; try done; [by apply (accounts_rel_same recounts) | rewrite Ed; by destruct (dgp db)].
Qed.
Lemma value_recount k n : preserves keeps_value (modify accounts k (fun a => Ok (a <| account_witnesses_voted_for := n |>))).
Proof.
  intros db u db' H. assert (accounts_rel recounts db db') as Hrel by (eapply (modify_accounts_rel recounts); [|exact H]; by intros a a' [= <-]).
  apply modify_run in H as (? & ? & _ & _ & ->). split; try done. cbn. by destruct (dgp db).
Qed.
Lemma value_shares g : preserves keeps_value (modify_dgp (fun p => Ok (p <| dgp_total_reward_shares2 ::= g |>))).
Proof.
  intros db u db' (p & [= <-] & ->)%on_table_run. split; try done; by apply (accounts_rel_same recounts).
Qed.
Lemma value_push op force : preserves keeps_value (push_virtual_operation op force).
Proof.
  intros db u db' (n & l & ->)%push_virtual_operation_run. split; try done; [by apply (accounts_rel_same recounts) | cbn; by destruct (dgp db)].
Qed.
#[local] Hint Resolve value_recount value_push : preserves.
Ltac value_rows :=
  match goal with
  | |- preserves _ (modify_dgp _) => apply value_shares
  | |- preserves _ (modify accounts _ _) => fail 1
  | |- preserves _ (modify _ _ _) => unfold modify at 1
  | |- preserves _ (create _ _ _) => unfold create at 1
  | |- preserves _ (remove _ _) => unfold remove at 1
  | |- preserves _ (on_table _ _) => apply value_on_table; intros ? ?; by repeat split
  end.
Ltac value_solve := repeat (preserve; try value_rows).

Section Value.
Context `{F : fc_ops}.
Lemma adjust_rshares2_at_value n k old new : preserves keeps_value (adjust_rshares2_at n k old new).
Proof. revert k. induction n as [|n IH]; intros k; cbn [adjust_rshares2_at]; unfold get_comment; value_solve. Qed.
Lemma for_ancestors_value n f k : preserves keeps_value (for_ancestors n f k).
Proof. revert k. induction n as [|n IH]; intros k; cbn [for_ancestors]; unfold get_comment; value_solve. Qed.
Hint Resolve adjust_rshares2_at_value for_ancestors_value : preserves.
Lemma retally_children_value : preserves keeps_value retally_comment_children.
Proof. unfold retally_comment_children, count_comment, count_at_ancestors, get_comment. value_solve. Qed.
Lemma retally_votes_value : preserves keeps_value retally_witness_votes.
Proof. unfold retally_witness_votes, cast_votes, adjust_witness_vote. cbv zeta. value_solve. Qed.
Lemma retally_counts_value force : preserves keeps_value (retally_witness_vote_counts force).
Proof. unfold retally_witness_vote_counts, count_witness_votes. value_solve. Qed.
Lemma apply_12_value : preserves keeps_value apply_hardfork_12.
Proof. unfold apply_hardfork_12, close_posting, check_authority_exists. value_solve. Qed.
Lemma apply_16_value key : preserves keeps_value (apply_hardfork_16 key).
Proof. unfold apply_hardfork_16, replace_keys, update_owner_authority, check_authority_exists. cbv zeta. value_solve. Qed.
Lemma apply_17_value : preserves keeps_value apply_hardfork_17.
Proof. unfold apply_hardfork_17, reweigh_comment, adjust_rshares2, get_comment. cbv zeta. value_solve. Qed.
Hint Resolve retally_children_value retally_votes_value retally_counts_value apply_12_value apply_16_value apply_17_value : preserves.
Lemma hardfork_changes_value key h : h <> 1 -> preserves keeps_value (hardfork_changes key h).
Proof.
  intros Hh. unfold hardfork_changes, reset_virtual_schedule_time, retally_liquidity_weight.
  destruct h as [|p|p]; try solve [value_solve]. repeat (destruct p as [p|p|]; try done; try solve [value_solve]).
Qed.
Lemma record_hardfork_value h : preserves keeps_value (record_hardfork h).
Proof. unfold record_hardfork. value_solve. Qed.
End Value.

(** The books: what the objects hold is what is recorded as issued, and the objects are
    well formed. *)
Record in_books (db : database) : Prop := mk_in_books {
  books_wf : ledger_wf db;
  books_typed : well_typed db;
  books_gap : forall sym, gap sym db = 0
}.
(** Orders, escrows, requests and withdrawals hold no vesting shares. *)
Record no_shares_outside (db : database) : Prop := mk_no_shares_outside {
  outside_escrows : map_Forall (fun _ e => escrow_holdings VESTS_SYMBOL e = 0) (rows (escrows db));
  outside_orders : map_Forall (fun _ o => order_holdings VESTS_SYMBOL o = 0) (rows (limit_orders db));
  outside_requests : map_Forall (fun _ c => convert_holdings VESTS_SYMBOL c = 0) (rows (convert_requests db));
  outside_savings : map_Forall (fun _ s => savings_holdings VESTS_SYMBOL s = 0) (rows (savings_withdraws db))
}.

Lemma value_in_books db db' : keeps_value db db' -> in_books db -> in_books db'.
Proof.
  intros [A D E1 E2 E3 E4 E5] [Hwf [Ht Hs] Hg]. split.
  - destruct Hwf as [W1 W2 W3]. split.
    + unfold escrows_wf. by rewrite E1.
    + eapply vests_wf_rel, W2; [|by rewrite D]. intros k. specialize (A k). destruct A as [a a' Ha|]; constructor. unfold recounts in Ha. rewrite Ha. by split.
    + destruct W3 as [R1 R2 R3]. split; [by rewrite E5 | by rewrite E5|]. intros from. specialize (R3 from). unfold routes_of in *. by rewrite E5.
  - split; [|unfold typed_supplies; rewrite D; exact Hs]. intros k a' Ha'. specialize (A k). rewrite Ha' in A.
    inversion A as [a a0 Ha Ea|]; subst. unfold recounts in Ha. rewrite Ha. symmetry in Ea. exact (Ht k a Ea).
  - intros sym. rewrite <- (Hg sym). unfold gap, holdings. rewrite E1, E2, E3, E4, D. f_equal. do 5 f_equal.
    apply (msum_rel _ recounts); [|exact A]. intros a a' ->. done.
Qed.

(** ** The history of the chain *)

Section History.
Context `{F : fc_ops} {L : fc_laws F} `{C : crypto_ops}.

(** A step of the history: one that the ledger takes, or a hardfork.  The split of hardfork
    0.1 multiplies the shares of accounts only. *)
Inductive history_step (db : database) : database -> Prop :=
| history_ledger db' : ledger_step value_conditions db db' -> history_step db db'
| history_hardfork key h db' :
    (h = 1 -> no_shares_outside db) -> apply_hardfork key h db = Ok (tt, db') -> history_step db db'.

(** By how much the split multiplies what an account holds *)
Definition split_factor (magnitude sym : Z) : Z := if sym =? VESTS_SYMBOL then magnitude else 1.
Lemma scaled_holdings magnitude sym a a' : typed_account a -> scaled magnitude a a' ->
  account_holdings sym a' = split_factor magnitude sym * account_holdings sym a.
Proof.
  intros Ht [V _ _ _ _ _ ->]. unfold typed_account, account_symbols in Ht. cbn in Ht. injection Ht as T1 T2 T3 T4 T5 _ _.
  unfold account_holdings, amount_in, split_factor. cbn. rewrite V. cbn. rewrite T1, T2, T3, T4, T5, (Z.eqb_sym sym).
  destruct (Z.eqb_spec VESTS_SYMBOL sym) as [<- | _]; [|by rewrite Z.mul_1_l].
  change (STEEM_SYMBOL =? VESTS_SYMBOL) with false. change (SBD_SYMBOL =? VESTS_SYMBOL) with false. by rewrite !Z.add_0_l.
Qed.
Lemma scaled_zero {K V : Type} `{Countable K} (f : Z -> V -> Z) (m : gmap K V) magnitude sym :
  map_Forall (fun _ v => f VESTS_SYMBOL v = 0) m -> msum (f sym) m = split_factor magnitude sym * msum (f sym) m.
Proof.
  intros Hz. unfold split_factor. destruct (Z.eqb_spec sym VESTS_SYMBOL) as [-> | _]; [|lia].
  rewrite (msum_zero _ _ Hz). lia.
Qed.
Lemma scaled_supply magnitude n sym p : typed_supplies p ->
  let p' := p <| dgp_total_vesting_shares ::= (fun v => mk_asset (magnitude * amount v) (symbol v)) |> <| dgp_total_reward_shares2 := n |> in
  supply_of sym p' = split_factor magnitude sym * supply_of sym p /\ fund_holdings sym p' = split_factor magnitude sym * fund_holdings sym p.
Proof.
  intros Hs. unfold typed_supplies, supply_symbols in Hs. cbn in Hs. injection Hs as T1 T2 T3 T4 T5.
  unfold supply_of, fund_holdings, amount_in, split_factor. cbn. rewrite T1, T2, T3, T4, T5, (Z.eqb_sym sym).
  destruct (Z.eqb_spec VESTS_SYMBOL sym) as [<- | _]; [|by rewrite !Z.mul_1_l].
  change (STEEM_SYMBOL =? VESTS_SYMBOL) with false. change (SBD_SYMBOL =? VESTS_SYMBOL) with false. split; [by rewrite !Z.add_0_l | by rewrite Z.mul_0_r].
Qed.
Lemma split_in_books magnitude db u db' : no_shares_outside db -> perform_vesting_share_split magnitude db = Ok (u, db') ->
  in_books db -> in_books db'.
Proof.
  intros Hout (m & t & n & -> & Hrows)%split_run [[W1 [W2 W2t] W3] [Ht Hs] Hg]. split.
  - split; [exact W1 | | by destruct W3]. split; [|exact W2t]. intros k a' Ha'. specialize (Hrows k). cbn in Ha'. rewrite Ha' in Hrows.
    inversion Hrows as [a a0 Hsc Ea|]; subst. destruct (W2 k a ltac:(done)) as [V1 V2]. unfold vests_ok. rewrite (scaled_vests _ _ _ Hsc). cbn.
    split; [done | apply (scaled_fits _ _ _ Hsc)].
  - split; [|exact Hs]. intros k a' Ha'. specialize (Hrows k). cbn in Ha'. rewrite Ha' in Hrows.
    inversion Hrows as [a a0 Hsc Ea|]; subst. specialize (Ht k a ltac:(done)). unfold typed_account, account_symbols in *.
    rewrite (scaled_rest _ _ _ Hsc). cbn. rewrite (scaled_vests _ _ _ Hsc). exact Ht.
  - intros sym. transitivity (split_factor magnitude sym * gap sym db); [|by rewrite Hg, Z.mul_0_r].
    destruct Hout as [O1 O2 O3 O4]. unfold gap, holdings. cbn [accounts escrows limit_orders convert_requests savings_withdraws dgp rows set_field].
    rewrite !Z.mul_sub_distr_l, !Z.mul_add_distr_l, <- msum_scale.
    rewrite <- (scaled_zero escrow_holdings), <- (scaled_zero order_holdings), <- (scaled_zero convert_holdings), <- (scaled_zero savings_holdings) by done.
    destruct (scaled_supply magnitude n sym _ Hs) as [-> ->]. do 5 f_equal. f_equal.
    apply (msum_related _ _ (fun a a' => typed_account a /\ scaled magnitude a a')).
    { intros a a' [Ha Hsc]. by apply scaled_holdings. }
    intros k. specialize (Hrows k). destruct (rows (accounts db) !! k) as [a|] eqn:E; inversion Hrows; constructor.
    split; [by eapply Ht | done].
Qed.

(** Every step of the history keeps the books. *)
Lemma history_step_in_books db db' : history_step db db' -> in_books db -> in_books db'.
Proof.
  intros [db1 H | key h db1 Hout H] Hin.
  - pose proof Hin as [Hwf Ht Hg]. destruct (ledger_step_conserves _ _ H Hwf) as [Hg' Hwf'].
    split; [done | by eapply same_symbols_typed, Ht; eapply ledger_step_symbols | intros sym; by rewrite Hg'].
  - apply bind_run in H as (u1 & db2 & H1 & H). apply bind_run in H as (u2 & db3 & H2 & H3).
    eapply value_in_books; [by eapply value_push|]. eapply value_in_books; [by eapply record_hardfork_value|].
    destruct (Z.eq_dec h 1) as [-> | Hne].
    + by eapply split_in_books; [apply Hout | exact H1 |].
    + eapply value_in_books, Hin. by eapply hardfork_changes_value.
Qed.
Lemma history_in_books db db' : rtc history_step db db' -> in_books db -> in_books db'.
Proof. induction 1 as [|db1 db2 db3 H12 _ IH]; [done|]. intros Hin. by eapply IH, history_step_in_books. Qed.
End History.

(** ** The first objects *)

Definition special_names : list string := [STEEMIT_MINER_ACCOUNT; STEEMIT_NULL_ACCOUNT; STEEMIT_TEMP_ACCOUNT].
Definition genesis_names (snapshot : list account_summary) : list string :=
  special_names ++ (miner_name <$> seq 0 STEEMIT_NUM_INIT_MINERS) ++ (summary_name <$> snapshot).

(** An account of the genesis: it may own GOLOS, nothing else, and nobody has a proxy. *)
Record first_account (name : string) (a : account_object) : Prop := mk_first_account {
  first_name : account_name a = name;
  first_typed : typed_account a;
  first_proxy : account_proxy a = "";
  first_proxied : account_proxied_vsf_votes a = [0; 0; 0; 0];
  first_vests : amount (account_vesting_shares a) = 0;
  first_others : amount (account_savings_balance a) = 0 /\ amount (account_sbd_balance a) = 0 /\ amount (account_savings_sbd_balance a) = 0
}.
Definition own_golos (a : account_object) : Z := amount (account_balance a).
Definition first_witness (w : witness_object) : Prop := witness_votes w = 0.

(** The objects of a table are numbered from a counter. *)
Definition numbered {K V : Type} `{Countable K} (id : V -> Z) (t : table K V) : Prop :=
  (forall k v, rows t !! k = Some v -> id v < next_id t) /\
  forall k1 k2 v1 v2, rows t !! k1 = Some v1 -> rows t !! k2 = Some v2 -> id v1 = id v2 -> k1 = k2.
Lemma numbered_insert {K V : Type} `{Countable K} (id : V -> Z) (t : table K V) k v :
  numbered id t -> rows t !! k = None -> id v = next_id t -> numbered id (mk_table (<[k := v]> (rows t)) (next_id t + 1)).
Proof.
  intros [Hb Hi] Hk Hv. split; cbn.
  - intros q b [[<- <-] | [_ Hq]]%lookup_insert_Some; [lia|]. specialize (Hb q b Hq). lia.
  - intros k1 k2 v1 v2 [[<- <-] | [_ H1]]%lookup_insert_Some [[<- <-] | [_ H2]]%lookup_insert_Some E; [done | | | by eapply Hi].
    + specialize (Hb k2 v2 H2). lia.
    + specialize (Hb k1 v1 H1). lia.
Qed.
Lemma numbered_none {K V : Type} `{Countable K} (id : V -> Z) : numbered id (no_rows : table K V).
Proof. by split; cbn; intros; rewrite lookup_empty in *. Qed.

(** What the genesis does not create *)
Record nothing_else (db : database) : Prop := mk_nothing_else {
  else_escrows : escrows db = no_rows;
  else_orders : limit_orders db = no_rows;
  else_requests : convert_requests db = no_rows;
  else_savings : savings_withdraws db = no_rows;
  else_routes : vesting_routes db = no_rows;
  else_votes : account_witness_votes db = no_rows;
  else_comments : comments db = no_rows;
  else_histories : owner_histories db = no_rows
}.
(** A stage of the genesis: the accounts [names] exist and own [total] *)
Record stage (names : list string) (total : Z) (db : database) : Prop := mk_stage {
  stage_else : nothing_else db;
  stage_accounts : map_Forall first_account (rows (accounts db));
  stage_numbers : numbered account_id (accounts db);
  stage_total : msum own_golos (rows (accounts db)) = total;
  stage_fresh : forall k, k ∉ names -> rows (accounts db) !! k = None /\ rows (authorities db) !! k = None /\ rows (account_metadatas db) !! k = None;
  stage_witnesses : map_Forall (fun _ w => first_witness w) (rows (witnesses db));
  stage_witness_numbers : numbered witness_id (witnesses db);
  stage_witness_fresh : forall k, k ∉ names -> rows (witnesses db) !! k = None;
  stage_summaries : block_summaries db = no_rows
}.

Section Stages.
Context `{F : fc_ops}.

Lemma create_account_stage names total name f j owner active posting db :
  stage names total db -> name ∉ names ->
  (forall id, let a := f (new_account_object id name) in first_account name a /\ account_id a = id) ->
  (forall id id', own_golos (f (new_account_object id name)) = own_golos (f (new_account_object id' name))) ->
  exists db', create_genesis_account name f j owner active posting db = Ok (tt, db') /\ witnesses db' = witnesses db /\
    stage (name :: names) (total + own_golos (f (new_account_object 0 name))) db'.
Proof.
  intros [[E1 E2 E3 E4 E5 E6 E7 E8] Hacc Hnum Htot Hfr Hw Hwn Hwf Hs] Hname Hf Hown. destruct (Hfr name Hname) as (F1 & F2 & F3).
  unfold create_genesis_account.
  set (a := f (new_account_object (next_id (accounts db)) name)). set (db1 := db <| accounts := mk_table (<[name := a]> (rows (accounts db))) (next_id (accounts db) + 1) |>).
  rewrite (bind_eq _ _ db tt db1) by (by apply create_run).
  destruct (Hf (next_id (accounts db))) as [Ha Hid]. fold a in Ha, Hid.
  assert (exists mt, create_metadata name j db1 = Ok (tt, db1 <| account_metadatas := mt |>) /\
     forall k, k <> name -> rows mt !! k = rows (account_metadatas db) !! k) as (mt & Hrun & Hmt).
  { unfold create_metadata, store_metadata_for_account. rewrite (bind_eq _ _ db1 _ db1 eq_refl). unfold when.
    match goal with |- context [if ?c then _ else _] => destruct c end.
    - eexists (mk_table _ _). split; [apply create_run; split; [exact F3 | reflexivity]|]. intros k Hk. cbn. by rewrite lookup_insert_ne.
    - exists (account_metadatas db). split; [by destruct db | done]. }
  rewrite (bind_eq _ _ _ _ _ Hrun). eexists. split; [by apply create_run|].
  split; [done|]. split; cbn.
  - by split.
  - by apply map_Forall_insert_2.
  - by apply numbered_insert.
  - rewrite msum_insert_fresh by done. rewrite <- Htot, (Hown 0 (next_id (accounts db))). fold a. lia.
  - intros k [Hk1 Hk2]%not_elem_of_cons. destruct (Hfr k Hk2) as (G1 & G2 & G3). rewrite !lookup_insert_ne by congruence.
    split_and!; [done | done | by rewrite Hmt].
  - done.
  - done.
  - intros k [_ Hk2]%not_elem_of_cons. by apply Hwf.
  - done.
Qed.

Lemma create_accounts_stage {X : Type} (create_one : X -> M unit) (name_of : X -> string) (own : X -> Z) :
  (forall x names total db, stage names total db -> name_of x ∉ names ->
     exists db', create_one x db = Ok (tt, db') /\ stage (name_of x :: names) (total + own x) db') ->
  forall l names total db, stage names total db -> NoDup (name_of <$> l) -> (forall n, n ∈ name_of <$> l -> n ∉ names) ->
  exists db', for_each create_one l db = Ok (tt, db') /\
    stage (reverse (name_of <$> l) ++ names) (total + foldr (fun x s => own x + s) 0 l) db'.
Proof.
  intros Hone l. induction l as [|x l IH]; intros names total db Hst Hnd Hnew.
  - exists db. split; [done|]. cbn. by rewrite Z.add_0_r.
  - rewrite fmap_cons in *. apply NoDup_cons in Hnd as [Hx Hnd]. destruct (Hone x names total db Hst) as (db1 & Hrun & Hst1); [apply Hnew; left|].
    edestruct IH as (db' & Hrun' & Hst'); [exact Hst1 | done | |].
    { intros n Hn [-> | Hin]%elem_of_cons; [done|]. apply (Hnew n); [by right | done]. }
    exists db'. split; [cbn; by rewrite (bind_eq _ _ _ _ _ Hrun)|]. rewrite reverse_cons, <- app_assoc. cbn. by rewrite Z.add_assoc.
Qed.

Lemma first_new_account id name : first_account name (new_account_object id name).
Proof. by split. Qed.
Lemma create_special_stage names total name threshold db : stage names total db -> name ∉ names ->
  exists db', create_special_account name threshold db = Ok (tt, db') /\ stage (name :: names) total db'.
Proof.
  intros Hst Hn. edestruct (create_account_stage names total name) as (db' & Hrun & _ & Hst'); [done.. | | |].
  3: { exists db'. split; [exact Hrun|]. cbn in Hst'. by rewrite Z.add_0_r in Hst'. }
  - intros id a. split; [apply first_new_account | done].
  - done.
Qed.
Lemma create_snapshot_stage s names total db : stage names total db -> summary_name s ∉ names ->
  exists db', create_snapshot_account s db = Ok (tt, db') /\ stage (summary_name s :: names) (total + 0) db'.
Proof.
  intros Hst Hn. edestruct (create_account_stage names total (summary_name s)) as (db' & Hrun & _ & Hst'); [done.. | | |].
  3: { exists db'. split; [exact Hrun | exact Hst']. }
  - intros id a. split; [by split | done].
  - done.
Qed.
Lemma create_miner_stage key supply i names total db : stage names total db -> miner_name i ∉ names ->
  exists db', create_init_miner key supply i db = Ok (tt, db') /\
    stage (miner_name i :: names) (total + safe_of_uint64 (match i with O => supply | _ => 0 end)) db'.
Proof.
  intros Hst Hn. unfold create_init_miner. cbv zeta.
  edestruct (create_account_stage names total (miner_name i)) as (db1 & Hrun & Ew & [S1 S2 S3 S4 S5 S6 S7 S8 S9]); [done.. | | |].
  3: { rewrite (bind_eq _ _ _ _ _ Hrun). eexists. split; [apply create_run; split; [|reflexivity]|].
    - rewrite Ew. by apply (stage_witness_fresh _ _ _ Hst).
    - split; cbn; try done.
      + destruct S1. by split.
      + by apply map_Forall_insert_2.
      + apply numbered_insert; [done | | done]. rewrite Ew. by apply (stage_witness_fresh _ _ _ Hst).
      + intros k [Hk1 Hk2]%not_elem_of_cons. rewrite lookup_insert_ne by congruence. rewrite Ew. by apply (stage_witness_fresh _ _ _ Hst). }
  - intros id a. split; [by split | done].
  - done.
Qed.

Lemma create_snapshot_dgp s : preserves (fun db db' => dgp db' = dgp db) (create_snapshot_account s).
Proof.
  intros db u db' H. unfold create_snapshot_account, create_genesis_account, create_metadata, store_metadata_for_account in H. inv_run;
    repeat match goal with Hc : create _ _ _ _ = Ok _ |- _ => apply create_run in Hc as [_ Hc]; subst end; try done.
Qed.
Lemma create_snapshots_dgp l db u db' : for_each create_snapshot_account l db = Ok (u, db') -> dgp db' = dgp db.
Proof.
  revert db. induction l as [|x l IH]; intros db H; cbn in H; [by apply mret_run in H as [_ ->]|].
  apply bind_run in H as (u1 & db1 & H1%create_snapshot_dgp & H%IH). by rewrite H.
Qed.
Lemma create_summaries_runs l db : NoDup l -> (forall k, k ∈ l -> rows (block_summaries db) !! k = None) ->
  exists t, for_each (fun i => create block_summaries i (fun id => mk_block_summary_object id 0)) l db = Ok (tt, db <| block_summaries := t |>).
Proof.
  intros Hnd. revert db. induction Hnd as [|k l Hk _ IH]; intros db Hnew; [exists (block_summaries db); by destruct db|].
  set (db1 := db <| block_summaries := mk_table (<[k := mk_block_summary_object (next_id (block_summaries db)) 0]> (rows (block_summaries db)))
    (next_id (block_summaries db) + 1) |>).
  destruct (IH db1) as (t & Hrun).
  - intros j Hj. cbn. rewrite lookup_insert_ne by congruence. apply Hnew. by right.
  - exists t. cbn [for_each]. rewrite (bind_eq _ _ db tt db1); [exact Hrun|]. apply create_run. split; [apply Hnew; left | done].
Qed.

(** The objects that a new chain starts with *)
Record genesis_state (supply : Z) (db : database) : Prop := mk_genesis_state {
  start_else : nothing_else db;
  start_accounts : map_Forall first_account (rows (accounts db));
  start_numbers : numbered account_id (accounts db);
  start_total : msum own_golos (rows (accounts db)) = safe_of_uint64 supply;
  start_witnesses : map_Forall (fun _ w => first_witness w) (rows (witnesses db));
  start_witness_numbers : numbered witness_id (witnesses db);
  start_dgp : dgp db = genesis_properties supply;
  start_hardforks : hardforks db = genesis_hardforks
}.
Lemma genesis_runs key supply snapshot db0 : no_objects db0 -> NoDup (genesis_names snapshot) ->
  exists db, init_genesis key supply snapshot db0 = Ok (tt, db) /\ genesis_state supply db.
Proof.
  intros Hno Hnd. assert (stage [] 0 db0) as S0.
  { destruct Hno as (A1 & A2 & A3 & A4 & A5 & A6 & A7 & A8 & A9 & A10 & A11 & A12 & A13 & A14 & A15 & A16 & A17 & A18 & A19 & A20 & A21 & A22).
    split; rewrite ?A1, ?A2, ?A15, ?A18, ?A20; try done; try apply numbered_none; try apply map_Forall_empty; try apply msum_empty. }
  unfold genesis_names in Hnd. apply NoDup_app in Hnd as (N1 & N2 & (N3 & N4 & N5)%NoDup_app).
  destruct (create_special_stage [] 0 STEEMIT_MINER_ACCOUNT 1 db0 S0) as (db1 & R1 & S1); [by apply not_elem_of_nil|].
  destruct (create_special_stage _ _ STEEMIT_NULL_ACCOUNT 1 db1 S1) as (db2 & R2 & S2); [by apply (bool_decide_eq_true_1 (STEEMIT_NULL_ACCOUNT ∉ [STEEMIT_MINER_ACCOUNT]))|].
  destruct (create_special_stage _ _ STEEMIT_TEMP_ACCOUNT 0 db2 S2) as (db3 & R3 & S3).
  { by apply (bool_decide_eq_true_1 (STEEMIT_TEMP_ACCOUNT ∉ [STEEMIT_NULL_ACCOUNT; STEEMIT_MINER_ACCOUNT])). }
  assert (forall n, n ∈ [STEEMIT_TEMP_ACCOUNT; STEEMIT_NULL_ACCOUNT; STEEMIT_MINER_ACCOUNT] -> n ∈ special_names) as Hspecial.
  { intros n. unfold special_names. set_solver. }
  destruct (create_accounts_stage (create_init_miner key supply) miner_name (fun i => safe_of_uint64 (match i with O => supply | _ => 0 end))
    (create_miner_stage key supply) (seq 0 STEEMIT_NUM_INIT_MINERS) _ _ _ S3 N3) as (db4 & R4 & S4).
  { intros n Hn Hin%Hspecial. apply (N2 n Hin), elem_of_app. by left. }
  set (db5 := db4 <| dgp := genesis_properties supply |>).
  assert (stage (reverse (miner_name <$> seq 0 STEEMIT_NUM_INIT_MINERS) ++ [STEEMIT_TEMP_ACCOUNT; STEEMIT_NULL_ACCOUNT; STEEMIT_MINER_ACCOUNT])
    (safe_of_uint64 supply) db5) as S5.
  { destruct S4 as [[]]. split; try done. cbn in *. lia. }
  destruct (create_accounts_stage create_snapshot_account summary_name (fun _ => 0) create_snapshot_stage snapshot _ _ _ S5 N5) as (db6 & R6 & S6).
  { intros n Hn [Hin%elem_of_reverse | Hin%Hspecial]%elem_of_app; [by apply (N4 n)|]. apply (N2 n Hin), elem_of_app. by right. }
  pose proof (create_snapshots_dgp _ _ _ _ R6) as D6.
  destruct (create_summaries_runs (seqZ 0 65536) (db6 <| feed_history := genesis_feed_history |>)) as (t & R8).
  { apply NoDup_seqZ. }
  { intros k _. cbn. by rewrite (stage_summaries _ _ _ S6). }
  eexists. split.
  { unfold init_genesis. rewrite (bind_eq _ _ _ _ _ R1), (bind_eq _ _ _ _ _ R2), (bind_eq _ _ _ _ _ R3), (bind_eq _ _ _ _ _ R4).
    rewrite (bind_eq _ _ db4 tt db5) by done. rewrite (bind_eq _ _ _ _ _ R6).
    rewrite (bind_eq _ _ db6 tt (db6 <| feed_history := genesis_feed_history |>)) by done.
    rewrite (bind_eq _ _ _ _ _ R8).
    erewrite bind_eq by reflexivity. reflexivity. }
  destruct S6 as [[] S61 S62 S63 _ S64 S65 _ _]. split; try done.
  rewrite <- (Z.add_0_r (safe_of_uint64 supply)). change (msum own_golos (rows (accounts db6)) = safe_of_uint64 supply + 0). rewrite S63. f_equal.
  clear. by induction snapshot.
Qed.
End Stages.

(** ** The start of the chain *)

Section Start.
Context `{F : fc_ops} {L : fc_laws F} `{C : crypto_ops}.

Lemma first_shares name a i : first_account name a -> share_at a i = 0.
Proof.
  intros [_ _ _ Hp Hv _]. unfold share_at. destruct i as [|j]; [done|]. rewrite Hp.
  do 4 (destruct j as [|j]; [done|]). by destruct j.
Qed.
Lemma first_holdings sym name a : first_account name a -> account_holdings sym a = amount_in sym (mk_asset (own_golos a) STEEM_SYMBOL).
Proof.
  intros [_ Ht _ _ Hv (H1 & H2 & H3)]. unfold typed_account, account_symbols in Ht. cbn in Ht. injection Ht as T1 T2 T3 T4 T5 _ _.
  unfold account_holdings, amount_in, own_golos. cbn. rewrite T1, T2, T3, T4, T5, Hv, H1, H2, H3. by repeat case_match; rewrite !Z.add_0_r.
Qed.
Lemma genesis_in_books supply db : genesis_state supply db -> in_books db.
Proof.
  intros [[E1 E2 E3 E4 E5 E6 E7 E8] Hacc _ Htot _ _ Hdgp _]. split.
  - split.
    + unfold escrows_wf. rewrite E1. done.
    + split; [|by rewrite Hdgp]. intros k a Ha. destruct (Hacc k a Ha) as [_ Ht _ _ Hv _]. unfold typed_account, account_symbols in Ht. cbn in Ht.
      injection Ht as _ _ _ _ T _ _. split; [done | by rewrite Hv].
    + split; [by rewrite E5 | by rewrite E5 |]. intros from. unfold routes_of. rewrite E5. by split; [constructor|].
  - split; [|by rewrite Hdgp]. intros k a Ha. apply (first_typed _ _ (Hacc k a Ha)).
  - intros sym. unfold gap, holdings. rewrite E1, E2, E3, E4, Hdgp. cbn [rows no_rows]. rewrite !msum_empty.
    rewrite (msum_ext _ (fun a => amount_in sym (mk_asset (own_golos a) STEEM_SYMBOL))) by (intros k a Ha; by eapply first_holdings, Hacc).
    assert (msum (fun a => amount_in sym (mk_asset (own_golos a) STEEM_SYMBOL)) (rows (accounts db)) = amount_in sym (mk_asset (safe_of_uint64 supply) STEEM_SYMBOL)) as ->.
    { rewrite <- Htot. unfold amount_in. cbn [amount symbol]. destruct (STEEM_SYMBOL =? sym); [done | by apply msum_zero]. }
    unfold supply_of, fund_holdings, amount_in. cbn [genesis_properties dgp_current_supply dgp_current_sbd_supply dgp_total_vesting_shares dgp_total_vesting_fund_steem dgp_total_reward_fund_steem amount symbol].
    repeat case_match; lia.
Qed.

Lemma genesis_votes supply db : genesis_state supply db -> votes_wf db /\ tally (fun _ _ => 0) (fun _ => 0) db.
Proof.
  intros [[_ _ _ _ _ E6 _ _] Hacc [_ Hids] _ Hw [_ Hwids] _ _].
  assert (forall a x, voted a x db = false) as Hno.
  { intros a x. unfold voted. rewrite E6. apply bool_decide_eq_false. cbn. rewrite lookup_empty. by intros [? [=]]. }
  split; split.
  - intros k a Ha. destruct (Hacc k a Ha) as [Hn _ _ Hp _ _]. by rewrite Hp.
  - done.
  - done.
  - by rewrite E6.
  - done.
  - intros k [a Ha]. exists 0%nat. eapply height_self; [done | apply (first_proxy _ _ (Hacc k a Ha))].
  - intros p a j Ha _ _. rewrite (first_shares p) by by apply Hacc. symmetry. apply msum_zero. intros k b Hb.
    unfold proxied_share. rewrite (first_shares k) by by apply Hacc. by case_match.
  - intros o x Hx. rewrite (Hw o x Hx). symmetry. apply msum_zero. intros k b _. unfold cast_share. by rewrite Hno.
Qed.
Lemma genesis_ids supply db : genesis_state supply db -> ids_fresh db.
Proof.
  intros [[_ _ _ _ _ E6 _ _] _ [Ha _] _ _ [Hw _] _ _]. split; [exact Ha | exact Hw | by rewrite E6].
Qed.
Lemma genesis_counted supply db : genesis_state supply db -> well_counted (forest_of db) (Threads.total_of db).
Proof.
  intros [[_ _ _ _ _ _ E7 _] _ _ _ _ _ Hdgp _]. unfold forest_of, Threads.total_of. rewrite E7, Hdgp. cbn [rows no_rows]. rewrite fmap_empty.
  split; try done.
Qed.
Lemma genesis_in_order supply db : genesis_state supply db -> in_order db.
Proof. intros [_ _ _ _ _ _ _ Hh]. by split; unfold processed_hardforks; rewrite Hh. Qed.

(** C8: The chain can start.  On a database without objects, and with a snapshot that names
    no account twice and none of those that the genesis creates itself, [init_genesis]
    succeeds, and what it creates satisfies the invariants that the other parts rely on:
    the identifiers are below the counters, the tallies of proxies and witnesses agree with
    a recount, the (empty) discussions are counted, hardfork 0 is the one in force, the
    balances of the accounts add up to the recorded supply and the books balance. *)
Theorem genesis_starts key supply snapshot db0 :
  no_objects db0 -> NoDup (genesis_names snapshot) ->
  exists db, init_genesis key supply snapshot db0 = Ok (tt, db) /\
    ids_fresh db /\ votes_wf db /\ tally (fun _ _ => 0) (fun _ => 0) db /\
    well_counted (forest_of db) (Threads.total_of db) /\ in_order db /\ last_hardfork db = 0 /\ fresh_histories db /\
    msum own_golos (rows (accounts db)) = amount (dgp_current_supply (dgp db)) /\ in_books db.
Proof.
  intros Hno Hnd. destruct (genesis_runs key supply snapshot db0 Hno Hnd) as (db & Hrun & Hst). exists db. split; [done|].
  destruct (genesis_votes supply db Hst) as [Hv Ht].
  split_and!; [by eapply genesis_ids | done | done | by eapply genesis_counted | by eapply genesis_in_order | | | | by eapply genesis_in_books].
  - unfold last_hardfork. by rewrite (start_hardforks _ _ Hst).
  - unfold fresh_histories. by rewrite (else_histories _ (start_else _ _ Hst)).
  - by rewrite (start_total _ _ Hst), (start_dgp _ _ Hst).
Qed.

(** C2: The books balance from the first block on.  After the genesis, every history that
    runs - validated operations with a modelled evaluator, the steps of blocks, payouts,
    hardforks, bookkeeping and moves of the head block in any order - leaves, in every
    symbol, exactly as much recorded as supply as the objects hold, with every amount of
    the symbol its field is declared with.  The conditions: the votes of a comment can be
    weighed when it is paid ([payout_ready]; without it the books can break), the shares of
    "null" are worth less than 2^63 when a step of a block runs ([burnable]), and no order,
    escrow, request or withdrawal holds vesting shares when hardfork 0.1 multiplies those of
    the accounts. *)
Theorem books_balance_from_genesis key supply snapshot db0 :
  no_objects db0 -> NoDup (genesis_names snapshot) ->
  exists db, init_genesis key supply snapshot db0 = Ok (tt, db) /\
    forall db', rtc history_step db db' ->
      ledger_wf db' /\ well_typed db' /\ forall sym, supply_of sym (dgp db') = holdings sym db'.
Proof.
  intros Hno Hnd. destruct (genesis_runs key supply snapshot db0 Hno Hnd) as (db & Hrun & Hst). exists db. split; [done|].
  intros db' Hsteps. destruct (history_in_books db db' Hsteps (genesis_in_books supply db Hst)) as [Hwf Ht Hg].
  split_and!; [done | done |]. intros sym. specialize (Hg sym). unfold gap in Hg. lia.
Qed.
End Start.

(** ** Runs *)

Definition sample_summary (name : string) : account_summary :=
  mk_account_summary name (mk_account_keys (mk_authority 1 [] [(7, 1)]) (mk_authority 1 [] [(8, 1)]) (mk_authority 1 [] [(9, 1)]) 10).
Definition sample_snapshot : list account_summary := sample_summary <$> ["alice"; "bob"].
Lemma genesis_starts_witness : exists db, init_genesis (F := fc_ref) 7 STEEMIT_INIT_SUPPLY sample_snapshot blank_database = Ok (tt, db) /\
  msum own_golos (rows (accounts db)) = amount (dgp_current_supply (dgp db)).
Proof.
  destruct (genesis_starts (F := fc_ref) 7 STEEMIT_INIT_SUPPLY sample_snapshot blank_database) as (db & Hrun & _ & _ & _ & _ & _ & _ & _ & Hsum & _).
  - by repeat split.
  - apply (bool_decide_eq_true_1 (NoDup (genesis_names sample_snapshot))). vm_compute. reflexivity.
  - exists db. split; [exact Hrun | exact Hsum].
Defined.

(** Only the metadata of bob is stored. *)
Definition genesis_again : database :=
  blank_database <| store_account_metadata := store_metadata_for_listed |> <| accounts_to_store_metadata := ["bob"] |>.

(** The genesis up to the summaries of blocks, of which only the table differs *)
Definition genesis_objects : M unit :=
  create_special_account STEEMIT_MINER_ACCOUNT 1 ;;
  create_special_account STEEMIT_NULL_ACCOUNT 1 ;;
  create_special_account STEEMIT_TEMP_ACCOUNT 0 ;;
  for_each (create_init_miner (F := fc_ref) 7 STEEMIT_INIT_SUPPLY) (seq 0 STEEMIT_NUM_INIT_MINERS) ;;
  on_table dgp (fun _ => Ok (genesis_properties (F := fc_ref) STEEMIT_INIT_SUPPLY)) ;;
  for_each (create_snapshot_account (F := fc_ref)) sample_snapshot ;;
  on_table feed_history (fun _ => Ok genesis_feed_history).
Definition sample_genesis (t : table Z block_summary_object) : database :=
  (run_state genesis_objects genesis_again) <| block_summaries := t |> <| hardforks := genesis_hardforks |> <| wso := genesis_schedule |>.
Lemma sample_genesis_runs : exists t, init_genesis (F := fc_ref) 7 STEEMIT_INIT_SUPPLY sample_snapshot genesis_again = Ok (tt, sample_genesis t).
Proof.
  assert (genesis_objects genesis_again = Ok (tt, run_state genesis_objects genesis_again)) as H by run_now.
  unfold sample_genesis. set (db7 := run_state genesis_objects genesis_again) in *.
  assert (block_summaries db7 = no_rows) as Hs by (vm_compute; reflexivity). clearbody db7.
  unfold genesis_objects in H. apply bind_run in H as ([] & db1 & R1 & H). apply bind_run in H as ([] & db2 & R2 & H).
  apply bind_run in H as ([] & db3 & R3 & H). apply bind_run in H as ([] & db4 & R4 & H). apply bind_run in H as ([] & db5 & R5 & H).
  apply bind_run in H as ([] & db6 & R6 & R7).
  destruct (create_summaries_runs (seqZ 0 65536) db7) as (t & R8); [apply NoDup_seqZ | intros k _; by rewrite Hs|].
  exists t. unfold init_genesis.
  rewrite (bind_eq _ _ _ _ _ R1), (bind_eq _ _ _ _ _ R2), (bind_eq _ _ _ _ _ R3), (bind_eq _ _ _ _ _ R4), (bind_eq _ _ _ _ _ R5).
  rewrite (bind_eq _ _ _ _ _ R6), (bind_eq _ _ _ _ _ R7), (bind_eq _ _ _ _ _ R8). reflexivity.
Qed.

(** The first block: the miner gives alice GOLOS, for a part of which she gets shares; the
    block becomes the head block, and hardfork 0.1 multiplies the shares. *)
Definition first_gift : transfer_operation := mk_transfer STEEMIT_INIT_MINER_NAME "alice" (mk_asset 5000 STEEM_SYMBOL) "".
Definition first_investment : transfer_to_vesting_operation := mk_transfer_to_vesting "alice" "alice" (mk_asset 3000 STEEM_SYMBOL).
Definition first_block : signed_block :=
  mk_signed_block (mk_signed_block_header 0 (STEEMIT_GENESIS_TIME + 3) STEEMIT_INIT_MINER_NAME 0 [] 0) [].
Lemma books_balance_from_genesis_witness : exists db db',
  init_genesis (F := fc_ref) 7 STEEMIT_INIT_SUPPLY sample_snapshot genesis_again = Ok (tt, db) /\
  rtc (history_step (F := fc_ref) (C := crypto_ref)) db db' /\ dgp_head_block_number (dgp db') = 1 /\
  option_map account_vesting_shares (rows (accounts db') !! "alice") = Some (mk_asset 30000000000 VESTS_SYMBOL) /\
  supply_of VESTS_SYMBOL (dgp db') = holdings VESTS_SYMBOL db' /\ supply_of STEEM_SYMBOL (dgp db') = holdings STEEM_SYMBOL db'.
Proof.
  destruct (books_balance_from_genesis (F := fc_ref) (C := crypto_ref) 7 STEEMIT_INIT_SUPPLY sample_snapshot genesis_again) as (db & Hrun & H).
  { by repeat split. }
  { apply (bool_decide_eq_true_1 (NoDup (genesis_names sample_snapshot))). vm_compute. reflexivity. }
  destruct sample_genesis_runs as [t Ht]. rewrite Hrun in Ht. injection Ht as ->.
  set (db1 := run_state (transfer_evaluator (F := fc_ref) first_gift) (sample_genesis t)).
  set (db2 := run_state (transfer_to_vesting_evaluator (F := fc_ref) first_investment) db1).
  set (db3 := run_state (update_global_dynamic_data (F := fc_ref) (C := crypto_ref) (fun _ => 200) first_block skip_nothing) db2).
  set (db4 := run_state (apply_hardfork (F := fc_ref) 7 1) db3).
  assert (rtc (history_step (F := fc_ref) (C := crypto_ref)) (sample_genesis t) db4) as Hsteps.
  { apply (rtc_l _ _ db1); [|apply (rtc_l _ _ db2); [|apply (rtc_l _ _ db3); [|apply rtc_once]]].
    - apply history_ledger. refine (operation_step value_conditions _ (op_transfer first_gift) _ _ _ eq_refl I _);
        [vm_compute; reflexivity | unfold db1; run_now].
    - apply history_ledger. refine (operation_step value_conditions _ (op_transfer_to_vesting first_investment) _ _ _ eq_refl I _);
        [vm_compute; reflexivity | unfold db2; run_now].
    - apply history_ledger. apply (head_step _ _ (fun _ => 200) first_block skip_nothing); [vm_compute; reflexivity | unfold db3; run_now].
    - apply (history_hardfork _ 7 1); [|unfold db4; run_now]. intros _.
      assert (rows (escrows db3) = ∅ /\ rows (limit_orders db3) = ∅ /\ rows (convert_requests db3) = ∅ /\ rows (savings_withdraws db3) = ∅)
        as (E1 & E2 & E3 & E4) by (vm_compute; auto).
      split; rewrite ?E1, ?E2, ?E3, ?E4; apply map_Forall_empty. }
  exists (sample_genesis t), db4. split; [exact Hrun|]. split; [exact Hsteps|].
  split; [vm_compute; reflexivity|]. split; [vm_compute; reflexivity|].
  destruct (H db4 Hsteps) as (_ & _ & Hb). split; apply Hb.
Defined.
